(* ===== verification/_CoqProject ===== *)
-Q . S2P
Prelude.v
CString.v
Mb2.v
Mem.v
Frames.v
Pmm.v
Vmm.v
PageTable.v
Heap.v
HeapTiles.v
HeapSpec.v
HeapOps.v
HeapProps.v
Task.v
BumpEnv.v
Sched.v
Fork.v
Context.v
Ring.v
SchedSpec.v
SchedProps.v
Fs.v
Tarfs.v
TarTree.v
TarPath.v
TarMount.v
Vfs.v
VfsSpec.v
TarVfs.v
Tty.v
TtySpec.v
Keyboard.v
Partition.v
Ext2.v
Ext2Spec.v
VfsInit.v
Elf.v
UserPages.v
PageRights.v
Space.v
SpaceOps.v
SpaceClone.v
SpaceLife.v
ElfSpec.v
User.v
UserSpec.v
UserStack.v
Acpi.v
AcpiSpec.v
Hardware.v
Apic.v
ApicSpec.v
Idt.v
IdtSpec.v
Timers.v
TimersSpec.v
Procfs.v
ProcSpec.v
ProcVfs.v
Stdin.v
UserMem.v
Syscall.v
SysMem.v
SysSpec.v
SysDir.v
Panic.v
Pci.v
Ahci.v
AhciSpec.v
AhciInit.v
AhciDisk.v
