(* ===== verification/Prelude.v ===== *)
(** * A verification development of the retux kernel

    retux is a small x86-64 kernel in C++.  It boots through Multiboot2, sets up physical
    and virtual memory and a heap, schedules tasks, runs unmodified static Linux programs
    and serves their system calls from an initrd or an ext2 disk.  This library models the
    C++ of [src/src/] as executable functions and proves what makes them correct.

    ** How the code is modelled

    - A function that can fail returns [Res] (below): [Ok], [Halt] for the kernel's own
      [hlt] loops, [Fault] for what the language leaves undefined or the CPU traps on, and
      [NoFuel] when a loop bound of the model is too small.  [ensures r Q] says that [r] is
      not [Fault], not [NoFuel], and that its value satisfies [Q]: every theorem stated
      with it also says that the code comes to an end and stays inside its objects.
      [ensures_frames n a r Q] ([Frames]) adds that it stops the machine only when fewer
      than [n] frames are free in the allocator [a].
    - Machine integers are [Z] with the wrap written out ([u8], [u16], [u32], [u64],
      [i64_of]).  Structures that the code overlays on raw bytes are read at their byte
      offsets.  Buffers are lists of bytes; what an uninitialised one holds is a parameter
      ([stale], [fresh]).
    - State is passed explicitly.  Objects that are shared through pointers (control
      blocks, open files, heap blocks, page tables) live in a store indexed by address.
    - Interfaces, and what is outside [src/], are classes with laws: [FrameAlloc] and
      [KernelEnv] are the frame allocator and the heap and address spaces towards their
      clients, [Hardware] the registers of devices and [Dma] what they do to memory,
      [PciBus], [IoApicDev], [PitDev], [HpetDev] and [AhciPort] what the devices are
      documented to do.  [Pmm], the heap of [BumpEnv], the clock of [TimersSpec] and the
      disk of [AhciDisk] are instances.

    ** The parts

    - Shared: this file (outcomes, integers, bits, pages, little-endian bytes), [CString]
      ([lib/string.cpp], [lib/hex.hpp]), [Mem] (byte-addressed memory), [Frames] and [Task]
      (the interfaces), [Hardware] (registers), [BumpEnv] (a concrete heap).
    - Boot data: [Mb2] ([boot/mb2.hpp]); [Acpi], [AcpiSpec] ([boot/acpi.cpp]).
    - Memory: [Pmm] ([mem/pmm.cpp]); [Vmm], [PageTable] ([mem/vmm.cpp] and the theory of
      its tables: a tree of frames, relative to the PML4 slots of interest), [PageRights]
      (who may read, write and execute a page), [Space],
      [SpaceOps], [SpaceClone], [SpaceLife] (what an address space owns; its creation, copy
      and destruction); [Heap], [HeapTiles], [HeapSpec], [HeapOps], [HeapProps] ([mem/heap.cpp]).
    - Tasks: [Task] ([task/task.cpp]), [Sched] ([task/sched.cpp], [task/switch.asm]),
      [Fork] ([task/fork.cpp]), with [Context], [Ring], [SchedSpec] and [SchedProps].
    - Programs: [Elf], [UserPages], [ElfSpec] ([task/elf.cpp]); [User], [UserSpec],
      [UserStack] ([task/user.cpp]).
    - Files: [Fs] (the interface of a driver), [Vfs], [VfsSpec], [VfsInit] ([fs/vfs.cpp]);
      [Tarfs], [TarTree], [TarPath], [TarMount], [TarVfs] ([fs/tarfs.cpp]); [Partition]
      ([fs/partition.cpp]); [Ext2], [Ext2Spec] ([fs/ext2.cpp]); [Procfs], [ProcSpec],
      [ProcVfs] ([fs/procfs.cpp]).
    - Devices: [Apic], [ApicSpec] ([cpu/apic.cpp], [cpu/pic.cpp]); [Idt], [IdtSpec]
      ([cpu/idt.cpp], [cpu/irq.cpp], [cpu/tss.cpp]); [Timers], [TimersSpec]
      ([io/pit.cpp], [io/hpet.cpp], the choice between them in [main.cpp]); [Tty], [TtySpec] ([tty/tty.cpp], [io/vga.cpp]); [Keyboard]
      ([io/keyboard.cpp]); [Panic] ([io/serial.cpp], [io/vga.cpp], the exception report of
      [cpu/idt.cpp]); [Pci] ([dev/pci.cpp]); [Ahci],
      [AhciSpec], [AhciInit], [AhciDisk] ([dev/ahci.cpp]).
    - System calls: [Stdin] (the line discipline of [read] on descriptor 0), [UserMem]
      (loads and stores through the caller's page tables), [Syscall] (the rest of
      [cpu/syscall.cpp] and the dispatcher), [SysMem], [SysSpec], [SysDir].

    A definition has the name of the function, constant or structure it models where the
    code has one.  The parts meet as in the code: the heap maps pages taken from the frame
    allocator, tasks and drivers take blocks from the heap, the loader and the system calls
    walk the page tables and the VFS, the VFS calls the drivers through the tables of [Fs].

    ** What is proved

    - Memory.  Frames: lowest free frame first, exact accounting, and nothing in use at
      boot handed out.  Tables: [map_into], [unmap] and [protect] change exactly the page
      asked for, never another address space, and keep the tree of tables.  Spaces: a fork
      copies every private page and nothing else, and destroying a space gives back exactly
      what it took.  Heap: [kmalloc]
      and [kfree] refine a finite map of live, aligned, disjoint blocks.
    - Tasks.  The ring and the ownership of every control block hold under any sequence of
      yields, ticks, exits, forks and waits; round-robin order and absence of starvation;
      a switch away and back restores the whole context; [fork] and [wait4] do what they
      promise and give everything back on errors.
    - Programs.  A loaded image has every byte of every segment in place, zeros after the
      file part, with the rights the segment asks for, and the initial stack is the one the ABI prescribes.
    - Files.  [VfsSpec] states what a driver promises as a class; against it, lookup
      resolves a path as a walk of the tree does and reading gives the contents.  The
      initrd and procfs drivers discharge it; mounting an archive gives exactly the tree
      its entries describe; the ext2 block map is the tree of pointer blocks on the disk.
    - Devices.  Every legacy interrupt line in the I/O APIC's range reaches its own vector;
      reading the firmware tables ends whatever a MADT holds, and records what tables
      encoded as the specification says list; the console refines a reference terminal, the
      keyboard a bounded queue; the clock runs at the rate it remembers; an exception is
      reported.  From the
      PCI scan on, the disk driver delivers exactly the sectors asked for, in address spaces
      that map free frames to themselves.
    - System calls.  The descriptor table of a process stays sound through every call that
      returns; [open] and [close], [mmap] and [munmap] undo each other on the table and
      the pages; [brk] moves the break and nothing else;
      [getdents64] lists each entry once, in order and whole; reading the terminal refines
      a line editor.

    ** Bounds and fuel

    Recursion follows the data or a counter of the code wherever there is one.  Where the
    code loops on a condition, the function takes fuel, and the theorems show the fuel of
    the model is enough: the walk over the MADT needs as many steps as the table has bytes,
    a directory as many chunks as it has entries, a path as many steps as it has bytes, the
    free list as many as the heap has blocks, [getdents64] 33 chunks because each gives an
    entry and it collects 32.  Loops whose end depends on a bound of the caller (the length
    of a directory, of a user string) take the fuel as a parameter.

    ** Not modelled

    - Caches, the TLB, and instructions that only change CPU modes ([cpu/cpu.cpp],
      [cpu/fpu.cpp]); the assembly stubs, except [switch_to].
    - The order of the characters that several parts send to the serial port: what the
      system calls print to it is part of their own state.
    - [spawn_test], [spawn_from_elf] and [kernel_main] but for its timer: glue that calls
      the parts in order.  What [fork] shares between two processes is a finding, not part
      of the state of [SysSpec].
    - Several processors: the kernel runs on one.  Interrupts are modelled where the code
      lets them in between two steps ([Keyboard], [SchedSpec], [Timers]). *)

From Stdlib Require Export ZArith Lia Bool Btauto.
From stdpp Require Export base tactics decidable numbers list option gmap.

#[global] Open Scope Z_scope.
#[global] Set Default Proof Using "Type".

(** ** Outcomes *)

(** What running a piece of kernel code produces.  [Halt] is the code's own
    [hlt] loop (a panic), [Fault] is behaviour the C++ standard leaves undefined
    or the CPU traps on (an access outside an object, a null dereference, a
    division by zero), and [NoFuel] is not a behaviour of the code: the loop
    bound the model was run with was too small. *)
Inductive Res (A : Type) : Type :=
  | Ok (a : A)
  | Halt
  | Fault
  | NoFuel.
Arguments Ok {A} a.
Arguments Halt {A}.
Arguments Fault {A}.
Arguments NoFuel {A}.

#[export] Instance res_ret : MRet Res := @Ok.
#[export] Instance res_bind : MBind Res := λ A B f m,
  match m with
  | Ok a => f a
  | Halt => Halt
  | Fault => Fault
  | NoFuel => NoFuel
  end.

#[export] Instance res_eq_dec {A} `{EqDecision A} : EqDecision (Res A).
Proof. solve_decision. Defined.

(** Read an option as an access that faults when there is nothing there. *)
Definition or_fault {A} (o : option A) : Res A :=
  match o with Some a => Ok a | None => Fault end.

Lemma bind_Ok {A B} (m : Res A) (f : A → Res B) b :
  m ≫= f = Ok b → ∃ a, m = Ok a ∧ f a = Ok b.
Proof. destruct m; simpl; intros H; naive_solver. Qed.

Lemma bind_ret {A B} (a : A) (f : A → Res B) : Ok a ≫= f = f a.
Proof. done. Qed.

Lemma bind_assoc {A B C} (m : Res A) (f : A → Res B) (g : B → Res C) : (m ≫= f) ≫= g = m ≫= (λ a, f a ≫= g).
Proof. by destruct m. Qed.

Lemma bind_ext {A B} (m : Res A) (f g : A → Res B) : (∀ a, f a = g a) → m ≫= f = m ≫= g.
Proof. intros E. destruct m; [apply E|done..]. Qed.

Lemma or_fault_Ok {A} (o : option A) a : or_fault o = Ok a → o = Some a.
Proof. destruct o; simpl; naive_solver. Qed.

(** Did the computation produce a value? *)
Definition is_ok {A} (r : Res A) : bool := match r with Ok _ => true | _ => false end.

Lemma is_ok_inv {A} (r : Res A) : is_ok r = true → ∃ a, r = Ok a.
Proof. destruct r; simpl; [eauto|done..]. Qed.

(** ** Running to a result *)

(** The computation ends: with a value satisfying [Q], or by stopping the machine. *)
Definition ensures {A} (r : Res A) (Q : A → Prop) : Prop :=
  match r with Ok a => Q a | Halt => True | _ => False end.

Lemma ensures_bind {A B} (r : Res A) (f : A → Res B) Q R :
  ensures r Q → (∀ a, Q a → ensures (f a) R) → ensures (r ≫= f) R.
Proof. destruct r; simpl; auto. Qed.

Lemma ensures_mono {A} (r : Res A) (Q R : A → Prop) : ensures r Q → (∀ a, Q a → R a) → ensures r R.
Proof. destruct r; simpl; auto. Qed.

(** The same, but it stops the machine only if [H]. *)
Definition ensures_or {A} (H : Prop) (r : Res A) (Q : A → Prop) : Prop :=
  match r with Ok a => Q a | Halt => H | _ => False end.

Lemma ensures_or_bind {A B} H (r : Res A) (f : A → Res B) Q R :
  ensures_or H r Q → (∀ a, Q a → ensures_or H (f a) R) → ensures_or H (r ≫= f) R.
Proof. destruct r; simpl; auto. Qed.

Lemma ensures_or_mono {A} (H H' : Prop) (r : Res A) (Q R : A → Prop) :
  ensures_or H r Q → (H → H') → (∀ a, Q a → R a) → ensures_or H' r R.
Proof. destruct r; simpl; auto. Qed.

(** ** Machine words *)

Definition u8  (z : Z) : Z := z `mod` 2 ^ 8.
Definition u16 (z : Z) : Z := z `mod` 2 ^ 16.
Definition u32 (z : Z) : Z := z `mod` 2 ^ 32.
Definition u64 (z : Z) : Z := z `mod` 2 ^ 64.

Definition is_u8  (z : Z) : Prop := 0 ≤ z < 2 ^ 8.
Definition is_u16 (z : Z) : Prop := 0 ≤ z < 2 ^ 16.
Definition is_u32 (z : Z) : Prop := 0 ≤ z < 2 ^ 32.
Definition is_u64 (z : Z) : Prop := 0 ≤ z < 2 ^ 64.

(** The [i64] whose bit pattern is the word [z]. *)
Definition i64_of (z : Z) : Z :=
  let w := u64 z in if w <? 2 ^ 63 then w else w - 2 ^ 64.

(** C's [x & ~m] on unsigned words. *)
Definition band_not (x m : Z) : Z := Z.ldiff x m.

(** Is bit [i] of [x] set? The code's [x & (1 << i)]. *)
Definition bit (x i : Z) : bool := Z.testbit x i.

Create HintDb word.

Lemma u8_range z : is_u8 (u8 z).
Proof. unfold is_u8, u8. apply Z.mod_pos_bound. lia. Qed.
Lemma u16_range z : is_u16 (u16 z).
Proof. unfold is_u16, u16. apply Z.mod_pos_bound. lia. Qed.
Lemma u32_range z : is_u32 (u32 z).
Proof. unfold is_u32, u32. apply Z.mod_pos_bound. lia. Qed.
Lemma u64_range z : is_u64 (u64 z).
Proof. unfold is_u64, u64. apply Z.mod_pos_bound. lia. Qed.
#[export] Hint Resolve u8_range u16_range u32_range u64_range : word.

Lemma u8_small z : is_u8 z → u8 z = z.
Proof. apply Z.mod_small. Qed.
Lemma u16_small z : is_u16 z → u16 z = z.
Proof. apply Z.mod_small. Qed.
Lemma u32_small z : is_u32 z → u32 z = z.
Proof. apply Z.mod_small. Qed.
Lemma u64_small z : is_u64 z → u64 z = z.
Proof. apply Z.mod_small. Qed.

(** [word] unfolds the width predicates and leaves linear arithmetic. *)
Ltac word :=
  unfold is_u8, is_u16, is_u32, is_u64 in *; lia.

(** [word_small] removes wrap-arounds whose argument is known to fit. *)
Ltac word_small :=
  repeat first
    [ rewrite u64_small by word
    | rewrite u32_small by word
    | rewrite u16_small by word
    | rewrite u8_small by word ].

(** ** Bits *)

(** Bit extensionality, the way every bit-twiddling equality is proved. *)
Lemma Z_bits_ext x y : (∀ i, 0 ≤ i → Z.testbit x i = Z.testbit y i) → x = y.
Proof. apply Z.bits_inj'. Qed.

Lemma testbit_high x n i : 0 ≤ x < 2 ^ n → n ≤ i → Z.testbit x i = false.
Proof.
  intros Hx Hi. destruct (decide (n < 0)) as [Hn|Hn].
  { rewrite Z.pow_neg_r in Hx by lia. lia. }
  rewrite <-(Z.mod_small x (2 ^ n)) by lia. apply Z.mod_pow2_bits_high. lia.
Qed.

Lemma testbit_mod x n i : 0 ≤ n → Z.testbit (x `mod` 2 ^ n) i = (i <? n) && Z.testbit x i.
Proof.
  intros Hn. destruct (Z.ltb_spec i n).
  - by rewrite Z.mod_pow2_bits_low.
  - by rewrite Z.mod_pow2_bits_high.
Qed.

Lemma bounded_by_bits x n :
  0 ≤ n → 0 ≤ x → (∀ i, n ≤ i → Z.testbit x i = false) → 0 ≤ x < 2 ^ n.
Proof.
  intros Hn Hx Hb. rewrite <-(Z.mod_small x (2 ^ n)) at 1 2.
  - apply Z.mod_pos_bound. lia.
  - split; [done|]. destruct (decide (x = 0)) as [->|]; [lia|].
    apply Z.log2_lt_pow2; [lia|]. destruct (decide (Z.log2 x < n)); [done|].
    specialize (Hb (Z.log2 x)). rewrite Z.bit_log2 in Hb by lia.
    discriminate Hb. lia.
Qed.

Lemma ones_testbit n i : 0 ≤ n → Z.testbit (Z.ones n) i = (0 <=? i) && (i <? n).
Proof.
  intros Hn. destruct (Z.leb_spec 0 i); simpl.
  - destruct (Z.ltb_spec i n).
    + by apply Z.ones_spec_low.
    + by apply Z.ones_spec_high.
  - by rewrite Z.testbit_neg_r.
Qed.

Lemma testbit_pow2 n i : 0 ≤ n → Z.testbit (2 ^ n) i = (i =? n).
Proof.
  intros Hn. destruct (Z.eqb_spec i n) as [->|Hne].
  - by apply Z.pow2_bits_true.
  - apply Z.pow2_bits_false. lia.
Qed.

Create Rewrite HintDb bits.
#[export] Hint Rewrite Z.land_spec Z.lor_spec Z.lxor_spec Z.ldiff_spec
  Z.testbit_0_l Z.bits_0 : bits.
#[export] Hint Rewrite Z.shiftr_spec Z.shiftl_spec ones_testbit testbit_pow2
  testbit_mod using lia : bits.

(** Clearing the low [n] bits is rounding down to a multiple of [2 ^ n]. *)
Lemma ldiff_ones x n : 0 ≤ n → Z.ldiff x (Z.ones n) = x - x `mod` 2 ^ n.
Proof.
  intros Hn. rewrite Z.ldiff_ones_r by done.
  rewrite Z.shiftl_mul_pow2, Z.shiftr_div_pow2 by done.
  pose proof (Z.div_mod x (2 ^ n)). lia.
Qed.

Lemma land_ones_mod x n : 0 ≤ n → Z.land x (Z.ones n) = x `mod` 2 ^ n.
Proof. apply Z.land_ones. Qed.

Lemma bit_test x i : 0 ≤ i → (Z.land x (Z.shiftl 1 i) =? 0) = negb (Z.testbit x i).
Proof.
  intros Hi. rewrite Z.shiftl_1_l. destruct (Z.testbit x i) eqn:E.
  - apply Z.eqb_neq. intros Hz. apply (f_equal (λ y, Z.testbit y i)) in Hz. rewrite Z.land_spec, Z.bits_0, E, testbit_pow2, Z.eqb_refl in Hz by done. done.
  - apply Z.eqb_eq, Z_bits_ext. intros j Hj. autorewrite with bits. destruct (Z.eqb_spec j i) as [->|]; [by rewrite E|by rewrite andb_false_r].
Qed.

(** Disjoint bit fields add. *)
Lemma lor_add_disjoint x y : Z.land x y = 0 → Z.lor x y = x + y.
Proof. intros H. pose proof (Z.add_lor_land x y). lia. Qed.

Lemma lor_low_high lo hi n :
  0 ≤ n → 0 ≤ lo < 2 ^ n → hi `mod` 2 ^ n = 0 → Z.lor hi lo = hi + lo.
Proof.
  intros Hn Hlo Hhi. apply lor_add_disjoint, Z_bits_ext. intros i Hi.
  autorewrite with bits. destruct (Z.ltb_spec i n).
  - assert (Z.testbit hi i = false) as ->; [|done].
    rewrite <-(Z.mod_pow2_bits_low hi n) by lia. by rewrite Hhi, Z.bits_0.
  - by rewrite (testbit_high lo n), andb_false_r.
Qed.

(** ** Pages *)

Definition PAGE_SIZE : Z := 4096.

(** [x & ~(PAGE_SIZE - 1)] and [(x + PAGE_SIZE - 1) & ~(PAGE_SIZE - 1)], in [u64]. *)
Definition page_down (x : Z) : Z := band_not x (PAGE_SIZE - 1).
Definition page_up (x : Z) : Z := band_not (u64 (x + PAGE_SIZE - 1)) (PAGE_SIZE - 1).

Lemma band_not_4095 x : band_not x 4095 = x - x `mod` 4096.
Proof. exact (ldiff_ones x 12 ltac:(lia)). Qed.

Lemma band_not_7 x : band_not x 7 = x - x `mod` 8.
Proof. exact (ldiff_ones x 3 ltac:(lia)). Qed.

Lemma page_down_eq x : page_down x = x - x `mod` 4096.
Proof. apply band_not_4095. Qed.

Lemma page_up_eq x :
  0 ≤ x → x + 4095 < 2 ^ 64 → page_up x = (x + 4095) - (x + 4095) `mod` 4096.
Proof.
  intros. unfold page_up, PAGE_SIZE. rewrite u64_small by (unfold is_u64; lia).
  rewrite band_not_4095. do 2 f_equal; lia.
Qed.

(** ** Little-endian byte sequences *)

(** Byte [i] of the word [v]. *)
Definition byte_of (v i : Z) : Z := Z.land (Z.shiftr v (8 * i)) 255.

Fixpoint le_bytes (n : nat) (v : Z) : list Z :=
  match n with
  | O => []
  | S n => Z.land v 255 :: le_bytes n (Z.shiftr v 8)
  end.

Fixpoint le_val (l : list Z) : Z :=
  match l with
  | [] => 0
  | b :: l => b + 256 * le_val l
  end.

Lemma land_255 v : Z.land v 255 = v `mod` 256.
Proof. exact (Z.land_ones v 8 ltac:(lia)). Qed.

Lemma byte_of_range v i : is_u8 (byte_of v i).
Proof. unfold byte_of, is_u8. rewrite land_255. apply Z.mod_pos_bound. lia. Qed.

Lemma le_bytes_length n v : length (le_bytes n v) = n.
Proof. revert v. induction n; intros; simpl; auto. Qed.

Lemma le_bytes_range n v : Forall is_u8 (le_bytes n v).
Proof.
  revert v. induction n as [|n IH]; intros v; simpl; constructor; auto.
  rewrite land_255. unfold is_u8. apply Z.mod_pos_bound. lia.
Qed.

Lemma le_val_bytes n v : le_val (le_bytes n v) = v `mod` 2 ^ (8 * Z.of_nat n).
Proof.
  revert v. induction n as [|n IH]; intros v; [by rewrite Z.mod_1_r|].
  cbn [le_bytes le_val]. rewrite IH, land_255, Z.shiftr_div_pow2 by lia.
  replace (8 * Z.of_nat (S n)) with (8 + 8 * Z.of_nat n) by lia.
  rewrite Z.pow_add_r, Z.rem_mul_r by lia.
  change (2 ^ 8) with 256. ring.
Qed.

Lemma le_val_bound l : Forall is_u8 l → 0 ≤ le_val l < 2 ^ (8 * Z.of_nat (length l)).
Proof.
  induction 1 as [|b l Hb _ IH]; [done|]. cbn [le_val length].
  replace (8 * Z.of_nat (S (length l))) with (8 + 8 * Z.of_nat (length l)) by lia.
  rewrite Z.pow_add_r by lia. change (2 ^ 8) with 256 in *. word.
Qed.

Lemma le_bytes_val l : Forall is_u8 l → le_bytes (length l) (le_val l) = l.
Proof.
  induction 1 as [|b l Hb Hl IH]; [done|]. cbn [length le_bytes le_val].
  rewrite land_255, Z.shiftr_div_pow2 by lia. change (2 ^ 8) with 256.
  unfold is_u8 in Hb. f_equal.
  - rewrite Z.mul_comm, Z.mod_add by lia. apply Z.mod_small. lia.
  - replace ((b + 256 * le_val l) / 256) with (le_val l); [done|].
    rewrite Z.mul_comm, Z.div_add by lia. rewrite Z.div_small; lia.
Qed.

(** ** Arrays and byte buffers indexed by machine integers *)

(** [a\[i\]] where [a] is an object of [length l] elements; [None] is an access
    outside the object. *)
Definition zget {A} (l : list A) (i : Z) : option A :=
  if i <? 0 then None else l !! Z.to_nat i.

Definition zset {A} (l : list A) (i : Z) (x : A) : option (list A) :=
  if (i <? 0) || (Z.of_nat (length l) <=? i) then None
  else Some (<[Z.to_nat i := x]> l).

Definition zlen {A} (l : list A) : Z := Z.of_nat (length l).

(** Bytes [off, off+n) of a buffer. *)
Definition slice {A} (l : list A) (off n : Z) : option (list A) :=
  if (off <? 0) || (n <? 0) || (zlen l <? off + n) then None
  else Some (take (Z.to_nat n) (drop (Z.to_nat off) l)).

(** [memcpy]-style overwrite of bytes [off, off + length src) of [l]. *)
Definition splice {A} (l : list A) (off : Z) (src : list A) : option (list A) :=
  if (off <? 0) || (zlen l <? off + zlen src) then None
  else Some (take (Z.to_nat off) l ++ src ++ drop (Z.to_nat off + length src) l).

(** A little-endian field of [n] bytes at byte offset [off]. *)
Definition field (l : list Z) (off n : Z) : option Z :=
  le_val <$> slice l off n.

Lemma zget_Some {A} (l : list A) i x :
  zget l i = Some x ↔ 0 ≤ i ∧ l !! Z.to_nat i = Some x.
Proof. unfold zget. destruct (Z.ltb_spec i 0); naive_solver lia. Qed.

Lemma zget_is_Some {A} (l : list A) i : 0 ≤ i < zlen l → ∃ x, zget l i = Some x.
Proof.
  intros Hi. unfold zget, zlen in *. destruct (Z.ltb_spec i 0); [lia|].
  apply lookup_lt_is_Some. lia.
Qed.

Lemma slice_length {A} (l : list A) off n r : slice l off n = Some r → zlen r = n.
Proof.
  unfold slice, zlen. intros H. repeat case_match; simplify_eq.
  rewrite length_take, length_drop. rewrite !orb_false_iff in *. lia.
Qed.

Lemma slice_is_Some {A} (l : list A) off n :
  0 ≤ off → 0 ≤ n → off + n ≤ zlen l → is_Some (slice l off n).
Proof.
  intros. unfold slice. case_match eqn:E; [|eauto].
  rewrite !orb_true_iff in E. lia.
Qed.

Lemma zset_Some {A} (l l' : list A) i x :
  zset l i x = Some l' →
  0 ≤ i < zlen l ∧ l' = <[Z.to_nat i := x]> l ∧ zlen l' = zlen l.
Proof.
  unfold zset, zlen. case_match eqn:E; [done|]. intros [= <-].
  rewrite orb_false_iff in E. rewrite length_insert. split_and!; [lia..|done|done].
Qed.

Lemma splice_length {A} (l l' src : list A) off :
  splice l off src = Some l' → zlen l' = zlen l.
Proof.
  unfold splice, zlen. intros H. repeat case_match; simplify_eq.
  rewrite orb_false_iff in *. rewrite !length_app, length_take, length_drop. lia.
Qed.

Lemma zget_bounds {A} (l : list A) i x : zget l i = Some x → 0 ≤ i < zlen l.
Proof. intros [? Hl%lookup_lt_Some]%zget_Some. unfold zlen. lia. Qed.

Lemma zset_is {A} (l : list A) i x : 0 ≤ i < zlen l → zset l i x = Some (<[Z.to_nat i := x]> l).
Proof. unfold zset, zlen. intros. case_match eqn:E; [|done]. rewrite orb_true_iff in E. lia. Qed.

Lemma zget_insert {A} (l : list A) i j x :
  0 ≤ i < zlen l → zget (<[Z.to_nat i := x]> l) j = if decide (j = i) then Some x else zget l j.
Proof.
  unfold zget, zlen. intros Hi. destruct (Z.ltb_spec j 0); [by rewrite decide_False by lia|].
  case_decide as Hd; [subst; apply list_lookup_insert_eq; lia|apply list_lookup_insert_ne; lia].
Qed.

Lemma zlen_app {A} (l1 l2 : list A) : zlen (l1 ++ l2) = zlen l1 + zlen l2.
Proof. unfold zlen. rewrite length_app. lia. Qed.

Lemma zlen_insert {A} (l : list A) i x : zlen (<[i := x]> l) = zlen l.
Proof. unfold zlen. by rewrite length_insert. Qed.

(** ** Loops *)

(** [for (i = lo; ...; i += step) s = f i s], run [n] times. *)
Fixpoint iter_up {S : Type} (n : nat) (lo step : Z) (f : Z → S → S) (s : S) : S :=
  match n with
  | O => s
  | Datatypes.S n => iter_up n (lo + step) step f (f lo s)
  end.

(** The invariant rule for [iter_up]. *)
Lemma iter_up_ind {S} (P : Z → S → Prop) n lo step f s :
  P lo s →
  (∀ k s, (k < n)%nat → P (lo + Z.of_nat k * step) s →
     P (lo + Z.of_nat k * step + step) (f (lo + Z.of_nat k * step) s)) →
  P (lo + Z.of_nat n * step) (iter_up n lo step f s).
Proof.
  revert lo s. induction n as [|n IH]; intros lo s H0 Hstep; simpl.
  { rewrite Z.add_0_r. exact H0. }
  replace (lo + Z.of_nat (Datatypes.S n) * step)
    with (lo + step + Z.of_nat n * step) by lia.
  apply IH.
  - specialize (Hstep 0%nat s). simpl in Hstep. rewrite Z.add_0_r in Hstep.
    apply Hstep; [lia|]. done.
  - intros k s' Hk HP. specialize (Hstep (Datatypes.S k) s').
    replace (lo + Z.of_nat (Datatypes.S k) * step)
      with (lo + step + Z.of_nat k * step) in Hstep by lia.
    apply Hstep; [lia|done].
Qed.

(** The same loop with a body that can fail. *)
Fixpoint iter_upM {S : Type} (n : nat) (lo step : Z) (f : Z → S → Res S) (s : S) : Res S :=
  match n with
  | O => Ok s
  | Datatypes.S n => s ← f lo s; iter_upM n (lo + step) step f s
  end.

(** Its invariant rule: every iteration succeeds and keeps the invariant. *)
Lemma iter_upM_ind {S} (P : Z → S → Prop) n lo step (f : Z → S → Res S) s :
  P lo s →
  (∀ k s, (k < n)%nat → P (lo + Z.of_nat k * step) s →
     ∃ s', f (lo + Z.of_nat k * step) s = Ok s' ∧ P (lo + Z.of_nat k * step + step) s') →
  ∃ s', iter_upM n lo step f s = Ok s' ∧ P (lo + Z.of_nat n * step) s'.
Proof.
  revert lo s. induction n as [|n IH]; intros lo s H0 Hstep; simpl.
  { rewrite Z.add_0_r. by exists s. }
  destruct (Hstep 0%nat s) as (s1 & E1 & P1); [lia|by rewrite Z.add_0_r|].
  rewrite Z.add_0_r in E1, P1. rewrite E1, bind_ret.
  replace (lo + Z.of_nat (Datatypes.S n) * step) with (lo + step + Z.of_nat n * step) by lia.
  apply IH; [done|]. intros k s' Hk HP. specialize (Hstep (Datatypes.S k) s').
  replace (lo + Z.of_nat (Datatypes.S k) * step) with (lo + step + Z.of_nat k * step) in Hstep by lia.
  apply Hstep; [lia|done].
Qed.

(** The states a loop goes through, when they can be written down. *)
Lemma iter_upM_eq {S} (Q : Z → S) n lo step (f : Z → S → Res S) s s' :
  s = Q lo → s' = Q (lo + Z.of_nat n * step) →
  (∀ k, (k < n)%nat → f (lo + Z.of_nat k * step) (Q (lo + Z.of_nat k * step)) = Ok (Q (lo + Z.of_nat k * step + step))) →
  iter_upM n lo step f s = Ok s'.
Proof.
  intros Hs Hs' Hf. destruct (iter_upM_ind (λ z v, v = Q z) n lo step f s Hs) as (v & E & Hv); [|congruence].
  intros k v Hk ->. by eexists; split; [apply Hf|].
Qed.

(** ** Automation *)

(** Split boolean tests in hypotheses and goal into arithmetic facts. *)
Ltac bool_arith :=
  repeat match goal with
  | H : (_ && _) = true |- _ => apply andb_true_iff in H as [? ?]
  | H : (_ || _) = false |- _ => apply orb_false_iff in H as [? ?]
  | H : (_ && _) = false |- _ => apply andb_false_iff in H
  | H : (_ || _) = true |- _ => apply orb_true_iff in H
  | H : negb _ = true |- _ => apply negb_true_iff in H
  | H : negb _ = false |- _ => apply negb_false_iff in H
  | H : (_ <? _) = true |- _ => apply Z.ltb_lt in H
  | H : (_ <? _) = false |- _ => apply Z.ltb_ge in H
  | H : (_ <=? _) = true |- _ => apply Z.leb_le in H
  | H : (_ <=? _) = false |- _ => apply Z.leb_gt in H
  | H : (_ =? _) = true |- _ => apply Z.eqb_eq in H
  | H : (_ =? _) = false |- _ => apply Z.eqb_neq in H
  end.

(** Destruct the innermost comparison the goal branches on. *)
Ltac case_cmp :=
  match goal with
  | |- context [?a <? ?b] => destruct (Z.ltb_spec a b)
  | |- context [?a <=? ?b] => destruct (Z.leb_spec a b)
  | |- context [?a =? ?b] => destruct (Z.eqb_spec a b)
  end.

(** Step past a bind whose computation is already a value. *)
Ltac res_step := cbn [or_fault]; rewrite ?bind_ret; cbv beta.

(** Peel the binds of a computation known to have succeeded. *)
Ltac res_inv :=
  repeat match goal with
  | H : (_ ≫= _) = Ok _ |- _ =>
      let a := fresh "a" in let Ha := fresh "Ha" in
      apply bind_Ok in H as (a & Ha & H)
  | H : or_fault _ = Ok _ |- _ => apply or_fault_Ok in H
  | H : Ok _ = Ok _ |- _ => injection H as H
  | H : Halt = Ok _ |- _ => discriminate H
  | H : Fault = Ok _ |- _ => discriminate H
  | H : NoFuel = Ok _ |- _ => discriminate H
  end.

(** ** Counting *)

(** Making a predicate true at one more element of a duplicate-free list grows
    the filtered list by one. *)
Lemma length_filter_flip {A} (P Q : A → Prop) `{∀ x, Decision (P x), ∀ x, Decision (Q x)}
    (l : list A) x :
  NoDup l → x ∈ l → ¬ P x → Q x → (∀ y, y ≠ x → P y ↔ Q y) →
  length (filter Q l) = S (length (filter P l)).
Proof.
  intros Hnd Hx HP HQ Heq.
  assert (∀ l' : list A, x ∉ l' → filter Q l' = filter P l') as Hskip.
  { induction l' as [|y l' IH]; intros Hl'; [done|].
    apply not_elem_of_cons in Hl' as [Hne Hl']. rewrite !filter_cons, IH by done.
    destruct (decide (P y)) as [Hp|Hp].
    - by rewrite decide_True by (by apply Heq).
    - by rewrite decide_False by (by rewrite <-Heq). }
  induction Hnd as [|y l Hy Hnd IH]; [by apply not_elem_of_nil in Hx|].
  rewrite !filter_cons. apply elem_of_cons in Hx as [->|Hx].
  - rewrite decide_True, decide_False by done. simpl. by rewrite Hskip.
  - assert (y ≠ x) as Hne by (by intros ->).
    destruct (decide (P y)) as [Hp|Hp].
    + rewrite decide_True by (by apply Heq). simpl. by rewrite IH.
    + rewrite decide_False by (by rewrite <-Heq). by apply IH.
Qed.

(** A filter that keeps everything. *)
Lemma filter_id {A} (P : A → Prop) `{∀ x, Decision (P x)} (l : list A) :
  (∀ x, x ∈ l → P x) → filter P l = l.
Proof.
  induction l as [|x l IH]; intros H1; [done|]. rewrite filter_cons, decide_True, IH.
  - done.
  - intros y Hy. by apply H1, list_elem_of_further.
  - apply H1, list_elem_of_here.
Qed.

(** An element of a duplicate-free list splits it in one way. *)
Lemma NoDup_split_unique {A} (x1 x2 z1 z2 : list A) y :
  NoDup (x1 ++ y :: z1) → x1 ++ y :: z1 = x2 ++ y :: z2 → x1 = x2 ∧ z1 = z2.
Proof.
  revert x2. induction x1 as [|a x1 IH]; intros [|b x2] Hnd E; simpl in *; simplify_eq.
  - done.
  - apply NoDup_cons in Hnd as [Hn _]. destruct Hn. apply elem_of_app. right. apply list_elem_of_here.
  - apply NoDup_cons in Hnd as [Hn _]. destruct Hn. apply elem_of_app. right. apply list_elem_of_here.
  - apply NoDup_cons in Hnd as [_ Hnd]. by destruct (IH x2 Hnd) as [-> ->].
Qed.

(** ** Reading fields *)

Lemma field_is_Some l off n : 0 ≤ off → 0 ≤ n → off + n ≤ zlen l → ∃ v, field l off n = Some v.
Proof.
  intros Ho Hn Hl. unfold field. destruct (slice_is_Some l off n Ho Hn Hl) as [s ->].
  by eexists.
Qed.

Lemma Forall_slice {A} (P : A → Prop) l off n s : Forall P l → slice l off n = Some s → Forall P s.
Proof.
  unfold slice. intros HP H. case_match; simplify_eq. by apply Forall_take, Forall_drop.
Qed.

Lemma field_bound l off n v :
  Forall is_u8 l → field l off n = Some v → 0 ≤ v < 2 ^ (8 * n).
Proof.
  unfold field. intros Hl H. destruct (slice l off n) as [s|] eqn:E; simplify_eq/=.
  pose proof (le_val_bound s (Forall_slice _ _ _ _ _ Hl E)) as Hb.
  apply slice_length in E. unfold zlen in E. by rewrite E in Hb.
Qed.
