(* ===== verification/CString.v ===== *)
(** * C strings and raw byte buffers ([lib/string.cpp], [lib/hex.hpp])

    A [char*] or [u8*] is modelled as the list of the bytes of the object from
    the pointer on, together with an offset where the code advances one; running
    off the end of that list is a [Fault].  Bytes are numbers in [0, 256); the
    code compares characters only for equality or against ASCII constants, so
    the signedness of [char] is not observable. *)

From S2P Require Import Prelude.

(** ** memcpy and memset *)

(** [for (i = 0; i < n; ++i) d\[i\] = s\[i\]]. *)
Fixpoint memcpy_loop (n : nat) (d : list Z) (doff : Z) (s : list Z) (soff : Z) : Res (list Z) :=
  match n with
  | O => Ok d
  | S n =>
      b ← or_fault (zget s soff);
      d ← or_fault (zset d doff b);
      memcpy_loop n d (doff + 1) s (soff + 1)
  end.

Definition memcpy (d : list Z) (doff : Z) (s : list Z) (soff n : Z) : Res (list Z) :=
  memcpy_loop (Z.to_nat n) d doff s soff.

Fixpoint memset_loop (n : nat) (d : list Z) (doff c : Z) : Res (list Z) :=
  match n with
  | O => Ok d
  | S n => d ← or_fault (zset d doff (u8 c)); memset_loop n d (doff + 1) c
  end.

Definition memset (d : list Z) (doff c n : Z) : Res (list Z) :=
  memset_loop (Z.to_nat n) d doff c.

(** ** The string functions *)

Fixpoint strlen (s : list Z) : Res Z :=
  match s with
  | [] => Fault
  | c :: s => if c =? 0 then Ok 0 else n ← strlen s; Ok (1 + n)
  end.

Fixpoint strnlen (s : list Z) (max : Z) : Res Z :=
  if max <=? 0 then Ok 0
  else match s with
       | [] => Fault
       | c :: s => if c =? 0 then Ok 0 else n ← strnlen s (max - 1); Ok (1 + n)
       end.

Fixpoint strcmp (s1 s2 : list Z) : Res Z :=
  match s1, s2 with
  | a :: s1, b :: s2 =>
      if negb (a =? 0) && negb (b =? 0) && (a =? b) then strcmp s1 s2
      else Ok (a - b)
  | _, _ => Fault
  end.

Fixpoint strncmp (s1 s2 : list Z) (n : Z) : Res Z :=
  if n =? 0 then Ok 0
  else match s1, s2 with
       | a :: s1, b :: s2 =>
           if negb (a =? 0) && (a =? b) then strncmp s1 s2 (n - 1)
           else Ok (a - b)
       | _, _ => Fault
       end.

Fixpoint strcpy (d s : list Z) {struct s} : Res (list Z) :=
  match s, d with
  | c :: s, _ :: d =>
      if c =? 0 then Ok (0 :: d) else d ← strcpy d s; Ok (c :: d)
  | _, _ => Fault
  end.

(** [while (n-- && ( *d++ = *src++));] gives the bytes written, what is left of
    the destination, and the value of [n] after the loop: the test that ends a
    loop with [n == 0] has already decremented it, so [n] has wrapped. *)
Fixpoint strncpy_copy (d s : list Z) (n : Z) {struct s} : Res (list Z * list Z * Z) :=
  if n =? 0 then Ok ([], d, u64 (n - 1))
  else match s, d with
       | c :: s, _ :: d =>
           if c =? 0 then Ok ([0], d, n - 1)
           else '(w, r, n) ← strncpy_copy d s (n - 1); Ok (c :: w, r, n)
       | _, _ => Fault
       end.

(** [while (n--) *d++ = '\0';] *)
Fixpoint strncpy_pad (d : list Z) (n : Z) : Res (list Z) :=
  if n =? 0 then Ok d
  else match d with
       | [] => Fault
       | _ :: d => d ← strncpy_pad d (n - 1); Ok (0 :: d)
       end.

Definition strncpy (d s : list Z) (n : Z) : Res (list Z) :=
  '(w, r, n) ← strncpy_copy d s n;
  r ← strncpy_pad r n;
  Ok (w ++ r).

(** ** [hex::to_string] *)

Definition hex_digits : list Z :=
  [48; 49; 50; 51; 52; 53; 54; 55; 56; 57; 65; 66; 67; 68; 69; 70].

(** [for (i = 15; i >= 0; --i) { out\[i\] = digits\[value & 0xF\]; value >>= 4; }]:
    [k] digits remain to be written, the lowest first. *)
Fixpoint hex_loop (k : nat) (value : Z) (out : list Z) : Res (list Z) :=
  match k with
  | O => Ok out
  | S k =>
      c ← or_fault (zget hex_digits (Z.land value 0xF));
      out ← or_fault (zset out (Z.of_nat k) c);
      hex_loop k (Z.shiftr value 4) out
  end.

Definition hex_to_string (value : Z) (out : list Z) : Res (list Z) :=
  out ← or_fault (zset out 16 0);
  hex_loop 16 value out.

(** ** C strings as their contents *)

(** The bytes before the first NUL, if there is one. *)
Fixpoint c_string (s : list Z) : option (list Z) :=
  match s with
  | [] => None
  | c :: s => if c =? 0 then Some [] else (c ::.) <$> c_string s
  end.

Definition no_nul (str : list Z) : Prop := Forall (λ c, c ≠ 0) str.

Lemma c_string_app str rest : no_nul str → c_string (str ++ 0 :: rest) = Some str.
Proof.
  induction 1 as [|c str Hc _ IH]; [done|]. simpl.
  apply Z.eqb_neq in Hc. by rewrite Hc, IH.
Qed.

Lemma c_string_Some s str :
  c_string s = Some str → no_nul str ∧ ∃ rest, s = str ++ 0 :: rest.
Proof.
  revert str. induction s as [|c s IH]; intros str H; simpl in H; [done|].
  destruct (Z.eqb_spec c 0) as [->|Hc].
  { simplify_eq. split; [constructor|]. by exists s. }
  destruct (c_string s) as [str'|] eqn:E; simplify_eq/=.
  destruct (IH str' eq_refl) as [? [rest ->]].
  split; [by constructor|]. by exists rest.
Qed.

(** ** Behaviour of the primitives *)

Lemma zset_take_drop {A} (d d' : list A) i x :
  zset d i x = Some d' →
  d' = take (Z.to_nat i) d ++ x :: drop (S (Z.to_nat i)) d.
Proof.
  intros (Hi & -> & _)%zset_Some. unfold zlen in Hi.
  apply insert_take_drop. lia.
Qed.

Lemma zset_ok {A} (d : list A) i x :
  0 ≤ i < zlen d →
  zset d i x = Some (take (Z.to_nat i) d ++ x :: drop (S (Z.to_nat i)) d).
Proof.
  unfold zset, zlen. intros Hi. case_match eqn:E; bool_arith; [lia|].
  f_equal. apply insert_take_drop. lia.
Qed.

Lemma memcpy_loop_spec n d doff s soff :
  0 ≤ doff → 0 ≤ soff →
  (Z.to_nat soff + n ≤ length s)%nat → (Z.to_nat doff + n ≤ length d)%nat →
  memcpy_loop n d doff s soff =
    Ok (take (Z.to_nat doff) d ++ take n (drop (Z.to_nat soff) s)
         ++ drop (Z.to_nat doff + n) d).
Proof.
  revert d doff soff. induction n as [|n IH]; intros d doff soff Hd Hs Ls Ld.
  { simpl. by rewrite Nat.add_0_r, take_drop. }
  cbn [memcpy_loop]. destruct (zget_is_Some s soff) as [a Ha]; [unfold zlen; lia|].
  rewrite Ha. cbn [or_fault mbind res_bind].
  rewrite zset_ok by (unfold zlen; lia). cbn [or_fault mbind res_bind].
  apply zget_Some in Ha as [_ Ha].
  rewrite IH; [|lia|lia|lia|]; cycle 1.
  { rewrite length_app, length_take, length_cons, length_drop. lia. }
  replace (Z.to_nat (doff + 1)) with (S (Z.to_nat doff)) by lia.
  replace (Z.to_nat (soff + 1)) with (S (Z.to_nat soff)) by lia.
  rewrite (drop_S s a _ Ha). cbn [take]. f_equal.
  assert (length (take (Z.to_nat doff) d) = Z.to_nat doff) as Lt
    by (rewrite length_take; lia).
  rewrite take_app_ge, Lt by (rewrite ?Lt; lia).
  replace (S (Z.to_nat doff) - Z.to_nat doff)%nat with 1%nat by lia.
  rewrite drop_app_ge, Lt by (rewrite ?Lt; lia).
  replace (S (Z.to_nat doff) + n - Z.to_nat doff)%nat with (S n) by lia.
  cbn [take drop]. rewrite take_0, drop_drop, <-app_assoc. simpl.
  by replace (S (Z.to_nat doff + n)) with (Z.to_nat doff + S n)%nat by lia.
Qed.

(** [memcpy] inside both objects replaces exactly the [n] bytes at [doff]. *)
Lemma memcpy_ok d doff s soff n :
  0 ≤ doff → 0 ≤ soff → 0 ≤ n → soff + n ≤ zlen s → doff + n ≤ zlen d →
  memcpy d doff s soff n =
    Ok (take (Z.to_nat doff) d ++ take (Z.to_nat n) (drop (Z.to_nat soff) s)
         ++ drop (Z.to_nat doff + Z.to_nat n) d).
Proof. unfold zlen. intros. apply memcpy_loop_spec; lia. Qed.

Lemma memset_loop_spec n d doff c :
  0 ≤ doff → (Z.to_nat doff + n ≤ length d)%nat →
  memset_loop n d doff c =
    Ok (take (Z.to_nat doff) d ++ replicate n (u8 c) ++ drop (Z.to_nat doff + n) d).
Proof.
  revert d doff. induction n as [|n IH]; intros d doff Hd Ld.
  { simpl. by rewrite Nat.add_0_r, take_drop. }
  cbn [memset_loop]. rewrite zset_ok by (unfold zlen; lia).
  cbn [or_fault mbind res_bind]. rewrite IH; [|lia|]; cycle 1.
  { rewrite length_app, length_take, length_cons, length_drop. lia. }
  replace (Z.to_nat (doff + 1)) with (S (Z.to_nat doff)) by lia. f_equal.
  assert (length (take (Z.to_nat doff) d) = Z.to_nat doff) as Lt
    by (rewrite length_take; lia).
  rewrite take_app_ge, Lt by (rewrite ?Lt; lia).
  replace (S (Z.to_nat doff) - Z.to_nat doff)%nat with 1%nat by lia.
  rewrite drop_app_ge, Lt by (rewrite ?Lt; lia).
  replace (S (Z.to_nat doff) + n - Z.to_nat doff)%nat with (S n) by lia.
  cbn [take drop replicate]. rewrite take_0, drop_drop, <-app_assoc. simpl.
  by replace (S (Z.to_nat doff + n)) with (Z.to_nat doff + S n)%nat by lia.
Qed.

Lemma strlen_spec s : strlen s = or_fault (zlen <$> c_string s).
Proof.
  induction s as [|c s IH]; [done|]. simpl. case_cmp; [done|].
  rewrite IH. destruct (c_string s); [|done]. cbn. do 2 f_equal. unfold zlen. simpl. lia.
Qed.

Lemma strnlen_bound s max n : strnlen s max = Ok n → 0 ≤ n ∧ n ≤ Z.max 0 max ∧ n ≤ zlen s.
Proof.
  unfold zlen. revert max n. induction s as [|c s IH]; intros max n H; cbn in H;
    repeat case_match; bool_arith; res_inv; subst; simpl; try lia.
  apply IH in Ha. lia.
Qed.

(** On a string shorter than [max], [strnlen] is [strlen]. *)
Lemma strnlen_str str rest max :
  no_nul str → zlen str < max → strnlen (str ++ 0 :: rest) max = Ok (zlen str).
Proof.
  unfold zlen. intros Hs. revert max. induction Hs as [|c str Hc Hs IH]; intros max Hmax.
  { cbn. case_cmp; [simpl in *; lia|done]. }
  cbn [app strnlen]. simpl in Hmax. case_cmp; [lia|].
  apply Z.eqb_neq in Hc. rewrite Hc, IH by lia. cbn. f_equal. simpl. lia.
Qed.

Lemma strcmp_app s1 s2 r1 r2 :
  no_nul s1 → no_nul s2 → ∃ d, strcmp (s1 ++ 0 :: r1) (s2 ++ 0 :: r2) = Ok d ∧ (d = 0 ↔ s1 = s2).
Proof.
  intros H1. revert s2. induction H1 as [|a s1 Ha H1 IH]; intros s2 H2.
  - destruct H2 as [|b s2 Hb H2]; [exists 0; simpl; naive_solver|].
    exists (0 - b). simpl. split; [done|]. split; [lia|done].
  - destruct H2 as [|b s2 Hb H2].
    { exists (a - 0). simpl. rewrite andb_false_r. split; [done|]. split; [lia|done]. }
    cbn [app strcmp]. apply Z.eqb_neq in Ha as Ha', Hb as Hb'. rewrite Ha', Hb'.
    cbn [negb andb]. destruct (Z.eqb_spec a b) as [->|Hab].
    + destruct (IH s2 H2) as (d & -> & Hd). exists d. split; [done|]. rewrite Hd. naive_solver.
    + exists (a - b). split; [done|]. split; [lia|]. intros [= ??]. lia.
Qed.

(** [strcmp] on two C strings never faults and returns zero exactly when they
    have the same contents. *)
Lemma strcmp_spec s1 s2 t1 t2 :
  c_string s1 = Some t1 → c_string s2 = Some t2 →
  ∃ d, strcmp s1 s2 = Ok d ∧ (d = 0 ↔ t1 = t2).
Proof.
  intros [? [r1 ->]]%c_string_Some [? [r2 ->]]%c_string_Some. by apply strcmp_app.
Qed.

(** [strncmp(path, prefix, strlen(prefix)) == 0] is a prefix test. *)
Lemma strncmp_prefix s p rest :
  no_nul p → no_nul s →
  ∃ d, strncmp (s ++ 0 :: rest) (p ++ [0]) (zlen p) = Ok d ∧ (d = 0 ↔ p `prefix_of` s).
Proof.
  unfold zlen. intros Hp. revert s. induction Hp as [|b p Hb Hp IH]; intros s Hs.
  { exists 0. split; [by destruct s|]. split; [|done]. intros _. apply prefix_nil. }
  destruct Hs as [|a s Ha Hs].
  { exists (0 - b). cbn [app length strncmp]. case_cmp; [lia|]. split; [done|].
    split; [lia|]. by intros ?%prefix_nil_inv. }
  cbn [app length strncmp]. case_cmp; [lia|]. apply Z.eqb_neq in Ha as Ha'. rewrite Ha'. simpl.
  destruct (Z.eqb_spec a b) as [->|Hab].
  - replace (Z.of_nat (S (length p)) - 1) with (Z.of_nat (length p)) by lia.
    destruct (IH s Hs) as (d & -> & Hd). exists d. split; [done|]. rewrite Hd.
    split; [apply prefix_cons|apply prefix_cons_inv_2].
  - exists (a - b). split; [done|]. split; [lia|]. intros ?%prefix_cons_inv_1. congruence.
Qed.

(** ** [strncpy] *)

Lemma strncpy_pad_spec d n :
  0 ≤ n ≤ zlen d →
  strncpy_pad d n = Ok (replicate (Z.to_nat n) 0 ++ drop (Z.to_nat n) d).
Proof.
  unfold zlen. revert n. induction d as [|x d IH]; intros n Hn; cbn [strncpy_pad].
  { simpl in Hn. case_cmp; [by subst|lia]. }
  case_cmp; [by subst|]. simpl in Hn. rewrite IH by lia. cbn.
  by replace (Z.to_nat n) with (S (Z.to_nat (n - 1))) by lia.
Qed.

Lemma strncpy_pad_overrun d n : zlen d < n → strncpy_pad d n = Fault.
Proof.
  unfold zlen. revert n. induction d as [|x d IH]; intros n Hn; cbn [strncpy_pad]; simpl in Hn.
  - case_cmp; [lia|done].
  - case_cmp; [lia|]. by rewrite IH by lia.
Qed.

Lemma strncpy_copy_short d str rest n :
  no_nul str → zlen str < n → n ≤ zlen d →
  strncpy_copy d (str ++ 0 :: rest) n =
    Ok (str ++ [0], drop (S (length str)) d, n - zlen str - 1).
Proof.
  unfold zlen. intros Hs. revert d n.
  induction Hs as [|c str Hc Hs IH]; intros d n Hn Hd; simpl in Hn;
    (destruct d as [|x d]; simpl in Hd; [lia|]); cbn [app strncpy_copy].
  - case_cmp; [lia|]. cbn. do 2 f_equal. lia.
  - case_cmp; [lia|]. apply Z.eqb_neq in Hc. rewrite Hc, IH by lia. cbn.
    do 2 f_equal. lia.
Qed.

(** The case the callers mean: a source string shorter than [n]. *)
Lemma strncpy_short d str rest n :
  no_nul str → zlen str < n → n ≤ zlen d →
  strncpy d (str ++ 0 :: rest) n =
    Ok (str ++ replicate (Z.to_nat n - length str) 0 ++ drop (Z.to_nat n) d).
Proof.
  intros Hs Hn Hd. unfold strncpy. rewrite strncpy_copy_short by done.
  cbn [mbind res_bind]. unfold zlen in *. rewrite strncpy_pad_spec; cycle 1.
  { unfold zlen. rewrite length_drop. lia. }
  cbn [mbind res_bind]. f_equal. rewrite <-app_assoc. f_equal. cbn [app].
  replace (Z.to_nat n - length str)%nat
    with (S (Z.to_nat (n - Z.of_nat (length str) - 1))) by lia.
  cbn [replicate app]. do 2 f_equal. rewrite drop_drop. f_equal. lia.
Qed.

Lemma strncpy_copy_long d s n :
  0 ≤ n ≤ zlen s → no_nul (take (Z.to_nat n) s) →
  strncpy_copy d s n = Fault ∨
  ∃ w r, strncpy_copy d s n = Ok (w, r, 2 ^ 64 - 1) ∧ zlen r ≤ zlen d.
Proof.
  unfold zlen. revert d n. induction s as [|c s IH]; intros d n Hn Hs; cbn [strncpy_copy].
  { simpl in Hn. case_cmp; [|lia]. subst. right. by eexists _, _. }
  case_cmp; [subst; right; by eexists _, _|]. simpl in Hn.
  destruct d as [|x d]; [by left|].
  replace (Z.to_nat n) with (S (Z.to_nat (n - 1))) in Hs by lia.
  inversion Hs as [|? ? Hc Hs']; subst. apply Z.eqb_neq in Hc. rewrite Hc.
  destruct (IH d (n - 1)) as [->|(w & r & -> & Hr)]; [lia|done|by left|].
  right. eexists _, _. split; [done|]. simpl. lia.
Qed.

(** ** Hexadecimal *)

Definition hex_digit_val (c : Z) : option Z :=
  if (48 <=? c) && (c <=? 57) then Some (c - 48)
  else if (65 <=? c) && (c <=? 70) then Some (c - 55)
  else None.

(** The number a string of upper-case hexadecimal digits denotes. *)
Definition hex_value (s : list Z) : option Z :=
  foldl (λ acc c, a ← acc; v ← hex_digit_val c; Some (16 * a + v)) (Some 0) s.

Lemma hex_value_snoc s c :
  hex_value (s ++ [c]) = a ← hex_value s; v ← hex_digit_val c; Some (16 * a + v).
Proof. unfold hex_value. by rewrite foldl_app. Qed.

Lemma hex_digit_lookup v :
  0 ≤ v < 16 → ∃ c, zget hex_digits v = Some c ∧ hex_digit_val c = Some v.
Proof.
  intros Hv. cut (forallb (λ v, match zget hex_digits v with
      | Some c => bool_decide (hex_digit_val c = Some v) | None => false end)
      [0;1;2;3;4;5;6;7;8;9;10;11;12;13;14;15] = true); [|done].
  rewrite forallb_forall. intros H. specialize (H v ltac:(simpl; lia)).
  destruct (zget hex_digits v) as [c|]; [|done]. exists c.
  by apply bool_decide_eq_true in H.
Qed.

(** The loop writes the low [k] digits of [value] into [out\[0..k-1\]] and leaves
    the rest of [out] alone. *)
Lemma hex_loop_spec k value out :
  0 ≤ value → (k ≤ length out)%nat →
  ∃ s, hex_loop k value out = Ok (s ++ drop k out) ∧ length s = k ∧
       hex_value s = Some (value `mod` 16 ^ Z.of_nat k).
Proof.
  revert value out. induction k as [|k IH]; intros value out Hv Hl.
  { exists []. by rewrite Z.mod_1_r. }
  assert (Z.land value 15 = value `mod` 16) as E by exact (Z.land_ones value 4 ltac:(lia)).
  destruct (hex_digit_lookup (value `mod` 16)) as (c & Hc & Hcv).
  { apply Z.mod_pos_bound. lia. }
  cbn [hex_loop]. rewrite E, Hc. cbn [or_fault mbind res_bind].
  rewrite zset_ok by (unfold zlen; lia). cbn [or_fault mbind res_bind].
  rewrite Nat2Z.id. set (out' := take k out ++ c :: drop (S k) out).
  assert (length (take k out) = k) as Lt by (rewrite length_take; lia).
  destruct (IH (Z.shiftr value 4) out') as (s & -> & Ls & Hs).
  { by apply Z.shiftr_nonneg. }
  { unfold out'. rewrite length_app, Lt. lia. }
  exists (s ++ [c]). split_and!.
  - f_equal. unfold out'. rewrite drop_app_length' by done. by rewrite <-app_assoc.
  - rewrite length_app, Ls. simpl. lia.
  - rewrite hex_value_snoc, Hs. cbn. rewrite Hcv. cbn. f_equal.
    rewrite Z.shiftr_div_pow2 by lia. change (2 ^ 4) with 16.
    rewrite Nat2Z.inj_succ, Z.pow_succ_r by lia.
    rewrite Z.rem_mul_r by lia. lia.
Qed.

(** ** Properties *)

(** [hex::to_string] is a faithful rendering: for every 64-bit value and
    17-byte buffer it writes sixteen upper-case digits that denote exactly that
    value, followed by a NUL, without ever indexing outside either array. *)
Theorem hex_to_string_roundtrip value out :
  is_u64 value → zlen out = 17 →
  ∃ s, hex_to_string value out = Ok (s ++ [0]) ∧ zlen s = 16 ∧ hex_value s = Some value.
Proof.
  unfold zlen. intros Hv Hl. unfold hex_to_string. rewrite zset_ok by (unfold zlen; lia).
  cbn [or_fault mbind res_bind]. set (out' := _ ++ _).
  destruct (hex_loop_spec 16 value out') as (s & -> & Ls & Hs).
  { word. } { unfold out'. rewrite length_app, length_take, length_cons. lia. }
  exists s. split_and!; [|lia|].
  - do 2 f_equal. unfold out'. rewrite drop_app_length' by (rewrite length_take; lia).
    rewrite drop_ge by lia. done.
  - rewrite Hs. change (16 ^ Z.of_nat 16) with (2 ^ 64). f_equal. by apply u64_small.
Qed.

Lemma hex_to_string_roundtrip_witness :
  is_u64 0xDEADBEEF ∧
  ∃ s, hex_to_string 0xDEADBEEF (replicate 17 0) = Ok (s ++ [0]) ∧ zlen s = 16 ∧
       hex_value s = Some 0xDEADBEEF.
Proof. split; [word|]. apply hex_to_string_roundtrip; [word|reflexivity]. Defined.

(** [strncpy] overruns its destination: when the first [n] bytes of the source
    contain no NUL, the [n--] that ends the copy loop wraps [n] to 2^64 - 1 and
    the padding loop writes zeros past the end of any destination object. *)
Theorem strncpy_overrun d s n :
  0 ≤ n ≤ zlen s → no_nul (take (Z.to_nat n) s) → zlen d < 2 ^ 64 - 1 →
  strncpy d s n = Fault.
Proof.
  intros Hn Hs Hd. unfold strncpy.
  destruct (strncpy_copy_long d s n Hn Hs) as [->|(w & r & -> & Hr)]; [done|].
  cbn [mbind res_bind]. by rewrite strncpy_pad_overrun by lia.
Qed.

Lemma strncpy_overrun_witness :
  zlen [97; 98; 99; 0] < 2 ^ 64 - 1 ∧ strncpy (replicate 4 7) [97; 98; 99; 0] 3 = Fault.
Proof.
  split; [reflexivity|]. apply strncpy_overrun; [by vm_compute| |by vm_compute].
  repeat constructor; lia.
Defined.
