(* ===== verification/Mb2.v ===== *)
(** * The Multiboot2 tag list ([boot/mb2.hpp])

    The boot information structure is the list of its bytes; a tag is its byte
    offset.  A walk reads tags until one of type 0, rounding each size up to a
    multiple of 8.  [fuel] bounds the walk: a tag whose rounded size is 0 makes
    the code loop for ever, which is [NoFuel] here for every fuel. *)

From S2P Require Import Prelude.

Definition TAG_END : Z := 0.
Definition TAG_MODULE : Z := 3.
Definition TAG_MEMMAP : Z := 6.
Definition MEMMAP_AVAIL : Z := 1.
Definition TAG_ACPI_OLD : Z := 14.
Definition TAG_ACPI_NEW : Z := 15.

(** [Tag::type] and [Tag::size] of the tag at [off]. *)
Definition tag_type (info : list Z) (off : Z) : Res Z := or_fault (field info off 4).
Definition tag_size (info : list Z) (off : Z) : Res Z := or_fault (field info (off + 4) 4).

(** [tag + aligned]: [aligned] is [(size + 7) & ~7u] in [u32]. *)
Definition tag_next (off size : Z) : Z := off + band_not (u32 (size + 7)) 7.

Fixpoint find_tag_from (fuel : nat) (info : list Z) (off wanted : Z) : Res (option Z) :=
  match fuel with
  | O => NoFuel
  | S fuel =>
      ty ← tag_type info off;
      if ty =? TAG_END then Ok None
      else if ty =? wanted then Ok (Some off)
      else
        size ← tag_size info off;
        find_tag_from fuel info (tag_next off size) wanted
  end.

(** The first tag follows the 8-byte header. *)
Definition find_tag (fuel : nat) (info : list Z) (wanted : Z) : Res (option Z) :=
  find_tag_from fuel info 8 wanted.

(** [for_each_tag] with a visitor that updates the state [S] and says whether to stop. *)
Fixpoint for_each_tag_from {S : Type} (fuel : nat) (info : list Z) (off : Z)
    (visitor : Z → S → Res (bool * S)) (s : S) : Res S :=
  match fuel with
  | O => NoFuel
  | Datatypes.S fuel =>
      ty ← tag_type info off;
      if ty =? TAG_END then Ok s
      else
        '(stop, s) ← visitor off s;
        if stop : bool then Ok s
        else
          size ← tag_size info off;
          for_each_tag_from fuel info (tag_next off size) visitor s
  end.

Definition for_each_tag {S : Type} (fuel : nat) (info : list Z)
    (visitor : Z → S → Res (bool * S)) (s : S) : Res S :=
  for_each_tag_from fuel info 8 visitor s.

(** ** The walk as a list of tags *)

(** The offsets of the tags before the end tag. *)
Fixpoint tags_from (fuel : nat) (info : list Z) (off : Z) : Res (list Z) :=
  match fuel with
  | O => NoFuel
  | S fuel =>
      ty ← tag_type info off;
      if ty =? TAG_END then Ok []
      else
        size ← tag_size info off;
        l ← tags_from fuel info (tag_next off size);
        Ok (off :: l)
  end.

Definition tags (fuel : nat) (info : list Z) : Res (list Z) := tags_from fuel info 8.

(** Run a visitor that never stops over a list of tags. *)
Fixpoint visit_all {S : Type} (visitor : Z → S → Res (bool * S)) (l : list Z) (s : S) : Res S :=
  match l with
  | [] => Ok s
  | off :: l => '(_, s) ← visitor off s; visit_all visitor l s
  end.

Lemma for_each_tag_visit_all {S} fuel info off (visitor : Z → S → Res (bool * S)) s l :
  (∀ o s b s', visitor o s = Ok (b, s') → b = false) →
  tags_from fuel info off = Ok l →
  for_each_tag_from fuel info off visitor s = visit_all visitor l s.
Proof.
  intros Hv. revert off s l. induction fuel as [|fuel IH]; intros off s l H; [done|].
  cbn [tags_from for_each_tag_from] in *. res_inv. rewrite Ha. cbn.
  case_match; res_inv; subst; [done|].
  rewrite Ha0. cbn. destruct (visitor off s) as [[b s']| | |] eqn:E; cbn; try done.
  rewrite (Hv _ _ _ _ E). by apply IH.
Qed.

(** The tag [find_tag] returns is the first of its type in the walk. *)
Lemma find_tag_from_spec fuel info off wanted l :
  wanted ≠ TAG_END → tags_from fuel info off = Ok l →
  ∃ r, find_tag_from fuel info off wanted = Ok r ∧
    match r with
    | Some t => t ∈ l ∧ tag_type info t = Ok wanted
    | None => ∀ t, t ∈ l → tag_type info t ≠ Ok wanted
    end.
Proof.
  intros Hw. revert off l. induction fuel as [|fuel IH]; intros off l H; [done|].
  cbn [tags_from find_tag_from] in *. res_inv. rewrite Ha. cbn.
  case_match; res_inv; subst.
  { exists None. split; [done|]. set_solver. }
  bool_arith. rewrite Ha0. destruct (Z.eqb_spec a wanted) as [->|Hne].
  { exists (Some off). split; [done|]. split; [set_solver|done]. }
  cbn. destruct (IH _ _ Ha1) as (r & -> & Hr). exists r. split; [done|].
  destruct r as [t|]; [set_solver|]. intros t [->|Ht]%elem_of_cons; [|by apply Hr].
  rewrite Ha. congruence.
Qed.

(** ** Tags as they are written *)

(** Parts of a concatenation. *)
Lemma slice_app_l {A} (l r : list A) off n : 0 ≤ off → 0 ≤ n → off + n ≤ zlen l → slice (l ++ r) off n = slice l off n.
Proof.
  intros Ho Hn Hl. unfold slice. assert (zlen l ≤ zlen (l ++ r)) by (unfold zlen; rewrite length_app; lia).
  rewrite !(proj2 (Z.ltb_ge _ _)) by lia. cbn [orb]. f_equal. unfold zlen in *.
  rewrite drop_app_le by lia. by rewrite take_app_le by (rewrite length_drop; lia).
Qed.

Lemma slice_app_r {A} (l r : list A) off n : 0 ≤ off → slice (l ++ r) (zlen l + off) n = slice r off n.
Proof.
  intros Ho. unfold slice, zlen. rewrite length_app, (proj2 (Z.ltb_ge off 0)), (proj2 (Z.ltb_ge (_ + off) 0)) by lia. cbn [orb].
  destruct (n <? 0); [done|]. cbn [orb]. rewrite drop_app_ge by lia.
  replace (Z.to_nat (Z.of_nat (length l) + off) - length l)%nat with (Z.to_nat off) by lia.
  destruct (Z.ltb_spec (Z.of_nat (length r)) (off + n)); [rewrite (proj2 (Z.ltb_lt _ _)) by lia|rewrite (proj2 (Z.ltb_ge _ _)) by lia]; done.
Qed.

Lemma field_app_r l r off n : 0 ≤ off → field (l ++ r) (zlen l + off) n = field r off n.
Proof. intros Ho. unfold field. by rewrite slice_app_r. Qed.

Lemma field_app_l l r off n : 0 ≤ off → 0 ≤ n → off + n ≤ zlen l → field (l ++ r) off n = field l off n.
Proof. intros. unfold field. by rewrite slice_app_l. Qed.

Lemma field_le_bytes n v r : 0 ≤ v < 2 ^ (8 * Z.of_nat n) → field (le_bytes n v ++ r) 0 (Z.of_nat n) = Some v.
Proof.
  intros Hv. unfold field. rewrite slice_app_l by (unfold zlen; rewrite ?le_bytes_length; lia).
  unfold slice. rewrite (proj2 (Z.ltb_ge _ _)) by lia. unfold zlen. rewrite le_bytes_length, Z.add_0_l, Z.ltb_irrefl. cbn.
  rewrite (proj2 (Z.ltb_ge _ 0)), drop_0, take_ge by (rewrite ?le_bytes_length; lia). cbn. by rewrite le_val_bytes, Z.mod_small.
Qed.

Lemma field_u32 v r : is_u32 v → field (le_bytes 4 v ++ r) 0 4 = Some v.
Proof. apply (field_le_bytes 4). Qed.

(** A tag: its type and the bytes after its header. *)
Definition Tag : Type := Z * list Z.

Definition tag_wf (t : Tag) : Prop := is_u32 t.1 ∧ t.1 ≠ 0 ∧ 8 + zlen t.2 + 7 < 2 ^ 32.

(** The tag in the boot information, up to the next multiple of eight bytes. *)
Definition encode_tag (t : Tag) : list Z :=
  le_bytes 4 t.1 ++ le_bytes 4 (8 + zlen t.2) ++ t.2 ++ replicate (Z.to_nat ((- zlen t.2) `mod` 8)) 0.

(** The boot information: a header of eight bytes, the tags, and the end tag. *)
Definition encode_info (hdr : list Z) (ts : list Tag) (rest : list Z) : list Z :=
  hdr ++ concat (encode_tag <$> ts) ++ le_bytes 4 0 ++ rest.

Definition first_tag (wanted : Z) (ts : list Tag) : option (list Z) :=
  snd <$> List.find (λ t, t.1 =? wanted) ts.

Lemma encode_tag_next t off : tag_wf t → tag_next off (8 + zlen t.2) = off + zlen (encode_tag t).
Proof.
  intros (_ & _ & Hl). unfold tag_next, encode_tag. assert (0 ≤ zlen t.2) by (unfold zlen; lia).
  rewrite u32_small by (unfold is_u32; lia). unfold band_not. change 7 with (Z.ones 3) at 2. rewrite Z.ldiff_ones_r by lia.
  rewrite Z.shiftl_mul_pow2, Z.shiftr_div_pow2 by lia. rewrite !zlen_app. unfold zlen in *. rewrite !le_bytes_length, length_replicate.
  change (2 ^ 3) with 8. Z.div_mod_to_equations. lia.
Qed.

Lemma find_tag_from_encoded fuel pre ts rest wanted :
  wanted ≠ 0 → Forall tag_wf ts → (length ts < fuel)%nat →
  ∃ r, find_tag_from fuel (pre ++ concat (encode_tag <$> ts) ++ le_bytes 4 0 ++ rest) (zlen pre) wanted = Ok r ∧
    match first_tag wanted ts with
    | None => r = None
    | Some body => ∃ off, r = Some off ∧ ∀ i n, 0 ≤ i → 0 ≤ n → i + n ≤ zlen body →
        field (pre ++ concat (encode_tag <$> ts) ++ le_bytes 4 0 ++ rest) (off + 8 + i) n = field body i n
    end.
Proof.
  intros Hw Hts. revert pre fuel. induction Hts as [|t ts Ht Hts IH]; intros pre fuel Hf; (destruct fuel as [|fuel]; [simpl in Hf; lia|]);
    cbn [find_tag_from]; unfold tag_type, tag_size.
  { rewrite <-(Z.add_0_r (zlen pre)), field_app_r by lia. cbn [fmap list_fmap concat app].
    rewrite field_u32 by done. res_step. by exists None. }
  cbn [fmap list_fmap concat]. rewrite <-(Z.add_0_r (zlen pre)), field_app_r by lia. pose proof Ht as (Hu & Hne & Hl).
  assert (0 ≤ zlen t.2) by (unfold zlen; lia).
  set (tail := concat (encode_tag <$> ts) ++ le_bytes 4 0 ++ rest).
  assert (encode_tag t ++ tail = le_bytes 4 t.1 ++ le_bytes 4 (8 + zlen t.2) ++ t.2 ++ replicate (Z.to_nat ((- zlen t.2) `mod` 8)) 0 ++ tail) as Et
    by (unfold encode_tag; by rewrite <-!app_assoc).
  assert (field (encode_tag t ++ tail) 0 4 = Some t.1) as Hty by (rewrite Et; by apply field_u32).
  assert (field (encode_tag t ++ tail) 4 4 = Some (8 + zlen t.2)) as Hsz.
  { rewrite Et. change 4 with (zlen (le_bytes 4 t.1) + 0) at 1. rewrite field_app_r by lia. apply field_u32. unfold is_u32. lia. }
  rewrite <-!app_assoc. fold tail. rewrite Hty. res_step.
  rewrite (proj2 (Z.eqb_neq t.1 TAG_END)) by done. unfold first_tag. cbn [List.find].
  destruct (Z.eqb_spec t.1 wanted) as [Heq|Hn].
  - eexists. split; [done|]. cbn [fmap option_fmap option_map snd]. exists (zlen pre + 0). split; [done|]. intros i n Hi Hn Hin.
    replace (zlen pre + 0 + 8 + i) with (zlen pre + (zlen (le_bytes 4 t.1) + (zlen (le_bytes 4 (8 + zlen t.2)) + i))) by (unfold zlen; rewrite !le_bytes_length; lia).
    rewrite field_app_r by (unfold zlen; lia). rewrite Et, !field_app_r by (unfold zlen; lia). by rewrite field_app_l.
  - rewrite Z.add_0_r. rewrite field_app_r, Hsz by lia. res_step. rewrite encode_tag_next by done.
    specialize (IH (pre ++ encode_tag t) fuel ltac:(simpl in Hf; lia)). rewrite <-app_assoc, zlen_app in IH. exact IH.
Qed.

Lemma find_tag_encoded fuel hdr ts rest wanted :
  zlen hdr = 8 → wanted ≠ 0 → Forall tag_wf ts → (length ts < fuel)%nat →
  ∃ r, find_tag fuel (encode_info hdr ts rest) wanted = Ok r ∧
    match first_tag wanted ts with
    | None => r = None
    | Some body => ∃ off, r = Some off ∧ ∀ i n, 0 ≤ i → 0 ≤ n → i + n ≤ zlen body →
        field (encode_info hdr ts rest) (off + 8 + i) n = field body i n
    end.
Proof. intros Hh. pose proof (find_tag_from_encoded fuel hdr ts rest wanted) as F. rewrite Hh in F. exact F. Qed.
