(* ===== verification/Mem.v ===== *)
(** * Byte-addressed memory

    What the kernel reads and writes through raw pointers: a total map from
    addresses to bytes, with little-endian loads and stores of [n] bytes.  The
    physical memory behind the physmap ([vmm.cpp]) and the heap's virtual range
    ([heap.cpp]) are both memories of this kind. *)

From S2P Require Import Prelude.

Definition mem : Type := Z → Z.

Fixpoint load (n : nat) (m : mem) (a : Z) : Z :=
  match n with
  | O => 0
  | S n => m a + 256 * load n m (a + 1)
  end.

Definition store (n : nat) (m : mem) (a v : Z) : mem := λ x,
  if (a <=? x) && (x <? a + Z.of_nat n) then byte_of v (x - a) else m x.

(** [load64 m a] and [store64 m a v] are [*(u64* )a] and [*(u64* )a = v]. *)
Definition load64 : mem → Z → Z := load 8.
Definition store64 : mem → Z → Z → mem := store 8.

(** [memset(a, c, n)] and [memcpy(a, b, n)] on non-overlapping ranges. *)
Definition fill (m : mem) (a n c : Z) : mem := λ x,
  if (a <=? x) && (x <? a + n) then u8 c else m x.

Definition copy (m : mem) (dst src n : Z) : mem := λ x,
  if (dst <=? x) && (x <? dst + n) then m (src + (x - dst)) else m x.

(** Write the bytes [bs] at [a]. *)
Definition store_bytes (m : mem) (a : Z) (bs : list Z) : mem := λ x,
  match zget bs (x - a) with Some b => b | None => m x end.

Definition mem_ok (m : mem) : Prop := ∀ a, is_u8 (m a).

Lemma load_ext n m m' a :
  (∀ x, a ≤ x < a + Z.of_nat n → m x = m' x) → load n m a = load n m' a.
Proof.
  revert a. induction n as [|n IH]; intros a H; [done|]. cbn [load].
  rewrite (H a) by lia. rewrite IH; [done|]. intros x Hx. apply H. lia.
Qed.

Lemma byte_of_div v i : 0 ≤ i → byte_of v i = (v / 2 ^ (8 * i)) `mod` 256.
Proof. intros. unfold byte_of. by rewrite land_255, Z.shiftr_div_pow2 by lia. Qed.

Lemma load_bytes_of n m a k v :
  0 ≤ k → (∀ x, a ≤ x < a + Z.of_nat n → m x = byte_of v (k + (x - a))) →
  load n m a = (v / 2 ^ (8 * k)) `mod` 2 ^ (8 * Z.of_nat n).
Proof.
  revert a k. induction n as [|n IH]; intros a k Hk H; [by rewrite Z.mod_1_r|].
  cbn [load]. rewrite (H a) by lia. rewrite Z.sub_diag, Z.add_0_r, byte_of_div by done.
  rewrite (IH (a + 1) (k + 1)); [|lia|]; cycle 1.
  { intros x Hx. rewrite H by lia. f_equal. lia. }
  replace (8 * (k + 1)) with (8 * k + 8) by lia.
  rewrite Z.pow_add_r, <-Z.div_div by lia. change (2 ^ 8) with 256.
  replace (8 * Z.of_nat (S n)) with (8 + 8 * Z.of_nat n) by lia.
  rewrite Z.pow_add_r, Z.rem_mul_r by lia. change (2 ^ 8) with 256. ring.
Qed.

Lemma load_store_same n m a v : load n (store n m a v) a = v `mod` 2 ^ (8 * Z.of_nat n).
Proof.
  rewrite (load_bytes_of n _ a 0 v); [|lia|].
  - by rewrite Z.mul_0_r, Z.div_1_r.
  - intros x Hx. unfold store. rewrite Z.add_0_l.
    destruct (Z.leb_spec a x), (Z.ltb_spec x (a + Z.of_nat n)); try lia. done.
Qed.

Lemma store_other n m a v x : x < a ∨ a + Z.of_nat n ≤ x → store n m a v x = m x.
Proof. unfold store. intros. case_cmp; case_cmp; simpl; try lia; done. Qed.

Lemma load_store_other k n m a b v :
  a + Z.of_nat n ≤ b ∨ b + Z.of_nat k ≤ a → load k (store n m a v) b = load k m b.
Proof. intros H. apply load_ext. intros x Hx. apply store_other. lia. Qed.

Lemma load64_store64_same m a v : is_u64 v → load64 (store64 m a v) a = v.
Proof. intros Hv. unfold load64, store64. rewrite load_store_same. by apply u64_small. Qed.

Lemma load64_store64_other m a b v :
  a + 8 ≤ b ∨ b + 8 ≤ a → load64 (store64 m a v) b = load64 m b.
Proof. apply (load_store_other 8 8). Qed.

Lemma load64_fill_zero m a n b :
  a ≤ b → b + 8 ≤ a + n → load64 (fill m a n 0) b = 0.
Proof.
  intros H1 H2. unfold load64. rewrite (load_bytes_of 8 _ b 0 0); [done|lia|].
  intros x Hx. unfold fill. case_cmp; case_cmp; simpl; try lia.
  rewrite byte_of_div by lia. by rewrite Z.div_0_l by lia.
Qed.

Lemma load64_fill_other m a n b c :
  b + 8 ≤ a ∨ a + n ≤ b → load64 (fill m a n c) b = load64 m b.
Proof.
  intros H. apply load_ext. intros x Hx. unfold fill. case_cmp; case_cmp; simpl; done || lia.
Qed.

Lemma load64_copy_other m d s n b :
  b + 8 ≤ d ∨ d + n ≤ b → load64 (copy m d s n) b = load64 m b.
Proof.
  intros H. apply load_ext. intros x Hx. unfold copy. case_cmp; case_cmp; simpl; done || lia.
Qed.

Lemma load_bound n m a : mem_ok m → 0 ≤ load n m a < 2 ^ (8 * Z.of_nat n).
Proof.
  intros Hm. revert a. induction n as [|n IH]; intros a; [done|]. cbn [load].
  replace (8 * Z.of_nat (S n)) with (8 + 8 * Z.of_nat n) by lia.
  rewrite Z.pow_add_r by lia. change (2 ^ 8) with 256.
  pose proof (IH (a + 1)). pose proof (Hm a) as Ha. unfold is_u8 in Ha. lia.
Qed.

Lemma mem_ok_store n m a v : mem_ok m → mem_ok (store n m a v).
Proof. intros H x. unfold store. case_match; [apply byte_of_range|apply H]. Qed.
Lemma mem_ok_fill m a n c : mem_ok m → mem_ok (fill m a n c).
Proof. intros H x. unfold fill. case_match; [apply u8_range|apply H]. Qed.
Lemma mem_ok_copy m d s n : mem_ok m → mem_ok (copy m d s n).
Proof. intros H x. unfold copy. case_match; apply H. Qed.

Lemma store_bytes_outside m a bs x : x < a ∨ a + zlen bs ≤ x → store_bytes m a bs x = m x.
Proof.
  intros Hx. unfold store_bytes, zget, zlen in *. case_cmp; [done|].
  by rewrite lookup_ge_None_2 by lia.
Qed.

Lemma store_bytes_inside m a bs i b : bs !! i = Some b → store_bytes m a bs (a + Z.of_nat i) = b.
Proof.
  intros Hb. unfold store_bytes, zget. case_cmp; [lia|].
  replace (Z.to_nat (a + Z.of_nat i - a)) with i by lia. by rewrite Hb.
Qed.

(** The bytes [bs] lie at [p]. *)
Definition bytes_at (m : mem) (p : Z) (bs : list Z) : Prop := ∀ i b, zget bs i = Some b → m (p + i) = b.

Lemma bytes_at_app m p l1 l2 : bytes_at m p (l1 ++ l2) → bytes_at m p l1 ∧ bytes_at m (p + zlen l1) l2.
Proof.
  intros H. split; intros i b Hi; apply zget_Some in Hi as [Hi Hb].
  - apply H, zget_Some. split; [done|]. by apply lookup_app_l_Some.
  - rewrite <-Z.add_assoc. apply H, zget_Some. unfold zlen. split; [lia|]. rewrite lookup_app_r by lia. rewrite <-Hb. f_equal. lia.
Qed.

Lemma bytes_at_cons m p b l : bytes_at m p (b :: l) → m p = b ∧ bytes_at m (p + 1) l.
Proof. intros [H1 H2]%(bytes_at_app m p [b] l). split; [|done]. rewrite <-(Z.add_0_r p). by apply H1. Qed.

Lemma load_bytes_at n m p v : 0 ≤ v < 2 ^ (8 * Z.of_nat n) → bytes_at m p (le_bytes n v) → load n m p = v.
Proof.
  revert p v. induction n as [|n IH]; intros p v Hv Hb; [simpl in *; lia|]. cbn [le_bytes load] in *.
  apply bytes_at_cons in Hb as [-> Hb]. rewrite land_255. rewrite Nat2Z.inj_succ in Hv.
  rewrite (IH (p + 1) (Z.shiftr v 8)); [|rewrite Z.shiftr_div_pow2 by lia; change (2 ^ 8) with 256|done].
  - rewrite Z.shiftr_div_pow2 by lia. change (2 ^ 8) with 256. Z.div_mod_to_equations. lia.
  - replace (8 * Z.succ (Z.of_nat n)) with (8 + 8 * Z.of_nat n) in Hv by lia. rewrite Z.pow_add_r in Hv by lia.
    change (2 ^ 8) with 256 in Hv. split; [apply Z.div_pos; lia|apply Z.div_lt_upper_bound; lia].
Qed.

Lemma bytes_at_store m p bs : bytes_at (store_bytes m p bs) p bs.
Proof. intros i b Hi. unfold store_bytes. by rewrite Z.add_simpl_l, Hi. Qed.

Lemma bytes_at_outside m p bs a l :
  bytes_at m a l → a + zlen l ≤ p ∨ p + zlen bs ≤ a → bytes_at (store_bytes m p bs) a l.
Proof.
  intros Hb Ho i b Hi. apply zget_Some in Hi as Hi'. destruct Hi' as [Hi0 Hl]. apply lookup_lt_Some in Hl.
  rewrite store_bytes_outside; [by apply Hb|]. unfold zlen in *. lia.
Qed.

Lemma bytes_at_ext m m' a l : (∀ x, m' x = m x) → bytes_at m a l → bytes_at m' a l.
Proof. intros E Hb i b Hi. rewrite E. by apply Hb. Qed.

#[export] Hint Resolve mem_ok_store mem_ok_fill mem_ok_copy : word.

(** ** Loops over a table of words *)

(** [for (i = 0; i < 512; ++i) t\[i\] = w i] on a table at [t]. *)
Fixpoint store_words (n : nat) (i : Z) (t : Z) (w : Z → Z) (m : mem) : mem :=
  match n with
  | O => m
  | S n => store_words n (i + 1) t w (store64 m (t + 8 * i) (w i))
  end.

Lemma store_words_other n i t w m b :
  b + 8 ≤ t + 8 * i ∨ t + 8 * (i + Z.of_nat n) ≤ b →
  load64 (store_words n i t w m) b = load64 m b.
Proof.
  revert i m. induction n as [|n IH]; intros i m H; [done|]. cbn [store_words].
  rewrite IH by lia. apply load64_store64_other. lia.
Qed.

Lemma store_words_same n i t w m j :
  i ≤ j < i + Z.of_nat n → is_u64 (w j) →
  load64 (store_words n i t w m) (t + 8 * j) = w j.
Proof.
  revert i m. induction n as [|n IH]; intros i m Hj Hw; [lia|]. cbn [store_words].
  destruct (decide (j = i)) as [->|Hne].
  - rewrite store_words_other by lia. by apply load64_store64_same.
  - apply IH; [lia|done].
Qed.

Lemma store_words_outside n i t w m x :
  x < t + 8 * i ∨ t + 8 * (i + Z.of_nat n) ≤ x → store_words n i t w m x = m x.
Proof.
  revert i m. induction n as [|n IH]; intros i m H; [done|]. cbn [store_words].
  rewrite IH by lia. unfold store64. apply store_other. lia.
Qed.

Lemma mem_ok_store_words n i t w m : mem_ok m → mem_ok (store_words n i t w m).
Proof.
  revert i m. induction n as [|n IH]; intros i m Hm; [done|].
  cbn [store_words]. apply IH, mem_ok_store, Hm.
Qed.

#[global] Arguments store_words : simpl never.
#[global] Opaque store_words.
