(* ===== verification/Frames.v ===== *)
(** * The interface of a physical frame allocator

    What [pmm] promises to [vmm] and to everything that asks for frames: the
    page-table code and its theorems are stated against this class, and [Pmm]
    gives the instance. *)

From S2P Require Import Prelude.

(** Frames are numbered below [NUM_FRAMES]: the allocator tracks 4 GiB. *)
Definition NUM_FRAMES : Z := 0x100000.

Class FrameAlloc (A : Type) := {
  fa_alloc : A → Res (A * Z);
  fa_free : Z → A → A;
  fa_used : A → Z → bool;
}.

Class FrameAllocLaws (A : Type) `{FrameAlloc A} := {
  (** Allocation hands out a frame that was not in use and changes no other. *)
  fa_alloc_fresh a a' p : fa_alloc a = Ok (a', p) →
    ∃ f, p = f * PAGE_SIZE ∧ 0 ≤ f < NUM_FRAMES ∧ fa_used a f = false ∧
      ∀ g, fa_used a' g = (f =? g) || fa_used a g;
  (** It either succeeds or stops the machine. *)
  fa_alloc_total a : (∃ r, fa_alloc a = Ok r) ∨ fa_alloc a = Halt;
  (** It stops the machine only when every frame is in use. *)
  fa_alloc_halt a : fa_alloc a = Halt → ∀ f, 0 ≤ f < NUM_FRAMES → fa_used a f = true;
  (** Freeing releases exactly the frame that contains the address. *)
  fa_free_used a p g : 0 ≤ g < NUM_FRAMES →
    fa_used (fa_free p a) g = negb (p / PAGE_SIZE =? g) && fa_used a g;
}.

(** ** Running out of frames *)

Section fewer.
Context {A : Type} `{FrameAllocLaws A}.

(** Fewer than [n] frames are free. *)
Definition fewer (n : nat) (a : A) : Prop :=
  ∃ l : list Z, (length l < n)%nat ∧ ∀ f, 0 ≤ f < NUM_FRAMES → fa_used a f = false → f ∈ l.

(** An operation that takes at most [n] frames: what is short of frames after it was
    short before it, and it stops the machine only when there were not enough. *)
Definition costs {X} (allocator : X → A) (n : nat) (r : Res X) (a : A) : Prop :=
  match r with
  | Ok x => ∀ k, fewer k (allocator x) → fewer (k + n) a
  | Halt => fewer n a
  | _ => True
  end.

(** The result is an [x] with [Q x], or the machine stopped for want of [n] free frames. *)
Definition ensures_frames {X} (n : nat) (a : A) (r : Res X) (Q : X → Prop) : Prop :=
  match r with Ok x => Q x | Halt => fewer n a | _ => False end.

Lemma fewer_weaken n m a : (n ≤ m)%nat → fewer n a → fewer m a.
Proof using Type. intros Hnm (l & Hl & Hf). exists l. split; [lia|done]. Qed.

Lemma costs_weaken {X} (al : X → A) n m r a : (n ≤ m)%nat → costs al n r a → costs al m r a.
Proof using Type.
  intros Hnm. destruct r; simpl; [|by apply fewer_weaken|done..].
  intros Hc k Hk. eapply fewer_weaken; [|by apply Hc]. lia.
Qed.

(** Operations that leave the allocator alone. *)
Lemma costs_keep {X} (al : X → A) x a : al x = a → costs al 0 (Ok x) a.
Proof using Type. intros <- k. by rewrite Nat.add_0_r. Qed.

Lemma costs_bind {X Y} (al : X → A) (al' : Y → A) n m (r : Res X) (f : X → Res Y) a :
  costs al n r a → (∀ x, r = Ok x → costs al' m (f x) (al x)) → costs al' (n + m) (r ≫= f) a.
Proof using Type.
  intros Hr Hf. destruct r as [x| | |]; [|by (simpl in *; eapply fewer_weaken; [|exact Hr]; lia)|done..].
  specialize (Hf x eq_refl). simpl in *. destruct (f x); simpl in *; [|rewrite Nat.add_comm; by apply Hr|done..].
  intros k Hk. apply Hf, Hr in Hk. eapply fewer_weaken; [|exact Hk]. lia.
Qed.

(** The first step takes no frames. *)
Lemma costs_pure {X Y} (al' : Y → A) m (r : Res X) (f : X → Res Y) a :
  r ≠ Halt → (∀ x, r = Ok x → costs al' m (f x) a) → costs al' m (r ≫= f) a.
Proof using Type. intros Hr Hf. destruct r as [x| | |]; simpl; [by apply Hf|done..]. Qed.

Lemma costs_alloc a : costs fst 1 (fa_alloc a) a.
Proof using All.
  destruct (fa_alloc_total a) as [[[a' p] E]|E]; rewrite E; simpl.
  - intros k (l & Hl & Hf). destruct (fa_alloc_fresh _ _ _ E) as (f & _ & _ & _ & Hu).
    exists (f :: l). split; [simpl; lia|]. intros g Hg Hug. apply elem_of_cons.
    destruct (Z.eqb_spec f g) as [->|Hne]; [by left|right]. apply Hf; [done|].
    rewrite Hu, Hug. rewrite (proj2 (Z.eqb_neq f g)) by done. done.
  - exists []. split; [simpl; lia|]. intros f Hf Hu. by rewrite (fa_alloc_halt a E f Hf) in Hu.
Qed.

Lemma ensures_costs {X} (al : X → A) n a (r : Res X) Q :
  ensures r Q → costs al n r a → ensures_frames n a r Q.
Proof using Type. by destruct r. Qed.

Lemma ensures_frames_mono {X} n a (r : Res X) (Q R : X → Prop) :
  ensures_frames n a r Q → (∀ x, Q x → R x) → ensures_frames n a r R.
Proof using Type. destruct r; simpl; auto. Qed.

Lemma ensures_frames_bind {X Y} n a (r : Res X) (f : X → Res Y) Q R :
  ensures_frames n a r Q → (∀ x, Q x → ensures_frames n a (f x) R) → ensures_frames n a (r ≫= f) R.
Proof using Type. destruct r; simpl; auto. Qed.

End fewer.
