(* ===== verification/Pmm.v ===== *)
(** * The physical memory manager ([mem/pmm.cpp])

    A bitmap with one bit per 4 KiB frame (1 = used) and two counters.  The
    128 KiB array is a finite map from byte index to byte in which an absent
    index holds [0xFF], the value [init]'s fill loop gives every byte. *)

From S2P Require Import Prelude Frames Mb2.

Definition MAX_PHYS : Z := 0x100000000.
Definition MAX_FRAMES : Z := MAX_PHYS / PAGE_SIZE.

Record Pmm := MkPmm {
  bitmap : gmap Z Z;
  total_frames : Z;
  used_frames : Z;
}.

Definition bitmap_byte (st : Pmm) (i : Z) : Z := default 0xFF (bitmap st !! i).

(** ** Bit helpers *)

Definition set_used (frame : Z) (st : Pmm) : Pmm :=
  MkPmm (<[frame / 8 := Z.lor (bitmap_byte st (frame / 8)) (Z.shiftl 1 (frame `mod` 8))]> (bitmap st))
        (total_frames st) (used_frames st).

Definition set_free (frame : Z) (st : Pmm) : Pmm :=
  MkPmm (<[frame / 8 := band_not (bitmap_byte st (frame / 8)) (Z.shiftl 1 (frame `mod` 8))]> (bitmap st))
        (total_frames st) (used_frames st).

Definition is_used (st : Pmm) (frame : Z) : bool :=
  negb (Z.land (bitmap_byte st (frame / 8)) (Z.shiftl 1 (frame `mod` 8)) =? 0).

Definition add_total (d : Z) (st : Pmm) : Pmm :=
  MkPmm (bitmap st) (u64 (total_frames st + d)) (used_frames st).
Definition add_used (d : Z) (st : Pmm) : Pmm :=
  MkPmm (bitmap st) (total_frames st) (u64 (used_frames st + d)).

(** ** Range helpers *)

(** Enough for one visit to every frame and the exit test. *)
Definition frame_fuel : nat := Z.to_nat (MAX_FRAMES + 1).

Fixpoint mark_free_loop (fuel : nat) (addr end_ : Z) (st : Pmm) : Res Pmm :=
  match fuel with
  | O => NoFuel
  | S fuel =>
      if addr <? end_ then
        let frame := addr / PAGE_SIZE in
        if MAX_FRAMES <=? frame then Ok st
        else
          let st := if is_used st frame then add_total 1 (set_free frame st) else st in
          mark_free_loop fuel (u64 (addr + PAGE_SIZE)) end_ st
      else Ok st
  end.

Definition mark_range_free (base length : Z) (st : Pmm) : Res Pmm :=
  let start := page_up base in
  let end_ := page_down (u64 (base + length)) in
  if end_ <=? start then Ok st else mark_free_loop frame_fuel start end_ st.

Fixpoint mark_used_loop (fuel : nat) (addr end_ : Z) (st : Pmm) : Res Pmm :=
  match fuel with
  | O => NoFuel
  | S fuel =>
      if addr <? end_ then
        let frame := addr / PAGE_SIZE in
        if MAX_FRAMES <=? frame then Ok st
        else
          let st := if negb (is_used st frame) then add_used 1 (set_used frame st) else st in
          mark_used_loop fuel (u64 (addr + PAGE_SIZE)) end_ st
      else Ok st
  end.

Definition mark_range_used (base length : Z) (st : Pmm) : Res Pmm :=
  let start := page_down base in
  let end_ := page_up (u64 (base + length)) in
  mark_used_loop frame_fuel start end_ st.

(** ** Initialisation *)

(** The bitmap filled with [0xFF] and both counters zero. *)
Definition all_reserved : Pmm := MkPmm ∅ 0 0.

(** [while (entry_ptr < mmap_end)] over the memory-map entries. *)
Fixpoint mmap_loop (fuel : nat) (info : list Z) (entry_ptr mmap_end entry_size : Z)
    (st : Pmm) : Res Pmm :=
  match fuel with
  | O => NoFuel
  | S fuel =>
      if entry_ptr <? mmap_end then
        ty ← or_fault (field info (entry_ptr + 16) 4);
        st ← (if ty =? MEMMAP_AVAIL then
                base ← or_fault (field info entry_ptr 8);
                len ← or_fault (field info (entry_ptr + 8) 8);
                mark_range_free base len st
              else Ok st);
        mmap_loop fuel info (entry_ptr + entry_size) mmap_end entry_size st
      else Ok st
  end.

(** The lambda passed to [for_each_tag]: reserve a boot module. *)
Definition reserve_module (info : list Z) (off : Z) (st : Pmm) : Res (bool * Pmm) :=
  ty ← tag_type info off;
  if negb (ty =? TAG_MODULE) then Ok (false, st)
  else
    mod_start ← or_fault (field info (off + 8) 4);
    mod_end ← or_fault (field info (off + 12) 4);
    st ← mark_range_used mod_start (u32 (mod_end - mod_start)) st;
    Ok (false, st).

(** [init(boot_info_addr)]: [info] is the boot information at that address,
    [ks] and [ke] are the linker's [_kernel_start] and [_kernel_end]. *)
Definition init (fuel : nat) (boot_info_addr : Z) (info : list Z) (ks ke : Z) : Res Pmm :=
  tag ← find_tag fuel info TAG_MEMMAP;
  match tag with
  | None => Halt
  | Some off =>
      size ← or_fault (field info (off + 4) 4);
      entry_size ← or_fault (field info (off + 8) 4);
      st ← mmap_loop fuel info (off + 16) (off + size) entry_size all_reserved;
      st ← mark_range_used ks (u64 (ke - ks)) st;
      st ← mark_range_used 0 0x100000 st;
      total_size ← or_fault (field info 0 4);
      st ← mark_range_used boot_info_addr total_size st;
      for_each_tag fuel info (reserve_module info) st
  end.

(** ** Allocation *)

Fixpoint alloc_loop (fuel : nat) (i : Z) (st : Pmm) : Res (Pmm * Z) :=
  match fuel with
  | O => NoFuel
  | S fuel =>
      if i <? MAX_FRAMES then
        if negb (is_used st i) then Ok (add_used 1 (set_used i st), u64 (i * PAGE_SIZE))
        else alloc_loop fuel (i + 1) st
      else Halt
  end.

Definition alloc_frame (st : Pmm) : Res (Pmm * Z) := alloc_loop frame_fuel 0 st.

Definition free_frame (phys_addr : Z) (st : Pmm) : Pmm :=
  let frame := phys_addr / PAGE_SIZE in
  if (MAX_FRAMES <=? frame) || negb (is_used st frame) then st
  else add_used (-1) (set_free frame st).

Definition total_frame_count (st : Pmm) : Z := total_frames st.
Definition used_frame_count (st : Pmm) : Z := used_frames st.

(** ** Lemmas on the bitmap *)

Lemma is_used_testbit st f :
  is_used st f = Z.testbit (bitmap_byte st (f / 8)) (f `mod` 8).
Proof.
  unfold is_used. assert (0 ≤ f `mod` 8 < 8) by (apply Z.mod_pos_bound; lia).
  set (b := bitmap_byte _ _). set (k := f `mod` 8) in *.
  destruct (Z.testbit b k) eqn:E.
  - apply negb_true_iff, Z.eqb_neq. intros H0.
    assert (Z.testbit (Z.land b (Z.shiftl 1 k)) k = true) as Ht.
    { rewrite Z.land_spec, Z.shiftl_spec, Z.sub_diag, E by lia. done. }
    by rewrite H0, Z.bits_0 in Ht.
  - apply negb_false_iff, Z.eqb_eq, Z_bits_ext. intros i Hi.
    rewrite Z.land_spec, Z.bits_0, Z.shiftl_1_l, testbit_pow2 by lia.
    destruct (Z.eqb_spec i k) as [->|]; [by rewrite E|by rewrite andb_false_r].
Qed.

Lemma same_bit f g : (g / 8 =? f / 8) && (g `mod` 8 =? f `mod` 8) = (f =? g).
Proof.
  destruct (Z.eqb_spec f g) as [->|Hne]; [by rewrite !Z.eqb_refl|].
  destruct (Z.eqb_spec (g / 8) (f / 8)), (Z.eqb_spec (g `mod` 8) (f `mod` 8)); try done.
  pose proof (Z.div_mod f 8). pose proof (Z.div_mod g 8). lia.
Qed.

Lemma is_used_set_used f g st : is_used (set_used f st) g = (f =? g) || is_used st g.
Proof.
  rewrite !is_used_testbit, <-same_bit. unfold set_used, bitmap_byte; simpl.
  assert (0 ≤ g `mod` 8) by (apply Z.mod_pos_bound; lia).
  assert (0 ≤ f `mod` 8) by (apply Z.mod_pos_bound; lia).
  destruct (Z.eqb_spec (g / 8) (f / 8)) as [->|Hne].
  - rewrite lookup_insert_eq; simpl. rewrite Z.lor_spec, Z.shiftl_1_l, testbit_pow2 by done.
    apply orb_comm.
  - by rewrite lookup_insert_ne.
Qed.

Lemma is_used_set_free f g st : is_used (set_free f st) g = negb (f =? g) && is_used st g.
Proof.
  rewrite !is_used_testbit, <-same_bit. unfold set_free, bitmap_byte, band_not; simpl.
  assert (0 ≤ g `mod` 8) by (apply Z.mod_pos_bound; lia).
  assert (0 ≤ f `mod` 8) by (apply Z.mod_pos_bound; lia).
  destruct (Z.eqb_spec (g / 8) (f / 8)) as [->|Hne].
  - rewrite lookup_insert_eq; simpl.
    rewrite Z.ldiff_spec, Z.shiftl_1_l, testbit_pow2 by done. apply andb_comm.
  - by rewrite lookup_insert_ne.
Qed.

Lemma is_used_all_reserved f : is_used all_reserved f = true.
Proof.
  rewrite is_used_testbit. unfold bitmap_byte; simpl.
  assert (0 ≤ f `mod` 8 < 8) by (apply Z.mod_pos_bound; lia).
  change (Z.testbit (Z.ones 8) (f `mod` 8) = true).
  rewrite ones_testbit by lia. lia.
Qed.

Lemma is_used_add_total d st f : is_used (add_total d st) f = is_used st f.
Proof. done. Qed.
Lemma is_used_add_used d st f : is_used (add_used d st) f = is_used st f.
Proof. done. Qed.

Create Rewrite HintDb pmm.
#[export] Hint Rewrite is_used_set_used is_used_set_free is_used_all_reserved
  is_used_add_total is_used_add_used : pmm.

(** ** The number of free frames *)

Definition all_frames : list Z := seqZ 0 MAX_FRAMES.

Lemma elem_of_all_frames f : f ∈ all_frames ↔ 0 ≤ f < MAX_FRAMES.
Proof. unfold all_frames. rewrite elem_of_seqZ. lia. Qed.
Lemma NoDup_all_frames : NoDup all_frames.
Proof. apply NoDup_seqZ. Qed.
#[global] Opaque all_frames.

Definition free_frames (st : Pmm) : list Z := filter (λ f, is_used st f = false) all_frames.
Definition free_count (st : Pmm) : Z := Z.of_nat (length (free_frames st)).

(** The counters agree with the bitmap, modulo the width of the counters. *)
Definition counted (st : Pmm) : Prop :=
  used_frames st = u64 (total_frames st - free_count st).

Lemma free_count_flip f st st' :
  0 ≤ f < MAX_FRAMES → is_used st f = true → is_used st' f = false →
  (∀ g, g ≠ f → is_used st' g = is_used st g) →
  free_count st' = free_count st + 1.
Proof.
  intros Hf Hu Hu' Hother. unfold free_count, free_frames.
  rewrite (length_filter_flip (λ f, is_used st f = false) _ _ f).
  - lia.
  - apply NoDup_all_frames.
  - by apply elem_of_all_frames.
  - simpl. congruence.
  - done.
  - simpl. intros y Hy. by rewrite Hother.
Qed.

Lemma free_count_set_free f st :
  0 ≤ f < MAX_FRAMES → is_used st f = true → free_count (set_free f st) = free_count st + 1.
Proof.
  intros Hf Hu. apply (free_count_flip f); [done..| |].
  - by rewrite is_used_set_free, Z.eqb_refl.
  - intros g Hg. rewrite is_used_set_free. by destruct (Z.eqb_spec f g).
Qed.

Lemma free_count_set_used f st :
  0 ≤ f < MAX_FRAMES → is_used st f = false → free_count (set_used f st) = free_count st - 1.
Proof.
  intros Hf Hu. rewrite (free_count_flip f (set_used f st) st); [lia|done| |done|].
  - by rewrite is_used_set_used, Z.eqb_refl.
  - intros g Hg. rewrite is_used_set_used. by destruct (Z.eqb_spec f g).
Qed.

Lemma free_count_ext st st' : bitmap st = bitmap st' → free_count st = free_count st'.
Proof.
  intros H. unfold free_count, free_frames, is_used, bitmap_byte. by rewrite H.
Qed.
Lemma free_count_add_used d st : free_count (add_used d st) = free_count st.
Proof. by apply free_count_ext. Qed.
Lemma free_count_add_total d st : free_count (add_total d st) = free_count st.
Proof. by apply free_count_ext. Qed.

Lemma u64_add_sub a b c : u64 (u64 (a - b) + c) = u64 (a - (b - c)).
Proof. unfold u64. rewrite Zplus_mod_idemp_l. f_equal. lia. Qed.
Lemma u64_sub_l a b : u64 (u64 a - b) = u64 (a - b).
Proof. unfold u64. apply Zminus_mod_idemp_l. Qed.

Lemma counted_free_new f st :
  0 ≤ f < MAX_FRAMES → is_used st f = true → counted st → counted (add_total 1 (set_free f st)).
Proof.
  unfold counted. intros Hf Hu Hc. rewrite free_count_add_total, free_count_set_free by done.
  simpl. rewrite Hc, u64_sub_l. f_equal. lia.
Qed.

Lemma counted_use f st :
  0 ≤ f < MAX_FRAMES → is_used st f = false → counted st → counted (add_used 1 (set_used f st)).
Proof.
  unfold counted. intros Hf Hu Hc. rewrite free_count_add_used, free_count_set_used by done.
  simpl. by rewrite Hc, u64_add_sub.
Qed.

Lemma counted_release f st :
  0 ≤ f < MAX_FRAMES → is_used st f = true → counted st → counted (add_used (-1) (set_free f st)).
Proof.
  unfold counted. intros Hf Hu Hc. rewrite free_count_add_used, free_count_set_free by done.
  simpl. by rewrite Hc, u64_add_sub.
Qed.

(** ** The range loops *)

Lemma MAX_FRAMES_eq : MAX_FRAMES = 1048576.
Proof. reflexivity. Qed.

Lemma frame_step k : 0 ≤ k < MAX_FRAMES → u64 (k * PAGE_SIZE + PAGE_SIZE) = (k + 1) * PAGE_SIZE.
Proof. rewrite MAX_FRAMES_eq. unfold PAGE_SIZE. intros. rewrite u64_small by word. lia. Qed.

Lemma mark_free_loop_spec fuel k e st :
  0 ≤ k → MAX_FRAMES - k < Z.of_nat fuel → (0 < fuel)%nat →
  ∃ st', mark_free_loop fuel (k * PAGE_SIZE) e st = Ok st' ∧
    (∀ f, f < MAX_FRAMES →
       is_used st' f = is_used st f && negb ((k <=? f) && (f * PAGE_SIZE <? e))) ∧
    (counted st → counted st').
Proof.
  revert k st. induction fuel as [|fuel IH]; intros k st Hk Hfuel Hpos; [lia|].
  cbn [mark_free_loop]. rewrite Z.div_mul by done.
  destruct (Z.ltb_spec (k * PAGE_SIZE) e) as [He|He]; cycle 1.
  { exists st. split_and!; [done| |done]. intros f Hf.
    destruct (Z.leb_spec k f); [|by rewrite andb_true_r].
    destruct (Z.ltb_spec (f * PAGE_SIZE) e); [unfold PAGE_SIZE in *; lia|by rewrite andb_true_r]. }
  destruct (Z.leb_spec MAX_FRAMES k) as [Hm|Hm].
  { exists st. split_and!; [done| |done]. intros f Hf.
    destruct (Z.leb_spec k f); [lia|by rewrite andb_true_r]. }
  rewrite frame_step by done.
  set (st1 := if is_used st k then _ else _).
  destruct (IH (k + 1) st1) as (st' & -> & Hu & Hc); [lia..|].
  exists st'. split_and!; [done| |].
  - intros f Hf. rewrite Hu by done.
    assert (is_used st1 f = is_used st f && negb (f =? k)) as ->.
    { unfold st1. destruct (is_used st k) eqn:E; autorewrite with pmm.
      - rewrite (Z.eqb_sym k f). apply andb_comm.
      - destruct (Z.eqb_spec f k) as [->|]; [by rewrite E|by rewrite andb_true_r]. }
    rewrite <-andb_assoc. f_equal. unfold PAGE_SIZE in *. lia.
  - intros Hcs. apply Hc. unfold st1. destruct (is_used st k) eqn:E; [|done].
    by apply counted_free_new.
Qed.

Lemma mark_used_loop_spec fuel k e st :
  0 ≤ k → MAX_FRAMES - k < Z.of_nat fuel → (0 < fuel)%nat →
  ∃ st', mark_used_loop fuel (k * PAGE_SIZE) e st = Ok st' ∧
    (∀ f, f < MAX_FRAMES →
       is_used st' f = is_used st f || ((k <=? f) && (f * PAGE_SIZE <? e))) ∧
    (counted st → counted st').
Proof.
  revert k st. induction fuel as [|fuel IH]; intros k st Hk Hfuel Hpos; [lia|].
  cbn [mark_used_loop]. rewrite Z.div_mul by done.
  destruct (Z.ltb_spec (k * PAGE_SIZE) e) as [He|He]; cycle 1.
  { exists st. split_and!; [done| |done]. intros f Hf.
    destruct (Z.leb_spec k f); [|by rewrite orb_false_r].
    destruct (Z.ltb_spec (f * PAGE_SIZE) e); [unfold PAGE_SIZE in *; lia|by rewrite orb_false_r]. }
  destruct (Z.leb_spec MAX_FRAMES k) as [Hm|Hm].
  { exists st. split_and!; [done| |done]. intros f Hf.
    destruct (Z.leb_spec k f); [lia|by rewrite orb_false_r]. }
  rewrite frame_step by done.
  set (st1 := if negb (is_used st k) then _ else _).
  destruct (IH (k + 1) st1) as (st' & -> & Hu & Hc); [lia..|].
  exists st'. split_and!; [done| |].
  - intros f Hf. rewrite Hu by done.
    assert (is_used st1 f = is_used st f || (f =? k)) as ->.
    { unfold st1. destruct (is_used st k) eqn:E; cbn [negb]; autorewrite with pmm.
      - destruct (Z.eqb_spec f k) as [->|]; [by rewrite E|by rewrite orb_false_r].
      - rewrite (Z.eqb_sym k f). apply orb_comm. }
    rewrite <-orb_assoc. f_equal. unfold PAGE_SIZE in *. lia.
  - intros Hcs. apply Hc. unfold st1. destruct (is_used st k) eqn:E; [done|].
    by apply counted_use.
Qed.

(** Frame [f] is inside the page-rounded range the two functions walk. *)
Definition frame_within (f start end_ : Z) : bool :=
  (start <=? f * PAGE_SIZE) && (f * PAGE_SIZE <? end_).

Lemma page_multiple x : band_not x (PAGE_SIZE - 1) = x / PAGE_SIZE * PAGE_SIZE.
Proof.
  unfold PAGE_SIZE. rewrite band_not_4095. pose proof (Z.div_mod x 4096). lia.
Qed.

Lemma page_multiple_nonneg x : 0 ≤ x → 0 ≤ x / PAGE_SIZE.
Proof. intros. apply Z.div_pos; [done|by unfold PAGE_SIZE]. Qed.

Lemma within_index k f e : (k <=? f) && (f * PAGE_SIZE <? e) = frame_within f (k * PAGE_SIZE) e.
Proof. unfold frame_within, PAGE_SIZE. f_equal. lia. Qed.

Lemma mark_range_free_spec base len st :
  ∃ st', mark_range_free base len st = Ok st' ∧
    (∀ f, f < MAX_FRAMES → is_used st' f =
       is_used st f && negb (frame_within f (page_up base) (page_down (u64 (base + len))))) ∧
    (counted st → counted st').
Proof.
  unfold mark_range_free. set (e := page_down _).
  destruct (Z.leb_spec e (page_up base)) as [He|He].
  { exists st. split_and!; [done| |done]. intros f _. unfold frame_within.
    destruct (Z.leb_spec (page_up base) (f * PAGE_SIZE)), (Z.ltb_spec (f * PAGE_SIZE) e);
      try lia; by rewrite andb_true_r. }
  unfold page_up. rewrite page_multiple.
  assert (0 ≤ u64 (base + PAGE_SIZE - 1) / PAGE_SIZE)
    by (apply page_multiple_nonneg; pose proof (u64_range (base + PAGE_SIZE - 1)); word).
  destruct (mark_free_loop_spec frame_fuel (u64 (base + PAGE_SIZE - 1) / PAGE_SIZE) e st)
    as (st' & -> & Hu & Hc); [done|unfold frame_fuel; rewrite MAX_FRAMES_eq; lia..|].
  exists st'. split_and!; [done| |done]. intros f Hf. rewrite Hu by done.
  by rewrite within_index.
Qed.

Lemma mark_range_used_spec base len st :
  0 ≤ base →
  ∃ st', mark_range_used base len st = Ok st' ∧
    (∀ f, f < MAX_FRAMES → is_used st' f =
       is_used st f || frame_within f (page_down base) (page_up (u64 (base + len)))) ∧
    (counted st → counted st').
Proof.
  intros Hb. unfold mark_range_used. set (e := page_up _).
  unfold page_down. rewrite page_multiple.
  destruct (mark_used_loop_spec frame_fuel (base / PAGE_SIZE) e st)
    as (st' & -> & Hu & Hc);
    [by apply page_multiple_nonneg|
     pose proof (page_multiple_nonneg base Hb); unfold frame_fuel; rewrite MAX_FRAMES_eq; lia..|].
  exists st'. split_and!; [done| |done]. intros f Hf. rewrite Hu by done.
  by rewrite within_index.
Qed.

(** A frame that [\[base, base+len)] reaches into is inside the rounded range. *)
Definition touches (f base len : Z) : Prop :=
  base < (f + 1) * PAGE_SIZE ∧ f * PAGE_SIZE < base + len.

Lemma touches_within f base len :
  0 ≤ base → base + len + PAGE_SIZE ≤ 2 ^ 64 → touches f base len →
  frame_within f (page_down base) (page_up (u64 (base + len))) = true.
Proof.
  unfold touches, frame_within, page_down, page_up, PAGE_SIZE. intros Hb Hl [H1 H2].
  destruct (decide (base + len < 0)); [lia|].
  rewrite !band_not_4095. rewrite (u64_small (base + len)) by word.
  rewrite u64_small by word.
  pose proof (Z.mod_pos_bound base 4096). pose proof (Z.div_mod base 4096).
  pose proof (Z.mod_pos_bound (base + len + 4096 - 1) 4096).
  pose proof (Z.div_mod (base + len + 4096 - 1) 4096). lia.
Qed.

(** A frame inside the rounded-in range of [mark_range_free] lies wholly in
    [\[base, base+len)]. *)
Lemma within_inside f base len :
  0 ≤ base → 0 ≤ len → base + len + PAGE_SIZE ≤ 2 ^ 64 →
  frame_within f (page_up base) (page_down (u64 (base + len))) = true →
  base ≤ f * PAGE_SIZE ∧ (f + 1) * PAGE_SIZE ≤ base + len.
Proof.
  unfold frame_within, page_down, page_up, PAGE_SIZE. intros Hb Hl Hs H. bool_arith.
  rewrite !band_not_4095 in *.
  assert (u64 (base + 4096 - 1) = base + 4096 - 1) as E1 by (apply u64_small; word).
  assert (u64 (base + len) = base + len) as E2 by (apply u64_small; word).
  rewrite E1, E2 in *.
  pose proof (Z.mod_pos_bound (base + 4096 - 1) 4096).
  pose proof (Z.mod_pos_bound (base + len) 4096).
  pose proof (Z.div_mod (base + 4096 - 1) 4096). pose proof (Z.div_mod (base + len) 4096). lia.
Qed.

(** ** Allocation *)

Lemma alloc_loop_spec fuel i st :
  0 ≤ i → MAX_FRAMES - i < Z.of_nat fuel → (0 < fuel)%nat →
  (∃ f, i ≤ f < MAX_FRAMES ∧ is_used st f = false ∧ (∀ g, i ≤ g < f → is_used st g = true) ∧
     alloc_loop fuel i st = Ok (add_used 1 (set_used f st), f * PAGE_SIZE)) ∨
  ((∀ g, i ≤ g < MAX_FRAMES → is_used st g = true) ∧ alloc_loop fuel i st = Halt).
Proof.
  revert i. induction fuel as [|fuel IH]; intros i Hi Hfuel Hpos; [lia|].
  cbn [alloc_loop]. destruct (Z.ltb_spec i MAX_FRAMES) as [Hlt|Hge].
  2: { right. split; [|done]. intros g Hg. lia. }
  destruct (is_used st i) eqn:E; cbn [negb].
  - destruct (IH (i + 1)) as [(f & Hf & Hfree & Hlow & ->)|[Hall ->]]; [lia..| |].
    + left. exists f. split_and!; [lia|lia|done| |done]. intros g Hg.
      destruct (decide (g = i)) as [->|]; [done|]. apply Hlow. lia.
    + right. split; [|done]. intros g Hg.
      destruct (decide (g = i)) as [->|]; [done|]. apply Hall. lia.
  - left. exists i. split_and!; [lia|done|done|lia|].
    rewrite MAX_FRAMES_eq in Hlt. unfold PAGE_SIZE. rewrite u64_small by word. done.
Qed.

Lemma alloc_frame_cases st :
  (∃ f, 0 ≤ f < MAX_FRAMES ∧ is_used st f = false ∧ (∀ g, 0 ≤ g < f → is_used st g = true) ∧
     alloc_frame st = Ok (add_used 1 (set_used f st), f * PAGE_SIZE)) ∨
  ((∀ g, 0 ≤ g < MAX_FRAMES → is_used st g = true) ∧ alloc_frame st = Halt).
Proof.
  apply alloc_loop_spec; [lia|unfold frame_fuel; rewrite MAX_FRAMES_eq; lia..].
Qed.

Lemma free_frame_spec p st g :
  0 ≤ g < MAX_FRAMES →
  is_used (free_frame p st) g = negb (p / PAGE_SIZE =? g) && is_used st g.
Proof.
  intros Hg. unfold free_frame.
  destruct (Z.leb_spec MAX_FRAMES (p / PAGE_SIZE)); cbn [orb].
  { destruct (Z.eqb_spec (p / PAGE_SIZE) g); [lia|done]. }
  destruct (is_used st (p / PAGE_SIZE)) eqn:E; cbn [negb].
  - by autorewrite with pmm.
  - destruct (Z.eqb_spec (p / PAGE_SIZE) g) as [<-|]; [by rewrite E|done].
Qed.

(** ** [pmm] is a frame allocator *)

#[export] Instance pmm_frame_alloc : FrameAlloc Pmm := {
  fa_alloc := alloc_frame;
  fa_free := free_frame;
  fa_used := is_used;
}.

#[export] Instance pmm_frame_alloc_laws : FrameAllocLaws Pmm.
Proof.
  split.
  - intros a a' p H. simpl in H.
    destruct (alloc_frame_cases a) as [(f & Hf & Hu & _ & E)|[_ E]]; rewrite E in H; simplify_eq.
    exists f. split_and!; [done|lia|apply Hf|done|]. intros g. simpl. by autorewrite with pmm.
  - intros a. simpl. destruct (alloc_frame_cases a) as [(f & _ & _ & _ & ->)|[_ ->]]; eauto.
  - intros a Ha f Hf. simpl in *. destruct (alloc_frame_cases a) as [(g & _ & _ & _ & E)|[Hall _]]; [by rewrite E in Ha|by apply Hall].
  - intros a p g Hg. by apply free_frame_spec.
Qed.

(** ** Every history of operations *)

Inductive pmm_step : Pmm → Pmm → Prop :=
  | step_mark_free base len st st' : mark_range_free base len st = Ok st' → pmm_step st st'
  | step_mark_used base len st st' :
      0 ≤ base → mark_range_used base len st = Ok st' → pmm_step st st'
  | step_alloc st st' p : alloc_frame st = Ok (st', p) → pmm_step st st'
  | step_free p st : 0 ≤ p → pmm_step st (free_frame p st).

Lemma pmm_step_counted st st' : pmm_step st st' → counted st → counted st'.
Proof.
  intros [base len s s' H|base len s s' Hb H|s s' p H|p s Hp] Hc.
  - destruct (mark_range_free_spec base len s) as (s1 & E & _ & Hc1).
    replace s' with s1 by congruence. auto.
  - destruct (mark_range_used_spec base len s Hb) as (s1 & E & _ & Hc1).
    replace s' with s1 by congruence. auto.
  - destruct (alloc_frame_cases s) as [(f & Hf & Hu & _ & E)|[_ E]];
      rewrite E in H; simplify_eq. by apply counted_use.
  - unfold free_frame. case_match eqn:E; [done|]. bool_arith.
    apply counted_release; [|done|done]. split; [by apply page_multiple_nonneg|done].
Qed.

Lemma counted_all_reserved : counted all_reserved.
Proof.
  unfold counted. cut (free_count all_reserved = 0); [by intros ->|].
  unfold free_count, free_frames. cut (filter (λ f, is_used all_reserved f = false) all_frames = []).
  { by intros ->. }
  induction all_frames as [|f l IH]; [done|].
  rewrite filter_cons, decide_False; [done|]. by rewrite is_used_all_reserved.
Qed.

(** The loop bound is a million-sized unary number: it must not be unfolded. *)
#[global] Opaque frame_fuel.

(** ** Initialisation from the boot information *)

(** Entry [i] of the memory map of the tag at [off] is an available region. *)
Definition avail_entry (info : list Z) (off entry_size i base len : Z) : Prop :=
  let p := off + 16 + i * entry_size in
  field info (p + 16) 4 = Some MEMMAP_AVAIL ∧
  field info p 8 = Some base ∧ field info (p + 8) 8 = Some len.

(** What the boot loader promises about the structure it hands over. *)
Record boot_info_ok (fuel : nat) (boot_info_addr : Z) (info : list Z) (ks ke : Z)
    (l : list Z) (off size entry_size total_size : Z) : Prop := {
  bi_bytes : Forall is_u8 info;
  bi_tags : tags fuel info = Ok l;
  bi_memmap : find_tag fuel info TAG_MEMMAP = Ok (Some off);
  bi_off : 0 ≤ off;
  bi_size : field info (off + 4) 4 = Some size;
  bi_entry_size : field info (off + 8) 4 = Some entry_size;
  bi_entries : 24 ≤ entry_size;
  bi_whole : (size - 16) `mod` entry_size = 0;
  bi_inside : off + size ≤ zlen info;
  bi_fuel : size < Z.of_nat fuel;
  bi_no_wrap : ∀ i base len, 0 ≤ i → off + 16 + i * entry_size < off + size →
    avail_entry info off entry_size i base len → base + len + PAGE_SIZE ≤ 2 ^ 64;
  bi_total : field info 0 4 = Some total_size;
  bi_addr : 0 ≤ boot_info_addr ∧ boot_info_addr + total_size + PAGE_SIZE ≤ 2 ^ 64;
  bi_kernel : 0 ≤ ks ≤ ke ∧ ke + PAGE_SIZE ≤ 2 ^ 64;
  bi_modules : ∀ t, t ∈ l → 0 ≤ t ∧ t + 16 ≤ zlen info;
}.

(** Frames that become free in the entry loop lie inside an available region. *)
Lemma mmap_loop_spec fuel info off entry_size end_ i st :
  Forall is_u8 info → 24 ≤ entry_size → 0 ≤ i → 0 ≤ off → end_ ≤ zlen info →
  (end_ - (off + 16)) `mod` entry_size = 0 →
  end_ - (off + 16 + i * entry_size) < Z.of_nat fuel → (0 < fuel)%nat →
  (∀ j base len, i ≤ j → off + 16 + j * entry_size < end_ →
     avail_entry info off entry_size j base len → base + len + PAGE_SIZE ≤ 2 ^ 64) →
  ∃ st', mmap_loop fuel info (off + 16 + i * entry_size) end_ entry_size st = Ok st' ∧
    (∀ f, f < MAX_FRAMES → is_used st' f = false → is_used st f = false ∨
       ∃ j base len, i ≤ j ∧ off + 16 + j * entry_size < end_ ∧
         avail_entry info off entry_size j base len ∧
         base ≤ f * PAGE_SIZE ∧ (f + 1) * PAGE_SIZE ≤ base + len).
Proof.
  intros Hb Hes Hi Hoff Hend Hmod Hfuel Hpos Hnw.
  revert i st Hi Hfuel Hnw. induction fuel as [|fuel IH]; intros i st Hi Hfuel Hnw; [lia|].
  cbn [mmap_loop]. set (p := off + 16 + i * entry_size).
  destruct (Z.ltb_spec p end_) as [Hlt|Hge]; [|exists st; naive_solver].
  assert (p + entry_size ≤ end_) as Hfit.
  { apply Z.mod_divide in Hmod as [q Hq]; [|lia]. unfold p in *.
    assert (i < q) by (apply (Z.mul_lt_mono_pos_r entry_size); lia).
    assert ((i + 1) * entry_size ≤ q * entry_size) by (apply Z.mul_le_mono_nonneg_r; lia).
    lia. }
  assert (0 ≤ p) as Hp by (unfold p; nia).
  destruct (field_is_Some info (p + 16) 4) as [ty Hty]; [lia..|].
  destruct (field_is_Some info p 8) as [base Hbase]; [lia..|].
  destruct (field_is_Some info (p + 8) 8) as [len Hlen]; [lia..|].
  rewrite Hty. cbn [or_fault mbind res_bind].
  replace (p + entry_size) with (off + 16 + (i + 1) * entry_size) by (unfold p; lia).
  assert (∀ s, ∃ st', mmap_loop fuel info (off + 16 + (i + 1) * entry_size) end_ entry_size s
      = Ok st' ∧ ∀ f, f < MAX_FRAMES → is_used st' f = false → is_used s f = false ∨
        ∃ j base len, i ≤ j ∧ off + 16 + j * entry_size < end_ ∧
         avail_entry info off entry_size j base len ∧
         base ≤ f * PAGE_SIZE ∧ (f + 1) * PAGE_SIZE ≤ base + len) as Hrest.
  { intros s. destruct (IH ltac:(lia) (i + 1) s) as (st' & -> & Hst); [lia|lia| |].
    { intros j b n Hj. apply Hnw. lia. }
    exists st'. split; [done|]. intros f Hf Hu.
    destruct (Hst f Hf Hu) as [?|(j & b & n & Hj & ?)]; [by left|].
    right. exists j, b, n. split; [lia|done]. }
  destruct (Z.eqb_spec ty MEMMAP_AVAIL) as [->|Hne]; [|apply Hrest].
  rewrite Hbase, Hlen. cbn [or_fault mbind res_bind].
  destruct (mark_range_free_spec base len st) as (st1 & -> & Hst1 & _).
  cbn [mbind res_bind]. destruct (Hrest st1) as (st' & -> & Hst').
  exists st'. split; [done|]. intros f Hf Hu.
  destruct (Hst' f Hf Hu) as [Hu1|?]; [|by right].
  rewrite Hst1 in Hu1 by done. apply andb_false_iff in Hu1 as [Hu1|Hu1]; [by left|].
  apply negb_false_iff in Hu1. right. exists i, base, len.
  pose proof (field_bound _ _ _ _ Hb Hbase). pose proof (field_bound _ _ _ _ Hb Hlen).
  assert (avail_entry info off entry_size i base len) as Hav by done.
  pose proof (within_inside f base len ltac:(lia) ltac:(lia) (Hnw i _ _ ltac:(lia) Hlt Hav) Hu1).
  split_and!; [lia|done|done|lia|lia].
Qed.

Definition module_at (info : list Z) (t mod_start mod_end : Z) : Prop :=
  tag_type info t = Ok TAG_MODULE ∧
  field info (t + 8) 4 = Some mod_start ∧ field info (t + 12) 4 = Some mod_end.

Lemma reserve_modules_spec info l st :
  Forall is_u8 info → (∀ t, t ∈ l → 0 ≤ t ∧ t + 16 ≤ zlen info) →
  ∃ st', visit_all (reserve_module info) l st = Ok st' ∧
    ∀ f, f < MAX_FRAMES → is_used st' f = false → is_used st f = false ∧
      ∀ t ms me, t ∈ l → module_at info t ms me → ¬ touches f ms (u32 (me - ms)).
Proof.
  intros Hb. revert st. induction l as [|t l IH]; intros st Hl; simpl.
  { exists st. split; [done|]. set_solver. }
  destruct (Hl t) as [Ht Ht']; [set_solver|].
  destruct (field_is_Some info t 4) as [ty Hty]; [lia..|].
  destruct (field_is_Some info (t + 8) 4) as [ms Hms]; [lia..|].
  destruct (field_is_Some info (t + 12) 4) as [me Hme]; [lia..|].
  assert (tag_type info t = Ok ty) as Et by (unfold tag_type; by rewrite Hty).
  assert (∀ s, ∃ st', visit_all (reserve_module info) l s = Ok st' ∧
    ∀ f, f < MAX_FRAMES → is_used st' f = false → is_used s f = false ∧
      ∀ t ms me, t ∈ l → module_at info t ms me → ¬ touches f ms (u32 (me - ms))) as Hrest.
  { intros s. apply IH. intros t' Ht2. apply Hl. set_solver. }
  unfold reserve_module at 2. rewrite Et. cbn [mbind res_bind].
  destruct (Z.eqb_spec ty TAG_MODULE) as [->|Hne]; cbn [negb].
  - rewrite Hms, Hme. cbn [or_fault mbind res_bind].
    pose proof (field_bound _ _ _ _ Hb Hms) as Hmsb. pose proof (u32_range (me - ms)) as Hu32.
    destruct (mark_range_used_spec ms (u32 (me - ms)) st) as (st1 & -> & Hst1 & _); [lia|].
    cbn [mbind res_bind]. destruct (Hrest st1) as (st' & -> & Hst').
    exists st'. split; [done|]. intros f Hf Hu. destruct (Hst' f Hf Hu) as [Hu1 Hmods].
    rewrite Hst1 in Hu1 by done. bool_arith. split; [done|].
    intros t2 ms2 me2 [->|Ht2]%elem_of_cons Hmod; [|by eapply Hmods].
    destruct Hmod as (_ & ? & ?). simplify_eq. intros Htouch.
    rewrite touches_within in * by (first [done|unfold PAGE_SIZE in *; word]). done.
  - cbn [mbind res_bind]. destruct (Hrest st) as (st' & -> & Hst'). exists st'. split; [done|].
    intros f Hf Hu. destruct (Hst' f Hf Hu) as [Hu1 Hmods]. split; [done|].
    intros t2 ms2 me2 [->|Ht2]%elem_of_cons Hmod; [|by eapply Hmods].
    destruct Hmod as (? & _). congruence.
Qed.

Lemma reserve_module_continues info o s b s' :
  reserve_module info o s = Ok (b, s') → b = false.
Proof.
  unfold reserve_module. intros H. res_inv. case_match; res_inv; by simplify_eq.
Qed.

(** ** Properties *)

(** [alloc_frame] returns the lowest free frame, marks exactly that frame used
    and counts it; it halts the machine exactly when no frame is free. *)
Theorem alloc_frame_spec st :
  match alloc_frame st with
  | Ok (st', p) => ∃ f, 0 ≤ f < MAX_FRAMES ∧ p = f * PAGE_SIZE ∧
      is_used st f = false ∧ (∀ g, 0 ≤ g < f → is_used st g = true) ∧
      (∀ g, is_used st' g = (f =? g) || is_used st g) ∧
      total_frames st' = total_frames st ∧ used_frames st' = u64 (used_frames st + 1)
  | Halt => ∀ g, 0 ≤ g < MAX_FRAMES → is_used st g = true
  | _ => False
  end.
Proof.
  destruct (alloc_frame_cases st) as [(f & Hf & Hu & Hlow & ->)|[Hall ->]]; [|done].
  exists f. split_and!; try done; [lia..|]. intros g. by autorewrite with pmm.
Qed.

(** Freeing what [alloc_frame] returned gives back the state before the call:
    every frame's status and both counters. *)
Theorem free_alloc_roundtrip st st' p :
  is_u64 (used_frames st) → alloc_frame st = Ok (st', p) →
  (∀ g, 0 ≤ g < MAX_FRAMES → is_used (free_frame p st') g = is_used st g) ∧
  total_frames (free_frame p st') = total_frames st ∧
  used_frames (free_frame p st') = used_frames st.
Proof.
  intros Hw H. destruct (alloc_frame_cases st) as [(f & Hf & Hu & _ & E)|[_ E]];
    rewrite E in H; simplify_eq.
  assert (f * PAGE_SIZE / PAGE_SIZE = f) as Ediv by (by apply Z.div_mul).
  split.
  - intros g Hg. rewrite free_frame_spec, Ediv by done. autorewrite with pmm.
    destruct (Z.eqb_spec f g) as [->|]; [by rewrite Hu|done].
  - unfold free_frame. rewrite Ediv. autorewrite with pmm. rewrite Z.eqb_refl.
    destruct (Z.leb_spec MAX_FRAMES f); [lia|]. simpl. split; [done|].
    unfold u64. rewrite Zplus_mod_idemp_l. rewrite <-Z.add_assoc, Z.add_0_r.
    by apply u64_small.
Qed.

Definition two_free : Pmm := MkPmm {[ 32 := 0xF5 ]} 2 0.

Lemma free_alloc_roundtrip_witness :
  ∃ st', alloc_frame two_free = Ok (st', 257 * 4096) ∧
    total_frames (free_frame (257 * 4096) st') = 2 ∧
    used_frames (free_frame (257 * 4096) st') = 0.
Proof.
  destruct (alloc_frame two_free) as [[st' p]| | |] eqn:E; [|vm_compute in E; discriminate..].
  assert (p = 257 * 4096) as -> by (vm_compute in E; by injection E as _ <-).
  exists st'. split; [reflexivity|].
  refine (proj2 (free_alloc_roundtrip two_free st' _ _ E)). vm_compute. by split.
Defined.

(** C2. The counters never drift: after any sequence of range markings,
    allocations and frees from the all-reserved bitmap, [used_frames] is
    [total_frames] minus the number of free bits, modulo 2^64. *)
Theorem counters_invariant st :
  rtc pmm_step all_reserved st →
  used_frames st = u64 (total_frames st - free_count st).
Proof.
  intros H. change (counted st). generalize counted_all_reserved.
  induction H as [|x y z Hxy _ IH]; [done|]. intros Hx. by apply IH, (pmm_step_counted x).
Qed.

Lemma counters_invariant_witness :
  let st := free_frame 0 all_reserved in
  used_frames st = u64 (total_frames st - free_count st).
Proof. apply counters_invariant. eapply rtc_l; [by apply step_free|apply rtc_refl]. Defined.

(** C1. After [init] on a well-formed boot information structure every free frame
    lies wholly inside a region the memory map reports available, and no free
    frame overlaps the kernel image, the first MiB, the boot information
    structure itself or any boot module; [init] does return. *)
Theorem init_reserves fuel addr info ks ke l off size entry_size total_size :
  boot_info_ok fuel addr info ks ke l off size entry_size total_size →
  ∃ st, init fuel addr info ks ke = Ok st ∧
  ∀ f, 0 ≤ f < MAX_FRAMES → is_used st f = false →
    (∃ i base len, 0 ≤ i ∧ avail_entry info off entry_size i base len ∧
       base ≤ f * PAGE_SIZE ∧ (f + 1) * PAGE_SIZE ≤ base + len) ∧
    ¬ touches f ks (ke - ks) ∧ ¬ touches f 0 0x100000 ∧
    ¬ touches f addr total_size ∧
    (∀ t ms me, t ∈ l → module_at info t ms me → ¬ touches f ms (u32 (me - ms))).
Proof.
  intros [Hb Htags Hmm Hoff Hsize Hes H24 Hwhole Hin Hfuel Hnw Htot [Ha Ha'] [Hk Hk'] Hmods].
  unfold init. rewrite Hmm. res_step. rewrite Hsize, Hes.
  res_step.
  pose proof (field_bound _ _ _ _ Hb Hsize). pose proof (field_bound _ _ _ _ Hb Htot).
  destruct (mmap_loop_spec fuel info off entry_size (off + size) 0 all_reserved)
    as (st1 & E1 & H1); [done|lia..| | | | |].
  { rewrite <-Hwhole. f_equal. lia. } { lia. } { lia. }
  { intros j base len Hj. by apply Hnw. }
  replace (off + 16 + 0 * entry_size) with (off + 16) in E1 by lia.
  rewrite E1. res_step. rewrite u64_small by (unfold PAGE_SIZE in *; word).
  destruct (mark_range_used_spec ks (ke - ks) st1) as (st2 & -> & H2 & _); [lia|].
  res_step.
  destruct (mark_range_used_spec 0 0x100000 st2) as (st3 & -> & H3 & _); [lia|].
  res_step. rewrite Htot. res_step.
  destruct (mark_range_used_spec addr total_size st3) as (st4 & -> & H4 & _); [lia|].
  res_step. unfold for_each_tag.
  rewrite (for_each_tag_visit_all _ _ _ _ _ l) by first [apply reserve_module_continues|done].
  destruct (reserve_modules_spec info l st4 Hb Hmods) as (st5 & -> & H5).
  exists st5. split; [done|]. intros f Hf Hu.
  apply H5 in Hu as [Hu Hm]; [|lia]. rewrite H4, H3, H2, !orb_false_iff in Hu by lia.
  destruct Hu as [[[Hu Hn1] Hn2] Hn3].
  apply H1 in Hu; [|lia]. rewrite is_used_all_reserved in Hu.
  destruct Hu as [?|(i & base & len & ? & ? & ?)]; [done|].
  split; [by exists i, base, len|].
  assert (∀ b n, 0 ≤ b → b + n + PAGE_SIZE ≤ 2 ^ 64 →
    frame_within f (page_down b) (page_up (u64 (b + n))) = false → ¬ touches f b n) as Hnot.
  { intros b n Hbn Hbn' Hw Ht. by rewrite touches_within in Hw. }
  split_and!; [apply Hnot; [lia| |exact Hn1]|apply Hnot; [lia| |exact Hn2]|
    apply Hnot; [lia|lia|exact Hn3]|exact Hm]; unfold PAGE_SIZE in *; lia.
Qed.

(** A boot information structure with one available region of 16 frames at 1 MiB
    and one module. *)
Definition sample_info : list Z :=
  le_bytes 4 80 ++ le_bytes 4 0 ++
  le_bytes 4 6 ++ le_bytes 4 40 ++ le_bytes 4 24 ++ le_bytes 4 0 ++
  le_bytes 8 0x100000 ++ le_bytes 8 0x10000 ++ le_bytes 4 1 ++ le_bytes 4 0 ++
  le_bytes 4 3 ++ le_bytes 4 17 ++ le_bytes 4 0x104000 ++ le_bytes 4 0x104800 ++ le_bytes 8 0 ++
  le_bytes 4 0 ++ le_bytes 4 8.

Lemma sample_info_ok :
  boot_info_ok 50 0x108000 sample_info 0x100000 0x102000 [8; 48] 8 40 24 80.
Proof.
  split; [|reflexivity|reflexivity|lia|reflexivity|reflexivity|lia|reflexivity| |lia| |
    reflexivity|unfold PAGE_SIZE; lia|unfold PAGE_SIZE; lia|].
  - apply Forall_app_2; [apply le_bytes_range|].
    repeat (apply Forall_app_2; [apply le_bytes_range|]). apply le_bytes_range.
  - by vm_compute.
  - intros i base len Hi Hlt (_ & Hb & Hl).
    assert (i = 0) as -> by lia. vm_compute in Hb, Hl. simplify_eq. unfold PAGE_SIZE. lia.
  - intros t Ht. assert (zlen sample_info = 80) as -> by reflexivity.
    repeat (apply elem_of_cons in Ht as [->|Ht]; [lia|]). by apply not_elem_of_nil in Ht.
Qed.

Lemma init_reserves_witness :
  ∃ st, init 50 0x108000 sample_info 0x100000 0x102000 = Ok st ∧
  ∀ f, 0 ≤ f < MAX_FRAMES → is_used st f = false → ¬ touches f 0x104000 0x800.
Proof.
  destruct (init_reserves _ _ _ _ _ _ _ _ _ _ sample_info_ok) as (st & E & H).
  exists st. split; [exact E|]. intros f Hf Hu.
  destruct (H f Hf Hu) as (_ & _ & _ & _ & Hm).
  apply (Hm 48 0x104000 0x104800); [apply list_elem_of_further, list_elem_of_here|repeat split; reflexivity].
Defined.
