(* ===== verification/Vmm.v ===== *)
(** * The virtual memory manager ([mem/vmm.cpp])

    Page tables live in physical memory and the code reaches them through the
    physmap, a window that maps all of RAM at a fixed offset in every address
    space; a pointer into the physmap is represented by the physical address it
    maps.  The state is the physical memory, the frame allocator, the loaded CR3
    and [g_kernel_pml4].  [invlpg] and the TLB are not modelled: a translation
    always reads the tables. *)

From S2P Require Import Prelude Frames Mem.

Definition PRESENT : Z := Z.shiftl 1 0.
Definition WRITABLE : Z := Z.shiftl 1 1.
Definition USER : Z := Z.shiftl 1 2.
Definition NO_EXECUTE : Z := Z.shiftl 1 63.
Definition KERNEL_RX : Z := PRESENT.
Definition KERNEL_RO : Z := Z.lor PRESENT NO_EXECUTE.
Definition KERNEL_RW : Z := Z.lor (Z.lor PRESENT WRITABLE) NO_EXECUTE.

Definition PHYS_MASK : Z := 0x000FFFFFFFFFF000.
Definition HUGE_PAGE : Z := Z.shiftl 1 7.

Definition HEAP_VIRT_BASE : Z := 0xFFFF800000000000.
Definition PHYSMAP_BASE : Z := 0xFFFFC00000000000.
Definition pml4_index (virt : Z) : Z := Z.land (Z.shiftr virt 39) 0x1FF.
Definition HEAP_PML4_IDX : Z := pml4_index HEAP_VIRT_BASE.
Definition PHYSMAP_PML4_IDX : Z := pml4_index PHYSMAP_BASE.

Definition RESERVED_LOW : Z := 0x200000.
Definition RESERVED_HIGH : Z := 0x1000000.

Definition entry_phys (entry : Z) : Z := Z.land entry PHYS_MASK.

(** The truth values of [e & PRESENT] and [e & HUGE_PAGE]. *)
Definition present (e : Z) : bool := negb (Z.land e PRESENT =? 0).
Definition huge (e : Z) : bool := negb (Z.land e HUGE_PAGE =? 0).

(** [table\[idx\]] for a table at physical address [table]. *)
Definition entry (m : mem) (table idx : Z) : Z := load64 m (table + 8 * idx).
Definition set_entry (m : mem) (table idx v : Z) : mem := store64 m (table + 8 * idx) v.

(** The indices of a virtual address. *)
Definition pml4_idx (virt : Z) : Z := Z.land (Z.shiftr virt 39) 0x1FF.
Definition pdpt_idx (virt : Z) : Z := Z.land (Z.shiftr virt 30) 0x1FF.
Definition pd_idx (virt : Z) : Z := Z.land (Z.shiftr virt 21) 0x1FF.
Definition pt_idx (virt : Z) : Z := Z.land (Z.shiftr virt 12) 0x1FF.

Section vmm.
Context {A : Type} `{FrameAlloc A}.

Record Vmm := MkVmm {
  pm : mem;
  fa : A;
  cr3 : Z;
  g_kernel_pml4 : Z;
}.

Definition with_pm (m : mem) (s : Vmm) : Vmm := MkVmm m (fa s) (cr3 s) (g_kernel_pml4 s).
Definition with_fa (a : A) (s : Vmm) : Vmm := MkVmm (pm s) a (cr3 s) (g_kernel_pml4 s).
Definition with_cr3 (c : Z) (s : Vmm) : Vmm := MkVmm (pm s) (fa s) c (g_kernel_pml4 s).

Definition alloc (s : Vmm) : Res (Vmm * Z) :=
  '(a, p) ← fa_alloc (fa s); Ok (with_fa a s, p).
Definition free (p : Z) (s : Vmm) : Vmm := with_fa (fa_free p (fa s)) s.

(** The physical address of the active PML4. *)
Definition get_pml4 (s : Vmm) : Z := Z.land (cr3 s) PHYS_MASK.

(** Zero the 512 entries of a table. *)
Definition zero_table (t : Z) (s : Vmm) : Vmm :=
  with_pm (store_words 512 0 t (λ _, 0) (pm s)) s.

Definition ensure_table (table idx flags : Z) (s : Vmm) : Res (Vmm * Z) :=
  let e := entry (pm s) table idx in
  s ← (if negb (present e) then
         '(s, frame) ← alloc s;
         let s := zero_table frame s in
         Ok (with_pm (set_entry (pm s) table idx (Z.lor (Z.lor frame flags) PRESENT)) s)
       else
         Ok (with_pm (set_entry (pm s) table idx
                        (Z.lor e (Z.land flags (Z.lor USER WRITABLE)))) s));
  Ok (s, entry_phys (entry (pm s) table idx)).

Definition split_huge_page (pd idx : Z) (s : Vmm) : Res Vmm :=
  let e := entry (pm s) pd idx in
  let base := Z.land e 0x000FFFFFFFE00000 in
  let flags := band_not (Z.land e 0xFFF) (Z.lor HUGE_PAGE (Z.shiftl 1 12)) in
  '(s, pt_frame) ← alloc s;
  let s := with_pm (store_words 512 0 pt_frame
                      (λ i, Z.lor (u64 (base + u64 (i * 0x1000))) flags) (pm s)) s in
  Ok (with_pm (set_entry (pm s) pd idx (Z.lor (Z.lor pt_frame PRESENT) WRITABLE)) s).

Definition map_into (pml4 virt phys flags : Z) (s : Vmm) : Res Vmm :=
  let virt := band_not virt 0xFFF in
  let phys := band_not phys 0xFFF in
  let intermediate := Z.lor PRESENT WRITABLE in
  let intermediate := if negb (Z.land flags USER =? 0)
                      then Z.lor intermediate USER else intermediate in
  '(s, pdpt) ← ensure_table pml4 (pml4_idx virt) intermediate s;
  '(s, pd) ← ensure_table pdpt (pdpt_idx virt) intermediate s;
  let e := entry (pm s) pd (pd_idx virt) in
  s ← (if present e && huge e then split_huge_page pd (pd_idx virt) s else Ok s);
  '(s, pt) ← ensure_table pd (pd_idx virt) intermediate s;
  Ok (with_pm (set_entry (pm s) pt (pt_idx virt) (Z.lor phys flags)) s).

Definition map (virt phys flags : Z) (s : Vmm) : Res Vmm :=
  map_into (get_pml4 s) virt phys flags s.

Definition unmap (virt : Z) (s : Vmm) : Res Vmm :=
  let virt := band_not virt 0xFFF in
  let pml4 := get_pml4 s in
  let e4 := entry (pm s) pml4 (pml4_idx virt) in
  if negb (present e4) then Ok s else
  let pdpt := entry_phys e4 in
  let e3 := entry (pm s) pdpt (pdpt_idx virt) in
  if negb (present e3) then Ok s else
  let pd := entry_phys e3 in
  let e2 := entry (pm s) pd (pd_idx virt) in
  s ← (if present e2 && huge e2 then split_huge_page pd (pd_idx virt) s else Ok s);
  let e2 := entry (pm s) pd (pd_idx virt) in
  if negb (present e2) then Ok s else
  let pt := entry_phys e2 in
  Ok (with_pm (set_entry (pm s) pt (pt_idx virt) 0) s).

(** [virt_to_phys] under an explicit PML4; the code reads the active one. *)
Definition walk (m : mem) (pml4 virt : Z) : Z :=
  let offset := Z.land virt 0xFFF in
  let e4 := entry m pml4 (pml4_idx virt) in
  if negb (present e4) then 0 else
  let pdpt := entry_phys e4 in
  let e3 := entry m pdpt (pdpt_idx virt) in
  if negb (present e3) then 0 else
  if huge e3 then
    u64 (Z.land (entry_phys e3) 0x000FFFFFC0000000 + Z.land virt 0x3FFFFFFF) else
  let pd := entry_phys e3 in
  let e2 := entry m pd (pd_idx virt) in
  if negb (present e2) then 0 else
  if huge e2 then
    u64 (Z.land (entry_phys e2) 0x000FFFFFFFE00000 + Z.land virt 0x1FFFFF) else
  let pt := entry_phys e2 in
  let e1 := entry m pt (pt_idx virt) in
  if negb (present e1) then 0 else u64 (entry_phys e1 + offset).

Definition virt_to_phys (virt : Z) (s : Vmm) : Z := walk (pm s) (get_pml4 s) virt.

Definition protect (virt flags : Z) (s : Vmm) : Res Vmm :=
  let phys := virt_to_phys virt s in
  if phys =? 0 then Ok s else map virt phys flags s.

(** [remap_range] of [remap_kernel]: identity-map the pages of [\[start, end_)]. *)
Definition remap_range (start end_ flags : Z) (s : Vmm) : Res Vmm :=
  iter_upM (Z.to_nat ((end_ - start + 0xFFF) / 0x1000)) start 0x1000
    (λ addr s, map addr addr flags s) s.

(** The linker's section boundaries. *)
Record Sections := MkSections {
  text_s : Z; text_e : Z; rodata_s : Z; rodata_e : Z;
  data_s : Z; data_e : Z; bss_s : Z; bss_e : Z;
}.

Definition remap_kernel (k : Sections) (s : Vmm) : Res Vmm :=
  s ← remap_range (text_s k) (text_e k) KERNEL_RX s;
  s ← remap_range (rodata_s k) (rodata_e k) KERNEL_RO s;
  s ← remap_range (data_s k) (data_e k) KERNEL_RW s;
  s ← remap_range (bss_s k) (bss_e k) KERNEL_RW s;
  Ok (MkVmm (pm s) (fa s) (cr3 s) (Z.land (cr3 s) PHYS_MASK)).

(** ** Address spaces *)

Definition share_pd_entry (kernel_pd pdpt_idx pd_idx : Z) (m : mem) : Z :=
  let virt_2mb := Z.lor (Z.shiftl pdpt_idx 30) (Z.shiftl pd_idx 21) in
  let reserved := (RESERVED_LOW <=? virt_2mb) && (virt_2mb <? RESERVED_HIGH) in
  let e := entry m kernel_pd pd_idx in
  if negb reserved && present e then e else 0.

(** One iteration of the [pdpt_idx] loop: copy a kernel PD but for the reserved
    window.  The loop stores into a fresh frame, so the kernel PD it reads is
    the one of the memory before the loop. *)
Definition share_pd (kernel_pdpt new_pdpt pdpt_idx : Z) (s : Vmm) : Res Vmm :=
  let e := entry (pm s) kernel_pdpt pdpt_idx in
  if negb (present e) then Ok s else
  let kernel_pd := entry_phys e in
  '(s, new_pd) ← alloc s;
  let m := pm s in
  let s := with_pm (store_words 512 0 new_pd (λ i, share_pd_entry kernel_pd pdpt_idx i m) m) s in
  Ok (with_pm (set_entry (pm s) new_pdpt pdpt_idx
                 (Z.lor (Z.lor (Z.lor new_pd PRESENT) WRITABLE) USER)) s).

Definition create_address_space (s : Vmm) : Res (Vmm * Z) :=
  '(s, new_pml4) ← alloc s;
  let s := zero_table new_pml4 s in
  let kernel_pml4 := g_kernel_pml4 s in
  let s := with_pm (set_entry (pm s) new_pml4 HEAP_PML4_IDX
                      (entry (pm s) kernel_pml4 HEAP_PML4_IDX)) s in
  let s := with_pm (set_entry (pm s) new_pml4 PHYSMAP_PML4_IDX
                      (entry (pm s) kernel_pml4 PHYSMAP_PML4_IDX)) s in
  '(s, new_pdpt) ← alloc s;
  let s := zero_table new_pdpt s in
  let e := entry (pm s) kernel_pml4 0 in
  s ← (if present e then
         iter_upM 4 0 1 (share_pd (entry_phys e) new_pdpt) s
       else Ok s);
  Ok (with_pm (set_entry (pm s) new_pml4 0
                 (Z.lor (Z.lor (Z.lor new_pdpt PRESENT) WRITABLE) USER)) s,
      new_pml4).

Definition clone_leaf (dst_pml4 virt src_entry : Z) (s : Vmm) : Res Vmm :=
  let flags := Z.land src_entry (Z.lor (Z.lor (Z.lor PRESENT WRITABLE) USER) NO_EXECUTE) in
  '(s, new_phys) ← alloc s;
  let s := with_pm (copy (pm s) new_phys (entry_phys src_entry) 0x1000) s in
  map_into dst_pml4 virt new_phys flags s.

Definition clone_pt (dst_pml4 src_pt pml4_idx pdpt_idx pd_idx : Z) (s : Vmm) : Res Vmm :=
  iter_upM 512 0 1 (λ pt_idx s,
    let e := entry (pm s) src_pt pt_idx in
    if negb (present e) then Ok s else
    let virt := Z.lor (Z.lor (Z.lor (Z.shiftl pml4_idx 39) (Z.shiftl pdpt_idx 30))
                             (Z.shiftl pd_idx 21)) (Z.shiftl pt_idx 12) in
    clone_leaf dst_pml4 virt e s) s.

(** Is the 2 MiB page starting at [virt_2mb] in the private low window? *)
Definition in_window (virt_2mb : Z) : bool :=
  negb ((virt_2mb <? RESERVED_LOW) || (RESERVED_HIGH <=? virt_2mb)).

Definition clone_window (dst_pml4 src_pml4 : Z) (s : Vmm) : Res Vmm :=
  let e4 := entry (pm s) src_pml4 0 in
  if negb (present e4) then Ok s else
  let e3 := entry (pm s) (entry_phys e4) 0 in
  if negb (present e3) then Ok s else
  let src_pd := entry_phys e3 in
  iter_upM 512 0 1 (λ pd_idx s,
    if negb (in_window (Z.shiftl pd_idx 21)) then Ok s else
    let e2 := entry (pm s) src_pd pd_idx in
    if negb (present e2) then Ok s else
    clone_pt dst_pml4 (entry_phys e2) 0 0 pd_idx s) s.

Definition clone_slot (dst_pml4 src_pml4 pml4_idx : Z) (s : Vmm) : Res Vmm :=
  if (pml4_idx =? HEAP_PML4_IDX) || (pml4_idx =? PHYSMAP_PML4_IDX) then Ok s else
  let e4 := entry (pm s) src_pml4 pml4_idx in
  if negb (present e4) then Ok s else
  let src_pdpt := entry_phys e4 in
  iter_upM 512 0 1 (λ pdpt_idx s,
    let e3 := entry (pm s) src_pdpt pdpt_idx in
    if negb (present e3) then Ok s else
    let src_pd := entry_phys e3 in
    iter_upM 512 0 1 (λ pd_idx s,
      let e2 := entry (pm s) src_pd pd_idx in
      if negb (present e2) then Ok s else
      clone_pt dst_pml4 (entry_phys e2) pml4_idx pdpt_idx pd_idx s) s) s.

Definition clone_address_space (dst_cr3 src_cr3 : Z) (s : Vmm) : Res Vmm :=
  let src_pml4 := Z.land src_cr3 PHYS_MASK in
  let dst_pml4 := Z.land dst_cr3 PHYS_MASK in
  s ← clone_window dst_pml4 src_pml4 s;
  iter_upM 511 1 1 (clone_slot dst_pml4 src_pml4) s.

(** [free_table(table_phys, level)]: [level] bounds the recursion. *)
Fixpoint free_table (level : nat) (table_phys : Z) (s : Vmm) : Vmm :=
  free table_phys
    (iter_up 512 0 1 (λ i s,
       let e := entry (pm s) table_phys i in
       if negb (present e) || huge e then s else
       match level with
       | O => free (entry_phys e) s
       | S level => free_table level (entry_phys e) s
       end) s).

Definition destroy_pd (pdpt_phys pdpt_idx : Z) (s : Vmm) : Vmm :=
  let e := entry (pm s) pdpt_phys pdpt_idx in
  if negb (present e) then s else
  let pd_phys := entry_phys e in
  let s := if pdpt_idx =? 0 then
             iter_up 512 0 1 (λ pd_idx s,
               if negb (in_window (Z.shiftl pd_idx 21)) then s else
               let e2 := entry (pm s) pd_phys pd_idx in
               if negb (present e2) then s else
               free_table 0 (entry_phys e2) s) s
           else s in
  free pd_phys s.

Definition destroy_pml4_slot0 (pdpt_phys : Z) (s : Vmm) : Vmm :=
  free pdpt_phys (iter_up 4 0 1 (destroy_pd pdpt_phys) s).

Definition destroy_address_space (cr3 : Z) (s : Vmm) : Vmm :=
  let pml4_phys := Z.land cr3 PHYS_MASK in
  let e0 := entry (pm s) pml4_phys 0 in
  let s := if present e0 then destroy_pml4_slot0 (entry_phys e0) s else s in
  let s := iter_up 511 1 1 (λ pml4_idx s,
             if (pml4_idx =? HEAP_PML4_IDX) || (pml4_idx =? PHYSMAP_PML4_IDX) then s else
             let e := entry (pm s) pml4_phys pml4_idx in
             if negb (present e) then s else
             free_table 2 (entry_phys e) s) s in
  free pml4_phys s.

End vmm.

Arguments Vmm A : clear implicits.
