(* ===== verification/PageTable.v ===== *)
(** * Translation through the page tables

    The theory of [Vmm]'s four-level tables: what it means for the tables below
    a PML4 to form a tree of frames the allocator knows about, that [map_into]
    keeps them so, and how it changes the translation of every address.  The
    invariant is relative to a set [P] of PML4 slots, since one address space
    may reach the same lower table through two slots (the boot tables map the
    low 4 GiB both at 0 and at the physmap base). *)

From S2P Require Import Prelude Frames Mem Pmm Vmm.

(** ** Entries *)

Definition idx_ok (i : Z) : Prop := 0 ≤ i < 512.

(** [t] is the address of a frame the allocator tracks. *)
Definition is_frame (t : Z) : Prop := ∃ f, t = f * PAGE_SIZE ∧ 0 ≤ f < NUM_FRAMES.

(** Two entries with the same meaning for translation. *)
Definition entry_eq (e e' : Z) : Prop :=
  present e = present e' ∧ huge e = huge e' ∧ entry_phys e = entry_phys e'.

#[export] Instance entry_eq_equiv : Equivalence entry_eq.
Proof.
  split; unfold entry_eq.
  - done.
  - by intros x y (-> & -> & ->).
  - by intros x y z (-> & -> & ->).
Qed.

Lemma land_pow2_testbit e k : 0 ≤ k → negb (Z.land e (2 ^ k) =? 0) = Z.testbit e k.
Proof.
  intros Hk. destruct (Z.eqb_spec (Z.land e (2 ^ k)) 0) as [H|H]; simpl.
  - assert (Z.testbit (Z.land e (2 ^ k)) k = false) as Hb by (by rewrite H, Z.bits_0).
    autorewrite with bits in Hb. by rewrite Z.eqb_refl, andb_true_r in Hb.
  - destruct (Z.testbit e k) eqn:Hb; [done|]. destruct H.
    apply Z_bits_ext. intros i Hi. autorewrite with bits.
    destruct (Z.eqb_spec i k) as [->|]; [by rewrite Hb|by rewrite andb_false_r].
Qed.

Lemma present_testbit e : present e = Z.testbit e 0.
Proof. exact (land_pow2_testbit e 0 ltac:(lia)). Qed.
Lemma huge_testbit e : huge e = Z.testbit e 7.
Proof. exact (land_pow2_testbit e 7 ltac:(lia)). Qed.

Lemma phys_mask_testbit i : 0 ≤ i → Z.testbit PHYS_MASK i = (12 <=? i) && (i <? 52).
Proof.
  intros Hi. change PHYS_MASK with (Z.shiftl (Z.ones 40) 12). autorewrite with bits.
  repeat case_cmp; done || lia.
Qed.

Lemma entry_phys_testbit e i :
  0 ≤ i → Z.testbit (entry_phys e) i = Z.testbit e i && ((12 <=? i) && (i <? 52)).
Proof. intros Hi. unfold entry_phys. rewrite Z.land_spec. by rewrite phys_mask_testbit. Qed.

#[export] Hint Rewrite present_testbit huge_testbit : bits.
#[export] Hint Rewrite phys_mask_testbit entry_phys_testbit using lia : bits.

Lemma u64_testbit e i : Z.testbit (u64 e) i = (i <? 64) && Z.testbit e i.
Proof. apply testbit_mod. lia. Qed.
#[export] Hint Rewrite u64_testbit : bits.

Lemma entry_eq_u64 e : entry_eq (u64 e) e.
Proof.
  unfold entry_eq. autorewrite with bits. split_and!; [done..|].
  apply Z_bits_ext. intros i Hi. autorewrite with bits. repeat case_cmp; simpl; try lia; btauto.
Qed.

(** Or-ing in [USER] and [WRITABLE] bits does not change the translation. *)
Lemma entry_eq_widen e f : entry_eq (Z.lor e (Z.land f (Z.lor USER WRITABLE))) e.
Proof.
  change (Z.lor USER WRITABLE) with (Z.shiftl (Z.ones 2) 1).
  unfold entry_eq. autorewrite with bits. simpl. rewrite !andb_false_r, !orb_false_r.
  split_and!; [done..|]. apply Z_bits_ext. intros i Hi. autorewrite with bits.
  repeat case_cmp; simpl; try lia; btauto.
Qed.

Lemma mult_4096_testbit f i : 0 ≤ i < 12 → Z.testbit (f * 4096) i = false.
Proof.
  intros Hi. change 4096 with (2 ^ 12). rewrite <-Z.shiftl_mul_pow2 by lia.
  rewrite Z.shiftl_spec by lia. apply Z.testbit_neg_r. lia.
Qed.

(** Decoding an entry made from a page-aligned address and flags. *)
Lemma entry_phys_lor p fl :
  0 ≤ p < 2 ^ 52 → p `mod` 4096 = 0 → Z.land fl PHYS_MASK = 0 → entry_phys (Z.lor p fl) = p.
Proof.
  intros Hp Hal Hfl. apply Z_bits_ext. intros i Hi. autorewrite with bits.
  assert (Z.testbit fl i && ((12 <=? i) && (i <? 52)) = false) as Hf.
  { rewrite <-phys_mask_testbit, <-Z.land_spec, Hfl by done. apply Z.bits_0. }
  rewrite andb_orb_distrib_l, Hf, orb_false_r.
  destruct (Z.leb_spec 12 i); simpl.
  - case_cmp; [apply andb_true_r|]. by rewrite (testbit_high p 52) by lia.
  - replace p with (p / 4096 * 4096) by (pose proof (Z_div_exact_2 p 4096 ltac:(lia) Hal); lia).
    by rewrite mult_4096_testbit by lia.
Qed.

Lemma is_frame_bounds t : is_frame t → 0 ≤ t < 2 ^ 32 ∧ t `mod` 4096 = 0.
Proof.
  intros (f & -> & Hf). unfold PAGE_SIZE, NUM_FRAMES in *. split; [lia|].
  apply Z.mod_mul. lia.
Qed.

Lemma entry_phys_frame t fl : is_frame t → Z.land fl PHYS_MASK = 0 → entry_phys (Z.lor t fl) = t.
Proof. intros Ht. apply is_frame_bounds in Ht as [??]. apply entry_phys_lor; lia. Qed.

(** ** Reading and writing entries *)

Lemma entry_set_same m t i v : entry (set_entry m t i v) t i = u64 v.
Proof. apply (load_store_same 8). Qed.

Lemma entry_set_other m t i v t' i' :
  is_frame t → is_frame t' → idx_ok i → idx_ok i' → (t, i) ≠ (t', i') →
  entry (set_entry m t i v) t' i' = entry m t' i'.
Proof.
  intros (f & -> & _) (f' & -> & _) Hi Hi' Hne. unfold idx_ok, PAGE_SIZE in *.
  unfold entry, set_entry. apply load64_store64_other.
  destruct (decide (f = f')) as [->|].
  - assert (i ≠ i') by naive_solver. lia.
  - lia.
Qed.

(** The frame of a byte. *)
Definition frame_of (x : Z) : Z := x / PAGE_SIZE.

Lemma frame_of_entry t i k :
  is_frame t → idx_ok i → 0 ≤ k < 8 → frame_of (t + 8 * i + k) = frame_of t.
Proof.
  intros (f & -> & _) Hi Hk. unfold frame_of, idx_ok, PAGE_SIZE in *.
  rewrite Z.div_mul by lia. symmetry. apply (Z.div_unique _ _ _ (8 * i + k)); lia.
Qed.

Lemma entry_mem_ext m m' t i :
  is_frame t → idx_ok i → (∀ x, frame_of x = frame_of t → m' x = m x) →
  entry m' t i = entry m t i.
Proof.
  intros Ht Hi H. apply load_ext. intros x Hx. apply H.
  replace x with (t + 8 * i + (x - (t + 8 * i))) by lia. apply frame_of_entry; [done..|lia].
Qed.

Lemma set_entry_frame m t i v x :
  is_frame t → idx_ok i → frame_of x ≠ frame_of t → set_entry m t i v x = m x.
Proof.
  intros Ht Hi Hx. apply store_other.
  destruct (decide (x < t + 8 * i ∨ t + 8 * i + Z.of_nat 8 ≤ x)) as [|Hn]; [done|].
  destruct Hx. replace x with (t + 8 * i + (x - (t + 8 * i))) by lia.
  apply frame_of_entry; [done..|lia].
Qed.

Lemma store_words_frame t w m x :
  is_frame t → frame_of x ≠ frame_of t → store_words 512 0 t w m x = m x.
Proof.
  intros (f & -> & _) Hx. unfold frame_of, PAGE_SIZE in *. rewrite Z.div_mul in Hx by lia.
  apply store_words_outside. change (Z.of_nat 512) with 512.
  pose proof (Z.div_mod x 4096). pose proof (Z.mod_pos_bound x 4096).
  destruct (decide (x / 4096 < f)); [left|right]; lia.
Qed.

(** ** Paths *)

(** The table reached from [t] by following [path], the code's nested
    [entry_to_kptr(table\[idx\])] under its presence checks. *)
Fixpoint table_at (m : mem) (t : Z) (path : list Z) : option Z :=
  match path with
  | [] => Some t
  | i :: rest =>
      let e := entry m t i in
      if present e && negb (huge e) then table_at m (entry_phys e) rest else None
  end.

(** The leaf that ends the walk along [path]: what was left of the path, and the
    address in the leaf entry. *)
Fixpoint leaf_at (m : mem) (t : Z) (path : list Z) : option (list Z * Z) :=
  match path with
  | [] => None
  | i :: rest =>
      let e := entry m t i in
      if negb (present e) then None
      else match rest with
           | [] => Some ([], entry_phys e)
           | _ => if huge e then Some (rest, entry_phys e) else leaf_at m (entry_phys e) rest
           end
  end.

Definition idx_path (virt : Z) : list Z :=
  [pml4_idx virt; pdpt_idx virt; pd_idx virt; pt_idx virt].

(** A walk under the slots [P]. *)
Definition ok_path (P : Z → Prop) (p : list Z) : Prop :=
  Forall idx_ok p ∧ match p with [] => True | i :: _ => P i end.

Lemma idx_range v k : idx_ok (Z.land (Z.shiftr v k) 0x1FF).
Proof.
  unfold idx_ok. change 0x1FF with (Z.ones 9). rewrite Z.land_ones by lia.
  apply Z.mod_pos_bound. lia.
Qed.

Lemma idx_path_ok (P : Z → Prop) v : P (pml4_idx v) → ok_path P (idx_path v).
Proof. intros H. split; [|done]. repeat constructor; apply idx_range. Qed.

Lemma ok_path_prefix P p q : p `prefix_of` q → ok_path P q → ok_path P p.
Proof.
  intros [r ->] [Hf HP]. apply Forall_app in Hf as [Hf _]. split; [done|].
  by destruct p.
Qed.

Lemma ok_path_snoc_l P p i : ok_path P (p ++ [i]) → ok_path P p.
Proof. apply ok_path_prefix. by eexists. Qed.

Lemma ok_path_last P p i : ok_path P (p ++ [i]) → idx_ok i.
Proof. intros [Hf _]. apply Forall_app in Hf as [_ Hf]. by inversion Hf. Qed.

Lemma prefix_snoc_inv {A} (r p : list A) j :
  r ++ [j] `prefix_of` p → r `prefix_of` p ∧ (length r < length p)%nat.
Proof.
  intros [k ->]. rewrite <-app_assoc. split; [by eexists|]. rewrite length_app. simpl. lia.
Qed.

Lemma table_at_app m t p q :
  table_at m t (p ++ q) = table_at m t p ≫= λ t', table_at m t' q.
Proof.
  revert t. induction p as [|i p IH]; intros t; [done|]. simpl. case_match; [apply IH|done].
Qed.

Lemma table_at_snoc m t p i t' :
  table_at m t p = Some t' →
  table_at m t (p ++ [i]) =
    (let e := entry m t' i in if present e && negb (huge e) then Some (entry_phys e) else None).
Proof. intros H. by rewrite table_at_app, H. Qed.

Lemma leaf_at_app m t p i q t' :
  table_at m t p = Some t' → leaf_at m t (p ++ i :: q) = leaf_at m t' (i :: q).
Proof.
  revert t. induction p as [|j p IH]; intros t H; simpl in H; [by simplify_eq|].
  case_match eqn:E; [|done]. apply andb_true_iff in E as [E1 E2].
  apply negb_true_iff in E2. rewrite <-(IH _ H). simpl.
  rewrite E1, E2. simpl. destruct (p ++ i :: q) eqn:Hp; [|done]. by destruct p.
Qed.

(** Memories that agree on the entries a walk reads give the same walk. *)
Lemma table_at_ext m m' t q :
  (∀ r j t', r ++ [j] `prefix_of` q → table_at m t r = Some t' →
     entry_eq (entry m' t' j) (entry m t' j)) →
  table_at m' t q = table_at m t q.
Proof.
  revert t. induction q as [|i q IH]; intros t H; [done|]. simpl.
  destruct (H [] i t) as (-> & -> & ->); [by apply prefix_cons, prefix_nil|done|].
  case_match eqn:E; [|done]. apply IH. intros r j t' Hr Ht.
  apply (H (i :: r)); [by apply prefix_cons|]. simpl. by rewrite E.
Qed.

Lemma leaf_at_ext m m' t q :
  (∀ r j t', r ++ [j] `prefix_of` q → table_at m t r = Some t' →
     entry_eq (entry m' t' j) (entry m t' j)) →
  leaf_at m' t q = leaf_at m t q.
Proof.
  revert t. induction q as [|i q IH]; intros t H; [done|]. cbn [leaf_at].
  destruct (H [] i t) as (-> & -> & ->); [by apply prefix_cons, prefix_nil|done|].
  destruct (present (entry m t i)) eqn:E1; simpl; [|done].
  destruct q as [|k q]; [done|]. destruct (huge (entry m t i)) eqn:E2; [done|].
  apply IH. intros r j t' Hr Ht.
  apply (H (i :: r)); [by apply prefix_cons|]. simpl. by rewrite E1, E2.
Qed.

(** ** Trees of tables *)

Section tree.
Context {A : Type} `{FrameAllocLaws A}.

(** The tables reachable under the slots [P] are distinct frames in use, and the
    top two levels hold no huge pages. *)
Record tree_ok (P : Z → Prop) (root : Z) (s : Vmm A) : Prop := {
  ok_table p t : ok_path P p → (length p ≤ 3)%nat → table_at (pm s) root p = Some t →
    is_frame t ∧ fa_used (fa s) (frame_of t) = true;
  ok_inj p q t : ok_path P p → ok_path P q → (length p ≤ 3)%nat → (length q ≤ 3)%nat →
    table_at (pm s) root p = Some t → table_at (pm s) root q = Some t → p = q;
  ok_huge p i t : ok_path P (p ++ [i]) → (length p ≤ 1)%nat →
    table_at (pm s) root p = Some t → present (entry (pm s) t i) = true →
    huge (entry (pm s) t i) = false;
}.

(** [virt_to_phys] is the walk along the address's four indices. *)
Definition leaf_phys (virt : Z) (l : option (list Z * Z)) : Z :=
  match l with
  | None => 0
  | Some ([], p) => u64 (p + Z.land virt 0xFFF)
  | Some ([_], p) => u64 (Z.land p 0x000FFFFFFFE00000 + Z.land virt 0x1FFFFF)
  | Some (_, p) => u64 (Z.land p 0x000FFFFFC0000000 + Z.land virt 0x3FFFFFFF)
  end.

Lemma walk_leaf_at P root s virt :
  tree_ok P root s → P (pml4_idx virt) →
  walk (pm s) root virt = leaf_phys virt (leaf_at (pm s) root (idx_path virt)).
Proof.
  intros Hok HP. unfold walk, idx_path. cbn [leaf_at].
  destruct (present (entry _ root _)) eqn:E4; simpl; [|done].
  rewrite (ok_huge _ _ _ Hok [] _ root); [|by split; [apply Forall_singleton, idx_range|]|simpl; lia|done|done].
  destruct (present (entry _ _ (pdpt_idx virt))) eqn:E3; simpl; [|done].
  destruct (huge (entry _ _ (pdpt_idx virt))) eqn:E3h; simpl; [done|].
  destruct (present (entry _ _ (pd_idx virt))) eqn:E2; simpl; [|done].
  destruct (huge (entry _ _ (pd_idx virt))) eqn:E2h; simpl; [done|].
  by destruct (present (entry _ _ (pt_idx virt))).
Qed.

(** Writing entry [i] of the table at path [p] is seen by exactly the walks that
    go through [p ++ \[i\]]. *)
Lemma entry_at_set P root s p t i v q :
  tree_ok P root s → ok_path P p → (length p ≤ 3)%nat → table_at (pm s) root p = Some t →
  idx_ok i → ok_path P q → (length q ≤ 4)%nat → ¬ p ++ [i] `prefix_of` q →
  ∀ r j t', r ++ [j] `prefix_of` q → table_at (pm s) root r = Some t' →
    entry_eq (entry (set_entry (pm s) t i v) t' j) (entry (pm s) t' j).
Proof.
  intros Hok Hp Hlp Ht Hi Hq Hlq Hn r j t' Hr Ht'.
  destruct (prefix_snoc_inv _ _ _ Hr) as [Hr' Hl].
  assert (ok_path P r) by (by eapply ok_path_prefix).
  destruct (ok_table _ _ _ Hok r t') as [Hf' _]; [done|lia|done|].
  destruct (ok_table _ _ _ Hok p t) as [Hf _]; [done..|].
  rewrite entry_set_other; [done|done|done|done| |].
  - eapply (ok_path_last P r), ok_path_prefix; done.
  - intros [= <- <-]. destruct Hn.
    by rewrite (ok_inj _ _ _ Hok p r t) by (done || lia).
Qed.

(** ** How an operation may change the tree *)

(** [s'] has every table of [s] where it was; new tables come from frames [s] had
    not in use; nothing outside the tables and unused frames was written, and no
    link to a table lost [WRITABLE] or [USER]. *)
Record grows (P : Z → Prop) (root : Z) (s s' : Vmm A) : Prop := {
  g_tree : tree_ok P root s';
  g_keep q t : ok_path P q → (length q ≤ 3)%nat →
    table_at (pm s) root q = Some t → table_at (pm s') root q = Some t;
  g_new q t : ok_path P q → (length q ≤ 3)%nat → table_at (pm s') root q = Some t →
    table_at (pm s) root q = Some t ∨ fa_used (fa s) (frame_of t) = false;
  g_used f : fa_used (fa s) f = true → fa_used (fa s') f = true;
  g_mem x : fa_used (fa s) (frame_of x) = true →
    (∀ q t, ok_path P q → (length q ≤ 3)%nat → table_at (pm s) root q = Some t →
       frame_of t ≠ frame_of x) →
    pm s' x = pm s x;
  g_perm q t i b : ok_path P (q ++ [i]) → (length q ≤ 2)%nat →
    table_at (pm s) root q = Some t → is_Some (table_at (pm s) root (q ++ [i])) →
    b = 1 ∨ b = 2 → Z.testbit (entry (pm s) t i) b = true →
    Z.testbit (entry (pm s') t i) b = true;
  g_regs : cr3 s' = cr3 s ∧ g_kernel_pml4 s' = g_kernel_pml4 s;
}.

Definition same_leaves (P : Z → Prop) (root : Z) (s s' : Vmm A) : Prop :=
  ∀ q, ok_path P q → length q = 4%nat → leaf_at (pm s') root q = leaf_at (pm s) root q.

Lemma grows_refl P root s : tree_ok P root s → grows P root s s.
Proof. intros H1. split; auto. Qed.

Lemma grows_trans P root s1 s2 s3 :
  grows P root s1 s2 → grows P root s2 s3 → grows P root s1 s3.
Proof.
  intros G1 G2. split.
  - apply G2.
  - intros q t Hq Hl Ht. by apply (g_keep _ _ _ _ G2), (g_keep _ _ _ _ G1).
  - intros q t Hq Hl Ht. destruct (g_new _ _ _ _ G2 q t Hq Hl Ht) as [Ht2|Hu].
    + by apply (g_new _ _ _ _ G1).
    + right. destruct (fa_used (fa s1) (frame_of t)) eqn:E; [|done].
      by rewrite (g_used _ _ _ _ G1) in Hu.
  - intros f Hf. by apply (g_used _ _ _ _ G2), (g_used _ _ _ _ G1).
  - intros x Hx Hn. rewrite <-(g_mem _ _ _ _ G1 x) by done. apply (g_mem _ _ _ _ G2).
    + by apply (g_used _ _ _ _ G1).
    + intros q t Hq Hl Ht. destruct (g_new _ _ _ _ G1 q t Hq Hl Ht) as [Ht2|Hu].
      * by eapply Hn.
      * intros Hf. by rewrite Hf, Hx in Hu.
  - intros q t i b Hq Hl Ht [t' Ht'] Hb He. apply (g_perm _ _ _ _ G2 q); try done.
    + apply (g_keep _ _ _ _ G1); [by eapply ok_path_snoc_l|lia|done].
    + exists t'. apply (g_keep _ _ _ _ G1); [done| |done]. rewrite length_app. simpl. lia.
    + apply (g_perm _ _ _ _ G1 q); eauto.
  - destruct (g_regs _ _ _ _ G1), (g_regs _ _ _ _ G2). split; congruence.
Qed.

(** A state whose entries mean what they meant has the same tree. *)
Lemma tree_same P root s s' :
  tree_ok P root s →
  (∀ q i t, ok_path P (q ++ [i]) → (length q ≤ 3)%nat → table_at (pm s) root q = Some t →
     entry_eq (entry (pm s') t i) (entry (pm s) t i)) →
  (∀ f, fa_used (fa s) f = true → fa_used (fa s') f = true) →
  tree_ok P root s' ∧ same_leaves P root s s' ∧
  (∀ q, ok_path P q → (length q ≤ 4)%nat → table_at (pm s') root q = table_at (pm s) root q).
Proof.
  intros Hok Hent Hu.
  assert (∀ q, ok_path P q → (length q ≤ 4)%nat → ∀ r j t, r ++ [j] `prefix_of` q →
    table_at (pm s) root r = Some t → entry_eq (entry (pm s') t j) (entry (pm s) t j)) as Hpre.
  { intros q Hq Hl r j t Hr Ht. destruct (prefix_snoc_inv _ _ _ Hr).
    apply (Hent r); [by eapply ok_path_prefix|lia|done]. }
  assert (∀ q, ok_path P q → (length q ≤ 4)%nat →
    table_at (pm s') root q = table_at (pm s) root q) as Htab.
  { intros q Hq Hl. by apply table_at_ext, Hpre. }
  split; [split|split; [|done]].
  - intros p t Hp Hl. rewrite Htab by (done || lia). intros Ht.
    destruct (ok_table _ _ _ Hok p t) as [??]; auto.
  - intros p q t Hp Hq Hlp Hlq. rewrite !Htab by (done || lia). by apply (ok_inj _ _ _ Hok).
  - intros p i t Hp Hl. rewrite Htab; [|by eapply ok_path_snoc_l|lia].
    intros Ht. destruct (Hent p i t) as (-> & -> & _); [done|lia|done|].
    by apply (ok_huge _ _ _ Hok p).
  - intros q Hq Hl. apply leaf_at_ext, Hpre; [done|lia].
Qed.

(** An operation that leaves every entry of the tree meaning what it meant. *)
Lemma grows_same P root s s' :
  tree_ok P root s →
  (∀ q i t, ok_path P (q ++ [i]) → (length q ≤ 3)%nat → table_at (pm s) root q = Some t →
     entry_eq (entry (pm s') t i) (entry (pm s) t i)) →
  (∀ f, fa_used (fa s) f = true → fa_used (fa s') f = true) →
  (∀ x, fa_used (fa s) (frame_of x) = true →
     (∀ q t, ok_path P q → (length q ≤ 3)%nat → table_at (pm s) root q = Some t →
        frame_of t ≠ frame_of x) → pm s' x = pm s x) →
  (∀ q i t b, ok_path P (q ++ [i]) → (length q ≤ 2)%nat → table_at (pm s) root q = Some t →
     b = 1 ∨ b = 2 → Z.testbit (entry (pm s) t i) b = true →
     Z.testbit (entry (pm s') t i) b = true) →
  cr3 s' = cr3 s → g_kernel_pml4 s' = g_kernel_pml4 s →
  grows P root s s' ∧ same_leaves P root s s'.
Proof.
  intros Hok Hent Hu Hm Hperm Hc Hg.
  destruct (tree_same P root s s' Hok Hent Hu) as (Hok' & HL & Htab).
  split; [split|]; try done.
  - intros q t Hq Hl. by rewrite Htab by (done || lia).
  - intros q t Hq Hl. rewrite Htab by (done || lia). by left.
  - intros q t i b Hq Hl Ht _. by apply (Hperm q).
Qed.

(** Writing frames that were free and taking some of them into use. *)
Lemma grows_fresh P root s s' :
  tree_ok P root s →
  (∀ x, fa_used (fa s) (frame_of x) = true → pm s' x = pm s x) →
  (∀ f, fa_used (fa s) f = true → fa_used (fa s') f = true) →
  cr3 s' = cr3 s → g_kernel_pml4 s' = g_kernel_pml4 s →
  grows P root s s' ∧ same_leaves P root s s'.
Proof.
  intros Hok Hm Hu Hc Hg.
  assert (∀ q i t, ok_path P (q ++ [i]) → (length q ≤ 3)%nat → table_at (pm s) root q = Some t →
    entry (pm s') t i = entry (pm s) t i) as Hent.
  { intros q i t Hq Hl Ht.
    destruct (ok_table _ _ _ Hok q t) as [Hf Hus]; [by eapply ok_path_snoc_l|done..|].
    apply entry_mem_ext; [done|by eapply ok_path_last|]. intros x Hx. apply Hm. by rewrite Hx. }
  apply grows_same; auto.
  - intros q i t Hq Hl Ht. by rewrite (Hent q).
  - intros q i t b Hq Hl Ht _. by rewrite (Hent q) by (done || lia).
Qed.

(** Writing the entry [i] of the table at [p]; the two cases are below. *)
Section set.
#[local] Set Default Proof Using "Hok Hp Ht".
Context (P : Z → Prop) (root : Z) (s : Vmm A) (p : list Z) (t i v : Z).
Context (Hok : tree_ok P root s) (Hp : ok_path P (p ++ [i])) (Ht : table_at (pm s) root p = Some t).
Let s' := with_pm (set_entry (pm s) t i v) s.

Lemma set_path_ok : ok_path P p.
Proof. by eapply ok_path_snoc_l. Qed.

Lemma set_idx_ok : idx_ok i.
Proof. by eapply ok_path_last. Qed.

Lemma set_mem x : (length p ≤ 3)%nat → frame_of t ≠ frame_of x → pm s' x = pm s x.
Proof.
  intros Hl Hx. apply set_entry_frame; [|apply set_idx_ok|done].
  by apply (ok_table _ _ _ Hok p t set_path_ok).
Qed.

Lemma set_table_other q :
  (length p ≤ 3)%nat → ok_path P q → (length q ≤ 4)%nat → ¬ p ++ [i] `prefix_of` q →
  table_at (pm s') root q = table_at (pm s) root q.
Proof.
  intros Hlp Hq Hl Hn. eapply table_at_ext, (entry_at_set P root s p); try done; [apply set_path_ok|apply set_idx_ok].
Qed.

Lemma set_leaf_other q :
  (length p ≤ 3)%nat → ok_path P q → (length q ≤ 4)%nat → ¬ p ++ [i] `prefix_of` q →
  leaf_at (pm s') root q = leaf_at (pm s) root q.
Proof.
  intros Hlp Hq Hl Hn. eapply leaf_at_ext, (entry_at_set P root s p); try done; [apply set_path_ok|apply set_idx_ok].
Qed.

Lemma set_self_table : (length p ≤ 3)%nat → table_at (pm s') root p = Some t.
Proof.
  intros Hlp. rewrite set_table_other; [done|done|apply set_path_ok|lia|].
  intros [r Hr]. apply (f_equal length) in Hr. rewrite !length_app in Hr. simpl in Hr. lia.
Qed.

(** Every other entry of the tree keeps its value. *)
Lemma set_entry_tree_other q tq j :
  (length p ≤ 3)%nat → ok_path P (q ++ [j]) → (length q ≤ 3)%nat → table_at (pm s) root q = Some tq →
  (q, j) ≠ (p, i) → entry (pm s') tq j = entry (pm s) tq j.
Proof.
  intros Hlp Hq Hl Htq Hne.
  assert (ok_path P q) as Hq' by (by eapply ok_path_snoc_l).
  destruct (ok_table _ _ _ Hok p t) as [Hf _]; [apply set_path_ok|done..|].
  destruct (ok_table _ _ _ Hok q tq) as [Hfq _]; [done..|].
  apply entry_set_other; [done|done|apply set_idx_ok|by eapply ok_path_last|].
  intros [= <- <-]. destruct Hne. by rewrite (ok_inj _ _ _ Hok q p t) by (done || apply set_path_ok).
Qed.

End set.

(** Widening: the new value only adds permission bits. *)
Lemma grows_widen P root s p t i v :
  tree_ok P root s → ok_path P (p ++ [i]) → (length p ≤ 3)%nat → table_at (pm s) root p = Some t →
  entry_eq v (entry (pm s) t i) →
  (∀ b, b = 1 ∨ b = 2 → Z.testbit (entry (pm s) t i) b = true → Z.testbit v b = true) →
  let s' := with_pm (set_entry (pm s) t i v) s in
  grows P root s s' ∧ same_leaves P root s s'.
Proof.
  intros Hok Hp Hl Ht Hv Hbits s'.
  apply grows_same; try done.
  - intros q j tq Hq Hlq Htq. destruct (decide ((q, j) = (p, i))) as [[= -> ->]|Hne].
    + simplify_eq. simpl. rewrite entry_set_same. etrans; [apply entry_eq_u64|done].
    + by rewrite (set_entry_tree_other P root s p t i v Hok Hp Ht q) by done.
  - intros x Hx Hn. apply (set_mem P root s p t i v Hok Hp Ht); [done|].
    by apply (Hn p), Ht; [eapply set_path_ok|].
  - intros q j tq b Hq Hlq Htq Hb He. destruct (decide ((q, j) = (p, i))) as [[= -> ->]|Hne].
    + simplify_eq. simpl. rewrite entry_set_same. autorewrite with bits.
      rewrite Hbits by done. destruct Hb as [->| ->]; done.
    + by rewrite (set_entry_tree_other P root s p t i v Hok Hp Ht q) by (done || lia).
Qed.

(** Linking: the entry held no table and now points at the table [t2], a frame
    taken into use since [s0]. *)
Lemma grows_link P root s0 s p t i v t2 :
  grows P root s0 s → fa_used (fa s0) (frame_of t2) = false → ok_path P (p ++ [i]) → (length p ≤ 2)%nat → table_at (pm s) root p = Some t →
  present (entry (pm s) t i) && negb (huge (entry (pm s) t i)) = false →
  present v = true → huge v = false → entry_phys v = t2 → is_frame t2 →
  fa_used (fa s) (frame_of t2) = true →
  (∀ q, ok_path P q → (length q ≤ 3)%nat → table_at (pm s) root q ≠ Some t2) →
  ((length p ≤ 1)%nat → ∀ j, idx_ok j → present (entry (pm s) t2 j) = false) →
  let s' := with_pm (set_entry (pm s) t i v) s in
  grows P root s0 s' ∧ table_at (pm s') root (p ++ [i]) = Some t2.
Proof.
  intros G Hun Hp Hl Ht Hno Hvp Hvh Hvt Hf2 Hu2 Hnot Hempty s'.
  assert (length p ≤ 3)%nat as Hl3 by lia. pose proof (g_tree _ _ _ _ G) as Hok.
  assert (ok_path P p) as Hp' by (by eapply ok_path_snoc_l).
  assert (table_at (pm s') root (p ++ [i]) = Some t2) as Hnew.
  { rewrite (table_at_snoc _ _ _ _ t); [|by eapply set_self_table].
    simpl. rewrite entry_set_same. destruct (entry_eq_u64 v) as (-> & -> & ->).
    by rewrite Hvp, Hvh, Hvt. }
  (* what the tree of [s'] holds at each path *)
  assert (∀ q, ok_path P q → (length q ≤ 3)%nat → ∀ tq, table_at (pm s') root q = Some tq →
    (q = p ++ [i] ∧ tq = t2) ∨ (¬ p ++ [i] `prefix_of` q ∧ table_at (pm s) root q = Some tq)) as Hcase.
  { intros q Hq Hlq tq Htq. destruct (decide (p ++ [i] `prefix_of` q)) as [[rest ->]|Hn]; [left|right].
    - rewrite table_at_app, Hnew in Htq. simpl in Htq. destruct rest as [|j rest]; simpl in Htq.
      { rewrite app_nil_r. by simplify_eq. }
      rewrite !length_app in Hlq. simpl in Hlq.
      assert (ok_path P ((p ++ [i]) ++ [j])) as Hj.
      { eapply ok_path_prefix; [|exact Hq]. apply prefix_app, prefix_cons, prefix_nil. }
      exfalso. revert Htq. rewrite entry_set_other.
      + rewrite Hempty; [done|lia|]. by eapply ok_path_last.
      + by apply (ok_table _ _ _ Hok p t).
      + done.
      + by eapply ok_path_last.
      + by eapply ok_path_last.
      + intros [= -> ->]. exact (Hnot p Hp' Hl3 Ht).
    - split; [done|].
      by rewrite (set_table_other P root s p t i v Hok Hp Ht) in Htq by (done || lia). }
  assert (∀ q tq, ok_path P q → (length q ≤ 3)%nat → table_at (pm s) root q = Some tq →
    ¬ p ++ [i] `prefix_of` q) as Hold.
  { intros q tq Hq Hlq Htq [rest ->]. rewrite !table_at_app, Ht in Htq. simpl in Htq.
    by rewrite Hno in Htq. }
  split; [|done]. split.
  - split.
    + intros q tq Hq Hlq Htq. destruct (Hcase q Hq Hlq tq Htq) as [[-> ->]|[_ Ho]]; [done|].
      by apply (ok_table _ _ _ Hok q).
    + intros q1 q2 tq H1 H2 Hl1 Hl2 Ht1 Ht2.
      destruct (Hcase q1 H1 Hl1 tq Ht1) as [[-> ->]|[_ Ho1]],
        (Hcase q2 H2 Hl2 _ Ht2) as [[-> E]|[_ Ho2]]; subst; try done.
      * by destruct (Hnot q2).
      * by destruct (Hnot q1).
      * by apply (ok_inj _ _ _ Hok q1 q2 tq).
    + intros q j tq Hq Hlq Htq. assert (ok_path P q) by (by eapply ok_path_snoc_l).
      destruct (decide ((q, j) = (p, i))) as [[= -> ->]|Hne].
      * assert (tq = t) as -> by (pose proof (set_self_table P root s p t i v Hok Hp Ht Hl3); unfold s' in Htq; congruence).
        simpl. rewrite entry_set_same. destruct (entry_eq_u64 v) as (-> & -> & _). by rewrite Hvh.
      * destruct (Hcase q) with tq as [[-> ->]|[_ Ho]]; [done|lia|done| |].
        -- rewrite length_app in Hlq. simpl in *. rewrite entry_set_other.
           ++ rewrite Hempty; [done|lia|by eapply ok_path_last].
           ++ by apply (ok_table _ _ _ Hok p t).
           ++ done.
           ++ by eapply ok_path_last.
           ++ by eapply ok_path_last.
           ++ intros [= <- <-]. exact (Hnot p Hp' Hl3 Ht).
        -- rewrite (set_entry_tree_other P root s p t i v Hok Hp Ht q) by (done || lia).
           by apply (ok_huge _ _ _ Hok q).
  - intros q tq Hq Hlq Htq. apply (g_keep _ _ _ _ G) in Htq; [|done..].
    rewrite (set_table_other P root s p t i v Hok Hp Ht); [done..|lia|]. by eapply Hold.
  - intros q tq Hq Hlq Htq. destruct (Hcase q Hq Hlq tq Htq) as [[-> ->]|[_ Ho]]; [by right|].
    by apply (g_new _ _ _ _ G).
  - intros f Hf. by apply (g_used _ _ _ _ G).
  - intros x Hx Hn. rewrite <-(g_mem _ _ _ _ G x) by done.
    apply (set_mem P root s p t i v Hok Hp Ht); [done|].
    destruct (g_new _ _ _ _ G p t) as [Ht0|Hu0]; [done..|by apply (Hn p)|].
    intros Hf. by rewrite Hf, Hx in Hu0.
  - intros q tq j b Hq Hlq Htq [t' Ht'] Hb He.
    apply (g_keep _ _ _ _ G) in Ht' as Ht1; [|done|rewrite length_app; simpl; lia].
    assert (ok_path P q) by (by eapply ok_path_snoc_l).
    apply (g_keep _ _ _ _ G) in Htq as Htq1; [|done|lia].
    rewrite (set_entry_tree_other P root s p t i v Hok Hp Ht q); [|done|done|lia|done|].
    + by eapply (g_perm _ _ _ _ G).
    + intros [= -> ->]. eapply Hold; [exact Hq| |exact Ht1|done]. rewrite length_app. simpl. lia.
  - apply (g_regs _ _ _ _ G).
Qed.

(** ** The operations *)

Lemma alloc_spec s s1 f :
  alloc s = Ok (s1, f) →
  is_frame f ∧ fa_used (fa s) (frame_of f) = false ∧ fa_used (fa s1) (frame_of f) = true ∧
  (∀ g, fa_used (fa s) g = true → fa_used (fa s1) g = true) ∧
  pm s1 = pm s ∧ cr3 s1 = cr3 s ∧ g_kernel_pml4 s1 = g_kernel_pml4 s.
Proof using H0.
  unfold alloc. intros Ha. res_inv. destruct a as [a p]. injection Ha as <- <-.
  destruct (fa_alloc_fresh _ _ _ Ha0) as (g & -> & Hg & Hun & Hall).
  assert (frame_of (g * PAGE_SIZE) = g) as -> by (by apply Z.div_mul).
  split_and!; try done; simpl.
  - by exists g.
  - rewrite Hall. by rewrite Z.eqb_refl.
  - intros k Hk. rewrite Hall, Hk. apply orb_true_r.
Qed.

Lemma alloc_total s : (∃ r, alloc s = Ok r) ∨ alloc s = Halt.
Proof using H0.
  unfold alloc. destruct (fa_alloc_total (fa s)) as [[[a p] ->]| ->]; [left; by eexists|by right].
Qed.

(** A freshly allocated table filled with the words [w]. *)
Lemma fresh_table P root s s1 f w :
  tree_ok P root s → alloc s = Ok (s1, f) →
  let s2 := with_pm (store_words 512 0 f w (pm s1)) s1 in
  grows P root s s2 ∧ same_leaves P root s s2 ∧
  (∀ q, ok_path P q → (length q ≤ 3)%nat → table_at (pm s2) root q ≠ Some f) ∧
  is_frame f ∧ fa_used (fa s) (frame_of f) = false ∧ fa_used (fa s2) (frame_of f) = true ∧
  (∀ j, idx_ok j → is_u64 (w j) → entry (pm s2) f j = w j) ∧
  (∀ q t j, ok_path P (q ++ [j]) → (length q ≤ 3)%nat → table_at (pm s) root q = Some t →
     entry (pm s2) t j = entry (pm s) t j).
Proof using H0.
  intros Hok Ha s2.
  destruct (alloc_spec _ _ _ Ha) as (Hf & Hun & Hus & Hmono & Hpm & Hc & Hg).
  assert (∀ x, fa_used (fa s) (frame_of x) = true → pm s2 x = pm s x) as Hm.
  { intros x Hx. change (store_words 512 0 f w (pm s1) x = pm s x). rewrite store_words_frame; [by rewrite Hpm|done|].
    intros E. by rewrite E, Hun in Hx. }
  assert (∀ q t j, ok_path P (q ++ [j]) → (length q ≤ 3)%nat → table_at (pm s) root q = Some t →
    entry (pm s2) t j = entry (pm s) t j) as Hent.
  { intros q t j Hq Hl Ht.
    destruct (ok_table _ _ _ Hok q t) as [Hf' Hu']; [by eapply ok_path_snoc_l|lia|done|].
    apply entry_mem_ext; [done|by eapply ok_path_last|].
    intros x Hx. apply Hm. by rewrite Hx. }
  assert (∀ q, ok_path P q → (length q ≤ 3)%nat → table_at (pm s2) root q = table_at (pm s) root q)
    as Htab.
  { intros q Hq Hl. apply table_at_ext. intros r j t' Hr Ht'. destruct (prefix_snoc_inv _ _ _ Hr).
    by rewrite (Hent r) by (done || lia || by eapply ok_path_prefix). }
  destruct (grows_fresh P root s s2) as [G L]; [done..|].
  split_and!; try done.
  - intros q Hq Hl Ht. rewrite Htab in Ht by done.
    destruct (ok_table _ _ _ Hok q f) as [_ Hu]; [done..|]. by rewrite Hu in Hun.
  - intros j Hj Hw. apply (store_words_same 512 0 f w (pm s1) j); [|done].
    unfold idx_ok in Hj. lia.
Qed.

Lemma flags_no_phys fl : 0 ≤ fl < 4096 → Z.land fl PHYS_MASK = 0.
Proof.
  intros Hfl. apply Z_bits_ext. intros i Hi. autorewrite with bits.
  destruct (Z.leb_spec 12 i); simpl; [|by rewrite andb_false_r].
  by rewrite (testbit_high fl 12) by lia.
Qed.

(** A link entry [frame | flags] built from small flags without the huge bit. *)
Lemma link_entry f fl :
  is_frame f → 0 ≤ fl < 8 → Z.testbit fl 0 = true →
  present (Z.lor f fl) = true ∧ huge (Z.lor f fl) = false ∧ entry_phys (Z.lor f fl) = f.
Proof.
  intros Hf Hfl H0'. destruct (is_frame_bounds f Hf) as [_ Hal].
  replace f with (f / 4096 * 4096) by (pose proof (Z_div_exact_2 f 4096 ltac:(lia) Hal); lia).
  split_and!.
  - autorewrite with bits. rewrite H0'. apply orb_true_r.
  - autorewrite with bits. rewrite mult_4096_testbit by lia. by rewrite (testbit_high fl 3) by lia.
  - apply entry_phys_frame; [|apply flags_no_phys; lia].
    replace (f / 4096 * 4096) with f by (pose proof (Z_div_exact_2 f 4096 ltac:(lia) Hal); lia). done.
Qed.

Lemma ensure_table_spec P root s p t i fl s' t' :
  tree_ok P root s → ok_path P (p ++ [i]) → (length p ≤ 2)%nat → table_at (pm s) root p = Some t →
  (present (entry (pm s) t i) = true → huge (entry (pm s) t i) = false) → 0 ≤ fl < 8 →
  ensure_table t i fl s = Ok (s', t') →
  grows P root s s' ∧ same_leaves P root s s' ∧ table_at (pm s') root (p ++ [i]) = Some t' ∧
  (∀ b, b = 1 ∨ b = 2 → Z.testbit fl b = true → Z.testbit (entry (pm s') t i) b = true).
Proof using H0.
  intros Hok Hp Hl Ht Hnh Hfl. unfold ensure_table. intros Hens. res_inv.
  subst a t'.
  destruct (present (entry (pm s) t i)) eqn:Hpr; cbn [negb] in Ha; res_inv; subst.
  - set (v := Z.lor _ _). specialize (Hnh eq_refl).
    destruct (grows_widen P root s p t i v) as [G L]; [done|done|lia|done| | |].
    { apply entry_eq_widen. }
    { intros b Hb He. unfold v. autorewrite with bits. by rewrite He. }
    split_and!; [done|done| |].
    + rewrite (table_at_snoc _ _ _ _ t); [|by eapply set_self_table; eauto with lia].
      simpl. rewrite entry_set_same.
      assert (entry_eq (u64 v) (entry (pm s) t i)) as (-> & -> & _)
        by (etrans; [apply entry_eq_u64|apply entry_eq_widen]).
      by rewrite Hpr, Hnh.
    + intros b Hb Hbit. simpl. rewrite entry_set_same. unfold v. autorewrite with bits.
      change (Z.lor USER WRITABLE) with 6. rewrite Hbit. destruct Hb as [->| ->]; apply orb_true_r.
  - destruct a as [s1 f]. injection Ha as <-.
    destruct (fresh_table P root s s1 f (λ _, 0) Hok Ha0)
      as (G & L & Hnot & Hf & Hun & Hus & Hz & Hsame).
    fold (zero_table f s1) in *. set (s2 := zero_table f s1) in *.
    change PRESENT with 1. rewrite <-Z.lor_assoc. set (v := Z.lor f (Z.lor fl 1)).
    assert (0 ≤ Z.lor fl 1 < 2 ^ 3) as Hfl1.
    { apply bounded_by_bits; [lia|rewrite Z.lor_nonneg; lia|]. intros k Hk.
      rewrite Z.lor_spec, (testbit_high fl 3), (testbit_high 1 3) by lia. done. }
    destruct (link_entry f (Z.lor fl 1)) as (Hv1 & Hv2 & Hv3); [done|lia| |].
    { rewrite Z.lor_spec. apply orb_true_r. }
    assert (table_at (pm s2) root p = Some t) as Ht2.
    { apply (g_keep _ _ _ _ G); [by eapply ok_path_snoc_l|lia|done]. }
    assert (∀ j, idx_ok j → present (entry (pm s2) f j) = false) as Hempty.
    { intros j Hj. by rewrite Hz. }
    assert (present (entry (pm s2) t i) && negb (huge (entry (pm s2) t i)) = false) as Hno.
    { rewrite (Hsame p) by (done || lia). by rewrite Hpr. }
    destruct (grows_link P root s s2 p t i v f G Hun Hp Hl Ht2 Hno Hv1 Hv2 Hv3 Hf Hus Hnot
      (λ _, Hempty)) as [G' Hnew].
    split_and!; [done| | |].
    + intros q Hq Hlq. rewrite <-(L q Hq Hlq).
      destruct (decide (p ++ [i] `prefix_of` q)) as [[rest ->]|Hn].
      * rewrite !length_app in Hlq. simpl in Hlq. destruct rest as [|j rest]; [simpl in Hlq; lia|].
        rewrite (leaf_at_app _ _ _ _ _ f) by done.
        rewrite <-app_assoc. simpl. rewrite (leaf_at_app _ _ _ _ _ t) by done. cbn [leaf_at].
        rewrite (Hsame p), Hpr by (done || lia). simpl. rewrite entry_set_other.
        -- rewrite Hempty; [done|]. destruct Hq as [Hq _]. rewrite !Forall_app in Hq.
           destruct Hq as [_ Hq]. by inversion Hq.
        -- apply (ok_table _ _ _ Hok p t); [by eapply ok_path_snoc_l|lia|done].
        -- done.
        -- by eapply ok_path_last.
        -- destruct Hq as [Hq _]. rewrite !Forall_app in Hq.
           destruct Hq as [_ Hq]. by inversion Hq.
        -- intros [= -> _]. apply (Hnot p); [by eapply ok_path_snoc_l|lia|done].
      * apply (set_leaf_other P root s2 p t i v); [apply G|done|done|lia|done|lia|done].
    + simpl. rewrite entry_set_same. destruct (entry_eq_u64 v) as (_ & _ & ->). unfold v. by rewrite Hv3.
    + intros b Hb Hbit. simpl. rewrite entry_set_same. unfold v. autorewrite with bits.
      rewrite Hbit. simpl. rewrite orb_true_r. by destruct Hb as [->| ->].
Qed.

Definition same_walk (P : Z → Prop) (root : Z) (s s' : Vmm A) : Prop :=
  ∀ v, P (pml4_idx v) → walk (pm s') root v = walk (pm s) root v.

Lemma same_leaves_walk P root s s' :
  tree_ok P root s → tree_ok P root s' → same_leaves P root s s' → same_walk P root s s'.
Proof.
  intros H1 H2 HL v Hv. rewrite !(walk_leaf_at P) by done. by rewrite HL by (done || by apply idx_path_ok).
Qed.

Lemma same_walk_trans P root s1 s2 s3 :
  same_walk P root s1 s2 → same_walk P root s2 s3 → same_walk P root s1 s3.
Proof. intros H1 H2 v Hv. by rewrite H2, H1. Qed.

(** The base and the carried flags of a huge entry being split. *)
Lemma huge_base_spec e :
  let base := Z.land e 0x000FFFFFFFE00000 in
  0 ≤ base ∧ base + 2 ^ 21 ≤ 2 ^ 52 ∧ base `mod` 2 ^ 21 = 0 ∧
  Z.land (entry_phys e) 0x000FFFFFFFE00000 = base.
Proof.
  intros base. assert (base = Z.shiftl (Z.land (Z.shiftr e 21) (Z.ones 31)) 21) as Hb.
  { unfold base. change 0x000FFFFFFFE00000 with (Z.shiftl (Z.ones 31) 21).
    apply Z_bits_ext. intros i Hi. autorewrite with bits.
    destruct (decide (i < 21)).
    - rewrite (Z.testbit_neg_r _ (i - 21)) by lia.
      destruct (Z.leb_spec 0 (i - 21)); [lia|apply andb_false_r].
    - rewrite Z.shiftr_spec by lia. do 2 f_equal; lia. }
  rewrite Z.land_ones, Z.shiftl_mul_pow2 in Hb by lia.
  pose proof (Z.mod_pos_bound (Z.shiftr e 21) (2 ^ 31)). split_and!; [lia..| |].
  - rewrite Hb. apply Z.mod_mul. lia.
  - unfold entry_phys, base. rewrite <-Z.land_assoc. f_equal.
Qed.

Lemma split_flags_spec e :
  let flags := band_not (Z.land e 0xFFF) (Z.lor HUGE_PAGE (Z.shiftl 1 12)) in
  0 ≤ flags < 4096 ∧ Z.testbit flags 0 = Z.testbit e 0.
Proof.
  intros flags. split.
  - apply (bounded_by_bits flags 12); [lia| |].
    + apply Z.ldiff_nonneg. left. apply Z.land_nonneg. by right.
    + intros i Hi. unfold flags, band_not. rewrite Z.ldiff_spec, Z.land_spec, (testbit_high 0xFFF 12) by lia.
      by rewrite andb_false_r.
  - unfold flags, band_not. rewrite Z.ldiff_spec, Z.land_spec. change (Z.testbit 0xFFF 0) with true.
    change (Z.testbit (Z.lor HUGE_PAGE (Z.shiftl 1 12)) 0) with false. btauto.
Qed.

Lemma land_511 x : Z.land x 0x1FF = x `mod` 512.
Proof. exact (Z.land_ones x 9 ltac:(lia)). Qed.
Lemma land_4095 x : Z.land x 0xFFF = x `mod` 4096.
Proof. exact (Z.land_ones x 12 ltac:(lia)). Qed.

(** An offset in a 2 MiB page is a 4 KiB page and an offset in it. *)
Lemma page_offset_split v : Z.land v 0x1FFFFF = pt_idx v * 4096 + Z.land v 0xFFF.
Proof.
  unfold pt_idx. rewrite land_4095, land_511, Z.shiftr_div_pow2 by lia.
  change (Z.land v 0x1FFFFF) with (Z.land v (Z.ones 21)). rewrite Z.land_ones by lia.
  change (2 ^ 21) with (4096 * 512). rewrite Z.rem_mul_r by lia. change (2 ^ 12) with 4096. lia.
Qed.

Lemma prefix_idx_path p i v :
  length p = 2%nat → p ++ [i] `prefix_of` idx_path v →
  p = [pml4_idx v; pdpt_idx v] ∧ i = pd_idx v.
Proof.
  intros Hl [r Hr]. destruct p as [|a [|b [|]]]; try done. unfold idx_path in Hr. simpl in Hr.
  by injection Hr as -> -> -> _.
Qed.

Lemma split_huge_page_spec P root s p t i s' :
  tree_ok P root s → ok_path P (p ++ [i]) → length p = 2%nat → table_at (pm s) root p = Some t →
  present (entry (pm s) t i) = true → huge (entry (pm s) t i) = true →
  split_huge_page t i s = Ok s' →
  grows P root s s' ∧ same_walk P root s s' ∧ is_Some (table_at (pm s') root (p ++ [i])).
Proof using H0.
  intros Hok Hp Hl Ht Hpr Hhu. unfold split_huge_page. intros Hs. res_inv.
  destruct a as [s1 f]. res_inv. subst s'.
  set (e := entry (pm s) t i) in *. set (base := Z.land e _). set (flags := band_not _ _).
  set (w := λ i, Z.lor (u64 (base + u64 (i * 4096))) flags).
  destruct (huge_base_spec e) as (Hb0 & Hb1 & Hbm & Hbe). fold base in Hb0, Hb1, Hbm, Hbe.
  destruct (split_flags_spec e) as (Hfl & Hfl0). fold flags in Hfl, Hfl0.
  assert (∀ j, idx_ok j → 0 ≤ base + j * 4096 < 2 ^ 52 ∧ (base + j * 4096) `mod` 4096 = 0 ∧
    w j = Z.lor (base + j * 4096) flags) as Hw.
  { intros j Hj. unfold idx_ok in Hj. split_and!; [lia..| |].
    - rewrite Z.mod_add by lia. change (2 ^ 21) with (4096 * 512) in Hbm.
      rewrite Z.rem_mul_r in Hbm by lia. pose proof (Z.mod_pos_bound base 4096).
      pose proof (Z.mod_pos_bound (base / 4096) 512). lia.
    - unfold w. by rewrite (u64_small (j * 4096)), u64_small by (unfold is_u64; lia). }
  assert (∀ j, idx_ok j → is_u64 (w j)) as Hwu.
  { intros j Hj. destruct (Hw j Hj) as (? & ? & ->). apply (bounded_by_bits _ 64); [lia| |].
    - rewrite Z.lor_nonneg. lia.
    - intros k Hk. rewrite Z.lor_spec, (testbit_high _ 52), (testbit_high _ 12) by lia. done. }
  destruct (fresh_table P root s s1 f w Hok Ha) as (G & L & Hnot & Hf & Hun & Hus & Hz & Hsame).
  set (s2 := with_pm (store_words _ _ _ _ _) s1) in *.
  destruct (link_entry f 3) as (Hv1 & Hv2 & Hv3); [done..|].
  change (Z.lor (Z.lor f PRESENT) WRITABLE) with (Z.lor (Z.lor f 1) 2).
  rewrite <-Z.lor_assoc. change (Z.lor 1 2) with 3.
  assert (ok_path P p) as Hp' by (by eapply ok_path_snoc_l).
  assert (table_at (pm s2) root p = Some t) as Ht2 by (apply (g_keep _ _ _ _ G); done || lia).
  assert (entry (pm s2) t i = e) as He2 by (apply (Hsame p); done || lia).
  assert (present (entry (pm s2) t i) && negb (huge (entry (pm s2) t i)) = false) as Hno.
  { rewrite He2. by rewrite Hpr, Hhu. }
  destruct (grows_link P root s s2 p t i _ f G Hun Hp ltac:(lia) Ht2 Hno Hv1 Hv2 Hv3 Hf Hus Hnot
    ltac:(lia)) as [G' Hnew].
  split_and!; [done| |by eexists].
  clearbody base flags. pose proof (g_tree _ _ _ _ G') as Hok'. intros v Hv.
  rewrite !(walk_leaf_at P) by assumption.
  destruct (decide (p ++ [i] `prefix_of` idx_path v)) as [Hpre|Hn].
  - destruct (prefix_idx_path p i v Hl Hpre) as [-> ->].
    change (idx_path v) with (([pml4_idx v; pdpt_idx v] ++ [pd_idx v]) ++ pt_idx v :: []).
    rewrite (leaf_at_app _ _ _ _ _ f) by done.
    rewrite <-app_assoc. rewrite (leaf_at_app _ _ _ (pd_idx v) [pt_idx v] t) by done.
    cbn [leaf_at]. fold e. rewrite Hpr, Hhu. cbn [negb leaf_phys].
    assert (idx_ok (pt_idx v)) as Hj by apply idx_range.
    change (pm (with_pm ?m _)) with m. rewrite entry_set_other.
    + rewrite Hz by auto. destruct (Hw _ Hj) as (Hr & Hm & ->).
      rewrite present_testbit, Z.lor_spec, Hfl0, <-(present_testbit e).
      rewrite Hpr, orb_true_r. cbn [negb leaf_phys].
      rewrite entry_phys_lor by first [assumption|by apply flags_no_phys].
      by rewrite Hbe, page_offset_split, Z.add_assoc.
    + apply (ok_table _ _ _ Hok [pml4_idx v; pdpt_idx v]); [assumption|simpl; lia|assumption].
    + assumption.
    + apply idx_range.
    + done.
    + intros [= -> _]. apply (Hnot [pml4_idx v; pdpt_idx v]); [assumption|simpl; lia|assumption].
  - rewrite (set_leaf_other P root s2 p t i _); [|apply G|done|done|lia|by apply idx_path_ok|simpl; lia|done].
    rewrite L; [reflexivity|by apply idx_path_ok|reflexivity].
Qed.

(** Writing a page's own entry. *)
Lemma grows_leaf P root s p t i v :
  tree_ok P root s → ok_path P (p ++ [i]) → length p = 3%nat → table_at (pm s) root p = Some t →
  let s' := with_pm (set_entry (pm s) t i v) s in
  grows P root s s' ∧
  (∀ va, P (pml4_idx va) → walk (pm s') root va =
     if decide (idx_path va = p ++ [i])
     then if present v then u64 (entry_phys v + Z.land va 0xFFF) else 0
     else walk (pm s) root va).
Proof.
  intros Hok Hp Hl Ht s'.
  assert (∀ q, (length q ≤ 3)%nat → ¬ p ++ [i] `prefix_of` q) as Hn.
  { intros q Hq [r ->]. rewrite !length_app in Hq. simpl in Hq. lia. }
  assert (∀ q, ok_path P q → (length q ≤ 3)%nat →
    table_at (pm s') root q = table_at (pm s) root q) as Htab.
  { intros q Hq Hlq. apply (set_table_other P root s p t i v); auto with lia. }
  assert (∀ q j tq, ok_path P (q ++ [j]) → (length q ≤ 2)%nat → table_at (pm s) root q = Some tq →
    entry (pm s') tq j = entry (pm s) tq j) as Hent.
  { intros q j tq Hq Hlq Htq.
    apply (set_entry_tree_other P root s p t i v Hok Hp Ht q); try done; try lia.
    intros [= -> ->]. lia. }
  assert (grows P root s s') as G; [split; [split|..]|split; [done|]].
  - intros q tq Hq Hlq. rewrite Htab by done. by apply (ok_table _ _ _ Hok).
  - intros q1 q2 tq H1 H2 Hl1 Hl2. rewrite !Htab by done. by apply (ok_inj _ _ _ Hok).
  - intros q j tq Hq Hlq. rewrite Htab; [|by eapply ok_path_snoc_l|lia].
    intros Htq. rewrite (Hent q) by (done || lia). by apply (ok_huge _ _ _ Hok q).
  - intros q tq Hq Hlq. by rewrite Htab.
  - intros q tq Hq Hlq. rewrite Htab by done. by left.
  - done.
  - intros x Hx Hnx. apply (set_mem P root s p t i v Hok Hp Ht); [lia|].
    apply (Hnx p); [by eapply ok_path_snoc_l|lia|done].
  - intros q tq j b Hq Hlq Htq _ _. by rewrite (Hent q).
  - done.
  - intros va Hva. rewrite !(walk_leaf_at P) by (done || apply G).
    case_decide as Hd.
    + rewrite Hd, (leaf_at_app _ _ _ _ _ t) by (apply (set_self_table P root s p t i v); auto with lia).
      cbn [leaf_at]. change (pm s') with (set_entry (pm s) t i v). rewrite entry_set_same.
      destruct (entry_eq_u64 v) as (-> & _ & ->). by destruct (present v).
    + rewrite (set_leaf_other P root s p t i v); auto with lia; [by apply idx_path_ok|].
      intros [r Hr]. destruct Hd. pose proof (f_equal length Hr) as Hlr.
      rewrite !length_app in Hlr. simpl in Hlr. destruct r; [|simpl in Hlr; lia].
      by rewrite app_nil_r in Hr.
Qed.

(** ** [map_into] *)

Lemma idx_path_page_down v : idx_path (band_not v 0xFFF) = idx_path v.
Proof.
  assert (∀ k, 12 ≤ k → Z.shiftr (band_not v 0xFFF) k = Z.shiftr v k) as Hk.
  { intros k Hk. apply Z_bits_ext. intros i Hi. unfold band_not. autorewrite with bits.
    rewrite (testbit_high 0xFFF 12) by lia. apply andb_true_r. }
  unfold idx_path, pml4_idx, pdpt_idx, pd_idx, pt_idx. by rewrite !Hk by lia.
Qed.

Lemma idx_path_page_down_inv v :
  pml4_idx (band_not v 0xFFF) = pml4_idx v ∧ pdpt_idx (band_not v 0xFFF) = pdpt_idx v ∧
  pd_idx (band_not v 0xFFF) = pd_idx v ∧ pt_idx (band_not v 0xFFF) = pt_idx v.
Proof. pose proof (idx_path_page_down v) as H1. by injection H1 as -> -> -> ->. Qed.

Definition link_flags (flags : Z) : Z :=
  let intermediate := Z.lor PRESENT WRITABLE in
  if negb (Z.land flags USER =? 0) then Z.lor intermediate USER else intermediate.

Lemma link_flags_spec flags :
  0 ≤ link_flags flags < 8 ∧ Z.testbit (link_flags flags) 1 = true ∧
  (Z.testbit flags 2 = true → Z.testbit (link_flags flags) 2 = true).
Proof.
  unfold link_flags. change USER with (2 ^ 2). rewrite land_pow2_testbit by lia.
  destruct (Z.testbit flags 2); done.
Qed.

Lemma split_step P root s p t i s' :
  tree_ok P root s → ok_path P (p ++ [i]) → length p = 2%nat → table_at (pm s) root p = Some t →
  (if present (entry (pm s) t i) && huge (entry (pm s) t i) then split_huge_page t i s else Ok s)
    = Ok s' →
  grows P root s s' ∧ same_walk P root s s' ∧
  (present (entry (pm s') t i) = true → huge (entry (pm s') t i) = false).
Proof using H0.
  intros Hok Hp Hl Ht Hs.
  destruct (present (entry (pm s) t i)) eqn:Hpr, (huge (entry (pm s) t i)) eqn:Hhu; simpl in Hs.
  1: { destruct (split_huge_page_spec P root s p t i s') as (G & W & T); try done.
    split_and!; try done. intros Hpr'.
    rewrite (table_at_snoc _ _ _ _ t) in T by
      (apply (g_keep _ _ _ _ G); [by eapply ok_path_snoc_l|lia|done]).
    simpl in T. rewrite Hpr' in T. by destruct (huge (entry (pm s') t i)), T. }
  all: injection Hs as <-; split_and!; [by apply grows_refl|done|congruence].
Qed.

(** What [map_into] does, from which the properties below are read off. *)
Lemma map_into_full P root virt phys flags s s' :
  tree_ok P root s → P (pml4_idx virt) → map_into root virt phys flags s = Ok s' →
  grows P root s s' ∧
  (∀ va, P (pml4_idx va) → walk (pm s') root va =
     if decide (idx_path va = idx_path virt)
     then if present (Z.lor (band_not phys 0xFFF) flags)
          then u64 (entry_phys (Z.lor (band_not phys 0xFFF) flags) + Z.land va 0xFFF) else 0
     else walk (pm s) root va) ∧
  (∃ t4 t3 t2, table_at (pm s') root [pml4_idx virt] = Some t4 ∧
     table_at (pm s') root [pml4_idx virt; pdpt_idx virt] = Some t3 ∧
     table_at (pm s') root [pml4_idx virt; pdpt_idx virt; pd_idx virt] = Some t2 ∧
     entry (pm s') t2 (pt_idx virt) = u64 (Z.lor (band_not phys 0xFFF) flags) ∧
     ∀ b, b = 1 ∨ b = 2 → Z.testbit (link_flags flags) b = true →
       Z.testbit (entry (pm s') root (pml4_idx virt)) b = true ∧
       Z.testbit (entry (pm s') t4 (pdpt_idx virt)) b = true ∧
       Z.testbit (entry (pm s') t3 (pd_idx virt)) b = true).
Proof using H0.
  intros Hok HP. unfold map_into.
  destruct (idx_path_page_down_inv virt) as (-> & -> & -> & ->). fold (link_flags flags).
  destruct (link_flags_spec flags) as [Hfl _]. intros Hm. res_inv.
  destruct a as [s1 t4]. rename Ha into H1. res_inv.
  destruct a as [s2 t3]. rename Ha into H2. res_inv.
  rename a into s3, Ha into H3. destruct a0 as [s4 t2]. rename Ha0 into H4. res_inv. subst s'.
  pose proof (idx_path_ok P virt HP) as Hpath. unfold idx_path in Hpath.
  assert (ok_path P ([] ++ [pml4_idx virt])) as Hp1.
  { eapply ok_path_prefix; [|exact Hpath]. apply (prefix_cons _ []), prefix_nil. }
  assert (ok_path P ([pml4_idx virt] ++ [pdpt_idx virt])) as Hp2.
  { eapply ok_path_prefix; [|exact Hpath]. apply prefix_cons, (prefix_cons _ []), prefix_nil. }
  assert (ok_path P ([pml4_idx virt; pdpt_idx virt] ++ [pd_idx virt])) as Hp3.
  { eapply ok_path_prefix; [|exact Hpath]. do 2 apply prefix_cons. apply (prefix_cons _ []), prefix_nil. }
  assert (ok_path P ([pml4_idx virt; pdpt_idx virt; pd_idx virt] ++ [pt_idx virt])) as Hp4 by done.
  destruct (ensure_table_spec P root s [] root (pml4_idx virt) (link_flags flags) s1 t4 Hok Hp1) as (G1 & L1 & T1 & B1);
    [simpl; lia|done|by apply (ok_huge _ _ _ Hok [] _ _ Hp1 (Nat.le_0_l _))|done..|].
  destruct (ensure_table_spec P root s1 [pml4_idx virt] t4 (pdpt_idx virt) (link_flags flags) s2 t3
    (g_tree _ _ _ _ G1) Hp2) as (G2 & L2 & T2 & B2);
    [simpl; lia|done|by apply (ok_huge _ _ _ (g_tree _ _ _ _ G1) [pml4_idx virt] _ _ Hp2 (le_n _))|done..|].
  destruct (split_step P root s2 [pml4_idx virt; pdpt_idx virt] t3 (pd_idx virt) s3 (g_tree _ _ _ _ G2) Hp3) as (G3 & W3 & N3); [done..|].
  assert (table_at (pm s3) root [pml4_idx virt; pdpt_idx virt] = Some t3) as T2'.
  { apply (g_keep _ _ _ _ G3); [by eapply ok_path_snoc_l|simpl; lia|done]. }
  destruct (ensure_table_spec P root s3 [pml4_idx virt; pdpt_idx virt] t3 (pd_idx virt) (link_flags flags) s4 t2 (g_tree _ _ _ _ G3) Hp3)
    as (G4 & L4 & T4 & B4); [simpl; lia|done..|].
  destruct (grows_leaf P root s4 [pml4_idx virt; pdpt_idx virt; pd_idx virt] t2 (pt_idx virt)
    (Z.lor (band_not phys 0xFFF) flags)
    (g_tree _ _ _ _ G4) Hp4) as [G5 W5]; [done..|].
  set (s5 := with_pm _ s4) in *.
  assert (grows P root s1 s5) as G15 by (by eapply grows_trans, grows_trans, grows_trans).
  assert (grows P root s2 s5) as G25 by (by eapply grows_trans, grows_trans).
  assert (same_walk P root s s4) as W4.
  { apply (same_walk_trans _ _ _ s3); [|apply same_leaves_walk; [apply G3|apply G4|done]].
    apply (same_walk_trans _ _ _ s2); [|done].
    apply (same_walk_trans _ _ _ s1); apply same_leaves_walk; done || apply G1 || apply G2. }
  split_and!.
  - by eapply grows_trans.
  - intros va Hva. rewrite W5 by done.
    change ([pml4_idx virt; pdpt_idx virt; pd_idx virt] ++ [pt_idx virt]) with (idx_path virt).
    case_decide; [done|by apply W4].
  - assert (table_at (pm s5) root [pml4_idx virt; pdpt_idx virt] = Some t3) as T2''.
    { apply (g_keep _ _ _ _ G25); [by eapply ok_path_snoc_l|simpl; lia|done]. }
    assert (table_at (pm s5) root [pml4_idx virt] = Some t4) as T1''.
    { apply (g_keep _ _ _ _ G15); [done|simpl; lia|done]. }
    assert (table_at (pm s5) root [pml4_idx virt; pdpt_idx virt; pd_idx virt] = Some t2) as T4''.
    { apply (g_keep _ _ _ _ G5); [done|simpl; lia|done]. }
    exists t4, t3, t2. split_and!; [done..|apply entry_set_same|].
    intros b Hb Hbit. split_and!.
    + apply (g_perm _ _ _ _ G15 []); [done|simpl; lia|done|by eexists|done|by apply B1].
    + apply (g_perm _ _ _ _ G25 [pml4_idx virt]); [done|simpl; lia| |by eexists|done|by apply B2].
      apply (g_keep _ _ _ _ G2); [done|simpl; lia|done].
    + apply (g_perm _ _ _ _ G5 [pml4_idx virt; pdpt_idx virt]);
        [done|simpl; lia| |by eexists|done|by apply B4].
      apply (g_keep _ _ _ _ G4); [by eapply ok_path_snoc_l|simpl; lia|done].
Qed.

(** ** Outcomes *)

(** These operations run to completion or stop the machine out of memory. *)
Definition done_or_halt {B} (r : Res B) : Prop := (∃ b, r = Ok b) ∨ r = Halt.

Lemma done_or_halt_bind {B C} (r : Res B) (f : B → Res C) :
  done_or_halt r → (∀ b, r = Ok b → done_or_halt (f b)) → done_or_halt (r ≫= f).
Proof. intros [[b ->]| ->] H1; [by apply H1|by right]. Qed.

Lemma done_or_halt_Ok {B} (b : B) : done_or_halt (Ok b).
Proof. left. by eexists. Qed.

Lemma ensure_table_total t i fl s : done_or_halt (ensure_table t i fl s).
Proof using H0.
  apply done_or_halt_bind; [|intros; apply done_or_halt_Ok].
  case_match; [|apply done_or_halt_Ok]. apply done_or_halt_bind; [apply alloc_total|].
  intros [s1 f] _. apply done_or_halt_Ok.
Qed.

Lemma split_huge_page_total t i s : done_or_halt (split_huge_page t i s).
Proof using H0.
  apply done_or_halt_bind; [apply alloc_total|]. intros [s1 f] _. apply done_or_halt_Ok.
Qed.

Lemma map_into_total root virt phys flags s : done_or_halt (map_into root virt phys flags s).
Proof using H0.
  unfold map_into. apply done_or_halt_bind; [apply ensure_table_total|]. intros [s1 t1] _.
  apply done_or_halt_bind; [apply ensure_table_total|]. intros [s2 t2] _.
  apply done_or_halt_bind.
  { case_match; [apply split_huge_page_total|apply done_or_halt_Ok]. }
  intros s3 _. apply done_or_halt_bind; [apply ensure_table_total|]. intros [s4 t4] _.
  apply done_or_halt_Ok.
Qed.

(** ** Frames taken *)

(** The allocator behind a result that carries a value along. *)
Definition fst_fa {X} (r : Vmm A * X) : A := fa r.1.

Lemma costs_alloc_frame s : costs fst_fa 1 (alloc s) (fa s).
Proof using H0.
  pose proof (costs_alloc (fa s)) as Hc. unfold alloc.
  by destruct (fa_alloc (fa s)) as [[a p]| | |].
Qed.

Lemma ensure_table_costs t i fl s : costs fst_fa 1 (ensure_table t i fl s) (fa s).
Proof using H0.
  apply (costs_bind fa fst_fa 1 0); [|by intros s1 _; apply costs_keep].
  case_match; [|by apply (costs_weaken fa 0); [lia|apply costs_keep]].
  apply (costs_bind fst_fa fa 1 0); [apply costs_alloc_frame|]. intros [s1 f] _. by apply costs_keep.
Qed.

(** A table that is there takes no frame. *)
Lemma ensure_table_there t i fl s :
  present (entry (pm s) t i) = true → costs fst_fa 0 (ensure_table t i fl s) (fa s).
Proof using Type. intros Hp. unfold ensure_table. rewrite Hp. by apply costs_keep. Qed.

Lemma split_huge_page_costs t i s : costs fa 1 (split_huge_page t i s) (fa s).
Proof using H0.
  apply (costs_bind fst_fa fa 1 0); [apply costs_alloc_frame|]. intros [s1 f] _. by apply costs_keep.
Qed.

Lemma split_huge_page_there t i s s' : split_huge_page t i s = Ok s' → present (entry (pm s') t i) = true.
Proof using Type.
  unfold split_huge_page. intros Hs. res_inv. destruct a as [s1 f]. res_inv. subst s'. simpl. rewrite entry_set_same.
  rewrite present_testbit, u64_testbit, !Z.lor_spec. change (Z.testbit PRESENT 0) with true. cbn. by rewrite orb_true_r.
Qed.

(** At most a PDPT, a PD and a PT; a 2 MiB page that is split is below tables that exist. *)
Lemma map_into_costs root virt phys flags s : costs fa 3 (map_into root virt phys flags s) (fa s).
Proof using H0.
  unfold map_into. apply (costs_bind fst_fa fa 1 2); [apply ensure_table_costs|]. intros [s1 t1] _.
  apply (costs_bind fst_fa fa 1 1); [apply ensure_table_costs|]. intros [s2 t2] _.
  unfold fst_fa. cbn [fst]. destruct (_ && _) eqn:E.
  - apply (costs_bind fa fa 1 0); [apply split_huge_page_costs|]. intros s3 Hs.
    apply (costs_bind fst_fa fa 0 0); [|by intros [s4 t4] _; apply costs_keep].
    by eapply ensure_table_there, split_huge_page_there.
  - res_step. apply (costs_bind fst_fa fa 1 0); [apply ensure_table_costs|]. intros [s4 t4] _. by apply costs_keep.
Qed.

(** ** [unmap] *)

Lemma page_4k_bounds e v :
  0 ≤ entry_phys e ∧ entry_phys e + 4096 ≤ 2 ^ 52 ∧ entry_phys e `mod` 4096 = 0 ∧
  0 ≤ Z.land v 0xFFF < 4096.
Proof.
  assert (entry_phys e = Z.shiftl (Z.land (Z.shiftr e 12) (Z.ones 40)) 12) as Hb.
  { apply Z_bits_ext. intros i Hi. autorewrite with bits.
    destruct (decide (i < 12)).
    - rewrite (Z.testbit_neg_r _ (i - 12)) by lia.
      destruct (Z.leb_spec 12 i); [lia|apply andb_false_r].
    - rewrite Z.shiftr_spec by lia. f_equal; [f_equal; lia|]. repeat case_cmp; done || lia. }
  rewrite Z.land_ones, Z.shiftl_mul_pow2 in Hb by lia.
  pose proof (Z.mod_pos_bound (Z.shiftr e 12) (2 ^ 40)). rewrite land_4095.
  pose proof (Z.mod_pos_bound v 4096). split_and!; [lia..| |lia|lia].
  rewrite Hb. apply Z.mod_mul. lia.
Qed.

(** Two addresses of a mapped page translate to the same frame. *)
Lemma walk_page P root s virt va :
  tree_ok P root s → P (pml4_idx virt) → idx_path va = idx_path virt →
  (walk (pm s) root virt = 0 ∧ walk (pm s) root va = 0) ∨
  ∃ base, 0 ≤ base ∧ base + 4096 ≤ 2 ^ 52 ∧ base `mod` 4096 = 0 ∧
    walk (pm s) root virt = base + Z.land virt 0xFFF ∧
    walk (pm s) root va = base + Z.land va 0xFFF.
Proof.
  intros Hok HP Heq. injection Heq as E4 E3 E2 E1.
  unfold walk. rewrite E4, E3, E2, E1.
  destruct (present (entry _ root _)) eqn:P4; simpl; [|by left].
  destruct (present (entry _ _ (pdpt_idx virt))) eqn:P3; simpl; [|by left].
  assert (huge (entry (pm s) (entry_phys (entry (pm s) root (pml4_idx virt))) (pdpt_idx virt)) = false)
    as ->.
  { assert (huge (entry (pm s) root (pml4_idx virt)) = false) as H4.
    { apply (ok_huge _ _ _ Hok [] _ root); [|simpl; lia|done|done].
      by split; [apply Forall_singleton, idx_range|]. }
    apply (ok_huge _ _ _ Hok [pml4_idx virt]); [|simpl; lia| |done].
    - split; [|done]. repeat apply Forall_cons_2; [apply idx_range..|]. by apply Forall_nil.
    - simpl. by rewrite P4, H4. }
  destruct (present (entry _ _ (pd_idx virt))) eqn:P2; simpl; [|by left].
  destruct (huge (entry _ _ (pd_idx virt))).
  - right. destruct (huge_base_spec (entry (pm s) (entry_phys (entry (pm s)
      (entry_phys (entry (pm s) root (pml4_idx virt))) (pdpt_idx virt))) (pd_idx virt)))
      as (B0 & B1 & Bm & ->).
    set (base := Z.land _ _) in *. pose proof (idx_range virt 12) as Hi. fold (pt_idx virt) in Hi.
    unfold idx_ok in Hi. rewrite !page_offset_split, E1.
    destruct (page_4k_bounds 0 virt) as (_ & _ & _ & ?), (page_4k_bounds 0 va) as (_ & _ & _ & ?).
    exists (base + pt_idx virt * 4096). rewrite !u64_small by word.
    split_and!; [lia..| |lia|lia]. rewrite Z.mod_add by lia.
    change (2 ^ 21) with (4096 * 512) in Bm. rewrite Z.rem_mul_r in Bm by lia.
    pose proof (Z.mod_pos_bound base 4096). pose proof (Z.mod_pos_bound (base / 4096) 512). lia.
  - destruct (present (entry _ _ (pt_idx virt))); simpl; [|by left]. right.
    destruct (page_4k_bounds (entry (pm s) (entry_phys (entry (pm s) (entry_phys (entry (pm s)
      (entry_phys (entry (pm s) root (pml4_idx virt))) (pdpt_idx virt))) (pd_idx virt)))
      (pt_idx virt)) virt) as (B0 & B1 & Bm & Hv).
    destruct (page_4k_bounds 0 va) as (_ & _ & _ & Hva).
    eexists. rewrite !u64_small by word. split_and!; [done..|lia|lia].
Qed.

(** An address none of whose tables is missing, down to its page directory. *)
Lemma walk_absent P root s va p t :
  tree_ok P root s → P (pml4_idx va) → table_at (pm s) root p = Some t →
  (∃ i, p ++ [i] `prefix_of` idx_path va ∧ present (entry (pm s) t i) = false) →
  walk (pm s) root va = 0.
Proof.
  intros Hok HP Ht (i & [r Hr] & Hpr). rewrite (walk_leaf_at P) by done.
  rewrite Hr, <-app_assoc. simpl. rewrite (leaf_at_app _ _ _ _ _ t) by done. cbn [leaf_at].
  by rewrite Hpr.
Qed.

Lemma unmap_full P virt s :
  let root := get_pml4 s in
  tree_ok P root s → P (pml4_idx virt) →
  match unmap virt s with
  | Ok s' => grows P root s s' ∧
      ∀ va, P (pml4_idx va) → walk (pm s') root va =
        if decide (idx_path va = idx_path virt) then 0 else walk (pm s) root va
  | Halt => True
  | _ => False
  end.
Proof using H0.
  intros root Hok HP. unfold unmap. fold root.
  destruct (idx_path_page_down_inv virt) as (-> & -> & -> & ->).
  pose proof (idx_path_ok P virt HP) as Hpath. unfold idx_path in Hpath.
  assert (ok_path P ([pml4_idx virt; pdpt_idx virt] ++ [pd_idx virt])) as Hp3.
  { eapply ok_path_prefix; [|exact Hpath]. do 2 apply prefix_cons. apply (prefix_cons _ []), prefix_nil. }
  assert (ok_path P ([pml4_idx virt] ++ [pdpt_idx virt])) as Hp2 by (by eapply (ok_path_snoc_l P [_; _])).
  assert (ok_path P ([] ++ [pml4_idx virt])) as Hp1 by (by eapply (ok_path_snoc_l P [_])).
  assert (∀ p t i, table_at (pm s) root p = Some t → p ++ [i] `prefix_of` idx_path virt →
    present (entry (pm s) t i) = false → ∀ va, P (pml4_idx va) →
    walk (pm s) root va = if decide (idx_path va = idx_path virt) then 0 else walk (pm s) root va) as Habs.
  { intros p t i Ht Hpre Hpr va Hva. case_decide as Hd; [|done].
    apply (walk_absent P _ _ _ p t); try done. exists i. by rewrite Hd. }
  destruct (present (entry (pm s) root (pml4_idx virt))) eqn:P4; cbn [negb]; cycle 1.
  { split; [by apply grows_refl|]. eapply (Habs []); [done| |done]. apply (prefix_cons _ []), prefix_nil. }
  assert (huge (entry (pm s) root (pml4_idx virt)) = false) as N4 by (by apply (ok_huge _ _ _ Hok [] _ _ Hp1 (Nat.le_0_l _))).
  set (t4 := entry_phys (entry (pm s) root (pml4_idx virt))).
  assert (table_at (pm s) root [pml4_idx virt] = Some t4) as T4 by (simpl; by rewrite P4, N4).
  destruct (present (entry (pm s) t4 (pdpt_idx virt))) eqn:P3; cbn [negb]; cycle 1.
  { split; [by apply grows_refl|]. eapply (Habs [_]); [done| |done].
    apply prefix_cons, (prefix_cons _ []), prefix_nil. }
  assert (huge (entry (pm s) t4 (pdpt_idx virt)) = false) as N3 by (by apply (ok_huge _ _ _ Hok [pml4_idx virt] _ _ Hp2 (le_n _))).
  set (t3 := entry_phys (entry (pm s) t4 (pdpt_idx virt))).
  assert (table_at (pm s) root [pml4_idx virt; pdpt_idx virt] = Some t3) as T3.
  { change [pml4_idx virt; pdpt_idx virt] with ([pml4_idx virt] ++ [pdpt_idx virt]).
    rewrite (table_at_snoc _ _ _ _ t4) by done. simpl. by rewrite P3, N3. }
  match goal with |- match ?m ≫= _ with _ => _ end =>
    assert (done_or_halt m) as [[s1 E1]|E1] end.
  { case_match; [apply split_huge_page_total|apply done_or_halt_Ok]. }
  2: by rewrite E1.
  rewrite E1. res_step.
  destruct (split_step P root s [pml4_idx virt; pdpt_idx virt] t3 (pd_idx virt) s1 Hok Hp3)
    as (G & W & N); [done..|].
  assert (table_at (pm s1) root [pml4_idx virt; pdpt_idx virt] = Some t3) as T3'.
  { apply (g_keep _ _ _ _ G); [by eapply ok_path_snoc_l|simpl; lia|done]. }
  destruct (present (entry (pm s1) t3 (pd_idx virt))) eqn:P2; cbn [negb]; cycle 1.
  { split; [done|]. intros va Hva. rewrite W by done. case_decide as Hd; [|done].
    rewrite <-W by done. apply (walk_absent P _ _ _ [pml4_idx virt; pdpt_idx virt] t3); [apply G|done|done|].
    exists (pd_idx virt). rewrite Hd. split; [|done].
    do 2 apply prefix_cons. apply (prefix_cons _ []), prefix_nil. }
  destruct (grows_leaf P root s1 [pml4_idx virt; pdpt_idx virt; pd_idx virt]
    (entry_phys (entry (pm s1) t3 (pd_idx virt))) (pt_idx virt) 0) as [G' W'].
  { apply G. } { done. } { done. }
  { change [pml4_idx virt; pdpt_idx virt; pd_idx virt]
      with ([pml4_idx virt; pdpt_idx virt] ++ [pd_idx virt]).
    rewrite (table_at_snoc _ _ _ _ t3) by done. simpl. by rewrite P2, N. }
  split; [by eapply grows_trans|]. intros va Hva. rewrite W' by done.
  change ([pml4_idx virt; pdpt_idx virt; pd_idx virt] ++ [pt_idx virt]) with (idx_path virt).
  case_decide; [done|by apply W].
Qed.

End tree.

(** ** Properties *)

Section properties.
Context {A : Type} `{FrameAllocLaws A}.

Lemma page_down_bounds phys : 0 ≤ phys < 2 ^ 52 →
  0 ≤ band_not phys 0xFFF ∧ band_not phys 0xFFF + 4096 ≤ 2 ^ 52 ∧ band_not phys 0xFFF `mod` 4096 = 0.
Proof.
  intros Hp. rewrite band_not_4095. pose proof (Z.div_mod phys 4096 ltac:(lia)) as Hd.
  pose proof (Z.mod_pos_bound phys 4096).
  assert (phys / 4096 < 2 ^ 40) by (apply Z.div_lt_upper_bound; lia).
  replace (phys - phys `mod` 4096) with (phys / 4096 * 4096) by lia.
  split_and!; [nia|lia|]. apply Z.mod_mul. lia.
Qed.

(** The translation of the page a present leaf maps. *)
Lemma leaf_translation phys flags va :
  0 ≤ phys < 2 ^ 52 → Z.land flags PHYS_MASK = 0 → Z.testbit flags 0 = true →
  present (Z.lor (band_not phys 0xFFF) flags) = true ∧
  u64 (entry_phys (Z.lor (band_not phys 0xFFF) flags) + Z.land va 0xFFF)
    = page_down phys + Z.land va 0xFFF.
Proof.
  intros Hp Hfl Hb. destruct (page_down_bounds phys Hp) as (? & ? & ?). split.
  - by rewrite present_testbit, Z.lor_spec, Hb, orb_true_r.
  - rewrite entry_phys_lor by (done || lia). change (page_down phys) with (band_not phys 0xFFF).
    destruct (page_4k_bounds 0 va) as (_ & _ & _ & ?). by rewrite u64_small by word.
Qed.

(** C3. [map_into] maps exactly the page asked for: afterwards every address of
    the page translates to the same offset in the frame, every other address
    below the tree's slots translates as before (a covering 2 MiB page is split,
    not lost), and the tables still form a tree. It stops the machine only when
    fewer than the three frames it may need for tables are free. *)
Theorem map_into_translation P root virt phys flags s :
  tree_ok P root s → P (pml4_idx virt) →
  0 ≤ phys < 2 ^ 52 → Z.land flags PHYS_MASK = 0 → Z.testbit flags 0 = true →
  match map_into root virt phys flags s with
  | Ok s' => tree_ok P root s' ∧
      ∀ va, P (pml4_idx va) → walk (pm s') root va =
        if decide (idx_path va = idx_path virt)
        then page_down phys + Z.land va 0xFFF else walk (pm s) root va
  | Halt => fewer 3 (fa s)
  | _ => False
  end.
Proof using H0.
  intros Hok HP Hp Hfl Hb. pose proof (map_into_costs root virt phys flags s) as Hc.
  destruct (map_into_total root virt phys flags s) as [[s' E]|E]; rewrite E in *; [|done].
  destruct (map_into_full P root virt phys flags s s' Hok HP E) as (G & W & _).
  split; [apply G|]. intros va Hva. rewrite W by done. case_decide; [|done].
  by destruct (leaf_translation phys flags va Hp Hfl Hb) as [-> ->].
Qed.

(** [map_into] grants what the leaf asks for: the page's own entry is exactly
    the frame and the flags, and every table entry above it allows writes, and
    user access when the flags do. *)
Theorem map_into_grants P root virt phys flags s s' :
  tree_ok P root s → P (pml4_idx virt) → map_into root virt phys flags s = Ok s' →
  ∃ t4 t3 t2, table_at (pm s') root [pml4_idx virt] = Some t4 ∧
    table_at (pm s') root [pml4_idx virt; pdpt_idx virt] = Some t3 ∧
    table_at (pm s') root [pml4_idx virt; pdpt_idx virt; pd_idx virt] = Some t2 ∧
    entry (pm s') t2 (pt_idx virt) = u64 (Z.lor (page_down phys) flags) ∧
    ∀ e, e ∈ [entry (pm s') root (pml4_idx virt); entry (pm s') t4 (pdpt_idx virt);
               entry (pm s') t3 (pd_idx virt)] →
      Z.testbit e 1 = true ∧ (Z.testbit flags 2 = true → Z.testbit e 2 = true).
Proof using H0.
  intros Hok HP E. destruct (map_into_full P root virt phys flags s s' Hok HP E)
    as (_ & _ & t4 & t3 & t2 & T4 & T3 & T2 & He & Hb).
  exists t4, t3, t2. split_and!; try done. intros e Hin.
  destruct (link_flags_spec flags) as (_ & F1 & F2).
  destruct (Hb 1) as (? & ? & ?); [by left|done|].
  rewrite !elem_of_cons in Hin. destruct Hin as [->|[->|[->|Hin]]]; [split; [done|intros Hu]..|by apply not_elem_of_nil in Hin];
    by destruct (Hb 2) as (? & ? & ?); [right|apply F2|].
Qed.

(** C4. Mapping a page in one address space leaves every other one alone: memory
    in use outside the space's own tables keeps its contents, and a tree that
    shares no table with it keeps its shape and every translation. *)
Theorem map_into_isolation P root virt phys flags s s' P' root' :
  tree_ok P root s → P (pml4_idx virt) → tree_ok P' root' s →
  (∀ q q' t t', ok_path P q → ok_path P' q' → (length q ≤ 3)%nat → (length q' ≤ 3)%nat →
     table_at (pm s) root q = Some t → table_at (pm s) root' q' = Some t' → frame_of t ≠ frame_of t') →
  map_into root virt phys flags s = Ok s' →
  (∀ x, fa_used (fa s) (frame_of x) = true →
     (∀ q t, ok_path P q → (length q ≤ 3)%nat → table_at (pm s) root q = Some t → frame_of t ≠ frame_of x) →
     pm s' x = pm s x) ∧
  tree_ok P' root' s' ∧
  ∀ va, P' (pml4_idx va) → walk (pm s') root' va = walk (pm s) root' va.
Proof using H0.
  intros Hok HP Hok' Hdisj E.
  destruct (map_into_full P root virt phys flags s s' Hok HP E) as (G & _).
  assert (∀ q i t, ok_path P' (q ++ [i]) → (length q ≤ 3)%nat → table_at (pm s) root' q = Some t →
    entry (pm s') t i = entry (pm s) t i) as Hent.
  { intros q i t Hq Hl Ht.
    destruct (ok_table _ _ _ Hok' q t) as [Hf Hu]; [by eapply ok_path_snoc_l|done..|].
    apply entry_mem_ext; [done|by eapply ok_path_last|]. intros x Hx.
    apply (g_mem _ _ _ _ G); [by rewrite Hx|]. intros q0 t0 Hq0 Hl0 Ht0. rewrite Hx.
    by eapply (Hdisj q0 q); [|eapply ok_path_snoc_l| | | |]. }
  destruct (tree_same P' root' s s') as (Hok2 & HL & _); [done| |by apply (g_used _ _ _ _ G)|].
  { intros q i t Hq Hl Ht. by rewrite (Hent q). }
  split_and!; [by apply (g_mem _ _ _ _ G)|done|]. by apply same_leaves_walk.
Qed.

(** C5. [unmap] removes exactly one page: afterwards every address of the page is
    unmapped and every other address translates as before. *)
Theorem unmap_translation P virt s :
  let root := get_pml4 s in
  tree_ok P root s → P (pml4_idx virt) →
  match unmap virt s with
  | Ok s' => tree_ok P root s' ∧ cr3 s' = cr3 s ∧
      ∀ va, P (pml4_idx va) → walk (pm s') root va =
        if decide (idx_path va = idx_path virt) then 0 else walk (pm s) root va
  | Halt => True
  | _ => False
  end.
Proof using H0.
  intros root Hok HP. pose proof (unmap_full P virt s Hok HP) as U. fold root in U.
  destruct (unmap virt s) as [s'| | |]; try done. destruct U as [G W].
  split_and!; [apply G|apply (g_regs _ _ _ _ G)|done].
Qed.

(** [protect] changes permissions only: no address translates differently
    afterwards, and an unmapped address stays unmapped. *)
Theorem protect_keeps_translation P virt flags s :
  let root := get_pml4 s in
  tree_ok P root s → P (pml4_idx virt) →
  Z.land flags PHYS_MASK = 0 → Z.testbit flags 0 = true →
  match protect virt flags s with
  | Ok s' => tree_ok P root s' ∧
      ∀ va, P (pml4_idx va) → walk (pm s') root va = walk (pm s) root va
  | Halt => True
  | _ => False
  end.
Proof using H0.
  intros root Hok HP Hfl Hb. unfold protect, virt_to_phys, map. fold root.
  destruct (Z.eqb_spec (walk (pm s) root virt) 0) as [Hz|Hnz]; [done|].
  set (phys := walk (pm s) root virt) in *.
  destruct (map_into_total root virt phys flags s) as [[s' E]|E]; rewrite E; [|done].
  destruct (map_into_full P root virt phys flags s s' Hok HP E) as (G & W & _).
  split; [apply G|]. intros va Hva. rewrite W by done. case_decide as Hd; [|done].
  destruct (walk_page P root s virt va Hok HP Hd) as [[? _]|(base & B0 & B1 & Bm & Hv & ->)]; [done|].
  fold phys in Hv. destruct (page_4k_bounds 0 virt) as (_ & _ & _ & Ho).
  destruct (leaf_translation phys flags va ltac:(lia) Hfl Hb) as [-> ->].
  rewrite page_down_eq, Hv, Z.add_mod, Bm, Z.add_0_l by lia.
  rewrite Z.mod_mod, (Z.mod_small (Z.land virt 0xFFF)) by lia. lia.
Qed.

End properties.

(** ** Concrete runs *)

(** Blank memory with a zeroed PML4 at 4 KiB; frames 261 to 263 are free. *)
Definition blank : Vmm Pmm.Pmm := MkVmm (λ _, 0) (MkPmm {[ 32 := 0x1F ]} 3 0) 0x1000 0.

Lemma blank_tables root q t : table_at (pm blank) root q = Some t → q = [] ∧ t = root.
Proof. destruct q as [|i q]; simpl; intros H; by simplify_eq. Qed.

Lemma blank_tree_ok root : (root = 0x1000 ∨ root = 0x2000) → tree_ok (λ _, True) root blank.
Proof.
  intros Hroot. split.
  - intros q t _ _ [-> ->]%blank_tables.
    destruct Hroot as [->| ->]; (split; [|vm_compute; reflexivity]); [exists 1|exists 2];
      unfold NUM_FRAMES; (split; [reflexivity|lia]).
  - by intros p q t _ _ _ _ [-> _]%blank_tables [-> _]%blank_tables.
  - intros p i t _ _ _ Hpr. vm_compute in Hpr. discriminate Hpr.
Qed.

Lemma map_into_blank_ok : is_ok (map_into 0x1000 0x400123 0x5000 7 blank) = true.
Proof. vm_compute. reflexivity. Qed.

Lemma map_into_translation_witness :
  ∃ s', map_into 0x1000 0x400123 0x5000 7 blank = Ok s' ∧ walk (pm s') 0x1000 0x400FFF = 0x5FFF.
Proof.
  pose proof (map_into_translation (λ _, True) 0x1000 0x400123 0x5000 7 blank
    (blank_tree_ok _ (or_introl eq_refl)) I ltac:(lia) eq_refl eq_refl) as T.
  destruct (is_ok_inv _ map_into_blank_ok) as [s' E]. rewrite E in T. exists s'.
  split; [exact E|]. destruct T as [_ T]. rewrite (T 0x400FFF I). reflexivity.
Defined.

Lemma map_into_grants_witness :
  ∃ s' t2, map_into 0x1000 0x400123 0x5000 7 blank = Ok s' ∧ entry (pm s') t2 0 = 0x5007.
Proof.
  destruct (is_ok_inv _ map_into_blank_ok) as [s' E].
  destruct (map_into_grants (λ _, True) 0x1000 0x400123 0x5000 7 blank s'
    (blank_tree_ok _ (or_introl eq_refl)) I E) as (t4 & t3 & t2 & _ & _ & _ & He & _).
  exists s', t2. split; [exact E|]. exact He.
Defined.

Lemma map_into_isolation_witness :
  ∃ s', map_into 0x1000 0x400123 0x5000 7 blank = Ok s' ∧ walk (pm s') 0x2000 0x400FFF = 0.
Proof.
  destruct (is_ok_inv _ map_into_blank_ok) as [s' E].
  destruct (map_into_isolation (λ _, True) 0x1000 0x400123 0x5000 7 blank s' (λ _, True) 0x2000)
    as (_ & _ & W).
  - apply blank_tree_ok. by left.
  - exact I.
  - apply blank_tree_ok. by right.
  - intros q q' t t' _ _ _ _ [_ ->]%blank_tables [_ ->]%blank_tables Hf.
    vm_compute in Hf. discriminate Hf.
  - exact E.
  - exists s'. split; [exact E|]. rewrite (W 0x400FFF I). reflexivity.
Defined.

(** The state after one mapping, for the operations that need a mapped page. *)
Lemma mapped_state (f : Vmm Pmm.Pmm → Res (Vmm Pmm.Pmm)) :
  is_ok (map_into 0x1000 0x400123 0x5000 7 blank ≫= f) = true →
  ∃ s s', f s = Ok s' ∧ tree_ok (λ _, True) 0x1000 s ∧ cr3 s = 0x1000 ∧
    walk (pm s) 0x1000 0x400123 = 0x5123.
Proof.
  destruct (is_ok_inv _ map_into_blank_ok) as [s E]. rewrite E. res_step. intros Hf.
  destruct (is_ok_inv _ Hf) as [s' E']. exists s, s'.
  destruct (map_into_full (λ _, True) 0x1000 0x400123 0x5000 7 blank s
    (blank_tree_ok _ (or_introl eq_refl)) I E) as (G & W & _).
  split_and!; [done|apply G|by destruct (g_regs _ _ _ _ G) as [-> _]|].
  rewrite (W 0x400123 I). reflexivity.
Qed.

Lemma unmap_translation_witness :
  ∃ s s', unmap 0x400123 s = Ok s' ∧ walk (pm s) 0x1000 0x400123 = 0x5123 ∧
    walk (pm s') 0x1000 0x400123 = 0.
Proof.
  destruct (mapped_state (unmap 0x400123)) as (s & s' & E & Hok & Hc & Hw);
    [vm_compute; reflexivity|].
  assert (get_pml4 s = 0x1000) as Hr by (unfold get_pml4; rewrite Hc; reflexivity).
  pose proof (unmap_translation (λ _, True) 0x400123 s) as T. rewrite E, Hr in T.
  destruct (T Hok I) as (_ & _ & T'). exists s, s'.
  split; [exact E|]. split; [exact Hw|]. rewrite (T' 0x400123 I). reflexivity.
Defined.

Lemma protect_keeps_translation_witness :
  ∃ s s', protect 0x400123 5 s = Ok s' ∧ walk (pm s') 0x1000 0x400123 = 0x5123.
Proof.
  destruct (mapped_state (protect 0x400123 5)) as (s & s' & E & Hok & Hc & Hw);
    [vm_compute; reflexivity|].
  assert (get_pml4 s = 0x1000) as Hr by (unfold get_pml4; rewrite Hc; reflexivity).
  pose proof (protect_keeps_translation (λ _, True) 0x400123 5 s) as T. rewrite E, Hr in T.
  destruct (T Hok I eq_refl eq_refl) as (_ & T'). exists s, s'.
  split; [exact E|]. rewrite (T' 0x400123 I). exact Hw.
Defined.
