(* ===== verification/Heap.v ===== *)
(** * The kernel heap ([mem/heap.cpp])

    An explicit free list threaded through boundary-tagged blocks that tile the
    heap's virtual range from [HEAP_START] to [heap_end].  [hmem] is that range as
    the kernel sees it, through its virtual addresses; growing it takes frames and
    maps them with [Vmm.map].  The bytes of a fresh page are whatever the frame
    held. *)

From S2P Require Import Prelude Frames Mem Vmm PageTable.

Definition HEAP_START : Z := HEAP_VIRT_BASE.
Definition HEAP_MAX : Z := HEAP_VIRT_BASE + 0xFFFFFFFF.
Definition ALIGNMENT : Z := 8.

(** The sizes of [Block] and [Footer] (a pointer takes 8); in both structs
    [size] is at offset 0 and [free] at offset 8. *)
Definition SIZEOF_BLOCK : Z := 16.
Definition SIZEOF_FOOTER : Z := 16.
Definition MIN_BLOCK : Z := SIZEOF_BLOCK + 8 + SIZEOF_FOOTER.

Definition get_size (m : mem) (b : Z) : Z := load64 m b.
Definition put_size (m : mem) (b v : Z) : mem := store64 m b v.
Definition get_free (m : mem) (b : Z) : bool := negb (m (b + 8) =? 0).
Definition put_free (m : mem) (b : Z) (v : bool) : mem := store 1 m (b + 8) (Z.b2z v).

Definition block_from_data (data : Z) : Z := data - SIZEOF_BLOCK.
Definition data_from_block (b : Z) : Z := b + SIZEOF_BLOCK.
Definition footer_of_block (m : mem) (b : Z) : Z := b + get_size m b - SIZEOF_FOOTER.
Definition next_block (m : mem) (b : Z) : Z := b + get_size m b.

(** 0 for the null pointer. *)
Definition prev_block (m : mem) (b : Z) : Z :=
  if b - SIZEOF_FOOTER <? HEAP_START then 0 else
  let prev_size := get_size m (b - SIZEOF_FOOTER) in
  if b - prev_size <? HEAP_START then 0 else b - prev_size.

Definition set_next_ptr (m : mem) (b n : Z) : mem := store64 m (b + SIZEOF_BLOCK) n.
Definition get_next (m : mem) (b : Z) : Z := load64 m (b + SIZEOF_BLOCK).

(** [footer_of_block(b)->size = b->size; footer_of_block(b)->free = f]. *)
Definition write_footer (m : mem) (b : Z) (f : bool) : mem :=
  let m := put_size m (footer_of_block m b) (get_size m b) in
  put_free m (footer_of_block m b) f.

Section heap.
Context {A : Type} `{FrameAlloc A}.

Record Heap := MkHeap {
  hmem : mem;
  free_list : Z;
  heap_end : Z;
  vm : Vmm A;
}.

Definition with_hmem (m : mem) (h : Heap) : Heap := MkHeap m (free_list h) (heap_end h) (vm h).
Definition with_list (p : Z) (h : Heap) : Heap := MkHeap (hmem h) p (heap_end h) (vm h).

Definition add_block_to_free_list (b : Z) (h : Heap) : Heap :=
  let m := put_free (hmem h) b true in
  with_list b (with_hmem (set_next_ptr m b (free_list h)) h).

Definition remove_block_from_free_list (b prev : Z) (h : Heap) : Heap :=
  if negb (prev =? 0) then with_hmem (set_next_ptr (hmem h) prev (get_next (hmem h) b)) h
  else with_list (get_next (hmem h) b) h.

(** A walk of the free list visits each block once; blocks are at least
    [MIN_BLOCK] bytes. *)
Definition list_fuel (h : Heap) : nat := Z.to_nat ((heap_end h - HEAP_START) / MIN_BLOCK + 2).

(** [for (curr = free_list; curr; prev = curr, curr = get_next(curr))
       if (curr == target) { remove; break; }]. *)
Fixpoint remove_loop (fuel : nat) (curr prev target : Z) (h : Heap) : Res Heap :=
  match fuel with
  | O => NoFuel
  | S fuel =>
      if curr =? 0 then Ok h
      else if curr =? target then Ok (remove_block_from_free_list curr prev h)
      else remove_loop fuel (get_next (hmem h) curr) curr target h
  end.

Definition coalesce_next (b : Z) (h : Heap) : Res Heap :=
  let nxt := next_block (hmem h) b in
  if (nxt <? heap_end h) && get_free (hmem h) nxt then
    h ← remove_loop (list_fuel h) (free_list h) 0 nxt h;
    let m := put_size (hmem h) b (u64 (get_size (hmem h) b + get_size (hmem h) nxt)) in
    Ok (with_hmem (write_footer m b true) h)
  else Ok h.

(** The block after merging backwards. *)
Definition coalesce_prev (b : Z) (h : Heap) : Res (Heap * Z) :=
  let prev := prev_block (hmem h) b in
  if negb (prev =? 0) && get_free (hmem h) prev then
    h ← remove_loop (list_fuel h) (free_list h) 0 prev h;
    let m := put_size (hmem h) prev (u64 (get_size (hmem h) prev + get_size (hmem h) b)) in
    Ok (with_hmem (write_footer m prev true) h, prev)
  else Ok (h, b).

Definition coalesce (b : Z) (h : Heap) : Res Heap :=
  h ← coalesce_next b h;
  '(h, b) ← coalesce_prev b h;
  Ok (add_block_to_free_list b h).

(** One page of [grow_heap]: a frame, mapped read-write. *)
Definition grow_page (virt i : Z) (v : Vmm A) : Res (Vmm A) :=
  '(v, phys) ← alloc v;
  if phys =? 0 then Halt else map (virt + i * PAGE_SIZE) phys KERNEL_RW v.

Definition grow_heap (pages : Z) (h : Heap) : Res Heap :=
  let virt := heap_end h in
  if HEAP_MAX <? u64 (virt + u64 (pages * PAGE_SIZE)) then Halt else
  v ← iter_upM (Z.to_nat pages) 0 1 (grow_page virt) (vm h);
  let sz := u64 (pages * PAGE_SIZE) in
  let m := put_free (put_size (hmem h) virt sz) virt true in
  coalesce virt (MkHeap (write_footer m virt true) (free_list h) (virt + sz) v).

(** [total] of [allocate_block]. *)
Definition total_size (size : Z) : Z :=
  let total := u64 (size + SIZEOF_BLOCK + SIZEOF_FOOTER) in
  let total := band_not (u64 (total + ALIGNMENT - 1)) (ALIGNMENT - 1) in
  if total <? MIN_BLOCK then MIN_BLOCK else total.

(** Taking the suitable block [curr]: unlink, split off what is left over, mark. *)
Definition take_block (curr prev total : Z) (h : Heap) : Heap :=
  let h := remove_block_from_free_list curr prev h in
  let remaining := get_size (hmem h) curr - total in
  let h :=
    if MIN_BLOCK <=? remaining then
      let nb := curr + total in
      let m := put_free (put_size (hmem h) nb remaining) nb true in
      let h := add_block_to_free_list nb (with_hmem (write_footer m nb true) h) in
      let m := put_size (hmem h) curr total in
      with_hmem (put_size m (footer_of_block m curr) total) h
    else h in
  let m := put_free (hmem h) curr false in
  with_hmem (put_free m (footer_of_block m curr) false) h.

Fixpoint allocate_loop (fuel : nat) (curr prev total : Z) (h : Heap) : Res (Heap * Z) :=
  match fuel with
  | O => NoFuel
  | S fuel =>
      if curr =? 0 then Ok (h, 0)
      else if total <=? get_size (hmem h) curr then Ok (take_block curr prev total h, curr)
      else allocate_loop fuel (get_next (hmem h) curr) curr total h
  end.

Definition allocate_block (size : Z) (h : Heap) : Res (Heap * Z) :=
  allocate_loop (list_fuel h) (free_list h) 0 (total_size size) h.

(** [heap::init], from a heap with no pages. *)
Definition init (h : Heap) : Res Heap := grow_heap 256 h.

Definition kmalloc (size : Z) (h : Heap) : Res (Heap * Z) :=
  if size =? 0 then Ok (h, 0) else
  '(h, b) ← allocate_block size h;
  if negb (b =? 0) then Ok (h, data_from_block b) else
  let total_needed := u64 (size + SIZEOF_BLOCK + SIZEOF_FOOTER) in
  let pages_needed := u64 (total_needed + PAGE_SIZE - 1) / PAGE_SIZE in
  h ← grow_heap (if 4 <? pages_needed then pages_needed else 4) h;
  '(h, b) ← allocate_block size h;
  if b =? 0 then Halt else Ok (h, data_from_block b).

Definition kfree (ptr : Z) (h : Heap) : Res Heap :=
  if ptr =? 0 then Ok h else
  let b := block_from_data ptr in
  if get_free (hmem h) b then Ok h else
  let m := put_free (hmem h) b true in
  coalesce b (with_hmem (put_free m (footer_of_block m b) true) h).

End heap.

Arguments Heap A : clear implicits.
