(* ===== verification/HeapTiles.v ===== *)
(** * The structure of the heap

    The blocks of the heap as a list that tiles its range, the free list as a
    list of block addresses, and how writes to headers, footers and links affect
    them. *)

From S2P Require Import Prelude Frames Mem Vmm PageTable Heap.

(** ** Tilings *)

(** A block's size and whether it is free. *)
Definition blk : Type := Z * bool.

Definition span (l : list blk) : Z := foldr (λ b n, b.1 + n) 0 l.

Definition size_ok (sz : Z) : Prop := MIN_BLOCK ≤ sz ∧ sz `mod` ALIGNMENT = 0 ∧ sz < 2 ^ 63.

(** A block with consistent header and footer. *)
Definition block_at (m : mem) (a sz : Z) (f : bool) : Prop :=
  get_size m a = sz ∧ get_free m a = f ∧
  get_size m (a + sz - SIZEOF_FOOTER) = sz ∧ get_free m (a + sz - SIZEOF_FOOTER) = f.

Fixpoint tiles (m : mem) (a : Z) (l : list blk) (e : Z) : Prop :=
  match l with
  | [] => a = e
  | (sz, f) :: l => size_ok sz ∧ block_at m a sz f ∧ tiles m (a + sz) l e
  end.

(** Block [(sz, f)] of the tiling [l] from [a] is at [p]. *)
Definition at_block (a : Z) (l : list blk) (p sz : Z) (f : bool) : Prop :=
  ∃ l1 l2, l = l1 ++ (sz, f) :: l2 ∧ p = a + span l1.

Lemma span_app l1 l2 : span (l1 ++ l2) = span l1 + span l2.
Proof. induction l1 as [|[sz f] l1 IH]; simpl; [done|]. rewrite IH. lia. Qed.

Lemma span_cons sz f l : span ((sz, f) :: l) = sz + span l.
Proof. done. Qed.

Lemma tiles_app m a l1 l2 e :
  tiles m a (l1 ++ l2) e ↔ tiles m a l1 (a + span l1) ∧ tiles m (a + span l1) l2 e.
Proof.
  revert a. induction l1 as [|[sz f] l1 IH]; intros a; simpl.
  - rewrite Z.add_0_r. naive_solver.
  - rewrite IH, Z.add_assoc. tauto.
Qed.

Lemma tiles_span m a l e : tiles m a l e → e = a + span l ∧ 0 ≤ span l.
Proof.
  revert a. induction l as [|[sz f] l IH]; intros a; simpl; [lia|].
  intros ((? & _) & _ & Ht). apply IH in Ht. unfold MIN_BLOCK, SIZEOF_BLOCK, SIZEOF_FOOTER in *. lia.
Qed.

Lemma tiles_end m a l e e' : tiles m a l e → e = e' → tiles m a l e'.
Proof. by intros ? <-. Qed.

(** The bytes a block's header and footer occupy. *)
Definition tag_byte (a sz x : Z) : Prop :=
  a ≤ x < a + 9 ∨ a + sz - SIZEOF_FOOTER ≤ x < a + sz - SIZEOF_FOOTER + 9.

Lemma block_at_ext m m' a sz f :
  (∀ x, tag_byte a sz x → m' x = m x) → block_at m a sz f → block_at m' a sz f.
Proof.
  intros Hx. unfold block_at, get_size, get_free, load64. unfold tag_byte in Hx.
  rewrite (load_ext 8 m' m a), (load_ext 8 m' m (a + sz - SIZEOF_FOOTER)), !Hx; [done|..];
    try (intros x ?; apply Hx); lia.
Qed.

Lemma tiles_ext m m' a l e :
  (∀ p sz f x, at_block a l p sz f → tag_byte p sz x → m' x = m x) → tiles m a l e → tiles m' a l e.
Proof.
  revert a. induction l as [|[sz f] l IH]; intros a Hx; simpl; [done|].
  intros (Hsz & Hb & Ht). split_and!; [done| |].
  - eapply block_at_ext; [|done]. intros x Hx'. eapply (Hx a sz f); [|done].
    exists [], l. split; [done|]. simpl. lia.
  - apply IH; [|done]. intros p sz' f' x (l1 & l2 & -> & ->) Hx'.
    apply (Hx (a + sz + span l1) sz' f'); [|done].
    exists ((sz, f) :: l1), l2. split; [done|]. simpl. lia.
Qed.

Lemma at_block_size m a l e p sz f : tiles m a l e → at_block a l p sz f → size_ok sz.
Proof.
  intros Ht (l1 & l2 & -> & ->). apply tiles_app in Ht as [_ Ht]. simpl in Ht. naive_solver.
Qed.

Lemma at_block_bounds m a l e p sz f :
  tiles m a l e → at_block a l p sz f → a ≤ p ∧ p + sz ≤ e.
Proof.
  intros Ht (l1 & l2 & -> & ->). apply tiles_app in Ht as [Ht1 Ht2].
  apply tiles_span in Ht1 as [_ ?]. simpl in Ht2. destruct Ht2 as (_ & _ & Ht2).
  apply tiles_span in Ht2 as [-> ?]. lia.
Qed.

Lemma at_block_mem m a l e p sz f : tiles m a l e → at_block a l p sz f → block_at m p sz f.
Proof.
  intros Ht (l1 & l2 & -> & ->). apply tiles_app in Ht as [_ Ht]. simpl in Ht. naive_solver.
Qed.

Lemma at_block_cons a sz f l p sz' f' :
  at_block a ((sz, f) :: l) p sz' f' ↔ (p = a ∧ sz' = sz ∧ f' = f) ∨ at_block (a + sz) l p sz' f'.
Proof.
  split.
  - intros ([|b l1] & l2 & E & ->); simpl in E; simplify_eq.
    + left. simpl. split_and!; [lia|done..].
    + right. exists l1, l2. split; [done|]. simpl. lia.
  - intros [(-> & -> & ->)|(l1 & l2 & -> & ->)].
    + exists [], l. split; [done|]. simpl. lia.
    + exists ((sz, f) :: l1), l2. split; [done|]. simpl. lia.
Qed.

Lemma at_block_app a l1 l2 p sz f :
  at_block a (l1 ++ l2) p sz f ↔ at_block a l1 p sz f ∨ at_block (a + span l1) l2 p sz f.
Proof.
  revert a. induction l1 as [|[s g] l1 IH]; intros a; simpl.
  - rewrite Z.add_0_r. split; [by right|]. intros [(k1 & k2 & E & _)|?]; [by destruct k1|done].
  - rewrite !at_block_cons, IH, Z.add_assoc. tauto.
Qed.

Lemma at_block_nil a p sz f : ¬ at_block a [] p sz f.
Proof. intros (k1 & k2 & E & _). by destruct k1. Qed.

(** Two blocks are the same or do not overlap. *)
Lemma at_block_disjoint m a l e p sz f q sz' f' :
  tiles m a l e → at_block a l p sz f → at_block a l q sz' f' →
  (p = q ∧ sz = sz' ∧ f = f') ∨ p + sz ≤ q ∨ q + sz' ≤ p.
Proof.
  revert a. induction l as [|[s g] l IH]; intros a Ht Hp Hq; [by apply at_block_nil in Hp|].
  simpl in Ht. destruct Ht as (_ & _ & Ht). apply at_block_cons in Hp, Hq.
  destruct Hp as [(-> & -> & ->)|Hp], Hq as [(-> & -> & ->)|Hq]; [by left|..].
  - right. left. apply (at_block_bounds _ _ _ _ _ _ _ Ht Hq).
  - right. right. apply (at_block_bounds _ _ _ _ _ _ _ Ht Hp).
  - by eapply IH.
Qed.

Lemma at_block_fun m a l e p sz f sz' f' :
  tiles m a l e → at_block a l p sz f → at_block a l p sz' f' → sz = sz' ∧ f = f'.
Proof.
  intros Ht H1 H2. pose proof (at_block_size _ _ _ _ _ _ _ Ht H1) as [? _].
  pose proof (at_block_size _ _ _ _ _ _ _ Ht H2) as [? _].
  unfold MIN_BLOCK, SIZEOF_BLOCK, SIZEOF_FOOTER in *.
  destruct (at_block_disjoint _ _ _ _ _ _ _ _ _ _ Ht H1 H2) as [(_ & ? & ?)|[?|?]]; [done|lia..].
Qed.

(** ** The free list *)

Fixpoint flist (m : mem) (p : Z) (fl : list Z) : Prop :=
  match fl with
  | [] => p = 0
  | b :: fl => p = b ∧ b ≠ 0 ∧ flist m (get_next m b) fl
  end.

Definition link_byte (b x : Z) : Prop := b + SIZEOF_BLOCK ≤ x < b + SIZEOF_BLOCK + 8.

Lemma flist_ext m m' p fl :
  (∀ b x, b ∈ fl → link_byte b x → m' x = m x) → flist m p fl → flist m' p fl.
Proof.
  revert p. induction fl as [|b fl IH]; intros p Hx; simpl; [done|]. intros (-> & Hb & Hf).
  split_and!; [done..|]. unfold get_next, load64 in *.
  rewrite (load_ext 8 m' m (b + SIZEOF_BLOCK)).
  - apply IH; [|done]. intros c x Hc. by apply Hx, list_elem_of_further.
  - intros x ?. apply (Hx b); [apply list_elem_of_here|done].
Qed.

(** Blocks far enough apart that one's link is outside the other. *)
Definition spread (l : list Z) : Prop :=
  ∀ b c, b ∈ l → c ∈ l → b ≠ c → b + MIN_BLOCK ≤ c ∨ c + MIN_BLOCK ≤ b.

Lemma spread_sub l l' : (∀ b, b ∈ l' → b ∈ l) → spread l → spread l'.
Proof. intros Hs Hsp b c Hb Hc. apply Hsp; by apply Hs. Qed.

Lemma get_next_set m b n : is_u64 n → get_next (set_next_ptr m b n) b = n.
Proof. intros Hn. unfold get_next, set_next_ptr. by apply load64_store64_same. Qed.

Lemma set_next_other m b n x : ¬ link_byte b x → set_next_ptr m b n x = m x.
Proof. intros Hx. unfold set_next_ptr, store64. apply store_other. unfold link_byte in Hx. lia. Qed.

(** The loop that unlinks [target]: [l1] are the blocks before it. *)
Section remove.
Context {A : Type} `{FrameAlloc A}.
Implicit Type h : Heap A.

Lemma remove_loop_spec h fl1 target fl2 fuel curr prev done_ :
  flist (hmem h) curr (fl1 ++ target :: fl2) → target ∉ fl1 → (length fl1 < fuel)%nat →
  prev = default 0 (last done_) →
  remove_loop fuel curr prev target h =
    Ok (remove_block_from_free_list target (default 0 (last (done_ ++ fl1))) h).
Proof.
  revert fuel curr prev done_. induction fl1 as [|b fl1 IH]; intros fuel curr prev done_ Hf Hn Hlen Hp;
    (destruct fuel as [|fuel]; [simpl in Hlen; lia|]); simpl in Hf; destruct Hf as (-> & Hb & Hf); cbn [remove_loop].
  - rewrite (proj2 (Z.eqb_neq _ _) Hb), Z.eqb_refl, app_nil_r. by rewrite Hp.
  - apply not_elem_of_cons in Hn as [Hne Hn]. rewrite (proj2 (Z.eqb_neq _ _) Hb).
    rewrite (proj2 (Z.eqb_neq b target)) by done.
    rewrite (IH fuel _ b (done_ ++ [b])); [by rewrite <-app_assoc|done|done|simpl in Hlen; lia|].
    by rewrite last_snoc.
Qed.

(** What unlinking leaves: the list without [target]; only links of listed blocks
    are written. *)
Lemma unlink_list_spec h fl target :
  flist (hmem h) (free_list h) fl → NoDup fl → spread fl → target ∈ fl →
  (∀ b, b ∈ fl → is_u64 b) → (length fl < list_fuel h)%nat →
  ∃ h', remove_loop (list_fuel h) (free_list h) 0 target h = Ok h' ∧
    flist (hmem h') (free_list h') (filter (λ b, b ≠ target) fl) ∧
    (∀ x, (∀ b, b ∈ fl → b ≠ target → ¬ link_byte b x) → hmem h' x = hmem h x) ∧
    heap_end h' = heap_end h ∧ vm h' = vm h.
Proof.
  intros Hf Hnd Hsp Ht Hu Hfuel. apply list_elem_of_split in Ht as (fl1 & fl2 & ->).
  assert (target ∉ fl1 ∧ target ∉ fl2) as [Hn1 Hn2].
  { apply NoDup_app in Hnd as (_ & Hd & Hnd). apply NoDup_cons in Hnd as [? _]. split; [|done].
    intros Hin. apply (Hd target Hin), list_elem_of_here. }
  rewrite (remove_loop_spec h fl1 target fl2 _ _ 0 []); [|done|done|rewrite length_app in Hfuel; lia|done].
  rewrite app_nil_l. eexists. split; [done|].
  assert (filter (λ b, b ≠ target) (fl1 ++ target :: fl2) = fl1 ++ fl2) as ->.
  { rewrite filter_app, filter_cons, decide_False by naive_solver.
    rewrite !filter_id; [done|by intros x Hx ->..]. }
  assert (∀ p l, flist (hmem h) p (l ++ target :: fl2) → flist (hmem h) target (target :: fl2)) as Hsuf.
  { intros p l. revert p. induction l as [|b l IH]; intros p; simpl; [intros (-> & ? & ?); done|].
    intros (_ & _ & Hl). by apply IH in Hl. }
  pose proof (Hsuf _ _ Hf) as (_ & Ht0 & Hf2).
  unfold remove_block_from_free_list. destruct fl1 as [|b0 fl1'] using rev_ind.
  { simpl in Hf |- *. destruct Hf as (Hfe & _ & Hf). done. }
  clear IHfl1'. rewrite last_snoc. simpl default.
  assert (b0 ∈ (fl1' ++ [b0]) ++ target :: fl2) as Hb0 by (rewrite !elem_of_app, elem_of_cons; set_solver).
  assert (b0 ≠ 0) as Hb0z.
  { clear -Hf. revert Hf. generalize (free_list h). induction fl1' as [|c l IH]; intros p; simpl.
    - by intros (-> & ? & _).
    - intros (_ & _ & Hl). by apply IH in Hl. }
  rewrite (proj2 (Z.eqb_neq _ _) Hb0z). simpl.
  assert (b0 ≠ target) as Hbt by (intros ->; apply Hn1; set_solver).
  split_and!; try done.
  - assert (∀ p l, NoDup ((l ++ [b0]) ++ target :: fl2) → (∀ c, c ∈ (l ++ [b0]) ++ target :: fl2 → c ∈ (fl1' ++ [b0]) ++ target :: fl2) →
      flist (hmem h) p ((l ++ [b0]) ++ target :: fl2) →
      flist (set_next_ptr (hmem h) b0 (get_next (hmem h) target)) p ((l ++ [b0]) ++ fl2)) as Hgen.
    { intros p l. revert p. induction l as [|c l IH]; intros p Hndl Hsub Hl; simpl in Hl |- *.
      - destruct Hl as (-> & ? & Hnx). split_and!; [done..|]. destruct Hnx as (_ & _ & Hnx).
        rewrite get_next_set.
        + eapply flist_ext; [|exact Hnx]. intros c x Hc Hx. apply set_next_other.
          simpl in Hndl. apply NoDup_cons in Hndl as [Hb _].
          destruct (Hsp b0 c) as [?|?]; [done|set_solver|intros ->; set_solver|..];
            unfold link_byte, MIN_BLOCK, SIZEOF_BLOCK, SIZEOF_FOOTER in *; lia.
        + (* the successor is null or a listed block *)
          destruct fl2 as [|d fl2']; simpl in Hf2; [rewrite Hf2; word|]. destruct Hf2 as (-> & _).
          apply Hu. set_solver.
      - destruct Hl as (-> & ? & Hl). split_and!; [done..|].
        simpl in Hndl. apply NoDup_cons in Hndl as [Hc Hndl].
        assert (get_next (set_next_ptr (hmem h) b0 (get_next (hmem h) target)) c = get_next (hmem h) c) as ->.
        { unfold get_next at 1 3, load64. apply load_ext. intros x Hx. apply set_next_other.
          destruct (Hsp b0 c) as [?|?]; [done|set_solver|intros ->; set_solver|..];
            unfold link_byte, MIN_BLOCK, SIZEOF_BLOCK, SIZEOF_FOOTER in *; lia. }
        apply IH; [done| |done]. intros d Hd. apply Hsub. set_solver. }
    by apply Hgen.
  - intros x Hx. apply set_next_other, Hx; [done|done].
Qed.

End remove.
