(* ===== verification/HeapSpec.v ===== *)
(** * The heap's invariant and operations

    The blocks tile the heap, the free list holds exactly the free ones, and no
    two free blocks are adjacent; [kmalloc] and [kfree] keep this so, and never
    touch the bytes of a block allocated to someone else. *)

From S2P Require Import Prelude Frames Mem Vmm PageTable Heap HeapTiles.

Section spec.
Context {A : Type} `{FrameAllocLaws A}.
Implicit Type h : Heap A.

Definition blk_at (bl : list blk) (p sz : Z) (f : bool) : Prop := at_block HEAP_START bl p sz f.

Record hinv h (bl : list blk) (fl : list Z) : Prop := {
  hi_tiles : tiles (hmem h) HEAP_START bl (heap_end h);
  hi_end : heap_end h ≤ HEAP_MAX;
  hi_list : flist (hmem h) (free_list h) fl;
  hi_nodup : NoDup fl;
  hi_free p : p ∈ fl → ∃ sz, blk_at bl p sz true;
}.

(** Every free block is listed, but perhaps [b]. *)
Definition listed_but (bl : list blk) (fl : list Z) (b : Z) : Prop :=
  ∀ p sz, blk_at bl p sz true → p = b ∨ p ∈ fl.

Definition head_free (l : list blk) : bool := match l with (_, f) :: _ => f | [] => false end.

(** No two neighbouring blocks are both free. *)
Fixpoint no_adj (l : list blk) : Prop :=
  match l with
  | [] => True
  | (_, f) :: l => (f && head_free l = false) ∧ no_adj l
  end.

Definition heap_ok h (bl : list blk) : Prop :=
  no_adj bl ∧ ∃ fl, hinv h bl fl ∧ ∀ p sz, blk_at bl p sz true → p ∈ fl.

(** ** Consequences of the tiling *)

Fixpoint starts (a : Z) (l : list blk) : list Z :=
  match l with [] => [] | (sz, _) :: l => a :: starts (a + sz) l end.

Lemma starts_spec a l p sz f : at_block a l p sz f → p ∈ starts a l.
Proof.
  revert a. induction l as [|[s g] l IH]; intros a Hp; [by apply at_block_nil in Hp|].
  apply at_block_cons in Hp as [(-> & _)|Hp]; simpl; [apply list_elem_of_here|].
  by apply list_elem_of_further, IH.
Qed.

Lemma starts_length a l : length (starts a l) = length l.
Proof. revert a. induction l as [|[s g] l IH]; intros a; simpl; [done|]. by rewrite IH. Qed.

Lemma tiles_count m a l e : tiles m a l e → MIN_BLOCK * Z.of_nat (length l) ≤ e - a.
Proof.
  revert a. induction l as [|[s g] l IH]; intros a; simpl; [lia|].
  intros ((? & _) & _ & Ht). apply IH in Ht. lia.
Qed.

Lemma HEAP_START_eq : HEAP_START = 0xFFFF800000000000.
Proof. done. Qed.
Lemma HEAP_MAX_eq : HEAP_MAX = 0xFFFF8000FFFFFFFF.
Proof. done. Qed.

Ltac heap_lia :=
  unfold MIN_BLOCK, SIZEOF_BLOCK, SIZEOF_FOOTER, ALIGNMENT in *;
  rewrite ?HEAP_START_eq, ?HEAP_MAX_eq in *; lia.

Lemma blk_bounds h bl fl p sz f :
  hinv h bl fl → blk_at bl p sz f →
  HEAP_START ≤ p ∧ p + sz ≤ heap_end h ∧ MIN_BLOCK ≤ sz ∧ is_u64 p ∧ p ≠ 0 ∧ p + sz < 2 ^ 64.
Proof.
  intros Hi Hp. pose proof (hi_end _ _ _ Hi).
  destruct (at_block_bounds _ _ _ _ _ _ _ (hi_tiles _ _ _ Hi) Hp).
  destruct (at_block_size _ _ _ _ _ _ _ (hi_tiles _ _ _ Hi) Hp) as [? _]. unfold is_u64.
  split_and!; heap_lia.
Qed.

Lemma hi_spread h bl fl : hinv h bl fl → spread fl.
Proof.
  intros Hi b c Hb Hc Hne. apply (hi_free _ _ _ Hi) in Hb as [s1 Hb], Hc as [s2 Hc].
  pose proof (blk_bounds _ _ _ _ _ _ Hi Hb). pose proof (blk_bounds _ _ _ _ _ _ Hi Hc).
  destruct (at_block_disjoint _ _ _ _ _ _ _ _ _ _ (hi_tiles _ _ _ Hi) Hb Hc) as [[? _]|[?|?]]; [done|lia..].
Qed.

Lemma hi_u64 h bl fl b : hinv h bl fl → b ∈ fl → is_u64 b.
Proof. intros Hi Hb. apply (hi_free _ _ _ Hi) in Hb as [s Hb]. by apply (blk_bounds _ _ _ _ _ _ Hi Hb). Qed.

Lemma hi_fuel h bl fl : hinv h bl fl → (length fl < list_fuel h)%nat.
Proof.
  intros Hi. assert (length fl ≤ length (starts HEAP_START bl))%nat as Hle.
  { apply submseteq_length, NoDup_submseteq; [apply (hi_nodup _ _ _ Hi)|].
    intros p Hp. apply (hi_free _ _ _ Hi) in Hp as [sz Hp]. by eapply starts_spec. }
  rewrite starts_length in Hle. pose proof (tiles_count _ _ _ _ (hi_tiles _ _ _ Hi)) as Hc.
  unfold list_fuel.
  assert (Z.of_nat (length bl) ≤ (heap_end h - HEAP_START) / MIN_BLOCK); [|lia].
  apply Z.div_le_lower_bound; [done|lia].
Qed.

(** Writes to the links of blocks leave the tiling alone. *)
Lemma tiles_links m m' bl e :
  tiles m HEAP_START bl e →
  (∀ x, (∀ b sz f, blk_at bl b sz f → ¬ link_byte b x) → m' x = m x) →
  tiles m' HEAP_START bl e.
Proof.
  intros Ht Hm. eapply tiles_ext; [|exact Ht]. intros p sz f x Hp Hx. apply Hm.
  intros b sz' f' Hb Hl. pose proof (at_block_size _ _ _ _ _ _ _ Ht Hp) as [? _].
  pose proof (at_block_size _ _ _ _ _ _ _ Ht Hb) as [? _]. unfold tag_byte, link_byte in *.
  destruct (at_block_disjoint _ _ _ _ _ _ _ _ _ _ Ht Hp Hb) as [(<- & <- & _)|[?|?]]; heap_lia.
Qed.

(** The bytes of the blocks allocated in [bl] are kept. *)
Definition kept_alloc (bl : list blk) (m m' : mem) : Prop :=
  ∀ p sz x, blk_at bl p sz false → p ≤ x < p + sz → m' x = m x.

Lemma kept_alloc_trans bl bl' m1 m2 m3 :
  (∀ p sz, blk_at bl p sz false → blk_at bl' p sz false) →
  kept_alloc bl m1 m2 → kept_alloc bl' m2 m3 → kept_alloc bl m1 m3.
Proof. intros Hs H1 H2 p sz x Hp Hx. rewrite (H2 p sz x), (H1 p sz x); auto. Qed.

(** A write inside a free block keeps the allocated ones. *)
Lemma kept_inside bl m m' e p sz :
  tiles m HEAP_START bl e → blk_at bl p sz true →
  (∀ x, ¬ p ≤ x < p + sz → m' x = m x) → kept_alloc bl m m'.
Proof.
  intros Ht Hp Hm q sz' x Hq Hx. apply Hm. intros Hpx.
  destruct (at_block_disjoint _ _ _ _ _ _ _ _ _ _ Ht Hp Hq) as [(_ & _ & ?)|[?|?]]; [done|lia..].
Qed.

(** ** Unlinking *)

Lemma remove_inv h bl fl target sz :
  hinv h bl fl → target ∈ fl → blk_at bl target sz true →
  ∃ h', remove_loop (list_fuel h) (free_list h) 0 target h = Ok h' ∧
    hinv h' bl (filter (λ b, b ≠ target) fl) ∧
    (∀ x, (∀ b, b ∈ fl → b ≠ target → ¬ link_byte b x) → hmem h' x = hmem h x) ∧
    kept_alloc bl (hmem h) (hmem h') ∧ heap_end h' = heap_end h ∧ vm h' = vm h.
Proof.
  intros Hi Ht Hb.
  destruct (unlink_list_spec h fl target (hi_list _ _ _ Hi) (hi_nodup _ _ _ Hi) (hi_spread _ _ _ Hi) Ht)
    as (h' & E & Hl & Hm & He & Hv).
  { intros b. by apply (hi_u64 _ _ _ _ Hi). } { by eapply hi_fuel. }
  exists h'. split; [done|].
  assert (∀ x, (∀ b sz f, blk_at bl b sz f → ¬ link_byte b x) → hmem h' x = hmem h x) as Hm'.
  { intros x Hx. apply Hm. intros b Hb' _. apply (hi_free _ _ _ Hi) in Hb' as [s Hb']. by eapply Hx. }
  split_and!; try done.
  - split.
    + rewrite He. eapply tiles_links; [apply (hi_tiles _ _ _ Hi)|done].
    + rewrite He. apply (hi_end _ _ _ Hi).
    + done.
    + apply NoDup_filter, (hi_nodup _ _ _ Hi).
    + intros p [_ Hp]%list_elem_of_filter. by apply (hi_free _ _ _ Hi).
  - intros p s x Hp Hx. apply Hm. intros b Hb' _ Hlink. apply (hi_free _ _ _ Hi) in Hb' as [s' Hb'].
    pose proof (blk_bounds _ _ _ _ _ _ Hi Hb'). unfold link_byte in Hlink.
    destruct (at_block_disjoint _ _ _ _ _ _ _ _ _ _ (hi_tiles _ _ _ Hi) Hp Hb') as [(_ & _ & ?)|[?|?]];
      [done|heap_lia..].
Qed.

(** ** Rewriting a block's tags *)

(** The memory after giving the block at [b] size [sz] and free flag [f]. *)
Lemma write_footer_spec m b sz f :
  get_size m b = sz → is_u64 sz → SIZEOF_BLOCK + SIZEOF_FOOTER ≤ sz →
  let m' := write_footer m b f in
  get_size m' b = sz ∧ get_free m' b = get_free m b ∧
  get_size m' (b + sz - SIZEOF_FOOTER) = sz ∧ get_free m' (b + sz - SIZEOF_FOOTER) = f ∧
  ∀ x, ¬ b + sz - SIZEOF_FOOTER ≤ x < b + sz - SIZEOF_FOOTER + 9 → m' x = m x.
Proof.
  intros Hsz Hu Hmin m'. unfold m', write_footer, footer_of_block. rewrite Hsz.
  set (ft := b + sz - SIZEOF_FOOTER). set (m1 := put_size m ft sz).
  assert (get_size m1 b = sz) as Hs1.
  { unfold m1, get_size, put_size. rewrite load64_store64_other by (unfold ft; heap_lia). done. }
  rewrite Hs1. fold ft.
  assert (∀ x, ¬ ft ≤ x < ft + 9 → put_free m1 ft f x = m x) as Hout.
  { intros x Hx. unfold put_free, m1, put_size, store64. rewrite !store_other by lia. done. }
  split_and!.
  - transitivity (get_size m b); [|done]. unfold get_size, load64. apply load_ext.
    intros x Hx. apply Hout. unfold ft. heap_lia.
  - unfold get_free. rewrite Hout; [done|]. unfold ft. heap_lia.
  - unfold get_size, put_free, load64. rewrite load_store_other by lia.
    unfold m1, put_size. by apply (load64_store64_same m ft sz).
  - unfold get_free, put_free, store. rewrite Z.leb_refl.
    rewrite (proj2 (Z.ltb_lt _ _)) by lia. simpl. rewrite Z.sub_diag. by destruct f.
  - done.
Qed.

End spec.
