(* ===== verification/HeapOps.v ===== *)
(** * Coalescing, splitting and growing the heap

    What each internal operation of [mem/heap.cpp] does to the tiling, and the
    abstract view of the heap: the finite map from each live allocation to its
    capacity, which [kmalloc] extends and [kfree] shrinks. *)

From S2P Require Import Prelude Frames Mem Vmm PageTable Heap HeapTiles HeapSpec.

Ltac heap_lia :=
  unfold MIN_BLOCK, SIZEOF_BLOCK, SIZEOF_FOOTER, ALIGNMENT in *;
  rewrite ?HEAP_START_eq, ?HEAP_MAX_eq in *; lia.

(** ** Lists of blocks *)

Definition last_free (l : list blk) : bool := match last l with Some (_, f) => f | None => false end.

Lemma last_free_snoc l s f : last_free (l ++ [(s, f)]) = f.
Proof. unfold last_free. by rewrite last_snoc. Qed.

Lemma last_free_cons x y l : last_free (x :: y :: l) = last_free (y :: l).
Proof. done. Qed.

Lemma no_adj_app l1 l2 :
  no_adj (l1 ++ l2) ↔ no_adj l1 ∧ no_adj l2 ∧ last_free l1 && head_free l2 = false.
Proof.
  induction l1 as [|[s f] l1 IH]; simpl; [naive_solver|].
  destruct l1 as [|[s' f'] l1]; simpl in *; [unfold last_free; simpl; rewrite andb_false_r; tauto|].
  rewrite last_free_cons. tauto.
Qed.

Lemma blk_at_mid l1 s f l2 p sz g :
  blk_at (l1 ++ (s, f) :: l2) p sz g ↔
    blk_at l1 p sz g ∨ (p = HEAP_START + span l1 ∧ sz = s ∧ g = f) ∨
    at_block (HEAP_START + span l1 + s) l2 p sz g.
Proof. unfold blk_at. by rewrite at_block_app, at_block_cons. Qed.

Lemma tiles_outside m m' a l e :
  (∀ x, a ≤ x < e → m' x = m x) → tiles m a l e → tiles m' a l e.
Proof.
  intros Hx Ht. eapply tiles_ext; [|done]. intros p sz f x Hp Hx'. apply Hx.
  destruct (at_block_bounds _ _ _ _ _ _ _ Ht Hp). destruct (at_block_size _ _ _ _ _ _ _ Ht Hp) as [? _].
  unfold tag_byte in Hx'. heap_lia.
Qed.

Lemma tiles_mod8 m a l e : tiles m a l e → span l `mod` 8 = 0.
Proof.
  revert a. induction l as [|[s f] l IH]; intros a; simpl; [done|]. intros ((_ & Hs & _) & _ & Ht).
  apply IH in Ht. unfold ALIGNMENT in Hs. rewrite Z.add_mod, Hs, Ht by lia. done.
Qed.

(** The facts about the block in the middle of a tiling. *)
Lemma tiles_mid m l1 s f l2 e :
  tiles m HEAP_START (l1 ++ (s, f) :: l2) e →
  0 ≤ span l1 ∧ size_ok s ∧ block_at m (HEAP_START + span l1) s f ∧
  HEAP_START + span l1 + s ≤ e ∧ tiles m HEAP_START l1 (HEAP_START + span l1) ∧
  tiles m (HEAP_START + span l1 + s) l2 e.
Proof.
  intros (H1 & Hs & Hb & H2)%tiles_app. pose proof (tiles_span _ _ _ _ H1) as [_ ?].
  pose proof (tiles_span _ _ _ _ H2) as [-> ?]. split_and!; try done; lia.
Qed.

(** Replace the middle of a tiling: the bytes outside it are kept. *)
Lemma tiles_replace m m' l1 l2 mid s e :
  tiles m HEAP_START l1 (HEAP_START + span l1) → tiles m (HEAP_START + span l1 + s) l2 e →
  (∀ x, ¬ HEAP_START + span l1 ≤ x < HEAP_START + span l1 + s → m' x = m x) →
  tiles m' (HEAP_START + span l1) mid (HEAP_START + span l1 + s) →
  tiles m' HEAP_START (l1 ++ mid ++ l2) e.
Proof.
  intros H1 H2 Hx Hm. rewrite !tiles_app. pose proof (tiles_span _ _ _ _ Hm) as [E _].
  split; [|split].
  - eapply tiles_outside; [|done]. intros x ?. apply Hx. lia.
  - by eapply tiles_end; [|exact E].
  - rewrite <-E. eapply tiles_outside; [|done]. intros x ?. apply Hx. lia.
Qed.

Section ops.
Context {A : Type} `{FrameAllocLaws A}.
Implicit Type h : Heap A.

(** What the internal operations keep: the allocated blocks and their bytes, the
    heap's end and the page tables. *)
Definition same_alloc (bl bl' : list blk) : Prop := ∀ p sz, blk_at bl p sz false ↔ blk_at bl' p sz false.

Record rearranged h bl h' bl' : Prop := {
  re_same : same_alloc bl bl';
  re_kept : kept_alloc bl (hmem h) (hmem h');
  re_end : heap_end h' = heap_end h;
  re_vm : vm h' = vm h;
}.

Lemma rearranged_trans h1 b1 h2 b2 h3 b3 :
  rearranged h1 b1 h2 b2 → rearranged h2 b2 h3 b3 → rearranged h1 b1 h3 b3.
Proof.
  intros [S1 K1 E1 V1] [S2 K2 E2 V2]. split.
  - intros p sz. by rewrite (S1 p sz).
  - eapply kept_alloc_trans; [|done..]. intros p sz. apply S1.
  - by rewrite E2.
  - by rewrite V2.
Qed.

(** ** Merging two neighbours *)

Definition merged (a s1 : Z) h : Heap A :=
  with_hmem (write_footer (put_size (hmem h) a (u64 (get_size (hmem h) a + get_size (hmem h) (a + s1)))) a true) h.

Lemma merge_inv h l1 s1 s2 l2 fl (a := HEAP_START + span l1) :
  hinv h (l1 ++ (s1, true) :: (s2, true) :: l2) fl → a ∉ fl → a + s1 ∉ fl →
  hinv (merged a s1 h) (l1 ++ (s1 + s2, true) :: l2) fl ∧
  rearranged h (l1 ++ (s1, true) :: (s2, true) :: l2) (merged a s1 h) (l1 ++ (s1 + s2, true) :: l2).
Proof.
  intros Hi Ha1 Ha2. pose proof (hi_tiles _ _ _ Hi) as Ht. pose proof (hi_end _ _ _ Hi) as He.
  destruct (tiles_mid _ _ _ _ _ _ Ht) as (H0s & (M1 & A1 & _) & (S1 & F1 & _) & _ & T1 & T2).
  fold a in S1, F1, T1, T2. simpl in T2. destruct T2 as ((M2 & A2 & _) & (S2 & _) & T2).
  pose proof (tiles_span _ _ _ _ T2) as [Ee ?].
  unfold merged. rewrite S1, S2. rewrite u64_small by (unfold is_u64, a in *; heap_lia).
  set (m1 := put_size (hmem h) a (s1 + s2)).
  assert (get_size m1 a = s1 + s2) as Sm.
  { unfold m1, get_size, put_size. apply load64_store64_same. unfold is_u64, a in *; heap_lia. }
  destruct (write_footer_spec m1 a (s1 + s2) true Sm) as (W1 & W2 & W3 & W4 & W5);
    [unfold is_u64, a in *; heap_lia|heap_lia|].
  assert (∀ x, ¬ a ≤ x < a + s1 + s2 → write_footer m1 a true x = hmem h x) as Hout.
  { intros x Hx. rewrite W5 by heap_lia. unfold m1, put_size, store64. apply store_other. heap_lia. }
  assert (∀ p sz f, blk_at (l1 ++ (s1, true) :: (s2, true) :: l2) p sz f ↔
    (blk_at l1 p sz f ∨ at_block (a + s1 + s2) l2 p sz f) ∨
    (p = a ∧ sz = s1 ∧ f = true) ∨ (p = a + s1 ∧ sz = s2 ∧ f = true)) as Hold.
  { intros p sz f. rewrite blk_at_mid, at_block_cons. fold a. tauto. }
  assert (∀ p sz f, blk_at (l1 ++ (s1 + s2, true) :: l2) p sz f ↔
    (blk_at l1 p sz f ∨ at_block (a + s1 + s2) l2 p sz f) ∨ (p = a ∧ sz = s1 + s2 ∧ f = true)) as Hnew.
  { intros p sz f. rewrite blk_at_mid. fold a. rewrite Z.add_assoc. tauto. }
  split; split; simpl.
  - change (l1 ++ (s1 + s2, true) :: l2) with (l1 ++ [(s1 + s2, true)] ++ l2).
    eapply (tiles_replace (hmem h) _ l1 l2 _ (s1 + s2)); [done|by rewrite Z.add_assoc| |].
    + intros x Hx. apply Hout. fold a in Hx. lia.
    + fold a. simpl. split_and!; [|split_and!; try done; rewrite W2|done].
      * split_and!; [heap_lia| |unfold a in *; heap_lia]. unfold ALIGNMENT in *.
        rewrite Z.add_mod, A1, A2 by lia. done.
      * unfold m1, get_free, put_size, store64 in *. rewrite store_other by lia. done.
  - done.
  - eapply flist_ext; [|apply (hi_list _ _ _ Hi)]. intros b x Hb Hx.
    destruct (hi_free _ _ _ Hi b Hb) as [sb Hbb].
    assert (a + s1 ∉ fl) as Ha2' by done.
    assert (blk_at (l1 ++ (s1, true) :: (s2, true) :: l2) a s1 true) as Ba by (apply Hold; auto).
    assert (blk_at (l1 ++ (s1, true) :: (s2, true) :: l2) (a + s1) s2 true) as Ba2 by (apply Hold; auto).
    pose proof (blk_bounds _ _ _ _ _ _ Hi Hbb). unfold link_byte in Hx.
    destruct (at_block_disjoint _ _ _ _ _ _ _ _ _ _ Ht Hbb Ba) as [(-> & _)|D1]; [done|].
    destruct (at_block_disjoint _ _ _ _ _ _ _ _ _ _ Ht Hbb Ba2) as [(-> & _)|D2]; [done|].
    apply Hout. heap_lia.
  - apply (hi_nodup _ _ _ Hi).
  - intros p Hp. destruct (hi_free _ _ _ Hi p Hp) as [sz Hsz]. apply Hold in Hsz.
    destruct Hsz as [Hsz|[(-> & _)|(-> & _)]]; [|done..]. exists sz. apply Hnew. auto.
  - intros p sz. rewrite Hold, Hnew. naive_solver.
  - intros p sz x Hp Hx. apply Hout.
    assert (blk_at (l1 ++ (s1, true) :: (s2, true) :: l2) a s1 true) as Ba by (apply Hold; auto).
    assert (blk_at (l1 ++ (s1, true) :: (s2, true) :: l2) (a + s1) s2 true) as Ba2 by (apply Hold; auto).
    destruct (at_block_disjoint _ _ _ _ _ _ _ _ _ _ Ht Hp Ba) as [(_ & _ & ?)|D1]; [done|].
    destruct (at_block_disjoint _ _ _ _ _ _ _ _ _ _ Ht Hp Ba2) as [(_ & _ & ?)|D2]; [done|]. lia.
  - done.
  - done.
Qed.

(** ** Coalescing *)

(** A heap whose only block that may be unlisted, or free next to a free
    neighbour, is the free block of [s] bytes after [l1]. *)
Record loose h l1 s l2 fl : Prop := {
  lo_inv : hinv h (l1 ++ (s, true) :: l2) fl;
  lo_not : HEAP_START + span l1 ∉ fl;
  lo_listed : listed_but (l1 ++ (s, true) :: l2) fl (HEAP_START + span l1);
  lo_left : no_adj l1;
  lo_right : no_adj l2;
}.

Lemma hinv_tiles h bl fl : hinv h bl fl → tiles (hmem h) HEAP_START bl (heap_end h).
Proof. apply hi_tiles. Qed.

Lemma rearranged_refl h bl : rearranged h bl h bl.
Proof. split; done. Qed.

(** Unlinking a free neighbour and merging with it. *)
Lemma absorb h l1 s1 s2 l2 fl t (a := HEAP_START + span l1) :
  hinv h (l1 ++ (s1, true) :: (s2, true) :: l2) fl →
  (t = a ∧ a + s1 ∉ fl ∨ t = a + s1 ∧ a ∉ fl) → t ∈ fl →
  (∀ p sz, blk_at (l1 ++ (s1, true) :: (s2, true) :: l2) p sz true → p = a ∨ p = a + s1 ∨ p ∈ fl) →
  ∃ h1 fl', remove_loop (list_fuel h) (free_list h) 0 t h = Ok h1 ∧
    hinv (merged a s1 h1) (l1 ++ (s1 + s2, true) :: l2) fl' ∧ a ∉ fl' ∧
    listed_but (l1 ++ (s1 + s2, true) :: l2) fl' a ∧ tiles (hmem h1) HEAP_START (l1 ++ (s1, true) :: (s2, true) :: l2) (heap_end h1) ∧
    rearranged h (l1 ++ (s1, true) :: (s2, true) :: l2) (merged a s1 h1) (l1 ++ (s1 + s2, true) :: l2).
Proof.
  intros Hi Ht Hin Hl.
  assert (∃ sz, blk_at (l1 ++ (s1, true) :: (s2, true) :: l2) t sz true) as [sz Hb] by by apply (hi_free _ _ _ Hi).
  destruct (remove_inv h _ fl t sz Hi Hin Hb) as (h1 & E & Hi1 & _ & K1 & E1 & V1).
  assert (a ∉ filter (λ b, b ≠ t) fl ∧ a + s1 ∉ filter (λ b, b ≠ t) fl) as [N1 N2].
  { rewrite !list_elem_of_filter. naive_solver. }
  destruct (merge_inv h1 l1 s1 s2 l2 _ Hi1 N1 N2) as [Hi2 R2].
  exists h1, (filter (λ b, b ≠ t) fl). split_and!; try done.
  - intros p sz' Hp. rewrite blk_at_mid in Hp. fold a in Hp.
    assert (p = a ∨ blk_at (l1 ++ (s1, true) :: (s2, true) :: l2) p sz' true ∧ p ≠ a ∧ p ≠ a + s1) as [->|(Hp' & P1 & P2)]; [|by left|].
    { pose proof (hi_tiles _ _ _ Hi) as Hti. destruct (tiles_mid _ _ _ _ _ _ Hti) as (_ & (M1 & _) & _ & _ & T1 & T2).
      fold a in T1, T2. simpl in T2. destruct T2 as ((M2 & _) & _ & T2).
      rewrite blk_at_mid, at_block_cons. fold a. destruct Hp as [Hp|[(-> & _)|Hp]]; [|by left|].
      - right. destruct (at_block_bounds _ _ _ _ _ _ _ T1 Hp), (at_block_size _ _ _ _ _ _ _ T1 Hp) as [? _].
        split_and!; [by left|heap_lia..].
      - right. replace (a + (s1 + s2)) with (a + s1 + s2) in Hp by lia.
        destruct (at_block_bounds _ _ _ _ _ _ _ T2 Hp).
        split_and!; [by right; right; right|heap_lia..]. }
    destruct (Hl _ _ Hp') as [?|[?|?]]; [done..|]. right. rewrite list_elem_of_filter. naive_solver.
  - apply (hi_tiles _ _ _ Hi1).
  - eapply rearranged_trans; [|exact R2]. by split.
Qed.

Lemma coalesce_next_spec h l1 s l2 fl (a := HEAP_START + span l1) :
  loose h l1 s l2 fl →
  ∃ h' s' l2' fl', coalesce_next a h = Ok h' ∧ loose h' l1 s' l2' fl' ∧ head_free l2' = false ∧ s ≤ s' ∧
    rearranged h (l1 ++ (s, true) :: l2) h' (l1 ++ (s', true) :: l2').
Proof.
  intros [Hi Hn Hl HL HR]. fold a in Hn, Hl. pose proof (hi_tiles _ _ _ Hi) as Ht.
  destruct (tiles_mid _ _ _ _ _ _ Ht) as (_ & _ & (S1 & _) & _ & _ & T2). fold a in S1, T2.
  unfold coalesce_next, next_block. rewrite S1. destruct l2 as [|[s2 f2] l2].
  { simpl in T2. rewrite T2, Z.ltb_irrefl. simpl. exists h, s, [], fl. split_and!; try done; apply rearranged_refl. }
  simpl in T2. destruct T2 as ((M2 & _) & (S2 & F2 & _) & T2). pose proof (tiles_span _ _ _ _ T2).
  rewrite (proj2 (Z.ltb_lt _ _)) by heap_lia. rewrite F2. destruct f2; simpl.
  2: { exists h, s, ((s2, false) :: l2), fl. split_and!; try done; apply rearranged_refl. }
  assert (a + s ≠ a) by (pose proof (at_block_size _ _ _ _ _ _ _ Ht (ex_intro _ l1 (ex_intro _ _ (conj eq_refl eq_refl)))) as [? _]; heap_lia).
  assert (a + s ∈ fl) as Hin.
  { destruct (Hl (a + s) s2); [|done..]. rewrite blk_at_mid, at_block_cons. fold a. tauto. }
  destruct (absorb h l1 s s2 l2 fl (a + s) Hi) as (h1 & fl' & -> & Hi' & Hn' & Hl' & Ht1 & R); [by right|done| |].
  { intros p sz Hp. destruct (Hl _ _ Hp); auto. }
  res_step. fold a in Hi', R. exists (merged a s h1), (s + s2), l2, fl'. split_and!; try done.
  - split; try done. simpl in HR. tauto.
  - simpl in HR. destruct (head_free l2) eqn:E; [|done]. by destruct HR.
  - heap_lia.
Qed.

Lemma coalesce_prev_spec h l1 s l2 fl (a := HEAP_START + span l1) :
  loose h l1 s l2 fl → head_free l2 = false →
  ∃ h' l1' s' fl', coalesce_prev a h = Ok (h', HEAP_START + span l1') ∧ loose h' l1' s' l2 fl' ∧
    last_free l1' = false ∧ HEAP_START + span l1' ≤ a ∧ a + s ≤ HEAP_START + span l1' + s' ∧
    rearranged h (l1 ++ (s, true) :: l2) h' (l1' ++ (s', true) :: l2).
Proof.
  intros [Hi Hn Hl HL HR] HR0. fold a in Hn, Hl. pose proof (hi_tiles _ _ _ Hi) as Ht.
  destruct l1 as [|[s0 f0] l1 _] using rev_ind.
  { unfold coalesce_prev, prev_block. rewrite (proj2 (Z.ltb_lt _ _)) by (unfold a; simpl; heap_lia). simpl.
    exists h, [], s, fl. split_and!; try done; apply rearranged_refl. }
  set (a0 := HEAP_START + span l1). assert (a = a0 + s0) as Ea by (unfold a, a0; rewrite span_app; simpl; lia).
  rewrite <-app_assoc in Hi, Hl, Ht. simpl in Hi, Hl, Ht.
  destruct (tiles_mid _ _ _ _ _ _ Ht) as (N0 & (M0 & _) & (S0 & F0 & S0' & _) & _ & T1 & T2). fold a0 in S0, F0, S0', T1, T2.
  unfold coalesce_prev, prev_block. rewrite (proj2 (Z.ltb_ge _ _)) by (unfold a0 in *; heap_lia).
  assert (get_size (hmem h) (a - SIZEOF_FOOTER) = s0) as -> by by rewrite Ea.
  rewrite (proj2 (Z.ltb_ge _ _)) by (unfold a0 in *; heap_lia).
  replace (a - s0) with a0 by lia. rewrite F0.
  rewrite (proj2 (Z.eqb_neq a0 0)) by (unfold a0 in *; heap_lia). simpl.
  apply no_adj_app in HL as (HL & _ & HL0). destruct f0; simpl.
  2: { exists h, (l1 ++ [(s0, false)]), s, fl. rewrite last_free_snoc.
       assert (HEAP_START + span (l1 ++ [(s0, false)]) = a) as -> by done.
       rewrite <-!app_assoc. simpl. split_and!; try done; try apply rearranged_refl.
       split; rewrite <-?app_assoc; try done. rewrite no_adj_app. simpl. by rewrite andb_false_r. }
  assert (a0 ∈ fl) as Hin.
  { destruct (Hl a0 s0); [|unfold a0 in *; heap_lia|done]. rewrite blk_at_mid. fold a0. tauto. }
  destruct (absorb h l1 s0 s l2 fl a0 Hi) as (h1 & fl' & -> & Hi' & Hn' & Hl' & Ht1 & R); [left; fold a0; by rewrite <-Ea|done| |].
  { fold a0. rewrite <-Ea. intros p sz Hp. destruct (Hl _ _ Hp); auto. }
  res_step. fold a0 in Hi', R. rewrite Ea. exists (merged a0 s0 h1), l1, (s0 + s), fl'. fold a0. split_and!; try done.
  - simpl in HL0. by rewrite andb_true_r in HL0.
  - heap_lia.
  - heap_lia.
  - by rewrite <-app_assoc.
Qed.

(** Pushing the free block after [l1] closes the invariant. *)
Lemma add_block_spec h l1 s l2 fl (a := HEAP_START + span l1) :
  loose h l1 s l2 fl → last_free l1 = false → head_free l2 = false →
  heap_ok (add_block_to_free_list a h) (l1 ++ (s, true) :: l2) ∧
  rearranged h (l1 ++ (s, true) :: l2) (add_block_to_free_list a h) (l1 ++ (s, true) :: l2).
Proof.
  intros [Hi Hn Hl HL HR] HL0 HR0. fold a in Hn, Hl. pose proof (hi_tiles _ _ _ Hi) as Ht.
  destruct (tiles_mid _ _ _ _ _ _ Ht) as (N0 & (M0 & M8 & M63) & B & E & T1 & T2). fold a in B, E, T1, T2.
  pose proof (hi_end _ _ _ Hi) as He.
  set (h' := add_block_to_free_list a h).
  assert (get_free (hmem h) a = true) as Fa by apply B.
  assert (∀ x, ¬ link_byte a x → x ≠ a + 8 → hmem h' x = hmem h x) as Hout.
  { intros x Hx Hx8. unfold h', add_block_to_free_list. simpl. rewrite set_next_other by done.
    unfold put_free. apply store_other. lia. }
  assert (rearranged h (l1 ++ (s, true) :: l2) h' (l1 ++ (s, true) :: l2)) as R.
  { split; try done. eapply (kept_inside _ _ _ _ a s Ht); [rewrite blk_at_mid; fold a; tauto|].
    intros x Hx. apply Hout; unfold link_byte; heap_lia. }
  split; [|done]. split.
  { rewrite no_adj_app. simpl. rewrite HR0, HL0. done. }
  assert (get_free (hmem h') a = true) as Fa'.
  { unfold get_free, h', add_block_to_free_list. simpl. rewrite set_next_other by (unfold link_byte; heap_lia).
    unfold put_free, store. rewrite Z.leb_refl, (proj2 (Z.ltb_lt _ _)) by lia. simpl. by rewrite Z.sub_diag. }
  exists (a :: fl). split; [split; simpl|].
  - change (l1 ++ (s, true) :: l2) with (l1 ++ [(s, true)] ++ l2).
    eapply (tiles_replace (hmem h) _ l1 l2 _ s); [done|done| |].
    + intros x Hx. fold a in Hx. apply Hout; unfold link_byte; heap_lia.
    + fold a. simpl. split_and!; [done| |done]. destruct B as (B1 & B2 & B3 & B4).
      split_and!; [|done|..].
      * etransitivity; [|exact B1]. unfold get_size, load64. apply load_ext. intros x Hx. apply Hout; unfold link_byte; heap_lia.
      * etransitivity; [|exact B3]. unfold get_size, load64. apply load_ext. intros x Hx. apply Hout; unfold link_byte; heap_lia.
      * etransitivity; [|exact B4]. apply (f_equal (λ b, negb (b =? 0))), Hout; unfold link_byte; heap_lia.
  - done.
  - split_and!; [done|unfold a; heap_lia|]. unfold h', add_block_to_free_list. simpl.
    rewrite get_next_set.
    + eapply flist_ext; [|apply (hi_list _ _ _ Hi)]. intros b x Hb Hx. apply Hout.
      * destruct (hi_free _ _ _ Hi b Hb) as [sb Hbb]. pose proof (blk_bounds _ _ _ _ _ _ Hi Hbb).
        assert (blk_at (l1 ++ (s, true) :: l2) a s true) as Ba by (rewrite blk_at_mid; fold a; tauto).
        unfold link_byte in *.
        destruct (at_block_disjoint _ _ _ _ _ _ _ _ _ _ Ht Hbb Ba) as [(-> & _)|D]; [done|heap_lia].
      * destruct (hi_free _ _ _ Hi b Hb) as [sb Hbb]. pose proof (blk_bounds _ _ _ _ _ _ Hi Hbb).
        assert (blk_at (l1 ++ (s, true) :: l2) a s true) as Ba by (rewrite blk_at_mid; fold a; tauto).
        unfold link_byte in *.
        destruct (at_block_disjoint _ _ _ _ _ _ _ _ _ _ Ht Hbb Ba) as [(-> & _)|D]; [done|heap_lia].
    + pose proof (hi_list _ _ _ Hi) as Hfl. destruct fl as [|b fl]; simpl in Hfl; [rewrite Hfl; word|].
      destruct Hfl as (-> & _). eapply hi_u64; [done|apply list_elem_of_here].
  - apply NoDup_cons. split; [done|apply (hi_nodup _ _ _ Hi)].
  - intros p Hp. apply elem_of_cons in Hp as [->|Hp]; [|by apply (hi_free _ _ _ Hi)].
    exists s. rewrite blk_at_mid. fold a. tauto.
  - intros p sz Hp. apply elem_of_cons. destruct (Hl p sz Hp); auto.
Qed.

Lemma coalesce_spec h l1 s l2 fl (a := HEAP_START + span l1) :
  loose h l1 s l2 fl →
  ∃ h' bl' p s', coalesce a h = Ok h' ∧ heap_ok h' bl' ∧ rearranged h (l1 ++ (s, true) :: l2) h' bl' ∧
    blk_at bl' p s' true ∧ p ≤ a ∧ a + s ≤ p + s'.
Proof.
  intros Hlo. destruct (coalesce_next_spec _ _ _ _ _ Hlo) as (h1 & s1 & l2' & fl1 & E1 & L1 & R0 & Hs1 & Re1).
  destruct (coalesce_prev_spec _ _ _ _ _ L1 R0) as (h2 & l1' & s2 & fl2 & E2 & L2 & L0 & P1 & P2 & Re2).
  destruct (add_block_spec _ _ _ _ _ L2 L0 R0) as [Hok Re3].
  fold a in E1, E2, P1, P2. unfold coalesce. rewrite E1. res_step. rewrite E2. res_step.
  do 4 eexists. split_and!; [done|exact Hok| |apply blk_at_mid; right; left; done|done|lia].
  eapply rearranged_trans; [exact Re1|]. by eapply rearranged_trans.
Qed.

End ops.
