(* ===== verification/HeapProps.v ===== *)
(** * What the heap promises

    [kmalloc] and [kfree] implement a finite map from live allocations to their
    capacities: allocating adds a fresh, aligned, disjoint region that is large
    enough, freeing removes exactly one, and neither touches the bytes of the
    others. *)

From S2P Require Import Prelude Frames Mem Vmm PageTable Heap HeapTiles HeapSpec HeapOps Pmm.

Lemma iter_upM_total {S} n lo step (f : Z → S → Res S) s :
  (∀ i s, done_or_halt (f i s)) → done_or_halt (iter_upM n lo step f s).
Proof.
  intros Hf. revert lo s. induction n as [|n IH]; intros lo s; [apply done_or_halt_Ok|].
  apply done_or_halt_bind; [apply Hf|]. intros s' _. apply IH.
Qed.

Lemma total_size_spec size :
  0 < size ≤ 2 ^ 46 → total_size size `mod` ALIGNMENT = 0 ∧ MIN_BLOCK ≤ total_size size ∧
    size + 32 ≤ total_size size ≤ size + 39.
Proof.
  intros Hs. unfold total_size. rewrite (u64_small (size + _ + _)) by (unfold is_u64; heap_lia).
  rewrite u64_small by (unfold is_u64; heap_lia).
  change (ALIGNMENT - 1) with 7. rewrite band_not_7. unfold ALIGNMENT, SIZEOF_BLOCK, SIZEOF_FOOTER.
  set (t := size + 16 + 16 + 8 - 1). pose proof (Z.mod_pos_bound t 8).
  assert ((t - t `mod` 8) `mod` 8 = 0) by (rewrite Zminus_mod_idemp_r, Z.sub_diag; done).
  case_cmp; unfold MIN_BLOCK, SIZEOF_BLOCK, SIZEOF_FOOTER in *; [|unfold t in *; lia].
  unfold t in *; split_and!; [done|lia|lia|lia].
Qed.

Section props.
Context {A : Type} `{FrameAllocLaws A}.
Implicit Type h : Heap A.

(** ** Growing *)

Lemma grow_page_total virt i (v : Vmm A) : done_or_halt (grow_page virt i v).
Proof using H0.
  apply done_or_halt_bind; [apply alloc_total|]. intros [v' f] _.
  case_match; [by right|apply map_into_total].
Qed.

(** Appending a free block of [sz] bytes at the heap's end. *)
Lemma append_inv h bl sz (v : Vmm A) :
  heap_ok h bl → size_ok sz → heap_end h + sz ≤ HEAP_MAX →
  let m := put_free (put_size (hmem h) (heap_end h) sz) (heap_end h) true in
  let h0 := MkHeap (write_footer m (heap_end h) true) (free_list h) (heap_end h + sz) v in
  (∃ fl, loose h0 bl sz [] fl) ∧ kept_alloc bl (hmem h) (hmem h0).
Proof.
  intros (Hadj & fl & Hi & Hl) Hsz Hmax m h0. pose proof (hi_tiles _ _ _ Hi) as Ht.
  pose proof (tiles_span _ _ _ _ Ht) as [He ?]. pose proof Hsz as (S0 & S8 & S63).
  assert (get_size m (heap_end h) = sz) as Hs.
  { unfold m, get_size, put_free, load64. rewrite load_store_other by lia.
    apply load64_store64_same. unfold is_u64. heap_lia. }
  assert (get_free m (heap_end h) = true) as Hf.
  { unfold m, get_free, put_free, store. rewrite Z.leb_refl, (proj2 (Z.ltb_lt _ _)) by lia.
    simpl. by rewrite Z.sub_diag. }
  destruct (write_footer_spec m (heap_end h) sz true Hs) as (W1 & W2 & W3 & W4 & W5);
    [unfold is_u64; heap_lia|heap_lia|].
  assert (∀ x, x < heap_end h → hmem h0 x = hmem h x) as Hout.
  { intros x Hx. simpl. rewrite W5 by heap_lia. unfold m, put_free, put_size, store64.
    rewrite !store_other by lia. done. }
  assert (∀ p s f, blk_at bl p s f → p + s ≤ heap_end h) as Hb by (intros p s f Hp; apply (blk_bounds _ _ _ _ _ _ Hi Hp)).
  split; [exists fl; split|].
  - split; simpl.
    + apply tiles_app. split; [eapply tiles_outside; [|by eapply tiles_end]; intros; apply Hout; lia|].
      rewrite <-He. simpl. split; [done|split; [|done]]. split_and!; try done. by rewrite W2.
    + done.
    + eapply flist_ext; [|apply (hi_list _ _ _ Hi)]. intros b x Hbl Hx. apply Hout.
      apply (hi_free _ _ _ Hi) in Hbl as [s Hbl]. pose proof (blk_bounds _ _ _ _ _ _ Hi Hbl).
      unfold link_byte in Hx. heap_lia.
    + apply (hi_nodup _ _ _ Hi).
    + intros p Hp. apply (hi_free _ _ _ Hi) in Hp as [s Hp]. exists s. apply blk_at_mid. by left.
  - rewrite <-He. intros Hin. apply (hi_free _ _ _ Hi) in Hin as [s Hp].
    pose proof (blk_bounds _ _ _ _ _ _ Hi Hp). heap_lia.
  - intros p s Hp. apply blk_at_mid in Hp as [Hp|[(-> & _)|Hp]]; [right; by eapply Hl|by left|by apply at_block_nil in Hp].
  - done.
  - done.
  - intros p s x Hp Hx. apply Hout. specialize (Hb _ _ _ Hp). lia.
Qed.

(** The two ways growing stops the machine: the heap's range is exhausted, or a
    frame for one of the pages or its tables could not be allocated. *)
Definition cannot_grow pages h : Prop :=
  HEAP_MAX < heap_end h + pages * PAGE_SIZE ∨
  iter_upM (Z.to_nat pages) 0 1 (grow_page (heap_end h)) (vm h) = Halt.

Lemma grow_heap_spec h bl pages :
  heap_ok h bl → 1 ≤ pages ≤ 2 ^ 34 + 1 →
  (grow_heap pages h = Halt ∧ cannot_grow pages h) ∨
  ∃ h' bl' p s, grow_heap pages h = Ok h' ∧ heap_ok h' bl' ∧ same_alloc bl bl' ∧
    kept_alloc bl (hmem h) (hmem h') ∧ blk_at bl' p s true ∧ pages * 4096 ≤ s.
Proof using H0.
  intros Hok Hp. unfold grow_heap. pose proof Hok as (_ & fl0 & Hi & _).
  pose proof (tiles_span _ _ _ _ (hi_tiles _ _ _ Hi)) as [He ?]. pose proof (hi_end _ _ _ Hi).
  unfold PAGE_SIZE. rewrite (u64_small (pages * 4096)) by (unfold is_u64; lia).
  rewrite u64_small by (unfold is_u64; heap_lia).
  destruct (Z.ltb_spec HEAP_MAX (heap_end h + pages * 4096)) as [?|Hmax]; [by left; split; [|left]|].
  destruct (iter_upM_total (Z.to_nat pages) 0 1 (grow_page (heap_end h)) (vm h)) as [[v ->]|E0]; [|res_step|left; split; [by rewrite E0|by right]].
  { intros. apply grow_page_total. }
  destruct (append_inv h bl (pages * 4096) v Hok) as ((fl & Hlo) & K); [|done|].
  { split_and!; [heap_lia| |lia]. unfold ALIGNMENT. replace (pages * 4096) with (pages * 512 * 8) by lia. apply Z.mod_mul. lia. }
  destruct (coalesce_spec _ _ _ _ _ Hlo) as (h' & bl' & p & s' & E & Hok' & R & B & P1 & P2).
  rewrite <-He in E, P1, P2. right. exists h', bl', p, s'. split; [done|]. split; [done|].
  assert (∀ p sz, blk_at bl p sz false ↔ blk_at (bl ++ [(pages * 4096, true)]) p sz false) as Hsame.
  { intros q sz. rewrite blk_at_mid. split; [by left|].
    intros [?|[(_ & _ & ?)|Hq]]; [done..|by apply at_block_nil in Hq]. }
  split_and!; [| |done|lia].
  - intros q sz. rewrite Hsame. apply (re_same _ _ _ _ R).
  - eapply kept_alloc_trans; [|exact K|exact (re_kept _ _ _ _ R)]. intros q sz. apply Hsame.
Qed.

(** ** Taking a block *)

Definition mark (m : mem) (c : Z) : mem :=
  let m := put_free m c false in put_free m (footer_of_block m c) false.

Lemma get_free_put m a f : get_free (put_free m a f) a = f.
Proof.
  unfold get_free, put_free, store. rewrite Z.leb_refl, (proj2 (Z.ltb_lt _ _)) by lia.
  simpl. rewrite Z.sub_diag. by destruct f.
Qed.

Lemma put_free_other m a f x : x ≠ a + 8 → put_free m a f x = m x.
Proof. intros. unfold put_free. apply store_other. lia. Qed.

Lemma put_size_other m a v x : ¬ a ≤ x < a + 8 → put_size m a v x = m x.
Proof. intros. unfold put_size, store64. apply store_other. lia. Qed.

Lemma get_size_ext m m' a : (∀ x, a ≤ x < a + 8 → m' x = m x) → get_size m' a = get_size m a.
Proof. intros Hx. unfold get_size, load64. by apply load_ext. Qed.

Lemma get_size_put m a v : is_u64 v → get_size (put_size m a v) a = v.
Proof. apply load64_store64_same. Qed.

Lemma mark_spec m c s :
  get_size m c = s → get_size m (c + s - SIZEOF_FOOTER) = s → MIN_BLOCK ≤ s →
  block_at (mark m c) c s false ∧ ∀ x, x ≠ c + 8 → x ≠ c + s - 8 → mark m c x = m x.
Proof.
  intros H1 H2 Hs. unfold mark, footer_of_block.
  assert (get_size (put_free m c false) c = s) as ->.
  { etransitivity; [|exact H1]. apply get_size_ext. intros x ?. apply put_free_other. lia. }
  split; [split_and!|].
  - etransitivity; [|exact H1]. apply get_size_ext. intros x ?. rewrite !put_free_other by heap_lia. done.
  - unfold get_free. rewrite put_free_other by heap_lia. apply get_free_put.
  - etransitivity; [|exact H2]. apply get_size_ext. intros x ?. rewrite !put_free_other by heap_lia. done.
  - apply get_free_put.
  - intros x ? ?. rewrite !put_free_other by heap_lia. done.
Qed.

(** What is left after a block of [total] bytes is taken from one of [sz]. *)
Definition carve (sz total : Z) (f : bool) : list blk :=
  if MIN_BLOCK <=? sz - total then [(total, f); (sz - total, true)] else [(sz, f)].

Definition capacity (sz total : Z) : Z := if MIN_BLOCK <=? sz - total then total else sz.

(** The state after splitting off [rem] bytes, before [curr] is marked. *)
Definition carved (c total rem : Z) h : Heap A :=
  let nb := c + total in
  let m := put_free (put_size (hmem h) nb rem) nb true in
  let h := add_block_to_free_list nb (with_hmem (write_footer m nb true) h) in
  let m := put_size (hmem h) c total in
  with_hmem (put_size m (footer_of_block m c) total) h.

Lemma carved_spec h c total rem :
  is_u64 total → is_u64 rem → MIN_BLOCK ≤ total → MIN_BLOCK ≤ rem → is_u64 (free_list h) →
  let m := hmem (carved c total rem h) in
  get_size m c = total ∧ get_size m (c + total - SIZEOF_FOOTER) = total ∧
  block_at m (c + total) rem true ∧ get_next m (c + total) = free_list h ∧
  ∀ x, ¬ c ≤ x < c + total + rem → m x = hmem h x.
Proof.
  intros Ut Ur Ht Hr Hu. unfold carved. simpl. set (nb := c + total).
  set (m1 := put_free (put_size (hmem h) nb rem) nb true).
  assert (get_size m1 nb = rem) as Hs.
  { unfold m1. etransitivity; [|by apply (get_size_put (hmem h) nb rem)].
    apply get_size_ext. intros x ?. apply put_free_other. lia. }
  destruct (write_footer_spec m1 nb rem true Hs Ur) as (W1 & W2 & W3 & W4 & W5); [heap_lia|].
  assert (get_free m1 nb = true) as Hf by apply get_free_put. rewrite Hf in W2.
  set (m2 := write_footer m1 nb true) in *.
  set (m3 := set_next_ptr (put_free m2 nb true) nb (free_list h)).
  assert (∀ x, ¬ link_byte nb x → x ≠ nb + 8 → m3 x = m2 x) as H3.
  { intros x ? ?. unfold m3. rewrite set_next_other by done. by apply put_free_other. }
  set (m4 := put_size m3 c total).
  assert (get_size m4 c = total) as H4 by by apply get_size_put.
  assert (footer_of_block m4 c = nb - SIZEOF_FOOTER) as -> by (unfold footer_of_block; rewrite H4; unfold nb; lia).
  set (m5 := put_size m4 (nb - SIZEOF_FOOTER) total).
  assert (∀ x, nb ≤ x → m5 x = m3 x) as H5.
  { intros x ?. unfold m5, m4. rewrite !put_size_other by (unfold nb in *; heap_lia). done. }
  split_and!.
  - etransitivity; [|exact H4]. apply get_size_ext. intros x ?. apply put_size_other. unfold nb; heap_lia.
  - by apply get_size_put.
  - split_and!.
    + etransitivity; [|exact W1]. apply get_size_ext. intros x ?. rewrite H5, H3; unfold link_byte; heap_lia || done.
    + unfold get_free. rewrite H5 by lia. unfold m3. rewrite set_next_other by (unfold link_byte; heap_lia). apply get_free_put.
    + etransitivity; [|exact W3]. apply get_size_ext. intros x ?. rewrite H5, H3; unfold link_byte; heap_lia || done.
    + etransitivity; [|exact W4]. apply (f_equal (λ b, negb (b =? 0))). rewrite H5, H3; unfold link_byte; heap_lia || done.
  - transitivity (get_next m3 nb); [|by apply get_next_set].
    unfold get_next, load64. apply load_ext. intros x ?. apply H5. heap_lia.
  - intros x Hx. unfold m5, m4. rewrite !put_size_other by (unfold nb in *; heap_lia).
    rewrite H3 by (unfold link_byte, nb in *; heap_lia). unfold m2. rewrite W5 by (unfold nb in *; heap_lia).
    unfold m1. rewrite put_free_other by (unfold nb in *; heap_lia).
    apply put_size_other. unfold nb in *; heap_lia.
Qed.

Lemma take_block_eq c prev total h :
  let h1 := remove_block_from_free_list c prev h in
  let rem := get_size (hmem h1) c - total in
  let h2 := if MIN_BLOCK <=? rem then carved c total rem h1 else h1 in
  take_block c prev total h = with_hmem (mark (hmem h2) c) h2.
Proof. reflexivity. Qed.

Lemma unlinked h bl fl1 c fl2 sz :
  hinv h bl (fl1 ++ c :: fl2) → blk_at bl c sz true →
  let h1 := remove_block_from_free_list c (default 0 (last fl1)) h in
  hinv h1 bl (filter (λ b, b ≠ c) (fl1 ++ c :: fl2)) ∧ kept_alloc bl (hmem h) (hmem h1).
Proof using H0.
  intros Hi Hb h1. destruct (remove_inv h bl (fl1 ++ c :: fl2) c sz Hi) as (h1' & E & Hi1 & _ & K & _); [set_solver|done|].
  rewrite (remove_loop_spec h fl1 c fl2 _ _ 0 []) in E; [|apply (hi_list _ _ _ Hi)| |pose proof (hi_fuel _ _ _ Hi) as Hf; rewrite length_app in Hf; lia|done].
  - injection E as <-. done.
  - pose proof (hi_nodup _ _ _ Hi) as Hnd. apply NoDup_app in Hnd as (_ & Hnd & _). intros Hin. apply (Hnd c Hin). set_solver.
Qed.

Lemma carve_blocks l1 sz total l2 p s g :
  blk_at (l1 ++ carve sz total false ++ l2) p s g ↔
    blk_at l1 p s g ∨ (p = HEAP_START + span l1 ∧ s = capacity sz total ∧ g = false) ∨
    (MIN_BLOCK ≤ sz - total ∧ p = HEAP_START + span l1 + total ∧ s = sz - total ∧ g = true) ∨
    at_block (HEAP_START + span l1 + sz) l2 p s g.
Proof.
  unfold carve, capacity. case_cmp; simpl; rewrite blk_at_mid.
  - rewrite at_block_cons. replace (HEAP_START + span l1 + total + (sz - total)) with (HEAP_START + span l1 + sz) by lia. tauto.
  - naive_solver lia.
Qed.

Lemma take_block_spec h bl fl1 c fl2 sz total :
  no_adj bl → hinv h bl (fl1 ++ c :: fl2) → (∀ p s, blk_at bl p s true → p ∈ fl1 ++ c :: fl2) →
  blk_at bl c sz true → MIN_BLOCK ≤ total ≤ sz → total `mod` ALIGNMENT = 0 →
  let h' := take_block c (default 0 (last fl1)) total h in
  ∃ bl', heap_ok h' bl' ∧ kept_alloc bl (hmem h) (hmem h') ∧
    ∀ p s, blk_at bl' p s false ↔ blk_at bl p s false ∨ (p = c ∧ s = capacity sz total).
Proof using H0.
  intros Hadj Hi Hl Hb Htot H8 h'. destruct (unlinked h bl fl1 c fl2 sz Hi Hb) as [Hi1 K1].
  set (h1 := remove_block_from_free_list c (default 0 (last fl1)) h) in *.
  set (fl := filter (λ b, b ≠ c) (fl1 ++ c :: fl2)) in *.
  pose proof Hb as (l1 & l2 & -> & Ec). pose proof (hi_tiles _ _ _ Hi1) as Ht.
  destruct (tiles_mid _ _ _ _ _ _ Ht) as (N0 & (M0 & M8 & M63) & (B1 & _ & B3 & _) & Eb & T1 & T2).
  rewrite <-Ec in B1, B3, Eb, T1, T2. pose proof (hi_end _ _ _ Hi1).
  assert (is_u64 (free_list h1)) as Hu.
  { pose proof (hi_list _ _ _ Hi1) as Hfl. destruct fl as [|b fl']; simpl in Hfl; [rewrite Hfl; word|].
    destruct Hfl as (-> & _). eapply (hi_u64 h1); [done|apply list_elem_of_here]. }
  assert (h' = let h2 := if MIN_BLOCK <=? sz - total then carved c total (sz - total) h1 else h1 in
    with_hmem (mark (hmem h2) c) h2) as Eh.
  { unfold h'. rewrite take_block_eq. fold h1. by rewrite B1. }
  set (h2 := if MIN_BLOCK <=? sz - total then carved c total (sz - total) h1 else h1) in *. simpl in Eh.
  (* the block to mark *)
  assert (get_size (hmem h2) c = capacity sz total ∧
    get_size (hmem h2) (c + capacity sz total - SIZEOF_FOOTER) = capacity sz total ∧
    (∀ x, ¬ c ≤ x < c + sz → hmem h2 x = hmem h1 x) ∧
    (MIN_BLOCK ≤ sz - total → block_at (hmem h2) (c + total) (sz - total) true ∧
       get_next (hmem h2) (c + total) = free_list h1 ∧ free_list h2 = c + total) ∧
    (sz - total < MIN_BLOCK → free_list h2 = free_list h1) ∧ heap_end h2 = heap_end h1)
    as (C1 & C2 & C3 & C4 & C5 & C6).
  { unfold h2, capacity. case_cmp; [|split_and!; done || lia].
    destruct (carved_spec h1 c total (sz - total)) as (D1 & D2 & D3 & D4 & D5); [unfold is_u64; heap_lia..|done|].
    split_and!; try done; [|lia]. intros x Hx. apply D5. lia. }
  assert (MIN_BLOCK ≤ capacity sz total ≤ sz ∧ capacity sz total `mod` ALIGNMENT = 0) as [Hcap Hcap8].
  { unfold capacity. case_cmp; heap_lia || (split; [heap_lia|done]). }
  destruct (mark_spec (hmem h2) c (capacity sz total) C1 C2) as [Mb Mo]; [lia|].
  assert (∀ x, ¬ c ≤ x < c + sz → hmem h' x = hmem h1 x) as Hout.
  { intros x Hx. rewrite Eh. simpl. rewrite Mo by heap_lia. by apply C3. }
  assert (∀ p s g, blk_at (l1 ++ (sz, true) :: l2) p s g → p ≠ c → p + s ≤ c ∨ c + sz ≤ p) as Hdis.
  { intros p s g Hp Hne. destruct (at_block_disjoint _ _ _ _ _ _ _ _ _ _ Ht Hp Hb) as [(? & _)|D]; done || lia. }
  assert (∀ p s g, blk_at (l1 ++ (sz, true) :: l2) p s g ↔
    blk_at l1 p s g ∨ (p = c ∧ s = sz ∧ g = true) ∨ at_block (c + sz) l2 p s g) as Hold.
  { intros p s g. rewrite blk_at_mid, <-Ec. tauto. }
  assert (∀ p s g, (blk_at l1 p s g ∨ at_block (c + sz) l2 p s g) → p ≠ c) as Hne.
  { intros p s g [Hp|Hp] ->.
    - destruct (at_block_bounds _ _ _ _ _ _ _ T1 Hp), (at_block_size _ _ _ _ _ _ _ T1 Hp) as [? _]. heap_lia.
    - destruct (at_block_bounds _ _ _ _ _ _ _ T2 Hp). heap_lia. }
  assert (∀ p, p ∈ fl → p ≠ c ∧ ∃ s, blk_at (l1 ++ (sz, true) :: l2) p s true) as Hfl.
  { intros p Hp. split; [by apply list_elem_of_filter in Hp as [? _]|by apply (hi_free _ _ _ Hi1)]. }
  assert (flist (hmem h') (free_list h1) fl) as Hlinks.
  { eapply flist_ext; [|apply (hi_list _ _ _ Hi1)]. intros b x Hbf Hx. apply Hout.
    destruct (Hfl b Hbf) as (? & s & Hbs). pose proof (blk_bounds _ _ _ _ _ _ Hi1 Hbs).
    destruct (Hdis _ _ _ Hbs); unfold link_byte in Hx; heap_lia. }
  assert (∀ p s, (blk_at l1 p s true ∨ at_block (c + sz) l2 p s true) → p ∈ fl) as Hin.
  { intros p s Hp. apply list_elem_of_filter. split; [by eapply Hne|]. apply (Hl p s), Hold. tauto. }
  apply no_adj_app in Hadj as (HL & [HR0 HR] & HL0). simpl in HL0, HR0. rewrite andb_true_r in HL0.
  exists (l1 ++ carve sz total false ++ l2). split_and!.
  - split.
    { rewrite !no_adj_app. unfold carve. case_cmp; simpl; rewrite ?HL0, ?andb_false_r; split_and!; try done. }
    exists (if MIN_BLOCK <=? sz - total then c + total :: fl else fl). split; [split|].
    + rewrite Eh. cbn [hmem with_hmem heap_end]. rewrite C6. 
      eapply (tiles_replace (hmem h1) _ l1 l2 _ sz); rewrite <-?Ec; try done.
      { intros x Hx. specialize (Hout x). rewrite Eh in Hout. by apply Hout. }
      revert Mb Mo C4. unfold carve, capacity. case_cmp; intros Mb Mo C4; simpl.
      * destruct C4 as (C4 & _); [done|]. unfold size_ok. split_and!; try done; try heap_lia.
        -- unfold ALIGNMENT in *. by rewrite Zminus_mod, M8, H8.
        -- eapply block_at_ext; [|exact C4]. intros x Hx. apply Mo; unfold tag_byte in Hx; heap_lia.
      * by split_and!.
    + rewrite Eh. simpl. by rewrite C6.
    + case_cmp.
      * destruct C4 as (_ & C4n & C4f); [done|]. split_and!; [by rewrite Eh|unfold is_u64 in *; heap_lia|].
        assert (get_next (hmem h') (c + total) = free_list h1) as ->; [|done].
        rewrite <-C4n. unfold get_next, load64. apply load_ext. intros x Hx. rewrite Eh. cbn [hmem with_hmem].
        apply Mo; [heap_lia|]. unfold capacity. case_cmp; heap_lia.
      * assert (free_list h' = free_list h1) as ->; [|done]. rewrite Eh. by apply C5.
    + pose proof (hi_nodup _ _ _ Hi1). case_cmp; [|done]. apply NoDup_cons. split; [|done].
      intros (? & s & Hbs)%Hfl. pose proof (blk_bounds _ _ _ _ _ _ Hi1 Hbs).
      destruct (Hdis _ _ _ Hbs); heap_lia.
    + intros p Hp. assert (p ∈ fl → ∃ s, blk_at (l1 ++ carve sz total false ++ l2) p s true) as Hfl'.
      { intros (? & s & Hbs)%Hfl. exists s. apply carve_blocks. apply Hold in Hbs. rewrite <-Ec. naive_solver. }
      revert Hp. case_cmp; [|done]. intros [->|?]%elem_of_cons; [|by apply Hfl'].
      exists (sz - total). apply carve_blocks. rewrite <-Ec. tauto.
    + intros p s Hp%carve_blocks. rewrite <-Ec in Hp.
      assert (p ∈ fl ∨ (MIN_BLOCK ≤ sz - total ∧ p = c + total)) as Hc by (specialize (Hin p s); naive_solver).
      case_cmp; rewrite ?elem_of_cons; naive_solver lia.
  - intros p s x Hp Hx. rewrite Hout; [by eapply K1|].
    destruct (at_block_disjoint _ _ _ _ _ _ _ _ _ _ Ht Hp Hb) as [(_ & _ & ?)|D]; [done|lia].
  - intros p s. rewrite carve_blocks, Hold, <-Ec. naive_solver.
Qed.

(** ** Searching the free list *)

(** What a successful allocation of block [c] with [cap] bytes leaves. *)
Record taken h bl total h' c cap : Prop := {
  tk_ok : ∃ bl', heap_ok h' bl' ∧ ∀ p s, blk_at bl' p s false ↔ blk_at bl p s false ∨ (p = c ∧ s = cap);
  tk_kept : kept_alloc bl (hmem h) (hmem h');
  tk_size : total ≤ cap;
  tk_free : ∃ sz, blk_at bl c sz true ∧ cap ≤ sz;
  tk_vm : vm h' = vm h;
  tk_end : heap_end h' = heap_end h;
}.

Lemma take_block_vm c prev total h : vm (take_block c prev total h) = vm h ∧ heap_end (take_block c prev total h) = heap_end h.
Proof. unfold take_block, remove_block_from_free_list. repeat case_match; done. Qed.

Lemma allocate_loop_spec h bl total fl1 fl2 fuel curr :
  no_adj bl → hinv h bl (fl1 ++ fl2) → (∀ p s, blk_at bl p s true → p ∈ fl1 ++ fl2) →
  MIN_BLOCK ≤ total → total `mod` ALIGNMENT = 0 →
  flist (hmem h) curr fl2 → (length fl2 < fuel)%nat → (∀ p s, p ∈ fl1 → blk_at bl p s true → s < total) →
  (allocate_loop fuel curr (default 0 (last fl1)) total h = Ok (h, 0) ∧ ∀ p s, blk_at bl p s true → s < total) ∨
  ∃ h' c cap, allocate_loop fuel curr (default 0 (last fl1)) total h = Ok (h', c) ∧ taken h bl total h' c cap.
Proof using H0.
  intros Hadj Hi Hl Hmin H8. revert fl1 fuel curr Hi Hl.
  induction fl2 as [|b fl2 IH]; intros fl1 fuel curr Hi Hl Hf Hfuel Hsm;
    (destruct fuel as [|fuel]; [simpl in Hfuel; lia|]); cbn [allocate_loop]; simpl in Hf.
  - rewrite Hf. left. split; [done|]. intros p s Hp. eapply Hsm; [|done]. apply Hl in Hp. by rewrite app_nil_r in Hp.
  - destruct Hf as (-> & Hb & Hf). rewrite (proj2 (Z.eqb_neq _ _) Hb).
    destruct (hi_free _ _ _ Hi b) as [sz Hsz]; [set_solver|].
    assert (get_size (hmem h) b = sz) as -> by apply (at_block_mem _ _ _ _ _ _ _ (hi_tiles _ _ _ Hi) Hsz).
    destruct (Z.leb_spec total sz) as [Hle|Hgt].
    + right. exists (take_block b (default 0 (last fl1)) total h), b, (capacity sz total). split; [done|].
      destruct (take_block_spec h bl fl1 b fl2 sz total) as (bl' & Hok & K & Hbl); [done..|].
      destruct (take_block_vm b (default 0 (last fl1)) total h).
      split; [by exists bl'|done| |exists sz; split; [done|]|done|done]; unfold capacity; case_cmp; heap_lia.
    + specialize (IH (fl1 ++ [b]) fuel (get_next (hmem h) b)). rewrite last_snoc, <-app_assoc in IH.
      apply IH; [done|done|done|simpl in Hfuel; lia|]. intros p s Hp Hps.
      apply elem_of_app in Hp as [Hp|Hp]; [by eapply Hsm|]. apply list_elem_of_singleton in Hp as ->.
      destruct (at_block_fun _ _ _ _ _ _ _ _ _ (hi_tiles _ _ _ Hi) Hsz Hps). lia.
Qed.

Lemma allocate_block_spec h bl size :
  heap_ok h bl → 0 < size ≤ 2 ^ 46 →
  (allocate_block size h = Ok (h, 0) ∧ ∀ p s, blk_at bl p s true → s < total_size size) ∨
  ∃ h' c cap, allocate_block size h = Ok (h', c) ∧ taken h bl (total_size size) h' c cap.
Proof using H0.
  intros (Hadj & fl & Hi & Hl) Hs. destruct (total_size_spec size Hs) as (T8 & T0 & T1).
  apply (allocate_loop_spec h bl _ [] fl); [done..|apply (hi_list _ _ _ Hi)|by eapply hi_fuel|].
  by intros p s ?%not_elem_of_nil.
Qed.

(** ** The allocator *)

(** The heap [h] holds exactly the live allocations [L]: an address and the
    bytes its owner may use. *)
Definition allocs h (L : gmap Z Z) : Prop :=
  ∃ bl, heap_ok h bl ∧ ∀ p n, L !! p = Some n ↔ blk_at bl (p - SIZEOF_BLOCK) (n + SIZEOF_BLOCK + SIZEOF_FOOTER) false.

(** The bytes of every live allocation but [p] are kept. *)
Definition contents_kept (L : gmap Z Z) p h h' : Prop :=
  ∀ q n x, L !! q = Some n → q ≠ p → q ≤ x < q + n → hmem h' x = hmem h x.

(** The pages [kmalloc] grows by when no block fits. *)
Definition grow_pages (size : Z) : Z := Z.max 4 ((size + 32 + 4095) / 4096).

Definition none_fits size h : Prop :=
  ∃ bl, heap_ok h bl ∧ ∀ p s, blk_at bl p s true → s < total_size size.

(** What [kmalloc] promises. *)
Definition kmalloc_ensures size h L (r : Res (Heap A * Z)) : Prop :=
  match r with
  | Ok (h', p) => ∃ n, size ≤ n ∧ p `mod` ALIGNMENT = 0 ∧ HEAP_START < p ∧ p + n ≤ HEAP_MAX ∧
      L !! p = None ∧ allocs h' (<[p := n]> L) ∧ contents_kept L p h h' ∧
      ∀ q k, L !! q = Some k → q + k ≤ p ∨ p + n ≤ q
  | Halt => none_fits size h ∧ cannot_grow (grow_pages size) h
  | _ => False
  end.

Lemma taken_ensures h bl L size total h' c cap :
  heap_ok h bl → (∀ p n, L !! p = Some n ↔ blk_at bl (p - SIZEOF_BLOCK) (n + SIZEOF_BLOCK + SIZEOF_FOOTER) false) →
  taken h bl total h' c cap → size + 32 ≤ total →
  kmalloc_ensures size h L (Ok (h', data_from_block c)).
Proof.
  intros (Hadj & fl & Hi & Hl) HL [(bl' & Hok' & Hbl') K Ht (sz & Hc & Hcap) V E] Hs.
  pose proof (blk_bounds _ _ _ _ _ _ Hi Hc). pose proof (hi_end _ _ _ Hi).
  assert (blk_at bl' c cap false) as Hc' by (apply Hbl'; by right).
  pose proof Hok' as (_ & fl' & Hi' & _). unfold data_from_block. exists (cap - 32). split_and!.
  - lia.
  - pose proof (hi_tiles _ _ _ Hi') as Ht'. destruct Hc' as (l1 & l2 & -> & ->).
    apply tiles_app in Ht' as [Ht1 _]. apply tiles_mod8 in Ht1. unfold ALIGNMENT, SIZEOF_BLOCK.
    rewrite <-Z.add_assoc, (Z.add_comm (span l1)), Z.add_assoc, <-Zplus_mod_idemp_r, Ht1. done.
  - heap_lia.
  - heap_lia.
  - destruct (L !! (c + SIZEOF_BLOCK)) as [n|] eqn:En; [|done]. apply HL in En.
    replace (c + SIZEOF_BLOCK - SIZEOF_BLOCK) with c in En by lia.
    destruct (at_block_fun _ _ _ _ _ _ _ _ _ (hi_tiles _ _ _ Hi) Hc En). done.
  - exists bl'. split; [done|]. intros p n. rewrite Hbl', <-HL.
    destruct (decide (p = c + SIZEOF_BLOCK)) as [->|Hne].
    + rewrite lookup_insert_eq. split; [intros [= <-]; right; heap_lia|].
      intros [En|[_ En]]; [|f_equal; heap_lia].
      apply HL in En. replace (c + SIZEOF_BLOCK - SIZEOF_BLOCK) with c in En by lia.
      destruct (at_block_fun _ _ _ _ _ _ _ _ _ (hi_tiles _ _ _ Hi) Hc En). done.
    + rewrite lookup_insert_ne by done. split; [by left|]. intros [?|[? _]]; [done|heap_lia].
  - intros q n x Hq%HL Hne Hx. eapply K; [done|heap_lia].
  - intros q k Hq%HL. assert (blk_at bl' (q - SIZEOF_BLOCK) (k + SIZEOF_BLOCK + SIZEOF_FOOTER) false) as Hq' by (apply Hbl'; by left).
    destruct (at_block_disjoint _ _ _ _ _ _ _ _ _ _ (hi_tiles _ _ _ Hi') Hq' Hc') as [(Eq & _)|D]; [|heap_lia].
    rewrite Eq in Hq. destruct (at_block_fun _ _ _ _ _ _ _ _ _ (hi_tiles _ _ _ Hi) Hc Hq). done.
Qed.

Lemma kmalloc_spec h L size :
  allocs h L → 0 < size ≤ 2 ^ 46 → kmalloc_ensures size h L (kmalloc size h).
Proof using H0.
  intros (bl & Hok & HL) Hs. destruct (total_size_spec size Hs) as (T8 & T0 & T1).
  unfold kmalloc. rewrite (proj2 (Z.eqb_neq size 0)) by lia.
  destruct (allocate_block_spec h bl size Hok Hs) as [(-> & Hnone)|(h' & c & cap & -> & Tk)]; res_step; cycle 1.
  { assert (c ≠ 0) as Hc0.
    { destruct (tk_free _ _ _ _ _ _ Tk) as (sz & Hc & _). pose proof Hok as (_ & fl & Hi & _).
      apply (blk_bounds _ _ _ _ _ _ Hi Hc). }
    rewrite (proj2 (Z.eqb_neq c 0)) by done. cbn [negb]. eapply taken_ensures; [done..|lia]. }
  cbn [negb Z.eqb]. unfold SIZEOF_BLOCK, SIZEOF_FOOTER, PAGE_SIZE.
  rewrite (u64_small (size + 16 + 16)) by (unfold is_u64; lia). rewrite u64_small by (unfold is_u64; lia).
  assert ((if 4 <? (size + 16 + 16 + 4096 - 1) / 4096 then (size + 16 + 16 + 4096 - 1) / 4096 else 4) = grow_pages size) as ->.
  { unfold grow_pages. replace (size + 16 + 16 + 4096 - 1) with (size + 32 + 4095) by lia. case_cmp; lia. }
  assert (1 ≤ grow_pages size ≤ 2 ^ 34 + 1 ∧ total_size size ≤ grow_pages size * 4096) as [Hg Hg'].
  { unfold grow_pages. pose proof (Z.div_mod (size + 32 + 4095) 4096). pose proof (Z.mod_pos_bound (size + 32 + 4095) 4096).
    split; [lia|]. apply Z.mod_divide in T8 as [k Hk]; [|done]. unfold ALIGNMENT in Hk. lia. }
  destruct (grow_heap_spec h bl (grow_pages size) Hok Hg) as [[-> Hcg]|(h1 & bl1 & p & s & -> & Hok1 & Same & K & B & Hsz)].
  { split; [by exists bl|done]. }
  res_step. assert (∀ p n, L !! p = Some n ↔ blk_at bl1 (p - SIZEOF_BLOCK) (n + SIZEOF_BLOCK + SIZEOF_FOOTER) false) as HL1.
  { intros q n. rewrite HL. apply Same. }
  destruct (allocate_block_spec h1 bl1 size Hok1 Hs) as [(-> & Hnone1)|(h' & c & cap & -> & Tk)]; res_step.
  { apply Hnone1 in B. lia. }
  assert (c ≠ 0) as Hc0.
  { destruct (tk_free _ _ _ _ _ _ Tk) as (sz & Hc & _). pose proof Hok1 as (_ & fl & Hi & _).
    apply (blk_bounds _ _ _ _ _ _ Hi Hc). }
  rewrite (proj2 (Z.eqb_neq c 0)) by done.
  destruct (taken_ensures h1 bl1 L size _ h' c cap Hok1 HL1 Tk) as (n & N1 & N2 & N3 & N4 & N5 & N6 & N7 & N8); [lia|].
  exists n. split_and!; try done. intros q k x Hq Hne Hx. rewrite (N7 q k x) by done.
  apply HL in Hq. eapply K; [done|heap_lia].
Qed.

Lemma kfree_spec h L p n :
  allocs h L → L !! p = Some n →
  ∃ h' bl' q s, kfree p h = Ok h' ∧ heap_ok h' bl' ∧ allocs h' (delete p L) ∧ contents_kept L p h h' ∧
    vm h' = vm h ∧ heap_end h' = heap_end h ∧ blk_at bl' q s true ∧ n + 32 ≤ s.
Proof using H0.
  intros (bl & (Hadj & fl & Hi & Hl) & HL) Hp. pose proof (proj1 (HL p n) Hp) as Hb.
  pose proof (blk_bounds _ _ _ _ _ _ Hi Hb). unfold kfree, block_from_data.
  set (b := p - SIZEOF_BLOCK) in *. set (sz := n + SIZEOF_BLOCK + SIZEOF_FOOTER) in *.
  rewrite (proj2 (Z.eqb_neq p 0)) by (unfold b in *; heap_lia).
  pose proof Hb as (l1 & l2 & -> & Eb). pose proof (hi_tiles _ _ _ Hi) as Ht.
  destruct (tiles_mid _ _ _ _ _ _ Ht) as (N0 & Hsz & (B1 & B2 & B3 & B4) & Ee & T1 & T2).
  rewrite <-Eb in B1, B2, B3, B4, Ee, T1, T2. rewrite B2.
  set (m := put_free (hmem h) b true).
  assert (footer_of_block m b = b + sz - SIZEOF_FOOTER) as ->.
  { unfold footer_of_block. do 2 f_equal. etransitivity; [|exact B1]. apply get_size_ext.
    intros x ?. apply put_free_other. lia. }
  set (m' := put_free m (b + sz - SIZEOF_FOOTER) true).
  assert (∀ x, x ≠ b + 8 → x ≠ b + sz - 8 → m' x = hmem h x) as Hout.
  { intros x ? ?. unfold m', m. rewrite !put_free_other by heap_lia. done. }
  assert (b ∉ fl) as Hbfl.
  { intros Hin. apply (hi_free _ _ _ Hi) in Hin as [s' Hb'].
    destruct (at_block_fun _ _ _ _ _ _ _ _ _ Ht Hb Hb'). done. }
  apply no_adj_app in Hadj as (HL1 & [_ HR] & _).
  assert (∀ q s g, blk_at (l1 ++ (sz, true) :: l2) q s g ↔ (q = b ∧ s = sz ∧ g = true) ∨ blk_at (l1 ++ (sz, false) :: l2) q s g ∧ q ≠ b) as Hnew.
  { assert (∀ q s g, blk_at l1 q s g ∨ at_block (b + sz) l2 q s g → q ≠ b) as Hne.
    { intros q s g [Hq|Hq] ->.
      - destruct (at_block_bounds _ _ _ _ _ _ _ T1 Hq), (at_block_size _ _ _ _ _ _ _ T1 Hq) as [? _]. heap_lia.
      - destruct (at_block_bounds _ _ _ _ _ _ _ T2 Hq). heap_lia. }
    intros q s g. specialize (Hne q s g). rewrite !blk_at_mid, <-Eb. naive_solver. }
  assert (loose (with_hmem m' h) l1 sz l2 fl) as Hlo.
  { split; rewrite <-?Eb; try done.
    - split; simpl; [|apply (hi_end _ _ _ Hi)| |apply (hi_nodup _ _ _ Hi)|].
      + change (l1 ++ (sz, true) :: l2) with (l1 ++ [(sz, true)] ++ l2).
        eapply (tiles_replace (hmem h) _ l1 l2 _ sz); rewrite <-?Eb; try done.
        { intros x Hx. apply Hout; heap_lia. }
        simpl. split; [done|split; [|done]]. split_and!.
        * etransitivity; [|exact B1]. apply get_size_ext. intros x ?. apply Hout; heap_lia.
        * unfold m', m, get_free. rewrite put_free_other by heap_lia. apply get_free_put.
        * etransitivity; [|exact B3]. apply get_size_ext. intros x ?. apply Hout; heap_lia.
        * apply get_free_put.
      + eapply flist_ext; [|apply (hi_list _ _ _ Hi)]. intros c x Hc Hx.
        destruct (hi_free _ _ _ Hi _ Hc) as [sc Hcb]. pose proof (blk_bounds _ _ _ _ _ _ Hi Hcb).
        destruct (at_block_disjoint _ _ _ _ _ _ _ _ _ _ Ht Hcb Hb) as [(-> & _)|D]; [done|].
        unfold link_byte in Hx. apply Hout; heap_lia.
      + intros q Hq. destruct (hi_free _ _ _ Hi _ Hq) as [s Hs]. exists s. apply Hnew. right. split; [done|naive_solver].
    - intros q s Hq%Hnew. destruct Hq as [(-> & _)|[Hq _]]; [by left|right; by eapply Hl]. }
  destruct (coalesce_spec _ _ _ _ _ Hlo) as (h' & bl' & q & s' & E & Hok' & R & Bq & P1 & P2).
  rewrite <-Eb in E, P1, P2. exists h', bl', q, s'. split_and!; try done.
  - exists bl'. split; [done|]. intros r k. rewrite <-(re_same _ _ _ _ R (r - SIZEOF_BLOCK) (k + SIZEOF_BLOCK + SIZEOF_FOOTER)), Hnew, lookup_delete_Some, HL.
    unfold b. split; [intros [? ?]; right; split; [done|heap_lia]|]. intros [(_ & _ & ?)|[? ?]]; [done|]. split; [lia|done].
  - intros r k x Hr Hne Hx. apply HL in Hr.
    assert (blk_at (l1 ++ (sz, true) :: l2) (r - SIZEOF_BLOCK) (k + SIZEOF_BLOCK + SIZEOF_FOOTER) false) as Hr'.
    { apply Hnew. right. split; [done|unfold b; lia]. }
    rewrite (re_kept _ _ _ _ R _ _ x Hr') by heap_lia. simpl.
    destruct (at_block_disjoint _ _ _ _ _ _ _ _ _ _ Ht Hr Hb) as [(Eq & _)|D]; [unfold b in Eq; lia|].
    apply Hout; heap_lia.
  - by rewrite (re_vm _ _ _ _ R).
  - by rewrite (re_end _ _ _ _ R).
  - unfold sz in *. heap_lia.
Qed.

(** ** The properties *)

(** C8. [kmalloc] implements allocation in the map of live allocations: it
    returns an 8-aligned address inside the heap with at least [size] usable bytes,
    disjoint from every live allocation and recorded as live, and changes no byte
    of the others.  It stops the machine only when no free block is large enough
    and the heap cannot grow: its 4 GiB are used up or no frame is left. *)
Theorem kmalloc_refines h L size :
  allocs h L → 0 < size ≤ 2 ^ 46 → kmalloc_ensures size h L (kmalloc size h).
Proof using H0. apply kmalloc_spec. Qed.

(** C9. [kfree] of a live allocation implements its removal from the map: it
    always returns, every other allocation stays live with its bytes, neither the
    page tables nor the heap's extent change, and the structure keeps its
    invariant: no two free neighbours are left unmerged. *)
Theorem kfree_refines h L p n :
  allocs h L → L !! p = Some n →
  ∃ h', kfree p h = Ok h' ∧ allocs h' (delete p L) ∧ contents_kept L p h h' ∧
    vm h' = vm h ∧ heap_end h' = heap_end h.
Proof using H0.
  intros Ha Hp. destruct (kfree_spec h L p n Ha Hp) as (h' & bl' & q & s & E & _ & Ha' & K & V & He & _).
  by exists h'.
Qed.

(** Freed memory is reusable: after freeing an allocation of capacity [n], a
    request that rounds to at most its block succeeds without growing the heap, so
    without taking a frame or changing a page table. *)
Theorem freed_memory_is_reused h L p n size :
  allocs h L → L !! p = Some n → 0 < size ≤ 2 ^ 46 → total_size size ≤ n + 32 →
  ∃ h1 h2 q, kfree p h = Ok h1 ∧ kmalloc size h1 = Ok (h2, q) ∧ q ≠ 0 ∧
    vm h2 = vm h ∧ heap_end h2 = heap_end h.
Proof using H0.
  intros Ha Hp Hs Hfit.
  destruct (kfree_spec h L p n Ha Hp) as (h1 & bl & q & s & E & Hok & Ha' & K & V & He & Hq & Hqs).
  destruct (allocate_block_spec h1 bl size Hok Hs) as [(_ & Hnone)|(h2 & c & cap & E2 & Tk)].
  { apply Hnone in Hq. lia. }
  assert (HEAP_START ≤ c) as Hc.
  { destruct (tk_free _ _ _ _ _ _ Tk) as (sz & Hc & _). pose proof Hok as (_ & fl & Hi & _).
    apply (blk_bounds _ _ _ _ _ _ Hi Hc). }
  exists h1, h2, (data_from_block c). split; [done|]. split.
  - unfold kmalloc. rewrite (proj2 (Z.eqb_neq size 0)) by lia. rewrite E2. res_step.
    by rewrite (proj2 (Z.eqb_neq c 0)) by heap_lia.
  - split_and!; [unfold data_from_block; heap_lia|by rewrite (tk_vm _ _ _ _ _ _ Tk)|by rewrite (tk_end _ _ _ _ _ _ Tk)].
Qed.

End props.

(** ** Concrete runs *)

(** A heap with no pages yet, over blank memory with sixteen free frames. *)
Definition empty_heap : Heap Pmm.Pmm :=
  MkHeap (λ _, 0) 0 HEAP_START (MkVmm (λ _, 0) (MkPmm {[ 32 := 0; 33 := 0 ]} 16 0) 0x1000 0).

Lemma empty_heap_allocs : allocs empty_heap ∅.
Proof.
  exists []. split; [split; [done|]|].
  - exists []. split; [|by intros p s ?%at_block_nil]. split; try done; [apply NoDup_nil; done|by intros p ?%not_elem_of_nil].
  - intros p n. rewrite lookup_empty. split; [done|by intros ?%at_block_nil].
Qed.

Lemma kmalloc_100_ok : is_ok (kmalloc 100 empty_heap) = true.
Proof. vm_compute. reflexivity. Qed.

Lemma kmalloc_refines_witness :
  ∃ h p, kmalloc 100 empty_heap = Ok (h, p) ∧ kmalloc_ensures 100 empty_heap ∅ (Ok (h, p)).
Proof.
  destruct (is_ok_inv _ kmalloc_100_ok) as [[h p] E]. exists h, p. split; [exact E|].
  rewrite <-E. apply (kmalloc_refines empty_heap ∅ 100); [exact empty_heap_allocs|lia].
Defined.

Lemma one_allocation : ∃ h p n, allocs (h : Heap Pmm.Pmm) {[ p := n ]} ∧ total_size 96 ≤ n + 32.
Proof.
  destruct (is_ok_inv _ kmalloc_100_ok) as [[h p] E].
  pose proof (kmalloc_spec empty_heap ∅ 100 empty_heap_allocs ltac:(lia)) as K. rewrite E in K.
  destruct K as (n & Hn & _ & _ & _ & _ & Ha & _). exists h, p, n. split; [exact Ha|].
  change (total_size 96) with 128. lia.
Qed.

Lemma kfree_refines_witness : ∃ h p h', kfree p h = Ok h' ∧ allocs (h' : Heap Pmm.Pmm) (delete p {[ p := 0 ]}).
Proof.
  destruct one_allocation as (h & p & n & Ha & _).
  destruct (kfree_refines h {[ p := n ]} p n Ha (lookup_singleton_eq p n)) as (h' & E & Ha' & _).
  exists h, p, h'. split; [exact E|]. by rewrite delete_singleton_eq in Ha' |- *.
Defined.

Lemma freed_memory_is_reused_witness :
  ∃ h p h1 h2 q, kfree p h = Ok h1 ∧ kmalloc 96 (h1 : Heap Pmm.Pmm) = Ok (h2, q) ∧ heap_end h2 = heap_end h.
Proof.
  destruct one_allocation as (h & p & n & Ha & Hn).
  destruct (freed_memory_is_reused h {[ p := n ]} p n 96 Ha (lookup_singleton_eq p n) ltac:(lia) Hn)
    as (h1 & h2 & q & E1 & E2 & _ & _ & E3).
  exists h, p, h1, h2, q. done.
Defined.
