(* ===== verification/Task.v ===== *)
(** * Tasks ([task/task.cpp])

    The task control block and [task::create].  Blocks come from the heap, which
    is used through the interface [KernelEnv]; a task pointer is the address of
    its block, and the live control blocks are a finite map from pointers.  The
    bytes of kernel stacks and FXSAVE areas are in the memory [km]. *)

From S2P Require Import Prelude Mem.

(** ** What tasks need from the rest of the kernel *)

Class KernelEnv (K : Type) := {
  (** [heap::kmalloc]; 0 is the null pointer. *)
  kmalloc : Z → K → Res (K * Z);
  kfree : Z → K → Res K;
  (** [vmm::destroy_address_space]. *)
  k_destroy : Z → K → Res K;
  (** [vmm::create_address_space] and [vmm::clone_address_space(dst, src)]. *)
  k_create : K → Res (K * Z);
  k_clone : Z → Z → K → Res K;
  (** The blocks handed out and not yet freed. *)
  k_live : K → Z → bool;
  (** The address spaces created and not yet destroyed, by CR3, each with a value that
      stands for the pages it has and what they hold. *)
  k_space : K → Z → option Z;
}.

Class KernelEnvLaws (K : Type) `{KernelEnv K} := {
  kmalloc_total n k : (∃ r, kmalloc n k = Ok r) ∨ kmalloc n k = Halt;
  kmalloc_spec n k k' p : kmalloc n k = Ok (k', p) →
    (p = 0 ∧ ∀ q, k_live k' q = k_live k q) ∨
    (0 < p ∧ p + n < 2 ^ 64 ∧ p `mod` 8 = 0 ∧ k_live k p = false ∧
     ∀ q, k_live k' q = (q =? p) || k_live k q);
  kfree_spec p k : k_live k p = true →
    ∃ k', kfree p k = Ok k' ∧ ∀ q, k_live k' q = negb (q =? p) && k_live k q;
  kfree_null k : kfree 0 k = Ok k;
  k_destroy_spec c k : ∃ k', k_destroy c k = Ok k' ∧ ∀ q, k_live k' q = k_live k q;
  k_create_spec k :
    (∃ k' c, k_create k = Ok (k', c) ∧ ∀ q, k_live k' q = k_live k q) ∨ k_create k = Halt;
  k_clone_spec d c k :
    (∃ k', k_clone d c k = Ok k' ∧ ∀ q, k_live k' q = k_live k q) ∨ k_clone d c k = Halt;
  k_live_null k : k_live k 0 = false;
  (** The heap leaves address spaces alone. *)
  kmalloc_space n k k' p c : kmalloc n k = Ok (k', p) → k_space k' c = k_space k c;
  kfree_space p k k' c : kfree p k = Ok k' → k_space k' c = k_space k c;
  (** A new space is one more, cloning makes it what the other one is, and destroying
      takes away exactly the one named. *)
  k_create_space k k' c : k_create k = Ok (k', c) →
    k_space k c = None ∧ is_Some (k_space k' c) ∧ ∀ d, d ≠ c → k_space k' d = k_space k d;
  k_clone_space d c k k' : k_clone d c k = Ok k' →
    (∀ e, e ≠ d → k_space k' e = k_space k e) ∧
    (is_Some (k_space k d) → is_Some (k_space k' d)) ∧
    (∀ v, k_space k c = Some v → k_space k' d = Some v);
  k_destroy_space c k k' : k_destroy c k = Ok k' →
    k_space k' c = None ∧ ∀ d, d ≠ c → k_space k' d = k_space k d;
}.

(** ** Using the heap *)

Section alloc.
Context {K : Type} `{KernelEnvLaws K}.

(** A request for at least one byte can give the null pointer; the kernel's heap
    stops instead. *)
Definition can_fail : Prop := ∃ n (k k' : K), 0 < n ∧ kmalloc n k = Ok (k', 0).

Lemma null_can_fail n (k k' : K) : 0 < n → kmalloc n k = Ok (k', 0) → can_fail.
Proof. intros Hn E. by exists n, k, k'. Qed.

Lemma kmalloc_cases n (k : K) :
  kmalloc n k = Halt ∨ (∃ k', kmalloc n k = Ok (k', 0)) ∨
  ∃ k' p, kmalloc n k = Ok (k', p) ∧ p ≠ 0 ∧ k_live k' p = true.
Proof using H0.
  destruct (kmalloc_total n k) as [[[k' p] E]|E]; [|by left]. right.
  destruct (kmalloc_spec _ _ _ _ E) as [[-> _]|(Hp & _ & _ & _ & Hl)]; [by left; exists k'|right].
  exists k', p. split_and!; [done|lia|]. by rewrite Hl, Z.eqb_refl.
Qed.

(** An allocation that failed kept what was live. *)
Lemma kmalloc_null_live n (k k' : K) q : kmalloc n k = Ok (k', 0) → k_live k' q = k_live k q.
Proof using H0. intros E. destruct (kmalloc_spec _ _ _ _ E) as [[_ ?]|[? _]]; [done|lia]. Qed.

Lemma kmalloc_live n (k k' : K) p q : kmalloc n k = Ok (k', p) → k_live k q = true → k_live k' q = true.
Proof using H0.
  intros E Hq. destruct (kmalloc_spec _ _ _ _ E) as [[_ ->]|(_ & _ & _ & _ & ->)]; [done|]. by rewrite Hq, orb_true_r.
Qed.

(** A space created, whatever was cloned into it, and destroyed again: the others are as
    they were and it is gone. *)
Lemma created_destroyed (k k1 k2 : K) cr3 src :
  k_create k = Ok (k1, cr3) → k_clone cr3 src k1 = Ok k2 →
  (∀ e, e ≠ cr3 → k_space k2 e = k_space k e) ∧
  (∀ k' k3, (∀ e, k_space k' e = k_space k2 e) → k_destroy cr3 k' = Ok k3 → ∀ e, k_space k3 e = k_space k e).
Proof using H0.
  intros Ec Ek. apply k_create_space in Ec as (N & _ & C). apply k_clone_space in Ek as (L & _ & _).
  assert (∀ e, e ≠ cr3 → k_space k2 e = k_space k e) as H2 by (intros e He; rewrite L, C; done).
  split; [done|]. intros k' k3 H' Ed e. apply k_destroy_space in Ed as [D0 D].
  destruct (decide (e = cr3)) as [->|He]; [congruence|]. rewrite D, H' by done. by apply H2.
Qed.

(** A block allocated and freed again: nothing stays live that was not. *)
Lemma kmalloc_kfree n (k k1 : K) p :
  kmalloc n k = Ok (k1, p) → p ≠ 0 →
  k_live k1 p = true ∧ (∀ q, k_live k q = true → q ≠ p) ∧
  ∀ k2, (∀ q, k_live k2 q = k_live k1 q) → ∃ k3, kfree p k2 = Ok k3 ∧ ∀ q, k_live k3 q = k_live k q.
Proof using H0.
  intros E Hp. destruct (kmalloc_spec _ _ _ _ E) as [[? _]|(_ & _ & _ & Hn & Hl)]; [done|].
  assert (k_live k1 p = true) as Hlp by by rewrite Hl, Z.eqb_refl. split_and!; [done|by intros q Hq ->; congruence|].
  intros k2 H2. destruct (kfree_spec p k2) as (k3 & E3 & L3); [by rewrite H2|]. exists k3. split; [done|].
  intros q. rewrite L3, H2, Hl. destruct (Z.eqb_spec q p) as [->|]; simpl; congruence.
Qed.

End alloc.

(** ** The control block *)

Inductive State := Ready | Running | Dead.

#[export] Instance State_eq_dec : EqDecision State.
Proof. solve_decision. Defined.

Definition MAX_FDS : nat := 16.

Record Task := MkTask {
  rsp : Z; stack_base : Z; stack_size : Z; kernel_stack_top : Z;
  id : Z; state : State; entry : Z; arg : Z;
  fs_base : Z; task_cr3 : Z;
  brk_start : Z; brk_cur : Z; mmap_next : Z;
  fpu_raw : Z; fpu_state : Z;
  parent : Z; exit_code : Z;
  fds : list Z;
  next : Z;
  (** The bytes of [name] that were written: the string and its NUL. *)
  name : list Z;
}.

Definition set_rsp (v : Z) (t : Task) : Task :=
  MkTask v (stack_base t) (stack_size t) (kernel_stack_top t) (id t) (state t) (entry
    t) (arg t) (fs_base t) (task_cr3 t) (brk_start t) (brk_cur t) (mmap_next t)
    (fpu_raw t) (fpu_state t) (parent t) (exit_code t) (fds t) (next t) (name t).
Definition set_state (v : State) (t : Task) : Task :=
  MkTask (rsp t) (stack_base t) (stack_size t) (kernel_stack_top t) (id t) v (entry t)
    (arg t) (fs_base t) (task_cr3 t) (brk_start t) (brk_cur t) (mmap_next t) (fpu_raw
    t) (fpu_state t) (parent t) (exit_code t) (fds t) (next t) (name t).
Definition set_fs_base (v : Z) (t : Task) : Task :=
  MkTask (rsp t) (stack_base t) (stack_size t) (kernel_stack_top t) (id t) (state t)
    (entry t) (arg t) v (task_cr3 t) (brk_start t) (brk_cur t) (mmap_next t) (fpu_raw
    t) (fpu_state t) (parent t) (exit_code t) (fds t) (next t) (name t).
Definition set_task_cr3 (v : Z) (t : Task) : Task :=
  MkTask (rsp t) (stack_base t) (stack_size t) (kernel_stack_top t) (id t) (state t)
    (entry t) (arg t) (fs_base t) v (brk_start t) (brk_cur t) (mmap_next t) (fpu_raw
    t) (fpu_state t) (parent t) (exit_code t) (fds t) (next t) (name t).
Definition set_brk_start (v : Z) (t : Task) : Task :=
  MkTask (rsp t) (stack_base t) (stack_size t) (kernel_stack_top t) (id t) (state t)
    (entry t) (arg t) (fs_base t) (task_cr3 t) v (brk_cur t) (mmap_next t) (fpu_raw t)
    (fpu_state t) (parent t) (exit_code t) (fds t) (next t) (name t).
Definition set_brk_cur (v : Z) (t : Task) : Task :=
  MkTask (rsp t) (stack_base t) (stack_size t) (kernel_stack_top t) (id t) (state t)
    (entry t) (arg t) (fs_base t) (task_cr3 t) (brk_start t) v (mmap_next t) (fpu_raw
    t) (fpu_state t) (parent t) (exit_code t) (fds t) (next t) (name t).
Definition set_mmap_next (v : Z) (t : Task) : Task :=
  MkTask (rsp t) (stack_base t) (stack_size t) (kernel_stack_top t) (id t) (state t)
    (entry t) (arg t) (fs_base t) (task_cr3 t) (brk_start t) (brk_cur t) v (fpu_raw t)
    (fpu_state t) (parent t) (exit_code t) (fds t) (next t) (name t).
Definition set_parent (v : Z) (t : Task) : Task :=
  MkTask (rsp t) (stack_base t) (stack_size t) (kernel_stack_top t) (id t) (state t)
    (entry t) (arg t) (fs_base t) (task_cr3 t) (brk_start t) (brk_cur t) (mmap_next t)
    (fpu_raw t) (fpu_state t) v (exit_code t) (fds t) (next t) (name t).
Definition set_exit_code (v : Z) (t : Task) : Task :=
  MkTask (rsp t) (stack_base t) (stack_size t) (kernel_stack_top t) (id t) (state t)
    (entry t) (arg t) (fs_base t) (task_cr3 t) (brk_start t) (brk_cur t) (mmap_next t)
    (fpu_raw t) (fpu_state t) (parent t) v (fds t) (next t) (name t).
Definition set_fds (v : list Z) (t : Task) : Task :=
  MkTask (rsp t) (stack_base t) (stack_size t) (kernel_stack_top t) (id t) (state t)
    (entry t) (arg t) (fs_base t) (task_cr3 t) (brk_start t) (brk_cur t) (mmap_next t)
    (fpu_raw t) (fpu_state t) (parent t) (exit_code t) v (next t) (name t).
Definition set_next (v : Z) (t : Task) : Task :=
  MkTask (rsp t) (stack_base t) (stack_size t) (kernel_stack_top t) (id t) (state t)
    (entry t) (arg t) (fs_base t) (task_cr3 t) (brk_start t) (brk_cur t) (mmap_next t)
    (fpu_raw t) (fpu_state t) (parent t) (exit_code t) (fds t) v (name t).

(** ** State shared by the task code *)

Record TaskSt (K : Type) := MkTaskSt {
  env : K;
  km : mem;
  tasks : gmap Z Task;
  next_id : Z;
}.
Arguments MkTaskSt {K} env km tasks next_id.
Arguments env {K} t.
Arguments km {K} t.
Arguments tasks {K} t.
Arguments next_id {K} t.

(** [sizeof(Task)], [sizeof(InitialFrame)], and the size of an FXSAVE image. *)
Definition SIZEOF_TASK : Z := 288.
Definition SIZEOF_FRAME : Z := 64.
Definition FPU_BYTES : Z := 512.

(** The words of an [InitialFrame], r15 first. *)
Definition initial_frame (trampoline : Z) (i : Z) : Z :=
  if i =? 6 then 0x202 else if i =? 7 then trampoline else 0.

(** The copy into [t->name]: at most 15 bytes and a NUL. *)
Fixpoint copy_name (k : nat) (src : list Z) : Res (list Z) :=
  match src with
  | [] => Fault
  | c :: src =>
      if c =? 0 then Ok [0]
      else match k with
           | O => Ok [0]
           | S k => rest ← copy_name k src; Ok (c :: rest)
           end
  end.

#[global] Arguments copy_name : simpl never.

Section create.
Context {K : Type} `{KernelEnv K}.
(** The address of [task_trampoline], and the FXSAVE image [fpu::init] captured. *)
Context (task_trampoline : Z) (default_state : list Z).

Definition create (nm : option (list Z)) (entry arg stack_size cr3 : Z) (s : TaskSt K)
    : Res (TaskSt K * Z) :=
  '(k, t) ← kmalloc SIZEOF_TASK (env s);
  if t =? 0 then Ok (MkTaskSt k (km s) (tasks s) (next_id s), 0) else
  '(k, stack) ← kmalloc stack_size k;
  if stack =? 0 then
    k ← kfree t k;
    Ok (MkTaskSt k (km s) (tasks s) (next_id s), 0) else
  '(k, fpu_raw) ← kmalloc (FPU_BYTES + 15) k;
  if fpu_raw =? 0 then
    k ← kfree stack k;
    k ← kfree t k;
    Ok (MkTaskSt k (km s) (tasks s) (next_id s), 0) else
  let fpu_state := band_not (u64 (fpu_raw + 15)) 15 in
  let m := store_bytes (km s) fpu_state default_state in
  let stack_top := band_not (u64 (stack + stack_size)) 0xF in
  let frame_addr := u64 (stack_top - SIZEOF_FRAME - 8) in
  let m := store_words 8 0 frame_addr (initial_frame task_trampoline) m in
  nm ← match nm with Some src => copy_name 15 src | None => Ok [0] end;
  let tcb := MkTask frame_addr stack stack_size stack_top (next_id s) Ready entry arg
               0 cr3 0 0 0 fpu_raw fpu_state 0 0 (replicate MAX_FDS 0) 0 nm in
  Ok (MkTaskSt k m (<[t := tcb]> (tasks s)) (u64 (next_id s + 1)), t).

End create.

(** ** What [create] does to the heap *)

(** The heap blocks a task owns. *)
Definition owned (p : Z) (t : Task) : list Z := p :: filter (λ b, b ≠ 0) [stack_base t; fpu_raw t].

Definition name_ok (nm : option (list Z)) : Prop :=
  match nm with Some src => is_Some (match copy_name 15 src with Ok r => Some r | _ => None end) | None => True end.

Section create_spec.
Context {K : Type} `{KernelEnvLaws K}.
Context (task_trampoline : Z) (default_state : list Z).

(** The control block of a new task with the given blocks. *)
Definition new_task (t stack raw nid entry arg stack_size cr3 : Z) (nm : list Z) : Task :=
  let stack_top := band_not (u64 (stack + stack_size)) 0xF in
  MkTask (u64 (stack_top - SIZEOF_FRAME - 8)) stack stack_size stack_top nid Ready entry arg
    0 cr3 0 0 0 raw (band_not (u64 (raw + 15)) 15) 0 0 (replicate MAX_FDS 0) 0 nm.

Lemma create_cases nm entry arg stack_size cr3 (s : TaskSt K) :
  name_ok nm →
  let r := create task_trampoline default_state nm entry arg stack_size cr3 s in
  r = Halt ∨
  (∃ k, r = Ok (MkTaskSt k (km s) (tasks s) (next_id s), 0) ∧ ∀ q, k_live k q = k_live (env s) q) ∨
  (∃ k m t stack raw nm', let tcb := new_task t stack raw (next_id s) entry arg stack_size cr3 nm' in
     r = Ok (MkTaskSt k m (<[t := tcb]> (tasks s)) (u64 (next_id s + 1)), t) ∧
     0 < t ∧ 0 < stack ∧ stack + stack_size < 2 ^ 64 ∧ stack `mod` 8 = 0 ∧
     0 < raw ∧ raw + 527 < 2 ^ 64 ∧
     m = store_words 8 0 (rsp tcb) (initial_frame task_trampoline)
           (store_bytes (km s) (fpu_state tcb) default_state) ∧
     NoDup (owned t tcb) ∧ (∀ b, b ∈ owned t tcb → k_live (env s) b = false) ∧
     ∀ q, k_live k q = bool_decide (q ∈ owned t tcb) || k_live (env s) q).
Proof using H0.
  intros Hnm r. unfold r, create.
  destruct (kmalloc_total SIZEOF_TASK (env s)) as [[[k1 t] E1]|E1]; rewrite E1; [|by left].
  res_step. apply kmalloc_spec in E1 as [[-> L1]|(Ht & _ & _ & Hn1 & L1)].
  { right; left. exists k1. by split. }
  destruct (Z.eqb_spec t 0) as [|_]; [lia|].
  destruct (kmalloc_total stack_size k1) as [[[k2 st] E2]|E2]; rewrite E2; [|by left].
  res_step. apply kmalloc_spec in E2 as [[-> L2]|(Hst & Hst2 & Hst3 & Hn2 & L2)]; simpl.
  { right; left. destruct (kfree_spec t k2) as (k3 & -> & L3).
    { rewrite L2, L1. by rewrite Z.eqb_refl. }
    res_step. exists k3. split; [done|]. intros q. rewrite L3, L2, L1.
    destruct (Z.eqb_spec q t) as [->|]; by rewrite ?Hn1. }
  destruct (Z.eqb_spec st 0) as [|_]; [lia|].
  assert (st ≠ t) as Hst_t by (intros ->; rewrite L1, Z.eqb_refl in Hn2; done).
  destruct (kmalloc_total (FPU_BYTES + 15) k2) as [[[k3 raw] E3]|E3]; rewrite E3; [|by left].
  res_step. apply kmalloc_spec in E3 as [[-> L3]|(Hr & Hr2 & _ & Hn3 & L3)]; simpl.
  { right; left. destruct (kfree_spec st k3) as (k4 & -> & L4).
    { rewrite L3, L2. by rewrite Z.eqb_refl. }
    res_step. destruct (kfree_spec t k4) as (k5 & -> & L5).
    { rewrite L4, L3, L2, L1, Z.eqb_refl. destruct (Z.eqb_spec t st); [congruence|]. by rewrite orb_true_r. }
    res_step. exists k5. split; [done|]. intros q. rewrite L5, L4, L3, L2, L1.
    rewrite L1 in Hn2. destruct (Z.eqb_spec q t) as [->|]; [by rewrite Hn1|].
    destruct (Z.eqb_spec q st) as [->|]; [|done]. by apply orb_false_iff in Hn2 as [_ ->]. }
  destruct (Z.eqb_spec raw 0) as [|_]; [lia|]. right; right.
  assert (raw ≠ st ∧ raw ≠ t) as [Hr_st Hr_t].
  { split; intros ->; rewrite L2, ?L1, Z.eqb_refl, ?orb_true_r in Hn3; done. }
  cbv zeta. assert (∃ nm', (match nm with Some src => copy_name 15 src | None => Ok [0] end) = Ok nm') as [nm' ->].
  { unfold name_ok in Hnm. destruct nm as [src|]; [|by eexists].
    destruct (copy_name 15 src); [by eexists|by destruct Hnm..]. }
  res_step.
  assert (owned t (new_task t st raw (next_id s) entry arg stack_size cr3 nm') = [t; st; raw]) as Ho.
  { unfold owned, new_task. simpl. rewrite !filter_cons, !decide_True by lia. done. }
  exists k3. eexists. exists t, st, raw, nm'. rewrite Ho. split; [done|].
  split_and!; try done.
  - apply NoDup_cons_2; [rewrite !elem_of_cons; by intros [?|[?|?%not_elem_of_nil]]|].
    apply NoDup_cons_2; [rewrite elem_of_cons; by intros [?|?%not_elem_of_nil]|]. apply NoDup_singleton.
  - intros b. rewrite !elem_of_cons. intros [->|[->|[->|?%not_elem_of_nil]]]; [done| | |done].
    + rewrite L1 in Hn2. by apply orb_false_iff in Hn2 as [_ ?].
    + rewrite L2, L1 in Hn3. apply orb_false_iff in Hn3 as [_ Hn3]. by apply orb_false_iff in Hn3 as [_ ?].
  - intros q. rewrite L3, L2, L1, !orb_assoc. f_equal. apply eq_true_iff_eq.
    rewrite !orb_true_iff, !Z.eqb_eq, bool_decide_eq_true, !elem_of_cons. split; [|intros [|[|[|?%not_elem_of_nil]]]]; tauto.
Qed.

(** [create] only uses the heap. *)
Lemma create_space nm entry arg stack_size cr3 (s s' : TaskSt K) t c :
  create task_trampoline default_state nm entry arg stack_size cr3 s = Ok (s', t) →
  k_space (env s') c = k_space (env s) c.
Proof using H0.
  unfold create. intros E. apply bind_Ok in E as ([k1 t1] & E1 & E). apply (kmalloc_space _ _ _ _ c) in E1 as <-.
  case_match; [by simplify_eq|].
  apply bind_Ok in E as ([k2 st] & E2 & E). apply (kmalloc_space _ _ _ _ c) in E2 as <-.
  case_match; [apply bind_Ok in E as (k3 & E3 & E); apply (kfree_space _ _ _ c) in E3 as <-; by simplify_eq|].
  apply bind_Ok in E as ([k3 raw] & E3 & E). apply (kmalloc_space _ _ _ _ c) in E3 as <-.
  case_match.
  - apply bind_Ok in E as (k4 & E4 & E). apply bind_Ok in E as (k5 & E5 & E).
    apply (kfree_space _ _ _ c) in E4 as <-. apply (kfree_space _ _ _ c) in E5 as <-. by simplify_eq.
  - apply bind_Ok in E as (nm' & _ & E). by simplify_eq.
Qed.

End create_spec.
