(* ===== verification/BumpEnv.v ===== *)
(** * A concrete heap for the task code

    A bump allocator with a list of live blocks and a map of address spaces: the
    smallest environment that satisfies [KernelEnvLaws].  The scheduler's theorems are about any lawful heap; this
    one lets its definitions run on concrete inputs. *)

From S2P Require Import Prelude Mem Task.

Record Bump := MkBumpS { b_next : Z; b_live : list Z; b_spaces : gmap Z Z }.

(** A heap without address spaces. *)
Definition MkBump (n : Z) (l : list Z) : Bump := MkBumpS n l ∅.

Definition bump_live (b : Bump) (q : Z) : bool := negb (q =? 0) && bool_decide (q ∈ b_live b).

Definition bump_alloc (n : Z) (b : Bump) : Res (Bump * Z) :=
  let p := b_next b in
  if (0 <? p) && (p `mod` 8 =? 0) && negb (bool_decide (p ∈ b_live b)) &&
     (0 <=? n) && (p + n <=? 2 ^ 40)
  then Ok (MkBumpS (p + (n + 15) / 8 * 8) (p :: b_live b) (b_spaces b), p)
  else Ok (b, 0).

Definition bump_free (p : Z) (b : Bump) : Res Bump :=
  if p =? 0 then Ok b
  else if bool_decide (p ∈ b_live b) then Ok (MkBumpS (b_next b) (filter (λ q, q ≠ p) (b_live b)) (b_spaces b))
  else Fault.

Definition with_spaces (m : gmap Z Z) (b : Bump) : Bump := MkBumpS (b_next b) (b_live b) m.

(** The next PML4, unless it is taken. *)
Definition bump_create (b : Bump) : Res (Bump * Z) :=
  let c := 0x1000 * (1 + Z.of_nat (size (b_spaces b))) in
  match b_spaces b !! c with
  | None => Ok (with_spaces (<[c := 0]> (b_spaces b)) b, c)
  | Some _ => Halt
  end.

Definition bump_clone (d c : Z) (b : Bump) : Bump :=
  match b_spaces b !! c with
  | Some v => with_spaces (<[d := v]> (b_spaces b)) b
  | None => b
  end.

#[export] Instance bump_env : KernelEnv Bump := {
  kmalloc := bump_alloc;
  kfree := bump_free;
  k_destroy c b := Ok (with_spaces (delete c (b_spaces b)) b);
  k_create := bump_create;
  k_clone d c b := Ok (bump_clone d c b);
  k_live := bump_live;
  k_space b c := b_spaces b !! c;
}.

#[export] Instance bump_env_laws : KernelEnvLaws Bump.
Proof.
  split; simpl.
  - intros n b. left. unfold bump_alloc. case_match; by eexists.
  - intros n b b' p. unfold bump_alloc, bump_live. destruct (_ && _) eqn:E; intros [= <- <-].
    + right. bool_arith. match goal with H : bool_decide _ = false |- _ => apply bool_decide_eq_false in H end.
      simpl. split_and!; [done|lia|done| |].
      * rewrite bool_decide_false by done. apply andb_false_r.
      * intros q. destruct (Z.eqb_spec q (b_next b)) as [->|Hne]; simpl.
        -- rewrite bool_decide_true by apply list_elem_of_here.
           rewrite (proj2 (Z.eqb_neq _ _)) by lia. done.
        -- f_equal. apply bool_decide_ext. rewrite elem_of_cons. naive_solver.
    + left. done.
  - intros p b Hl. unfold bump_live, bump_free in *. apply andb_true_iff in Hl as [Hp Hl].
    apply negb_true_iff in Hp. rewrite Hp, Hl. eexists. split; [done|]. intros q. simpl.
    destruct (Z.eqb_spec q p) as [->|Hne]; simpl.
    + rewrite bool_decide_false; [apply andb_false_r|]. rewrite list_elem_of_filter. naive_solver.
    + f_equal. apply bool_decide_ext. rewrite list_elem_of_filter. naive_solver.
  - done.
  - intros c b. by eexists.
  - intros b. unfold bump_create. case_match; [by right|left; by eexists _, _].
  - intros d c b. left. eexists. split; [done|]. intros q. unfold bump_clone. by case_match.
  - done.
  - intros n b b' p c. unfold bump_alloc. case_match; by intros [= <- <-].
  - intros p b b' c. unfold bump_free. repeat case_match; by intros [= <-].
  - intros b b' c. unfold bump_create. case_match eqn:E; [done|]. intros [= <- <-]. split; [done|]. split.
    + exists 0. apply lookup_insert_eq.
    + intros d Hd. by apply lookup_insert_ne.
  - intros d c b b' [= <-]. unfold bump_clone. case_match eqn:E; cbn [b_spaces with_spaces].
    + split_and!; [intros e He; by apply lookup_insert_ne|intros _; rewrite lookup_insert_eq; by eexists|].
      intros v' Hv. rewrite lookup_insert_eq. congruence.
    + split_and!; [done|done|]. intros v Hv. congruence.
  - intros c b b' [= <-]. split; [apply lookup_delete_eq|]. intros d Hd. by apply lookup_delete_ne.
Qed.
