(* ===== verification/Sched.v ===== *)
(** * The scheduler ([task/sched.cpp], [task/switch.asm])

    Round-robin scheduling on an intrusive circular list.  Task pointers are keys
    of the store [tasks]; [next] fields link the ring.  [switch_to] is modelled
    down to the words it pushes and pops, so that what a switch saves and a later
    switch restores can be stated.  A thread of execution inside the kernel is
    the contents of [cpu]; an operation that switches returns in the context of
    the task it switched to. *)

From S2P Require Import Prelude Mem Task.

Definition TIMESLICE_TICKS : Z := 20.
Definition ECHILD : Z := 10.

(** The processor state the scheduler touches: the callee-saved registers and
    RFLAGS (in the order of [InitialFrame]), the stack pointer, the address
    [switch_to] returns to, the FPU image, CR3, the MSRs, [TSS.RSP0] and the
    per-CPU area. *)
Record Cpu := MkCpu {
  callee : Z → Z; sp : Z; pc : Z;
  fx : Z → Z;
  cpu_cr3 : Z;
  fs_base_msr : Z; gs_base : Z; kernel_gs_base : Z;
  rsp0 : Z;
  kernel_rsp : Z; user_rsp : Z;
}.

Record Sched (K : Type) := MkSched {
  ts : TaskSt K;
  cpu : Cpu;
  current_ : Z;
  idle_task_ : Z;
  zombie_ : Z;
  ticks_left_ : Z;
  need_resched_ : bool;
}.
Arguments MkSched {K} ts cpu current_ idle_task_ zombie_ ticks_left_ need_resched_.
Arguments ts {K} s.
Arguments cpu {K} s.
Arguments current_ {K} s.
Arguments idle_task_ {K} s.
Arguments zombie_ {K} s.
Arguments ticks_left_ {K} s.
Arguments need_resched_ {K} s.

Section sched.
Context {K : Type} `{KernelEnv K}.

Implicit Type s : Sched K.

Definition with_ts (x : TaskSt K) s : Sched K :=
  MkSched x (cpu s) (current_ s) (idle_task_ s) (zombie_ s) (ticks_left_ s) (need_resched_ s).
Definition with_cpu (c : Cpu) s : Sched K :=
  MkSched (ts s) c (current_ s) (idle_task_ s) (zombie_ s) (ticks_left_ s) (need_resched_ s).
Definition with_current (c : Z) s : Sched K :=
  MkSched (ts s) (cpu s) c (idle_task_ s) (zombie_ s) (ticks_left_ s) (need_resched_ s).
Definition with_zombie (z : Z) s : Sched K :=
  MkSched (ts s) (cpu s) (current_ s) (idle_task_ s) z (ticks_left_ s) (need_resched_ s).
Definition with_slice (n : Z) (b : bool) s : Sched K :=
  MkSched (ts s) (cpu s) (current_ s) (idle_task_ s) (zombie_ s) n b.

Definition with_tasks (ts' : gmap Z Task) (x : TaskSt K) : TaskSt K :=
  MkTaskSt (env x) (km x) ts' (next_id x).
Definition with_env (k : K) (x : TaskSt K) : TaskSt K :=
  MkTaskSt k (km x) (tasks x) (next_id x).

(** [*t], a fault when [t] is null or freed, and [t->field = v]. *)
Definition deref (t : Z) s : Res Task := or_fault (tasks (ts s) !! t).
Definition update (t : Z) (f : Task → Task) s : Res (Sched K) :=
  tcb ← deref t s;
  Ok (with_ts (with_tasks (<[t := f tcb]> (tasks (ts s))) (ts s)) s).

(** The loops over the ring terminate within its length; the fuel is the number
    of live tasks plus one. *)
Definition ring_fuel s : nat := S (size (tasks (ts s))).

(** [while (prev->next != t) prev = prev->next;] *)
Fixpoint find_prev (fuel : nat) (prev t : Z) s : Res Z :=
  match fuel with
  | O => NoFuel
  | S fuel =>
      p ← deref prev s;
      if next p =? t then Ok prev else find_prev fuel (next p) t s
  end.

Definition unlink_from_ring (t : Z) s : Res (Sched K) :=
  prev ← find_prev (ring_fuel s) (current_ s) t s;
  tcb ← deref t s;
  update prev (set_next (next tcb)) s.

Definition free_task (t : Z) s : Res (Sched K) :=
  tcb ← deref t s;
  k ← (if negb (task_cr3 tcb =? 0) then k_destroy (task_cr3 tcb) (env (ts s)) else Ok (env (ts s)));
  k ← kfree (stack_base tcb) k;
  k ← kfree (fpu_raw tcb) k;
  k ← kfree t k;
  Ok (with_ts (with_env k (with_tasks (delete t (tasks (ts s))) (ts s))) s).

Definition reap_zombie s : Res (Sched K) :=
  if zombie_ s =? 0 then Ok s else
  if zombie_ s =? current_ s then Ok s else
  s' ← unlink_from_ring (zombie_ s) s;
  s' ← free_task (zombie_ s) s';
  Ok (with_zombie 0 s').

(** The loop of [next_ready_after]: 0 when it comes back to [from]. *)
Fixpoint ready_loop (fuel : nat) (t from : Z) s : Res Z :=
  match fuel with
  | O => NoFuel
  | S fuel =>
      if t =? from then Ok 0 else
      tcb ← deref t s;
      if decide (state tcb = Ready) then Ok t else ready_loop fuel (next tcb) from s
  end.

Definition next_ready_after (from : Z) s : Res Z :=
  tcb ← deref from s;
  ready_loop (ring_fuel s) (next tcb) from s.

(** [switch_to(&old->rsp, new_rsp, old->fpu_state, new_fpu)] called with return
    address [ra]. *)
Definition switch_to (old new_rsp old_fpu new_fpu ra : Z) s : Res (Sched K) :=
  let c := cpu s in
  let saved := sp c - SIZEOF_FRAME in
  let m := store_bytes (km (ts s)) old_fpu ((λ i, fx c (Z.of_nat i)) <$> seq 0 (Z.to_nat FPU_BYTES)) in
  let m := store_words 8 0 saved (λ i, if i =? 7 then ra else callee c i) m in
  tcb ← deref old s;
  let ts' := MkTaskSt (env (ts s)) m (<[old := set_rsp saved tcb]> (tasks (ts s))) (next_id (ts s)) in
  let c' := MkCpu (λ i, load64 m (new_rsp + 8 * i)) (new_rsp + SIZEOF_FRAME)
              (load64 m (new_rsp + 56)) (λ i, m (new_fpu + i)) (cpu_cr3 c)
              (fs_base_msr c) (gs_base c) (kernel_gs_base c) (rsp0 c) (kernel_rsp c) (user_rsp c) in
  Ok (with_cpu c' (with_ts ts' s)).

(** The parts of the processor [schedule] points at the incoming task. *)
Definition enter_context (tcb : Task) (c : Cpu) : Cpu :=
  let has_stack := negb (kernel_stack_top tcb =? 0) in
  MkCpu (callee c) (sp c) (pc c) (fx c)
    (if negb (task_cr3 tcb =? 0) then task_cr3 tcb else cpu_cr3 c)
    (fs_base tcb) (gs_base c) (kernel_gs_base c)
    (if has_stack then kernel_stack_top tcb else rsp0 c)
    (if has_stack then kernel_stack_top tcb else kernel_rsp c) (user_rsp c).

(** Where [schedule]'s call of [switch_to] returns. *)
Context (ra : Z).

Definition schedule s : Res (Sched K) :=
  s ← reap_zombie s;
  let old := current_ s in
  nxt ← next_ready_after old s;
  old_tcb ← deref old s;
  let nxt := if nxt =? 0
             then (if decide (state old_tcb = Running) then old else idle_task_ s)
             else nxt in
  let s := with_slice TIMESLICE_TICKS false s in
  if nxt =? old then Ok s else
  s ← (if decide (state old_tcb = Running) then update old (set_state Ready) s else Ok s);
  s ← update nxt (set_state Running) s;
  let s := with_current nxt s in
  nt ← deref nxt s;
  ot ← deref old s;
  let s := with_cpu (enter_context nt (cpu s)) s in
  switch_to old (rsp nt) (fpu_state ot) (fpu_state nt) ra s.

Definition yield s : Res (Sched K) := schedule s.

(** [yield_blocking]; [local] is [&g_cpu_local].  The second [wrmsr] runs when
    something switches back. *)
Definition yield_blocking (local : Z) s : Res (Sched K) :=
  let c := cpu s in
  yield (with_cpu (MkCpu (callee c) (sp c) (pc c) (fx c) (cpu_cr3 c) (fs_base_msr c)
                     (gs_base c) local (rsp0 c) (kernel_rsp c) (user_rsp c)) s).

Definition tick s : Sched K :=
  if current_ s =? 0 then s else
  if 0 <? ticks_left_ s then
    let n := ticks_left_ s - 1 in
    with_slice n (if n =? 0 then true else need_resched_ s) s
  else s.

Definition maybe_reschedule s : Res (Sched K) :=
  if (current_ s =? 0) || negb (need_resched_ s) then Ok s else schedule s.

(** [exit_current] up to its last [schedule]; the task never runs again. *)
Definition exit_current s : Res (Sched K) :=
  s ← update (current_ s) (set_state Dead) s;
  self ← deref (current_ s) s;
  let s := if parent self =? 0 then with_zombie (current_ s) s else s in
  schedule s.

(** The loop of [find_task]: 0 when no task of the ring has the id. *)
Fixpoint find_loop (fuel : nat) (t wanted : Z) s : Res Z :=
  match fuel with
  | O => NoFuel
  | S fuel =>
      tcb ← deref t s;
      if id tcb =? wanted then Ok t else
      if next tcb =? current_ s then Ok 0 else find_loop fuel (next tcb) wanted s
  end.

Definition find_task (wanted : Z) s : Res Z := find_loop (ring_fuel s) (current_ s) wanted s.

(** [wait4] around its blocking loop: [wait4_start] is what runs before it (the
    child to wait for, or the error), [wait4_poll] one test of the loop
    condition, [wait4_finish] what runs after it. *)
Definition wait4_start (pid : Z) s : Res (Z + Z) :=
  child ← find_task (u64 pid) s;
  if child =? 0 then Ok (inr (- ECHILD)) else
  c ← deref child s;
  if negb (parent c =? current_ s) then Ok (inr (- ECHILD)) else Ok (inl child).

Definition wait4_poll (child : Z) s : Res bool :=
  c ← deref child s; Ok (bool_decide (state c = Dead)).

(** The status word, the returned pid, and the state. *)
Definition wait4_finish (child saved_user_rsp : Z) s : Res (Sched K * Z * Z) :=
  let c := cpu s in
  let s := with_cpu (MkCpu (callee c) (sp c) (pc c) (fx c) (cpu_cr3 c) (fs_base_msr c)
                      (gs_base c) (kernel_gs_base c) (rsp0 c) (kernel_rsp c) saved_user_rsp) s in
  tcb ← deref child s;
  let status := u32 (Z.shiftl (Z.land (exit_code tcb) 0xFF) 8) in
  let pid_out := i64_of (id tcb) in
  s ← unlink_from_ring child s;
  s ← free_task child s;
  Ok (s, status, pid_out).

(** [spawn]: create and splice in right after the current task. *)
Definition spawn (trampoline : Z) (default_state : list Z)
    (nm : option (list Z)) (entry arg stack_size cr3 : Z) s : Res (Sched K * Z) :=
  '(x, t) ← create trampoline default_state nm entry arg stack_size cr3 (ts s);
  let s := with_ts x s in
  if t =? 0 then Ok (s, 0) else
  cur ← deref (current_ s) s;
  s ← update t (set_next (next cur)) s;
  s ← update (current_ s) (set_next t) s;
  Ok (s, t).

(** [init], from the state before it: no tasks. *)
Definition boot_name : list Z := [98; 111; 111; 116; 0].

Definition sched_init (trampoline idle_entry : Z) (default_state : list Z) s : Res (Sched K) :=
  '(k, boot) ← kmalloc SIZEOF_TASK (env (ts s));
  if boot =? 0 then Fault else
  '(k, raw) ← kmalloc (FPU_BYTES + 15) k;
  if raw =? 0 then Fault else
  let fps := band_not (u64 (raw + 15)) 15 in
  let m := store_bytes (km (ts s)) fps default_state in
  let tcb := MkTask 0 0 0 0 0 Running 0 0 0 0 0 0 0 raw fps 0 0 (replicate MAX_FDS 0) 0 boot_name in
  let x := MkTaskSt k m (<[boot := tcb]> (tasks (ts s))) (next_id (ts s)) in
  '(x, idle) ← create trampoline default_state (Some [105; 100; 108; 101; 0]) idle_entry 0 4096 0 x;
  let s := with_ts x (MkSched (ts s) (cpu s) boot idle (zombie_ s) (ticks_left_ s) (need_resched_ s)) in
  s ← update boot (set_next idle) s;
  update idle (set_next boot) s.

End sched.
