(* ===== verification/Fork.v ===== *)
(** * fork ([task/fork.cpp])

    [sys_fork] clones the address space, saves the registers the child resumes
    with in a heap block, and spawns a task that inherits the descriptors, the
    heap and mmap bounds and the TLS base of its parent. *)

From S2P Require Import Prelude Mem Task Sched.

Definition ENOMEM : Z := 12.

(** The registers of [syscall::Frame] that [ForkFrame] copies, in its order. *)
Record ForkFrame := MkForkFrame {
  f_rbx : Z; f_rbp : Z; f_r12 : Z; f_r13 : Z; f_r14 : Z; f_r15 : Z;
  f_rip : Z; f_rflags : Z; f_rsp : Z;
}.

Definition SIZEOF_FORK_FRAME : Z := 72.

Definition fork_words (f : ForkFrame) : list Z :=
  [f_rbx f; f_rbp f; f_r12 f; f_r13 f; f_r14 f; f_r15 f; f_rip f; f_rflags f; f_rsp f].

Definition fork_word (f : ForkFrame) (i : Z) : Z := default 0 (zget (fork_words f) i).

Definition fork_name : list Z := [102; 111; 114; 107; 0].

Section fork.
Context {K : Type} `{KernelEnv K}.
Context (task_trampoline : Z) (default_state : list Z).
(** The address of [fork_child_entry]. *)
Context (fork_child_entry : Z).

Definition with_km (m : mem) (x : TaskSt K) : TaskSt K :=
  MkTaskSt (env x) m (tasks x) (next_id x).

(** What the child inherits. *)
Definition inherit (self : Z) (p c : Task) : Task :=
  set_parent self (set_fs_base (fs_base p) (set_mmap_next (mmap_next p)
    (set_brk_cur (brk_cur p) (set_brk_start (brk_start p) (set_fds (fds p) c))))).

Definition sys_fork (f : ForkFrame) (s : Sched K) : Res (Sched K * Z) :=
  let self := current_ s in
  p ← deref self s;
  '(k, child_cr3) ← k_create (env (ts s));
  k ← k_clone child_cr3 (task_cr3 p) k;
  '(k, saved) ← kmalloc SIZEOF_FORK_FRAME k;
  if saved =? 0 then
    k ← k_destroy child_cr3 k;
    Ok (with_ts (with_env k (ts s)) s, - ENOMEM) else
  let m := store_words 9 0 saved (fork_word f) (km (ts s)) in
  let s := with_ts (with_km m (with_env k (ts s))) s in
  '(s, child) ← spawn task_trampoline default_state (Some fork_name) fork_child_entry saved
                  (16 * 1024) child_cr3 s;
  if child =? 0 then
    k ← kfree saved (env (ts s));
    k ← k_destroy child_cr3 k;
    Ok (with_ts (with_env k (ts s)) s, - ENOMEM) else
  s ← update child (inherit self p) s;
  c ← deref child s;
  Ok (s, i64_of (id c)).

(** The register file [fork_child_entry] loads from its argument before it frees it. *)
Definition load_fork_frame (m : mem) (a : Z) : ForkFrame :=
  let w i := load64 m (a + 8 * i) in
  MkForkFrame (w 0) (w 1) (w 2) (w 3) (w 4) (w 5) (w 6) (w 7) (w 8).

End fork.
