(* ===== verification/Context.v ===== *)
(** * Context switches

    What [switch_to] saves and a later switch restores, the first switch into a
    task [create] built, and the registers a forked child resumes with. *)

From S2P Require Import Prelude Mem Task BumpEnv Sched Fork.

Definition apart (a n b k : Z) : Prop := a + n ≤ b ∨ b + k ≤ a.

(** The image [fxsave] writes, as bytes. *)
Definition fx_image (c : Cpu) : list Z := (λ i, fx c (Z.of_nat i)) <$> seq 0 (Z.to_nat FPU_BYTES).

Lemma fx_image_length c : zlen (fx_image c) = FPU_BYTES.
Proof. reflexivity. Qed.

Lemma fx_image_lookup c i : 0 ≤ i < FPU_BYTES → fx_image c !! Z.to_nat i = Some (fx c i).
Proof.
  intros Hi. unfold fx_image, FPU_BYTES in *. rewrite list_lookup_fmap, lookup_seq_lt by lia. simpl.
  do 2 f_equal. lia.
Qed.

Section context.
Context {K : Type} `{KernelEnvLaws K}.
Implicit Type s : Sched K.

(** The memory a switch away from [old] leaves. *)
Definition saved_mem s (old_fpu ra : Z) : mem :=
  store_words 8 0 (sp (cpu s) - SIZEOF_FRAME) (λ i, if i =? 7 then ra else callee (cpu s) i)
    (store_bytes (km (ts s)) old_fpu (fx_image (cpu s))).

Lemma switch_to_eq old new_rsp old_fpu new_fpu ra s otcb :
  tasks (ts s) !! old = Some otcb →
  ∃ s', switch_to old new_rsp old_fpu new_fpu ra s = Ok s' ∧
    km (ts s') = saved_mem s old_fpu ra ∧
    tasks (ts s') !! old = Some (set_rsp (sp (cpu s) - SIZEOF_FRAME) otcb) ∧
    pc (cpu s') = load64 (saved_mem s old_fpu ra) (new_rsp + 56) ∧
    (∀ i, callee (cpu s') i = load64 (saved_mem s old_fpu ra) (new_rsp + 8 * i)) ∧
    sp (cpu s') = new_rsp + SIZEOF_FRAME ∧
    ∀ i, fx (cpu s') i = saved_mem s old_fpu ra (new_fpu + i).
Proof.
  intros Ho. unfold switch_to, deref. rewrite Ho. res_step. eexists. split; [done|].
  split_and!; try done. simpl. apply lookup_insert_eq.
Qed.

(** What a switch does not overwrite. *)
Lemma saved_mem_load s old_fpu ra a :
  apart (sp (cpu s) - SIZEOF_FRAME) SIZEOF_FRAME a 8 → apart old_fpu FPU_BYTES a 8 →
  load64 (saved_mem s old_fpu ra) a = load64 (km (ts s)) a.
Proof.
  unfold apart, SIZEOF_FRAME. intros H1 H2. unfold saved_mem, SIZEOF_FRAME. rewrite store_words_other by lia.
  apply load_ext. intros x Hx. apply store_bytes_outside. rewrite fx_image_length. lia.
Qed.

Lemma saved_mem_byte s old_fpu ra a :
  apart (sp (cpu s) - SIZEOF_FRAME) SIZEOF_FRAME a 1 → apart old_fpu FPU_BYTES a 1 →
  saved_mem s old_fpu ra a = km (ts s) a.
Proof.
  unfold apart, SIZEOF_FRAME. intros H1 H2. unfold saved_mem, SIZEOF_FRAME.
  rewrite store_words_outside by lia.
  apply store_bytes_outside. rewrite fx_image_length. lia.
Qed.

(** C16. Switching away from a task and back restores it exactly: after any activity
    that leaves its saved frame and FXSAVE image alone, the switch that resumes it
    brings back its callee-saved registers, flags, stack pointer, return address
    and FPU image. *)
Theorem switch_roundtrip old new_rsp old_fpu new_fpu ra s otcb s1 s2 other other_fpu ra' xtcb :
  tasks (ts s) !! old = Some otcb →
  (∀ i, 0 ≤ i < 7 → is_u64 (callee (cpu s) i)) → is_u64 ra →
  apart (sp (cpu s) - SIZEOF_FRAME) SIZEOF_FRAME old_fpu FPU_BYTES →
  switch_to old new_rsp old_fpu new_fpu ra s = Ok s1 →
  (* the other tasks run; [other] is the one that switches back *)
  (∀ x, sp (cpu s) - SIZEOF_FRAME ≤ x < sp (cpu s) ∨ old_fpu ≤ x < old_fpu + FPU_BYTES →
     km (ts s2) x = km (ts s1) x) →
  tasks (ts s2) !! other = Some xtcb →
  apart (sp (cpu s2) - SIZEOF_FRAME) SIZEOF_FRAME (sp (cpu s) - SIZEOF_FRAME) SIZEOF_FRAME →
  apart (sp (cpu s2) - SIZEOF_FRAME) SIZEOF_FRAME old_fpu FPU_BYTES →
  apart other_fpu FPU_BYTES (sp (cpu s) - SIZEOF_FRAME) SIZEOF_FRAME →
  apart other_fpu FPU_BYTES old_fpu FPU_BYTES →
  ∃ otcb1 s3, tasks (ts s1) !! old = Some otcb1 ∧
    switch_to other (rsp otcb1) other_fpu old_fpu ra' s2 = Ok s3 ∧
    (∀ i, 0 ≤ i < 7 → callee (cpu s3) i = callee (cpu s) i) ∧
    sp (cpu s3) = sp (cpu s) ∧ pc (cpu s3) = ra ∧
    ∀ i, 0 ≤ i < FPU_BYTES → fx (cpu s3) i = fx (cpu s) i.
Proof.
  intros Ho Hcallee Hra A0 E1 Hkeep Hx A1 A2 A3 A4.
  destruct (switch_to_eq old new_rsp old_fpu new_fpu ra s otcb Ho)
    as (s1' & E1' & Hm1 & Ht1 & _). assert (s1' = s1) as -> by congruence.
  set (frame := sp (cpu s) - SIZEOF_FRAME) in *.
  destruct (switch_to_eq other frame other_fpu old_fpu ra' s2 xtcb Hx)
    as (s3 & E3 & _ & _ & Hpc & Hcal & Hsp & Hfx).
  exists (set_rsp frame otcb), s3. split; [done|]. split; [done|].
  assert (∀ i, 0 ≤ i < 8 → load64 (saved_mem s2 other_fpu ra') (frame + 8 * i) =
    (if i =? 7 then ra else callee (cpu s) i)) as Hw.
  { intros i Hi. unfold apart, SIZEOF_FRAME, FPU_BYTES in *.
    rewrite saved_mem_load by (unfold apart, SIZEOF_FRAME, FPU_BYTES; lia).
    transitivity (load64 (km (ts s1)) (frame + 8 * i)).
    { apply load_ext. intros x Hx'. apply Hkeep. left. unfold frame in *. lia. }
    rewrite Hm1. unfold saved_mem, SIZEOF_FRAME. fold frame.
    apply (store_words_same 8 0 frame (λ i, if i =? 7 then ra else callee (cpu s) i)); [lia|].
    destruct (Z.eqb_spec i 7); [done|apply Hcallee; lia]. }
  split_and!.
  - intros i Hi. rewrite Hcal, Hw by lia. by rewrite (proj2 (Z.eqb_neq i 7)) by lia.
  - rewrite Hsp. unfold frame. lia.
  - rewrite Hpc. change 56 with (8 * 7). by rewrite Hw by lia.
  - intros i Hi. rewrite Hfx. unfold apart, SIZEOF_FRAME, FPU_BYTES in *.
    rewrite saved_mem_byte by (unfold apart, SIZEOF_FRAME, FPU_BYTES; lia).
    rewrite Hkeep, Hm1 by lia. unfold saved_mem, SIZEOF_FRAME. fold frame. rewrite store_words_outside by lia.
    replace (old_fpu + i) with (old_fpu + Z.of_nat (Z.to_nat i)) by lia.
    apply store_bytes_inside, fx_image_lookup. unfold FPU_BYTES. lia.
Qed.

(** Alignment of the addresses [create] computes. *)
Lemma align16 x : 0 ≤ x < 2 ^ 64 → let a := band_not (u64 x) 15 in
  x - 15 ≤ a ≤ x ∧ a `mod` 16 = 0 ∧ 0 ≤ a.
Proof.
  intros Hx a. unfold a. rewrite u64_small by word.
  change 15 with (Z.ones 4). unfold band_not. rewrite ldiff_ones by lia. change (2 ^ 4) with 16.
  pose proof (Z.mod_pos_bound x 16 ltac:(lia)). pose proof (Z.div_mod x 16 ltac:(lia)).
  split_and!; [change (Z.ones 4) with 15; lia|lia| |lia].
  replace (x - x `mod` 16) with (x / 16 * 16) by lia. apply Z.mod_mul. lia.
Qed.

(** The first switch into a new task behaves like a call of [task_trampoline]
    on its own stack: it returns to the trampoline with zeroed callee-saved
    registers and interrupts enabled, the stack pointer inside the task's stack
    and 8 below a multiple of 16, and the default FPU image loaded from a
    16-byte aligned area inside its block. *)
Theorem first_switch_enters_trampoline tramp def nm entry arg size cr3 x0 x t (s : Sched K)
    old otcb old_fpu ra tcb :
  name_ok nm → is_u64 tramp → zlen def = FPU_BYTES → 128 ≤ size →
  create tramp def nm entry arg size cr3 x0 = Ok (x, t) → t ≠ 0 → ts s = x →
  tasks x !! t = Some tcb → tasks x !! old = Some otcb →
  apart (rsp tcb) SIZEOF_FRAME (fpu_state tcb) FPU_BYTES →
  apart (sp (cpu s) - SIZEOF_FRAME) SIZEOF_FRAME (rsp tcb) SIZEOF_FRAME →
  apart (sp (cpu s) - SIZEOF_FRAME) SIZEOF_FRAME (fpu_state tcb) FPU_BYTES →
  apart old_fpu FPU_BYTES (rsp tcb) SIZEOF_FRAME →
  apart old_fpu FPU_BYTES (fpu_state tcb) FPU_BYTES →
  ∃ s', switch_to old (rsp tcb) old_fpu (fpu_state tcb) ra s = Ok s' ∧
    pc (cpu s') = tramp ∧ (∀ i, 0 ≤ i < 6 → callee (cpu s') i = 0) ∧ callee (cpu s') 6 = 0x202 ∧
    sp (cpu s') `mod` 16 = 8 ∧ sp (cpu s') = kernel_stack_top tcb - 8 ∧
    stack_base tcb ≤ rsp tcb ∧ sp (cpu s') ≤ stack_base tcb + stack_size tcb ∧
    fpu_state tcb `mod` 16 = 0 ∧ fpu_raw tcb ≤ fpu_state tcb ≤ fpu_raw tcb + 15 ∧
    ∀ i, 0 ≤ i < FPU_BYTES → def !! Z.to_nat i = Some (fx (cpu s') i).
Proof using H0.
  intros Hnm Htramp Hdef Hsize E Ht Hts Htcb Hold A0 A1 A2 A3 A4.
  destruct (create_cases tramp def nm entry arg size cr3 x0 Hnm)
    as [E'|[(k & E' & _)|(k & m & t' & st & raw & nm' & E' & _ & Hst & Hst2 & _ & Hraw & Hraw2 & Hm & _)]];
    [congruence|simplify_eq|..]; [congruence|].
  rewrite E in E'. injection E' as -> ->. simpl in Htcb, Hold. rewrite lookup_insert_eq in Htcb.
  injection Htcb as <-.
  set (top := band_not (u64 (st + size)) 15) in *.
  assert (st + size - 15 ≤ top ≤ st + size ∧ top `mod` 16 = 0 ∧ 0 ≤ top) as (Htop & Hmod & _)
    by (apply align16; lia).
  set (fps := band_not (u64 (raw + 15)) 15) in *.
  assert (raw ≤ fps ≤ raw + 15 ∧ fps `mod` 16 = 0) as (Hfps & Hfmod).
  { destruct (align16 (raw + 15)) as (? & ? & _); [lia|]. unfold fps. split; [lia|done]. }
  set (fr := u64 (top - SIZEOF_FRAME - 8)) in *.
  assert (fr = top - 72) as Hfr by (unfold fr, SIZEOF_FRAME; rewrite u64_small by word; lia).
  change (rsp (new_task _ _ _ _ _ _ _ _ _)) with fr in *.
  change (fpu_state (new_task _ _ _ _ _ _ _ _ _)) with fps in *.
  destruct (switch_to_eq old fr old_fpu fps ra s otcb) as (s' & Es & _ & _ & Hpc & Hcal & Hsp & Hfx).
  { by rewrite Hts. }
  exists s'. split; [done|].
  assert (∀ i, 0 ≤ i < 8 → load64 (saved_mem s old_fpu ra) (fr + 8 * i) = initial_frame tramp i) as Hw.
  { intros i Hi. unfold apart, SIZEOF_FRAME, FPU_BYTES in *.
    rewrite saved_mem_load by (unfold apart, SIZEOF_FRAME, FPU_BYTES; lia).
    rewrite Hts. simpl. rewrite Hm. apply (store_words_same 8 0 fr (initial_frame tramp)); [lia|].
    unfold initial_frame. repeat case_match; done. }
  split_and!.
  - rewrite Hpc. change 56 with (8 * 7). by rewrite Hw by lia.
  - intros i Hi. rewrite Hcal, Hw by lia. unfold initial_frame.
    by rewrite (proj2 (Z.eqb_neq i 6)), (proj2 (Z.eqb_neq i 7)) by lia.
  - rewrite Hcal. by rewrite (Hw 6) by lia.
  - rewrite Hsp, Hfr. unfold SIZEOF_FRAME. replace (top - 72 + 64) with (8 + (-1) * 16 + top) by lia.
    rewrite Z.add_mod, Hmod by lia. done.
  - rewrite Hsp, Hfr. unfold SIZEOF_FRAME. simpl. fold top. lia.
  - simpl. lia.
  - rewrite Hsp. unfold SIZEOF_FRAME. simpl. lia.
  - done.
  - simpl. lia.
  - simpl. lia.
  - intros i Hi. rewrite Hfx. unfold apart, SIZEOF_FRAME, FPU_BYTES in *.
    rewrite saved_mem_byte by (unfold apart, SIZEOF_FRAME, FPU_BYTES; lia).
    rewrite Hts. simpl. rewrite Hm. change (rsp (new_task _ _ _ _ _ _ _ _ _)) with fr.
    change (fpu_state (new_task _ _ _ _ _ _ _ _ _)) with fps. rewrite store_words_outside by lia.
    destruct (zget_is_Some def i) as [b Hb]; [lia|]. apply zget_Some in Hb as [_ Hb]. rewrite Hb.
    replace (fps + i) with (fps + Z.of_nat (Z.to_nat i)) by lia. by rewrite (store_bytes_inside _ _ _ _ b).
Qed.

End context.

(** ** Concrete runs *)

Definition blank_task (f : Z) : Task :=
  MkTask 0 0 0 0 0 Ready 0 0 0 0 0 0 0 f f 0 0 (replicate MAX_FDS 0) 0 [0].

(** A processor with recognisable registers, running task 1 of two. *)
Definition two_cpu : Cpu := MkCpu (λ i, 100 + i) 0x7000 0 (λ i, i `mod` 256) 0x1000 0 0 0 0 0 0.
Definition two_tasks : Sched Bump :=
  MkSched (MkTaskSt (MkBump 0x1000000 []) (λ _, 0) {[ 1 := blank_task 0x8000; 2 := blank_task 0xA000 ]} 3)
    two_cpu 1 2 0 20 false.

Lemma switch_roundtrip_witness :
  ∃ s1 s3 t1, switch_to 1 0x9000 0x8000 0xA000 0x100300 two_tasks = Ok s1 ∧
    switch_to 2 (rsp t1) 0xA000 0x8000 0x100300 s1 = Ok s3 ∧
    callee (cpu s3) 3 = 103 ∧ sp (cpu s3) = 0x7000 ∧ pc (cpu s3) = 0x100300.
Proof.
  destruct (switch_to_eq 1 0x9000 0x8000 0xA000 0x100300 two_tasks (blank_task 0x8000) eq_refl)
    as (s1 & E1 & _ & _ & _ & _ & Hsp & _).
  assert (tasks (ts s1) !! 2 = Some (blank_task 0xA000)) as H2.
  { revert E1. unfold switch_to, deref. change (tasks (ts two_tasks) !! 1) with (Some (blank_task 0x8000)).
    res_step. intros [= <-]. reflexivity. }
  destruct (switch_roundtrip 1 0x9000 0x8000 0xA000 0x100300 two_tasks (blank_task 0x8000) s1 s1 2
    0xA000 0x100300 (blank_task 0xA000)) as (t1 & s3 & _ & E3 & Hc & Hs & Hp & _);
    [reflexivity|intros i Hi; unfold is_u64; simpl; lia|unfold is_u64; lia| |exact E1|done|exact H2| | | | |].
  1-5: rewrite ?Hsp; unfold apart, SIZEOF_FRAME, FPU_BYTES; simpl; lia.
  exists s1, s3, t1. split; [exact E1|]. split; [exact E3|]. split; [|split; [exact Hs|exact Hp]].
  rewrite (Hc 3) by lia. reflexivity.
Defined.

Definition demo_before : TaskSt Bump :=
  MkTaskSt (MkBump 0x1000000 []) (λ _, 0) {[ 1 := blank_task 0x8000 ]} 3.
Definition demo_create : Res (TaskSt Bump * Z) :=
  create 0x100000 (replicate 512 7) (Some [97; 0]) 0x200000 0 4096 0
    demo_before.

Lemma first_switch_enters_trampoline_witness :
  ∃ x t s', demo_create = Ok (x, t) ∧
    switch_to 1 16781528 0x8000 16781616 0x100300
      (MkSched x two_cpu 1 1 0 20 false) = Ok s' ∧
    pc (cpu s') = 0x100000 ∧ callee (cpu s') 6 = 0x202.
Proof.
  assert (match demo_create with
    | Ok (x, t) => (t =? 0x1000000) &&
        match tasks x !! t with
        | Some tcb => (rsp tcb =? 16781528) && (fpu_state tcb =? 16781616)
        | None => false end &&
        match tasks x !! 1 with Some _ => true | None => false end
    | _ => false end = true) as Hc by (vm_compute; reflexivity).
  destruct demo_create as [[x t]| | |] eqn:E; try discriminate Hc.
  apply andb_true_iff in Hc as [Hc H3]. apply andb_true_iff in Hc as [H1 H2]. apply Z.eqb_eq in H1.
  destruct (tasks x !! t) as [tcb|] eqn:Ht; [|discriminate H2].
  destruct (tasks x !! 1) as [otcb|] eqn:Ho; [|discriminate H3].
  apply andb_true_iff in H2 as [H2 H4]. apply Z.eqb_eq in H2. apply Z.eqb_eq in H4.
  destruct (first_switch_enters_trampoline 0x100000 (replicate 512 7) (Some [97; 0]) 0x200000 0 4096 0
    demo_before x t (MkSched x two_cpu 1 1 0 20 false) 1 otcb 0x8000 0x100300 tcb)
    as (s' & Es & Hp & _ & H6 & _);
    [by eexists|unfold is_u64; lia|reflexivity|lia|exact E|lia|reflexivity|exact Ht|exact Ho|..].
  1-5: rewrite ?H2, ?H4; unfold apart, SIZEOF_FRAME, FPU_BYTES; simpl; lia.
  rewrite H2, H4 in Es. exists x, t, s'. split; [reflexivity|]. split; [exact Es|]. split; [exact Hp|exact H6].
Defined.

(** ** Creating tasks *)

Section create_props.
Context {K : Type} `{KernelEnvLaws K}.

(** C17. [create] is all or nothing: either it returns a fresh Ready task that owns
    exactly the blocks it allocated, with the next id and no parent, or it returns
    null having freed whatever it had allocated and changed no task. *)
Theorem create_all_or_nothing tramp def nm entry arg size cr3 (s : TaskSt K) :
  name_ok nm →
  match create tramp def nm entry arg size cr3 s with
  | Ok (s', t) =>
      if t =? 0 then
        tasks s' = tasks s ∧ next_id s' = next_id s ∧ ∀ q, k_live (env s') q = k_live (env s) q
      else
        ∃ tcb, tasks s' = <[t := tcb]> (tasks s) ∧ state tcb = Ready ∧ id tcb = next_id s ∧
          parent tcb = 0 ∧ task_cr3 tcb = cr3 ∧ fds tcb = replicate MAX_FDS 0 ∧
          NoDup (owned t tcb) ∧ (∀ b, b ∈ owned t tcb → k_live (env s) b = false) ∧
          (∀ q, k_live (env s') q = bool_decide (q ∈ owned t tcb) || k_live (env s) q)
  | Halt => True
  | _ => False
  end.
Proof using H0.
  intros Hnm. destruct (create_cases tramp def nm entry arg size cr3 s Hnm)
    as [->|[(k & -> & HL)|(k & m & t & st & raw & nm' & -> & Ht & _ & _ & _ & _ & _ & _ & Hnd & Hfr & HL)]];
    [done|done|].
  rewrite (proj2 (Z.eqb_neq t 0)) by lia. by exists (new_task t st raw (next_id s) entry arg size cr3 nm').
Qed.

End create_props.

Lemma create_all_or_nothing_witness :
  match create 0x100000 [] (Some [97; 0]) 0 0 4096 0 (MkTaskSt (MkBump (2 ^ 40 - 1024) []) (λ _, 0) ∅ 1) with
  | Ok (s', t) => t = 0 ∧ ∀ q, k_live (env s') q = false
  | _ => False
  end.
Proof.
  pose proof (create_all_or_nothing 0x100000 [] (Some [97; 0]) 0 0 4096 0
    (MkTaskSt (MkBump (2 ^ 40 - 1024) []) (λ _, 0) ∅ 1) ltac:(by eexists)) as T.
  assert (match create 0x100000 [] (Some [97; 0]) 0 0 4096 0
    (MkTaskSt (MkBump (2 ^ 40 - 1024) []) (λ _, 0) ∅ 1) with Ok (_, t) => t =? 0 | _ => false end = true)
    as Hc by (vm_compute; reflexivity).
  destruct (create _ _ _ _ _ _ _ _) as [[s' t]| | |]; try discriminate Hc.
  rewrite Hc in T. apply Z.eqb_eq in Hc. split; [exact Hc|]. intros q. destruct T as (_ & _ & T).
  rewrite T. change (bump_live (MkBump (2 ^ 40 - 1024) []) q = false). apply andb_false_r.
Defined.
