(* ===== verification/Ring.v ===== *)
(** * The ready ring

    The invariant of the scheduler's circular list and the effect of each
    operation on it: the tasks, read off the [next] links from the current one,
    form a duplicate-free list that holds every live task. *)

From S2P Require Import Prelude Mem Task Sched.

(** ** Chains of [next] links *)

(** Following [next] from [a] visits the tasks [l] and arrives at [b]. *)
Fixpoint chain (m : gmap Z Task) (a : Z) (l : list Z) (b : Z) : Prop :=
  match l with
  | [] => a = b
  | x :: l => a = x ∧ ∃ t, m !! x = Some t ∧ chain m (next t) l b
  end.

Lemma chain_app m a l1 l2 b :
  chain m a (l1 ++ l2) b ↔ ∃ c, chain m a l1 c ∧ chain m c l2 b.
Proof.
  revert a. induction l1 as [|x l1 IH]; intros a; simpl.
  - split; [by eexists|by intros (c & -> & ?)].
  - split.
    + intros (-> & t & Ht & Hc). apply IH in Hc as (c & ? & ?). eauto 8.
    + intros (c & (-> & t & Ht & Hc) & Hc2). split; [done|]. exists t. split; [done|].
      apply IH. by exists c.
Qed.

(** Only the links of the chain's own tasks matter. *)
Lemma chain_ext m m' a l b :
  (∀ x t, x ∈ l → m !! x = Some t → ∃ t', m' !! x = Some t' ∧ next t' = next t) →
  chain m a l b → chain m' a l b.
Proof.
  revert a. induction l as [|x l IH]; intros a H; simpl; [done|].
  intros (-> & t & Ht & Hc). split; [done|].
  destruct (H x t) as (t' & Ht' & Hn); [apply list_elem_of_here|done|].
  exists t'. split; [done|]. rewrite Hn. apply IH; [|done].
  intros y u Hy. apply H. by apply list_elem_of_further.
Qed.

Lemma chain_lookup m a l b x : chain m a l b → x ∈ l → is_Some (m !! x).
Proof.
  revert a. induction l as [|y l IH]; intros a; simpl; [by intros _ ?%not_elem_of_nil|].
  intros (-> & t & Ht & Hc) [->|Hx]%elem_of_cons; [by eexists|by eapply IH].
Qed.

Lemma chain_insert_same m a l b x t t' :
  m !! x = Some t → next t' = next t → chain m a l b → chain (<[x := t']> m) a l b.
Proof.
  intros Hx Hn. apply chain_ext. intros y u _ Hy. destruct (decide (y = x)) as [->|Hne].
  - exists t'. rewrite lookup_insert_eq. split; [done|]. by simplify_eq.
  - exists u. by rewrite lookup_insert_ne by done.
Qed.

Lemma chain_insert_outside m a l b x t' : x ∉ l → chain m a l b → chain (<[x := t']> m) a l b.
Proof.
  intros Hx. apply chain_ext. intros y u Hy Hu. exists u. rewrite lookup_insert_ne; [done|].
  by intros ->.
Qed.

Lemma chain_delete m a l b x : x ∉ l → chain m a l b → chain (delete x m) a l b.
Proof.
  intros Hx. apply chain_ext. intros y u Hy Hu. exists u. rewrite lookup_delete_ne; [done|].
  by intros ->.
Qed.

Section ring.
Context {K : Type} `{KernelEnvLaws K}.
Implicit Type s : Sched K.

Lemma deref_Some t s tcb : tasks (ts s) !! t = Some tcb → deref t s = Ok tcb.
Proof. intros E. unfold deref. by rewrite E. Qed.

Lemma update_Some t f s tcb :
  tasks (ts s) !! t = Some tcb →
  update t f s = Ok (with_ts (with_tasks (<[t := f tcb]> (tasks (ts s))) (ts s)) s).
Proof. intros E. unfold update. by rewrite (deref_Some _ _ _ E). Qed.

(** ** The invariant *)

Record ring_ok s (l : list Z) : Prop := {
  ro_chain : chain (tasks (ts s)) (current_ s) l (current_ s);
  ro_nodup : NoDup l;
  ro_head : ∃ rest, l = current_ s :: rest;
  ro_dom p : is_Some (tasks (ts s) !! p) ↔ p ∈ l;
  ro_others p t : tasks (ts s) !! p = Some t → p ≠ current_ s → state t ≠ Running;
  ro_idle : ∃ t, tasks (ts s) !! idle_task_ s = Some t ∧ state t ≠ Dead;
  ro_zombie : zombie_ s = 0 ∨
    ∃ t, tasks (ts s) !! zombie_ s = Some t ∧ state t = Dead ∧ parent t = 0;
  ro_own p t b : tasks (ts s) !! p = Some t → b ∈ owned p t → k_live (env (ts s)) b = true;
  ro_own_nodup p t : tasks (ts s) !! p = Some t → NoDup (owned p t);
  ro_own_disj p q t u b : tasks (ts s) !! p = Some t → tasks (ts s) !! q = Some u →
    b ∈ owned p t → b ∈ owned q u → p = q;
}.

(** What holds between operations: the invariant, and the current task runs. *)
Definition sched_ok s (l : list Z) : Prop :=
  ring_ok s l ∧ ∃ t, tasks (ts s) !! current_ s = Some t ∧ state t = Running.

Lemma ring_current s l : ring_ok s l → ∃ t, tasks (ts s) !! current_ s = Some t.
Proof.
  intros Hok. apply (ro_dom _ _ Hok). destruct (ro_head _ _ Hok) as [rest ->].
  apply list_elem_of_here.
Qed.

Lemma ring_nonnull s l p t : ring_ok s l → tasks (ts s) !! p = Some t → p ≠ 0.
Proof using H0.
  intros Hok Hp ->. pose proof (ro_own _ _ Hok 0 t 0 Hp (list_elem_of_here _ _)) as Hl.
  by rewrite k_live_null in Hl.
Qed.

Lemma ring_size s l : ring_ok s l → size (tasks (ts s)) = length l.
Proof.
  intros Hok. rewrite <-size_dom. assert (dom (tasks (ts s)) = list_to_set l) as ->.
  { apply set_eq. intros p. by rewrite elem_of_dom, elem_of_list_to_set, (ro_dom _ _ Hok). }
  apply size_list_to_set, (ro_nodup _ _ Hok).
Qed.

(** ** Walking the ring *)

Lemma find_prev_chain s l1 p t l2 fuel a b :
  chain (tasks (ts s)) a (l1 ++ p :: t :: l2) b → t ∉ l1 → t ≠ p →
  (length l1 < fuel)%nat → find_prev fuel a t s = Ok p.
Proof.
  revert a fuel. induction l1 as [|x l1 IH]; intros a fuel Hc Hn Hp Hf;
    (destruct fuel as [|fuel]; [simpl in Hf; lia|]); simpl in Hc |- *.
  - destruct Hc as (-> & u & Hu & E & _). rewrite (deref_Some _ _ _ Hu). res_step.
    by rewrite E, Z.eqb_refl.
  - destruct Hc as (-> & u & Hu & Hc). rewrite (deref_Some _ _ _ Hu). res_step.
    apply not_elem_of_cons in Hn as [Hne Hn].
    destruct (Z.eqb_spec (next u) t) as [E|_].
    + exfalso. destruct l1 as [|y l1]; simpl in Hc; destruct Hc as [E' _].
      * by rewrite E in E'.
      * apply not_elem_of_cons in Hn as [Hn _]. by rewrite E in E'.
    + apply IH; [done..|]. simpl in Hf. lia.
Qed.

(** The task before [t] on a ring that holds it. *)
Lemma ring_split s l t :
  ring_ok s l → t ∈ l → t ≠ current_ s → ∃ l1 p l2, l = l1 ++ p :: t :: l2 ∧ t ∉ l1 ∧ t ≠ p.
Proof.
  intros Hok Ht Hne. apply list_elem_of_split in Ht as (l1 & l2 & ->).
  destruct (ro_head _ _ Hok) as [rest Hr]. pose proof (ro_nodup _ _ Hok) as Hnd.
  destruct (decide (l1 = [])) as [->|Hl1]; [simpl in Hr; by simplify_eq|].
  destruct (exists_last Hl1) as (l1' & p & ->). exists l1', p, l2.
  rewrite <-!app_assoc in *. simpl in *. split; [done|].
  apply NoDup_app in Hnd as (_ & Hd & Hnd2). apply NoDup_cons in Hnd2 as [Hp _]. split.
  - intros Hin. apply (Hd t Hin). apply list_elem_of_further, list_elem_of_here.
  - intros ->. apply Hp, list_elem_of_here.
Qed.

Lemma unlink_spec s l t tcb :
  ring_ok s l → tasks (ts s) !! t = Some tcb → t ≠ current_ s →
  ∃ l1 p l2 ptcb, l = l1 ++ p :: t :: l2 ∧ tasks (ts s) !! p = Some ptcb ∧ p ≠ t ∧ t ∉ l1 ∧
    unlink_from_ring t s =
      Ok (with_ts (with_tasks (<[p := set_next (next tcb) ptcb]> (tasks (ts s))) (ts s)) s).
Proof.
  intros Hok Ht Hne. assert (t ∈ l) as Hin by (apply (ro_dom _ _ Hok); by eexists).
  destruct (ring_split s l t Hok Hin Hne) as (l1 & p & l2 & -> & Hn & Hp).
  assert (is_Some (tasks (ts s) !! p)) as [ptcb Hpt].
  { apply (ro_dom _ _ Hok), elem_of_app. right. apply list_elem_of_here. }
  exists l1, p, l2, ptcb. split_and!; try done.
  unfold unlink_from_ring. rewrite (find_prev_chain s l1 p t l2 _ _ (current_ s)).
  - res_step. rewrite (deref_Some _ _ _ Ht). res_step. by apply update_Some.
  - apply (ro_chain _ _ Hok).
  - done.
  - done.
  - unfold ring_fuel. rewrite (ring_size s _ Hok), length_app. simpl. lia.
Qed.

(** Unlinking shortens the chain by exactly [t]. *)
Lemma unlink_chain m a l1 p t l2 b ptcb tcb :
  chain m a (l1 ++ p :: t :: l2) b → NoDup (l1 ++ p :: t :: l2) →
  m !! p = Some ptcb → m !! t = Some tcb →
  chain (<[p := set_next (next tcb) ptcb]> m) a (l1 ++ p :: l2) b.
Proof.
  intros Hc Hnd Hp Ht. apply chain_app in Hc as (c & Hc1 & -> & u & Hu & E & v & Hv & Hc2).
  rewrite Ht in Hv. injection Hv as <-. apply NoDup_app in Hnd as (_ & Hd & Hnd2).
  apply NoDup_cons in Hnd2 as [Hp2 _]. apply chain_app. exists p. split.
  - apply chain_insert_outside; [|done]. intros Hin. apply (Hd p Hin), list_elem_of_here.
  - simpl. split; [done|]. exists (set_next (next tcb) ptcb). rewrite lookup_insert_eq. split; [done|].
    simpl. apply chain_insert_outside; [|done]. intros Hin. by apply Hp2, list_elem_of_further.
Qed.

Definition ready_in s (p : Z) : bool :=
  match tasks (ts s) !! p with Some t => bool_decide (state t = Ready) | None => false end.

(** [next_ready_after] is the first Ready task of the rest of the ring. *)
Lemma ready_loop_spec s l fuel a from :
  chain (tasks (ts s)) a l from → from ∉ l → (length l < fuel)%nat →
  ready_loop fuel a from s = Ok (default 0 (head (filter (λ p, ready_in s p) l))).
Proof.
  revert a fuel. induction l as [|x l IH]; intros a fuel Hc Hn Hf;
    (destruct fuel as [|fuel]; [simpl in Hf; lia|]); simpl in Hc; cbn [ready_loop].
  - subst a. by rewrite Z.eqb_refl.
  - destruct Hc as (-> & t & Ht & Hc). apply not_elem_of_cons in Hn as [Hne Hn].
    destruct (Z.eqb_spec x from) as [->|_]; [done|].
    rewrite (deref_Some _ _ _ Ht). res_step. rewrite filter_cons.
    assert (ready_in s x = bool_decide (state t = Ready)) as Hrx by (unfold ready_in; by rewrite Ht).
    destruct (decide (state t = Ready)) as [Hr|Hr].
    + rewrite decide_True by (rewrite Hrx; by apply bool_decide_pack). done.
    + rewrite decide_False by (rewrite Hrx; by intros ?%bool_decide_unpack). apply IH; [done..|].
      simpl in Hf. lia.
Qed.

(** ** Removing a task *)

(** The same task but for its link. *)
Definition same_but_next (t t' : Task) : Prop := set_next 0 t = set_next 0 t'.

#[local] Instance same_but_next_equiv : Equivalence same_but_next.
Proof. unfold same_but_next. split; [done|by intros x y ->|by intros x y z -> ->]. Qed.

Lemma same_but_next_fields t t' :
  same_but_next t t' →
  state t = state t' ∧ parent t = parent t' ∧ id t = id t' ∧ stack_base t = stack_base t' ∧
  fpu_raw t = fpu_raw t' ∧ exit_code t = exit_code t'.
Proof. unfold same_but_next. destruct t, t'; simpl. intros E. by injection E. Qed.

Lemma same_owned p t t' : same_but_next t t' → owned p t = owned p t'.
Proof. intros E%same_but_next_fields. unfold owned. by destruct E as (_ & _ & _ & -> & -> & _). Qed.

Lemma set_next_same n t : same_but_next (set_next n t) t.
Proof. by destruct t. Qed.

Lemma kfree_owned b k :
  b = 0 ∨ k_live k b = true →
  ∃ k', kfree b k = Ok k' ∧ ∀ q, k_live k' q = negb (q =? b) && k_live k q.
Proof using H0.
  intros [->|Hb]; [|by apply kfree_spec]. exists k. split; [apply kfree_null|].
  intros q. destruct (Z.eqb_spec q 0) as [->|]; [by rewrite k_live_null|done].
Qed.

Lemma free_task_spec s t tcb :
  tasks (ts s) !! t = Some tcb →
  (∀ b, b ∈ owned t tcb → k_live (env (ts s)) b = true) → NoDup (owned t tcb) →
  ∃ k', free_task t s = Ok (with_ts (with_env k' (with_tasks (delete t (tasks (ts s))) (ts s))) s) ∧
    ∀ q, k_live k' q = negb (bool_decide (q ∈ owned t tcb)) && k_live (env (ts s)) q.
Proof using H0.
  intros Ht Hlive Hnd. unfold free_task. rewrite (deref_Some _ _ _ Ht). res_step.
  assert (∃ k0, (if negb (task_cr3 tcb =? 0) then k_destroy (task_cr3 tcb) (env (ts s))
                 else Ok (env (ts s))) = Ok k0 ∧ ∀ q, k_live k0 q = k_live (env (ts s)) q)
    as (k0 & -> & H1).
  { case_match; [apply k_destroy_spec|by eexists]. }
  res_step.
  assert (t ∉ filter (λ b, b ≠ 0) [stack_base tcb; fpu_raw tcb]) as Hnt by (by apply NoDup_cons in Hnd as [? _]).
  assert (NoDup (filter (λ b, b ≠ 0) [stack_base tcb; fpu_raw tcb])) as Hnd2 by (by apply NoDup_cons in Hnd as [_ ?]).
  assert (∀ b, b ∈ [stack_base tcb; fpu_raw tcb] → b = 0 ∨ k_live (env (ts s)) b = true ∧ b ≠ t) as Hb.
  { intros b Hb. destruct (decide (b = 0)) as [|Hne]; [by left|right].
    assert (b ∈ filter (λ b, b ≠ 0) [stack_base tcb; fpu_raw tcb]) by (by apply list_elem_of_filter).
    split; [by apply Hlive, list_elem_of_further|]. by intros ->. }
  destruct (kfree_owned (stack_base tcb) k0) as (k1 & -> & H2).
  { rewrite H1. destruct (Hb (stack_base tcb)) as [|[? _]]; [apply list_elem_of_here|by left|by right]. }
  res_step. destruct (kfree_owned (fpu_raw tcb) k1) as (k2 & -> & H3).
  { rewrite H2, H1. destruct (Hb (fpu_raw tcb)) as [|[-> _]];
      [apply list_elem_of_further, list_elem_of_here|by left|].
    destruct (Z.eqb_spec (fpu_raw tcb) (stack_base tcb)) as [E|_]; [|by right].
    destruct (decide (stack_base tcb = 0)) as [Ez|Hnz]; [left; congruence|exfalso].
    rewrite E in Hnd2. rewrite !filter_cons, !decide_True in Hnd2 by done.
    apply NoDup_cons in Hnd2 as [Hx _]. apply Hx, list_elem_of_here. }
  res_step. destruct (kfree_owned t k2) as (k3 & -> & H4).
  { right. rewrite H3, H2, H1, Hlive by apply list_elem_of_here.
    destruct (Z.eqb_spec t (fpu_raw tcb)) as [E|_], (Z.eqb_spec t (stack_base tcb)) as [E'|_]; try done; exfalso.
    all: destruct (decide (t = 0)) as [Hz|Hz];
      [pose proof (Hlive t (list_elem_of_here _ _)) as Hl; by rewrite Hz, k_live_null in Hl|].
    all: apply Hnt, list_elem_of_filter; split; [done|]; rewrite ?E, ?E';
      first [apply list_elem_of_here|apply list_elem_of_further, list_elem_of_here]. }
  res_step. exists k3. split; [done|]. intros q. rewrite H4, H3, H2, H1.
  destruct (decide (q = 0)) as [->|Hq0]; [rewrite k_live_null; by rewrite !andb_false_r|].
  rewrite !andb_assoc. f_equal. unfold owned. apply eq_true_iff_eq.
  rewrite !andb_true_iff, !negb_true_iff, !Z.eqb_neq, bool_decide_eq_false.
  rewrite elem_of_cons, list_elem_of_filter, !elem_of_cons. split.
  - intros [[? ?] ?] [->|[_ [->|[->|?%not_elem_of_nil]]]]; done.
  - intros Hn. split_and!; intros ->; apply Hn; auto.
Qed.

(** Unlinking a dead task and freeing it takes it off the ring and out of the
    heap, and touches nothing else. *)
Lemma remove_spec s l t tcb :
  ring_ok s l → tasks (ts s) !! t = Some tcb → t ≠ current_ s → state tcb = Dead →
  ∃ s', (s' ← unlink_from_ring t s; free_task t s') = Ok s' ∧
    (∀ z, z = 0 ∨ z = zombie_ s ∧ z ≠ t → ring_ok (with_zombie z s') (filter (λ p, p ≠ t) l)) ∧
    tasks (ts s') !! t = None ∧
    (∀ p u, p ≠ t → tasks (ts s) !! p = Some u →
       ∃ u', tasks (ts s') !! p = Some u' ∧ same_but_next u' u) ∧
    (∀ q, k_live (env (ts s')) q =
       negb (bool_decide (q ∈ owned t tcb)) && k_live (env (ts s)) q) ∧
    current_ s' = current_ s ∧ idle_task_ s' = idle_task_ s ∧ zombie_ s' = zombie_ s ∧
    cpu s' = cpu s ∧ km (ts s') = km (ts s) ∧ next_id (ts s') = next_id (ts s).
Proof using H0.
  intros Hok Ht Hne Hdead.
  destruct (unlink_spec s l t tcb Hok Ht Hne) as (l1 & p & l2 & ptcb & -> & Hp & Hpt & Hn1 & ->).
  res_step. set (s1 := with_ts _ s).
  assert (tasks (ts s1) !! t = Some tcb) as Ht1 by (simpl; by rewrite lookup_insert_ne).
  destruct (free_task_spec s1 t tcb Ht1) as (k' & -> & Hlive).
  { intros b. apply (ro_own _ _ Hok _ _ _ Ht). }
  { by apply (ro_own_nodup _ _ Hok). }
  pose proof (ro_nodup _ _ Hok) as Hnd.
  assert (t ∉ l2) as Hn2.
  { apply NoDup_app in Hnd as (_ & _ & Hnd). apply NoDup_cons in Hnd as [_ Hnd].
    by apply NoDup_cons in Hnd as [? _]. }
  assert (filter (λ x, x ≠ t) (l1 ++ p :: t :: l2) = l1 ++ p :: l2) as Hfil.
  { assert (∀ l0 : list Z, t ∉ l0 → filter (λ x, x ≠ t) l0 = l0) as Hid.
    { intros l0 Hl0. apply filter_id. by intros x Hx ->. }
    rewrite filter_app, !filter_cons, decide_True, decide_False by naive_solver.
    by rewrite !Hid by done. }
  (* every other task is kept, up to its link *)
  assert (∀ q u, q ≠ t → tasks (ts s) !! q = Some u →
    ∃ u', delete t (<[p := set_next (next tcb) ptcb]> (tasks (ts s))) !! q = Some u' ∧
      same_but_next u' u) as Hkeep.
  { intros q u Hq Hu. rewrite lookup_delete_ne by done. destruct (decide (q = p)) as [->|].
    - eexists. rewrite lookup_insert_eq. split; [done|]. simplify_eq. apply set_next_same.
    - exists u. by rewrite lookup_insert_ne. }
  assert (∀ q u', delete t (<[p := set_next (next tcb) ptcb]> (tasks (ts s))) !! q = Some u' →
    q ≠ t ∧ ∃ u, tasks (ts s) !! q = Some u ∧ same_but_next u' u) as Hback.
  { intros q u' Hu'. apply lookup_delete_Some in Hu' as [Hq Hu']. split; [done|].
    destruct (decide (q = p)) as [->|].
    - rewrite lookup_insert_eq in Hu'. simplify_eq. exists ptcb. split; [done|apply set_next_same].
    - rewrite lookup_insert_ne in Hu' by done. by exists u'. }
  eexists. split; [done|]. split_and!; try done; cycle 1.
  { simpl. apply lookup_delete_eq. }
  intros z Hz. rewrite Hfil. split; simpl.
  - apply chain_delete.
    { intros [?|[?|?]%elem_of_cons]%elem_of_app; done. }
    eapply unlink_chain; [apply (ro_chain _ _ Hok)|done..].
  - rewrite <-Hfil. by apply NoDup_filter.
  - destruct (ro_head _ _ Hok) as [rest Hr]. destruct l1 as [|x l1]; simpl in *; simplify_eq; eauto.
  - intros q. transitivity (q ≠ t ∧ is_Some (tasks (ts s) !! q)).
    + split.
      * intros [u' Hu']. apply Hback in Hu' as (? & u & ? & _). split; [done|by eexists].
      * intros [Hq [u Hu]]. destruct (Hkeep q u Hq Hu) as (u' & ? & _). by eexists.
    + by rewrite (ro_dom _ _ Hok), <-Hfil, list_elem_of_filter.
  - intros q u' Hu'. apply Hback in Hu' as (Hq & u & Hu & E%same_but_next_fields).
    destruct E as [-> _]. by apply (ro_others _ _ Hok q).
  - destruct (ro_idle _ _ Hok) as (u & Hu & Hs). destruct (Hkeep (idle_task_ s) u) as (u' & Hu' & E).
    + intros Ei. rewrite Ei in Hu. by simplify_eq.
    + done.
    + exists u'. split; [done|]. apply same_but_next_fields in E. by destruct E as [-> _].
  - destruct Hz as [->|[-> Hzt]]; [by left|].
    destruct (ro_zombie _ _ Hok) as [->|(u & Hu & Hs & Hp0)]; [by left|right].
    destruct (Hkeep (zombie_ s) u) as (u' & Hu' & E); [done..|]. exists u'.
    apply same_but_next_fields in E as (-> & -> & _). done.
  - intros q u' b Hu' Hb. apply Hback in Hu' as (Hq & u & Hu & E).
    rewrite (same_owned _ _ _ E) in Hb. rewrite Hlive. simpl.
    rewrite (ro_own _ _ Hok q u b) by done. rewrite andb_true_r, negb_true_iff, bool_decide_eq_false.
    intros Hbt. by apply Hq, (ro_own_disj _ _ Hok q t u tcb b).
  - intros q u' Hu'. apply Hback in Hu' as (_ & u & Hu & E).
    rewrite (same_owned _ _ _ E). by apply (ro_own_nodup _ _ Hok).
  - intros q r u' v' b Hu' Hv' Hbu Hbv. apply Hback in Hu' as (_ & u & Hu & E).
    apply Hback in Hv' as (_ & v & Hv & E').
    rewrite (same_owned _ _ _ E) in Hbu. rewrite (same_owned _ _ _ E') in Hbv.
    by apply (ro_own_disj _ _ Hok q r u v b).
Qed.

(** [reap_zombie] removes the zombie, unless there is none or it is still running. *)
Definition reaped s : Z := if zombie_ s =? current_ s then 0 else zombie_ s.

Lemma reap_zombie_spec s l :
  ring_ok s l →
  ∃ s', reap_zombie s = Ok s' ∧ ring_ok s' (filter (λ p, p ≠ reaped s) l) ∧
    (∀ p u, p ≠ reaped s → tasks (ts s) !! p = Some u →
       ∃ u', tasks (ts s') !! p = Some u' ∧ same_but_next u' u) ∧
    current_ s' = current_ s ∧ idle_task_ s' = idle_task_ s ∧
    zombie_ s' = (if zombie_ s =? current_ s then zombie_ s else 0) ∧
    cpu s' = cpu s ∧ km (ts s') = km (ts s) ∧ next_id (ts s') = next_id (ts s).
Proof using H0.
  intros Hok. unfold reap_zombie, reaped.
  assert (0 ∉ l) as H0l.
  { intros Hin. apply (ro_dom _ _ Hok) in Hin as [u Hu]. by apply (ring_nonnull s l 0 u Hok). }
  assert (filter (λ p, p ≠ 0) l = l) as Hid.
  { apply filter_id. by intros x Hx ->. }
  destruct (Z.eqb_spec (zombie_ s) 0) as [Ez|Hz].
  { exists s. rewrite Ez. case_match; rewrite Hid; split_and!; try done; intros p u _ Hu; by exists u. }
  destruct (Z.eqb_spec (zombie_ s) (current_ s)) as [Ec|Hc].
  { exists s. rewrite Hid. split_and!; try done. intros p u _ Hu. by exists u. }
  destruct (ro_zombie _ _ Hok) as [|(u & Hu & Hs & Hp)]; [done|].
  destruct (remove_spec s l (zombie_ s) u Hok Hu Hc Hs) as (s' & E & Hr & _ & Hk & _ & F).
  apply bind_Ok in E as (s1 & -> & E). res_step. rewrite E. res_step.
  exists (with_zombie 0 s'). split_and!; try done; try apply F; simpl; auto.
Qed.

(** ** Scheduling *)

(** The same task but for what a context switch changes. *)
Definition same_core (t t' : Task) : Prop :=
  set_rsp 0 (set_state Ready (set_next 0 t)) = set_rsp 0 (set_state Ready (set_next 0 t')).

#[local] Instance same_core_equiv : Equivalence same_core.
Proof. unfold same_core. split; [done|by intros x y ->|by intros x y z -> ->]. Qed.

Lemma same_core_fields t t' :
  same_core t t' →
  parent t = parent t' ∧ id t = id t' ∧ stack_base t = stack_base t' ∧
  fpu_raw t = fpu_raw t' ∧ exit_code t = exit_code t'.
Proof. unfold same_core. destruct t, t'; simpl. intros E. by injection E. Qed.

Lemma same_core_owned p t t' : same_core t t' → owned p t = owned p t'.
Proof. intros E%same_core_fields. unfold owned. by destruct E as (_ & _ & -> & -> & _). Qed.

Lemma same_next_core t t' : same_but_next t t' → same_core t t'.
Proof. unfold same_but_next, same_core. by intros ->. Qed.

(** The task [schedule] runs next: the first Ready task after the current one;
    else the current one if it can still run; else the idle task. *)
Definition pick s (l : list Z) : Z :=
  match head (filter (λ p, ready_in s p) (tail l)) with
  | Some p => p
  | None => match tasks (ts s) !! current_ s with
            | Some t => if decide (state t = Running) then current_ s else idle_task_ s
            | None => 0
            end
  end.

Lemma pick_spec s l t :
  ring_ok s l → tasks (ts s) !! current_ s = Some t →
  (state t = Running ∨ current_ s ≠ idle_task_ s) →
  (pick s l = current_ s ∧ state t = Running) ∨
  (pick s l ≠ current_ s ∧ ∃ u, tasks (ts s) !! pick s l = Some u ∧ state u = Ready).
Proof.
  intros Hok Ht Hcur. unfold pick. destruct (ro_head _ _ Hok) as [rest Hl].
  assert (∀ p, p ∈ tail l → p ≠ current_ s) as Htl.
  { intros p Hp ->. pose proof (ro_nodup _ _ Hok) as Hnd. rewrite Hl in Hnd, Hp.
    by apply NoDup_cons in Hnd as [? _]. }
  destruct (head _) as [p|] eqn:Eh.
  - right. assert (p ∈ filter (λ p, ready_in s p) (tail l)) as [Hr Hp]%list_elem_of_filter.
    { destruct (filter _ _); simplify_eq/=. apply list_elem_of_here. }
    split; [by apply Htl|]. unfold ready_in in Hr. destruct (tasks (ts s) !! p) as [u|]; [|done].
    exists u. split; [done|]. by apply bool_decide_unpack in Hr.
  - rewrite Ht. case_decide as Hrun; [by left|]. destruct Hcur as [|Hni]; [done|]. exfalso.
    destruct (ro_idle _ _ Hok) as (u & Hu & Hs).
    assert (state u ≠ Running) by (by apply (ro_others _ _ Hok (idle_task_ s))).
    assert (idle_task_ s ∈ filter (λ p, ready_in s p) (tail l)) as Hin.
    { apply list_elem_of_filter. unfold ready_in. rewrite Hu. split.
      - apply bool_decide_pack. by destruct (state u).
      - assert (idle_task_ s ∈ l) as Hil by (apply (ro_dom _ _ Hok); by eexists).
        rewrite Hl in Hil |- *. simpl. apply elem_of_cons in Hil as [|]; [|done]. by destruct Hni. }
    destruct (filter _ _); [by apply not_elem_of_nil in Hin|done].
Qed.

(** Turning the ring so that another of its tasks comes first. *)
Lemma chain_rotate m a l1 l2 : chain m a (l1 ++ l2) a → ∀ x l2', l2 = x :: l2' → chain m x (l2 ++ l1) x.
Proof.
  intros Hc x l2' ->. apply chain_app in Hc as (c & H1 & H2). simpl in H2.
  destruct H2 as (-> & H2). apply chain_app. exists a. by split.
Qed.

(** What a switch leaves of a task that stays. *)
Definition switched s s' (nxt : Z) : Prop :=
  ∀ p u, tasks (ts s) !! p = Some u →
    ∃ u', tasks (ts s') !! p = Some u' ∧ same_core u' u ∧ next u' = next u ∧
      state u' = (if p =? nxt then Running
                  else if (p =? current_ s) && bool_decide (state u = Running) then Ready
                  else state u).

Lemma switched_ring s s' l nxt t :
  ring_ok s l → tasks (ts s) !! current_ s = Some t →
  (∃ u, tasks (ts s) !! nxt = Some u ∧ (state u = Ready ∨ nxt = current_ s ∧ state u = Running)) →
  switched s s' nxt → dom (tasks (ts s')) = dom (tasks (ts s)) →
  env (ts s') = env (ts s) → current_ s' = nxt → idle_task_ s' = idle_task_ s → zombie_ s' = zombie_ s →
  ∃ l1 l2, l = l1 ++ l2 ∧ sched_ok s' (l2 ++ l1).
Proof.
  intros Hok Ht (u & Hu & Hus) Hsw Hdom Henv Hc Hi Hz.
  assert (∀ p u', tasks (ts s') !! p = Some u' → ∃ u0, tasks (ts s) !! p = Some u0 ∧
    same_core u' u0 ∧ state u' = (if p =? nxt then Running
      else if (p =? current_ s) && bool_decide (state u0 = Running) then Ready else state u0)) as Hback.
  { intros p u' Hu'. assert (p ∈ dom (tasks (ts s))) as Hp by (rewrite <-Hdom; by apply elem_of_dom_2 in Hu').
    apply elem_of_dom in Hp as [u0 Hu0]. destruct (Hsw p u0 Hu0) as (u1 & E1 & ? & _ & ?).
    exists u0. simplify_eq. done. }
  assert (nxt ∈ l) as Hin by (apply (ro_dom _ _ Hok); by eexists).
  apply list_elem_of_split in Hin as (l1 & l2 & ->). exists l1, (nxt :: l2). split; [done|].
  assert (∀ p, p ∈ l1 ++ nxt :: l2 ↔ p ∈ (nxt :: l2) ++ l1) as Hperm.
  { intros p. rewrite !elem_of_app. tauto. }
  assert (chain (tasks (ts s')) (current_ s) (l1 ++ nxt :: l2) (current_ s)) as Hch.
  { eapply chain_ext; [|apply (ro_chain _ _ Hok)]. intros p v _ Hv.
    destruct (Hsw p v Hv) as (v' & ? & _ & ? & _). by exists v'. }
  split; [split|].
  - rewrite Hc. by eapply chain_rotate.
  - eapply NoDup_Permutation_proper; [|apply (ro_nodup _ _ Hok)]. apply Permutation_app_comm.
  - rewrite Hc. by eexists.
  - intros p. rewrite <-Hperm, <-(ro_dom _ _ Hok), <-!elem_of_dom. by rewrite Hdom.
  - intros p u' Hu' Hne. rewrite Hc in Hne. apply Hback in Hu' as (u0 & Hu0 & _ & ->).
    destruct (Z.eqb_spec p nxt); [done|]. destruct (Z.eqb_spec p (current_ s)) as [->|Hpc]; simpl.
    + case_bool_decide; done.
    + by apply (ro_others _ _ Hok p).
  - destruct (ro_idle _ _ Hok) as (v & Hv & Hvs). destruct (Hsw _ _ Hv) as (v' & Hv' & _ & _ & Hst).
    exists v'. rewrite Hi. split; [done|]. rewrite Hst. by repeat case_match.
  - rewrite Hz. destruct (ro_zombie _ _ Hok) as [|(v & Hv & Hvs & Hvp)]; [by left|right].
    destruct (Hsw _ _ Hv) as (v' & Hv' & Hcore & _ & Hst). exists v'. split; [done|].
    apply same_core_fields in Hcore as [-> _]. split; [|done]. rewrite Hst.
    destruct (Z.eqb_spec (zombie_ s) nxt) as [E|_].
    + rewrite E in Hv. simplify_eq. destruct Hus as [|[_ ?]]; congruence.
    + rewrite bool_decide_false by congruence. by rewrite andb_false_r.
  - intros p u' b Hu' Hb. rewrite Henv. apply Hback in Hu' as (u0 & Hu0 & E & _).
    rewrite (same_core_owned _ _ _ E) in Hb. by apply (ro_own _ _ Hok p u0).
  - intros p u' Hu'. apply Hback in Hu' as (u0 & Hu0 & E & _).
    rewrite (same_core_owned _ _ _ E). by apply (ro_own_nodup _ _ Hok).
  - intros p q u' v' b Hu' Hv' Hbu Hbv. apply Hback in Hu' as (u0 & Hu0 & E & _).
    apply Hback in Hv' as (v0 & Hv0 & E' & _).
    rewrite (same_core_owned _ _ _ E) in Hbu. rewrite (same_core_owned _ _ _ E') in Hbv.
    by apply (ro_own_disj _ _ Hok p q u0 v0 b).
  - rewrite Hc. destruct (Hsw _ _ Hu) as (u' & Hu' & _ & _ & Hst). exists u'.
    by rewrite Z.eqb_refl in Hst.
Qed.

Lemma schedule_reaped ra s s1 l t :
  reap_zombie s = Ok s1 → ring_ok s1 l → tasks (ts s1) !! current_ s1 = Some t →
  (state t = Running ∨ current_ s1 ≠ idle_task_ s1) →
  ∃ s', schedule ra s = Ok s' ∧ switched s1 s' (pick s1 l) ∧
    dom (tasks (ts s')) = dom (tasks (ts s1)) ∧ env (ts s') = env (ts s1) ∧
    current_ s' = pick s1 l ∧ idle_task_ s' = idle_task_ s1 ∧ zombie_ s' = zombie_ s1 ∧
    ticks_left_ s' = TIMESLICE_TICKS ∧ need_resched_ s' = false ∧ next_id (ts s') = next_id (ts s1).
Proof using H0.
  intros Hreap Hok Ht Hcur. unfold schedule. rewrite Hreap. res_step.
  unfold next_ready_after. rewrite (deref_Some _ _ _ Ht). res_step.
  destruct (ro_head _ _ Hok) as [rest ->]. pose proof (ro_nodup _ _ Hok) as Hnd.
  apply NoDup_cons in Hnd as [Hnotin Hnd]. pose proof (ro_chain _ _ Hok) as Hch.
  simpl in Hch. destruct Hch as (_ & t0 & Ht0 & Hch). rewrite Ht in Ht0. injection Ht0 as <-.
  rewrite (ready_loop_spec s1 rest) by
    (done || (unfold ring_fuel; rewrite (ring_size _ _ Hok); simpl; lia)).
  res_step.
  set (nxt := if _ =? 0 then _ else _).
  assert (nxt = pick s1 (current_ s1 :: rest)) as Hnxt.
  { unfold nxt, pick. simpl tail. rewrite Ht.
    destruct (head (filter _ rest)) as [p|] eqn:Eh; [|done]. simpl.
    destruct (Z.eqb_spec p 0) as [->|]; [|done]. exfalso.
    assert (0 ∈ filter (λ p, ready_in s1 p) rest) as [_ Hin]%list_elem_of_filter.
    { destruct (filter _ _); simplify_eq/=. apply list_elem_of_here. }
    assert (is_Some (tasks (ts s1) !! 0)) as [u Hu] by (apply (ro_dom _ _ Hok); by apply list_elem_of_further).
    by apply (ring_nonnull _ _ _ _ Hok Hu). }
  clearbody nxt. rewrite <-Hnxt.
  destruct (pick_spec s1 _ t Hok Ht Hcur) as [[Hp Hrun]|[Hp (u & Hu & Hus)]]; rewrite <-Hnxt in *.
  - rewrite Hp, Z.eqb_refl. eexists. split; [done|]. split_and!; try done. rewrite <-Hp.
    intros p v Hv. exists v. split_and!; [done..|]. rewrite <-Hp in Ht |- *.
    destruct (Z.eqb_spec p nxt) as [->|Hn]; [by simplify_eq|done].
  - destruct (Z.eqb_spec nxt (current_ s1)) as [|_]; [done|].
    assert (∀ (s2 : Sched K) v, tasks (ts s2) = <[current_ s1 := v]> (tasks (ts s1)) → update nxt (set_state Running) s2
      = Ok (with_ts (with_tasks (<[nxt := set_state Running u]> (tasks (ts s2))) (ts s2)) s2)) as Hupd.
    { intros s2 v E. apply update_Some. by rewrite E, lookup_insert_ne. }
    set (old' := if decide (state t = Running) then set_state Ready t else t).
    assert ((if decide (state t = Running) then update (current_ s1) (set_state Ready) (with_slice TIMESLICE_TICKS false s1)
             else Ok (with_slice TIMESLICE_TICKS false s1)) =
      Ok (with_ts (with_tasks (<[current_ s1 := old']> (tasks (ts s1))) (ts s1)) (with_slice TIMESLICE_TICKS false s1))) as ->.
    { unfold old'. case_decide.
      { exact (update_Some (current_ s1) (set_state Ready) (with_slice TIMESLICE_TICKS false s1) t Ht). }
      rewrite insert_id by done.
      by destruct s1 as [[] ? ? ? ? ? ?]. }
    res_step. rewrite (Hupd _ old') by done. res_step.
    rewrite (deref_Some nxt _ (set_state Running u)) by (simpl; by rewrite lookup_insert_eq).
    res_step.
    rewrite (deref_Some (current_ s1) _ old') by (simpl; by rewrite lookup_insert_ne, lookup_insert_eq by done).
    res_step. unfold switch_to.
    rewrite (deref_Some (current_ s1) _ old') by (simpl; by rewrite lookup_insert_ne, lookup_insert_eq by done).
    res_step. eexists. split; [done|]. split_and!; try done; simpl.
    + intros p v Hv. simpl. destruct (decide (p = current_ s1)) as [->|Hpc].
      { rewrite lookup_insert_eq. eexists. split; [done|].
        rewrite Ht in Hv. injection Hv as <-. rewrite Z.eqb_refl.
        destruct (Z.eqb_spec (current_ s1) nxt) as [|_]; [by destruct Hp|]. unfold old'.
        case_decide; [rewrite bool_decide_true by done|rewrite bool_decide_false by done]; by destruct t. }
      rewrite lookup_insert_ne by done. destruct (decide (p = nxt)) as [->|Hpn].
      { rewrite lookup_insert_eq. eexists. split; [done|]. rewrite Hu in Hv. injection Hv as <-.
        rewrite Z.eqb_refl. by destruct u. }
      exists v. rewrite !lookup_insert_ne by done. split; [done|].
      rewrite (proj2 (Z.eqb_neq _ _) Hpc), (proj2 (Z.eqb_neq _ _) Hpn). done.
    + rewrite !dom_insert_lookup_L; try done; rewrite ?lookup_insert_ne, ?lookup_insert_eq by done; by eexists.
Qed.

(** The effect of [schedule] on a state, reaping included. *)
Lemma pick_reaped s s1 l t :
  ring_ok s l → tasks (ts s) !! current_ s = Some t → current_ s1 = current_ s →
  idle_task_ s1 = idle_task_ s →
  (∀ p u, p ≠ reaped s → tasks (ts s) !! p = Some u →
     ∃ u', tasks (ts s1) !! p = Some u' ∧ same_but_next u' u) →
  pick s1 (filter (λ p, p ≠ reaped s) l) = pick s l ∧
  ∃ t1, tasks (ts s1) !! current_ s1 = Some t1 ∧ state t1 = state t.
Proof using H0.
  intros Hok Ht Hc Hi Hk.
  assert (current_ s ≠ reaped s) as Hcr.
  { unfold reaped. destruct (Z.eqb_spec (zombie_ s) (current_ s)) as [E|E]; [|congruence].
    by apply (ring_nonnull _ _ _ _ Hok Ht). }
  destruct (Hk _ _ Hcr Ht) as (t1 & Ht1 & E%same_but_next_fields).
  destruct E as [Est _]. split; [|exists t1; by rewrite Hc].
  assert (∀ l0 : list Z, (∀ p, p ∈ l0 → p ∈ l) →
    filter (λ p, ready_in s1 p) (filter (λ p, p ≠ reaped s) l0) = filter (λ p, ready_in s p) l0) as Hf.
  { induction l0 as [|p l0 IH]; intros Hsub; [done|].
    assert (∀ q, q ∈ l0 → q ∈ l) as Hsub' by (intros q Hq; by apply Hsub, list_elem_of_further).
    assert (is_Some (tasks (ts s) !! p)) as [u Hu] by (apply (ro_dom _ _ Hok), Hsub, list_elem_of_here).
    rewrite (filter_cons _ p). destruct (decide (p ≠ reaped s)) as [Hne|Heq].
    - rewrite !filter_cons, IH by done. destruct (Hk p u Hne Hu) as (u' & Hu' & F%same_but_next_fields).
      destruct F as [F _]. assert (ready_in s1 p = ready_in s p) as Er by (unfold ready_in; by rewrite Hu, Hu', F).
      by rewrite Er.
    - apply dec_stable in Heq. assert (¬ ready_in s p) as Hnr; [|by rewrite filter_cons, IH, decide_False].
      unfold ready_in. rewrite Hu. subst p. unfold reaped in Hu.
      destruct (Z.eqb_spec (zombie_ s) (current_ s)) as [Ez|Ez].
      + by destruct (ring_nonnull _ _ _ _ Hok Hu).
      + destruct (ro_zombie _ _ Hok) as [Ez0|(v & Hv & Hd & _)].
        * rewrite Ez0 in Hu. by destruct (ring_nonnull _ _ _ _ Hok Hu).
        * rewrite Hu in Hv. injection Hv as <-. rewrite Hd. by intros ?%bool_decide_unpack. }
  unfold pick. rewrite Hc, Ht1, Ht, Est, Hi. destruct (ro_head _ _ Hok) as [rest ->].
  rewrite filter_cons, decide_True by done. simpl tail. rewrite Hf; [done|].
  intros p Hp. by apply list_elem_of_further.
Qed.

Definition after_switch s s' (nxt : Z) : Prop :=
  ∀ p u, p ≠ reaped s → tasks (ts s) !! p = Some u →
    ∃ u', tasks (ts s') !! p = Some u' ∧ same_core u' u ∧
      state u' = (if p =? nxt then Running
                  else if (p =? current_ s) && bool_decide (state u = Running) then Ready
                  else state u).

Lemma schedule_full ra s l t :
  ring_ok s l → tasks (ts s) !! current_ s = Some t →
  (state t = Running ∨ current_ s ≠ idle_task_ s) →
  ∃ s' l1 l2, schedule ra s = Ok s' ∧ filter (λ p, p ≠ reaped s) l = l1 ++ l2 ∧
    sched_ok s' (l2 ++ l1) ∧ current_ s' = pick s l ∧ after_switch s s' (pick s l) ∧
    idle_task_ s' = idle_task_ s ∧
    zombie_ s' = (if zombie_ s =? current_ s then zombie_ s else 0) ∧
    ticks_left_ s' = TIMESLICE_TICKS ∧ need_resched_ s' = false ∧ next_id (ts s') = next_id (ts s).
Proof using H0.
  intros Hok Ht Hcur.
  destruct (reap_zombie_spec s l Hok) as (s1 & E & Hok1 & Hk & Hc & Hi & Hz & _ & _ & Hid).
  destruct (pick_reaped s s1 l t Hok Ht Hc Hi Hk) as (Hp & t1 & Ht1 & Hst).
  destruct (schedule_reaped ra s s1 _ t1 E Hok1 Ht1) as (s' & Es & Hsw & Hd & He & Hc' & Hi' & Hz' & Htk & Hnr & Hid').
  { rewrite Hst, Hc, Hi. done. }
  destruct (switched_ring s1 s' _ (pick s l) t1 Hok1 Ht1) as (l1 & l2 & Hl & Hok'); try done.
  { destruct (pick_spec s1 _ t1 Hok1 Ht1) as [[Hpc Hr]|[_ (u & ? & ?)]].
    - rewrite Hst, Hc, Hi. done.
    - rewrite Hp in Hpc. exists t1. rewrite Hpc. split; [done|]. by right.
    - rewrite Hp in *. exists u. split; [done|]. by left. }
  { by rewrite <-Hp. }
  { by rewrite Hc', Hp. }
  exists s', l1, l2. split_and!; try done; try congruence.
  intros p u Hpr Hu. destruct (Hk p u Hpr Hu) as (u1 & Hu1 & En).
  destruct (Hsw p u1 Hu1) as (u' & Hu' & Eco & _ & Hstu). exists u'.
  split_and!; [done|etrans; [done|by apply same_next_core]|].
  rewrite Hstu, Hp, Hc. apply same_but_next_fields in En as [-> _]. done.
Qed.

End ring.
