(* ===== verification/SchedSpec.v ===== *)
(** * What the scheduler guarantees

    The operations tasks perform, as one step function; that none of them ever
    follows a dangling link, frees a block twice or loops; round-robin order and
    absence of starvation; what [wait4] collects; and the one way a task can be
    lost. *)

From S2P Require Import Prelude Mem Task Sched Fork Ring.

Section spec.
Context {K : Type} `{KernelEnvLaws K}.
Implicit Type s : Sched K.

(** ** Operations preserve the invariant *)

(** Changing fields of one task that the invariant does not read. *)
Lemma update_ok s l p t f :
  sched_ok s l → tasks (ts s) !! p = Some t →
  next (f t) = next t → state (f t) = state t → owned p (f t) = owned p t →
  (p = zombie_ s → parent (f t) = parent t) →
  ∃ s', update p f s = Ok s' ∧ sched_ok s' l ∧ current_ s' = current_ s ∧
    zombie_ s' = zombie_ s ∧ idle_task_ s' = idle_task_ s ∧
    tasks (ts s') = <[p := f t]> (tasks (ts s)).
Proof.
  intros [Hok (c & Hc & Hrun)] Hp Hn Hs Ho Hz. rewrite (update_Some _ _ _ _ Hp).
  eexists. split; [done|]. split_and!; try done.
  assert (∀ q u, <[p := f t]> (tasks (ts s)) !! q = Some u →
    ∃ u0, tasks (ts s) !! q = Some u0 ∧ state u = state u0 ∧ owned q u = owned q u0) as Hback.
  { intros q u. destruct (decide (q = p)) as [->|].
    - rewrite lookup_insert_eq. intros [= <-]. by exists t.
    - rewrite lookup_insert_ne by done. intros Hu. by exists u. }
  assert (∀ q u0, tasks (ts s) !! q = Some u0 → ∃ u, <[p := f t]> (tasks (ts s)) !! q = Some u ∧
    state u = state u0 ∧ (q = zombie_ s → parent u = parent u0)) as Hfor.
  { intros q u0 Hu. destruct (decide (q = p)) as [->|].
    - exists (f t). rewrite lookup_insert_eq. simplify_eq. done.
    - exists u0. by rewrite lookup_insert_ne. }
  split; [split|]; simpl.
  - eapply chain_insert_same; [done..|apply (ro_chain _ _ Hok)].
  - apply (ro_nodup _ _ Hok).
  - apply (ro_head _ _ Hok).
  - intros q. rewrite <-(ro_dom _ _ Hok), <-!elem_of_dom. by rewrite dom_insert_lookup_L by by eexists.
  - intros q u Hu Hq. apply Hback in Hu as (u0 & Hu0 & -> & _). by apply (ro_others _ _ Hok q).
  - destruct (ro_idle _ _ Hok) as (u & Hu & Hd). apply Hfor in Hu as (u' & ? & E & _). exists u'. by rewrite E.
  - destruct (ro_zombie _ _ Hok) as [|(u & Hu & Hd & Hp0)]; [by left|right].
    apply Hfor in Hu as (u' & ? & E1 & E2). exists u'. by rewrite E1, E2.
  - intros q u b Hu Hb. apply Hback in Hu as (u0 & Hu0 & _ & E). rewrite E in Hb. by apply (ro_own _ _ Hok q u0).
  - intros q u Hu. apply Hback in Hu as (u0 & Hu0 & _ & ->). by apply (ro_own_nodup _ _ Hok).
  - intros q r u v b Hu Hv Hbu Hbv. apply Hback in Hu as (u0 & Hu0 & _ & E).
    apply Hback in Hv as (v0 & Hv0 & _ & E'). rewrite E in Hbu. rewrite E' in Hbv.
    by apply (ro_own_disj _ _ Hok q r u0 v0 b).
  - apply Hfor in Hc as (c' & ? & E & _). exists c'. by rewrite E.
Qed.

(** The heap may hand out or take back blocks no task owns. *)
Lemma with_env_ok s l k m :
  sched_ok s l → (∀ p t b, tasks (ts s) !! p = Some t → b ∈ owned p t → k_live k b = true) →
  sched_ok (with_ts (with_km m (with_env k (ts s))) s) l.
Proof.
  intros [Hok Hc] Hl. split; [|done]. destruct Hok. by split.
Qed.

(** [exit_current] marks the task dead, offers it for reaping when nobody will wait
    for it, and schedules. *)
Lemma exit_prepare ra s l t :
  sched_ok s l → tasks (ts s) !! current_ s = Some t → current_ s ≠ idle_task_ s →
  ∃ s2, exit_current ra s = schedule ra s2 ∧ ring_ok s2 l ∧
    tasks (ts s2) = <[current_ s := set_state Dead t]> (tasks (ts s)) ∧
    current_ s2 = current_ s ∧ idle_task_ s2 = idle_task_ s ∧
    zombie_ s2 = if parent t =? 0 then current_ s else zombie_ s.
Proof.
  intros [Hok (t0 & Ht0 & Hrun)] Ht Hni. rewrite Ht in Ht0. injection Ht0 as <-.
  unfold exit_current. rewrite (update_Some _ _ _ _ Ht). res_step.
  rewrite (deref_Some _ _ (set_state Dead t)) by (simpl; by rewrite lookup_insert_eq). res_step.
  change (parent (set_state Dead t)) with (parent t).
  set (s1 := with_ts _ s). set (s2 := if parent t =? 0 then _ else _).
  assert (tasks (ts s2) = <[current_ s := set_state Dead t]> (tasks (ts s))) as Etasks
    by (unfold s2; by case_match).
  assert (current_ s2 = current_ s) as Ecur by (unfold s2; by case_match).
  assert (idle_task_ s2 = idle_task_ s) as Eidle by (unfold s2; by case_match).
  assert (env (ts s2) = env (ts s)) as Eenv by (unfold s2; by case_match).
  assert (zombie_ s2 = if parent t =? 0 then current_ s else zombie_ s) as Ez by (unfold s2; by case_match).
  assert (∀ q u, tasks (ts s2) !! q = Some u → ∃ u0, tasks (ts s) !! q = Some u0 ∧
     owned q u = owned q u0 ∧ (q ≠ current_ s → u = u0)) as Hback.
  { intros q u. rewrite Etasks. destruct (decide (q = current_ s)) as [->|].
    - rewrite lookup_insert_eq. intros [= <-]. by exists t.
    - rewrite lookup_insert_ne by done. intros Hu. by exists u. }
  assert (tasks (ts s2) !! current_ s = Some (set_state Dead t)) as Hcur2 by (rewrite Etasks; by rewrite lookup_insert_eq).
  assert (ring_ok s2 l) as Hok2.
  { split.
    - rewrite Ecur, Etasks. eapply chain_insert_same; [done| |apply (ro_chain _ _ Hok)]. done.
    - apply (ro_nodup _ _ Hok).
    - rewrite Ecur. apply (ro_head _ _ Hok).
    - intros q. rewrite <-(ro_dom _ _ Hok), <-!elem_of_dom, Etasks. by rewrite dom_insert_lookup_L by by eexists.
    - intros q u Hu. rewrite Ecur. intros Hq. apply Hback in Hu as (u0 & Hu0 & _ & E).
      rewrite E by done. by apply (ro_others _ _ Hok q).
    - destruct (ro_idle _ _ Hok) as (u & Hu & Hd). exists u. rewrite Eidle, Etasks.
      by rewrite lookup_insert_ne.
    - rewrite Ez. destruct (Z.eqb_spec (parent t) 0) as [Hp|Hp].
      + right. by exists (set_state Dead t).
      + destruct (ro_zombie _ _ Hok) as [|(u & Hu & Hd & Hp0)]; [by left|right].
        exists u. rewrite Etasks, lookup_insert_ne; [done|]. intros E. rewrite <-E in Hu. by simplify_eq.
    - intros q u b Hu Hb. rewrite Eenv. apply Hback in Hu as (u0 & Hu0 & E & _). rewrite E in Hb.
      by apply (ro_own _ _ Hok q u0).
    - intros q u Hu. apply Hback in Hu as (u0 & Hu0 & -> & _). by apply (ro_own_nodup _ _ Hok).
    - intros q r u v b Hu Hv Hbu Hbv. apply Hback in Hu as (u0 & Hu0 & E & _).
      apply Hback in Hv as (v0 & Hv0 & E' & _). rewrite E in Hbu. rewrite E' in Hbv.
      by apply (ro_own_disj _ _ Hok q r u0 v0 b). }
  by exists s2.
Qed.

Lemma exit_current_ok ra s l t :
  sched_ok s l → tasks (ts s) !! current_ s = Some t → current_ s ≠ idle_task_ s →
  ∃ s' l', exit_current ra s = Ok s' ∧ sched_ok s' l' ∧
    (parent t = 0 → zombie_ s' = current_ s) ∧ current_ s' ≠ current_ s ∧
    idle_task_ s' = idle_task_ s ∧
    ∃ t', tasks (ts s') !! current_ s = Some t' ∧ same_core t' t ∧ state t' = Dead.
Proof using H0.
  intros Hs Ht Hni.
  destruct (exit_prepare ra s l t Hs Ht Hni) as (s2 & -> & Hok2 & Etasks & Ecur & Eidle & Ez).
  assert (tasks (ts s2) !! current_ s = Some (set_state Dead t)) as Hcur2 by (rewrite Etasks; by rewrite lookup_insert_eq).
  rewrite <-Ecur in Hcur2.
  destruct (schedule_full ra s2 l _ Hok2 Hcur2) as
    (s' & l1 & l2 & -> & _ & Hok' & Hc' & Hsw & Hi' & Hz' & _); [right; by rewrite Ecur, Eidle|].
  exists s', (l2 ++ l1). split_and!; try done.
  - intros Hp. rewrite Hz', Ez, Ecur, Hp. by rewrite !Z.eqb_refl.
  - rewrite Hc', <-Ecur. destruct (pick_spec s2 l _ Hok2 Hcur2) as [[_ ?]|[? _]]; [right; by rewrite Ecur, Eidle|done|done].
  - by rewrite Hi'.
  - assert (current_ s2 ≠ reaped s2) as Hnr.
    { unfold reaped. destruct (Z.eqb_spec (zombie_ s2) (current_ s2)) as [E|E]; [|congruence].
      by apply (ring_nonnull _ _ _ _ Hok2 Hcur2). }
    destruct (Hsw _ _ Hnr Hcur2) as (t' & Ht' & Hco & Hst). rewrite Ecur in Ht'. exists t'.
    split_and!; [done|etrans; [done|by destruct t]|].
    rewrite Hst. rewrite Z.eqb_refl. simpl.
    destruct (Z.eqb_spec (current_ s2) (pick s2 l)) as [E|_]; [|done].
    destruct (pick_spec s2 l _ Hok2 Hcur2) as [[_ ?]|[? _]]; [right; by rewrite Ecur, Eidle|done|done].
Qed.

Lemma schedule_ok ra s l :
  sched_ok s l → ∃ s' l', schedule ra s = Ok s' ∧ sched_ok s' l' ∧ idle_task_ s' = idle_task_ s.
Proof using H0.
  intros [Hok (t & Ht & Hrun)].
  destruct (schedule_full ra s l t Hok Ht (or_introl Hrun)) as (s' & l1 & l2 & E & _ & ? & _ & _ & ? & _).
  eauto.
Qed.

Lemma with_cpu_ok s l c : sched_ok s l → sched_ok (with_cpu c s) l.
Proof. intros [Hok Hc]. split; [|done]. destruct Hok. by split. Qed.

Lemma tick_ok s l : sched_ok s l → sched_ok (tick s) l.
Proof.
  intros [Hok Hc]. unfold tick. case_match; [by split|]. case_match; [|by split].
  split; [|done]. destruct Hok. by split.
Qed.

(** A new task goes right behind the current one. *)
Lemma spawn_ok tramp def nm entry arg size cr3 s l :
  sched_ok s l → name_ok nm →
  let r := spawn tramp def nm entry arg size cr3 s in
  r = Halt ∨
  (∃ s', r = Ok (s', 0) ∧ sched_ok s' l ∧ tasks (ts s') = tasks (ts s) ∧ current_ s' = current_ s ∧
     zombie_ s' = zombie_ s ∧ idle_task_ s' = idle_task_ s ∧
     ∀ q, k_live (env (ts s')) q = k_live (env (ts s)) q) ∨
  (∃ s' t tcb ctcb, r = Ok (s', t) ∧ sched_ok s' (current_ s :: t :: tail l) ∧ t ≠ 0 ∧
     tasks (ts s) !! t = None ∧ tasks (ts s) !! current_ s = Some ctcb ∧
     tasks (ts s') = <[current_ s := set_next t ctcb]> (<[t := tcb]> (tasks (ts s))) ∧
     parent tcb = 0 ∧ state tcb = Ready ∧ id tcb = next_id (ts s) ∧
     current_ s' = current_ s ∧ zombie_ s' = zombie_ s ∧ idle_task_ s' = idle_task_ s ∧
     task_cr3 tcb = cr3 ∧
     ∀ q, k_live (env (ts s')) q = bool_decide (q ∈ owned t tcb) || k_live (env (ts s)) q).
Proof using H0.
  intros [Hok (c & Hc & Hrun)] Hnm r. unfold r, spawn.
  destruct (create_cases tramp def nm entry arg size cr3 (ts s) Hnm) as [->|[(k & -> & HL)|Hcr]]; [by left| |].
  { right; left. res_step. simpl. eexists. split; [done|]. split; [|done].
    split; [|by exists c]. destruct Hok as [? ? ? ? ? ? ? Hown ? ?]. split; try done.
    intros p t b Hp Hb. simpl in *. rewrite HL. by eapply Hown. }
  right; right. destruct Hcr as (k & m & t & st & raw & nm' & -> & Ht & _ & _ & _ & _ & _ & _ & Hnd & Hfr & HL).
  res_step. destruct (Z.eqb_spec t 0) as [|Ht0]; [lia|].
  set (tcb := new_task _ _ _ _ _ _ _ _ _) in *.
  assert (tasks (ts s) !! t = None) as Htn.
  { destruct (tasks (ts s) !! t) as [u|] eqn:Hu; [|done].
    pose proof (ro_own _ _ Hok t u t Hu (list_elem_of_here _ _)) as Hl.
    rewrite Hfr in Hl by apply list_elem_of_here. done. }
  assert (current_ s ≠ t) as Hct by (intros E; by rewrite E, Htn in Hc).
  rewrite (deref_Some (current_ s) _ c) by (simpl; by rewrite lookup_insert_ne). res_step.
  rewrite (update_Some t _ _ tcb) by (simpl; by rewrite lookup_insert_eq). res_step.
  rewrite (update_Some (current_ s) _ _ c) by (simpl; by rewrite !lookup_insert_ne by done). res_step.
  set (m1 := tasks (ts (with_ts (with_tasks (<[t := set_next (next c) tcb]> _) _) _))).
  assert (m1 = <[t := set_next (next c) tcb]> (tasks (ts s))) as Em1 by (unfold m1; simpl; by rewrite insert_insert_eq).
  exists (with_ts (with_tasks (<[current_ s := set_next t c]> m1) (MkTaskSt k m m1 (u64 (next_id (ts s) + 1)))) s), t, (set_next (next c) tcb), c.
  split; [done|]. split; [|split_and!; try done; simpl; by rewrite Em1].
  destruct (ro_head _ _ Hok) as [rest ->]. simpl tail.
  pose proof (ro_chain _ _ Hok) as Hch. pose proof (ro_nodup _ _ Hok) as Hndl.
  destruct Hch as (_ & c0 & Hc0 & Hch). rewrite Hc in Hc0. injection Hc0 as <-.
  apply NoDup_cons in Hndl as [Hcin Hndl].
  assert (t ∉ rest) as Htin.
  { intros Hin. assert (is_Some (tasks (ts s) !! t)) as [? ?] by (apply (ro_dom _ _ Hok); by apply list_elem_of_further).
    congruence. }
  assert (∀ q u, <[current_ s := set_next t c]> m1 !! q = Some u →
    (q = t ∧ u = set_next (next c) tcb) ∨
    (q ≠ t ∧ ∃ u0, tasks (ts s) !! q = Some u0 ∧ state u = state u0 ∧ owned q u = owned q u0)) as Hback.
  { intros q u. rewrite Em1. destruct (decide (q = current_ s)) as [->|].
    - rewrite lookup_insert_eq. intros [= <-]. right. split; [done|]. by exists c.
    - rewrite lookup_insert_ne by done. destruct (decide (q = t)) as [->|].
      + rewrite lookup_insert_eq. intros [= <-]. by left.
      + rewrite lookup_insert_ne by done. intros Hu. right. split; [done|]. by exists u. }
  assert (∀ q u0, tasks (ts s) !! q = Some u0 → ∃ u, <[current_ s := set_next t c]> m1 !! q = Some u ∧
    state u = state u0 ∧ parent u = parent u0) as Hfor.
  { intros q u0 Hu. rewrite Em1. destruct (decide (q = current_ s)) as [->|].
    - exists (set_next t c). rewrite lookup_insert_eq. by simplify_eq.
    - exists u0. rewrite lookup_insert_ne by done. rewrite lookup_insert_ne; [done|]. intros ->. congruence. }
  split; [split|]; simpl.
  - split; [done|]. exists (set_next t c). rewrite lookup_insert_eq. split; [done|].
    split; [done|]. exists (set_next (next c) tcb). rewrite lookup_insert_ne, Em1, lookup_insert_eq by done.
    split; [done|]. simpl. apply chain_insert_outside; [done|]. by apply chain_insert_outside.
  - apply NoDup_cons_2; [by apply not_elem_of_cons|]. by apply NoDup_cons_2.
  - by eexists.
  - intros q. rewrite <-elem_of_dom, Em1, !dom_insert_L, !elem_of_union, !elem_of_singleton, elem_of_dom.
    rewrite (ro_dom _ _ Hok), !elem_of_cons. tauto.
  - intros q u Hu Hq. apply Hback in Hu as [[-> ->]|(_ & u0 & Hu0 & -> & _)]; [done|].
    by apply (ro_others _ _ Hok q).
  - destruct (ro_idle _ _ Hok) as (u & Hu & Hd). apply Hfor in Hu as (u' & ? & E & _). exists u'. by rewrite E.
  - destruct (ro_zombie _ _ Hok) as [|(u & Hu & Hd & Hp0)]; [by left|right].
    apply Hfor in Hu as (u' & ? & E1 & E2). exists u'. by rewrite E1, E2.
  - intros q u b Hu Hb. rewrite HL. apply Hback in Hu as [[-> ->]|(_ & u0 & Hu0 & _ & E)].
    + apply orb_true_iff. left. by apply bool_decide_true.
    + rewrite E in Hb. apply orb_true_iff. right. by apply (ro_own _ _ Hok q u0).
  - intros q u Hu. apply Hback in Hu as [[-> ->]|(_ & u0 & Hu0 & _ & ->)]; [done|].
    by apply (ro_own_nodup _ _ Hok).
  - intros q q' u v b Hu Hv Hbu Hbv.
    apply Hback in Hu as [[-> ->]|(_ & u0 & Hu0 & _ & E)], Hv as [[-> ->]|(_ & v0 & Hv0 & _ & E')]; [done|..].
    + exfalso. rewrite E' in Hbv. pose proof (ro_own _ _ Hok _ _ _ Hv0 Hbv) as Hl. by rewrite Hfr in Hl.
    + exfalso. rewrite E in Hbu. pose proof (ro_own _ _ Hok _ _ _ Hu0 Hbu) as Hl. by rewrite Hfr in Hl.
    + rewrite E in Hbu. rewrite E' in Hbv. by apply (ro_own_disj _ _ Hok q q' u0 v0 b).
  - exists (set_next t c). by rewrite lookup_insert_eq.
Qed.

(** [find_task] searches the whole ring. *)
Lemma find_task_cases s l wanted :
  ring_ok s l →
  (find_task wanted s = Ok 0 ∧ ∀ p t, tasks (ts s) !! p = Some t → id t ≠ wanted) ∨
  (∃ p t, find_task wanted s = Ok p ∧ tasks (ts s) !! p = Some t ∧ id t = wanted).
Proof.
  intros Hok.
  assert (∀ l0 fuel a, chain (tasks (ts s)) a (a :: l0) (current_ s) → current_ s ∉ l0 →
    (length l0 < fuel)%nat →
    (find_loop fuel a wanted s = Ok 0 ∧ ∀ p t, p ∈ a :: l0 → tasks (ts s) !! p = Some t → id t ≠ wanted) ∨
    (∃ p t, find_loop fuel a wanted s = Ok p ∧ tasks (ts s) !! p = Some t ∧ id t = wanted)) as Hloop.
  { induction l0 as [|x l0 IH]; intros fuel a Hch Hn Hf;
      (destruct fuel as [|fuel]; [simpl in Hf; lia|]); simpl in Hch;
      destruct Hch as (_ & u & Hu & Hch); cbn [find_loop]; rewrite (deref_Some _ _ _ Hu); res_step;
      destruct (Z.eqb_spec (id u) wanted) as [Hid|Hid]; [right; by exists a, u| |right; by exists a, u|].
    - left. rewrite Hch, Z.eqb_refl. split; [done|]. intros p t ->%list_elem_of_singleton Ht. by simplify_eq.
    - destruct Hch as (E & v & Hv & Hch). apply not_elem_of_cons in Hn as [Hne Hn].
      rewrite E. destruct (Z.eqb_spec x (current_ s)) as [|_]; [congruence|].
      destruct (IH fuel x) as [[-> Hall]|Hsome]; [split; [done|]; by exists v|done|simpl in Hf; lia| |by right].
      left. split; [done|]. intros p t [->|Hp]%elem_of_cons Ht; [by simplify_eq|by apply (Hall p)]. }
  destruct (ro_head _ _ Hok) as [rest El]. pose proof (ro_nodup _ _ Hok) as Hnd.
  pose proof (ring_size _ _ Hok) as Hsz. pose proof (ro_chain _ _ Hok) as Hch. rewrite El in *.
  apply NoDup_cons in Hnd as [Hn _].
  destruct (Hloop rest (ring_fuel s) (current_ s) Hch Hn) as [[E Hall]|?]; [unfold ring_fuel; rewrite Hsz; simpl; lia| |by right].
  left. split; [done|]. intros p t Ht. apply (Hall p t); [|done]. apply (ro_dom _ _ Hok). by eexists.
Qed.

(** What [wait4] finds: an error, or a child of the caller on the ring. *)
Lemma wait4_start_cases s l pid :
  ring_ok s l →
  wait4_start pid s = Ok (inr (- ECHILD)) ∨
  ∃ child t, wait4_start pid s = Ok (inl child) ∧ tasks (ts s) !! child = Some t ∧
    id t = u64 pid ∧ parent t = current_ s ∧ child ≠ 0.
Proof using H0.
  intros Hok. unfold wait4_start.
  destruct (find_task_cases s l (u64 pid) Hok) as [[-> _]|(p & t & -> & Ht & Hid)]; [by left|].
  res_step. destruct (Z.eqb_spec p 0) as [->|Hp]; [by left|].
  rewrite (deref_Some _ _ _ Ht). res_step.
  destruct (Z.eqb_spec (parent t) (current_ s)) as [E|E]; [|by left]. right. by exists p, t.
Qed.

(** Collecting a dead child. *)
Lemma wait4_finish_ok s l child t ursp :
  sched_ok s l → tasks (ts s) !! child = Some t → state t = Dead → parent t ≠ 0 →
  ∃ s', wait4_finish child ursp s =
      Ok (s', u32 (Z.shiftl (Z.land (exit_code t) 0xFF) 8), i64_of (id t)) ∧
    sched_ok s' (filter (λ p, p ≠ child) l) ∧ tasks (ts s') !! child = None ∧
    (∀ p u, p ≠ child → tasks (ts s) !! p = Some u →
       ∃ u', tasks (ts s') !! p = Some u' ∧ same_but_next u' u) ∧
    (∀ q, k_live (env (ts s')) q =
       negb (bool_decide (q ∈ owned child t)) && k_live (env (ts s)) q) ∧
    current_ s' = current_ s ∧ idle_task_ s' = idle_task_ s ∧ zombie_ s' = zombie_ s ∧
    user_rsp (cpu s') = ursp.
Proof using H0.
  intros Hs Ht Hd Hp. pose proof Hs as [Hok (c & Hc & Hrun)]. unfold wait4_finish.
  set (s0 := with_cpu _ s).
  assert (ring_ok s0 l) as Hok0 by (by destruct (with_cpu_ok s l (cpu s0) Hs) as [? _]).
  rewrite (deref_Some _ _ t) by done. res_step.
  assert (child ≠ current_ s) as Hne by (intros ->; congruence).
  destruct (remove_spec s0 l child t Hok0 Ht Hne Hd) as (s' & E & Hr & Hn & Hk & HL & Hc' & Hi' & Hz' & Hcpu & _).
  apply bind_Ok in E as (s1 & -> & E). res_step. rewrite E. res_step.
  assert (child ≠ zombie_ s0 ∨ zombie_ s0 = 0) as Hzn.
  { destruct (ro_zombie _ _ Hok0) as [|(v & Hv & _ & Hvp)]; [by right|left].
    intros Ez. rewrite <-Ez in Hv. simpl in Hv. by simplify_eq. }
  exists s'. split_and!; try done.
  - split.
    + replace s' with (with_zombie (zombie_ s0) s') by (rewrite <-Hz'; by destruct s').
      apply Hr. destruct Hzn as [|Hz0]; [right; by split|by left].
    + rewrite Hc'. destruct (Hk (current_ s) c) as (c' & Hc2 & F%same_but_next_fields); [congruence|done|].
      exists c'. split; [done|]. by destruct F as [-> _].
  - by rewrite Hcpu.
Qed.

Lemma update_env t f s s' : update t f s = Ok s' → env (ts s') = env (ts s).
Proof using Type. unfold update. intros E. apply bind_Ok in E as (tcb & _ & E). by simplify_eq. Qed.

(** Spawning only uses the heap. *)
Lemma spawn_space tramp def nm entry arg size cr3 s s' t c :
  spawn tramp def nm entry arg size cr3 s = Ok (s', t) → k_space (env (ts s')) c = k_space (env (ts s)) c.
Proof using H0.
  unfold spawn. intros E. apply bind_Ok in E as ([x t1] & E1 & E). apply (create_space _ _ _ _ _ _ _ _ _ _ c) in E1 as <-.
  case_match; [by simplify_eq|]. apply bind_Ok in E as (cur & _ & E).
  apply bind_Ok in E as (s1 & E1 & E). apply bind_Ok in E as (s2 & E2 & E). simplify_eq.
  by rewrite (update_env _ _ _ _ E2), (update_env _ _ _ _ E1).
Qed.

(** The address spaces after a fork: those before, and the child's, which is the parent's
    over again. *)
Definition space_copied (k k' : K) (src child : Z) : Prop :=
  k_space k child = None ∧ is_Some (k_space k' child) ∧
  (src ≠ child → ∀ v, k_space k src = Some v → k_space k' child = Some v) ∧
  ∀ e, e ≠ child → k_space k' e = k_space k e.

Lemma sys_fork_ok tramp def fentry f s l :
  sched_ok s l →
  let r := sys_fork tramp def fentry f s in
  r = Halt ∨
  (∃ s', r = Ok (s', - ENOMEM) ∧ sched_ok s' l ∧ tasks (ts s') = tasks (ts s) ∧ current_ s' = current_ s ∧
     zombie_ s' = zombie_ s ∧ idle_task_ s' = idle_task_ s ∧
     (∀ q, k_live (env (ts s')) q = k_live (env (ts s)) q) ∧
     ∀ e, k_space (env (ts s')) e = k_space (env (ts s)) e) ∨
  (∃ s' t tcb ctcb, r = Ok (s', i64_of (id tcb)) ∧ sched_ok s' (current_ s :: t :: tail l) ∧
     tasks (ts s) !! t = None ∧ tasks (ts s) !! current_ s = Some ctcb ∧
     tasks (ts s') !! t = Some tcb ∧ parent tcb = current_ s ∧ state tcb = Ready ∧
     fds tcb = fds ctcb ∧ brk_start tcb = brk_start ctcb ∧ brk_cur tcb = brk_cur ctcb ∧
     mmap_next tcb = mmap_next ctcb ∧ fs_base tcb = fs_base ctcb ∧ id tcb = next_id (ts s) ∧
     tasks (ts s') !! current_ s = Some (set_next t ctcb) ∧
     (∀ p, p ≠ t → p ≠ current_ s → tasks (ts s') !! p = tasks (ts s) !! p) ∧
     current_ s' = current_ s ∧ zombie_ s' = zombie_ s ∧ idle_task_ s' = idle_task_ s ∧
     space_copied (env (ts s)) (env (ts s')) (task_cr3 ctcb) (task_cr3 tcb)).
Proof using H0.
  intros Hs r. pose proof Hs as [Hok (c & Hc & Hrun)]. unfold r, sys_fork.
  rewrite (deref_Some _ _ _ Hc). res_step.
  destruct (k_create_spec (env (ts s))) as [(k1 & cr3 & Ec & L1)|Ec]; rewrite Ec; [|by left]. res_step.
  destruct (k_clone_spec cr3 (task_cr3 c) k1) as [(k2 & Ek & L2)|Ek]; rewrite Ek; [|by left]. res_step.
  destruct (kmalloc_total SIZEOF_FORK_FRAME k2) as [[[k3 sv] E3]|E3]; rewrite E3; [|by left]. res_step.
  assert (∀ e, k_space k3 e = k_space k2 e) as Hsp3 by (intros e; by eapply kmalloc_space).
  apply kmalloc_spec in E3 as [[-> L3]|(Hsv & _ & _ & Hn3 & L3)]; simpl.
  { right; left. destruct (k_destroy_spec cr3 k3) as (k4 & Ed & L4). rewrite Ed. res_step.
    destruct (created_destroyed _ _ _ _ _ Ec Ek) as [_ Hsp]. pose proof (Hsp k3 k4 Hsp3 Ed) as Hspace.
    assert (∀ q, k_live k4 q = k_live (env (ts s)) q) as HL by (intros q; by rewrite L4, L3, L2, L1).
    eexists. split; [done|]. split_and!; try done.
    destruct (with_env_ok s l k4 (km (ts s)) Hs) as [HR _].
    { intros p t b Hp Hb. rewrite HL. by apply (ro_own _ _ Hok p t). }
    split; [|by exists c]. destruct HR. by split. }
  destruct (Z.eqb_spec sv 0) as [|_]; [lia|].
  set (m := store_words 9 0 sv (fork_word f) (km (ts s))).
  set (s1 := with_ts (with_km m (with_env k3 (ts s))) s).
  assert (∀ q, k_live k3 q = (q =? sv) || k_live (env (ts s)) q) as HL3 by (intros q; by rewrite L3, L2, L1).
  assert (sched_ok s1 l) as Hs1.
  { apply with_env_ok; [done|]. intros p t b Hp Hb. rewrite HL3.
    rewrite (ro_own _ _ Hok p t b) by done. apply orb_true_r. }
  destruct (spawn_ok tramp def (Some fork_name) fentry sv (16 * 1024) cr3 s1 l Hs1)
    as [->|[(s2 & Es & Hs2 & Ht2 & Hc2 & Hz2 & Hi2 & HL2)|(s2 & t & tcb & ctcb & Es & Hs2 & Hfresh)]];
    [by eexists|by left|rewrite Es|rewrite Es].
  all: assert (∀ e, k_space (env (ts s2)) e = k_space k2 e) as Hsp2 by
    (intros e; rewrite (spawn_space _ _ _ _ _ _ _ _ _ _ e Es); apply Hsp3).
  - right; left. res_step. change (0 =? 0) with true. cbv iota.
    destruct (kfree_spec sv (env (ts s2))) as (k4 & Ef & L4).
    { rewrite HL2. simpl. rewrite HL3. by rewrite Z.eqb_refl. }
    rewrite Ef.
    res_step. destruct (k_destroy_spec cr3 k4) as (k5 & Ed & L5). rewrite Ed. res_step.
    destruct (created_destroyed _ _ _ _ _ Ec Ek) as [_ Hsp].
    assert (∀ e, k_space k5 e = k_space (env (ts s)) e) as Hspace.
    { apply (Hsp k4 k5); [|done]. intros e. by rewrite (kfree_space _ _ _ _ Ef). }
    assert (∀ q, k_live k5 q = k_live (env (ts s)) q) as HL.
    { intros q. rewrite L5, L4, HL2. simpl. rewrite HL3. destruct (Z.eqb_spec q sv) as [->|]; [|done].
      simpl. symmetry. by rewrite <-L1, <-L2. }
    eexists. split; [done|]. split; [|done].
    destruct (with_env_ok s2 l k5 (km (ts s2)) Hs2) as [HR HC].
    { intros p u b Hp Hb. rewrite HL. apply (ro_own _ _ Hok p u); [|done]. by rewrite Ht2 in Hp. }
    split; [|done]. destruct HR. by split.
  - right; right. destruct Hfresh as (Ht0 & Htn & Hcc & Etasks & Hpar & Hst & Hid & Hc2 & Hz2 & Hi2 & Hcr3 & _).
    simpl in Htn, Hcc. rewrite Hc in Hcc. injection Hcc as <-.
    res_step. destruct (Z.eqb_spec t 0) as [|_]; [done|].
    assert (t ≠ current_ s) as Htc by (intros ->; congruence).
    assert (tasks (ts s2) !! t = Some tcb) as Htt.
    { rewrite Etasks. simpl. rewrite lookup_insert_ne by done. apply lookup_insert_eq. }
    destruct (update_ok s2 _ t tcb (inherit (current_ s) c) Hs2 Htt) as (s3 & Eu & Hs3 & Hc3 & Ez3 & Ei3 & E3).
    { done. } { done. } { done. }
    { intros Hz. exfalso. destruct (ro_zombie _ _ Hok) as [Ez|(v & Hv & _ & _)].
      - rewrite Hz2 in Hz. simpl in Hz. congruence.
      - rewrite Hz2 in Hz. simpl in Hz. rewrite <-Hz in Hv. congruence. }
    rewrite Eu. pose proof (update_env _ _ _ _ Eu) as Eenv.
    assert (space_copied (env (ts s)) (env (ts s3)) (task_cr3 c) cr3) as Hspace.
    { assert (∀ e, k_space (env (ts s3)) e = k_space k2 e) as Hsp' by (intros e; by rewrite Eenv).
      destruct (k_create_space _ _ _ Ec) as (N & Sk & C). destruct (k_clone_space _ _ _ _ Ek) as (L & S2 & V).
      split_and!; [done|rewrite Hsp'; auto|intros Hne v Hv; rewrite Hsp'; apply V; by rewrite C|].
      intros e He. rewrite Hsp', L, C; done. }
    res_step. rewrite (deref_Some t s3 (inherit (current_ s) c tcb)) by (rewrite E3; apply lookup_insert_eq).
    res_step. exists s3, t, (inherit (current_ s) c tcb), c. split; [done|]. split; [done|].
    split_and!; try done; rewrite ?E3, ?Etasks; simpl.
    + apply lookup_insert_eq.
    + rewrite lookup_insert_ne by done. apply lookup_insert_eq.
    + intros p Hp1 Hp2. by rewrite !lookup_insert_ne by done.
    + by rewrite Hc3, Hc2.
    + by rewrite Ez3, Hz2.
    + by rewrite Ei3, Hi2.
    + change (space_copied (env (ts s)) (env (ts s3)) (task_cr3 c) (task_cr3 tcb)). by rewrite Hcr3.
Qed.

End spec.
