(* ===== verification/SchedProps.v ===== *)
(** * Properties of the scheduler

    Stated over arbitrary sequences of the operations tasks perform. *)

From S2P Require Import Prelude Mem Task BumpEnv Sched Fork Ring SchedSpec.

(** ** Operations *)

Inductive op :=
  | OYield
  | OTick
  | OMaybe
  | OExit
  | OSpawn (nm : option (list Z)) (entry arg size cr3 : Z)
  | OFork (f : ForkFrame)
  | OWait (pid ursp : Z).

Definition op_ok (o : op) : Prop :=
  match o with OSpawn nm _ _ _ _ => name_ok nm | _ => True end.

Section props.
Context {K : Type} `{KernelEnvLaws K}.
Context (trampoline : Z) (default_state : list Z) (fork_entry local ra : Z).
Implicit Type s : Sched K.

(** One operation of the current task (or the timer).  The idle task never
    exits; a waiting task whose child still runs yields and tries again. *)
Definition run_op (o : op) s : Res (Sched K) :=
  match o with
  | OYield => yield ra s
  | OTick => Ok (tick s)
  | OMaybe => maybe_reschedule ra s
  | OExit => if current_ s =? idle_task_ s then Ok s else exit_current ra s
  | OSpawn nm entry arg size cr3 =>
      '(s, _) ← spawn trampoline default_state nm entry arg size cr3 s; Ok s
  | OFork f => '(s, _) ← sys_fork trampoline default_state fork_entry f s; Ok s
  | OWait pid ursp =>
      r ← wait4_start pid s;
      match r with
      | inr _ => Ok s
      | inl child =>
          dead ← wait4_poll child s;
          if (dead : bool) then '(s, _, _) ← wait4_finish child ursp s; Ok s
          else yield_blocking ra local s
      end
  end.

Fixpoint run_ops (os : list op) s : Res (Sched K) :=
  match os with
  | [] => Ok s
  | o :: os => s ← run_op o s; run_ops os s
  end.

(** What one operation may do to a task. *)
Definition kept s s' (p : Z) (t : Task) : Prop :=
  ∃ t', tasks (ts s') !! p = Some t' ∧ parent t' = parent t ∧ id t' = id t ∧
    (state t = Dead → state t' = Dead).

Definition step_ok (o : op) s s' : Prop :=
  (∀ p t, tasks (ts s) !! p = Some t →
     p = zombie_ s ∨ (∃ pid ursp, o = OWait pid ursp ∧ parent t = current_ s ∧ u64 pid = id t) ∨
     kept s s' p t) ∧
  (zombie_ s' = zombie_ s ∨ zombie_ s' = 0 ∨ zombie_ s' = current_ s).

Lemma kept_core s s' p t t' :
  tasks (ts s') !! p = Some t' → same_core t' t → (state t = Dead → state t' = Dead) → kept s s' p t.
Proof. intros Ht' (? & ? & _)%same_core_fields Hd. by exists t'. Qed.

Lemma kept_next s s' p t t' : tasks (ts s') !! p = Some t' → same_but_next t' t → kept s s' p t.
Proof. intros Ht' (E & ? & ? & _)%same_but_next_fields. exists t'. split_and!; try done. by rewrite E. Qed.

Lemma kept_same s s' p t : tasks (ts s') !! p = tasks (ts s) !! p → tasks (ts s) !! p = Some t → kept s s' p t.
Proof. intros E Ht. exists t. by rewrite E. Qed.

Lemma reaped_zombie s p : p ≠ 0 → p = reaped s → p = zombie_ s.
Proof. unfold reaped. intros Hp. case_match; congruence. Qed.

Lemma schedule_step s l t :
  ring_ok s l → tasks (ts s) !! current_ s = Some t →
  (state t = Running ∨ current_ s ≠ idle_task_ s) →
  ∃ s' l', schedule ra s = Ok s' ∧ sched_ok s' l' ∧ idle_task_ s' = idle_task_ s ∧
    (zombie_ s' = zombie_ s ∨ zombie_ s' = 0) ∧
    ∀ p u, tasks (ts s) !! p = Some u → p = zombie_ s ∨ kept s s' p u.
Proof using H0.
  intros Hok Ht Hcur.
  destruct (schedule_full ra s l t Hok Ht Hcur) as (s' & l1 & l2 & E & _ & Hok' & _ & Hsw & Hi & Hz & _).
  exists s', (l2 ++ l1). split_and!; try done.
  { rewrite Hz. case_match; [by left|by right]. }
  intros p u Hu. destruct (decide (p = reaped s)) as [Hr|Hr].
  - left. by apply reaped_zombie; [eapply ring_nonnull|].
  - right. destruct (Hsw p u Hr Hu) as (u' & Hu' & Hco & Hst). eapply kept_core; [done..|].
    intros Hd. rewrite Hst. destruct (Z.eqb_spec p (pick s l)) as [Ep|_].
    + exfalso. destruct (pick_spec s l t Hok Ht Hcur) as [[Epk Hrun]|[_ (v & Hv & Hr')]]; rewrite Ep in Hu.
      * rewrite Epk in Hu. congruence.
      * congruence.
    + rewrite Hd. by rewrite andb_false_r.
Qed.

Lemma run_op_ok o s l :
  sched_ok s l → op_ok o →
  run_op o s = Halt ∨ ∃ s' l', run_op o s = Ok s' ∧ sched_ok s' l' ∧ step_ok o s s'.
Proof using H0.
  intros Hs Ho. pose proof Hs as [Hok (c & Hc & Hrun)].
  assert (sched_ok s l ∧ step_ok o s s) as [_ Hrefl].
  { split; [done|]. split; [|by left]. intros p t Ht. right; right. by apply kept_same. }
  destruct o as [| | | |nm entry arg size cr3|f|pid ursp]; simpl.
  - right. destruct (schedule_step s l c) as (s' & l' & E & Hs' & _ & Hz & Hk); auto.
    exists s', l'. split_and!; [done..|]. split; [|tauto]. intros p t Ht. destruct (Hk p t Ht); auto.
  - right. exists (tick s), l. split_and!; [done|by apply tick_ok|].
    assert (ts (tick s) = ts s ∧ zombie_ (tick s) = zombie_ s) as [E Ez].
    { unfold tick. by repeat case_match. }
    split; [|rewrite Ez; by left]. intros p t Ht. right; right. apply kept_same; [by rewrite E|done].
  - right. unfold maybe_reschedule. case_match; [by exists s, l|].
    destruct (schedule_step s l c) as (s' & l' & E & Hs' & _ & Hz & Hk); auto.
    exists s', l'. split_and!; [done..|]. split; [|tauto]. intros p t Ht. destruct (Hk p t Ht); auto.
  - right. destruct (Z.eqb_spec (current_ s) (idle_task_ s)) as [|Hni]; [by exists s, l|].
    destruct (exit_prepare ra s l c Hs Hc Hni) as (s2 & E & Hok2 & Et & Ec & Ei & Ez).
    destruct (schedule_step s2 l (set_state Dead c)) as (s' & l' & E' & Hs' & _ & Hz & Hk);
      [done|by rewrite Et, Ec, lookup_insert_eq|right; by rewrite Ec, Ei|].
    exists s', l'. rewrite E. split_and!; [done..|]. split; [|rewrite Ez in Hz; case_match; tauto].
    intros p u Hu. destruct (decide (p = current_ s)) as [->|Hne].
    + right; right. rewrite Hc in Hu. injection Hu as <-.
      destruct (exit_current_ok ra s l c Hs Hc Hni) as (s3 & l3 & E3 & _ & _ & _ & _ & t' & Ht' & Hco & Hd).
      assert (s3 = s') as -> by congruence. by eapply kept_core.
    + destruct (Hk p u) as [Hp|Hp]; [by rewrite Et, lookup_insert_ne| |by right; right].
      rewrite Ez in Hp. case_match; [done|by left].
  - destruct (spawn_ok trampoline default_state nm entry arg size cr3 s l Hs Ho)
      as [->|[(s' & -> & Hs' & Et & Ec & Ez & _)|(s' & t & tcb & ctcb & -> & Hs' & Ht0 & Hn & Hcc & Et & _ & _ & _ & Ec & Ez & _)]];
      [by left|right; exists s', l|right; exists s', (current_ s :: t :: tail l)]; res_step;
      (split_and!; [done..|]); (split; [|left; done]); intros p u Hu; right; right.
    + apply kept_same; [by rewrite Et|done].
    + destruct (decide (p = current_ s)) as [->|].
      * eapply kept_next; [by rewrite Et, lookup_insert_eq|]. simplify_eq. apply set_next_same.
      * apply kept_same; [|done]. rewrite Et, !lookup_insert_ne; [done|congruence|done].
  - destruct (sys_fork_ok trampoline default_state fork_entry f s l Hs)
      as [->|[(s' & -> & Hs' & Et & Ec & Ez & _)|(s' & t & tcb & ctcb & -> & Hs' & Hn & Hcc & Ht' & _ & _ & _ & _ & _ & _ & _ & _ & Ecc & Eo & Ec & Ez & _)]];
      [by left|right; exists s', l|right; exists s', (current_ s :: t :: tail l)]; res_step;
      (split_and!; [done..|]); (split; [|left; done]); intros p u Hu; right; right.
    + apply kept_same; [by rewrite Et|done].
    + destruct (decide (p = current_ s)) as [->|].
      * eapply kept_next; [done|]. simplify_eq. apply set_next_same.
      * apply kept_same; [|done]. apply Eo; [congruence|done].
  - destruct (wait4_start_cases s l pid Hok) as [->|(ch & t & -> & Ht & Hid & Hp & _)]; res_step.
    { right. by exists s, l. }
    unfold wait4_poll. rewrite (deref_Some _ _ _ Ht). res_step. right.
    destruct (decide (state t = Dead)) as [Hd|Hd].
    + rewrite bool_decide_true by done. assert (parent t ≠ 0) as Hp0.
      { rewrite Hp. by eapply ring_nonnull. }
      destruct (wait4_finish_ok s l ch t ursp Hs Ht Hd Hp0) as (s' & -> & Hs' & _ & Hk & _ & _ & _ & Ez & _).
      res_step. exists s', (filter (λ p, p ≠ ch) l). split_and!; [done..|]. split; [|by left].
      intros p u Hu. destruct (decide (p = ch)) as [->|Hne].
      * right; left. exists pid, ursp. by simplify_eq.
      * right; right. destruct (Hk p u Hne Hu) as (u' & ? & ?). by eapply kept_next.
    + rewrite bool_decide_false by done. unfold yield_blocking, yield.
      set (s0 := with_cpu _ s). pose proof (with_cpu_ok s l (cpu s0) Hs) as [Hok0 _].
      destruct (schedule_step s0 l c) as (s' & l' & E & Hs' & _ & Hz & Hk); auto.
      exists s', l'. split_and!; [done..|]. split; [|simpl in Hz; tauto].
      intros p u Hu. destruct (Hk p u Hu); auto.
Qed.

(** ** Initialisation *)

Lemma sched_init_ok idle_entry s s0 :
  tasks (ts s) = ∅ → zombie_ s = 0 → sched_init trampoline idle_entry default_state s = Ok s0 →
  ∃ l, sched_ok s0 l.
Proof using H0.
  intros Hemp Hz. unfold sched_init. intros E.
  apply bind_Ok in E as ([k1 boot] & E1 & E). destruct (Z.eqb_spec boot 0) as [|Hboot]; [done|].
  apply bind_Ok in E as ([k2 raw] & E2 & E). destruct (Z.eqb_spec raw 0) as [|Hr]; [done|].
  apply kmalloc_spec in E1 as [[? _]|(_ & _ & _ & Hn1 & L1)]; [done|].
  apply kmalloc_spec in E2 as [[? _]|(_ & _ & _ & Hn2 & L2)]; [done|].
  cbv zeta in E. set (btcb := MkTask 0 _ _ _ _ _ _ _ _ _ _ _ _ _ _ _ _ _ _ _) in E.
  match type of E with (create _ _ _ _ _ _ _ ?x ≫= _) = _ => set (x0 := x) in E end.
  assert (name_ok (Some [105; 100; 108; 101; 0])) as Hnm by (by eexists).
  destruct (create_cases trampoline default_state (Some [105; 100; 108; 101; 0]) idle_entry 0 4096 0 x0 Hnm)
    as [Ec|[(k & Ec & _)|(k & m & t & st & rw & nm' & Ec & Ht & _ & _ & _ & _ & _ & _ & Hnd & Hfr & HL)]];
    rewrite Ec in E; clear Ec.
  { done. }
  { rewrite bind_ret in E. cbv beta iota in E. apply bind_Ok in E as (s1 & E1 & E).
    unfold update, deref in E1. simpl in E1. rewrite lookup_insert_eq in E1. simpl in E1.
    injection E1 as <-. unfold update, deref in E. simpl in E.
    rewrite !lookup_insert_ne, Hemp, lookup_empty in E by done. done. }
  set (tcb := new_task _ _ _ _ _ _ _ _ _) in *. rewrite bind_ret in E. cbv beta iota in E.
  assert (t ≠ boot) as Htb.
  { intros ->. specialize (Hfr boot (list_elem_of_here _ _)). unfold x0 in Hfr. simpl in Hfr.
    rewrite L2, L1, Z.eqb_refl, orb_true_r in Hfr. done. }
  apply bind_Ok in E as (s1 & E1 & E).
  rewrite (update_Some boot _ _ btcb) in E1 by (simpl; by rewrite lookup_insert_ne, lookup_insert_eq).
  injection E1 as <-.
  rewrite (update_Some t _ _ tcb) in E by (simpl; by rewrite lookup_insert_ne, lookup_insert_eq).
  injection E as <-. exists [boot; t].
  assert (owned boot btcb = [boot; raw]) as Hob.
  { unfold owned, btcb. simpl. rewrite filter_cons, decide_False by auto. by rewrite filter_cons, decide_True. }
  assert (∀ b, b ∈ owned boot btcb → k_live k2 b = true) as Hlb.
  { intros b. rewrite Hob, !elem_of_cons. intros [->|[->|?%not_elem_of_nil]]; [| |done].
    - rewrite L2, L1, Z.eqb_refl. apply orb_true_r.
    - by rewrite L2, Z.eqb_refl. }
  simpl. set (m2 := <[t := _]> _).
  assert (m2 !! boot = Some (set_next t btcb)) as Mb.
  { unfold m2. by rewrite lookup_insert_ne, lookup_insert_eq. }
  assert (m2 !! t = Some (set_next boot tcb)) as Mt by (unfold m2; by rewrite lookup_insert_eq).
  assert (∀ p u, m2 !! p = Some u → (p = boot ∧ u = set_next t btcb) ∨ (p = t ∧ u = set_next boot tcb)) as Mback.
  { intros p u. destruct (decide (p = boot)) as [->|]; [rewrite Mb; intros [= <-]; by left|].
    destruct (decide (p = t)) as [->|]; [rewrite Mt; intros [= <-]; by right|].
    unfold m2. rewrite lookup_insert_ne, lookup_insert_ne, lookup_insert_ne, lookup_insert_ne by done.
    by rewrite Hemp, lookup_empty. }
  assert (∀ b, b ∈ owned t tcb → b ∈ owned boot btcb → False) as Hdis.
  { intros b Hbt Hbb. specialize (Hfr b Hbt). unfold x0 in Hfr. simpl in Hfr. by rewrite Hlb in Hfr. }
  split; [split|]; simpl; fold m2.
  - split; [done|]. exists (set_next t btcb). split; [done|]. split; [done|]. exists (set_next boot tcb). done.
  - apply NoDup_cons_2; [by intros ?%list_elem_of_singleton|apply NoDup_singleton].
  - by eexists.
  - intros p. rewrite !elem_of_cons. split.
    + intros [u Hu]. apply Mback in Hu as [[-> _]|[-> _]]; auto.
    + intros [->|[->|?%not_elem_of_nil]]; [by eexists..|done].
  - intros p u Hu Hp. apply Mback in Hu as [[-> ->]|[-> ->]]; done.
  - by exists (set_next boot tcb).
  - by left.
  - intros p u b Hu Hb. rewrite HL. unfold x0. simpl. apply Mback in Hu as [[-> ->]|[-> ->]].
    + apply orb_true_iff. right. by apply Hlb.
    + apply orb_true_iff. left. by apply bool_decide_true.
  - intros p u Hu. apply Mback in Hu as [[-> ->]|[-> ->]]; [|done].
    change (owned boot (set_next t btcb)) with (owned boot btcb). rewrite Hob.
    apply NoDup_cons_2; [|apply NoDup_singleton]. intros ->%list_elem_of_singleton.
    rewrite L1, Z.eqb_refl in Hn2. done.
  - intros p q u v b Hu Hv Hbu Hbv.
    apply Mback in Hu as [[-> ->]|[-> ->]], Hv as [[-> ->]|[-> ->]]; try done; exfalso;
      [by apply (Hdis b)|by apply (Hdis b)].
  - by exists (set_next t btcb).
Qed.

(** Sequences of operations, by [run_op_ok]. *)
Lemma run_ops_total os s l :
  sched_ok s l → Forall op_ok os →
  run_ops os s = Halt ∨ ∃ s' l', run_ops os s = Ok s' ∧ sched_ok s' l'.
Proof using H0.
  intros Hl Hos. revert s l Hl. induction Hos as [|o os Ho _ IH]; intros s1 l Hl; simpl.
  { right. by exists s1, l. }
  destruct (run_op_ok o s1 l Hl Ho) as [->|(s2 & l2 & -> & Hl2 & _)]; [by left|].
  res_step. by apply (IH s2 l2).
Qed.

(** ** Properties *)

(** C10. Whatever sequence of yields, ticks, preemptions, exits, spawns, forks and
    waits tasks perform after initialisation, the scheduler never follows a
    dangling link, never frees a block that is not live, and every walk of the
    ring ends; the ring keeps holding exactly the live tasks, one of them
    running.  It stops only if the machine is out of memory. *)
Theorem scheduler_safe idle_entry s s0 os :
  tasks (ts s) = ∅ → zombie_ s = 0 →
  sched_init trampoline idle_entry default_state s = Ok s0 → Forall op_ok os →
  match run_ops os s0 with
  | Ok s' => ∃ l, sched_ok s' l
  | Halt => True
  | _ => False
  end.
Proof using H0.
  intros Hemp Hz Hi Hos. destruct (sched_init_ok idle_entry s s0 Hemp Hz Hi) as [l Hl].
  by destruct (run_ops_total os s0 l Hl Hos) as [->|(s' & l' & -> & ?)]; [|exists l'].
Qed.

(** C11. [schedule] is round robin: it runs the first Ready task after the current
    one in ring order, or keeps the current one when no other is ready; it frees
    exactly the pending zombie, starts a full timeslice, changes the states of no
    other task, and always returns. *)
Theorem schedule_round_robin s l rest :
  sched_ok s l → l = current_ s :: rest →
  ∃ s' l', schedule ra s = Ok s' ∧ sched_ok s' l' ∧
    current_ s' = default (current_ s) (head (filter (λ p, ready_in s p) rest)) ∧
    (∀ p, p ∈ l' ↔ p ∈ l ∧ p ≠ zombie_ s) ∧
    ticks_left_ s' = TIMESLICE_TICKS ∧ need_resched_ s' = false ∧ zombie_ s' = 0 ∧
    (∀ p t, p ≠ zombie_ s → p ≠ current_ s → p ≠ current_ s' → tasks (ts s) !! p = Some t →
       ∃ t', tasks (ts s') !! p = Some t' ∧ state t' = state t).
Proof using H0.
  intros [Hok (t & Ht & Hrun)] El.
  destruct (schedule_full ra s l t Hok Ht (or_introl Hrun))
    as (s' & l1 & l2 & E & Hfil & Hs' & Hc' & Hsw & Hi & Hz & Htk & Hnr & _).
  assert (zombie_ s ≠ current_ s) as Hzc.
  { intros Ez. destruct (ro_zombie _ _ Hok) as [Ez0|(v & Hv & Hd & _)].
    - rewrite Ez0 in Ez. rewrite <-Ez in Ht. by apply (ring_nonnull _ _ _ _ Hok Ht).
    - rewrite Ez, Ht in Hv. congruence. }
  assert (reaped s = zombie_ s) as Hr by (unfold reaped; destruct (Z.eqb_spec (zombie_ s) (current_ s)); done).
  rewrite Hr in *. exists s', (l2 ++ l1). split_and!; try done.
  - rewrite Hc'. unfold pick. rewrite El, Ht. simpl. destruct (head _) eqn:Eh; [done|].
    by rewrite decide_True.
  - intros p. assert (p ∈ l1 ++ l2 ↔ p ∈ l ∧ p ≠ zombie_ s) as Hin.
    { rewrite <-Hfil, list_elem_of_filter. tauto. }
    rewrite elem_of_app in Hin |- *. tauto.
  - rewrite Hz. by rewrite (proj2 (Z.eqb_neq _ _) Hzc).
  - intros p u Hpz Hpc Hpn Hu. destruct (Hsw p u ltac:(by rewrite Hr) Hu) as (u' & Hu' & _ & Hst). exists u'.
    split; [done|]. rewrite Hst. rewrite <-Hc', (proj2 (Z.eqb_neq _ _) Hpn), (proj2 (Z.eqb_neq _ _) Hpc). done.
Qed.

(** The tasks before [p] on the ring, counted from the current one. *)
Definition ahead (l : list Z) (p : Z) (n : nat) : Prop :=
  ∃ l1 l2, l = l1 ++ p :: l2 ∧ (length l1 ≤ n)%nat.

Lemma schedule_advances s l p t n :
  sched_ok s l → tasks (ts s) !! p = Some t → state t = Ready → ahead l p (S n) →
  ∃ s' l', schedule ra s = Ok s' ∧ sched_ok s' l' ∧
    (current_ s' = p ∨
     (∃ t', tasks (ts s') !! p = Some t' ∧ state t' = Ready) ∧ ahead l' p n).
Proof using H0.
  intros [Hok (c & Hc & Hrun)] Hp Hst (a & b & El & Hlen).
  destruct (schedule_full ra s l c Hok Hc (or_introl Hrun))
    as (s' & l1 & l2 & E & Hfil & Hs' & Hc' & Hsw & Hi & Hz & Htk & Hnr & _).
  exists s', (l2 ++ l1). split; [done|]. split; [done|].
  destruct (decide (pick s l = p)) as [|Hpp]; [left; congruence|right].
  assert (p ≠ current_ s) as Hpc by congruence.
  assert (p ≠ reaped s) as Hpr.
  { intros Er. pose proof (ring_nonnull _ _ _ _ Hok Hp) as Hnn.
    pose proof (reaped_zombie s p Hnn Er) as Ez.
    destruct (ro_zombie _ _ Hok) as [|(v & Hv & Hd & _)]; [congruence|]. rewrite <-Ez in Hv. congruence. }
  split.
  { destruct (Hsw p t Hpr Hp) as (t' & Ht' & _ & Est). exists t'. split; [done|].
    rewrite Est, (proj2 (Z.eqb_neq _ _) (not_eq_sym Hpp)), (proj2 (Z.eqb_neq _ _) Hpc). done. }
  (* the ring after the switch: the picked task, then up to [p], then the rest *)
  destruct (ro_head _ _ Hok) as [rest Erest].
  destruct a as [|x a]; [simpl in El; rewrite El in Erest; congruence|].
  assert (x = current_ s) as -> by (rewrite El in Erest; simpl in Erest; congruence).
  assert (pick s l ∈ a) as Hpa.
  { unfold pick. rewrite El. simpl tail. rewrite filter_app, filter_cons.
    rewrite (decide_True (P := ready_in s p)) by (unfold ready_in; rewrite Hp; by apply bool_decide_pack).
    destruct (filter (λ q, ready_in s q) a) as [|y ys] eqn:Ef; simpl.
    - exfalso. apply Hpp. unfold pick. rewrite El. simpl tail. rewrite filter_app, filter_cons, Ef.
      rewrite (decide_True (P := ready_in s p)) by (unfold ready_in; rewrite Hp; by apply bool_decide_pack).
      done.
    - assert (y ∈ filter (λ q, ready_in s q) a) as [_ ?]%list_elem_of_filter; [|done].
      rewrite Ef. apply list_elem_of_here. }
  pose proof (ro_nodup _ _ Hok) as Hnd. rewrite El in Hnd, Hfil.
  rewrite filter_app, (filter_cons _ p), decide_True in Hfil by done.
  set (F := filter (λ q, q ≠ reaped s)) in *.
  assert (NoDup (F (current_ s :: a) ++ p :: F b)) as HndF.
  { pose proof (NoDup_filter (λ q, q ≠ reaped s) _ Hnd) as H1.
    rewrite filter_app, (filter_cons _ p), decide_True in H1 by done. done. }
  assert (current_ s ≠ reaped s) as Hcr.
  { unfold reaped. destruct (Z.eqb_spec (zombie_ s) (current_ s)) as [E0|E0]; [|congruence].
    by apply (ring_nonnull _ _ _ _ Hok Hc). }
  assert (pick s l ≠ current_ s ∧ pick s l ≠ reaped s) as [Hnc Hnr'].
  { destruct (pick_spec s l c Hok Hc (or_introl Hrun)) as [[Epk _]|[? (v & Hv & Hrd)]].
    - rewrite Epk in Hpa. apply NoDup_app in Hnd as [Hnd _]. by apply NoDup_cons in Hnd as [? _].
    - split; [done|]. intros Er. pose proof (reaped_zombie s _ (ring_nonnull _ _ _ _ Hok Hv) Er) as Ez.
      rewrite Ez in Hv. destruct (ro_zombie _ _ Hok) as [Ez0|(y & Hy & Hd & _)]; [|congruence].
      rewrite Ez0 in Hv. by apply (ring_nonnull _ _ _ _ Hok Hv). }
  assert (F (current_ s :: a) = current_ s :: F a) as EF by (unfold F; by rewrite filter_cons, decide_True).
  assert (pick s l ∈ F a) as HpF by (by apply list_elem_of_filter).
  apply list_elem_of_split in HpF as (c1 & c2 & Ec). rewrite EF, Ec in Hfil, HndF.
  destruct Hs' as [Hok' _]. destruct (ro_head _ _ Hok') as [r' Er']. rewrite Hc' in Er'.
  pose proof (length_filter (λ q, q ≠ reaped s) a) as Hle. fold F in Hle. rewrite Ec, length_app in Hle.
  destruct l2 as [|y l2]; simpl in Er'.
  - rewrite app_nil_r in Hfil. rewrite Er' in Hfil. simpl in Hfil. congruence.
  - injection Er' as -> _.
    destruct (NoDup_split_unique (current_ s :: c1) l1 (c2 ++ p :: F b) l2 (pick s l)) as [<- <-].
    { simpl in HndF. rewrite <-app_assoc in HndF. done. }
    { simpl in Hfil. rewrite <-app_assoc in Hfil. done. }
    exists (pick s l :: c2), (F b ++ current_ s :: c1). split.
    + simpl. by rewrite <-app_assoc.
    + simpl in *. lia.
Qed.

(** Run [schedule] [n] times. *)
Fixpoint run_schedules (n : nat) s : Res (Sched K) :=
  match n with
  | O => Ok s
  | S n => s ← schedule ra s; run_schedules n s
  end.

(** C12. No starvation: a Ready task with [n] tasks ahead of it on the ring is
    running after at most [n] calls of [schedule]. *)
Theorem ready_task_runs s l p t n :
  sched_ok s l → tasks (ts s) !! p = Some t → state t = Ready → ahead l p n →
  ∃ k s', (k ≤ n)%nat ∧ run_schedules k s = Ok s' ∧ current_ s' = p.
Proof using H0.
  revert s l t. induction n as [|n IH]; intros s l t Hs Hp Hst Ha.
  - destruct Ha as (l1 & l2 & El & Hl1). destruct l1; [|simpl in Hl1; lia].
    destruct Hs as [Hok _]. destruct (ro_head _ _ Hok) as [rest Er].
    exists 0%nat, s. split_and!; [done..|]. rewrite El in Er. simpl in Er. congruence.
  - destruct (schedule_advances s l p t n Hs Hp Hst Ha) as (s' & l' & E & Hs' & [Hcur|[(t' & Ht' & Hst') Ha']]).
    + exists 1%nat, s'. split_and!; [lia| |done]. simpl. rewrite E. done.
    + destruct (IH s' l' t' Hs' Ht' Hst' Ha') as (k & s2 & Hk & E2 & Hc2).
      exists (S k), s2. split_and!; [lia| |done]. simpl. rewrite E. done.
Qed.

(** ** Exits, zombies and waiting *)

(** A dead task nobody will reap: not the pending zombie, and with no parent to
    wait for it. *)
Definition lost s (p : Z) : Prop :=
  ∃ t, tasks (ts s) !! p = Some t ∧ state t = Dead ∧ parent t = 0 ∧ zombie_ s ≠ p.

Lemma lost_step o s s' l p :
  sched_ok s l → op_ok o → run_op o s = Ok s' → lost s p → lost s' p.
Proof using H0.
  intros Hs Ho E (t & Ht & Hd & Hp & Hz). pose proof Hs as [Hok (c & Hc & Hrun)].
  destruct (run_op_ok o s l Hs Ho) as [E'|(s2 & l2 & E' & Hs2 & Hk & Hz2)]; [congruence|].
  assert (s2 = s') as -> by congruence. pose proof (ring_nonnull _ _ _ _ Hok Ht) as Hnn.
  destruct (Hk p t Ht) as [?|[(pid & ursp & _ & Hpar & _)|(t' & Ht' & Hp' & _ & Hd')]]; [congruence| |].
  - rewrite Hp in Hpar. rewrite <-Hpar in Hc. by destruct (ring_nonnull _ _ _ _ Hok Hc).
  - exists t'. split_and!; [done|by apply Hd'|congruence|].
    destruct Hz2 as [->|[->| ->]]; [done|done|]. intros E0. rewrite E0 in Hc. congruence.
Qed.

Lemma run_ops_lost os s s' l p :
  sched_ok s l → Forall op_ok os → run_ops os s = Ok s' → lost s p → lost s' p.
Proof using H0.
  intros Hs Hos. revert s l Hs. induction Hos as [|o os Ho _ IH]; intros s l Hs E Hl; simpl in E.
  - by injection E as <-.
  - destruct (run_op_ok o s l Hs Ho) as [E'|(s2 & l2 & E' & Hs2 & _)]; rewrite E' in E; [done|].
    rewrite bind_ret in E. eapply (IH s2 l2); [done|done|]. by apply (lost_step o s s2 l p).
Qed.

(** The zombie slot holds one task: when two unparented tasks exit one right
    after the other, the second overwrites the slot before the first is reaped,
    and the first task is never freed, whatever runs afterwards. *)
Theorem back_to_back_exits_leak s l t s1 t1 s2 os s3 :
  sched_ok s l → tasks (ts s) !! current_ s = Some t → parent t = 0 → current_ s ≠ idle_task_ s →
  exit_current ra s = Ok s1 →
  tasks (ts s1) !! current_ s1 = Some t1 → parent t1 = 0 → current_ s1 ≠ idle_task_ s1 →
  exit_current ra s1 = Ok s2 →
  Forall op_ok os → run_ops os s2 = Ok s3 →
  ∃ t', tasks (ts s3) !! current_ s = Some t' ∧ state t' = Dead ∧
    ∀ b, b ∈ owned (current_ s) t' → k_live (env (ts s3)) b = true.
Proof using H0.
  intros Hs Ht Hp Hni E1 Ht1 Hp1 Hni1 E2 Hos E3.
  destruct (exit_current_ok ra s l t Hs Ht Hni) as (s1' & l1 & E1' & Hs1 & Hz1 & Hc1 & _ & t' & Ht' & Hco & Hd).
  assert (s1' = s1) as -> by congruence.
  destruct (exit_prepare ra s1 l1 t1 Hs1 Ht1 Hni1) as (s1d & Esch & Hok1 & Etasks & Ecur & Eidle & Ez).
  destruct (exit_current_ok ra s1 l1 t1 Hs1 Ht1 Hni1) as (s2' & l2 & E2' & Hs2 & Hz2 & _).
  assert (s2' = s2) as -> by congruence.
  destruct (schedule_step s1d l1 (set_state Dead t1) Hok1) as (s2' & l2' & E2s & _ & _ & _ & Hk);
    [by rewrite Etasks, Ecur, lookup_insert_eq|right; by rewrite Ecur, Eidle|].
  assert (s2' = s2) as -> by congruence.
  rewrite Hp1 in Ez. simpl in Ez.
  assert (lost s2 (current_ s)) as Hl.
  { destruct (Hk (current_ s) t') as [E0|(t2 & Ht2 & Hpar2 & _ & Hd2)].
    - by rewrite Etasks, lookup_insert_ne by done.
    - congruence.
    - exists t2. split_and!; [done|by apply Hd2| |].
      + apply same_core_fields in Hco as [Hpar _]. congruence.
      + rewrite Hz2 by done. done. }
  destruct (run_ops_lost os s2 s3 l2 _ Hs2 Hos E3 Hl) as (t3 & Ht3 & Hd3 & _).
  exists t3. split_and!; [done..|]. intros b Hb.
  destruct (run_ops_total os s2 l2 Hs2 Hos) as [E|(s4 & l3 & E & [Hok3 _])]; [congruence|].
  assert (s4 = s3) as -> by congruence.
  by apply (ro_own _ _ Hok3 (current_ s) t3).
Qed.

(** C13. [wait4] on a dead child returns its pid and the Linux status word, takes the
    child off the ring, frees exactly the blocks the child owned, leaves every
    other task alone and restores the saved user stack pointer. *)
Theorem wait4_collects s l pid child ursp :
  sched_ok s l → - 2 ^ 63 ≤ pid < 2 ^ 63 →
  wait4_start pid s = Ok (inl child) → wait4_poll child s = Ok true →
  ∃ t s', tasks (ts s) !! child = Some t ∧ parent t = current_ s ∧
    wait4_finish child ursp s = Ok (s', exit_code t `mod` 256 * 256, pid) ∧
    sched_ok s' (filter (λ p, p ≠ child) l) ∧ tasks (ts s') !! child = None ∧
    (∀ p u, p ≠ child → tasks (ts s) !! p = Some u →
       ∃ u', tasks (ts s') !! p = Some u' ∧ same_but_next u' u) ∧
    (∀ q, k_live (env (ts s')) q =
       negb (bool_decide (q ∈ owned child t)) && k_live (env (ts s)) q) ∧
    user_rsp (cpu s') = ursp.
Proof using H0.
  intros Hs Hpid E Epoll. pose proof Hs as [Hok (c & Hc & Hrun)].
  destruct (wait4_start_cases s l pid Hok) as [E'|(ch & t & E' & Ht & Hid & Hp & _)]; [congruence|].
  assert (ch = child) as -> by congruence.
  unfold wait4_poll in Epoll. rewrite (deref_Some _ _ _ Ht), bind_ret in Epoll.
  injection Epoll as Hd%bool_decide_eq_true.
  assert (parent t ≠ 0) as Hp0 by (rewrite Hp; by eapply ring_nonnull).
  destruct (wait4_finish_ok s l child t ursp Hs Ht Hd Hp0) as (s' & Ef & ? & ? & ? & ? & _ & _ & _ & ?).
  exists t, s'. split_and!; try done. rewrite Ef. do 2 f_equal; [f_equal|].
  - rewrite Z.shiftl_mul_pow2 by lia. change 0xFF with (Z.ones 8). rewrite Z.land_ones by lia.
    change (2 ^ 8) with 256. apply u32_small.
    pose proof (Z.mod_pos_bound (exit_code t) 256 ltac:(lia)). unfold is_u32. lia.
  - rewrite Hid. unfold i64_of. rewrite (u64_small (u64 pid)) by apply u64_range. unfold u64.
    destruct (decide (0 ≤ pid)).
    + rewrite Z.mod_small by lia. case_cmp; lia.
    + rewrite <-(Z.mod_add pid 1 (2 ^ 64)), Z.mod_small by lia.
      destruct (Z.ltb_spec (pid + 1 * 2 ^ 64) (2 ^ 63)); lia.
Qed.

(** C14. A forked child outlives everything but the [wait4] for its own pid: no
    other operation of any task frees it, so the pointer a blocked [wait4] holds
    across its yields stays valid, and a dead child stays dead. *)
Theorem child_waits_for_parent s l ch t os s' :
  sched_ok s l → tasks (ts s) !! ch = Some t → parent t ≠ 0 →
  Forall (λ o, op_ok o ∧ match o with OWait pid _ => u64 pid ≠ id t | _ => True end) os →
  run_ops os s = Ok s' → kept s s' ch t.
Proof using H0.
  intros Hs Ht Hp Hos. revert s l t Hs Ht Hp Hos. induction os as [|o os IH]; intros s l t Hs Ht Hp Hos E; simpl in E.
  - injection E as <-. by apply kept_same.
  - apply Forall_cons in Hos as [[Ho Hnw] Hos]. pose proof Hs as [Hok _].
    destruct (run_op_ok o s l Hs Ho) as [E'|(s2 & l2 & E' & Hs2 & Hk & _)]; rewrite E' in E; [done|].
    rewrite bind_ret in E.
    destruct (Hk ch t Ht) as [Ez|[(pid & ursp & -> & _ & Hpid)|(t2 & Ht2 & Hp2 & Hid2 & Hd2)]].
    + exfalso. destruct (ro_zombie _ _ Hok) as [Ez0|(v & Hv & _ & Hvp)].
      * rewrite Ez0 in Ez. rewrite Ez in Ht. by apply (ring_nonnull _ _ _ _ Hok Ht).
      * rewrite <-Ez in Hv. congruence.
    + done.
    + destruct (IH s2 l2 t2 Hs2 Ht2) as (t3 & Ht3 & Hp3 & Hid3 & Hd3); [congruence| |done|].
      { eapply Forall_impl; [done|]. intros o' [? ?]. split; [done|]. by rewrite Hid2. }
      exists t3. split_and!; [done|congruence|congruence|auto].
Qed.

(** A timeslice is exactly [TIMESLICE_TICKS] ticks: the reschedule flag rises on
    the last of them, not before, and the counter stops at zero. *)
Theorem timeslice_length s n :
  current_ s ≠ 0 → ticks_left_ s = TIMESLICE_TICKS → need_resched_ s = false →
  let s' := Nat.iter n tick s in
  need_resched_ s' = bool_decide (TIMESLICE_TICKS ≤ Z.of_nat n) ∧
  ticks_left_ s' = Z.max 0 (TIMESLICE_TICKS - Z.of_nat n).
Proof.
  intros Hc Ht Hn s'. subst s'.
  assert (current_ (Nat.iter n tick s) ≠ 0 ∧
    need_resched_ (Nat.iter n tick s) = bool_decide (TIMESLICE_TICKS ≤ Z.of_nat n) ∧
    ticks_left_ (Nat.iter n tick s) = Z.max 0 (TIMESLICE_TICKS - Z.of_nat n)) as (_ & ? & ?); [|done].
  unfold TIMESLICE_TICKS in *. induction n as [|n (IHc & IHn & IHt)]; [done|].
  change (Nat.iter (S n) tick s) with (tick (Nat.iter n tick s)).
  set (s0 := Nat.iter n tick s) in *. unfold tick.
  rewrite (proj2 (Z.eqb_neq _ _) IHc), IHt.
  destruct (Z.ltb_spec 0 (Z.max 0 (20 - Z.of_nat n))); simpl.
  - split_and!; [done| |lia]. destruct (Z.eqb_spec (Z.max 0 (20 - Z.of_nat n) - 1) 0).
    + rewrite bool_decide_true by lia. done.
    + rewrite IHn, !bool_decide_false by lia. done.
  - split_and!; [done| |lia]. rewrite IHn, !bool_decide_true by lia. done.
Qed.

(** C15. [sys_fork] gives the parent a child right behind it on the ring that is
    Ready, remembers its parent, and inherits descriptors, heap and mmap bounds
    and TLS base, and returns the child's pid; the child has an address space of its
    own, which is the parent's over again, and no other one changed.  On failure it
    returns [-ENOMEM] with every block it took given back, the address space it had
    made destroyed again, and no task changed. *)
Theorem fork_inherits f s l c :
  sched_ok s l → tasks (ts s) !! current_ s = Some c →
  match sys_fork trampoline default_state fork_entry f s with
  | Ok (s', r) =>
      (r = - ENOMEM ∧ sched_ok s' l ∧ tasks (ts s') = tasks (ts s) ∧
       (∀ q, k_live (env (ts s')) q = k_live (env (ts s)) q) ∧
       ∀ e, k_space (env (ts s')) e = k_space (env (ts s)) e) ∨
      (∃ t child, r = i64_of (id child) ∧ sched_ok s' (current_ s :: t :: tail l) ∧
         tasks (ts s) !! t = None ∧ tasks (ts s') !! t = Some child ∧
         parent child = current_ s ∧ state child = Ready ∧ id child = next_id (ts s) ∧
         fds child = fds c ∧ brk_start child = brk_start c ∧ brk_cur child = brk_cur c ∧
         mmap_next child = mmap_next c ∧ fs_base child = fs_base c ∧
         k_space (env (ts s)) (task_cr3 child) = None ∧ is_Some (k_space (env (ts s')) (task_cr3 child)) ∧
         (∀ v, k_space (env (ts s)) (task_cr3 c) = Some v → k_space (env (ts s')) (task_cr3 child) = Some v) ∧
         (∀ e, e ≠ task_cr3 child → k_space (env (ts s')) e = k_space (env (ts s)) e) ∧
         ∀ p, p ≠ t → p ≠ current_ s → tasks (ts s') !! p = tasks (ts s) !! p)
  | Halt => True
  | _ => False
  end.
Proof using H0.
  intros Hs Hc. destruct (sys_fork_ok trampoline default_state fork_entry f s l Hs)
    as [->|[(s' & -> & ? & ? & _ & _ & _ & ? & ?)|(s' & t & tcb & ctcb & -> & ? & ? & Hcc & ? & ? & ? & ? & ? & ? & ? & ? & ? & _ & ? & _ & _ & _ & Hn & Hi & Hv & He)]];
    [done|by left|right].
  rewrite Hc in Hcc. injection Hcc as <-. exists t, tcb. split_and!; try done.
  intros v Hv0. apply Hv; [|done]. intros Heq. rewrite Heq in Hv0. congruence.
Qed.

End props.

(** ** Concrete runs *)

Definition cpu0 : Cpu := MkCpu (λ _, 0) 0x7000 0 (λ _, 0) 0x1000 0 0 0 0 0 0.

(** The state before [sched::init]: an empty heap and no tasks. *)
Definition empty_sched : Sched Bump :=
  MkSched (MkTaskSt (MkBump 0x1000000 []) (λ _, 0) ∅ 1) cpu0 0 0 0 TIMESLICE_TICKS false.

Definition demo_fx : list Z := replicate 512 0.
Definition demo_op : op → Sched Bump → Res (Sched Bump) := run_op 0x100000 demo_fx 0x100200 0x5000 0x100300.
Definition demo_ops : list op → Sched Bump → Res (Sched Bump) :=
  run_ops 0x100000 demo_fx 0x100200 0x5000 0x100300.
Definition booted : Res (Sched Bump) := sched_init 0x100000 0x100100 demo_fx empty_sched.
Definition demo (os : list op) : Res (Sched Bump) := s ← booted; demo_ops os s.
Definition spawn_op : op := OSpawn (Some [97; 0]) 0x200000 0 4096 0.
Definition fork_op : op := OFork (MkForkFrame 1 2 3 4 5 6 0x401000 0x202 0x7FFF0000).

Definition holds (r : Res (Sched Bump)) (chk : Sched Bump → bool) : bool :=
  match r with Ok s => chk s | _ => false end.

(** A state reached by a run that passes a test, with its ring. *)
Lemma demo_state os chk :
  holds (demo os) chk = true → Forall op_ok os →
  ∃ s l, demo os = Ok s ∧ sched_ok s l ∧ chk s = true.
Proof.
  unfold holds, demo. intros Hh Hos. destruct booted as [s0| | |] eqn:E0; [|done..].
  rewrite bind_ret in Hh |- *.
  destruct (sched_init_ok 0x100000 demo_fx 0x100100 empty_sched s0) as [l0 Hl0]; [done..|].
  destruct (run_ops_total 0x100000 demo_fx 0x100200 0x5000 0x100300 os s0 l0 Hl0 Hos)
    as [E|(s & l & E & Hl)]; unfold demo_ops in *; rewrite E in Hh |- *; [done|].
  by exists s, l.
Qed.

Lemma op_ok_spawn : op_ok spawn_op.
Proof. by eexists. Qed.

Ltac ops_ok :=
  repeat (apply Forall_cons_2; [first [exact I | apply op_ok_spawn | split; exact I]|]);
  apply Forall_nil_2.

Lemma scheduler_safe_witness :
  ∃ s0, booted = Ok s0 ∧
  match demo_ops [spawn_op; fork_op; OTick; OYield; OExit; OWait 3 0; OYield] s0 with
  | Ok s' => ∃ l, sched_ok s' l
  | Halt => True
  | _ => False
  end.
Proof.
  assert (is_ok booted = true) as Hb by (vm_compute; reflexivity).
  destruct (is_ok_inv _ Hb) as [s0 E]. exists s0. split; [exact E|].
  apply (scheduler_safe 0x100000 demo_fx 0x100200 0x5000 0x100300 0x100100 empty_sched s0 _
    eq_refl eq_refl E).
  ops_ok.
Defined.

Lemma schedule_round_robin_witness :
  ∃ s s', demo [spawn_op] = Ok s ∧ schedule 0x100300 s = Ok s' ∧ need_resched_ s' = false.
Proof.
  destruct (demo_state [spawn_op] (λ _, true)) as (s & l & E & Hs & _);
    [vm_compute; reflexivity|ops_ok|].
  destruct (ro_head _ _ (proj1 Hs)) as [rest El].
  destruct (schedule_round_robin 0x100300 s l rest Hs El) as (s' & _ & E' & _ & _ & _ & _ & Hn & _).
  exists s, s'. split; [exact E|]. split; [exact E'|exact Hn].
Defined.

Lemma ready_task_runs_witness :
  ∃ s k s', demo [spawn_op] = Ok s ∧ run_schedules 0x100300 k s = Ok s' ∧ current_ s' = 16782984.
Proof.
  destruct (demo_state [spawn_op]
    (λ s, match tasks (ts s) !! 16782984 with Some t => bool_decide (state t = Ready) | None => false end))
    as (s & l & E & Hs & Hc); [vm_compute; reflexivity|ops_ok|].
  destruct (tasks (ts s) !! 16782984) as [t|] eqn:Ht; [|discriminate Hc].
  apply bool_decide_eq_true in Hc.
  assert (16782984 ∈ l) as Hin by (apply (ro_dom _ _ (proj1 Hs)); by exists t).
  apply list_elem_of_split in Hin as (l1 & l2 & El).
  destruct (ready_task_runs 0x100300 s l 16782984 t (length l1) Hs Ht Hc) as (k & s' & _ & E' & Hcur).
  { exists l1, l2. split; [exact El|apply le_n]. }
  exists s, k, s'. split; [exact E|]. split; [exact E'|exact Hcur].
Defined.

Lemma back_to_back_exits_leak_witness :
  ∃ s t', demo [spawn_op; spawn_op; OYield; OExit; OExit; OYield; OYield] = Ok s ∧
    tasks (ts s) !! 16787920 = Some t' ∧ state t' = Dead.
Proof.
  set (chk := λ s : Sched Bump, (current_ s =? 16787920) && negb (current_ s =? idle_task_ s) &&
    match tasks (ts s) !! current_ s with Some t => parent t =? 0 | None => false end &&
    holds (exit_current 0x100300 s) (λ s1, negb (current_ s1 =? idle_task_ s1) &&
      match tasks (ts s1) !! current_ s1 with Some t => parent t =? 0 | None => false end &&
      holds (exit_current 0x100300 s1) (λ s2, is_ok (demo_ops [OYield; OYield] s2)))).
  destruct (demo_state [spawn_op; spawn_op; OYield] chk) as (s & l & E & Hs & Hc);
    [vm_compute; reflexivity|ops_ok|].
  unfold chk in Hc. apply andb_true_iff in Hc as [Hc H1]. apply andb_true_iff in Hc as [Hc H2].
  apply andb_true_iff in Hc as [Hc H3]. apply Z.eqb_eq in Hc. apply negb_true_iff, Z.eqb_neq in H3.
  destruct (tasks (ts s) !! current_ s) as [t|] eqn:Ht; [|discriminate H2]. apply Z.eqb_eq in H2.
  unfold holds in H1. destruct (exit_current 0x100300 s) as [s1| | |] eqn:E1; [|discriminate H1..].
  apply andb_true_iff in H1 as [H1 H4]. apply andb_true_iff in H1 as [H5 H6].
  apply negb_true_iff, Z.eqb_neq in H5.
  destruct (tasks (ts s1) !! current_ s1) as [t1|] eqn:Ht1; [|discriminate H6]. apply Z.eqb_eq in H6.
  destruct (exit_current 0x100300 s1) as [s2| | |] eqn:E2; [|discriminate H4..].
  destruct (is_ok_inv _ H4) as [s3 E3].
  destruct (back_to_back_exits_leak 0x100000 demo_fx 0x100200 0x5000 0x100300 s l t s1 t1 s2
    [OYield; OYield] s3 Hs Ht H2 H3 E1 Ht1 H6 H5 E2) as (t' & Ht' & Hd & _).
  - ops_ok.
  - exact E3.
  - exists s3, t'. rewrite <-Hc. split; [|split; [exact Ht'|exact Hd]].
    revert E. unfold demo. destruct booted as [s0| | |]; [|discriminate..]. rewrite !bind_ret.
    unfold demo_ops. simpl. intros E.
    assert (exit_op : ∀ x, current_ x ≠ idle_task_ x →
      run_op 0x100000 demo_fx 0x100200 0x5000 0x100300 OExit x = exit_current 0x100300 x).
    { intros x Hx. simpl. by rewrite (proj2 (Z.eqb_neq _ _) Hx). }
    apply bind_Ok in E as (a & -> & E). rewrite bind_ret. apply bind_Ok in E as (b & -> & E).
    rewrite bind_ret. apply bind_Ok in E as (c & -> & E). rewrite bind_ret. injection E as ->.
    rewrite (proj2 (Z.eqb_neq _ _) H3), E1, bind_ret. rewrite (proj2 (Z.eqb_neq _ _) H5), E2, bind_ret.
    exact E3.
Defined.

Lemma wait4_collects_witness :
  ∃ s s', demo [fork_op; OYield; OExit; OYield] = Ok s ∧
    wait4_finish 16783064 0x7000 s = Ok (s', 0, 2) ∧ user_rsp (cpu s') = 0x7000.
Proof.
  destruct (demo_state [fork_op; OYield; OExit; OYield] (λ s,
    match wait4_start 2 s with Ok (inl ch) => ch =? 16783064 | _ => false end &&
    match wait4_poll 16783064 s with Ok b => b | _ => false end &&
    match tasks (ts s) !! 16783064 with Some t => exit_code t =? 0 | None => false end))
    as (s & l & E & Hs & Hc); [vm_compute; reflexivity|ops_ok|].
  apply andb_true_iff in Hc as [Hc H3]. apply andb_true_iff in Hc as [H1 H2].
  destruct (wait4_start 2 s) as [[ch|]| | |] eqn:E1; try discriminate H1.
  apply Z.eqb_eq in H1. subst ch.
  destruct (wait4_poll 16783064 s) as [[|]| | |] eqn:E2; try discriminate H2.
  destruct (wait4_collects s l 2 16783064 0x7000 Hs ltac:(lia) E1 E2)
    as (t & s' & Ht & _ & Ef & _ & _ & _ & _ & Hu).
  rewrite Ht in H3. apply Z.eqb_eq in H3. rewrite H3 in Ef.
  exists s, s'. split; [exact E|]. split; [exact Ef|exact Hu].
Defined.

Lemma child_waits_for_parent_witness :
  ∃ s s' t, demo [fork_op] = Ok s ∧ demo_ops [OYield; OExit; OYield] s = Ok s' ∧
    kept s s' 16783064 t.
Proof.
  destruct (demo_state [fork_op] (λ s,
    match tasks (ts s) !! 16783064 with Some t => negb (parent t =? 0) | None => false end &&
    is_ok (demo_ops [OYield; OExit; OYield] s)))
    as (s & l & E & Hs & Hc); [vm_compute; reflexivity|ops_ok|].
  apply andb_true_iff in Hc as [H1 H2]. destruct (is_ok_inv _ H2) as [s' E'].
  destruct (tasks (ts s) !! 16783064) as [t|] eqn:Ht; [|discriminate H1].
  apply negb_true_iff, Z.eqb_neq in H1.
  exists s, s', t. split; [exact E|]. split; [exact E'|].
  apply (child_waits_for_parent 0x100000 demo_fx 0x100200 0x5000 0x100300 s l 16783064 t
    [OYield; OExit; OYield] s' Hs Ht H1); [|exact E'].
  ops_ok.
Defined.

Lemma timeslice_length_witness :
  need_resched_ (Nat.iter 20 tick (with_current 0x1000 empty_sched)) = true.
Proof.
  destruct (timeslice_length (with_current 0x1000 empty_sched) 20) as [E _];
    [discriminate|reflexivity..|]. rewrite E. reflexivity.
Defined.

Lemma fork_inherits_witness :
  ∃ s s' r, demo [] = Ok s ∧
    sys_fork 0x100000 demo_fx 0x100200 (MkForkFrame 1 2 3 4 5 6 0x401000 0x202 0x7FFF0000) s = Ok (s', r) ∧
    (r = - ENOMEM ∨ r = i64_of (next_id (ts s))).
Proof.
  destruct (demo_state [] (λ s, match tasks (ts s) !! current_ s with Some _ => true | None => false end &&
    is_ok (sys_fork 0x100000 demo_fx 0x100200 (MkForkFrame 1 2 3 4 5 6 0x401000 0x202 0x7FFF0000) s)))
    as (s & l & E & Hs & Hc); [vm_compute; reflexivity|ops_ok|].
  apply andb_true_iff in Hc as [H1 H2].
  destruct (tasks (ts s) !! current_ s) as [c|] eqn:Hcur; [|discriminate H1].
  pose proof (fork_inherits 0x100000 demo_fx 0x100200
    (MkForkFrame 1 2 3 4 5 6 0x401000 0x202 0x7FFF0000) s l c Hs Hcur) as T.
  destruct (is_ok_inv _ H2) as [[s' r] E2]. rewrite E2 in T.
  exists s, s', r. split; [exact E|]. split; [exact E2|].
  destruct T as [[T _]|(t & ch & T & _ & _ & _ & _ & _ & Hid & _)]; [by left|right].
  by rewrite T, Hid.
Defined.
