(* ===== verification/Fs.v ===== *)
(** * The file system interface ([fs/vfs.hpp])

    What a file system driver gives the VFS.  The C++ tables of function pointers
    become a record of functions over the heap state [K]; an entry that can be a
    null pointer is an option.  Every inode of a superblock has that superblock's
    operations, so an inode is just its fields; [P] is the type of the driver's
    [private_data].  Inodes are never changed once made, so they are values, not
    pointers.  A read gives the [ssize_t] and the bytes it wrote at the start of
    the caller's buffer. *)

From S2P Require Import Prelude.

Record Inode (P : Type) := MkInode {
  ino : Z;
  isize : Z;
  i_is_dir : bool;
  private_data : P;
}.
Arguments MkInode {P}.
Arguments ino {P}.
Arguments isize {P}.
Arguments i_is_dir {P}.
Arguments private_data {P}.

Record InodeOps (K P : Type) := MkInodeOps {
  op_read : option (Inode P → Z → Z → K → Res (K * (Z * list Z)));
  op_readdir : option (Inode P → Z → Z → K → Res (K * (Z * list Z)));
}.
Arguments MkInodeOps {K P}.
Arguments op_read {K P}.
Arguments op_readdir {K P}.

Record SuperBlock (K P : Type) := MkSuperBlock {
  op_root_inode : option (K → Res (K * option (Inode P)));
  op_get_inode : option (Z → K → Res (K * option (Inode P)));
  inode_ops : InodeOps K P;
}.
Arguments MkSuperBlock {K P}.
Arguments op_root_inode {K P}.
Arguments op_get_inode {K P}.
Arguments inode_ops {K P}.

(** The sizes of [vfs::Inode] and [vfs::SuperBlock]. *)
Definition SIZEOF_INODE : Z := 48.
Definition SIZEOF_SUPERBLOCK : Z := 16.

(** ** Directory streams *)

(** A directory entry as [readdir] writes it: the inode number and the name with
    its NUL. *)
Definition dirent (i : Z) (nm : list Z) : list Z := le_bytes 8 i ++ nm ++ [0].
