(* ===== verification/Tarfs.v ===== *)
(** * The initrd file system ([fs/tarfs.cpp])

    A USTAR archive is parsed into a tree of nodes kept in one array and linked by
    indices.  The archive is the list of its bytes; a node's name is its 100-byte
    buffer.  [nodes] has the array's whole capacity: the nodes not yet allocated
    hold whatever the heap block held. *)

From S2P Require Import Prelude CString Task Fs.

(** ** The header *)

(** Offsets of the fields of [UstarHeader] that are read. *)
Definition HDR_NAME : Z := 0.
Definition HDR_SIZE : Z := 124.
Definition HDR_TYPEFLAG : Z := 156.
Definition HDR_MAGIC : Z := 257.
Definition HDR_PREFIX : Z := 345.

(** A pointer into the header at byte [offset] of the archive. *)
Definition hdr_ptr (base : list Z) (offset f : Z) : list Z := drop (Z.to_nat (offset + f)) base.

Fixpoint parse_octal_loop (field : list Z) (value : Z) : Z :=
  match field with
  | [] => value
  | c :: field =>
      if (c <? 48) || (55 <? c) then value
      else parse_octal_loop field (Z.lor (u64 (Z.shiftl value 3)) (c - 48))
  end.

Definition parse_octal (field : list Z) : Z := parse_octal_loop field 0.

Definition entry_size_of (base : list Z) (offset : Z) : Res Z :=
  f ← or_fault (slice base (offset + HDR_SIZE) 12); Ok (parse_octal f).

(** ** The tree *)

Record TarNode := MkTarNode {
  t_name : list Z;
  is_dir : bool;
  data_offset : Z;
  size : Z;
  first_child : Z;
  next_sibling : Z;
}.

Definition NAME_LEN : Z := 100.
Definition SIZEOF_TARNODE : Z := 120.
Definition SIZEOF_TARSTATE : Z := 32.

Record TarState := MkTarState {
  base : list Z;
  nodes : list TarNode;
  num_nodes : Z;
  cap_nodes : Z;
}.

Definition with_nodes (ns : list TarNode) (st : TarState) : TarState :=
  MkTarState (base st) ns (num_nodes st) (cap_nodes st).

Definition get_node (st : TarState) (i : Z) : Res TarNode := or_fault (zget (nodes st) i).
Definition put_node (st : TarState) (i : Z) (n : TarNode) : Res TarState :=
  ns ← or_fault (zset (nodes st) i n); Ok (with_nodes ns st).

Definition alloc_node (st : TarState) : Res (TarState * Z) :=
  if cap_nodes st <=? num_nodes st then Ok (st, -1) else
  let idx := num_nodes st in
  n ← get_node st idx;
  nm ← or_fault (zset (t_name n) 0 0);
  st ← put_node st idx (MkTarNode nm false 0 0 (-1) (-1));
  Ok (MkTarState (base st) (nodes st) (idx + 1) (cap_nodes st), idx).

(** The sibling list is at most as long as there are nodes. *)
Fixpoint find_child_loop (fuel : nat) (st : TarState) (cur : Z) (nm : list Z) : Res Z :=
  match fuel with
  | O => NoFuel
  | S fuel =>
      if cur =? -1 then Ok (-1) else
      n ← get_node st cur;
      d ← strcmp (t_name n) nm;
      if d =? 0 then Ok cur else find_child_loop fuel st (next_sibling n) nm
  end.

Definition node_fuel (st : TarState) : nat := S (Z.to_nat (num_nodes st)).

Definition find_child (st : TarState) (parent : Z) (nm : list Z) : Res Z :=
  p ← get_node st parent; find_child_loop (node_fuel st) st (first_child p) nm.

Definition get_or_create_child (st : TarState) (parent : Z) (nm : list Z) : Res (TarState * Z) :=
  existing ← find_child st parent nm;
  if negb (existing =? -1) then Ok (st, existing) else
  '(st, idx) ← alloc_node st;
  if idx =? -1 then Ok (st, -1) else
  n ← get_node st idx;
  buf ← strncpy (t_name n) nm (NAME_LEN - 1);
  buf ← or_fault (zset buf (NAME_LEN - 1) 0);
  p ← get_node st parent;
  st ← put_node st idx (MkTarNode buf true (data_offset n) (size n) (first_child n) (first_child p));
  p ← get_node st parent;
  st ← put_node st parent (MkTarNode (t_name p) (is_dir p) (data_offset p) (size p) idx (next_sibling p));
  Ok (st, idx).

(** ** Paths *)

(** [while ( *path == '/') ++path]. *)
Fixpoint skip_slashes (path : list Z) : list Z :=
  match path with
  | c :: path' => if c =? 47 then skip_slashes path' else path
  | [] => []
  end.

(** The component loop: at most [room] characters up to a slash or the NUL. *)
Fixpoint copy_component (room : nat) (path : list Z) : Res (list Z * list Z) :=
  match path with
  | [] => Fault
  | c :: path' =>
      match room with
      | O => Ok ([], path)
      | S room =>
          if (c =? 0) || (c =? 47) then Ok ([], path)
          else '(w, rest) ← copy_component room path'; Ok (c :: w, rest)
      end
  end.

Fixpoint insert_loop (fuel : nat) (st : TarState) (cur : Z) (path : list Z)
    (isd : bool) (doff sz : Z) : Res TarState :=
  match fuel with
  | O => NoFuel
  | S fuel =>
      c ← or_fault (zget path 0);
      if c =? 0 then Ok st else
      '(component, path) ← copy_component 99 path;
      let path := skip_slashes path in
      c ← or_fault (zget path 0);
      '(st, child) ← get_or_create_child st cur (component ++ [0]);
      if child =? -1 then Ok st else
      st ← (if c =? 0 then
              n ← get_node st child;
              put_node st child (MkTarNode (t_name n) isd doff sz (first_child n) (next_sibling n))
            else Ok st);
      insert_loop fuel st child path isd doff sz
  end.

Definition strip_dot (path : list Z) : Res (list Z) :=
  c0 ← or_fault (zget path 0);
  if negb (c0 =? 46) then Ok path else
  c1 ← or_fault (zget path 1);
  Ok (if c1 =? 47 then drop 2 path else path).

Definition insert_path (st : TarState) (path : list Z) (isd : bool) (doff sz : Z) : Res TarState :=
  path ← strip_dot path;
  let path := skip_slashes path in
  c ← or_fault (zget path 0);
  if c =? 0 then Ok st else
  insert_loop (length path) st 0 path isd doff sz.

(** ** The archive *)

(** Where the entry after the one at [offset] starts. *)
Definition next_entry (offset entry_size : Z) : Z :=
  u64 (offset + u64 (512 + u64 (u64 (entry_size + 511) / 512 * 512))).

Fixpoint count_entries_loop (fuel : nat) (bs : list Z) (sz offset count : Z) : Res Z :=
  match fuel with
  | O => NoFuel
  | S fuel =>
      if negb (u64 (offset + 512) <=? sz) then Ok count else
      c ← or_fault (zget bs (offset + HDR_NAME));
      if c =? 0 then Ok count else
      es ← entry_size_of bs offset;
      count_entries_loop fuel bs sz (next_entry offset es) (count + 1)
  end.

(** An entry takes at least 512 bytes. *)
Definition archive_fuel (sz : Z) : nat := S (Z.to_nat (sz / 512)).

Definition count_entries (bs : list Z) (sz : Z) : Res Z :=
  count_entries_loop (archive_fuel sz) bs sz 0 0.

(** [out] is the caller's buffer of [out_size] bytes. *)
Definition build_full_path (bs : list Z) (offset : Z) (out : list Z) (out_size : Z) : Res (list Z) :=
  prefix_len ← strnlen (hdr_ptr bs offset HDR_PREFIX) 155;
  name_len ← strnlen (hdr_ptr bs offset HDR_NAME) 100;
  '(out, pos) ← (if 0 <? prefix_len then
      let n := if prefix_len <? out_size - 1 then prefix_len else out_size - 1 in
      out ← memcpy out 0 (hdr_ptr bs offset HDR_PREFIX) 0 n;
      if n <? out_size - 1 then out ← or_fault (zset out n 47); Ok (out, n + 1)
      else Ok (out, n)
    else Ok (out, 0));
  let room := u64 (out_size - 1 - pos) in
  let n := if name_len <? room then name_len else room in
  out ← memcpy out pos (hdr_ptr bs offset HDR_NAME) 0 n;
  or_fault (zset out (pos + n) 0).

Fixpoint mount_loop (fuel : nat) (bs : list Z) (sz offset : Z) (st : TarState) : Res TarState :=
  match fuel with
  | O => NoFuel
  | S fuel =>
      if negb (u64 (offset + 512) <=? sz) then Ok st else
      c ← or_fault (zget bs (offset + HDR_NAME));
      if c =? 0 then Ok st else
      es ← entry_size_of bs offset;
      path ← build_full_path bs offset (replicate 256 0) 256;
      tf ← or_fault (zget bs (offset + HDR_TYPEFLAG));
      let isd := tf =? 53 in
      st ← insert_path st path isd (if isd then 0 else u32 (u64 (offset + 512)))
                                   (if isd then 0 else u32 es);
      mount_loop fuel bs sz (next_entry offset es) st
  end.

(** "ustar" *)
Definition USTAR : list Z := [117; 115; 116; 97; 114; 0].

(** ** Operations *)

Section ops.
Context {K : Type} `{KernelEnv K}.

Definition make_vfs_inode (st : TarState) (node_idx : Z) (k : K) : Res (K * option (Inode Z)) :=
  if (node_idx <? 0) || (num_nodes st <=? node_idx) then Ok (k, None) else
  '(k, inode) ← kmalloc SIZEOF_INODE k;
  if inode =? 0 then Ok (k, None) else
  '(k, boxed_idx) ← kmalloc 4 k;
  if boxed_idx =? 0 then k ← kfree inode k; Ok (k, None) else
  n ← get_node st node_idx;
  Ok (k, Some (MkInode node_idx (size n) (is_dir n) node_idx)).

Definition tar_read (st : TarState) (inode : Inode Z) (offset count : Z) (k : K)
    : Res (K * (Z * list Z)) :=
  node ← get_node st (private_data inode);
  if is_dir node then Ok (k, (-1, [])) else
  if size node <=? offset then Ok (k, (0, [])) else
  let count := if size node <? u64 (offset + count) then size node - offset else count in
  bs ← or_fault (slice (base st) (data_offset node + offset) count);
  Ok (k, (i64_of count, bs)).

Fixpoint readdir_loop (fuel : nat) (st : TarState) (child offset count : Z)
    (out : list Z) (stream_pos : Z) : Res (list Z) :=
  match fuel with
  | O => NoFuel
  | S fuel =>
      if child =? -1 then Ok out else
      c ← get_node st child;
      name_len ← strlen (t_name c);
      let needed := 8 + name_len + 1 in
      if offset <=? stream_pos then
        if count <? zlen out + needed then Ok out else
        nm ← or_fault (slice (t_name c) 0 name_len);
        readdir_loop fuel st (next_sibling c) offset count (out ++ dirent child nm) (stream_pos + needed)
      else readdir_loop fuel st (next_sibling c) offset count out (stream_pos + needed)
  end.

Definition tar_readdir (st : TarState) (inode : Inode Z) (offset count : Z) (k : K)
    : Res (K * (Z * list Z)) :=
  node ← get_node st (private_data inode);
  if negb (is_dir node) then Ok (k, (-1, [])) else
  out ← readdir_loop (node_fuel st) st (first_child node) offset count [] 0;
  Ok (k, (zlen out, out)).

Definition tar_root_inode (st : TarState) (k : K) : Res (K * option (Inode Z)) :=
  make_vfs_inode st 0 k.

(** [static_cast<int>(ino)]. *)
Definition tar_get_inode (st : TarState) (ino : Z) (k : K) : Res (K * option (Inode Z)) :=
  make_vfs_inode st (let w := u32 ino in if w <? 2 ^ 31 then w else w - 2 ^ 32) k.

(** [fresh] is what the block for the nodes holds before they are written.  The
    capacity is computed in [int]: an archive with too many entries would overflow
    it, which is undefined. *)
Definition mount (bs : list Z) (sz : Z) (fresh : list TarNode) (k : K)
    : Res (K * option (TarState * SuperBlock K Z)) :=
  if sz <? 512 then Ok (k, None) else
  d ← strncmp (hdr_ptr bs 0 HDR_MAGIC) USTAR 5;
  if negb (d =? 0) then Ok (k, None) else
  entry_count ← count_entries bs sz;
  let capacity := entry_count * 8 + 16 in
  if 2 ^ 31 <=? capacity then Fault else
  '(k, st_ptr) ← kmalloc SIZEOF_TARSTATE k;
  if st_ptr =? 0 then Ok (k, None) else
  '(k, archive_copy) ← kmalloc sz k;
  if archive_copy =? 0 then k ← kfree st_ptr k; Ok (k, None) else
  copied ← or_fault (slice bs 0 sz);
  '(k, nodes_ptr) ← kmalloc (SIZEOF_TARNODE * capacity) k;
  if nodes_ptr =? 0 then k ← kfree st_ptr k; Ok (k, None) else
  let st := MkTarState copied (take (Z.to_nat capacity) fresh) 0 capacity in
  '(st, root) ← alloc_node st;
  n ← get_node st root;
  nm ← or_fault (zset (t_name n) 0 0);
  st ← put_node st root (MkTarNode nm true (data_offset n) (size n) (first_child n) (next_sibling n));
  st ← mount_loop (archive_fuel sz) bs sz 0 st;
  '(k, sb) ← kmalloc SIZEOF_SUPERBLOCK k;
  if sb =? 0 then k ← kfree nodes_ptr k; k ← kfree st_ptr k; Ok (k, None) else
  Ok (k, Some (st, MkSuperBlock (Some (tar_root_inode st)) (Some (tar_get_inode st))
                     (MkInodeOps (Some (tar_read st)) (Some (tar_readdir st))))).

End ops.
