(* ===== verification/TarTree.v ===== *)
(** * The initrd's tree

    The invariant of the node array (the sibling chains are the children lists of
    a tree whose siblings have distinct names), what [insert_path] does to it, and
    path resolution in the tree. *)

From stdpp Require Import functions.
From S2P Require Import Prelude CString Task Fs Tarfs.

(** ** The tree a node array represents *)

Section tree.
Implicit Types (st : TarState) (kids : Z → list Z) (nm : Z → list Z).

Fixpoint chain st (cur : Z) (l : list Z) : Prop :=
  match l with
  | [] => cur = -1
  | i :: l => cur = i ∧ 0 ≤ i ∧ ∃ n, zget (nodes st) i = Some n ∧ chain st (next_sibling n) l
  end.

Record tree_ok st kids nm : Prop := {
  tr_num : 0 < num_nodes st ≤ cap_nodes st ∧ cap_nodes st = zlen (nodes st);
  tr_buf i n : zget (nodes st) i = Some n → zlen (t_name n) = NAME_LEN;
  tr_node i : 0 ≤ i < num_nodes st → ∃ n, zget (nodes st) i = Some n ∧
    c_string (t_name n) = Some (nm i) ∧ chain st (first_child n) (kids i);
  tr_kids i c : 0 ≤ i < num_nodes st → c ∈ kids i → i < c < num_nodes st;
  tr_names i : 0 ≤ i < num_nodes st → NoDup (nm <$> kids i);
  tr_parent i j c : 0 ≤ i < num_nodes st → 0 ≤ j < num_nodes st → c ∈ kids i → c ∈ kids j → i = j;
}.

(** What an entry says of a node. *)
Definition attr st (i : Z) : option (bool * Z * Z) :=
  (λ n, (is_dir n, data_offset n, size n)) <$> zget (nodes st) i.

(** The child with a given name, and the node a path leads to. *)
Fixpoint first_named nm (comp : list Z) (l : list Z) : option Z :=
  match l with
  | [] => None
  | c :: l => if decide (nm c = comp) then Some c else first_named nm comp l
  end.

Fixpoint resolve kids nm (p : Z) (path : list (list Z)) : option Z :=
  match path with
  | [] => Some p
  | comp :: path => c ← first_named nm comp (kids p); resolve kids nm c path
  end.

Lemma first_named_Some nm comp l c : first_named nm comp l = Some c → c ∈ l ∧ nm c = comp.
Proof.
  induction l as [|x l IH]; simpl; [done|]. case_decide; [intros [= <-]; split; [apply list_elem_of_here|done]|].
  intros [? ?]%IH. split; [by apply list_elem_of_further|done].
Qed.

Lemma first_named_None nm comp l : first_named nm comp l = None → comp ∉ (nm <$> l).
Proof.
  induction l as [|x l IH]; simpl; [intros _; apply not_elem_of_nil|]. case_decide; [done|].
  intros Hn%IH. by rewrite not_elem_of_cons.
Qed.

Lemma first_named_ext nm nm' comp l : (∀ c, c ∈ l → nm' c = nm c) → first_named nm' comp l = first_named nm comp l.
Proof.
  induction l as [|x l IH]; simpl; [done|]. intros Hx. rewrite Hx by apply list_elem_of_here.
  rewrite IH; [done|]. intros c Hc. by apply Hx, list_elem_of_further.
Qed.

Lemma siblings_ext st st' cur l :
  (∀ i n, i ∈ l → zget (nodes st) i = Some n → ∃ n', zget (nodes st') i = Some n' ∧ next_sibling n' = next_sibling n) →
  chain st cur l → chain st' cur l.
Proof.
  revert cur. induction l as [|i l IH]; intros cur Hx; simpl; [done|]. intros (-> & ? & n & Hn & Hc).
  destruct (Hx i n) as (n' & Hn' & E); [apply list_elem_of_here|done|]. split_and!; [done..|].
  exists n'. split; [done|]. rewrite E. apply IH; [|done]. intros j m Hj. by apply Hx, list_elem_of_further.
Qed.

Lemma kids_length st kids nm i : tree_ok st kids nm → 0 ≤ i < num_nodes st → (length (kids i) < node_fuel st)%nat.
Proof.
  intros Ht Hi. assert (length (kids i) ≤ length (seqZ 0 (num_nodes st)))%nat as Hl.
  { apply submseteq_length, NoDup_submseteq.
    - eapply NoDup_fmap_1, (tr_names _ _ _ Ht _ Hi).
    - intros c Hc. apply elem_of_seqZ. pose proof (tr_kids _ _ _ Ht _ _ Hi Hc). lia. }
  rewrite length_seqZ in Hl. unfold node_fuel. lia.
Qed.

Lemma find_child_loop_spec st kids nm comp l cur fuel :
  tree_ok st kids nm → (∀ c, c ∈ l → 0 ≤ c < num_nodes st) → chain st cur l → no_nul comp →
  (length l < fuel)%nat →
  find_child_loop fuel st cur (comp ++ [0]) = Ok (default (-1) (first_named nm comp l)).
Proof.
  intros Ht Hl Hc Hcomp. revert cur fuel Hl Hc.
  induction l as [|i l IH]; intros cur fuel Hl Hc Hf; (destruct fuel as [|fuel]; [simpl in Hf; lia|]);
    cbn [find_child_loop]; simpl in Hc.
  - by rewrite Hc.
  - destruct Hc as (-> & Hi & n & Hn & Hc). rewrite (proj2 (Z.eqb_neq i (-1))) by lia.
    unfold get_node. rewrite Hn. res_step.
    destruct (tr_node _ _ _ Ht i) as (n' & Hn' & Hs & _); [apply Hl, list_elem_of_here|].
    assert (n' = n) as -> by congruence.
    destruct (strcmp_spec (t_name n) (comp ++ [0]) (nm i) comp Hs) as (d & -> & Hd).
    { by apply c_string_app. }
    res_step. simpl. destruct (Z.eqb_spec d 0) as [->|Hne].
    + by rewrite decide_True by (by apply Hd).
    + rewrite decide_False by naive_solver. apply IH; [|done|simpl in Hf; lia].
      intros c Hc'. by apply Hl, list_elem_of_further.
Qed.

Lemma find_child_spec st kids nm p comp :
  tree_ok st kids nm → 0 ≤ p < num_nodes st → no_nul comp →
  find_child st p (comp ++ [0]) = Ok (default (-1) (first_named nm comp (kids p))).
Proof.
  intros Ht Hp Hc. destruct (tr_node _ _ _ Ht _ Hp) as (n & Hn & _ & Hch).
  unfold find_child, get_node. rewrite Hn. res_step. eapply find_child_loop_spec; [done| |done..|].
  - intros c Hk. pose proof (tr_kids _ _ _ Ht _ _ Hp Hk). lia.
  - by eapply kids_length.
Qed.

(** ** Creating a child *)

(** The tree with a new last node [i] named [comp] under [p]. *)
Definition add_kid kids p i : Z → list Z := <[p := i :: kids p]> (<[i := []]> kids).

Definition name_ok (comp : list Z) : Prop := no_nul comp ∧ zlen comp ≤ 98.

Lemma strncpy_name buf comp :
  zlen buf = NAME_LEN → name_ok comp →
  ∃ buf', strncpy buf (comp ++ [0]) (NAME_LEN - 1) = Ok buf' ∧ zlen buf' = NAME_LEN ∧
    ∃ buf'', zset buf' (NAME_LEN - 1) 0 = Some buf'' ∧ zlen buf'' = NAME_LEN ∧ c_string buf'' = Some comp.
Proof.
  intros Hb [Hn Hl]. unfold NAME_LEN in *.
  rewrite (strncpy_short buf comp []) by (done || lia). eexists. split; [done|].
  unfold zlen in *. split.
  { rewrite !length_app, length_replicate, length_drop. lia. }
  rewrite zset_is; [|unfold zlen; rewrite !length_app, length_replicate, length_drop; lia].
  eexists. split; [done|]. rewrite length_insert. split.
  { rewrite !length_app, length_replicate, length_drop. lia. }
  rewrite insert_app_r_alt by lia. change (Z.to_nat (100 - 1)) with 99%nat.
  assert (∃ k, 99 - length comp = S k)%nat as [k Hk] by (exists (98 - length comp)%nat; lia).
  rewrite Hk. by apply c_string_app.
Qed.

Lemma put_node_ok st i n n0 :
  zget (nodes st) i = Some n0 → put_node st i n = Ok (with_nodes (<[Z.to_nat i := n]> (nodes st)) st).
Proof. intros Hi%zget_bounds. unfold put_node. by rewrite zset_is. Qed.

Lemma zget_put st i n n0 j :
  zget (nodes st) i = Some n0 →
  zget (<[Z.to_nat i := n]> (nodes st)) j = if decide (j = i) then Some n else zget (nodes st) j.
Proof. intros Hi%zget_bounds. by apply zget_insert. Qed.

(** What [alloc_node] leaves in the next slot. *)
Lemma alloc_node_spec st kids nm :
  tree_ok st kids nm →
  (num_nodes st = cap_nodes st ∧ alloc_node st = Ok (st, -1)) ∨
  ∃ st' n, num_nodes st < cap_nodes st ∧ alloc_node st = Ok (st', num_nodes st) ∧
    num_nodes st' = num_nodes st + 1 ∧ cap_nodes st' = cap_nodes st ∧ base st' = base st ∧
    zlen (nodes st') = zlen (nodes st) ∧
    zget (nodes st') (num_nodes st) = Some (MkTarNode n false 0 0 (-1) (-1)) ∧ zlen n = NAME_LEN ∧
    ∀ j, j ≠ num_nodes st → zget (nodes st') j = zget (nodes st) j.
Proof.
  intros Ht. destruct (tr_num _ _ _ Ht) as [Hn Hc]. unfold alloc_node, get_node.
  destruct (Z.leb_spec (cap_nodes st) (num_nodes st)); [left; split; [lia|done]|right].
  destruct (zget_is_Some (nodes st) (num_nodes st)) as [n Hg]; [lia|]. rewrite Hg. res_step.
  pose proof (tr_buf _ _ _ Ht _ _ Hg) as Hb. unfold NAME_LEN in *.
  rewrite zset_is by lia. res_step. erewrite put_node_ok by done. res_step.
  eexists _, _. split; [done|]. split; [done|]. simpl.
  rewrite (zget_put _ _ _ n) by done. rewrite decide_True by done.
  split_and!; try done; [apply zlen_insert|by rewrite zlen_insert|]. intros j Hj. rewrite (zget_put _ _ _ n) by done. by rewrite decide_False.
Qed.

Lemma get_or_create_spec st kids nm p comp :
  tree_ok st kids nm → 0 ≤ p < num_nodes st → name_ok comp →
  match first_named nm comp (kids p) with
  | Some c => get_or_create_child st p (comp ++ [0]) = Ok (st, c)
  | None =>
      (num_nodes st = cap_nodes st ∧ get_or_create_child st p (comp ++ [0]) = Ok (st, -1)) ∨
      ∃ st', num_nodes st < cap_nodes st ∧ get_or_create_child st p (comp ++ [0]) = Ok (st', num_nodes st) ∧
        tree_ok st' (add_kid kids p (num_nodes st)) (<[num_nodes st := comp]> nm) ∧
        num_nodes st' = num_nodes st + 1 ∧ cap_nodes st' = cap_nodes st ∧ base st' = base st ∧
        attr st' (num_nodes st) = Some (true, 0, 0) ∧ ∀ i, i ≠ num_nodes st → attr st' i = attr st i
  end.
Proof.
  intros Ht Hp Hc. unfold get_or_create_child. erewrite find_child_spec by (done || apply Hc). res_step.
  destruct (first_named nm comp (kids p)) as [c|] eqn:E; simpl.
  { apply first_named_Some in E as [E _]. pose proof (tr_kids _ _ _ Ht _ _ Hp E).
    by rewrite (proj2 (Z.eqb_neq c (-1))) by lia. }
  destruct (tr_num _ _ _ Ht) as [Hn0 Hcap].
  destruct (alloc_node_spec st kids nm Ht) as [[Hn ->]|(st1 & b & Hn & -> & N1 & C1 & B1 & L1 & G1 & Hb & O1)];
    res_step; [by left|right].
  set (idx := num_nodes st) in *. rewrite (proj2 (Z.eqb_neq idx (-1))) by lia.
  unfold get_node. rewrite G1. res_step. simpl.
  destruct (strncpy_name b comp Hb Hc) as (buf & -> & Hbl & buf' & Hz & Hbl' & Hcs). res_step. rewrite Hz. res_step.
  destruct (tr_node _ _ _ Ht _ Hp) as (np & Gp & Sp & Cp). rewrite (O1 p), Gp by lia. res_step.
  erewrite put_node_ok by done. res_step.
  set (n1 := MkTarNode buf' true 0 0 (-1) (first_child np)).
  set (st2 := with_nodes (<[Z.to_nat idx:=n1]> (nodes st1)) st1).
  assert (∀ j, zget (nodes st2) j = if decide (j = idx) then Some n1 else zget (nodes st1) j) as G2.
  { intros j. unfold st2. cbn [nodes with_nodes]. by erewrite zget_put by done. }
  assert (zget (nodes st2) p = Some np) as G2p by (rewrite G2, decide_False, O1 by lia; done).
  cbn [nodes with_nodes]. change (<[Z.to_nat idx:=n1]> (nodes st1)) with (nodes st2). rewrite G2p. res_step.
  erewrite put_node_ok by done. res_step.
  set (np' := MkTarNode (t_name np) (is_dir np) (data_offset np) (size np) idx (next_sibling np)).
  set (st3 := with_nodes (<[Z.to_nat p:=np']> (nodes st2)) st2).
  assert (∀ j, zget (nodes st3) j = if decide (j = p) then Some np' else if decide (j = idx) then Some n1 else zget (nodes st) j) as G3.
  { intros j. unfold st3. cbn [nodes with_nodes]. erewrite zget_put by done. case_decide; [done|].
    rewrite G2. case_decide; [done|]. by apply O1. }
  assert (∀ i, 0 ≤ i < idx → add_kid kids p idx i = if decide (i = p) then idx :: kids p else kids i) as K3.
  { intros i Hi. unfold add_kid. case_decide as Hd; [subst; by rewrite fn_lookup_insert|].
    rewrite fn_lookup_insert_ne by done. by rewrite fn_lookup_insert_ne by lia. }
  assert (add_kid kids p idx idx = []) as K3i.
  { unfold add_kid. rewrite fn_lookup_insert_ne by lia. by rewrite fn_lookup_insert. }
  assert (∀ i, i ≠ idx → (<[idx := comp]> nm) i = nm i) as M3 by (intros i ?; by rewrite fn_lookup_insert_ne).
  assert (∀ cur l, (∀ i, i ∈ l → 0 ≤ i < idx) → chain st cur l → chain st3 cur l) as Hch.
  { intros cur l Hl. apply siblings_ext. intros i n Hi Hg. rewrite G3. specialize (Hl i Hi).
    case_decide; [subst; exists np'; by simplify_eq|]. rewrite decide_False by lia. by exists n. }
  assert (∀ i, 0 ≤ i < idx → ∀ c, c ∈ kids i → 0 ≤ c < idx) as Hk.
  { intros i Hi c Hc'. pose proof (tr_kids _ _ _ Ht _ _ Hi Hc'). lia. }
  exists st3. split; [done|]. split; [done|]. simpl. split_and!; [|lia|done|done|..].
  2: { unfold attr. rewrite G3, decide_False, decide_True by lia. done. }
  2: { intros i Hi. unfold attr. rewrite G3. case_decide; [subst; by rewrite Gp|]. by rewrite decide_False. }
  assert (∀ i, 0 ≤ i < idx → map (<[idx := comp]> nm) (kids i) = map nm (kids i)) as M4.
  { intros i Hi. apply map_ext_in. intros c Hc'%list_elem_of_In. apply M3. specialize (Hk i Hi c Hc'). lia. }
  assert (zlen (nodes st3) = zlen (nodes st)) as L3 by (unfold st3, st2; simpl; by rewrite !zlen_insert).
  assert (num_nodes st3 = idx + 1 ∧ cap_nodes st3 = cap_nodes st) as [N3 C3] by (simpl; lia).
  clearbody st3. split; rewrite ?N3, ?C3, ?L3.
  - lia.
  - intros i n. rewrite G3. repeat case_decide; intros Hg; simplify_eq; [by apply (tr_buf _ _ _ Ht _ _ Gp)|done|].
    by apply (tr_buf _ _ _ Ht _ _ Hg).
  - intros i Hi. rewrite G3. destruct (decide (i = idx)) as [->|Hne].
    { rewrite decide_False, K3i, fn_lookup_insert by lia. by exists n1. }
    rewrite K3, M3 by lia. case_decide as Hd.
    + subst. exists np'. split_and!; [done..|]. simpl. split_and!; [done|lia|]. exists n1.
      rewrite G3, decide_False, decide_True by lia. split; [done|]. apply Hch; [by apply Hk|done].
    + destruct (tr_node _ _ _ Ht i) as (n & Hg & Hs & Hn'); [lia|]. exists n. split_and!; [done..|].
      apply Hch; [apply Hk; lia|done].
  - intros i c Hi. destruct (decide (i = idx)) as [->|Hne]; [rewrite K3i; by intros ?%not_elem_of_nil|].
    rewrite K3 by lia. case_decide; [subst; intros [->|Hc']%elem_of_cons; [lia|]|intros Hc'];
      (apply (tr_kids _ _ _ Ht) in Hc'; lia).
  - intros i Hi. destruct (decide (i = idx)) as [->|Hne]; [rewrite K3i; apply NoDup_nil_2|].
    pose proof (tr_names _ _ _ Ht i ltac:(lia)) as Hnd. rewrite K3 by lia.
    case_decide; [|cbn; by rewrite M4 by lia]. subst. cbn. rewrite M4, fn_lookup_insert by lia.
    apply NoDup_cons. split; [by apply first_named_None in E|done].
  - intros i j c Hi Hj. destruct (decide (i = idx)) as [->|]; [rewrite K3i; by intros ?%not_elem_of_nil|].
    destruct (decide (j = idx)) as [->|]; [rewrite K3i; by intros _ ?%not_elem_of_nil|].
    rewrite !K3 by lia. pose proof (tr_parent _ _ _ Ht i j c). pose proof (Hk i ltac:(lia) c). pose proof (Hk j ltac:(lia) c).
    repeat case_decide; rewrite ?elem_of_cons; subst; naive_solver lia.
Qed.

End tree.
