(* ===== verification/TarPath.v ===== *)
(** * Paths in the initrd

    [insert_path] against a reference: a path is the list of its non-empty
    components, and inserting it adds exactly the missing prefixes as directories
    and stamps the last one. *)

From stdpp Require Import functions.
From S2P Require Import Prelude CString Task Fs Tarfs TarTree.

(** ** Components *)

(** The words between slashes, and the non-empty ones. *)
Fixpoint split_slash (s : list Z) : list (list Z) :=
  match s with
  | [] => [[]]
  | c :: s =>
      if c =? 47 then [] :: split_slash s
      else match split_slash s with
           | w :: r => (c :: w) :: r
           | [] => [[c]]
           end
  end.

Definition is_word (w : list Z) : bool := match w with [] => false | _ => true end.

Definition comps (s : list Z) : list (list Z) := List.filter is_word (split_slash s).

Definition no_slash (w : list Z) : Prop := Forall (λ c, c ≠ 47) w.

Lemma comps_slash s : comps (47 :: s) = comps s.
Proof. done. Qed.

Lemma split_word w rest :
  no_slash w → (rest = [] ∨ ∃ r, rest = 47 :: r) →
  split_slash (w ++ rest) = w :: tail (split_slash rest).
Proof.
  intros Hw Hr. induction Hw as [|c w Hc Hw IH]; simpl.
  - by destruct Hr as [->|[r ->]].
  - rewrite (proj2 (Z.eqb_neq c 47)) by done. by rewrite IH.
Qed.

Lemma comps_word w rest :
  no_slash w → w ≠ [] → (rest = [] ∨ ∃ r, rest = 47 :: r) → comps (w ++ rest) = w :: comps rest.
Proof.
  intros Hw Hne Hr. unfold comps. rewrite split_word by done. destruct w as [|c w]; [done|]. cbn.
  f_equal. destruct Hr as [->|[r ->]]; done.
Qed.

(** A string is a slash-free word and the rest. *)
Lemma word_split s : ∃ w rest, s = w ++ rest ∧ no_slash w ∧ (rest = [] ∨ ∃ r, rest = 47 :: r).
Proof.
  induction s as [|c s (w & rest & -> & Hw & Hr)].
  - exists [], []. split_and!; [done|constructor|by left].
  - destruct (decide (c = 47)) as [->|Hc].
    + exists [], (47 :: w ++ rest). split_and!; [done|constructor|right; by eexists].
    + exists (c :: w), rest. split_and!; [done|by constructor|done].
Qed.

Lemma skip_slashes_spec s tl :
  ∃ s', skip_slashes (s ++ 0 :: tl) = s' ++ 0 :: tl ∧ comps s' = comps s ∧ (length s' ≤ length s)%nat ∧
    head s' ≠ Some 47 ∧ (no_nul s → no_nul s').
Proof.
  induction s as [|c s IH]; simpl.
  - exists []. done.
  - destruct (Z.eqb_spec c 47) as [->|Hc].
    + destruct IH as (s' & E & Hcs & Hl & Hh & Hn). exists s'. rewrite comps_slash.
      split_and!; [done..|lia|done|]. intros [_ ?]%Forall_cons. by apply Hn.
    + exists (c :: s). split_and!; [done..|naive_solver|done].
Qed.

Lemma copy_component_spec room w rest tl :
  no_slash w → no_nul w → (length w < room)%nat → (rest = [] ∨ ∃ r, rest = 47 :: r) →
  copy_component room (w ++ rest ++ 0 :: tl) = Ok (w, rest ++ 0 :: tl).
Proof.
  intros Hw Hn. revert room. induction Hw as [|c w Hc Hw IH]; intros room Hl Hr.
  - destruct room as [|room]; [simpl in Hl; lia|]. destruct Hr as [->|[r ->]]; done.
  - inversion Hn as [|? ? Hc0 Hn']; subst. destruct room as [|room]; [simpl in Hl; lia|].
    cbn [app copy_component]. rewrite (proj2 (Z.eqb_neq c 0)), (proj2 (Z.eqb_neq c 47)) by done.
    cbn [orb]. rewrite IH; [done|done|simpl in Hl; lia|done].
Qed.

(** ** Resolution *)

Section resolve.
Implicit Types (st : TarState) (kids : Z → list Z) (nm : Z → list Z).

Lemma resolve_app kids nm p l1 l2 :
  resolve kids nm p (l1 ++ l2) = (i ← resolve kids nm p l1; resolve kids nm i l2).
Proof.
  revert p. induction l1 as [|c l1 IH]; intros p; [done|]. simpl.
  destruct (first_named nm c (kids p)); simpl; [apply IH|done].
Qed.

Lemma resolve_bounds st kids nm p ds i :
  tree_ok st kids nm → 0 ≤ p < num_nodes st → resolve kids nm p ds = Some i →
  p ≤ i < num_nodes st ∧ (ds ≠ [] → p < i).
Proof.
  intros Ht. revert p. induction ds as [|c ds IH]; intros p Hp; simpl; [intros [= <-]; split; [lia|done]|].
  destruct (first_named nm c (kids p)) as [q|] eqn:E; simpl; [|done]. intros Hr.
  apply first_named_Some in E as [Hq _]. pose proof (tr_kids _ _ _ Ht _ _ Hp Hq).
  apply IH in Hr; [|lia]. split; [lia|]. intros _. lia.
Qed.

(** A node has one path from the root. *)
Lemma resolve_inj st kids nm ds1 ds2 i :
  tree_ok st kids nm → resolve kids nm 0 ds1 = Some i → resolve kids nm 0 ds2 = Some i → ds1 = ds2.
Proof.
  intros Ht. pose proof (tr_num _ _ _ Ht) as [Hn _]. revert ds2 i.
  induction ds1 as [|c1 ds1 IH] using rev_ind; intros ds2 i.
  - simpl. intros [= <-] H2. destruct (resolve_bounds st kids nm 0 ds2 0 Ht) as [_ Hb]; [lia|done|].
    destruct ds2; [done|]. by assert (0 < 0) by (by apply Hb).
  - intros H1. destruct ds2 as [|c2 ds2 _] using rev_ind.
    { simpl. intros [= <-]. destruct (resolve_bounds st kids nm 0 (ds1 ++ [c1]) 0 Ht) as [_ Hb]; [lia|done|].
      assert (0 < 0) by (apply Hb; by destruct ds1). lia. }
    intros H2. rewrite resolve_app in H1, H2.
    destruct (resolve kids nm 0 ds1) as [p1|] eqn:E1; simpl in H1; [|done].
    destruct (resolve kids nm 0 ds2) as [p2|] eqn:E2; simpl in H2; [|done].
    destruct (first_named nm c1 (kids p1)) as [i1|] eqn:F1; simpl in H1; [|done].
    destruct (first_named nm c2 (kids p2)) as [i2|] eqn:F2; simpl in H2; [|done]. simplify_eq.
    apply first_named_Some in F1 as [K1 N1], F2 as [K2 N2].
    destruct (resolve_bounds st kids nm 0 ds1 p1 Ht ltac:(lia) E1), (resolve_bounds st kids nm 0 ds2 p2 Ht ltac:(lia) E2).
    assert (p1 = p2) as <- by (eapply (tr_parent _ _ _ Ht); [lia|lia|done|done]).
    rewrite (IH ds2 p1) by done. congruence.
Qed.

(** Paths in the tree with one more child. *)
Lemma first_named_add st kids nm p comp c q :
  tree_ok st kids nm → 0 ≤ p < num_nodes st → 0 ≤ q < num_nodes st → first_named nm comp (kids p) = None →
  first_named (<[num_nodes st := comp]> nm) c (add_kid kids p (num_nodes st) q) =
    if decide (q = p ∧ c = comp) then Some (num_nodes st) else first_named nm c (kids q).
Proof.
  intros Ht Hp Hq Hn. assert (∀ l, (∀ x, x ∈ l → x ≠ num_nodes st) →
    first_named (<[num_nodes st:=comp]> nm) c l = first_named nm c l) as Hx.
  { intros l Hl. apply first_named_ext. intros x ?%Hl. by rewrite fn_lookup_insert_ne. }
  assert (∀ q, 0 ≤ q < num_nodes st → ∀ x, x ∈ kids q → x ≠ num_nodes st) as Hk.
  { intros r Hr x Hin. pose proof (tr_kids _ _ _ Ht _ _ Hr Hin). lia. }
  unfold add_kid. destruct (decide (q = p)) as [->|Hne].
  - rewrite fn_lookup_insert. cbn [first_named]. rewrite fn_lookup_insert, Hx by (by apply Hk).
    destruct (decide (c = comp)) as [->|Hc].
    + by rewrite !decide_True by done.
    + rewrite decide_False by naive_solver. by rewrite decide_False by naive_solver.
  - rewrite fn_lookup_insert_ne by done. rewrite fn_lookup_insert_ne by lia.
    rewrite Hx by (by apply Hk). by rewrite decide_False by naive_solver.
Qed.

Lemma resolve_add_old st kids nm p comp q ds j :
  tree_ok st kids nm → 0 ≤ p < num_nodes st → 0 ≤ q < num_nodes st → first_named nm comp (kids p) = None →
  resolve kids nm q ds = Some j →
  resolve (add_kid kids p (num_nodes st)) (<[num_nodes st := comp]> nm) q ds = Some j.
Proof.
  intros Ht Hp Hq Hn. revert q Hq. induction ds as [|c ds IH]; intros q Hq; simpl; [done|].
  erewrite first_named_add by done. case_decide as Hd.
  - destruct Hd as [-> ->]. by rewrite Hn.
  - destruct (first_named nm c (kids q)) as [r|] eqn:E; simpl; [|done]. apply IH.
    apply first_named_Some in E as [E _]. pose proof (tr_kids _ _ _ Ht _ _ Hq E). lia.
Qed.

Lemma resolve_add_new st kids nm p comp q ds j :
  tree_ok st kids nm → 0 ≤ p < num_nodes st → 0 ≤ q < num_nodes st → first_named nm comp (kids p) = None →
  resolve (add_kid kids p (num_nodes st)) (<[num_nodes st := comp]> nm) q ds = Some j →
  resolve kids nm q ds = Some j ∨
  ∃ ds1, ds = ds1 ++ [comp] ∧ resolve kids nm q ds1 = Some p ∧ j = num_nodes st.
Proof.
  intros Ht Hp Hq Hn. revert q Hq. induction ds as [|c ds IH]; intros q Hq; simpl; [by left|].
  erewrite first_named_add by done. case_decide as Hd; simpl.
  - destruct Hd as [-> ->]. intros Hr. right. exists []. destruct ds as [|c ds]; simpl in Hr; [by simplify_eq|].
    unfold add_kid in Hr. rewrite fn_lookup_insert_ne in Hr by lia. by rewrite fn_lookup_insert in Hr.
  - destruct (first_named nm c (kids q)) as [r|] eqn:E; simpl; [|done]. intros Hr.
    apply IH in Hr as [Hr|(ds1 & -> & Hr & Hj)]; [by left| |].
    + right. exists (c :: ds1). simpl. by rewrite E.
    + apply first_named_Some in E as [E _]. pose proof (tr_kids _ _ _ Ht _ _ Hq E). lia.
Qed.

End resolve.

(** ** Insertion *)

Section insert.
Implicit Types (st : TarState) (kids : Z → list Z) (nm : Z → list Z).

(** From one tree to a later one: old paths lead where they did, and new ones are
    prefixes of [full] and lead to new nodes. *)
Record grown (full : list (list Z)) st kids nm st' kids' nm' : Prop := {
  gr_num : num_nodes st ≤ num_nodes st';
  gr_cap : cap_nodes st' = cap_nodes st;
  gr_base : base st' = base st;
  gr_old ds j : resolve kids nm 0 ds = Some j → resolve kids' nm' 0 ds = Some j;
  gr_new ds j : resolve kids' nm' 0 ds = Some j →
    resolve kids nm 0 ds = Some j ∨ (num_nodes st ≤ j ∧ ds `prefix_of` full);
}.

Lemma grown_refl full st kids nm : grown full st kids nm st kids nm.
Proof. split; naive_solver lia. Qed.

Lemma grown_trans full s1 k1 n1 s2 k2 n2 s3 k3 n3 :
  grown full s1 k1 n1 s2 k2 n2 → grown full s2 k2 n2 s3 k3 n3 → grown full s1 k1 n1 s3 k3 n3.
Proof.
  intros [A1 A2 A3 A4 A5] [B1 B2 B3 B4 B5]. split; [lia|congruence|congruence|auto|].
  intros ds j Hr. apply B5 in Hr as [Hr|[? ?]]; [by apply A5|]. right. split; [lia|done].
Qed.

(** One component: the child exists, is created, or there is no room. *)
Lemma child_step st kids nm done_ p comp rest :
  tree_ok st kids nm → resolve kids nm 0 done_ = Some p → name_ok comp →
  ∃ st' kids' nm' c, get_or_create_child st p (comp ++ [0]) = Ok (st', c) ∧ tree_ok st' kids' nm' ∧
    grown (done_ ++ comp :: rest) st kids nm st' kids' nm' ∧ num_nodes st' ≤ num_nodes st + 1 ∧
    (∀ j, j < num_nodes st → attr st' j = attr st j) ∧
    (∀ j, num_nodes st ≤ j < num_nodes st' → attr st' j = Some (true, 0, 0)) ∧
    ((c = -1 ∧ num_nodes st = cap_nodes st) ∨
     (c ≠ -1 ∧ 0 ≤ c < num_nodes st' ∧ resolve kids' nm' 0 (done_ ++ [comp]) = Some c)).
Proof.
  intros Ht Hp Hc. pose proof (tr_num _ _ _ Ht) as [Hn _].
  destruct (resolve_bounds st kids nm 0 done_ p Ht ltac:(lia) Hp) as [Hpb _].
  pose proof (get_or_create_spec st kids nm p comp Ht ltac:(lia) Hc) as Hg.
  destruct (first_named nm comp (kids p)) as [c|] eqn:E.
  - exists st, kids, nm, c. pose proof E as E'. apply first_named_Some in E as [E _].
    pose proof (tr_kids _ _ _ Ht p c ltac:(lia) E).
    split_and!; try done; [apply grown_refl|lia|lia|right; split_and!; [lia..|]].
    rewrite resolve_app, Hp. simpl. by rewrite E'.
  - destruct Hg as [[Hcap Hg]|(st' & Hcap & Hg & Ht' & N & C & B & Ai & Ao)].
    { exists st, kids, nm, (-1). split_and!; try done; [apply grown_refl|lia|lia|by left]. }
    exists st', (add_kid kids p (num_nodes st)), (<[num_nodes st := comp]> nm), (num_nodes st).
    split_and!; try done; [|lia|intros j Hj; apply Ao; lia|intros j Hj; by replace j with (num_nodes st) by lia|right; split_and!; [lia..|]].
    + split; [lia|done|done|..].
      * intros ds j. apply (resolve_add_old st); done || lia.
      * intros ds j Hr. apply (resolve_add_new st) in Hr; [|done|lia|lia|done].
        destruct Hr as [Hr|(ds1 & -> & Hr & ->)]; [by left|right]. split; [lia|].
        rewrite (resolve_inj st kids nm ds1 done_ p Ht Hr Hp).
        apply prefix_app, (prefix_cons comp), prefix_nil.
    + rewrite resolve_app, (resolve_add_old st kids nm p comp 0 done_ p) by (done || lia). simpl.
      erewrite first_named_add by (done || lia). by rewrite decide_True.
Qed.

(** Stamping a node changes only its attributes. *)
Lemma put_attr st kids nm i n isd doff sz :
  tree_ok st kids nm → zget (nodes st) i = Some n →
  let n' := MkTarNode (t_name n) isd doff sz (first_child n) (next_sibling n) in
  let st' := with_nodes (<[Z.to_nat i := n']> (nodes st)) st in
  tree_ok st' kids nm ∧ attr st' i = Some (isd, doff, sz) ∧ ∀ j, j ≠ i → attr st' j = attr st j.
Proof.
  intros Ht Hi n' st'.
  assert (∀ j, zget (nodes st') j = if decide (j = i) then Some n' else zget (nodes st) j) as G.
  { intros j. by apply (zget_put st i n' n). }
  assert (∀ cur l, chain st cur l → chain st' cur l) as Hch.
  { intros cur l. apply siblings_ext. intros j m _ Hm. rewrite G. case_decide; [|by exists m].
    subst. exists n'. split; [done|]. simpl. congruence. }
  split; [|split].
  - destruct Ht as [H1 H2 H3 H4 H5 H6]. split; try done.
    + unfold st'. simpl. by rewrite zlen_insert.
    + intros j m. rewrite G. case_decide; [intros [= <-]; exact (H2 i n Hi)|apply H2].
    + intros j Hj. destruct (H3 j Hj) as (m & Hm & Hs & Hc). rewrite G. case_decide.
      * subst. exists n'. simplify_eq. split_and!; [done..|]. by apply Hch.
      * exists m. split_and!; [done..|]. by apply Hch.
  - unfold attr. by rewrite G, decide_True.
  - intros j Hj. unfold attr. by rewrite G, decide_False.
Qed.

Lemma put_attr_node st isd doff sz c :
  c ≠ -1 → (∃ n, zget (nodes st) c = Some n) →
  ∃ n, zget (nodes st) c = Some n ∧
    (n ← get_node st c; put_node st c (MkTarNode (t_name n) isd doff sz (first_child n) (next_sibling n))) =
    Ok (with_nodes (<[Z.to_nat c := MkTarNode (t_name n) isd doff sz (first_child n) (next_sibling n)]> (nodes st)) st).
Proof.
  intros Hc [n Hn]. exists n. split; [done|]. unfold get_node. rewrite Hn. res_step. by erewrite put_node_ok.
Qed.

(** The path leads to a node with these attributes; the other nodes kept theirs,
    and the other new ones are directories. *)
Definition stamped path a st st' kids' nm' : Prop :=
  ∃ i, resolve kids' nm' 0 path = Some i ∧ attr st' i = Some a ∧
    (∀ j, j ≠ i → j < num_nodes st → attr st' j = attr st j) ∧
    (∀ j, j ≠ i → num_nodes st ≤ j < num_nodes st' → attr st' j = Some (true, 0, 0)).

Lemma insert_loop_spec cs st kids nm done_ p s tl isd doff sz fuel :
  tree_ok st kids nm → resolve kids nm 0 done_ = Some p → comps s = cs → cs ≠ [] → no_nul s → Forall name_ok cs →
  head s ≠ Some 47 → (length s < fuel)%nat →
  ∃ st' kids' nm', insert_loop fuel st p (s ++ 0 :: tl) isd doff sz = Ok st' ∧ tree_ok st' kids' nm' ∧
    grown (done_ ++ cs) st kids nm st' kids' nm' ∧ num_nodes st' ≤ num_nodes st + zlen cs ∧
    (num_nodes st + zlen cs ≤ cap_nodes st →
     stamped (done_ ++ cs) (isd, doff, sz) st st' kids' nm').
Proof.
  revert st kids nm done_ p s fuel.
  induction cs as [|comp cs IH]; intros st kids nm done_ p s fuel Ht Hp Hs Hne Hnn Hok Hh Hf; [done|].
  apply Forall_cons in Hok as [Hc Hok].
  destruct (word_split s) as (w & rest & -> & Hw & Hr).
  assert (w ≠ []) as Hw0.
  { intros ->. destruct Hr as [->|[r ->]]; [done|]. by simpl in Hh. }
  rewrite comps_word in Hs by done. injection Hs as -> Hs.
  destruct fuel as [|fuel]; [lia|]. cbn [insert_loop].
  apply Forall_app in Hnn as [Hnw Hnr].
  destruct comp as [|c0 w] eqn:Ew; [done|]. rewrite <-Ew in *.
  assert (zget ((comp ++ rest) ++ 0 :: tl) 0 = Some c0) as -> by by rewrite Ew.
  assert (c0 ≠ 0) as Hc0 by (rewrite Ew in Hnw; by inversion Hnw).
  res_step. rewrite (proj2 (Z.eqb_neq c0 0)) by done. rewrite <-app_assoc.
  rewrite copy_component_spec; [|done|done|destruct Hc as [_ Hc]; unfold zlen in Hc; lia|done]. res_step.
  destruct (skip_slashes_spec rest tl) as (s' & -> & Hcs & Hl & Hh' & Hn').
  assert (zget (s' ++ 0 :: tl) 0 = Some (default 0 (head s'))) as Hz by by destruct s'.
  rewrite Hz. res_step.
  destruct (child_step st kids nm done_ p comp cs Ht Hp Hc)
    as (st1 & kids1 & nm1 & c & -> & Ht1 & G1 & N1 & A1 & D1 & Hcase). res_step.
  destruct Hcase as [[-> Hcap]|(Hc1 & Hcb & Hres)].
  { simpl. exists st1, kids1, nm1. split_and!; try done; unfold zlen; simpl; [lia|].
    intros Hroom. lia. }
  rewrite (proj2 (Z.eqb_neq c (-1))) by done.
  destruct (tr_node _ _ _ Ht1 c Hcb) as (n & Hn & _).
  destruct cs as [|comp2 cs].
  - (* the last component: stamped *)
    assert (s' = []) as ->.
    { destruct s' as [|x s']; [done|]. exfalso. destruct (word_split (x :: s')) as (w' & r' & E & Hw' & Hr').
      rewrite E in Hcs. rewrite comps_word in Hcs; [|done| |done]; [by rewrite Hs in Hcs|].
      intros ->. destruct Hr' as [->|[r'' ->]]; [done|]. simpl in E. by simplify_eq. }
    simpl. destruct (put_attr_node st1 isd doff sz c Hc1) as (n' & Hn1 & ->); [by exists n|]. res_step.
    destruct (put_attr st1 kids1 nm1 c n' isd doff sz Ht1 Hn1) as (Ht2 & Ai & Ao).
    set (st2 := with_nodes _ st1) in *.
    assert (insert_loop fuel st2 c (0 :: tl) isd doff sz = Ok st2) as ->.
    { destruct fuel as [|fuel]; [|done]. rewrite length_app, Ew in Hf. simpl in Hf. lia. }
    exists st2, kids1, nm1. split_and!; [done|done|by destruct G1|unfold zlen; simpl in *; lia|].
    intros _. exists c. split_and!; [done|done|..]; intros j Hj Hjn; rewrite Ao by done; by (apply A1 || apply D1).
  - assert (s' ≠ []) as Hs'0 by (intros ->; by rewrite Hs in Hcs).
    assert (default 0 (head s') ≠ 0) as Hx.
    { destruct s' as [|x s']; [done|]. specialize (Hn' Hnr). by inversion Hn'. }
    rewrite (proj2 (Z.eqb_neq _ 0)) by done. res_step.
    destruct (IH st1 kids1 nm1 (done_ ++ [comp]) c s' fuel) as (st2 & kids2 & nm2 & E & Ht2 & G2 & N2 & Hfin);
      [done|done|by rewrite Hcs|done|by apply Hn'|done|done|rewrite length_app, Ew in Hf; simpl in Hf; lia|].
    rewrite <-app_assoc in G2, Hfin. simpl in G2, Hfin.
    exists st2, kids2, nm2. split_and!; [done|done|by eapply grown_trans|unfold zlen in *; simpl in *; lia|].
    intros Hroom. destruct Hfin as (i & Hi & Ai & Ao).
    { rewrite (gr_cap _ _ _ _ _ _ _ G1). unfold zlen in *. simpl in *. lia. }
    destruct Ao as [Ao Do]. pose proof (gr_num _ _ _ _ _ _ _ G1).
    exists i. split_and!; [done|done|..]; intros j Hj Hjn.
    + rewrite Ao by (done || lia). by apply A1.
    + destruct (decide (j < num_nodes st1)); [rewrite Ao by done; apply D1; lia|]. apply Do; [done|lia].
Qed.

(** The path a name in the archive stands for: a leading "./" is dropped. *)
Definition archive_path (s : list Z) : list (list Z) :=
  comps (match s with 46 :: 47 :: s => s | _ => s end).

Lemma strip_dot_spec s tl :
  strip_dot (s ++ 0 :: tl) = Ok ((match s with 46 :: 47 :: s => s | _ => s end) ++ 0 :: tl).
Proof.
  unfold strip_dot. destruct s as [|c0 s]; [done|]. cbn.
  destruct (Z.eqb_spec c0 46) as [->|H0]; cbn.
  - destruct s as [|c1 s]; [done|]. cbn. destruct (Z.eqb_spec c1 47) as [->|H1]; [done|].
    f_equal. destruct c1 as [|q|q]; try done. do 6 (destruct q as [q|q|]; try done).
  - f_equal. destruct c0 as [|q|q]; try done. do 6 (destruct q as [q|q|]; try done).
Qed.

Lemma insert_path_full st kids nm s tl isd doff sz :
  let path := archive_path s in
  tree_ok st kids nm → no_nul s → Forall name_ok path →
  ∃ st' kids' nm', insert_path st (s ++ 0 :: tl) isd doff sz = Ok st' ∧ tree_ok st' kids' nm' ∧
    grown path st kids nm st' kids' nm' ∧ num_nodes st' ≤ num_nodes st + zlen path ∧
    (path ≠ [] → num_nodes st + zlen path ≤ cap_nodes st →
     stamped path (isd, doff, sz) st st' kids' nm').
Proof.
  intros path Ht Hn Hok. unfold insert_path. rewrite strip_dot_spec. res_step.
  set (s0 := match s with 46 :: 47 :: s => s | _ => s end) in *.
  assert (no_nul s0) as Hn0.
  { unfold s0. repeat case_match; try done; by inversion Hn as [|? ? ? Hn1]; inversion Hn1. }
  destruct (skip_slashes_spec s0 tl) as (s' & -> & Hcs & _ & Hh & Hn'). specialize (Hn' Hn0).
  assert (zget (s' ++ 0 :: tl) 0 = Some (default 0 (head s'))) as -> by by destruct s'. res_step.
  destruct s' as [|x s'].
  { simpl. exists st, kids, nm. split_and!; [done..|apply grown_refl|unfold zlen; lia|]. intros Hp.
    unfold path, archive_path in Hp. fold s0 in Hp. by rewrite <-Hcs in Hp. }
  simpl default. inversion Hn' as [|? ? Hx Hns']; subst. rewrite (proj2 (Z.eqb_neq x 0)) by done.
  destruct (insert_loop_spec path st kids nm [] 0 (x :: s') tl isd doff sz (length ((x :: s') ++ 0 :: tl)))
    as (st' & kids' & nm' & E & Ht' & G & Hnum & Hfin); [done..| | |done|done|rewrite length_app; simpl; lia|].
  { unfold path, archive_path. fold s0. rewrite <-Hcs.
    destruct (word_split (x :: s')) as (w & r & E & Hw & Hr). rewrite E.
    rewrite comps_word; [done|done| |done]. intros ->. destruct Hr as [->|[r' ->]]; [done|]. simpl in E. by simplify_eq. }
  { done. }
  exists st', kids', nm'. split_and!; [done..|]. intros _ Hroom. by apply Hfin.
Qed.

Lemma insert_path_nil st s tl isd doff sz :
  no_nul s → archive_path s = [] → insert_path st (s ++ 0 :: tl) isd doff sz = Ok st.
Proof.
  intros Hn Hnil. unfold insert_path. rewrite strip_dot_spec. res_step. unfold archive_path in Hnil.
  set (s0 := match s with 46 :: 47 :: s => s | _ => s end) in *.
  destruct (skip_slashes_spec s0 tl) as (s' & -> & Hcs & _ & Hh & _).
  destruct s' as [|x s']; [done|]. exfalso. destruct (word_split (x :: s')) as (w & r & E & Hw & Hr).
  rewrite E in Hcs. rewrite comps_word in Hcs; [by rewrite Hnil in Hcs|done| |done].
  intros ->. destruct Hr as [->|[r' ->]]; [done|]. simpl in E. by simplify_eq.
Qed.

(** [insert_path] adds a path to the initrd's tree: every path already there
    leads to the same node, the only new paths are the missing prefixes, and, when
    the array has room, the whole path leads to a node with the entry's kind and
    extent while no other node's attributes change.  Without room the rest of the
    path is dropped.  Repeated and trailing slashes do not matter. *)
Theorem insert_path_resolves st kids nm s tl isd doff sz :
  let path := archive_path s in
  tree_ok st kids nm → no_nul s → Forall name_ok path →
  ∃ st' kids' nm', insert_path st (s ++ 0 :: tl) isd doff sz = Ok st' ∧ tree_ok st' kids' nm' ∧
    grown path st kids nm st' kids' nm' ∧
    (path ≠ [] → num_nodes st + zlen path ≤ cap_nodes st →
     stamped path (isd, doff, sz) st st' kids' nm').
Proof.
  intros path Ht Hn Hok.
  destruct (insert_path_full st kids nm s tl isd doff sz Ht Hn Hok) as (st' & kids' & nm' & E & Ht' & G & _ & F).
  by exists st', kids', nm'.
Qed.

(** The component loop cuts a longer word off. *)
Lemma copy_component_long room w rest :
  no_slash w → no_nul w → (room ≤ length w)%nat → rest ≠ [] →
  copy_component room (w ++ rest) = Ok (take room w, drop room w ++ rest).
Proof.
  intros Hw Hn. revert room. induction Hw as [|c w Hc Hw IH]; intros room Hl Hr; (destruct room as [|room]).
  - by destruct rest.
  - simpl in Hl. lia.
  - done.
  - inversion Hn as [|? ? Hc0 Hn']; subst. cbn [app copy_component].
    rewrite (proj2 (Z.eqb_neq c 0)), (proj2 (Z.eqb_neq c 47)) by done. cbn [orb].
    rewrite IH; [done|done|simpl in Hl; lia|done].
Qed.

(** A path component of 99 characters or more, which the 100-byte name
    buffers have room to cut to size, makes mounting overrun the heap: [strncpy] is
    asked for 99 bytes of a string that has no NUL among them, its counter wraps,
    and it pads with zeros past the end of the node. *)
Theorem long_component_overruns st kids nm c w rest tl isd doff sz :
  tree_ok st kids nm → no_slash (c :: w) → no_nul (c :: w) → 98 ≤ zlen w → c ≠ 46 →
  num_nodes st < cap_nodes st → first_named nm (take 99 (c :: w)) (kids 0) = None →
  insert_path st ((c :: w) ++ rest ++ 0 :: tl) isd doff sz = Fault.
Proof.
  intros Ht Hs Hn Hl Hdot Hroom Hnone. unfold insert_path, strip_dot.
  inversion Hs as [|? ? Hc47 _]; inversion Hn as [|? ? Hc0 _]; subst. cbn [app].
  change (zget (c :: w ++ rest ++ 0 :: tl) 0) with (Some c). res_step. rewrite (proj2 (Z.eqb_neq c 46)) by done.
  cbn [negb]. res_step. cbn [skip_slashes]. rewrite (proj2 (Z.eqb_neq c 47)) by done.
  change (zget (c :: w ++ rest ++ 0 :: tl) 0) with (Some c). res_step. rewrite (proj2 (Z.eqb_neq c 0)) by done.
  cbn [length insert_loop]. change (zget (c :: w ++ rest ++ 0 :: tl) 0) with (Some c). res_step.
  rewrite (proj2 (Z.eqb_neq c 0)) by done.
  change (c :: w ++ rest ++ 0 :: tl) with ((c :: w) ++ rest ++ 0 :: tl).
  rewrite copy_component_long by (done || (simpl; unfold zlen in *; lia) || by destruct rest). res_step.
  destruct (or_fault _) as [c1| | |] eqn:E1; [|by destruct (zget _ _)|done|by destruct (zget _ _)]. res_step. clear E1.
  unfold get_or_create_child. pose proof (tr_num _ _ _ Ht) as [Hnum _].
  assert (no_nul (take 99 (c :: w))) as Hn99 by by apply Forall_take.
  erewrite find_child_spec by (done || lia). res_step. rewrite Hnone. cbn [default negb Z.eqb].
  destruct (alloc_node_spec st kids nm Ht) as [[? _]|(st1 & b & _ & -> & _ & _ & _ & _ & G1 & Hb & _)]; [lia|].
  res_step. rewrite (proj2 (Z.eqb_neq (num_nodes st) (-1))) by lia. unfold get_node. rewrite G1. res_step. cbn [t_name].
  unfold strncpy. assert (zlen (take 99 (c :: w)) = 99) as L99 by (unfold zlen in *; rewrite length_take, length_cons; lia).
  destruct (strncpy_copy_long b (take 99 (c :: w) ++ [0]) (NAME_LEN - 1)) as [->|(u & r & -> & Hr)]; [| |done|].
  - unfold NAME_LEN, zlen in *. rewrite length_app. simpl length at 2. lia.
  - change (Z.to_nat (NAME_LEN - 1)) with 99%nat. rewrite take_app_le by (unfold zlen in L99; lia). by apply Forall_take.
  - res_step. rewrite strncpy_pad_overrun; [done|]. unfold NAME_LEN in *. lia.
Qed.

End insert.

(** ** Concrete runs *)

(** The tree with only a root, and room for seven nodes. *)
Definition sample_tree : TarState :=
  MkTarState [] (MkTarNode (replicate 100 0) true 0 0 (-1) (-1) :: replicate 7 (MkTarNode (replicate 100 7) false 9 9 9 9)) 1 8.

Lemma sample_tree_ok : tree_ok sample_tree (λ _, []) (λ _, []).
Proof.
  split.
  - by vm_compute.
  - intros i n [_ Hi%list_elem_of_lookup_2]%zget_Some. 
    assert (Forall (λ n, zlen (t_name n) = NAME_LEN) (nodes sample_tree)) as Hf by (repeat constructor).
    rewrite Forall_forall in Hf. by apply Hf.
  - intros i Hi. assert (i = 0) as -> by (change (0 ≤ i < 1) in Hi; lia). by eexists.
  - by intros i c _ ?%not_elem_of_nil.
  - intros i _. apply NoDup_nil_2.
  - by intros i j c _ _ ?%not_elem_of_nil.
Qed.

(** "./bin//sh" *)
Lemma insert_path_resolves_witness :
  ∃ st' kids' nm' i, insert_path sample_tree ([46; 47; 98; 105; 110; 47; 47; 115; 104] ++ [0]) false 512 3 = Ok st' ∧
    resolve kids' nm' 0 [[98; 105; 110]; [115; 104]] = Some i ∧ attr st' i = Some (false, 512, 3).
Proof.
  destruct (insert_path_resolves sample_tree (λ _, []) (λ _, []) [46; 47; 98; 105; 110; 47; 47; 115; 104] [] false 512 3)
    as (st' & kids' & nm' & E & _ & _ & F).
  - exact sample_tree_ok.
  - repeat constructor; done.
  - repeat (apply Forall_cons; split); [split; [repeat constructor; done|done]..|apply Forall_nil; done].
  - destruct F as (i & Hi & Ai & _ & _); [done|done|]. exists st', kids', nm', i. done.
Defined.

Lemma long_component_overruns_witness :
  insert_path sample_tree (replicate 120 97 ++ [] ++ [0]) false 512 3 = Fault.
Proof.
  apply (long_component_overruns sample_tree (λ _, []) (λ _, []) 97 (replicate 119 97) [] []);
    [exact sample_tree_ok|apply (Forall_replicate _ 120); done|apply (Forall_replicate _ 120); done|done..].
Defined.
