(* ===== verification/TarMount.v ===== *)
(** * Mounting an archive

    The entries of an archive by a reference parser, and what mounting makes of
    them: it always terminates, the node array holds a tree, and each entry's path
    leads to its contents. *)

From stdpp Require Import functions.
From S2P Require Import Prelude CString Task Fs Tarfs TarTree TarPath BumpEnv.

(** ** Names in headers *)

(** The bytes of a fixed-size field before its NUL, if it has one. *)
Fixpoint until_nul (l : list Z) : list Z :=
  match l with
  | [] => []
  | c :: l => if c =? 0 then [] else c :: until_nul l
  end.

Lemma until_nul_no_nul l : no_nul (until_nul l).
Proof. induction l as [|c l IH]; simpl; [constructor|]. case_cmp; constructor; done. Qed.

Lemma until_nul_prefix l : ∃ r, l = until_nul l ++ r.
Proof.
  induction l as [|c l [r Hr]]; simpl; [by exists []|].
  case_cmp; [by eexists|]. exists r. simpl. by f_equal.
Qed.

Lemma strnlen_field l n :
  (n ≤ length l)%nat → strnlen l (Z.of_nat n) = Ok (zlen (until_nul (take n l))).
Proof.
  unfold zlen. revert l. induction n as [|n IH]; intros l Hl.
  - by destruct l.
  - destruct l as [|c l]; simpl in Hl; [lia|]. cbn [strnlen]. rewrite (proj2 (Z.leb_gt _ _)) by lia.
    cbn [take until_nul]. case_cmp; [done|]. replace (Z.of_nat (S n) - 1) with (Z.of_nat n) by lia.
    rewrite IH by lia. simpl. f_equal. lia.
Qed.

(** The name POSIX gives an entry: the prefix (155 bytes at 345), a slash and the name
    (100 bytes at 0). *)
Definition ustar_name (bs : list Z) (offset : Z) : list Z :=
  let prefix := until_nul (take 155 (drop (Z.to_nat (offset + 345)) bs)) in
  let name := until_nul (take 100 (drop (Z.to_nat (offset + 0)) bs)) in
  match prefix with [] => name | _ => prefix ++ 47 :: name end.

Lemma until_nul_length n l : zlen (until_nul (take n l)) ≤ Z.of_nat n.
Proof.
  destruct (until_nul_prefix (take n l)) as [r Hr]. apply (f_equal length) in Hr.
  rewrite length_app, length_take in Hr. unfold zlen. lia.
Qed.

Lemma take_until_nul n l : take (Z.to_nat (zlen (until_nul (take n l)))) l = until_nul (take n l).
Proof.
  destruct (until_nul_prefix (take n l)) as [r Hr]. unfold zlen. rewrite Nat2Z.id.
  set (w := until_nul (take n l)) in *. assert (length w ≤ n)%nat.
  { apply (f_equal length) in Hr. rewrite length_app, length_take in Hr. lia. }
  rewrite <-(take_drop n l), Hr at 1. rewrite <-app_assoc, take_app_length. done.
Qed.

Lemma build_full_path_spec bs offset :
  0 ≤ offset → offset + 512 ≤ zlen bs → zlen (ustar_name bs offset) ≤ 255 →
  ∃ buf tl, build_full_path bs offset (replicate 256 0) 256 = Ok buf ∧ buf = ustar_name bs offset ++ 0 :: tl.
Proof.
  intros Ho Hl Hfit. unfold build_full_path, ustar_name in *. remember (replicate 256 0) as buf0 eqn:Eb.
  assert (zlen buf0 = 256) as L256 by by rewrite Eb.
  change (drop (Z.to_nat (offset + 345)) bs) with (hdr_ptr bs offset HDR_PREFIX) in *.
  change (drop (Z.to_nat (offset + 0)) bs) with (hdr_ptr bs offset HDR_NAME) in *.
  set (pp := hdr_ptr bs offset HDR_PREFIX) in *. set (np := hdr_ptr bs offset HDR_NAME) in *.
  assert (155 ≤ length pp ∧ 100 ≤ length np)%nat as [Lp Ln].
  { unfold pp, np, hdr_ptr, HDR_PREFIX, HDR_NAME, zlen in *. rewrite !length_drop. lia. }
  change 155 with (Z.of_nat 155). change 100 with (Z.of_nat 100).
  rewrite !strnlen_field by lia. res_step.
  pose proof (until_nul_length 155 pp). pose proof (until_nul_length 100 np).
  pose proof (take_until_nul 155 pp) as Tp. pose proof (take_until_nul 100 np) as Tn.
  set (pre := until_nul (take 155 pp)) in *. set (nme := until_nul (take 100 np)) in *.
  clearbody pre nme. destruct (decide (pre = [])) as [->|Epre].
  - simpl. res_step. change (256 - 1 - 0) with 255. change (u64 255) with 255.
    rewrite (proj2 (Z.ltb_lt _ 255)) by lia.
    rewrite memcpy_ok; [|lia|lia|unfold zlen; lia|unfold zlen in *; lia|rewrite L256; unfold zlen in *; lia].
    res_step. change (Z.to_nat 0) with 0%nat. rewrite drop_0, take_0, app_nil_l, Tn.
    rewrite Z.add_0_l, Nat.add_0_l. unfold zlen. rewrite Nat2Z.id, Eb, drop_replicate.
    destruct (256 - length nme)%nat as [|k] eqn:Ek; [unfold zlen in *; lia|].
    exists (nme ++ 0 :: replicate k 0), (replicate k 0). split; [|done]. simpl replicate.
    rewrite zset_is by (unfold zlen; rewrite length_app; simpl; lia).
    rewrite Nat2Z.id, insert_app_r_alt, Nat.sub_diag by lia. done.
  - assert (match pre with [] => nme | _ => pre ++ 47 :: nme end = pre ++ 47 :: nme) as -> by by destruct pre.
    assert (0 < zlen pre) by (unfold zlen; destruct pre; [done|simpl; lia]).
    assert (zlen pre + 1 + zlen nme ≤ 255) as Hfit'.
    { destruct pre as [|c pre]; [done|]. change (zlen ((c :: pre) ++ 47 :: nme) ≤ 255) in Hfit. unfold zlen in *.
      rewrite length_app in Hfit. simpl in *. lia. }
    clear Hfit.
    rewrite (proj2 (Z.ltb_lt 0 (zlen pre))) by lia. rewrite (proj2 (Z.ltb_lt (zlen pre) (256 - 1))) by lia.
    rewrite memcpy_ok; [|lia|lia|lia|unfold zlen in *; lia|rewrite L256; unfold zlen in *; lia].
    res_step. change (Z.to_nat 0) with 0%nat. rewrite drop_0, take_0, app_nil_l, Tp, Nat.add_0_l.
    rewrite Eb, drop_replicate. assert (Z.to_nat (zlen pre) = length pre) as -> by (unfold zlen; lia).
    destruct (256 - length pre)%nat as [|k] eqn:Ek; [unfold zlen in *; lia|]. simpl replicate.
    rewrite zset_is by (unfold zlen; rewrite length_app; simpl; lia). res_step.
    assert (Z.to_nat (zlen pre) = length pre) as -> by (unfold zlen; lia).
    rewrite insert_app_r_alt, Nat.sub_diag by lia. cbn [list_insert insert].
    change (<[0%nat:=47]> (0 :: replicate k 0)) with (47 :: replicate k 0).
    rewrite (proj2 (Z.ltb_lt (zlen pre) (256 - 1))) by lia. res_step.
    rewrite u64_small by (unfold is_u64; lia). 
    assert ((if zlen nme <? 256 - 1 - (zlen pre + 1) then zlen nme else 256 - 1 - (zlen pre + 1)) = zlen nme) as -> by (case_cmp; lia).
    rewrite memcpy_ok; [|lia|lia|unfold zlen; lia|unfold zlen in *; lia|
      unfold zlen in *; rewrite length_app; simpl; rewrite length_replicate; lia].
    change (Z.to_nat 0) with 0%nat. rewrite drop_0, Tn. res_step.
    assert (Z.to_nat (zlen pre + 1) = S (length pre)) as Hp1 by (unfold zlen; lia).
    assert (Z.to_nat (zlen nme) = length nme) as Hn1 by (unfold zlen; lia).
    rewrite Hp1, Hn1.
    assert (take (S (length pre)) (pre ++ 47 :: replicate k 0) = pre ++ [47]) as ->.
    { rewrite take_app_ge by lia. replace (S (length pre) - length pre)%nat with 1%nat by lia. done. }
    assert (drop (S (length pre) + length nme) (pre ++ 47 :: replicate k 0) = replicate (k - length nme) 0) as ->.
    { rewrite drop_app_ge by lia. replace (S (length pre) + length nme - length pre)%nat with (S (length nme)) by lia.
      cbn [drop]. by rewrite drop_replicate. }
    destruct (k - length nme)%nat as [|k'] eqn:Ek'; [unfold zlen in *; lia|].
    exists ((pre ++ 47 :: nme) ++ 0 :: replicate k' 0), (replicate k' 0). split; [|done].
    rewrite zset_is by (unfold zlen; rewrite !length_app; simpl; lia). cbn [or_fault]. f_equal.
    rewrite app_assoc. replace (Z.to_nat (zlen pre + 1 + zlen nme)) with (length ((pre ++ [47]) ++ nme))
      by (unfold zlen; rewrite !length_app; simpl; lia).
    rewrite insert_app_r_alt, Nat.sub_diag by lia. rewrite <-!app_assoc. done.
Qed.

(** ** Sizes in headers *)

(** The octal digits a field starts with, and the number they write. *)
Fixpoint octal_digits (field : list Z) : list Z :=
  match field with
  | c :: field => if decide (48 ≤ c ≤ 55) then c - 48 :: octal_digits field else []
  | [] => []
  end.

Definition octal_value (field : list Z) : Z := foldl (λ v d, 8 * v + d) 0 (octal_digits field).

(** The size in the header at [offset]: the 12 bytes at 124. *)
Definition ustar_size (bs : list Z) (offset : Z) : Res Z :=
  f ← or_fault (slice bs (offset + 124) 12); Ok (octal_value f).

(** The code's shifting parser finds the number, and it fits. *)
Lemma parse_octal_loop_value field v k :
  0 ≤ v < 2 ^ (3 * k) → 0 ≤ k → k + zlen field ≤ 20 →
  parse_octal_loop field v = foldl (λ v d, 8 * v + d) v (octal_digits field) ∧
  0 ≤ parse_octal_loop field v < 2 ^ (3 * (k + zlen field)).
Proof.
  unfold zlen. revert v k. induction field as [|c field IH]; intros v k Hv Hk Hl; cbn [parse_octal_loop octal_digits length foldl] in *.
  - by rewrite Z.add_0_r.
  - assert (2 ^ (3 * k) ≤ 2 ^ (3 * (k + Z.of_nat (S (length field))))) by (apply Z.pow_le_mono_r; lia).
    destruct ((c <? 48) || (55 <? c)) eqn:E; bool_arith; [rewrite decide_False by lia; simpl; split; [done|lia]..|].
    rewrite decide_True by lia.
    assert (2 ^ (3 * (k + 1)) = 8 * 2 ^ (3 * k)) as E8.
    { replace (3 * (k + 1)) with (3 + 3 * k) by lia. by rewrite Z.pow_add_r by lia. }
    assert (2 ^ (3 * (k + 1)) ≤ 2 ^ 60) by (apply Z.pow_le_mono_r; lia).
    rewrite Z.shiftl_mul_pow2, u64_small by (unfold is_u64; lia).
    rewrite (lor_low_high (c - 48) (v * 2 ^ 3) 3) by (lia || (rewrite Z.mod_mul; lia)).
    replace (k + Z.of_nat (S (length field))) with ((k + 1) + Z.of_nat (length field)) by lia.
    cbn [foldl]. replace (8 * v + (c - 48)) with (v * 2 ^ 3 + (c - 48)) by lia.
    apply IH; lia.
Qed.

Lemma ustar_size_ok bs offset es :
  ustar_size bs offset = Ok es → entry_size_of bs offset = Ok es ∧ 0 ≤ es < 2 ^ 36.
Proof.
  unfold ustar_size, entry_size_of, HDR_SIZE. intros H. res_inv. rewrite Ha. res_step. simplify_eq. apply slice_length in Ha.
  destruct (parse_octal_loop_value a 0 0) as [E B]; [lia|lia|lia|]. rewrite Ha in B. unfold octal_value. rewrite <-E. done.
Qed.

Lemma ustar_size_total bs offset : 0 ≤ offset → offset + 512 ≤ zlen bs → ∃ es, ustar_size bs offset = Ok es.
Proof.
  intros. unfold ustar_size. destruct (slice_is_Some bs (offset + 124) 12) as [f ->]; [lia..|]. by eexists.
Qed.

(** ** Entries *)

Record entry := MkEntry { e_name : list Z; e_dir : bool; e_off : Z; e_size : Z }.

Definition e_path (e : entry) : list (list Z) := archive_path (e_name e).

(** The entry whose header is at [offset]: a directory has no contents. *)
Definition entry_at (bs : list Z) (offset es tf : Z) : entry :=
  let isd := tf =? 53 in
  MkEntry (ustar_name bs offset) isd (if isd then 0 else u32 (offset + 512)) (if isd then 0 else u32 es).

(** The reference parser: headers follow each other, each with its contents
    rounded up to whole blocks, until an empty name or the end. *)
Fixpoint archive_entries (fuel : nat) (bs : list Z) (offset : Z) : Res (list entry) :=
  match fuel with
  | O => NoFuel
  | S fuel =>
      if zlen bs <? offset + 512 then Ok [] else
      c ← or_fault (zget bs offset);
      if c =? 0 then Ok [] else
      es ← ustar_size bs offset;
      tf ← or_fault (zget bs (offset + 156));
      l ← archive_entries fuel bs (offset + 512 + (es + 511) / 512 * 512);
      Ok (entry_at bs offset es tf :: l)
  end.

Definition e_good (e : entry) : Prop := zlen (e_name e) ≤ 255 ∧ Forall name_ok (e_path e).

Definition total_comps (l : list entry) : Z := foldr (λ e n, zlen (e_path e) + n) 0 l.

Lemma total_comps_nonneg l : 0 ≤ total_comps l.
Proof. induction l; simpl; [lia|]. unfold zlen. lia. Qed.

Lemma next_entry_eq offset es :
  0 ≤ offset ≤ 2 ^ 60 → 0 ≤ es < 2 ^ 36 →
  next_entry offset es = offset + 512 + (es + 511) / 512 * 512 ∧ 0 ≤ (es + 511) / 512 * 512 ≤ 2 ^ 36 + 512.
Proof.
  intros Ho He. pose proof (Z.div_mod (es + 511) 512). pose proof (Z.mod_pos_bound (es + 511) 512).
  unfold next_entry. rewrite (u64_small (es + 511)) by (unfold is_u64; lia).
  rewrite (u64_small (_ * _)) by (unfold is_u64; lia). rewrite (u64_small (512 + _)) by (unfold is_u64; lia).
  rewrite u64_small by (unfold is_u64; lia). lia.
Qed.

(** An archive always has a list of entries: its walk ends. *)
Lemma archive_entries_total fuel bs offset :
  zlen bs ≤ 2 ^ 40 → 0 ≤ offset → (Z.to_nat ((zlen bs - offset) / 512) < fuel)%nat →
  ∃ l, archive_entries fuel bs offset = Ok l.
Proof.
  intros Hb. revert offset. induction fuel as [|fuel IH]; intros offset Ho Hf; [lia|].
  cbn [archive_entries]. destruct (Z.ltb_spec (zlen bs) (offset + 512)); [by eexists|].
  destruct (zget_is_Some bs offset) as [c ->]; [lia|]. res_step. case_cmp; [by eexists|].
  destruct (ustar_size_total bs offset Ho) as [es Hes]; [lia|]. rewrite Hes. res_step.
  destruct (zget_is_Some bs (offset + 156)) as [tf ->]; [lia|]. res_step.
  apply ustar_size_ok in Hes as [_ Hes].
  destruct (next_entry_eq offset es) as [_ ?]; [lia|lia|].
  destruct (IH (offset + 512 + (es + 511) / 512 * 512)) as [l ->]; [lia| |by eexists].
  assert ((zlen bs - (offset + 512 + (es + 511) / 512 * 512)) / 512 ≤ (zlen bs - offset) / 512 - 1); [|].
  { replace ((zlen bs - offset) / 512 - 1) with ((zlen bs - offset + (-1) * 512) / 512) by (rewrite Z.div_add by lia; lia).
    apply Z.div_le_mono; lia. }
  assert (0 < (zlen bs - offset) / 512) by (apply Z.div_str_pos; lia). lia.
Qed.

Lemma count_entries_spec fuel bs offset n l :
  zlen bs ≤ 2 ^ 40 → 0 ≤ offset ≤ 2 ^ 41 → archive_entries fuel bs offset = Ok l →
  count_entries_loop fuel bs (zlen bs) offset n = Ok (n + zlen l).
Proof.
  intros Hb. revert offset n l. induction fuel as [|fuel IH]; intros offset n l Ho Hl; [done|].
  cbn [archive_entries count_entries_loop] in *. rewrite u64_small by (unfold is_u64; lia).
  unfold HDR_NAME. rewrite Z.add_0_r.
  destruct (Z.ltb_spec (zlen bs) (offset + 512)) as [Hd|Hd].
  { rewrite (proj2 (Z.leb_gt _ _)) by lia. simplify_eq. cbn. f_equal. unfold zlen. simpl. lia. }
  rewrite (proj2 (Z.leb_le _ _)) by lia. cbn [negb].
  apply bind_Ok in Hl as (c & Hc & Hl). rewrite Hc. res_step. case_cmp.
  { simplify_eq. f_equal. unfold zlen. simpl. lia. }
  apply bind_Ok in Hl as (es & Hes & Hl). apply ustar_size_ok in Hes as [Hes ?]. rewrite Hes. res_step.
  res_inv. simplify_eq. destruct (next_entry_eq offset es) as [-> ?]; [lia|lia|].
  rewrite (IH _ (n + 1) a0) by (done || lia). f_equal. unfold zlen. simpl. lia.
Qed.

(** ** The tree after mounting *)

(** What the entries say of a path: the last entry for it, or an implied directory. *)
Definition stamp (l : list entry) (ds : list (list Z)) : bool * Z * Z :=
  foldl (λ a e, if decide (e_path e = ds ∧ ds ≠ []) then (e_dir e, e_off e, e_size e) else a) (true, 0, 0) l.

(** The tree is that of the entries [l]: its paths are the prefixes of theirs, and
    each leads to what they say. *)
Record reflects st kids nm (l : list entry) : Prop := {
  rf_attr ds i : resolve kids nm 0 ds = Some i → attr st i = Some (stamp l ds);
  rf_paths ds : is_Some (resolve kids nm 0 ds) ↔ ds = [] ∨ ∃ e, e ∈ l ∧ ds `prefix_of` e_path e;
}.

Lemma stamp_snoc l e ds :
  stamp (l ++ [e]) ds = if decide (e_path e = ds ∧ ds ≠ []) then (e_dir e, e_off e, e_size e) else stamp l ds.
Proof. unfold stamp. by rewrite foldl_snoc. Qed.

Lemma stamp_none l ds : (∀ e, e ∈ l → e_path e ≠ ds) → stamp l ds = (true, 0, 0).
Proof.
  induction l as [|e l IH] using rev_ind; [done|]. intros Hl. rewrite stamp_snoc, decide_False.
  - apply IH. intros e' He'. apply Hl. apply elem_of_app. by left.
  - intros [He _]. apply (Hl e); [|done]. apply elem_of_app. right. apply list_elem_of_here.
Qed.

(** Inserting an entry. *)
Lemma reflects_insert st kids nm l e st' kids' nm' :
  tree_ok st kids nm → tree_ok st' kids' nm' → reflects st kids nm l → e_path e ≠ [] →
  grown (e_path e) st kids nm st' kids' nm' → stamped (e_path e) (e_dir e, e_off e, e_size e) st st' kids' nm' →
  reflects st' kids' nm' (l ++ [e]).
Proof.
  intros Ht Ht' [Ra Rp] Hne [Gn Gc Gb Go Gw] (i & Hi & Ai & Ao & Do). split.
  - intros ds j Hj. rewrite stamp_snoc. case_decide as Hd.
    { destruct Hd as [<- _]. by assert (j = i) as -> by congruence. }
    assert (ds ≠ [] → j ≠ i) as Hji.
    { intros Hds ->. apply Hd. split; [|done]. by apply (resolve_inj st' kids' nm' _ _ i). }
    destruct (Gw _ _ Hj) as [Hold|[Hnew Hpre]].
    + rewrite Ao; [by apply Ra| |].
      * intros ->. destruct (decide (ds = [])) as [->|Hds]; [|by apply Hji].
        apply Hne. by apply (resolve_inj st' kids' nm' _ _ i).
      * pose proof (tr_num _ _ _ Ht). destruct (resolve_bounds st kids nm 0 ds j Ht ltac:(lia) Hold); lia.
    + assert (ds ≠ []) as Hds.
      { intros ->. pose proof (tr_num _ _ _ Ht) as [? _]. simpl in Hj. simplify_eq. lia. }
      rewrite Do; [|by apply Hji|].
      * rewrite stamp_none; [done|]. intros e' He' <-.
        assert (is_Some (resolve kids nm 0 (e_path e'))) as [j' Hj'] by (apply Rp; right; by exists e').
        pose proof (Go _ _ Hj'). assert (j' = j) as -> by congruence.
        pose proof (tr_num _ _ _ Ht). destruct (resolve_bounds st kids nm 0 (e_path e') j Ht ltac:(lia) Hj'). lia.
      * pose proof (tr_num _ _ _ Ht'). destruct (resolve_bounds st' kids' nm' 0 ds j Ht' ltac:(lia) Hj). lia.
  - intros ds. split.
    + intros [j Hj]. destruct (Gw _ _ Hj) as [Hold|[_ Hpre]].
      * assert (is_Some (resolve kids nm 0 ds)) as Hs by by exists j. apply Rp in Hs as [?|(e' & He' & ?)]; [by left|].
        right. exists e'. split; [apply elem_of_app; by left|done].
      * right. exists e. split; [apply elem_of_app; right; apply list_elem_of_here|done].
    + intros Hds. assert (is_Some (resolve kids nm 0 ds) → is_Some (resolve kids' nm' 0 ds)) as Hup.
      { intros [j Hj]. exists j. by apply Go. }
      destruct Hds as [->|(e' & He' & Hpre)]; [by eexists|].
      apply elem_of_app in He' as [He'|He']; [apply Hup, Rp; right; by exists e'|].
      apply list_elem_of_singleton in He' as ->. destruct Hpre as [r Hr]. rewrite Hr, resolve_app in Hi.
      destruct (resolve kids' nm' 0 ds); [by eexists|done].
Qed.

Lemma mount_loop_spec fuel bs offset st kids nm done_ l :
  zlen bs ≤ 2 ^ 40 → 0 ≤ offset ≤ 2 ^ 41 → archive_entries fuel bs offset = Ok l → Forall e_good l →
  tree_ok st kids nm →
  ∃ st' kids' nm', mount_loop fuel bs (zlen bs) offset st = Ok st' ∧ tree_ok st' kids' nm' ∧ base st' = base st ∧
    cap_nodes st' = cap_nodes st ∧
    (num_nodes st + total_comps l ≤ cap_nodes st → reflects st kids nm done_ → reflects st' kids' nm' (done_ ++ l)).
Proof.
  intros Hb. revert offset st kids nm done_ l. induction fuel as [|fuel IH]; intros offset st kids nm done_ l Ho Hl Hg Ht; [done|].
  cbn [archive_entries mount_loop] in *. rewrite u64_small by (unfold is_u64; lia).
  unfold HDR_NAME. rewrite Z.add_0_r.
  assert (l = [] → ∃ st' kids' nm', Ok st = Ok st' ∧ tree_ok st' kids' nm' ∧ base st' = base st ∧ cap_nodes st' = cap_nodes st ∧
    (num_nodes st + total_comps l ≤ cap_nodes st → reflects st kids nm done_ → reflects st' kids' nm' (done_ ++ l))) as Hnil.
  { intros ->. exists st, kids, nm. rewrite app_nil_r. done. }
  destruct (Z.ltb_spec (zlen bs) (offset + 512)) as [Hd|Hd].
  { rewrite (proj2 (Z.leb_gt _ _)) by lia. simplify_eq. by apply Hnil. }
  rewrite (proj2 (Z.leb_le _ _)) by lia. cbn [negb].
  apply bind_Ok in Hl as (c & Hc & Hl). rewrite Hc. res_step. case_cmp; [simplify_eq; by apply Hnil|].
  clear Hnil. apply bind_Ok in Hl as (es & Hes & Hl). apply ustar_size_ok in Hes as [Hes ?]. rewrite Hes. res_step.
  apply bind_Ok in Hl as (tf & Htf & Hl). apply bind_Ok in Hl as (l' & Hl' & Hl). simplify_eq.
  set (e0 := entry_at bs offset es tf) in *. apply Forall_cons in Hg as [[Hn0 Hp0] Hg].
  destruct (build_full_path_spec bs offset) as (buf & tl & -> & ->); [lia|lia|exact Hn0|]. res_step.
  change HDR_TYPEFLAG with 156. rewrite Htf. res_step.
  assert (no_nul (ustar_name bs offset)) as Hnn.
  { unfold ustar_name. pose proof (until_nul_no_nul (take 155 (drop (Z.to_nat (offset + 345)) bs))).
    pose proof (until_nul_no_nul (take 100 (drop (Z.to_nat (offset + 0)) bs))). case_match; [done|].
    apply Forall_app. split; [done|]. by constructor. }
  destruct (insert_path_full st kids nm (ustar_name bs offset) tl (e_dir e0) (e_off e0) (e_size e0) Ht Hnn Hp0)
    as (st1 & kids1 & nm1 & E1 & Ht1 & G1 & N1 & F1).
  unfold e0 in E1. cbn [e_dir e_off e_size entry_at] in E1. rewrite E1. res_step.
  destruct (next_entry_eq offset es) as [-> ?]; [lia|lia|].
  destruct (IH (offset + 512 + (es + 511) / 512 * 512) st1 kids1 nm1 (done_ ++ [e0]) l')
    as (st2 & kids2 & nm2 & E2 & Ht2 & B2 & C2 & F2); [lia|done..|].
  exists st2, kids2, nm2. split_and!; [done|done|by rewrite B2; apply G1|by rewrite C2; apply G1|].
  intros Hroom Hrf. simpl in Hroom. pose proof (total_comps_nonneg l').
  pose proof (gr_cap _ _ _ _ _ _ _ G1). change (archive_path (ustar_name bs offset)) with (e_path e0) in *.
  replace (done_ ++ e0 :: l') with ((done_ ++ [e0]) ++ l') by by rewrite <-app_assoc.
  apply F2; [lia|]. destruct (decide (e_path e0 = [])) as [Hnil|Hnnil].
  - assert (insert_path st (ustar_name bs offset ++ 0 :: tl) (e_dir e0) (e_off e0) (e_size e0) = Ok st) as Hid.
    { apply insert_path_nil; [done|exact Hnil]. }
    unfold e0 in Hid. cbn [e_dir e_off e_size entry_at] in Hid. rewrite Hid in E1. injection E1 as <-.
    destruct Hrf as [Ra Rp]. destruct G1 as [_ _ _ Go Gw].
    assert (∀ ds, resolve kids1 nm1 0 ds = resolve kids nm 0 ds) as Hsame.
    { intros ds. destruct (resolve kids nm 0 ds) as [j|] eqn:E; [by apply Go|].
      destruct (resolve kids1 nm1 0 ds) as [j|] eqn:E'; [|done]. destruct (Gw _ _ E') as [?|[_ Hpre]]; [congruence|].
      rewrite Hnil in Hpre. apply prefix_nil_inv in Hpre as ->. done. }
    split.
    + intros ds j. rewrite Hsame, stamp_snoc, decide_False by (intros [<- ?]; done). apply Ra.
    + intros ds. rewrite Hsame, Rp. split.
      * intros [?|(e & ? & ?)]; [by left|]. right. exists e. split; [apply elem_of_app; by left|done].
      * intros [?|(e & He & Hpre)]; [by left|]. apply elem_of_app in He as [He|He]; [right; by exists e|].
        apply list_elem_of_singleton in He as ->. rewrite Hnil in Hpre. left. by apply prefix_nil_inv in Hpre.
  - eapply reflects_insert; [exact Ht|done..| |]; [exact G1|]. apply F1; [done|lia].
Qed.

Lemma archive_entries_length fuel bs offset l :
  0 ≤ offset → archive_entries fuel bs offset = Ok l → 512 * zlen l ≤ Z.max 0 (zlen bs - offset).
Proof.
  revert offset l. induction fuel as [|fuel IH]; intros offset l Ho Hl; [done|]. cbn [archive_entries] in Hl.
  destruct (Z.ltb_spec (zlen bs) (offset + 512)); [simplify_eq; change (zlen (@nil entry)) with 0; lia|].
  apply bind_Ok in Hl as (c & Hc & Hl). case_match; [simplify_eq; change (zlen (@nil entry)) with 0; lia|].
  apply bind_Ok in Hl as (es & Hes & Hl). apply ustar_size_ok in Hes as [_ Hes].
  res_inv. simplify_eq. pose proof (Z.div_pos (es + 511) 512). apply IH in Ha0; [|lia].
  assert (zlen (entry_at bs offset es a :: a0) = zlen a0 + 1) by (unfold zlen; simpl; lia). lia.
Qed.

(** What the block for the nodes holds: any names, as long as they are 100 bytes. *)
Definition fresh_ok (n : Z) (fresh : list TarNode) : Prop :=
  n ≤ zlen fresh ∧ Forall (λ x, zlen (t_name x) = NAME_LEN) fresh.

(** The tree with only a root. *)
Lemma root_tree bs fresh cap :
  0 < cap → fresh_ok cap fresh →
  ∃ st1 n nm st, alloc_node (MkTarState bs (take (Z.to_nat cap) fresh) 0 cap) = Ok (st1, 0) ∧
    get_node st1 0 = Ok n ∧ zset (t_name n) 0 0 = Some nm ∧
    put_node st1 0 (MkTarNode nm true (data_offset n) (size n) (first_child n) (next_sibling n)) = Ok st ∧
    tree_ok st (λ _, []) (λ _, []) ∧ base st = bs ∧ num_nodes st = 1 ∧ cap_nodes st = cap ∧ attr st 0 = Some (true, 0, 0).
Proof.
  intros Hc [Hl Hf]. set (ns := take (Z.to_nat cap) fresh).
  assert (zlen ns = cap) as Ln by (unfold ns, zlen in *; rewrite length_take; lia).
  assert (∀ i n, zget ns i = Some n → zlen (t_name n) = NAME_LEN) as Hb.
  { intros i n [_ Hi]%zget_Some. unfold ns in Hi. apply lookup_take_Some in Hi as [Hi _].
    rewrite Forall_lookup in Hf. by apply Hf in Hi. }
  destruct (zget_is_Some ns 0) as [n0 H0]; [lia|]. pose proof (Hb _ _ H0) as L0. unfold NAME_LEN in *.
  unfold alloc_node. cbn [cap_nodes num_nodes]. rewrite (proj2 (Z.leb_gt _ _)) by lia.
  unfold get_node at 1. cbn [nodes]. rewrite H0. res_step. rewrite zset_is by lia. res_step.
  erewrite put_node_ok by done. res_step. cbn [nodes with_nodes base].
  set (n1 := MkTarNode (<[Z.to_nat 0:=0]> (t_name n0)) false 0 0 (-1) (-1)).
  set (st1 := MkTarState bs (<[Z.to_nat 0:=n1]> ns) 1 cap).
  assert (zget (nodes st1) 0 = Some n1) as G1 by (unfold st1; cbn [nodes]; rewrite zget_insert by lia; done).
  exists st1, n1, (<[Z.to_nat 0:=0]> (t_name n1)).
  eexists. split; [done|]. unfold get_node. rewrite G1. split; [done|].
  assert (zlen (t_name n1) = 100) as L1 by (simpl; by rewrite zlen_insert).
  rewrite zset_is by lia. split; [done|]. erewrite put_node_ok by done. split; [done|].
  cbn [with_nodes base num_nodes cap_nodes nodes st1].
  assert (∀ j, zget (<[Z.to_nat 0:= MkTarNode (<[Z.to_nat 0:=0]> (t_name n1)) true 0 0 (-1) (-1)]> (nodes st1)) j =
    if decide (j = 0) then Some (MkTarNode (<[Z.to_nat 0:=0]> (t_name n1)) true 0 0 (-1) (-1)) else zget ns j) as G2.
  { intros j. erewrite zget_put by done. case_decide; [done|]. unfold st1. cbn [nodes].
    rewrite zget_insert by lia. by rewrite decide_False. }
  split_and!; try done; [|unfold attr; cbn [nodes with_nodes]; by rewrite G2].
  split; cbn [num_nodes cap_nodes nodes with_nodes].
  - unfold st1. cbn [nodes num_nodes cap_nodes]. rewrite !zlen_insert. lia.
  - intros i n. rewrite G2. case_decide; [intros [= <-]; simpl; by rewrite !zlen_insert|apply Hb].
  - intros i Hi. assert (i = 0) as -> by (change (0 ≤ i < 1) in Hi; lia). rewrite G2, decide_True by done.
    eexists. split; [done|]. split; [|done]. cbn [t_name]. destruct (t_name n1) as [|c r]; [by cbn in L1|done].
  - intros i c _ ?%not_elem_of_nil. done.
  - intros i _. apply NoDup_nil_2.
  - intros i j c _ _ ?%not_elem_of_nil. done.
Qed.

Section mount.
Context {K : Type} `{KernelEnvLaws K}.

(** The superblock of a mounted archive. *)
Definition tar_sb st : SuperBlock K Z :=
  MkSuperBlock (Some (tar_root_inode st)) (Some (tar_get_inode st))
    (MkInodeOps (Some (tar_read st)) (Some (tar_readdir st))).

(** What mounting an archive with the entries [l] ensures. *)
Definition mount_ensures (bs : list Z) (l : list entry) (r : Res (K * option (TarState * SuperBlock K Z))) : Prop :=
  match r with
  | Ok (_, Some (st, sb)) => sb = tar_sb st ∧ base st = bs ∧ cap_nodes st = zlen l * 8 + 16 ∧
      ∃ kids nm, tree_ok st kids nm ∧ (total_comps l ≤ zlen l * 8 + 15 → reflects st kids nm l)
  | Ok (_, None) => can_fail (K := K)
  | Halt => True
  | _ => False
  end.

Lemma mount_spec bs fresh (k : K) l :
  512 ≤ zlen bs ≤ 2 ^ 36 → take 5 (drop 257 bs) = [117; 115; 116; 97; 114] →
  archive_entries (archive_fuel (zlen bs)) bs 0 = Ok l → Forall e_good l → fresh_ok (zlen l * 8 + 16) fresh →
  mount_ensures bs l (mount bs (zlen bs) fresh k).
Proof using H0.
  intros Hb Hmagic Hl Hg Hfr. pose proof (archive_entries_length _ bs 0 l ltac:(lia) Hl) as Hlen.
  unfold mount. rewrite (proj2 (Z.ltb_ge _ _)) by lia.
  assert (strncmp (hdr_ptr bs 0 HDR_MAGIC) USTAR 5 = Ok 0) as ->.
  { unfold USTAR in *. change (take 5 (hdr_ptr bs 0 HDR_MAGIC) = [117; 115; 116; 97; 114]) in Hmagic. destruct (hdr_ptr bs 0 HDR_MAGIC) as [|a [|b [|c [|d [|e r]]]]]; simpl in Hmagic; simplify_eq. by destruct r. }
  res_step. cbn [negb Z.eqb]. unfold count_entries.
  rewrite (count_entries_spec _ _ _ _ l) by (done || lia). res_step. rewrite Z.add_0_l.
  rewrite (proj2 (Z.leb_gt _ _)) by lia.
  destruct (kmalloc_cases SIZEOF_TARSTATE k) as [->|[[k1 E1]|(k1 & p1 & E1 & P1 & V1)]]; [done|..]; rewrite E1; res_step.
  { by eapply null_can_fail, E1. }
  rewrite (proj2 (Z.eqb_neq p1 0)) by done.
  destruct (kmalloc_cases (zlen bs) k1) as [->|[[k2 E2]|(k2 & p2 & E2 & P2 & V2)]]; [done|..]; rewrite E2; res_step.
  { destruct (kfree_spec p1 k2) as (k2' & -> & _); [by rewrite (kmalloc_null_live _ _ _ _ E2)|]. by eapply null_can_fail, E2; lia. }
  rewrite (proj2 (Z.eqb_neq p2 0)) by done.
  assert (slice bs 0 (zlen bs) = Some bs) as ->.
  { unfold slice. rewrite !(proj2 (Z.ltb_ge _ _)) by lia. cbn [orb]. unfold zlen. by rewrite Nat2Z.id, drop_0, firstn_all. }
  res_step. set (cap := zlen l * 8 + 16) in *. pose proof (kmalloc_live _ _ _ _ p1 E2 V1) as V1'.
  destruct (kmalloc_cases (SIZEOF_TARNODE * cap) k2) as [->|[[k3 E3]|(k3 & p3 & E3 & P3 & V3)]]; [done|..]; rewrite E3; res_step.
  { destruct (kfree_spec p1 k3) as (k3' & -> & _); [by rewrite (kmalloc_null_live _ _ _ _ E3)|]. eapply null_can_fail, E3. unfold SIZEOF_TARNODE, cap, zlen. lia. }
  rewrite (proj2 (Z.eqb_neq p3 0)) by done.
  destruct (root_tree bs fresh cap) as (st1 & n & nm & st & -> & R1 & R2 & R3 & Ht & B & N & C & Ra); [unfold cap, zlen; lia|done|].
  res_step. rewrite R1. res_step. rewrite R2. res_step. rewrite R3. res_step.
  destruct (mount_loop_spec (archive_fuel (zlen bs)) bs 0 st _ _ [] l ltac:(lia) ltac:(lia) Hl Hg Ht)
    as (st' & kids' & nm' & -> & Ht' & B' & C' & F). res_step.
  pose proof (kmalloc_live _ _ _ _ p1 E3 V1') as V1''.
  destruct (kmalloc_cases SIZEOF_SUPERBLOCK k3) as [->|[[k4 E4]|(k4 & p4 & E4 & P4 & V4)]]; [done|..]; rewrite E4; res_step.
  { destruct (kfree_spec p3 k4) as (k5 & -> & V5); [by rewrite (kmalloc_null_live _ _ _ _ E4)|]. res_step.
    destruct (kfree_spec p1 k5) as (k6 & -> & _); [|by eapply null_can_fail, E4].
    rewrite V5, (kmalloc_null_live _ _ _ _ E4), V1'', andb_true_r. apply negb_true_iff, Z.eqb_neq.
    destruct (kmalloc_spec _ _ _ _ E3) as [[? _]|(_ & _ & _ & Hd & _)]; [done|]. congruence. }
  rewrite (proj2 (Z.eqb_neq p4 0)) by done. split_and!; [done|congruence|by rewrite C', C|].
  exists kids', nm'. split; [done|]. intros Htot. apply F; [lia|]. split.
  - intros ds i Hds. destruct ds as [|c ds]; [|done]. simpl in Hds. simplify_eq. exact Ra.
  - intros ds. split.
    + intros [i Hds]. destruct ds as [|c ds]; [by left|done].
    + intros [->|(e & ?%not_elem_of_nil & _)]; [by eexists|done].
Qed.

(** C18. Mounting an archive always ends, and the tree it builds is exactly that of
    the archive's entries: its paths are the prefixes of the entries' paths, and
    each path leads to a node with the kind, place and length the last entry for it
    gives, or to a directory when only longer paths are listed.  This holds as
    long as the entries average at most eight components.  Mounting gives no file
    system only when the heap has no memory.  Names must have at most 255 bytes in
    all, and each component at most 98. *)
Theorem mount_reflects_archive bs fresh (k : K) l :
  512 ≤ zlen bs ≤ 2 ^ 36 → take 5 (drop 257 bs) = [117; 115; 116; 97; 114] →
  archive_entries (archive_fuel (zlen bs)) bs 0 = Ok l → Forall e_good l → fresh_ok (zlen l * 8 + 16) fresh →
  mount_ensures bs l (mount bs (zlen bs) fresh k).
Proof using H0. apply mount_spec. Qed.

End mount.

(** ** Concrete runs *)

Definition pad_to (n : nat) (l : list Z) : list Z := l ++ replicate (n - length l) 0.

Definition sample_header (nm sz : list Z) (tf : Z) : list Z :=
  pad_to 124 nm ++ pad_to 12 sz ++ replicate 20 0 ++ [tf] ++ replicate 100 0 ++ USTAR ++ replicate 249 0.

(** "bin/" and "./bin/a", which holds three bytes. *)
Definition sample_archive : list Z :=
  sample_header [98; 105; 110; 47] [48] 53 ++ sample_header [46; 47; 98; 105; 110; 47; 97] [51] 48 ++
  pad_to 512 [1; 2; 3] ++ replicate 1024 0.

Definition sample_entries : list entry :=
  [MkEntry [98; 105; 110; 47] true 0 0; MkEntry [46; 47; 98; 105; 110; 47; 97] false 1024 3].

Definition sample_fresh : list TarNode := replicate 32 (MkTarNode (replicate 100 7) false 9 9 9 9).

Definition mounted {K} (r : Res (K * option (TarState * SuperBlock K Z))) : bool :=
  match r with Ok (_, Some _) => true | _ => false end.

Lemma mounted_inv {K} (r : Res (K * option (TarState * SuperBlock K Z))) :
  mounted r = true → ∃ k st sb, r = Ok (k, Some (st, sb)).
Proof. destruct r as [[k [[st sb]|]]| | |]; [eauto|done..]. Qed.

Lemma sample_mounted : mounted (mount sample_archive (zlen sample_archive) sample_fresh (MkBump 0x1000 [])) = true.
Proof. vm_compute. reflexivity. Qed.

Lemma mount_reflects_archive_witness :
  mount_ensures sample_archive sample_entries (mount sample_archive (zlen sample_archive) sample_fresh (MkBump 0x1000 [])).
Proof.
  apply (mount_reflects_archive sample_archive sample_fresh (MkBump 0x1000 []) sample_entries).
  - vm_compute. split; discriminate.
  - vm_compute. reflexivity.
  - vm_compute. reflexivity.
  - repeat constructor; vm_compute; congruence.
  - split; [vm_compute; discriminate|]. apply Forall_replicate. reflexivity.
Defined.
