(* ===== verification/Vfs.v ===== *)
(** * The virtual file system ([fs/vfs.cpp])

    Path lookup by reading directory entries through the driver's [readdir], the
    mount table, and open files.  A superblock is the record of its operations
    ([Fs]); an open file is shared through its pointer, so files are a map from
    pointers.  The buffers are byte lists; [stale] is what the stack buffer of
    [lookup_path] holds before the driver writes to it. *)

From S2P Require Import Prelude CString Task Fs.

Definition CHUNK_SIZE : Z := 512.
Definition MAX_MOUNTS : nat := 4.
Definition SIZEOF_FILE : Z := 24.

(** [while (p < buf + bytes)]: the entry named [component] in one chunk. *)
Fixpoint scan_chunk (fuel : nat) (buf : list Z) (bytes p : Z) (component : list Z) : Res (option Z) :=
  match fuel with
  | O => NoFuel
  | S fuel =>
      if negb (p <? bytes) then Ok None else
      ino ← or_fault (field buf p 8);
      let p := p + 8 in
      let nm := drop (Z.to_nat p) buf in
      name_len ← strnlen nm (u64 (CHUNK_SIZE - p));
      d ← strcmp nm component;
      if d =? 0 then Ok (Some ino) else scan_chunk fuel buf bytes (p + name_len + 1) component
  end.

(** An entry takes at least nine bytes. *)
Definition chunk_fuel : nat := 64.

(** [while ( *path && *path != '/' && i < sizeof(component) - 1)] and the slash
    after it. *)
Fixpoint next_component (room : nat) (path : list Z) : Res (list Z * list Z) :=
  match path with
  | [] => Fault
  | c :: path' =>
      match room with
      | O => Ok ([], if c =? 47 then path' else path)
      | S room =>
          if c =? 0 then Ok ([], path)
          else if c =? 47 then Ok ([], path')
          else '(w, rest) ← next_component room path'; Ok (c :: w, rest)
      end
  end.

Fixpoint skip_leading (path : list Z) : list Z :=
  match path with
  | c :: path' => if c =? 47 then skip_leading path' else path
  | [] => []
  end.

(** [path\[plen\] == '/' || path\[plen\] == '\0'] after the prefix. *)
Definition prefix_ends (path : list Z) (plen : Z) : Res bool :=
  c ← or_fault (zget path plen); Ok ((c =? 47) || (c =? 0)).

Section vfs.
Context {K P : Type} `{KernelEnv K}.

(** An open file and its offset; its operations are its inode's. *)
Record File := MkFile {
  f_sb : SuperBlock K P;
  inode : Inode P;
  offset : Z;
}.

Record Vfs := MkVfs {
  kern : K;
  root_sb : option (SuperBlock K P);
  s_mounts : list (list Z * SuperBlock K P);
  files : gmap Z File;
}.

Definition with_kern (k : K) (v : Vfs) : Vfs := MkVfs k (root_sb v) (s_mounts v) (files v).
Definition with_files (fs : gmap Z File) (v : Vfs) : Vfs := MkVfs (kern v) (root_sb v) (s_mounts v) fs.

(** The chunk loop: the inode number of the entry named [component].  [fuel]
    bounds the number of chunks. *)
Fixpoint scan_dir (fuel : nat) (readdir : Inode P → Z → Z → K → Res (K * (Z * list Z)))
    (cur : Inode P) (component : list Z) (off : Z) (buf : list Z) (k : K) : Res (K * option Z) :=
  match fuel with
  | O => NoFuel
  | S fuel =>
      '(k, (bytes, out)) ← readdir cur off CHUNK_SIZE k;
      buf ← or_fault (splice buf 0 out);
      if bytes <=? 0 then Ok (k, None) else
      r ← scan_chunk chunk_fuel buf bytes 0 component;
      match r with
      | Some i => Ok (k, Some i)
      | None => scan_dir fuel readdir cur component (u64 (off + bytes)) buf k
      end
  end.

Fixpoint walk_path (fuel dir_fuel : nat) (stale : list Z) (sb : SuperBlock K P)
    (cur : Inode P) (path : list Z) (k : K) : Res (K * option (Inode P)) :=
  match fuel with
  | O => NoFuel
  | S fuel =>
      c ← or_fault (zget path 0);
      if c =? 0 then Ok (k, Some cur) else
      '(component, path) ← next_component 255 path;
      match op_readdir (inode_ops sb) with
      | None => Ok (k, None)
      | Some readdir =>
          '(k, found) ← scan_dir dir_fuel readdir cur (component ++ [0]) 0 stale k;
          match found with
          | None => Ok (k, None)
          | Some found_ino =>
              match op_get_inode sb with
              | None => Ok (k, None)
              | Some get_inode =>
                  '(k, next) ← get_inode found_ino k;
                  match next with
                  | None => Ok (k, None)
                  | Some cur => walk_path fuel dir_fuel stale sb cur path k
                  end
              end
          end
      end
  end.

Definition lookup_path (dir_fuel : nat) (stale : list Z) (sb : SuperBlock K P) (root : Inode P)
    (path : list Z) (k : K) : Res (K * option (Inode P)) :=
  let path := skip_leading path in
  c ← or_fault (zget path 0);
  if c =? 0 then Ok (k, Some root) else walk_path (length path) dir_fuel stale sb root path k.

Fixpoint find_mount (ms : list (list Z * SuperBlock K P)) (path : list Z)
    : Res (option (SuperBlock K P * list Z)) :=
  match ms with
  | [] => Ok None
  | (prefix, sb) :: ms =>
      plen ← strlen prefix;
      d ← strncmp path prefix plen;
      m ← (if d =? 0 then prefix_ends path plen else Ok false);
      if m : bool then Ok (Some (sb, drop (Z.to_nat plen) path)) else find_mount ms path
  end.

Definition resolve_mount (v : Vfs) (path : list Z) : Res (option (SuperBlock K P) * list Z) :=
  r ← find_mount (s_mounts v) path;
  match r with
  | Some (sb, rel) => Ok (Some sb, rel)
  | None => Ok (root_sb v, path)
  end.

Definition mount_at (prefix : list Z) (sb : SuperBlock K P) (v : Vfs) : Vfs :=
  if (length (s_mounts v) <? MAX_MOUNTS)%nat
  then MkVfs (kern v) (root_sb v) (s_mounts v ++ [(prefix, sb)]) (files v) else v.

(** 0 is the null pointer. *)
Definition open (dir_fuel : nat) (stale path : list Z) (v : Vfs) : Res (Vfs * Z) :=
  '(sb, rel) ← resolve_mount v path;
  match sb with
  | None => Ok (v, 0)
  | Some sb =>
      match op_root_inode sb with
      | None => Ok (v, 0)
      | Some root_inode =>
          '(k, root) ← root_inode (kern v);
          match root with
          | None => Ok (with_kern k v, 0)
          | Some root =>
              '(k, target) ← lookup_path dir_fuel stale sb root rel k;
              match target with
              | None => Ok (with_kern k v, 0)
              | Some target =>
                  '(k, file) ← kmalloc SIZEOF_FILE k;
                  if file =? 0 then Ok (with_kern k v, 0) else
                  Ok (with_files (<[file := MkFile sb target 0]> (files v)) (with_kern k v), file)
              end
          end
      end
  end.

(** The default [FileOps::read]: through the inode, moving the offset.  [Fault]
    when the pointer is not an open file. *)
Definition file_read (file count : Z) (v : Vfs) : Res (Vfs * (Z * list Z)) :=
  f ← or_fault (files v !! file);
  match op_read (inode_ops (f_sb f)) with
  | None => Ok (v, (-1, []))
  | Some read =>
      '(k, (ret, out)) ← read (inode f) (offset f) count (kern v);
      let v := with_kern k v in
      let v := if 0 <? ret
               then with_files (<[file := MkFile (f_sb f) (inode f) (u64 (offset f + ret))]> (files v)) v
               else v in
      Ok (v, (ret, out))
  end.

(** The loop of [read_whole_file] over the buffer [buf]; [None] when a read fails. *)
Fixpoint read_loop (fuel : nat) (file size total : Z) (buf : list Z) (v : Vfs)
    : Res (Vfs * option (list Z)) :=
  match fuel with
  | O => NoFuel
  | S fuel =>
      if negb (total <? size) then Ok (v, Some buf) else
      '(v, (ret, out)) ← file_read file (size - total) v;
      buf ← or_fault (splice buf total out);
      if ret <=? 0 then Ok (v, None)
      else read_loop fuel file size (u64 (total + ret)) buf v
  end.

(** The pointer and contents of a buffer holding the file and a NUL; [fresh] is
    what the new block holds. *)
Definition read_whole_file (fresh : Z → list Z) (file : Z) (v : Vfs) : Res (Vfs * option (Z * list Z)) :=
  if file =? 0 then Ok (v, None) else
  f ← or_fault (files v !! file);
  let size := isize (inode f) in
  '(k, buf) ← kmalloc (u64 (size + 1)) (kern v);
  let v := with_kern k v in
  if buf =? 0 then Ok (v, None) else
  '(v, r) ← read_loop (S (Z.to_nat size)) file size 0 (fresh (u64 (size + 1))) v;
  match r with
  | None => k ← kfree buf (kern v); Ok (with_kern k v, None)
  | Some bs => bs ← or_fault (zset bs size 0); Ok (v, Some (buf, bs))
  end.

End vfs.

Arguments File K P : clear implicits.
Arguments Vfs K P : clear implicits.
