(* ===== verification/VfsSpec.v ===== *)
(** * Path lookup against a tree of directories

    What a driver promises the VFS, as a class: each inode number stands for a
    file or for a directory with a list of named entries, and [readdir] streams
    that list.  Against this interface, [lookup_path] and [open] resolve a path
    exactly as a walk of the tree does. *)

From S2P Require Import Prelude CString Task Fs Vfs.

(** ** Directory streams *)

Definition dentry : Type := Z * list Z.

Definition dlen (e : dentry) : Z := 9 + zlen e.2.

Definition dentry_ok (e : dentry) : Prop := is_u64 e.1 ∧ no_nul e.2 ∧ zlen e.2 ≤ 255.

Definition encode (es : list dentry) : list Z := concat (map (λ e, dirent e.1 e.2) es).

Definition stream_len (es : list dentry) : Z := foldr (λ e n, dlen e + n) 0 es.

(** The entries of a directory stream from byte [off] on that fit in [count]
    bytes: what [readdir] writes. *)
Fixpoint fill (es : list dentry) (off count pos written : Z) : list dentry :=
  match es with
  | [] => []
  | e :: es =>
      if off <=? pos then
        if count <? written + dlen e then [] else e :: fill es off count (pos + dlen e) (written + dlen e)
      else fill es off count (pos + dlen e) written
  end.

Lemma dirent_len e : zlen (dirent e.1 e.2) = dlen e.
Proof. unfold dirent, dlen. rewrite !zlen_app. unfold zlen. rewrite le_bytes_length. simpl. lia. Qed.

Lemma encode_cons e es : encode (e :: es) = dirent e.1 e.2 ++ encode es.
Proof. done. Qed.

Lemma encode_len es : zlen (encode es) = stream_len es.
Proof. induction es as [|e es IH]; [done|]. rewrite encode_cons, zlen_app, dirent_len. simpl. lia. Qed.

Lemma dlen_pos e : 9 ≤ dlen e.
Proof. unfold dlen, zlen. lia. Qed.

Lemma stream_len_nonneg es : 0 ≤ stream_len es.
Proof. induction es as [|e es IH]; simpl; [lia|]. pose proof (dlen_pos e). lia. Qed.

(** From the start of entry [es2], [readdir] gives a non-empty run of entries. *)
Lemma fill_skip es1 es2 off count pos written :
  pos + stream_len es1 ≤ off → fill (es1 ++ es2) off count pos written = fill es2 off count (pos + stream_len es1) written.
Proof.
  revert pos. induction es1 as [|e es1 IH]; intros pos Hoff; simpl; [by rewrite Z.add_0_r|].
  simpl in Hoff. pose proof (stream_len_nonneg es1). pose proof (dlen_pos e).
  rewrite (proj2 (Z.leb_gt _ _)) by lia. rewrite IH by lia. by rewrite Z.add_assoc.
Qed.

Lemma fill_prefix es off count pos written :
  off ≤ pos → ∃ r, es = fill es off count pos written ++ r.
Proof.
  revert pos written. induction es as [|e es IH]; intros pos written Ho; simpl; [by exists []|].
  rewrite (proj2 (Z.leb_le _ _)) by lia. case_cmp; [by eexists|]. pose proof (dlen_pos e).
  destruct (IH (pos + dlen e) (written + dlen e)) as [r Hr]; [lia|]. exists r. simpl. by f_equal.
Qed.

Lemma fill_fits es off count pos written :
  0 ≤ written ≤ count → stream_len (fill es off count pos written) ≤ count - written.
Proof.
  revert pos written. induction es as [|e es IH]; intros pos written Hw; simpl; [lia|].
  destruct (Z.leb_spec off pos); [|by apply IH]. case_cmp; simpl; [lia|]. pose proof (dlen_pos e).
  specialize (IH (pos + dlen e) (written + dlen e)). lia.
Qed.

(** ** Searching one chunk *)

Fixpoint find_name (comp : list Z) (es : list dentry) : option Z :=
  match es with
  | [] => None
  | (i, n) :: es => if decide (n = comp) then Some i else find_name comp es
  end.

Lemma find_name_app comp es1 es2 :
  find_name comp (es1 ++ es2) = match find_name comp es1 with Some i => Some i | None => find_name comp es2 end.
Proof. induction es1 as [|[i n] es1 IH]; simpl; [done|]. by case_decide. Qed.

Lemma find_name_Some comp es i : find_name comp es = Some i → ∃ e, e ∈ es ∧ e.1 = i ∧ e.2 = comp.
Proof.
  induction es as [|[j n] es IH]; simpl; [done|]. case_decide.
  - intros [= <-]. exists (j, n). split; [apply list_elem_of_here|done].
  - intros (e & ? & ?)%IH. exists e. split; [by apply list_elem_of_further|done].
Qed.

Lemma field_dirent pre i n rest :
  is_u64 i → field (pre ++ dirent i n ++ rest) (zlen pre) 8 = Some i.
Proof.
  intros Hi. unfold field, slice, dirent. rewrite !(proj2 (Z.ltb_ge _ _)).
  - simpl orb. unfold zlen. rewrite Nat2Z.id, drop_app_length. cbn [fmap option_fmap option_map].
    rewrite <-!app_assoc. rewrite take_app_le by (rewrite le_bytes_length; lia).
    rewrite take_ge by (rewrite le_bytes_length; lia).
    rewrite le_val_bytes. f_equal. apply Z.mod_small. unfold is_u64 in Hi. lia.
  - rewrite !zlen_app. unfold zlen. rewrite le_bytes_length. simpl. lia.
  - lia.
  - unfold zlen. lia.
Qed.

Lemma drop_dirent pre i n rest :
  drop (Z.to_nat (zlen pre + 8)) (pre ++ dirent i n ++ rest) = n ++ 0 :: rest.
Proof.
  unfold zlen, dirent. replace (Z.to_nat (Z.of_nat (length pre) + 8)) with (length pre + 8)%nat by lia.
  rewrite <-drop_drop, drop_app_length, <-!app_assoc.
  rewrite drop_app_ge by (rewrite le_bytes_length; lia). by rewrite le_bytes_length.
Qed.

Lemma scan_chunk_spec fuel pre es rest comp :
  Forall dentry_ok es → no_nul comp → (length es < fuel)%nat → zlen pre + stream_len es ≤ CHUNK_SIZE →
  scan_chunk fuel (pre ++ encode es ++ rest) (zlen pre + stream_len es) (zlen pre) (comp ++ [0]) =
    Ok (find_name comp es).
Proof.
  intros Hes Hc. revert pre fuel. induction Hes as [|[i n] es [Hi [Hn Hl]] Hes IH]; intros pre fuel Hf Hlen;
    (destruct fuel as [|fuel]; [simpl in Hf; lia|]); cbn [scan_chunk stream_len foldr].
  - rewrite Z.add_0_r, Z.ltb_irrefl. done.
  - simpl in Hlen. pose proof (dlen_pos (i, n)). pose proof (stream_len_nonneg es). fold (stream_len es).
    assert (0 ≤ zlen pre) by (unfold zlen; lia).
    rewrite (proj2 (Z.ltb_lt _ _)) by lia. cbn [negb]. rewrite encode_cons, <-app_assoc. cbn [fst snd].
    rewrite field_dirent by done. res_step. rewrite drop_dirent.
    unfold dlen in *. cbn [snd] in *. unfold CHUNK_SIZE in *.
    rewrite u64_small by (unfold is_u64; lia). rewrite strnlen_str by (done || lia). res_step.
    destruct (strcmp_app n comp (encode es ++ rest) [] Hn Hc) as (d & -> & Hd). res_step. simpl find_name.
    destruct (Z.eqb_spec d 0) as [->|Hne].
    + by rewrite decide_True by (by apply Hd).
    + rewrite decide_False by naive_solver.
      specialize (IH (pre ++ dirent i n) fuel). rewrite zlen_app in IH.
      pose proof (dirent_len (i, n)) as Hdl. cbn [fst snd] in Hdl. rewrite Hdl in IH. unfold dlen in IH. cbn [snd] in IH.
      rewrite <-app_assoc in IH. rewrite <-IH by (simpl in Hf; lia). f_equal; lia.
Qed.

(** ** The interface *)

Section spec.
Context {K P : Type} `{KernelEnv K}.

Class DirFs (sb : SuperBlock K P) := {
  fs_inode : Z → Inode P;
  fs_valid : Z → Prop;
  (** The entries of a directory; [None] for a file. *)
  fs_dir : Z → option (list dentry);
  (** The bytes of a file. *)
  fs_contents : Z → option (list Z);
  fs_root : Z;
}.

(** A driver operation that makes an inode: it gives that inode, or none for want
    of memory. *)
Definition gives_inode (r : Res (K * option (Inode P))) (i : Inode P) : Prop :=
  ensures r (λ '(_, o), o = Some i ∨ (o = None ∧ can_fail (K := K))).

Class DirFsLaws (sb : SuperBlock K P) `{!DirFs sb} := {
  law_readdir : ∃ rd, op_readdir (inode_ops sb) = Some rd ∧
    ∀ i off count k, fs_valid i → 0 ≤ off → 0 ≤ count →
      ensures (rd (fs_inode i) off count k) (λ '(_, (n, out)),
        match fs_dir i with
        | Some es => out = encode (fill es off count 0 0) ∧ n = zlen out
        | None => n = -1 ∧ out = []
        end);
  law_entries i es : fs_valid i → fs_dir i = Some es → stream_len es < 2 ^ 63 ∧ Forall (λ e, dentry_ok e ∧ fs_valid e.1) es;
  law_read i bs : fs_valid i → fs_contents i = Some bs → isize (fs_inode i) = zlen bs ∧
    zlen bs < 2 ^ 32 ∧ ∃ rd, op_read (inode_ops sb) = Some rd ∧ ∀ off count k, 0 ≤ off → 0 ≤ count < 2 ^ 32 →
      ensures (rd (fs_inode i) off count k) (λ '(_, (n, out)),
        out = take (Z.to_nat count) (drop (Z.to_nat off) bs) ∧ n = zlen out);
  law_get : ∃ gi, op_get_inode sb = Some gi ∧ ∀ i k, fs_valid i → gives_inode (gi i k) (fs_inode i);
  law_root : ∃ ri, op_root_inode sb = Some ri ∧ ∀ k, gives_inode (ri k) (fs_inode fs_root);
  law_root_valid : fs_valid fs_root;
}.

(** The walk of the tree. *)
Fixpoint fs_resolve (sb : SuperBlock K P) `{!DirFs sb} (i : Z) (path : list (list Z)) : option Z :=
  match path with
  | [] => Some i
  | comp :: path => es ← fs_dir i; j ← find_name comp es; fs_resolve sb j path
  end.

(** ** Searching a directory *)

Lemma fill_run es1 es2 count :
  Forall (λ e, dlen e ≤ count) es2 →
  let run := fill (es1 ++ es2) (stream_len es1) count 0 0 in
  (∃ r, es2 = run ++ r) ∧ (run = [] → es2 = []) ∧ (0 ≤ count → stream_len run ≤ count).
Proof.
  intros Hc run. unfold run. rewrite fill_skip by lia. split_and!.
  - apply fill_prefix. lia.
  - destruct es2 as [|e es2]; [done|]. simpl. apply Forall_cons in Hc as [Hc _].
    rewrite (proj2 (Z.leb_le _ _)) by lia. rewrite (proj2 (Z.ltb_ge _ _)) by lia. done.
  - intros. pose proof (fill_fits es2 (stream_len es1) count (0 + stream_len es1) 0). lia.
Qed.

Lemma stream_len_app es1 es2 : stream_len (es1 ++ es2) = stream_len es1 + stream_len es2.
Proof. induction es1 as [|e es1 IH]; simpl; [done|]. lia. Qed.

Lemma stream_len_count es : 9 * zlen es ≤ stream_len es.
Proof. unfold zlen. induction es as [|e es IH]; simpl; [lia|]. pose proof (dlen_pos e). lia. Qed.

Lemma splice_front (buf out : list Z) :
  zlen out ≤ zlen buf → ∃ r, splice buf 0 out = Some (out ++ r) ∧ zlen (out ++ r) = zlen buf.
Proof.
  intros Hl. unfold splice. rewrite (proj2 (Z.ltb_ge (zlen buf) (0 + zlen out))) by lia.
  cbn [Z.ltb Z.compare orb]. rewrite take_0. unfold zlen in *. eexists. split; [done|].
  rewrite length_app, length_drop. lia.
Qed.

Lemma scan_dir_spec sb `{DirFsLaws sb} rd i es es1 es2 comp fuel buf k :
  op_readdir (inode_ops sb) = Some rd → fs_valid i → fs_dir i = Some es → no_nul comp →
  es = es1 ++ es2 → (length es2 < fuel)%nat → zlen buf = CHUNK_SIZE →
  ensures (scan_dir fuel rd (fs_inode i) (comp ++ [0]) (stream_len es1) buf k) (λ '(_, r), r = find_name comp es2).
Proof.
  intros Hrd Hv Hes Hc. destruct law_readdir as (rd' & E & Hlaw). rewrite Hrd in E. injection E as <-.
  destruct (law_entries i es Hv Hes) as [Hsl Hok]. clear Hrd.
  revert es1 es2 fuel buf k. intros es1 es2 fuel. revert es1 es2.
  induction fuel as [|fuel IH]; intros es1 es2 buf k Hes12 Hf Hb; [lia|]. cbn [scan_dir].
  pose proof (stream_len_nonneg es1). pose proof (stream_len_nonneg es2) as Hn2.
  eapply ensures_bind; [apply (Hlaw i (stream_len es1) CHUNK_SIZE k); [done|lia|unfold CHUNK_SIZE; lia]|].
  intros [k' [n out]]. rewrite Hes. intros [-> ->].
  rewrite Hes12. set (run := fill (es1 ++ es2) (stream_len es1) CHUNK_SIZE 0 0).
  assert (Forall dentry_ok es2) as Hok2.
  { rewrite Hes12 in Hok. apply Forall_app in Hok as [_ Hok]. eapply Forall_impl; [exact Hok|]. by intros e [? _]. }
  destruct (fill_run es1 es2 CHUNK_SIZE) as ((r & Hr) & Hnil & Hfit).
  { eapply Forall_impl; [exact Hok2|]. intros e (_ & _ & ?). unfold dlen, CHUNK_SIZE. lia. }
  fold run in Hr, Hnil, Hfit. specialize (Hfit ltac:(unfold CHUNK_SIZE; lia)).
  destruct (splice_front buf (encode run)) as (rest & -> & Hbl); [rewrite encode_len; lia|]. res_step.
  rewrite encode_len. destruct (Z.leb_spec (stream_len run) 0) as [Hz|Hz].
  { assert (run = []) as Hrun.
    { destruct run as [|e run']; [done|]. simpl in Hz. pose proof (dlen_pos e). pose proof (stream_len_nonneg run'). lia. }
    rewrite (Hnil Hrun). done. }
  rewrite Hr in Hok2. apply Forall_app in Hok2 as [Hokr _].
  pose proof (scan_chunk_spec chunk_fuel [] run rest comp Hokr Hc) as Hsc.
  change (zlen (@nil Z)) with 0 in Hsc. cbn [app] in Hsc. rewrite Z.add_0_l in Hsc. rewrite Hsc; [res_step| |lia].
  2: { pose proof (stream_len_count run). unfold chunk_fuel, zlen, CHUNK_SIZE in *. lia. }
  assert (find_name comp es2 = match find_name comp run with Some i => Some i | None => find_name comp r end) as ->.
  { rewrite Hr at 1. apply find_name_app. }
  destruct (find_name comp run) as [j|] eqn:Ej; [done|].
  rewrite Hes12, stream_len_app in Hsl.
  assert (stream_len es2 = stream_len run + stream_len r) as Es2 by (rewrite Hr at 1; apply stream_len_app).
  pose proof (stream_len_nonneg r).
  rewrite u64_small by (unfold is_u64; lia). rewrite <-stream_len_app. apply IH; [|..].
  - rewrite Hes12, Hr at 1. by rewrite <-app_assoc.
  - assert (0 < length run)%nat by (destruct run; [simpl in Hz; lia|simpl; lia]).
    assert (length es2 = length run + length r)%nat by (rewrite Hr at 1; apply length_app). lia.
  - by rewrite Hbl.
Qed.

(** ** Paths *)

(** A component the lookup can handle. *)
Definition comp_ok (c : list Z) : Prop := c ≠ [] ∧ Forall (λ x, x ≠ 47) c ∧ no_nul c ∧ zlen c < 255.

(** Components joined by slashes. *)
Fixpoint join (cs : list (list Z)) : list Z :=
  match cs with
  | [] => []
  | [c] => c
  | c :: cs => c ++ 47 :: join cs
  end.

Lemma join_cons c d cs : join (c :: d :: cs) = c ++ 47 :: join (d :: cs).
Proof. done. Qed.

Lemma next_component_word room c rest :
  Forall (λ x, x ≠ 47) c → no_nul c → (length c < room)%nat → 
  next_component room (c ++ 0 :: rest) = Ok (c, 0 :: rest) ∧ next_component room (c ++ 47 :: rest) = Ok (c, rest).
Proof.
  intros Hs Hn. revert room. induction Hs as [|x c Hx Hs IH]; intros room Hl; (destruct room as [|room]; [simpl in Hl; lia|]).
  - done.
  - inversion Hn as [|? ? Hx0 Hn']; subst. cbn [app next_component].
    rewrite (proj2 (Z.eqb_neq x 0)), (proj2 (Z.eqb_neq x 47)) by done.
    destruct (IH Hn' room) as [-> ->]; [simpl in Hl; lia|done].
Qed.

Lemma skip_leading_slashes n path : head path ≠ Some 47 → skip_leading (replicate n 47 ++ path) = path.
Proof.
  intros Hh. induction n as [|n IH]; simpl; [|done]. destruct path as [|c path]; [done|]. simpl in *.
  destruct (Z.eqb_spec c 47) as [->|]; done.
Qed.

Lemma join_head c cs tl : comp_ok c → ∃ x r, join (c :: cs) ++ 0 :: tl = x :: r ∧ x ≠ 0 ∧ x ≠ 47.
Proof.
  intros (Hne & Hs & Hn & _). destruct c as [|x c]; [done|]. inversion Hs; inversion Hn; subst.
  destruct cs as [|d cs]; simpl; eauto.
Qed.

(** What looking a path up gives: nothing when the tree has no such path or there
    is no memory, and otherwise the inode there. *)
Definition lookup_gives sb `{DirFs sb} (i : Z) (cs : list (list Z)) (r : Res (K * option (Inode P))) : Prop :=
  ensures r (λ '(_, o), match fs_resolve sb i cs with
    | Some j => o = Some (fs_inode j) ∨ (o = None ∧ can_fail (K := K))
    | None => o = None
    end).

(** The chunks a search may need: one more than the longest directory. *)
Definition fuel_ok sb `{DirFs sb} (dir_fuel : nat) : Prop :=
  (0 < dir_fuel)%nat ∧ ∀ i es, fs_valid i → fs_dir i = Some es → (length es < dir_fuel)%nat.

Lemma walk_path_spec sb `{DirFsLaws sb} cs i stale dir_fuel tl fuel k :
  fs_valid i → Forall comp_ok cs → fuel_ok sb dir_fuel → zlen stale = CHUNK_SIZE →
  (length cs < fuel)%nat →
  lookup_gives sb i cs (walk_path fuel dir_fuel stale sb (fs_inode i) (join cs ++ 0 :: tl) k).
Proof.
  intros Hv Hcs Hfu Hst. revert i Hv fuel k. induction Hcs as [|c cs Hc Hcs IH]; intros i Hv fuel k Hf;
    (destruct fuel as [|fuel]; [simpl in Hf; lia|]); cbn [walk_path].
  - simpl. by left.
  - destruct (join_head c cs tl Hc) as (x & r & Hx & Hx0 & _). rewrite Hx. change (zget (x :: r) 0) with (Some x). res_step.
    rewrite (proj2 (Z.eqb_neq x 0)) by done. rewrite <-Hx. destruct Hc as (Hne & Hs & Hn & Hl).
    set (rest := match cs with [] => 0 :: tl | _ => join cs ++ 0 :: tl end).
    assert (next_component 255 (join (c :: cs) ++ 0 :: tl) = Ok (c, rest)) as ->.
    { destruct (next_component_word 255 c (match cs with [] => tl | _ => join cs ++ 0 :: tl end) Hs Hn) as [N1 N2];
        [unfold zlen in Hl; lia|].
      destruct cs as [|d cs]; [exact N1|]. rewrite join_cons, <-app_assoc. exact N2. }
    assert (rest = join cs ++ 0 :: tl) as -> by by destruct cs.
    res_step. pose proof law_readdir as (rd & Hrd & Hlaw). rewrite Hrd. unfold lookup_gives.
    cbn [fs_resolve]. destruct (fs_dir i) as [es|] eqn:Hes; cbn [mbind option_bind].
    + eapply ensures_bind; [apply (scan_dir_spec sb rd i es [] es); try done; by eapply (proj2 Hfu)|].
      intros [k' o] ->. destruct (find_name c es) as [j|] eqn:Ej; cbn [mbind option_bind]; [|done].
      destruct law_get as (gi & Hgi & Hget). rewrite Hgi.
      assert (fs_valid j) as Hvj.
      { apply find_name_Some in Ej as (e & He & <- & _). destruct (law_entries i es Hv Hes) as [_ Hok].
        rewrite Forall_forall in Hok. by apply Hok. }
      eapply ensures_bind; [by apply Hget|]. intros [k2 o2] [->|[-> ?]]; [|simpl; by destruct (fs_resolve sb j cs); [right|]].
      apply IH; [done|simpl in Hf; lia].
    + (* a file on the way: its listing fails *)
      assert (ensures (scan_dir dir_fuel rd (fs_inode i) (c ++ [0]) 0 stale k) (λ '(_, r), r = None)) as Hsd.
      { destruct Hfu as [Hfu _]. destruct dir_fuel as [|dir_fuel]; [lia|]. cbn [scan_dir]. eapply ensures_bind; [by apply (Hlaw i 0 CHUNK_SIZE k)|]. intros [k' [n out]].
        rewrite Hes. intros [-> ->]. destruct (splice_front stale []) as (q & -> & _); [unfold zlen in *; simpl; lia|].
        done. }
      eapply ensures_bind; [exact Hsd|]. intros [k' o] ->. done.
Qed.

(** ** Mounts *)

(** The mount a path belongs to: the first whose prefix ends at a component
    boundary of the path. *)
Fixpoint mount_of (ms : list (list Z * SuperBlock K P)) (s : list Z) : option (SuperBlock K P * list Z) :=
  match ms with
  | [] => None
  | (p, sb) :: ms =>
      if decide (p `prefix_of` s ∧ (drop (length p) s = [] ∨ head (drop (length p) s) = Some 47))
      then Some (sb, drop (length p) s) else mount_of ms s
  end.

Definition c_mounts (ms : list (list Z * SuperBlock K P)) : list (list Z * SuperBlock K P) :=
  map (λ '(p, sb), (p ++ [0], sb)) ms.

Lemma find_mount_spec ms s tl :
  no_nul s → Forall (λ m, no_nul m.1) ms →
  find_mount (c_mounts ms) (s ++ 0 :: tl) = Ok ((λ '(sb, r), (sb, r ++ 0 :: tl)) <$> mount_of ms s).
Proof.
  intros Hs Hms. induction Hms as [|[p sb] ms Hp Hms IH]; [done|]. cbn [c_mounts map find_mount mount_of fst] in *.
  rewrite strlen_spec, c_string_app by done. cbn [fmap option_fmap option_map]. res_step.
  assert (no_nul s → ∃ d, strncmp (s ++ 0 :: tl) (p ++ [0]) (zlen p) = Ok d ∧ (d = 0 ↔ p `prefix_of` s)) as Hpre.
  { by apply strncmp_prefix. }
  destruct (Hpre Hs) as (d & -> & Hd). res_step. destruct (Z.eqb_spec d 0) as [->|Hne].
  - assert (p `prefix_of` s) as [r ->] by by apply Hd. unfold prefix_ends, zlen.
    assert (zget ((p ++ r) ++ 0 :: tl) (Z.of_nat (length p)) = Some (default 0 (head r))) as ->.
    { unfold zget. rewrite (proj2 (Z.ltb_ge _ _)) by lia. rewrite Nat2Z.id, <-app_assoc, lookup_app_r, Nat.sub_diag by lia.
      by destruct r. }
    res_step. rewrite !drop_app_length. rewrite Nat2Z.id, <-app_assoc, drop_app_length.
    destruct r as [|x r]; cbn [head default from_option]; unfold Datatypes.id.
    + rewrite decide_True; [done|]. split; [apply prefix_app_r; done|by left].
    + apply Forall_app in Hs as [_ Hr]. inversion Hr as [|? ? Hx _]; subst.
      rewrite (proj2 (Z.eqb_neq x 0)), orb_false_r by done. destruct (Z.eqb_spec x 47) as [->|Hx47].
      * rewrite decide_True; [done|]. split; [apply prefix_app_r; done|by right].
      * rewrite decide_False; [|naive_solver]. rewrite app_assoc. exact IH.
  - rewrite decide_False; [exact IH|]. intros [? _]. by apply Hne, Hd.
Qed.

(** ** Opening *)

(** What [open] gives for a path that leads to [target], if anywhere. *)
Definition open_gives sb `{DirFs sb} (target : option Z) (v : Vfs K P) (r : Res (Vfs K P * Z)) : Prop :=
  ensures r (λ '(v', f), s_mounts v' = s_mounts v ∧ root_sb v' = root_sb v ∧
    match target with
    | Some j => (f ≠ 0 ∧ files v' = <[f := MkFile sb (fs_inode j) 0]> (files v)) ∨
                (f = 0 ∧ files v' = files v ∧ can_fail (K := K))
    | None => f = 0 ∧ files v' = files v
    end).

Lemma open_spec sb `{DirFsLaws sb} `{!KernelEnvLaws K} (v : Vfs K P) dir_fuel stale path rel n cs tl :
  resolve_mount v path = Ok (Some sb, rel) → rel = replicate n 47 ++ join cs ++ 0 :: tl →
  Forall comp_ok cs → fuel_ok sb dir_fuel → zlen stale = CHUNK_SIZE →
  open_gives sb (fs_resolve sb fs_root cs) v (open dir_fuel stale path v).
Proof using All.
  intros Hm -> Hcs Hfu Hst. unfold open, open_gives. rewrite Hm. res_step.
  destruct law_root as (ri & -> & Hri). eapply ensures_bind; [apply Hri|].
  intros [k o] [->|[-> Hfail]].
  2: { simpl. split_and!; [done..|]. destruct (fs_resolve sb fs_root cs); [by right|done]. }
  assert (head (join cs ++ 0 :: tl) ≠ Some 47) as Hh.
  { destruct Hcs as [|c cs Hc _]; [done|]. destruct (join_head c cs tl Hc) as (x & r & -> & _ & ?). naive_solver. }
  assert (lookup_gives sb fs_root cs (lookup_path dir_fuel stale sb (fs_inode fs_root) (replicate n 47 ++ join cs ++ 0 :: tl) k)) as Hlk.
  { unfold lookup_path. rewrite skip_leading_slashes by done. destruct cs as [|c cs].
    - simpl. by left.
    - destruct (join_head c cs tl) as (x & r & Hx & Hx0 & _); [by inversion Hcs|]. rewrite Hx.
      change (zget (x :: r) 0) with (Some x). res_step. rewrite (proj2 (Z.eqb_neq x 0)) by done. rewrite <-Hx.
      apply (walk_path_spec sb); [apply law_root_valid|done..|].
      clear -Hcs. revert Hcs. generalize (c :: cs). clear. induction 1 as [|c cs Hc Hcs IH]; [simpl; lia|].
      rewrite length_app in *. destruct cs as [|d cs]; [destruct Hc as (? & _); destruct c; [done|simpl; lia]|].
      rewrite join_cons, length_app. simpl in *. lia. }
  eapply ensures_bind; [exact Hlk|]. intros [k2 o2] Ho. destruct (fs_resolve sb fs_root cs) as [j|] eqn:Ej.
  2: { subst o2. done. }
  destruct Ho as [->|[-> Hfail]]; [|simpl; split_and!; [done..|by right]].
  destruct (kmalloc_total SIZEOF_FILE k2) as [[[k3 p] E]|E]; rewrite E; [|done]. res_step.
  destruct (Z.eqb_spec p 0) as [->|Hp]; simpl.
  - split_and!; [done..|]. right. split_and!; [done..|]. by exists SIZEOF_FILE, k2, k3.
  - split_and!; [done..|]. by left.
Qed.

(** ** Reading a whole file *)

Lemma read_loop_spec sb `{DirFsLaws sb} (v : Vfs K P) file i bs buf pre fuel :
  fs_valid i → fs_contents i = Some bs → files v !! file = Some (MkFile sb (fs_inode i) (zlen pre)) →
  (∃ post, bs = pre ++ post) → zlen buf = zlen bs + 1 → take (length pre) buf = pre →
  (length bs - length pre < fuel)%nat →
  ensures (read_loop fuel file (zlen bs) (zlen pre) buf v) (λ '(v', r),
    ∃ buf', r = Some buf' ∧ take (length bs) buf' = bs ∧ zlen buf' = zlen bs + 1 ∧
      files v' = <[file := MkFile sb (fs_inode i) (zlen bs)]> (files v)).
Proof using All.
  intros Hv Hbs. destruct (law_read i bs Hv Hbs) as (Hsz & H32 & rd & Hrd & Hlaw).
  revert v buf pre. induction fuel as [|fuel IH]; intros v buf pre Hf [post Hpost] Hbl Hpre Hfu; [lia|].
  cbn [read_loop]. destruct (Z.ltb_spec (zlen pre) (zlen bs)) as [Hlt|Hge]; cbn [negb].
  - unfold file_read. rewrite Hf. res_step. cbn [f_sb inode offset]. rewrite Hrd.
    assert (0 ≤ zlen pre) by (unfold zlen; lia).
    assert (post ≠ []) as Hpne by (intros ->; rewrite app_nil_r in Hpost; subst; lia).
    assert (drop (Z.to_nat (zlen pre)) bs = post) as Hdrop.
    { unfold zlen. rewrite Nat2Z.id, Hpost. apply drop_app_length. }
    assert (zlen bs = zlen pre + zlen post) as Hlen by (rewrite Hpost; apply zlen_app).
    assert (0 < zlen post) by (unfold zlen; destruct post; [done|simpl; lia]).
    eapply (ensures_bind _ _ (λ '(v', (ret, out)), ret = zlen post ∧ out = post ∧
      files v' = <[file := MkFile sb (fs_inode i) (zlen bs)]> (files v))).
    { eapply ensures_bind; [apply Hlaw; lia|]. intros [k' [n out]]. rewrite Hdrop.
      rewrite take_ge by (unfold zlen in *; lia). intros [-> ->]. rewrite (proj2 (Z.ltb_lt 0 _)) by lia. simpl.
      rewrite u64_small by (unfold is_u64; lia). split_and!; [done..|]. by rewrite Hlen. }
    intros [v' [ret out]] (-> & -> & Hfs).
    assert (splice buf (zlen pre) post = Some (pre ++ post ++ drop (length bs) buf)) as ->.
    { unfold splice. rewrite (proj2 (Z.ltb_ge (zlen pre) 0)), (proj2 (Z.ltb_ge (zlen buf) _)) by lia. cbn [orb].
      unfold zlen in *. rewrite Nat2Z.id, Hpre. do 4 f_equal. lia. }
    res_step. rewrite (proj2 (Z.leb_gt _ _)) by lia. rewrite u64_small by (unfold is_u64; lia).
    rewrite <-Hlen. eapply ensures_mono; [apply (IH v' _ bs)|].
    + rewrite Hfs. apply lookup_insert_eq.
    + exists []. by rewrite app_nil_r.
    + rewrite app_assoc, <-Hpost, zlen_app. unfold zlen in *. rewrite length_drop. lia.
    + rewrite app_assoc, <-Hpost. apply take_app_length.
    + unfold zlen in *. lia.
    + intros [v2 r] (buf' & -> & T & L & F). exists buf'. split_and!; [done..|].
      rewrite F, Hfs. by rewrite insert_insert_eq.
  - assert (post = []) as ->.
    { apply (f_equal zlen) in Hpost. rewrite zlen_app in Hpost. unfold zlen in *. destruct post; [done|simpl in *; lia]. }
    rewrite app_nil_r in Hpost. subst pre. exists buf. split_and!; [done..|]. by rewrite insert_id.
Qed.

Lemma read_whole_file_spec sb `{DirFsLaws sb} `{!KernelEnvLaws K} (v : Vfs K P) file i bs fresh :
  fs_valid i → fs_contents i = Some bs → file ≠ 0 → files v !! file = Some (MkFile sb (fs_inode i) 0) →
  (∀ n, 0 ≤ n → zlen (fresh n) = n) →
  ensures (read_whole_file fresh file v) (λ '(v', r),
    (r = None ∧ can_fail (K := K)) ∨ ∃ p, p ≠ 0 ∧ r = Some (p, bs ++ [0])).
Proof using All.
  intros Hv Hbs Hnz Hf Hfr. destruct (law_read i bs Hv Hbs) as (Hsz & H32 & _).
  assert (0 ≤ zlen bs) by (unfold zlen; lia).
  unfold read_whole_file. rewrite (proj2 (Z.eqb_neq file 0)) by done. rewrite Hf. res_step. cbn [inode]. rewrite Hsz.
  rewrite u64_small by (unfold is_u64; lia).
  destruct (kmalloc_total (zlen bs + 1) (kern v)) as [[[k p] E]|E]; rewrite E; [|done]. res_step.
  destruct (Z.eqb_spec p 0) as [->|Hp]; [left; split; [done|by eapply null_can_fail, E; lia]|].
  eapply ensures_bind; [apply (read_loop_spec sb (with_kern k v) file i bs (fresh (zlen bs + 1)) [])|]; try done.
  - by exists bs.
  - apply Hfr. lia.
  - unfold zlen. simpl. lia.
  - intros [v' r]. cbv beta iota. intros (buf & -> & T & L & _).
    assert (∃ x, buf = bs ++ [x]) as [x ->].
    { exists (default 0 (head (drop (length bs) buf))). rewrite <-(take_drop (length bs) buf) at 1. rewrite T. f_equal.
      assert (length (drop (length bs) buf) = 1)%nat as L1 by (rewrite length_drop; unfold zlen in *; lia).
      destruct (drop (length bs) buf) as [|y [|z q]]; simpl in L1; done || lia. }
    unfold zset. rewrite (proj2 (Z.ltb_ge (zlen bs) 0)) by lia. cbn [orb].
    rewrite (proj2 (Z.leb_gt _ _)) by (rewrite length_app; unfold zlen; simpl; lia). res_step.
    right. exists p. split; [done|]. unfold zlen. rewrite Nat2Z.id, insert_app_r_alt, Nat.sub_diag by lia. done.
Qed.

End spec.
