(* ===== verification/TarVfs.v ===== *)
(** * The initrd through the VFS

    The initrd driver keeps the promise of [VfsSpec]; so opening a path of a
    mounted archive and reading the whole file gives the bytes the archive holds
    for it. *)

From stdpp Require Import functions.
From S2P Require Import Prelude CString Task Fs Tarfs TarTree TarPath TarMount Vfs VfsSpec BumpEnv.

Section inst.
Context {K : Type} `{KernelEnvLaws K}.
Context (st : TarState) (kids : Z → list Z) (nm : Z → list Z).
Context (Htree : tree_ok st kids nm) (Hcap : cap_nodes st < 2 ^ 31).

Definition node_entries (i : Z) : list dentry := map (λ c, (c, nm c)) (kids i).

#[local] Instance tar_dirfs : DirFs (tar_sb (K := K) st) := {
  fs_inode i := match zget (nodes st) i with
                | Some n => MkInode i (size n) (is_dir n) i
                | None => MkInode i 0 false i
                end;
  fs_valid i := 0 ≤ i < num_nodes st;
  fs_dir i := n ← zget (nodes st) i; if is_dir n then Some (node_entries i) else None;
  fs_contents i := n ← zget (nodes st) i;
    if is_dir n || negb (size n <? 2 ^ 32) then None else slice (base st) (data_offset n) (size n);
  fs_root := 0;
}.

Lemma node_name c : 0 ≤ c < num_nodes st → no_nul (nm c) ∧ zlen (nm c) < 100.
Proof using Htree.
  intros Hc. destruct (tr_node _ _ _ Htree c Hc) as (n & Hn & Hs & _).
  apply c_string_Some in Hs as (Hnn & r & Hr). split; [done|].
  pose proof (tr_buf _ _ _ Htree _ _ Hn) as Hb. rewrite Hr, zlen_app in Hb. unfold NAME_LEN, zlen in *.
  simpl in Hb. lia.
Qed.

Lemma readdir_loop_spec fuel l cur off count out pos :
  (∀ c, c ∈ l → 0 ≤ c < num_nodes st) → chain st cur l → (length l < fuel)%nat →
  readdir_loop fuel st cur off count out pos =
    Ok (out ++ encode (fill (map (λ c, (c, nm c)) l) off count pos (zlen out))).
Proof using Htree.
  revert cur out pos fuel. induction l as [|c l IH]; intros cur out pos fuel Hl Hch Hf;
    (destruct fuel as [|fuel]; [simpl in Hf; lia|]); cbn [readdir_loop]; simpl in Hch.
  - rewrite Hch. simpl. by rewrite app_nil_r.
  - destruct Hch as (-> & Hc & n & Hn & Hch). rewrite (proj2 (Z.eqb_neq c (-1))) by lia.
    unfold get_node. rewrite Hn. res_step.
    assert (0 ≤ c < num_nodes st) as Hcb by apply Hl, list_elem_of_here.
    destruct (tr_node _ _ _ Htree c Hcb) as (n' & Hn' & Hs & _). assert (n' = n) as -> by congruence.
    rewrite strlen_spec, Hs. cbn [fmap option_fmap option_map]. res_step.
    pose proof Hs as (_ & r & Hr)%c_string_Some.
    assert (slice (t_name n) 0 (zlen (nm c)) = Some (nm c)) as ->.
    { unfold slice. rewrite Hr. rewrite (proj2 (Z.ltb_ge (zlen (nm c)) 0)) by (unfold zlen; lia).
      rewrite (proj2 (Z.ltb_ge (zlen _) _)) by (rewrite zlen_app; unfold zlen; lia). simpl orb. cbv iota.
      unfold zlen. by rewrite Nat2Z.id, drop_0, take_app_length. }
    assert (∀ c', c' ∈ l → 0 ≤ c' < num_nodes st) as Hl' by (intros c' ?; by apply Hl, list_elem_of_further).
    assert (dlen (c, nm c) = 8 + zlen (nm c) + 1) as Hdl by (unfold dlen; simpl; lia).
    cbn [map fill]. rewrite Hdl. destruct (Z.leb_spec off pos); [destruct (Z.ltb_spec count (zlen out + (8 + zlen (nm c) + 1)))|].
    + by rewrite app_nil_r.
    + res_step. rewrite (IH _ _ _ fuel) by (done || (simpl in Hf; lia)). rewrite encode_cons, zlen_app.
      pose proof (dirent_len (c, nm c)) as E. cbn [fst snd] in *. rewrite E, Hdl. by rewrite <-app_assoc.
    + rewrite (IH _ _ _ fuel) by (done || (simpl in Hf; lia)). done.
Qed.

Lemma make_vfs_inode_gives i (k : K) :
  0 ≤ i < num_nodes st → gives_inode (make_vfs_inode st i k) (fs_inode i).
Proof using All.
  intros Hi. unfold make_vfs_inode, gives_inode. rewrite (proj2 (Z.ltb_ge i 0)), (proj2 (Z.leb_gt _ i)) by lia. cbn [orb].
  destruct (kmalloc_cases SIZEOF_INODE k) as [->|[[k1 E1]|(k1 & p1 & E1 & P1 & V1)]]; [done|..]; rewrite E1; res_step.
  { right. split; [done|]. by eapply null_can_fail, E1. }
  rewrite (proj2 (Z.eqb_neq p1 0)) by done.
  destruct (kmalloc_cases 4 k1) as [->|[[k2 E2]|(k2 & p2 & E2 & P2 & V2)]]; [done|..]; rewrite E2; res_step.
  { destruct (kfree_spec p1 k2) as (k2' & -> & _); [by rewrite (kmalloc_null_live _ _ _ _ E2)|].
    right. split; [done|]. by eapply null_can_fail, E2. }
  rewrite (proj2 (Z.eqb_neq p2 0)) by done.
  destruct (tr_node _ _ _ Htree i Hi) as (n & Hn & _). unfold get_node. cbn [fs_inode tar_dirfs]. rewrite Hn. res_step. by left.
Qed.

Lemma stream_bound l B : (∀ c, c ∈ l → dlen (c, nm c) ≤ B) → stream_len (map (λ c, (c, nm c)) l) ≤ B * zlen l.
Proof.
  unfold zlen. induction l as [|c l IH]; intros Hl; simpl; [lia|].
  pose proof (Hl c (list_elem_of_here _ _)). assert (stream_len (map (λ c, (c, nm c)) l) ≤ B * Z.of_nat (length l)).
  { apply IH. intros c' ?. by apply Hl, list_elem_of_further. } lia.
Qed.

#[local] Instance tar_dirfs_laws : DirFsLaws (tar_sb (K := K) st).
Proof using All.
  pose proof (tr_num _ _ _ Htree) as [Hnum _].
  assert (∀ i c, 0 ≤ i < num_nodes st → c ∈ kids i → 0 ≤ c < num_nodes st) as Hk.
  { intros i c Hi Hc. pose proof (tr_kids _ _ _ Htree _ _ Hi Hc). lia. }
  split.
  - eexists. split; [done|]. intros i off count k Hi Ho Hc. cbn [fs_valid fs_inode fs_dir tar_dirfs] in *.
    destruct (tr_node _ _ _ Htree i Hi) as (n & Hn & _ & Hch). rewrite Hn. cbn [mbind option_bind].
    unfold tar_readdir, get_node. cbn [private_data]. rewrite Hn. res_step. destruct (is_dir n); cbn [negb]; [|done].
    rewrite (readdir_loop_spec _ (kids i)); [|by intros c; apply Hk|done|by eapply kids_length]. res_step.
    split; done.
  - intros i es Hi. cbn [fs_valid fs_dir tar_dirfs] in *.
    destruct (tr_node _ _ _ Htree i Hi) as (n & Hn & _). rewrite Hn. cbn [mbind option_bind].
    destruct (is_dir n); [|done]. intros [= <-]. split.
    + pose proof (stream_bound (kids i) 109) as Hs. pose proof (kids_length _ _ _ _ Htree Hi) as Hkl.
      unfold node_fuel, node_entries, zlen in *. enough (stream_len (map (λ c, (c, nm c)) (kids i)) ≤ 109 * Z.of_nat (length (kids i))) by lia.
      apply Hs. intros c Hc. destruct (node_name c (Hk i c Hi Hc)). unfold dlen, zlen in *. simpl. lia.
    + apply Forall_forall. unfold node_entries. intros e (c & -> & Hc)%list_elem_of_fmap. simpl.
      destruct (node_name c (Hk i c Hi Hc)). pose proof (Hk i c Hi Hc). split; [|done].
      split_and!; [unfold is_u64; simpl; lia|done|simpl; lia].
  - intros i bs Hi. cbn [fs_valid fs_inode fs_contents tar_dirfs] in *.
    destruct (tr_node _ _ _ Htree i Hi) as (n & Hn & _). rewrite Hn. cbn [mbind option_bind].
    destruct (is_dir n) eqn:Ed; cbn [orb]; [done|]. destruct (Z.ltb_spec (size n) (2 ^ 32)) as [Hs|]; cbn [negb]; [|done].
    intros Hsl. pose proof (slice_length _ _ _ _ Hsl) as Hlen. split; [done|]. split; [lia|].
    eexists. split; [done|]. intros off count k Ho Hc. unfold tar_read, get_node. cbn [private_data]. rewrite Hn. res_step.
    rewrite Ed. unfold slice in Hsl. destruct (_ || _) eqn:Eb in Hsl; [done|]. bool_arith. injection Hsl as Hsl.
    destruct (Z.leb_spec (size n) off) as [Hoff|Hoff].
    { rewrite drop_ge by (unfold zlen in Hlen; lia). by rewrite take_nil. }
    rewrite u64_small by (unfold is_u64; lia).
    set (m := if size n <? off + count then size n - off else count).
    assert (0 ≤ m ∧ off + m ≤ size n ∧ (m = count ∨ off + m = size n ∧ m ≤ count)) as (M0 & M1 & M2).
    { unfold m. case_cmp; lia. }
    assert (slice (base st) (data_offset n + off) m = Some (take (Z.to_nat count) (drop (Z.to_nat off) bs))) as ->.
    { unfold slice. rewrite (proj2 (Z.ltb_ge (data_offset n + off) 0)), (proj2 (Z.ltb_ge m 0)),
        (proj2 (Z.ltb_ge (zlen (base st)) _)) by lia. cbn [orb]. f_equal.
      rewrite <-Hsl. rewrite skipn_firstn_comm, drop_drop. replace (Z.to_nat (data_offset n + off)) with (Z.to_nat (data_offset n) + Z.to_nat off)%nat by lia.
      rewrite take_take. f_equal. lia. }
    res_step. assert (zlen (take (Z.to_nat count) (drop (Z.to_nat off) bs)) = m) as Hm.
    { unfold zlen in *. rewrite length_take, length_drop. lia. }
    split; [done|]. rewrite Hm. unfold i64_of. rewrite u64_small by (unfold is_u64; lia). by rewrite (proj2 (Z.ltb_lt _ _)) by lia.
  - eexists. split; [done|]. intros i k Hi. cbn [fs_valid tar_dirfs] in Hi. unfold tar_get_inode.
    rewrite u32_small by (unfold is_u32; lia). rewrite (proj2 (Z.ltb_lt _ _)) by lia. by apply make_vfs_inode_gives.
  - eexists. split; [done|]. intros k. apply (make_vfs_inode_gives 0); lia.
  - change (0 ≤ 0 < num_nodes st). lia.
Qed.

Lemma find_name_entries comp l :
  find_name comp (map (λ c, (c, nm c)) l) = first_named nm comp l.
Proof. induction l as [|c l IH]; [done|]. simpl. by rewrite IH. Qed.

(** A path whose proper prefixes are directories resolves as in the tree. *)
Lemma tar_resolve p cs j :
  0 ≤ p < num_nodes st → resolve kids nm p cs = Some j →
  (∀ ds i, ds `prefix_of` cs → ds ≠ cs → resolve kids nm p ds = Some i → ∃ a b, attr st i = Some (true, a, b)) →
  fs_resolve (tar_sb (K := K) st) p cs = Some j.
Proof using All.
  revert p. induction cs as [|c cs IH]; intros p Hp Hr Hdirs; [done|]. simpl in Hr |- *.
  destruct (Hdirs [] p) as (a & b & Ha); [apply prefix_nil|done|done|]. unfold attr in Ha.
  destruct (zget (nodes st) p) as [n|]; [|done]. cbn in Ha |- *. injection Ha as -> _ _. cbn.
  unfold node_entries. rewrite find_name_entries. destruct (first_named nm c (kids p)) as [q|] eqn:Eq; [|done].
  cbn in Hr |- *. apply IH; [|done|].
  - apply first_named_Some in Eq as [Eq _]. pose proof (tr_kids _ _ _ Htree _ _ Hp Eq). lia.
  - intros ds i Hds Hne Hi. apply (Hdirs (c :: ds)); [by apply prefix_cons|congruence|]. simpl. by rewrite Eq.
Qed.

Lemma tar_no_resolve p cs :
  resolve kids nm p cs = None → fs_resolve (tar_sb (K := K) st) p cs = None.
Proof using All.
  revert p. induction cs as [|c cs IH]; intros p Hr; [done|]. simpl in Hr |- *.
  destruct (zget (nodes st) p) as [n|]; [|done]. cbn. destruct (is_dir n); [|done]. cbn.
  unfold node_entries. rewrite find_name_entries. destruct (first_named nm c (kids p)) as [q|]; [|done]. cbn in Hr |- *. by apply IH.
Qed.

(** More chunks than nodes are never needed. *)
Lemma tar_fuel_ok : fuel_ok (tar_sb (K := K) st) (node_fuel st).
Proof using All.
  split; [unfold node_fuel; lia|]. intros i es Hi. cbn [fs_valid fs_dir tar_dirfs] in *.
  destruct (tr_node _ _ _ Htree i Hi) as (n & Hn & _). rewrite Hn. cbn. destruct (is_dir n); [|done].
  intros [= <-]. unfold node_entries. rewrite length_map. by eapply kids_length.
Qed.

End inst.

(** ** Reading a file of a mounted archive *)

Lemma comps_words s w : w ∈ comps s → w ≠ [] ∧ no_slash w.
Proof.
  intros Hw. unfold comps in Hw. apply list_elem_of_In, filter_In in Hw as [Hw%list_elem_of_In Hne].
  split; [by intros ->|]. clear Hne. revert w Hw. induction s as [|c s IH]; intros w; simpl.
  - intros ->%list_elem_of_singleton. constructor.
  - destruct (Z.eqb_spec c 47) as [->|Hc].
    + intros [->|Hw]%elem_of_cons; [constructor|by apply IH].
    + destruct (split_slash s) as [|w0 r] eqn:Es.
      * intros ->%list_elem_of_singleton. by constructor.
      * intros [->|Hw]%elem_of_cons; [constructor; [done|]; apply IH, list_elem_of_here|].
        apply IH. by apply list_elem_of_further.
Qed.

Lemma stamp_last l1 e l2 :
  e_path e ≠ [] → (∀ e', e' ∈ l2 → e_path e' ≠ e_path e) →
  stamp (l1 ++ e :: l2) (e_path e) = (e_dir e, e_off e, e_size e).
Proof.
  intros Hne. induction l2 as [|e' l2 IH] using rev_ind; intros Hl.
  - rewrite stamp_snoc. by rewrite decide_True.
  - change (l1 ++ e :: l2 ++ [e']) with (l1 ++ (e :: l2) ++ [e']). rewrite app_assoc, stamp_snoc, decide_False.
    + apply IH. intros x Hx. apply Hl, elem_of_app. by left.
    + intros [He _]. apply (Hl e'); [|done]. apply elem_of_app. right. apply list_elem_of_here.
Qed.

Lemma stamp_dir l ds : ds = [] ∨ (∀ e, e ∈ l → e_path e = ds → e_dir e = true) → ∃ a b, stamp l ds = (true, a, b).
Proof.
  intros Hl. induction l as [|e l IH] using rev_ind; [by exists 0, 0|]. rewrite stamp_snoc. case_decide as Hd.
  - destruct Hl as [->|Hl]; [by destruct Hd|]. rewrite (Hl e); [by eexists _, _| |apply Hd].
    apply elem_of_app. right. apply list_elem_of_here.
  - apply IH. destruct Hl as [?|Hl]; [by left|right]. intros e' He'. apply Hl, elem_of_app. by left.
Qed.

Section read.
Context {K : Type} `{KernelEnvLaws K}.

(** Opening [path] and reading the whole file gives [data], unless an allocation
    fails. *)
Definition opens_and_reads (dir_fuel : nat) (stale path : list Z) (fresh : Z → list Z) (data : list Z) (v : Vfs K Z) : Prop :=
  ensures (open dir_fuel stale path v) (λ '(v', f),
    (f = 0 ∧ can_fail (K := K)) ∨
    (f ≠ 0 ∧ ensures (read_whole_file fresh f v') (λ '(_, r),
       (r = None ∧ can_fail (K := K)) ∨ ∃ p, p ≠ 0 ∧ r = Some (p, data ++ [0])))).

(** C19. A file of the initrd reads back: once an archive is mounted as the root,
    opening the path of a file entry (with any number of leading slashes) and
    reading it whole gives exactly the bytes the archive holds for the last entry
    with that path, followed by a NUL.  The entry's parents must not also be listed
    as files. *)
Theorem initrd_file_reads_back bs fresh (k k1 : K) l l1 e l2 st sb data (v : Vfs K Z) n stale fresh2 :
  512 ≤ zlen bs < 2 ^ 32 → take 5 (drop 257 bs) = [117; 115; 116; 97; 114] →
  archive_entries (archive_fuel (zlen bs)) bs 0 = Ok l → Forall e_good l → fresh_ok (zlen l * 8 + 16) fresh →
  total_comps l ≤ zlen l * 8 + 15 →
  l = l1 ++ e :: l2 → (∀ e', e' ∈ l2 → e_path e' ≠ e_path e) → e_dir e = false → e_path e ≠ [] →
  (∀ e' , e' ∈ l → e_path e' `prefix_of` e_path e → e_path e' ≠ e_path e → e_dir e' = true) →
  slice bs (e_off e) (e_size e) = Some data →
  Tarfs.mount bs (zlen bs) fresh k = Ok (k1, Some (st, sb)) →
  root_sb v = Some sb → s_mounts v = [] → zlen stale = CHUNK_SIZE → (∀ n, 0 ≤ n → zlen (fresh2 n) = n) →
  opens_and_reads (node_fuel st) stale (replicate n 47 ++ join (e_path e) ++ [0]) fresh2 data v.
Proof using H0.
  intros Hb Hmagic Hl Hg Hfr Htot El Hlast Hfile Hne Hdirs Hdata Em Hroot Hms Hst Hfr2.
  pose proof (mount_spec bs fresh k l ltac:(lia) Hmagic Hl Hg Hfr) as Hm. rewrite Em in Hm.
  destruct Hm as (-> & Hbase & Hcap & kids & nm & Ht & Hrf). destruct (Hrf Htot) as [Ra Rp].
  pose proof (archive_entries_length _ bs 0 l ltac:(lia) Hl) as Hlen.
  assert (cap_nodes st < 2 ^ 31) as Hcap31 by lia. pose proof (tr_num _ _ _ Ht) as [Hnum _].
  assert (e ∈ l) as Hein by (rewrite El; apply elem_of_app; right; apply list_elem_of_here).
  assert (is_Some (resolve kids nm 0 (e_path e))) as [i Hi] by (apply Rp; right; by exists e).
  pose proof (Ra _ _ Hi) as Hai. rewrite El, stamp_last, Hfile in Hai by done.
  assert (attr st i = Some (false, e_off e, e_size e)) as Hai' by exact Hai. clear Hai.
  pose proof (tar_dirfs_laws (K := K) st kids nm Ht Hcap31) as Hlaws.
  assert (fs_resolve (tar_sb (K := K) st) (DirFs0 := tar_dirfs st kids nm) 0 (e_path e) = Some i) as Hres.
  { apply (tar_resolve st kids nm Ht Hcap31); [lia|done|]. intros ds j Hpre Hdne Hj. rewrite (Ra _ _ Hj).
    destruct (stamp_dir l ds) as (a & b & ->); [|by exists a, b]. right. intros e' He' <-. by apply Hdirs. }
  assert (0 ≤ i < num_nodes st) as Hiv.
  { destruct (resolve_bounds st kids nm 0 (e_path e) i Ht ltac:(lia) Hi). lia. }
  assert (fs_contents (sb := tar_sb (K := K) st) (DirFs := tar_dirfs st kids nm) i = Some data) as Hcont.
  { cbn [fs_contents tar_dirfs]. unfold attr in Hai'. destruct (zget (nodes st) i) as [x|]; [|done].
    cbn in Hai' |- *. injection Hai' as Hx1 Hx2 Hx3. rewrite Hx1, Hx2, Hx3, Hbase.
    pose proof (slice_length _ _ _ _ Hdata) as Hsz. unfold slice in Hdata. destruct (_ || _) eqn:Eb in Hdata; [done|]. bool_arith.
    rewrite (proj2 (Z.ltb_lt _ _)) by lia. cbn [negb orb]. unfold slice.
    rewrite (proj2 (Z.ltb_ge _ _)), (proj2 (Z.ltb_ge (e_size e) 0)), (proj2 (Z.ltb_ge (zlen bs) _)) by lia. done. }
  assert (Forall comp_ok (e_path e)) as Hcs.
  { rewrite Forall_forall in Hg. destruct (Hg e Hein) as [_ Hnames]. rewrite Forall_forall in Hnames.
    apply Forall_forall. intros w Hw. destruct (Hnames w Hw) as [Hw1 Hw2].
    destruct (comps_words _ _ Hw) as [Hw3 Hw4]. split_and!; [done..|lia]. }
  unfold opens_and_reads.
  eapply ensures_mono; [apply (@open_spec _ _ _ (tar_sb st) (tar_dirfs st kids nm) Hlaws _ v (node_fuel st) stale
    (replicate n 47 ++ join (e_path e) ++ [0]) (replicate n 47 ++ join (e_path e) ++ [0]) n (e_path e) []); try done|].
  - unfold resolve_mount. rewrite Hms, Hroot. done.
  - by apply (tar_fuel_ok st kids nm Ht Hcap31).
  - intros [v' f] (_ & _ & Hopen). cbn [fs_root tar_dirfs] in Hopen. rewrite Hres in Hopen.
    destruct Hopen as [[Hf0 Hfiles]|(-> & _ & Hfail)]; [|by left]. right. split; [done|].
    eapply (@read_whole_file_spec _ _ _ (tar_sb st) (tar_dirfs st kids nm) Hlaws _ v' f i data); try done. rewrite Hfiles. apply lookup_insert_eq.
Qed.

End read.

(** ** Concrete runs *)

(** A kernel with the sample archive mounted as its root. *)
Definition sample_vfs (sb : SuperBlock Bump Z) (k : Bump) : Vfs Bump Z := MkVfs k (Some sb) [] ∅.

(** "/bin/a" holds the bytes 1, 2 and 3. *)
Lemma initrd_file_reads_back_witness :
  ∃ k1 st sb, Tarfs.mount sample_archive (zlen sample_archive) sample_fresh (MkBump 0x1000 []) = Ok (k1, Some (st, sb)) ∧
    opens_and_reads (node_fuel st) (replicate 512 0) (replicate 1 47 ++ join [[98; 105; 110]; [97]] ++ [0])
      (λ n, replicate (Z.to_nat n) 0) [1; 2; 3] (sample_vfs sb k1).
Proof.
  destruct (mounted_inv _ sample_mounted) as (k1 & st & sb & E).
  exists k1, st, sb. split; [exact E|].
  apply (initrd_file_reads_back sample_archive sample_fresh (MkBump 0x1000 []) k1 sample_entries
    [MkEntry [98; 105; 110; 47] true 0 0] (MkEntry [46; 47; 98; 105; 110; 47; 97] false 1024 3) [] st sb [1; 2; 3]
    (sample_vfs sb k1) 1 (replicate 512 0) (λ n, replicate (Z.to_nat n) 0)).
  - vm_compute. split; congruence.
  - vm_compute. reflexivity.
  - vm_compute. reflexivity.
  - repeat constructor; vm_compute; congruence.
  - split; [vm_compute; discriminate|]. apply Forall_replicate. reflexivity.
  - vm_compute. discriminate.
  - reflexivity.
  - intros e' Hin. apply not_elem_of_nil in Hin as [].
  - reflexivity.
  - vm_compute. discriminate.
  - intros e' Hin Hpre Hne. apply elem_of_cons in Hin as [->|Hin]; [reflexivity|].
    apply list_elem_of_singleton in Hin as ->. by destruct Hne.
  - vm_compute. reflexivity.
  - exact E.
  - reflexivity.
  - reflexivity.
  - reflexivity.
  - intros n Hn. unfold zlen. rewrite length_replicate. lia.
Defined.
