(* ===== verification/Tty.v ===== *)
(** * The text console ([tty/tty.cpp], [io/vga.cpp], [lib/port.hpp])

    Four virtual consoles of 80 by 25 cells, the VGA text buffer and the CRT
    controller's cursor registers.  A cell is a 16-bit word, colour in the high
    byte.  [row] and [col] are [u8]: their arithmetic wraps. *)

From S2P Require Import Prelude.

Definition VGA_WIDTH : Z := 80.
Definition VGA_HEIGHT : Z := 25.
Definition NUM_CONSOLES : Z := 4.
Definition COLOR : Z := 0x0F.

Record Console := MkConsole {
  buffer : list Z;
  row : Z;
  col : Z;
}.

(** [vga] is the text buffer at 0xB8000; [outb_log] the port writes so far, the
    latest first. *)
Record Tty := MkTty {
  consoles : list Console;
  active_console : Z;
  initialized : bool;
  vga : list Z;
  outb_log : list (Z * Z);
}.

Definition with_vga (v : list Z) (t : Tty) : Tty :=
  MkTty (consoles t) (active_console t) (initialized t) v (outb_log t).
Definition outb (port value : Z) (t : Tty) : Tty :=
  MkTty (consoles t) (active_console t) (initialized t) (vga t) ((port, value) :: outb_log t).

(** [consoles\[i\]] and the assignment through a reference to it. *)
Definition get_console (t : Tty) (i : Z) : Res Console := or_fault (zget (consoles t) i).
Definition put_console (i : Z) (con : Console) (t : Tty) : Res Tty :=
  cs ← or_fault (zset (consoles t) i con);
  Ok (MkTty cs (active_console t) (initialized t) (vga t) (outb_log t)).

Definition vga_entry (c : Z) : Z := Z.lor (Z.shiftl COLOR 8) c.
Definition blank : Z := vga_entry 32.

Definition update_cursor (t : Tty) : Res Tty :=
  con ← get_console t (active_console t);
  let pos := row con * VGA_WIDTH + col con in
  Ok (outb 0x3D5 (Z.land (Z.shiftr pos 8) 0xFF) (outb 0x3D4 0x0E
     (outb 0x3D5 (Z.land pos 0xFF) (outb 0x3D4 0x0F t)))).

Definition render_console (idx : Z) (t : Tty) : Res Tty :=
  con ← get_console t idx;
  v ← iter_upM (Z.to_nat (VGA_WIDTH * VGA_HEIGHT)) 0 1 (λ i v,
    c ← or_fault (zget (buffer con) i); or_fault (zset v i c)) (vga t);
  let t := with_vga v t in
  if idx =? active_console t then update_cursor t else Ok t.

Definition scroll (con : Console) : Res Console :=
  b ← iter_upM (Z.to_nat (VGA_HEIGHT - 1)) 1 1 (λ row b,
    let src := row * VGA_WIDTH in
    let dst := (row - 1) * VGA_WIDTH in
    iter_upM (Z.to_nat VGA_WIDTH) 0 1 (λ col b,
      c ← or_fault (zget b (src + col)); or_fault (zset b (dst + col) c)) b) (buffer con);
  let last := (VGA_HEIGHT - 1) * VGA_WIDTH in
  b ← iter_upM (Z.to_nat VGA_WIDTH) 0 1 (λ col b, or_fault (zset b (last + col) blank)) b;
  Ok (MkConsole b (VGA_HEIGHT - 1) 0).

(** One console of the initialisation loop. *)
Definition blank_console (i : Z) (t : Tty) : Res Tty :=
  con ← get_console t i;
  b ← iter_upM (Z.to_nat (VGA_WIDTH * VGA_HEIGHT)) 0 1 (λ j b, or_fault (zset b j blank)) (buffer con);
  put_console i (MkConsole b 0 0) t.

(** The label '1', '2', '3' or '4' of console [i]. *)
Definition label_console (i : Z) (t : Tty) : Res Tty :=
  con ← get_console t i;
  b ← or_fault (zset (buffer con) 0 (vga_entry (49 + i)));
  put_console i (MkConsole b (row con) (col con)) t.

Definition init (t : Tty) : Res Tty :=
  t ← iter_upM (Z.to_nat NUM_CONSOLES) 0 1 blank_console t;
  t ← label_console 0 t;
  t ← label_console 1 t;
  t ← label_console 2 t;
  t ← label_console 3 t;
  t ← render_console 0 (MkTty (consoles t) 0 (initialized t) (vga t) (outb_log t));
  Ok (MkTty (consoles t) (active_console t) true (vga t) (outb_log t)).

(** The cursor moves to the next line; past the last line the console scrolls. *)
Definition next_line (con : Console) (t : Tty) : Res Tty :=
  let con := MkConsole (buffer con) (u8 (row con + 1)) (col con) in
  if VGA_HEIGHT <=? row con then
    con ← scroll con;
    t ← put_console (active_console t) con t;
    t ← render_console (active_console t) t;
    update_cursor t
  else
    t ← put_console (active_console t) con t;
    update_cursor t.

Definition print_char (c : Z) (t : Tty) : Res Tty :=
  if negb (initialized t) then Ok t else
  con ← get_console t (active_console t);
  if c =? 8 then
    if col con =? 0 then
      let r := u8 (row con - 1) in
      let r := if r <? 0 then 0 else r in
      put_console (active_console t) (MkConsole (buffer con) r (VGA_WIDTH - 1)) t
    else
      let con := MkConsole (buffer con) (row con) (u8 (col con - 1)) in
      let pos := row con * VGA_WIDTH + col con in
      b ← or_fault (zset (buffer con) pos blank);
      t ← put_console (active_console t) (MkConsole b (row con) (col con)) t;
      v ← or_fault (zset (vga t) pos blank);
      update_cursor (with_vga v t)
  else if c =? 10 then next_line (MkConsole (buffer con) (row con) 0) t
  else
    let cell := vga_entry (u8 c) in
    let pos := row con * VGA_WIDTH + col con in
    b ← or_fault (zset (buffer con) pos cell);
    v ← or_fault (zset (vga t) pos cell);
    let t := with_vga v t in
    let con := MkConsole b (row con) (u8 (col con + 1)) in
    if VGA_WIDTH <=? col con then next_line (MkConsole b (row con) 0) t
    else
      t ← put_console (active_console t) con t;
      update_cursor t.

(** [print] of a string: [s] holds the bytes from the pointer on. *)
Fixpoint print (s : list Z) (t : Tty) : Res Tty :=
  match s with
  | [] => Fault
  | c :: s => if c =? 0 then Ok t else t ← print_char c t; print s t
  end.

Definition switch_to (n : Z) (t : Tty) : Res Tty :=
  if (n <? 0) || (NUM_CONSOLES <=? n) then Ok t
  else render_console n (MkTty (consoles t) n (initialized t) (vga t) (outb_log t)).

Definition active (t : Tty) : Z := active_console t.
