(* ===== verification/TtySpec.v ===== *)
(** * What the console shows

    A reference terminal (a grid of cells and a cursor), and the proof that
    printing to the active console is typing on that terminal while the VGA buffer
    shows it and the hardware cursor follows. *)

From S2P Require Import Prelude Tty.

(** ** Array loops *)

(** A loop that stores [x k] at [lo + k] for each [k]. *)
Lemma set_loop {A} (g : Z → list A → Res (list A)) (x : nat → A) n (lo : nat) b :
  (lo + n ≤ length b)%nat →
  (∀ k v, (k < n)%nat → g (Z.of_nat k) v = or_fault (zset v (Z.of_nat (lo + k)) (x k))) →
  iter_upM n 0 1 g b = Ok (take lo b ++ map x (seq 0 n) ++ drop (lo + n) b).
Proof.
  intros Hlen Hg.
  apply (iter_upM_eq (λ z, take lo b ++ map x (seq 0 (Z.to_nat z)) ++ drop (lo + Z.to_nat z) b)).
  - rewrite Nat.add_0_r. simpl. by rewrite take_drop.
  - by rewrite !Z.mul_1_r, Z.add_0_l, Nat2Z.id.
  - intros k Hk. rewrite !Z.mul_1_r, !Z.add_0_l, Nat2Z.id, Hg by done.
    rewrite zset_is by (unfold zlen; rewrite !length_app, length_map, length_seq, length_take, length_drop; lia).
    cbn [or_fault]. f_equal. rewrite Nat2Z.id, Z2Nat.inj_add, Nat2Z.id by lia.
    rewrite insert_app_r_alt by (rewrite length_take; lia). f_equal.
    rewrite insert_app_r_alt by (rewrite length_map, length_seq, length_take; lia).
    rewrite length_map, length_seq, length_take. replace (lo + k - lo `min` length b - k)%nat with 0%nat by lia.
    rewrite Nat.add_1_r, seq_S, map_app, <-app_assoc. f_equal.
    destruct (lookup_lt_is_Some_2 b (lo + k)) as [y Hy]; [lia|].
    rewrite (drop_S _ _ _ Hy). simpl. by rewrite Nat.add_succ_r.
Qed.

Lemma map_const_seq {A} (x : A) i n : map (λ _, x) (seq i n) = replicate n x.
Proof. revert i. induction n as [|n IH]; intros i; simpl; [done|by rewrite IH]. Qed.

Lemma map_nth_seq (l : list Z) : map (λ k, nth k l 0) (seq 0 (length l)) = l.
Proof.
  apply list_eq. intros i. rewrite list_lookup_fmap. destruct (decide (i < length l)%nat) as [Hi|Hi].
  - rewrite lookup_seq_lt by done. simpl. destruct (nth_lookup_or_length l i 0); [done|lia].
  - rewrite lookup_seq_ge, lookup_ge_None_2 by lia. done.
Qed.

(** The cells after [i] cells have moved down by [w] places. *)
Definition shifted {A} (w i : nat) (b : list A) : list A := take i (drop w b) ++ drop i b.

Lemma shifted_step {A} w i (b : list A) :
  (w + i < length b)%nat →
  ∃ c, zget (shifted w i b) (Z.of_nat (w + i)) = Some c ∧
       zset (shifted w i b) (Z.of_nat i) c = Some (shifted w (S i) b).
Proof.
  intros Hi. destruct (lookup_lt_is_Some_2 b (w + i)) as [c Hc]; [lia|].
  destruct (lookup_lt_is_Some_2 b i) as [y Hy]; [lia|]. unfold shifted.
  assert (length (take i (drop w b)) = i) as Hl by (rewrite length_take, length_drop; lia).
  exists c. split.
  - apply zget_Some. split; [lia|]. rewrite Nat2Z.id, lookup_app_r by lia. rewrite Hl, lookup_drop. rewrite <-Hc. f_equal. lia.
  - rewrite zset_is by (unfold zlen; rewrite length_app, length_drop; lia). f_equal. rewrite Nat2Z.id.
    rewrite insert_app_r_alt by lia. rewrite Hl, Nat.sub_diag, (drop_S _ _ _ Hy). simpl.
    rewrite (take_S_r _ _ c) by (by rewrite lookup_drop). by rewrite <-app_assoc.
Qed.

(** ** The reference terminal *)

Definition cells : Z := VGA_WIDTH * VGA_HEIGHT.

Record con_ok (con : Console) : Prop := {
  co_len : zlen (buffer con) = cells;
  co_cells : Forall is_u16 (buffer con);
  co_row : 0 ≤ row con < VGA_HEIGHT;
  co_col : 0 ≤ col con < VGA_WIDTH;
}.

(** The cell a position of the cursor stands for. *)
Definition pos_of (con : Console) : Z := row con * VGA_WIDTH + col con.

(** The screen moves up one line. *)
Definition scrolled (b : list Z) : list Z := drop (Z.to_nat VGA_WIDTH) b ++ replicate (Z.to_nat VGA_WIDTH) blank.

Definition newline (b : list Z) (r : Z) : Console :=
  if decide (r = VGA_HEIGHT - 1) then MkConsole (scrolled b) r 0 else MkConsole b (r + 1) 0.

Definition type_char (c : Z) (con : Console) : Console :=
  if decide (c = 8) then
    if decide (col con = 0) then MkConsole (buffer con) (row con - 1) (VGA_WIDTH - 1)
    else MkConsole (<[Z.to_nat (pos_of con - 1) := blank]> (buffer con)) (row con) (col con - 1)
  else if decide (c = 10) then newline (buffer con) (row con)
  else
    let b := <[Z.to_nat (pos_of con) := 256 * COLOR + c]> (buffer con) in
    if decide (col con = VGA_WIDTH - 1) then newline b (row con) else MkConsole b (row con) (col con + 1).

Definition type_string (s : list Z) (con : Console) : Console := foldl (flip type_char) con s.

(** A backspace with the cursor in the top left corner. *)
Definition stuck (c : Z) (con : Console) : Prop := c = 8 ∧ row con = 0 ∧ col con = 0.

(** Where the CRT controller has been told to put the cursor. *)
Definition cursor (t : Tty) : option Z :=
  match outb_log t with
  | (0x3D5, hi) :: (0x3D4, 0x0E) :: (0x3D5, lo) :: (0x3D4, 0x0F) :: _ => Some (256 * hi + lo)
  | _ => None
  end.

(** The state between calls: the cursors are inside the grid and the VGA buffer
    holds the active console's cells. *)
Record tty_ok (t : Tty) : Prop := {
  to_num : zlen (consoles t) = NUM_CONSOLES;
  to_cons : Forall con_ok (consoles t);
  to_init : initialized t = true;
  to_shown : ∃ con, zget (consoles t) (active_console t) = Some con ∧ vga t = buffer con;
}.

Ltac tty_lia := unfold cells, VGA_WIDTH, VGA_HEIGHT, NUM_CONSOLES, zlen in *; lia.

(** ** Cells *)

Lemma vga_entry_eq c : is_u8 c → vga_entry c = 256 * COLOR + c.
Proof.
  intros Hc. unfold vga_entry, COLOR. rewrite (lor_low_high c _ 8); [reflexivity|lia|exact Hc|reflexivity].
Qed.

Lemma cell_u16 c : is_u8 c → is_u16 (256 * COLOR + c).
Proof. unfold COLOR. word. Qed.

Lemma blank_u16 : is_u16 blank.
Proof. unfold blank. rewrite vga_entry_eq by word. apply cell_u16. word. Qed.

(** ** Scrolling *)

Lemma copy_rows (b : list Z) :
  zlen b = cells →
  iter_upM (Z.to_nat (VGA_HEIGHT - 1)) 1 1 (λ row (b : list Z),
    iter_upM (Z.to_nat VGA_WIDTH) 0 1 (λ col (b : list Z),
      c ← or_fault (zget b (row * VGA_WIDTH + col)); or_fault (zset b ((row - 1) * VGA_WIDTH + col) c)) b) b
  = Ok (shifted (Z.to_nat VGA_WIDTH) (Z.to_nat ((VGA_HEIGHT - 1) * VGA_WIDTH)) b).
Proof.
  intros Hb.
  apply (iter_upM_eq (λ r, shifted (Z.to_nat VGA_WIDTH) (Z.to_nat ((r - 1) * VGA_WIDTH)) b)); [done|f_equal; tty_lia|].
  intros k Hk. rewrite Z.mul_1_r.
  apply (iter_upM_eq (λ c, shifted (Z.to_nat VGA_WIDTH) (Z.to_nat (Z.of_nat k * VGA_WIDTH + c)) b)); [f_equal; tty_lia..|].
  intros j Hj. rewrite Z.mul_1_r, Z.add_0_l.
  destruct (shifted_step (Z.to_nat VGA_WIDTH) (Z.to_nat (Z.of_nat k * VGA_WIDTH + Z.of_nat j)) b) as (c & Hg & Hs); [tty_lia|].
  replace ((1 + Z.of_nat k) * VGA_WIDTH + Z.of_nat j)
    with (Z.of_nat (Z.to_nat VGA_WIDTH + Z.to_nat (Z.of_nat k * VGA_WIDTH + Z.of_nat j))) by tty_lia.
  rewrite Hg. res_step. replace ((1 + Z.of_nat k - 1) * VGA_WIDTH + Z.of_nat j)
    with (Z.of_nat (Z.to_nat (Z.of_nat k * VGA_WIDTH + Z.of_nat j))) by tty_lia.
  rewrite Hs. simpl. f_equal. f_equal. tty_lia.
Qed.

Lemma scroll_spec con :
  zlen (buffer con) = cells → scroll con = Ok (MkConsole (scrolled (buffer con)) (VGA_HEIGHT - 1) 0).
Proof.
  intros Hb. unfold scroll. rewrite copy_rows by done. res_step.
  rewrite (set_loop _ (λ _, blank) _ (Z.to_nat ((VGA_HEIGHT - 1) * VGA_WIDTH))).
  - res_step. f_equal. f_equal. unfold shifted, scrolled.
    rewrite take_app_le by (rewrite length_take, length_drop; tty_lia).
    rewrite (take_ge (take _ _)) by (rewrite length_take, length_drop; tty_lia).
    rewrite take_ge by (rewrite length_drop; tty_lia). f_equal.
    rewrite drop_ge, app_nil_r by (rewrite length_app, !length_drop; tty_lia).
    apply map_const_seq.
  - unfold shifted. rewrite length_app, length_take, !length_drop. tty_lia.
  - intros k v Hk. f_equal. f_equal. tty_lia.
Qed.

(** ** The screen *)

Lemma get_active t : tty_ok t → ∃ con, get_console t (active_console t) = Ok con ∧
  zget (consoles t) (active_console t) = Some con ∧ vga t = buffer con ∧ con_ok con.
Proof.
  intros H. destruct (to_shown _ H) as (con & E & Hv). exists con. unfold get_console. rewrite E. split_and!; try done.
  apply zget_Some in E as [_ E]. by eapply Forall_lookup_1 in E; [|apply H].
Qed.

Lemma update_cursor_spec t con :
  zget (consoles t) (active_console t) = Some con → con_ok con →
  ∃ t', update_cursor t = Ok t' ∧ consoles t' = consoles t ∧ active_console t' = active_console t ∧
    initialized t' = initialized t ∧ vga t' = vga t ∧ cursor t' = Some (pos_of con).
Proof.
  intros E Hc. unfold update_cursor, get_console. rewrite E. res_step. eexists. split; [done|].
  split_and!; try done. unfold cursor, outb. cbn [outb_log]. f_equal. fold (pos_of con).
  destruct (co_row _ Hc), (co_col _ Hc). assert (0 ≤ pos_of con < 2000) by (unfold pos_of; tty_lia).
  rewrite !land_255, Z.shiftr_div_pow2 by lia. change (2 ^ 8) with 256. Z.div_mod_to_equations. lia.
Qed.

Lemma render_spec t i con :
  zget (consoles t) i = Some con → con_ok con → zlen (vga t) = cells → (i = active_console t) →
  ∃ t', render_console i t = Ok t' ∧ consoles t' = consoles t ∧ active_console t' = active_console t ∧
    initialized t' = initialized t ∧ vga t' = buffer con ∧ cursor t' = Some (pos_of con).
Proof.
  intros E Hc Hv ->. unfold render_console, get_console. rewrite E. res_step.
  pose proof (co_len _ Hc) as Hl.
  rewrite (set_loop _ (λ k, nth k (buffer con) 0) _ 0).
  - res_step. rewrite Z.eqb_refl.
    edestruct (update_cursor_spec (with_vga (map (λ k, nth k (buffer con) 0) (seq 0 (Z.to_nat (VGA_WIDTH * VGA_HEIGHT)))) t))
      as (t' & Et & A & B & C & D & F); [exact E|done|].
    rewrite take_0, drop_ge, app_nil_r by tty_lia. rewrite app_nil_l. exists t'. split_and!; try done.
    rewrite D. cbn [vga with_vga]. replace (Z.to_nat (VGA_WIDTH * VGA_HEIGHT)) with (length (buffer con)) by tty_lia.
    apply map_nth_seq.
  - tty_lia.
  - intros k v Hk. rewrite (proj2 (zget_Some (buffer con) (Z.of_nat k) (nth k (buffer con) 0))); [done|].
    split; [lia|]. rewrite Nat2Z.id. destruct (nth_lookup_or_length (buffer con) k 0); [done|tty_lia].
Qed.

(** ** Typing *)

(** Call [t'] the state after the active console became [con'] on the screen. *)
Record becomes (t : Tty) (con' : Console) (t' : Tty) : Prop := {
  be_consoles : consoles t' = <[Z.to_nat (active_console t) := con']> (consoles t);
  be_active : active_console t' = active_console t;
  be_init : initialized t' = initialized t;
  be_vga : vga t' = buffer con';
}.

Lemma becomes_ok t con' t' : tty_ok t → con_ok con' → becomes t con' t' → tty_ok t'.
Proof.
  intros Ht Hc [A B C D]. destruct (to_shown _ Ht) as (con & E & _). pose proof (zget_bounds _ _ _ E) as Hb. split.
  - rewrite A, zlen_insert. apply Ht.
  - rewrite A. by apply Forall_insert; [apply Ht|].
  - rewrite C. apply Ht.
  - exists con'. split; [|done]. rewrite A, B, zget_insert by done. by rewrite decide_True.
Qed.

Lemma put_active t con con' :
  zget (consoles t) (active_console t) = Some con →
  ∃ t', put_console (active_console t) con' t = Ok t' ∧
    consoles t' = <[Z.to_nat (active_console t) := con']> (consoles t) ∧
    zget (consoles t') (active_console t') = Some con' ∧
    active_console t' = active_console t ∧ initialized t' = initialized t ∧ vga t' = vga t.
Proof.
  intros E. pose proof (zget_bounds _ _ _ E) as Hb. unfold put_console. rewrite zset_is by done. res_step.
  eexists. split; [done|]. split_and!; try done. cbn [consoles active_console].
  rewrite zget_insert by done. by rewrite decide_True.
Qed.

Lemma scrolled_ok b : zlen b = cells → Forall is_u16 b → zlen (scrolled b) = cells ∧ Forall is_u16 (scrolled b).
Proof.
  intros Hb Hf. unfold scrolled. split.
  - unfold zlen. rewrite length_app, length_drop, length_replicate. tty_lia.
  - apply Forall_app. split; [by apply Forall_drop|]. apply Forall_replicate, blank_u16.
Qed.

Lemma newline_ok b r : con_ok (MkConsole b r 0) → con_ok (newline b r).
Proof.
  intros [A B C D]. cbn in *. unfold newline. case_decide as Hr.
  - destruct (scrolled_ok b A B). by split; cbn.
  - split; cbn; tty_lia || done.
Qed.

Lemma next_line_spec t con b r :
  zget (consoles t) (active_console t) = Some con → con_ok (MkConsole b r 0) → vga t = b →
  ∃ t', next_line (MkConsole b r 0) t = Ok t' ∧ becomes t (newline b r) t' ∧
    cursor t' = Some (pos_of (newline b r)).
Proof.
  intros E Hok Hv. pose proof (newline_ok b r Hok) as Hnew. destruct (co_row _ Hok) as [Hr1 Hr2].
  unfold next_line. cbn [row col buffer] in *. rewrite (u8_small (r + 1)) by (unfold is_u8; tty_lia).
  unfold newline in *. destruct (Z.leb_spec VGA_HEIGHT (r + 1)) as [Hs|Hs].
  - rewrite scroll_spec by apply Hok. res_step. cbn [buffer].
    rewrite decide_True in Hnew |- * by tty_lia. replace r with (VGA_HEIGHT - 1) in * by tty_lia.
    destruct (put_active t con (MkConsole (scrolled b) (VGA_HEIGHT - 1) 0) E) as (t1 & -> & C1 & G1 & A1 & I1 & V1). res_step.
    destruct (render_spec t1 (active_console t1) _ G1 Hnew) as (t2 & -> & C2 & A2 & I2 & V2 & _); [|done|].
    { rewrite V1, Hv. apply (co_len _ Hok). }
    res_step. destruct (update_cursor_spec t2 _ ltac:(rewrite C2, A2; exact G1) Hnew) as (t3 & -> & C3 & A3 & I3 & V3 & P3).
    exists t3. split; [done|]. split; [split; congruence|done].
  - rewrite decide_False in Hnew |- * by tty_lia.
    destruct (put_active t con (MkConsole b (r + 1) 0) E) as (t1 & -> & C1 & G1 & A1 & I1 & V1). res_step.
    destruct (update_cursor_spec t1 _ G1 Hnew) as (t3 & -> & C3 & A3 & I3 & V3 & P3).
    exists t3. split; [done|]. split; [split; cbn [buffer]; congruence|done].
Qed.

Lemma put_cell_ok con x r c :
  con_ok con → is_u16 x → 0 ≤ r < VGA_HEIGHT → 0 ≤ c < VGA_WIDTH → ∀ i, con_ok (MkConsole (<[i := x]> (buffer con)) r c).
Proof.
  intros [A B C D] Hx Hr Hc i. split; cbn; try done; [by rewrite zlen_insert|by apply Forall_insert].
Qed.

Lemma pos_bound con : con_ok con → 0 ≤ pos_of con < cells.
Proof. intros [A B C D]. unfold pos_of. tty_lia. Qed.

Lemma type_char_ok c con : is_u8 c → con_ok con → ¬ stuck c con → con_ok (type_char c con).
Proof.
  intros Hc Hok Hst. pose proof (cell_u16 c Hc) as H16. pose proof blank_u16. destruct Hok as [A B [C1 C2] [D1 D2]].
  unfold type_char, stuck in *. repeat case_decide.
  - split; cbn; try done; tty_lia.
  - apply put_cell_ok; try done; tty_lia.
  - by apply newline_ok.
  - apply newline_ok, put_cell_ok; try done; tty_lia.
  - apply put_cell_ok; try done; tty_lia.
Qed.

Lemma print_char_spec c t con :
  tty_ok t → is_u8 c → zget (consoles t) (active_console t) = Some con → ¬ stuck c con →
  ∃ t', print_char c t = Ok t' ∧ becomes t (type_char c con) t' ∧
    (c = 8 ∧ col con = 0 ∨ cursor t' = Some (pos_of (type_char c con))).
Proof.
  intros Ht Hc E Hst. destruct (get_active t Ht) as (con' & G & E' & Hv & Hok).
  assert (con' = con) as -> by congruence. clear E'. pose proof (type_char_ok c con Hc Hok Hst) as Hnew.
  pose proof (pos_bound con Hok) as Hpos. pose proof (co_len _ Hok) as Hlen.
  unfold print_char. rewrite (to_init _ Ht). cbn [negb]. rewrite G. res_step.
  unfold type_char, stuck in *. fold (pos_of con). destruct (Z.eqb_spec c 8) as [H8|H8].
  { rewrite decide_True in Hnew |- * by done. destruct (Z.eqb_spec (col con) 0) as [H0|H0].
    - rewrite decide_True in Hnew |- * by done. destruct (co_row _ Hok).
      rewrite u8_small by (unfold is_u8; tty_lia). rewrite (proj2 (Z.ltb_ge (row con - 1) 0)) by lia.
      destruct (put_active t con (MkConsole (buffer con) (row con - 1) (VGA_WIDTH - 1)) E) as (t1 & -> & C1 & G1 & A1 & I1 & V1).
      exists t1. split; [done|]. split; [split; cbn [buffer]; congruence|by left].
    - rewrite decide_False in Hnew |- * by done. destruct (co_col _ Hok). cbn [row col buffer].
      rewrite u8_small by (unfold is_u8; tty_lia).
      replace (row con * VGA_WIDTH + (col con - 1)) with (pos_of con - 1) by (unfold pos_of; lia).
      assert (0 ≤ pos_of con - 1 < cells) by (destruct (co_row _ Hok); unfold pos_of; tty_lia).
      rewrite (zset_is (buffer con)) by lia. res_step.
      destruct (put_active t con (MkConsole (<[Z.to_nat (pos_of con - 1) := blank]> (buffer con)) (row con) (col con - 1)) E) as (t1 & -> & C1 & G1 & A1 & I1 & V1). res_step.
      rewrite V1, Hv, zset_is by lia. res_step.
      edestruct (update_cursor_spec (with_vga (<[Z.to_nat (pos_of con - 1) := blank]> (buffer con)) t1))
        as (t3 & -> & C3 & A3 & I3 & V3 & P3); [exact G1|exact Hnew|].
      exists t3. split; [done|]. cbn [consoles active_console initialized vga with_vga] in *.
      split; [split; cbn [buffer]; congruence|by right]. }
  rewrite decide_False in Hnew |- * by done. destruct (Z.eqb_spec c 10) as [H10|H10].
  { rewrite decide_True in Hnew |- * by done.
    destruct (next_line_spec t con (buffer con) (row con) E) as (t' & -> & B & P); [|done|by eauto].
    destruct Hok. split; cbn; done || tty_lia. }
  rewrite decide_False in Hnew |- * by done. rewrite (u8_small c Hc), (vga_entry_eq c Hc).
  rewrite (zset_is (buffer con)) by lia. res_step. rewrite Hv, zset_is by lia. res_step. cbn [row col buffer].
  destruct (co_col _ Hok). rewrite u8_small by (unfold is_u8; tty_lia).
  destruct (Z.leb_spec VGA_WIDTH (col con + 1)) as [Hw|Hw].
  - rewrite decide_True in Hnew |- * by tty_lia.
    edestruct (next_line_spec (with_vga (<[Z.to_nat (pos_of con) := 256 * COLOR + c]> (buffer con)) t) con) as (t' & -> & B & P);
      [exact E|apply put_cell_ok; [done|by apply cell_u16|apply Hok|tty_lia]|done|].
    exists t'. split; [done|]. split; [|by right]. destruct B as [B1 B2 B3 B4]. by split.
  - rewrite decide_False in Hnew |- * by tty_lia.
    edestruct (put_active (with_vga (<[Z.to_nat (pos_of con) := 256 * COLOR + c]> (buffer con)) t) con) as (t1 & Ep & C1 & G1 & A1 & I1 & V1);
      [exact E|]. cbn [active_console with_vga] in Ep. rewrite Ep. res_step.
    destruct (update_cursor_spec t1 _ G1 Hnew) as (t3 & -> & C3 & A3 & I3 & V3 & P3).
    exists t3. split; [done|]. cbn [consoles active_console initialized vga with_vga] in *.
    split; [split; cbn [buffer]; congruence|by right].
Qed.

(** ** Strings, initialisation and switching *)

Definition never_stuck (s : list Z) (con : Console) : Prop :=
  ∀ s1 c s2, s = s1 ++ c :: s2 → ¬ stuck c (type_string s1 con).

Lemma becomes_trans t con' t1 con'' t2 : becomes t con' t1 → becomes t1 con'' t2 → becomes t con'' t2.
Proof.
  intros [A1 B1 C1 D1] [A2 B2 C2 D2]. split; [|congruence..].
  rewrite A2, B1, A1. apply list_insert_insert_eq.
Qed.

Lemma becomes_get t con con' t' :
  zget (consoles t) (active_console t) = Some con → becomes t con' t' →
  zget (consoles t') (active_console t') = Some con'.
Proof.
  intros E%zget_bounds [A B C D]. rewrite A, B, zget_insert by done. by rewrite decide_True.
Qed.

Lemma becomes_refl t con : zget (consoles t) (active_console t) = Some con → vga t = buffer con → becomes t con t.
Proof. intros [_ E]%zget_Some Hv. split; try done. by rewrite list_insert_id. Qed.

Lemma print_spec s t con :
  tty_ok t → Forall (λ c, is_u8 c ∧ c ≠ 0) s → zget (consoles t) (active_console t) = Some con → never_stuck s con →
  ∃ t', print (s ++ [0]) t = Ok t' ∧ tty_ok t' ∧ becomes t (type_string s con) t' ∧ (s = [] → t' = t) ∧
    ∀ s1 c, s = s1 ++ [c] → c ≠ 8 ∨ col (type_string s1 con) ≠ 0 → cursor t' = Some (pos_of (type_string s con)).
Proof.
  intros Ht Hs. revert t con Ht. induction Hs as [|c s [Hc H0] Hs IH]; intros t con Ht E Hn; cbn [print app].
  - exists t. split; [done|]. split; [done|]. split; [|split; [done|by intros []]].
    change (type_string [] con) with con. apply becomes_refl; [done|]. destruct (to_shown _ Ht) as (con' & E' & ->). congruence.
  - rewrite (proj2 (Z.eqb_neq c 0)) by done.
    assert (¬ stuck c con) as Hst by (apply (Hn [] c s); done).
    destruct (get_active t Ht) as (con' & _ & E' & _ & Hok). assert (con' = con) as -> by congruence.
    destruct (print_char_spec c t con Ht Hc E Hst) as (t1 & -> & B & Hcur). res_step.
    destruct (IH t1 (type_char c con)) as (t' & -> & Ht' & B' & Hnil & Hcur').
    + eapply becomes_ok; [exact Ht|by apply type_char_ok|done].
    + by eapply becomes_get.
    + intros s1 c' s2 ->. by apply (Hn (c :: s1) c' s2).
    + exists t'. split; [done|]. split; [done|]. split; [by eapply becomes_trans|]. split; [done|]. intros [|c1 s1] c2 [= -> ->] Hc2.
      * rewrite (Hnil eq_refl). cbn in Hc2. by destruct Hcur as [[? ?]|Hcur]; [destruct Hc2|].
      * by apply (Hcur' s1 c2).
Qed.

Lemma map_consoles_ok t i b r c :
  zlen (consoles t) = NUM_CONSOLES → 0 ≤ i < NUM_CONSOLES →
  put_console i (MkConsole b r c) t = Ok (MkTty (<[Z.to_nat i := MkConsole b r c]> (consoles t)) (active_console t) (initialized t) (vga t) (outb_log t)).
Proof. intros Hn Hi. unfold put_console. by rewrite zset_is by lia. Qed.

(** The static storage before [init]: four consoles of the right size, a 2000-cell
    text buffer. *)
Definition power_on (t : Tty) : Prop :=
  (∃ b0 b1 b2 b3 r0 r1 r2 r3 c0 c1 c2 c3, consoles t = [MkConsole b0 r0 c0; MkConsole b1 r1 c1; MkConsole b2 r2 c2; MkConsole b3 r3 c3] ∧
    Forall (λ b, zlen b = cells) [b0; b1; b2; b3]) ∧ zlen (vga t) = cells.

Definition blank_tail : list Z := replicate 1999 blank.

Lemma blank_console_spec i t con :
  zget (consoles t) i = Some con → zlen (buffer con) = cells →
  blank_console i t = put_console i (MkConsole (blank :: blank_tail) 0 0) t.
Proof.
  intros E Hl. unfold blank_console, get_console. rewrite E. res_step.
  rewrite (set_loop _ (λ _, blank) _ 0); [|tty_lia|intros k v Hk; f_equal; f_equal; lia].
  rewrite map_const_seq, take_0, drop_ge, app_nil_r by tty_lia. done.
Qed.

(** A blank console with its number in the corner. *)
Definition labelled (i : Z) : Console := MkConsole (vga_entry (49 + i) :: blank_tail) 0 0.

Lemma labelled_ok i : 0 ≤ i < NUM_CONSOLES → con_ok (labelled i).
Proof.
  intros Hi. split; cbn [buffer row col labelled]; [|constructor|tty_lia..].
  - unfold zlen, blank_tail. rewrite length_cons, length_replicate. tty_lia.
  - rewrite vga_entry_eq by (unfold is_u8; tty_lia). apply cell_u16. unfold is_u8. tty_lia.
  - apply Forall_replicate, blank_u16.
Qed.

Lemma init_spec t :
  power_on t → ∃ t', init t = Ok t' ∧ tty_ok t' ∧ consoles t' = map labelled [0; 1; 2; 3] ∧ active_console t' = 0.
Proof.
  intros [(b0 & b1 & b2 & b3 & r0 & r1 & r2 & r3 & c0 & c1 & c2 & c3 & Ec & Hb) Hv].
  destruct t as [cs a i v lg]. cbn in Ec, Hv. subst cs.
  rewrite !Forall_cons in Hb. destruct Hb as (H0 & H1 & H2 & H3 & _).
  unfold init. change (Z.to_nat NUM_CONSOLES) with 4%nat. cbn [iter_upM].
  do 4 (erewrite blank_console_spec by (reflexivity || done); cbv [put_console zset or_fault consoles active_console initialized vga outb_log]; simpl; res_step).
  edestruct (render_spec (MkTty (map labelled [0; 1; 2; 3]) 0 i v lg) 0 (labelled 0)) as (t' & Er & C & A & I & V & _); [reflexivity|by apply labelled_ok|exact Hv|done|].
  unfold labelled in Er at 1. simpl in Er. rewrite Er. clear Er.
  res_step. eexists. split; [done|]. cbn [consoles active_console] in *. split_and!; [|exact C|exact A].
  change (tty_ok (MkTty (consoles t') (active_console t') true (vga t') (outb_log t'))).
  split; cbn [consoles initialized vga active_console]; rewrite ?C, ?A; try done.
  - repeat (constructor; [by apply labelled_ok|]). constructor.
  - by exists (labelled 0).
Qed.

(** ** Reachable states *)

(** What the rest of the kernel does with the console. *)
Inductive tty_op := Print (c : Z) | Switch (n : Z).

Definition run_op (o : tty_op) (t : Tty) : Res Tty :=
  match o with Print c => print_char c t | Switch n => switch_to n t end.

(** The operation is well typed and is not a backspace in the top left corner. *)
Definition enabled (o : tty_op) (t : Tty) : Prop :=
  match o with
  | Print c => is_u8 c ∧ ∀ con, zget (consoles t) (active_console t) = Some con → ¬ stuck c con
  | Switch n => is_u8 n
  end.

Definition tty_step (t t' : Tty) : Prop := ∃ o, enabled o t ∧ run_op o t = Ok t'.

Lemma switch_to_spec n t :
  tty_ok t → ∃ t', switch_to n t = Ok t' ∧ tty_ok t' ∧ consoles t' = consoles t ∧
    active_console t' = if decide (0 ≤ n < NUM_CONSOLES) then n else active_console t.
Proof.
  intros Ht. unfold switch_to. destruct (Z.ltb_spec n 0), (Z.leb_spec NUM_CONSOLES n); cbn [orb];
    try (exists t; rewrite decide_False by lia; done).
  pose proof (to_num _ Ht) as Hn. destruct (zget_is_Some (consoles t) n) as [con E]; [lia|].
  pose proof E as [_ E']%zget_Some. pose proof (Forall_lookup_1 _ _ _ _ (to_cons _ Ht) E') as Hok.
  destruct (to_shown _ Ht) as (old & Eo & Hv). apply zget_Some in Eo as [_ Eo].
  pose proof (Forall_lookup_1 _ _ _ _ (to_cons _ Ht) Eo) as Hold.
  edestruct (render_spec (MkTty (consoles t) n (initialized t) (vga t) (outb_log t)) n con) as (t' & -> & C & A & I & V & _);
    [exact E|done|cbn; rewrite Hv; apply Hold|done|].
  cbn in C, A, I. exists t'. rewrite decide_True by done. split_and!; [done| |done..].
  split; rewrite ?C, ?A, ?I; try apply Ht. exists con. by rewrite V.
Qed.

Lemma run_op_spec o t : tty_ok t → enabled o t → ∃ t', run_op o t = Ok t' ∧ tty_ok t'.
Proof.
  intros Ht. destruct o as [c|n]; cbn.
  - intros [Hc Hst]. destruct (get_active t Ht) as (con & _ & E & _ & Hok).
    destruct (print_char_spec c t con Ht Hc E (Hst _ E)) as (t' & -> & B & _). exists t'. split; [done|].
    eapply becomes_ok; [done| |done]. by apply type_char_ok; [| |apply Hst].
  - intros _. destruct (switch_to_spec n t Ht) as (t' & -> & ? & _). by exists t'.
Qed.

Lemma stuck_corrupts t con c :
  tty_ok t → zget (consoles t) (active_console t) = Some con → row con = 0 → col con = 0 → c ≠ 10 →
  ∃ t1, print_char 8 t = Ok t1 ∧ print_char c t1 = Fault.
Proof.
  intros Ht E Hr Hc H10. destruct (get_active t Ht) as (con' & G & E' & Hv & Hok).
  assert (con' = con) as -> by congruence. pose proof (co_len _ Hok) as Hl.
  unfold print_char at 1. rewrite (to_init _ Ht), G. res_step. cbn [negb]. rewrite Hr, Hc. cbn [Z.eqb].
  destruct (put_active t con (MkConsole (buffer con) 255 79) E) as (t1 & Ep & C1 & G1 & A1 & I1 & V1).
  exists t1. split; [exact Ep|]. unfold print_char, get_console. rewrite I1, (to_init _ Ht), G1. res_step. cbn [negb row col buffer].
  assert (∀ p x, cells ≤ p → zset (buffer con) p x = None) as Hout.
  { intros p x Hp. unfold zset. unfold zlen in Hl. rewrite (proj2 (Z.leb_le (Z.of_nat _) p)) by lia. by rewrite orb_true_r. }
  rewrite (proj2 (Z.eqb_neq c 10)) by done. destruct (Z.eqb_spec c 8); cbn [Z.eqb]; rewrite Hout by done; done.
Qed.

(** ** The properties *)

(** C20. After [init], whatever is printed and however consoles are switched, short
    of a backspace in the top left corner of the active console, no access leaves
    an array, every cursor stays inside the grid and the VGA buffer shows the
    active console; and every such operation returns. *)
Theorem console_invariant t0 :
  power_on t0 →
  ∃ t1, init t0 = Ok t1 ∧ ∀ t, rtc tty_step t1 t →
    tty_ok t ∧ ∀ o, enabled o t → ∃ t', run_op o t = Ok t'.
Proof.
  intros Hp. destruct (init_spec t0 Hp) as (t1 & Ei & Hok & _). exists t1. split; [done|].
  intros t Ht. assert (tty_ok t) as Hok'.
  { clear Ei. induction Ht as [|t t' t'' (o & Hen & Ho) _ IH]; [done|]. apply IH.
    destruct (run_op_spec o t Hok Hen) as (x & ? & ?). by assert (x = t') as <- by congruence. }
  split; [done|]. intros o Hen. destruct (run_op_spec o t Hok' Hen) as (t' & ? & _). by exists t'.
Qed.

Definition zero_console : Console := MkConsole (replicate 2000 0) 0 0.
Definition reset_tty : Tty := MkTty [zero_console; zero_console; zero_console; zero_console] 0 false (replicate 2000 0) [].

Lemma reset_power_on : power_on reset_tty.
Proof.
  split; [|done]. do 12 eexists. split; [reflexivity|]. repeat (constructor; [done|]). constructor.
Qed.

Lemma console_invariant_witness :
  power_on reset_tty ∧ ∃ t1, init reset_tty = Ok t1 ∧ ∀ t, rtc tty_step t1 t →
    tty_ok t ∧ ∀ o, enabled o t → ∃ t', run_op o t = Ok t'.
Proof. split; [apply reset_power_on|]. apply console_invariant, reset_power_on. Defined.

(** C21. Printing a string types it on the reference terminal: newlines, wrapping,
    backspaces and scrolling change the active console exactly as [type_string]
    says, the other consoles are untouched, and the screen shows the result.  The hardware
    cursor ends on the terminal's cursor unless the last character is a backspace at column
    0, which the code takes to the row above without moving the hardware cursor.  Strings
    that backspace from the top left corner are excluded ([never_stuck]). *)
Theorem print_refines s t con :
  tty_ok t → Forall (λ c, is_u8 c ∧ c ≠ 0) s →
  zget (consoles t) (active_console t) = Some con → never_stuck s con →
  ∃ t', print (s ++ [0]) t = Ok t' ∧
    consoles t' = <[Z.to_nat (active_console t) := type_string s con]> (consoles t) ∧
    active_console t' = active_console t ∧ vga t' = buffer (type_string s con) ∧ (s = [] → t' = t) ∧
    ∀ s1 c, s = s1 ++ [c] → c ≠ 8 ∨ col (type_string s1 con) ≠ 0 → cursor t' = Some (pos_of (type_string s con)).
Proof.
  intros Ht Hs E Hn. destruct (print_spec s t con Ht Hs E Hn) as (t' & Ep & _ & [A B C D] & Hl). by exists t'.
Qed.

(** "ok", a newline, "x" and a backspace, typed on the first console. *)
Lemma print_refines_witness :
  ∃ t1 t', init reset_tty = Ok t1 ∧ print ([111; 107; 10; 120; 8] ++ [0]) t1 = Ok t' ∧
    vga t' = buffer (type_string [111; 107; 10; 120; 8] (labelled 0)) ∧
    cursor t' = Some (pos_of (type_string [111; 107; 10; 120; 8] (labelled 0))).
Proof.
  destruct (init_spec reset_tty reset_power_on) as (t1 & Ei & Hok & Hc & Ha). exists t1.
  destruct (print_refines [111; 107; 10; 120; 8] t1 (labelled 0)) as (t' & Ep & _ & _ & Hv & _ & Hcur).
  - exact Hok.
  - repeat (constructor; [split; [split; lia|lia]|]). constructor.
  - rewrite Hc, Ha. reflexivity.
  - intros s1 c s2 Es. do 5 (destruct s1 as [|? s1]; [injection Es as <- _; intros (H8 & Hr & Hcol); vm_compute in H8, Hr, Hcol; congruence|injection Es as <- Es]).
    by destruct s1.
  - exists t'. split; [exact Ei|]. split; [exact Ep|]. split; [exact Hv|]. refine (Hcur [111; 107; 10; 120] 8 eq_refl _). right. vm_compute. discriminate.
Defined.

(** A backspace in the top left corner breaks the console: the row wraps around
    to 255 and the next character other than a newline is written outside the
    console's buffer. *)
Theorem backspace_at_origin_corrupts t con c :
  tty_ok t → zget (consoles t) (active_console t) = Some con → row con = 0 → col con = 0 → c ≠ 10 →
  ∃ t1, print_char 8 t = Ok t1 ∧ print_char c t1 = Fault.
Proof. apply stuck_corrupts. Qed.

Lemma backspace_at_origin_corrupts_witness :
  ∃ t0 t1, init reset_tty = Ok t0 ∧ print_char 8 t0 = Ok t1 ∧ print_char 97 t1 = Fault.
Proof.
  destruct (init_spec reset_tty reset_power_on) as (t0 & Ei & Hok & Hc & Ha). exists t0.
  destruct (backspace_at_origin_corrupts t0 (labelled 0) 97) as (t1 & E1 & E2); [exact Hok| | | | |exists t1; split; [exact Ei|]; split; [exact E1|exact E2]].
  - rewrite Hc, Ha. reflexivity.
  - reflexivity.
  - reflexivity.
  - lia.
Defined.
