(* ===== verification/Keyboard.v ===== *)
(** * The keyboard ([io/keyboard.cpp])

    The IRQ 1 handler turns scancodes into characters and puts them in a ring of 64
    characters; [getchar] takes them out.  The handler runs as an interrupt, so it
    can come between the two steps of [getchar].  The scancode is what [inb 0x60]
    reads: an argument. *)

From S2P Require Import Prelude Tty TtySpec.

Definition BUFFER_SIZE : Z := 64.

Record Kbd := MkKbd {
  kbuf : list Z;
  head : Z;
  tail : Z;
  alt_pressed : bool;
  ctrl_pressed : bool;
  shift_pressed : bool;
  caps_lock : bool;
}.

Definition with_ring (b : list Z) (h t : Z) (k : Kbd) : Kbd :=
  MkKbd b h t (alt_pressed k) (ctrl_pressed k) (shift_pressed k) (caps_lock k).

(** Scancode set 1, lower case. *)
Definition scancode_to_ascii : list Z :=
  [0; 0; 49; 50; 51; 52; 53; 54; 55; 56; 57; 48; 45; 61; 0; 0;
   113; 119; 101; 114; 116; 121; 117; 105; 111; 112; 91; 93; 0; 0;
   97; 115; 100; 102; 103; 104; 106; 107; 108; 59; 39; 96; 0; 92;
   122; 120; 99; 118; 98; 110; 109; 44; 46; 47; 0; 42; 0; 32] ++ replicate 70 0.

Definition push_char (c : Z) (k : Kbd) : Res Kbd :=
  if c =? 0 then Ok k else
  let next := (head k + 1) `rem` BUFFER_SIZE in
  if negb (next =? tail k) then
    b ← or_fault (zset (kbuf k) (head k) c);
    Ok (with_ring b next (tail k) k)
  else Ok k.

(** The upper-case letter when exactly one of shift and caps lock is on. *)
Definition shift_case (ascii : Z) (k : Kbd) : Z :=
  if (97 <=? ascii) && (ascii <=? 122) then
    if xorb (shift_pressed k) (caps_lock k) then ascii - 97 + 65 else ascii
  else ascii.

Definition keyboard_handler (scancode : Z) (kt : Kbd * Tty) : Res (Kbd * Tty) :=
  let '(k, t) := kt in
  let released := negb (Z.land scancode 0x80 =? 0) in
  let key := Z.land scancode 0x7F in
  if (key =? 0x2A) || (key =? 0x36) then
    Ok (MkKbd (kbuf k) (head k) (tail k) (alt_pressed k) (ctrl_pressed k) (negb released) (caps_lock k), t)
  else if key =? 0x3A then
    Ok (MkKbd (kbuf k) (head k) (tail k) (alt_pressed k) (ctrl_pressed k) (shift_pressed k) (negb (caps_lock k)), t)
  else if key =? 0x38 then
    Ok (MkKbd (kbuf k) (head k) (tail k) (negb released) (ctrl_pressed k) (shift_pressed k) (caps_lock k), t)
  else if key =? 0x1D then
    Ok (MkKbd (kbuf k) (head k) (tail k) (alt_pressed k) (negb released) (shift_pressed k) (caps_lock k), t)
  else if released then Ok (k, t)
  else if key =? 0x0E then k ← push_char 8 k; Ok (k, t)
  else if key =? 0x1C then k ← push_char 10 k; Ok (k, t)
  else if alt_pressed k && (0x3B <=? key) && (key <=? 0x3E) then
    t ← switch_to (key - 0x3B) t; Ok (k, t)
  else
    ascii ← or_fault (zget scancode_to_ascii key);
    if ascii =? 0 then Ok (k, t) else
    k ← push_char (shift_case ascii k) k; Ok (k, t).

(** [getchar] in two steps: the read of [buffer\[tail\]] and the update of [tail].
    An interrupt can come between them. *)
Definition getchar_read (k : Kbd) : Res (option Z) :=
  if head k =? tail k then Ok None else c ← or_fault (zget (kbuf k) (tail k)); Ok (Some c).

Definition getchar_advance (k : Kbd) : Kbd :=
  with_ring (kbuf k) (head k) ((tail k + 1) `rem` BUFFER_SIZE) k.

Definition getchar (k : Kbd) : Res (Kbd * Z) :=
  r ← getchar_read k;
  match r with
  | None => Ok (k, 0)
  | Some c => Ok (getchar_advance k, c)
  end.

(** ** The queue *)

(** A run of interrupts, one scancode each. *)
Fixpoint interrupts (scs : list Z) (kt : Kbd * Tty) : Res (Kbd * Tty) :=
  match scs with
  | [] => Ok kt
  | sc :: scs => kt ← keyboard_handler sc kt; interrupts scs kt
  end.

Record kbd_ok (k : Kbd) : Prop := {
  ko_len : zlen (kbuf k) = BUFFER_SIZE;
  ko_head : 0 ≤ head k < BUFFER_SIZE;
  ko_tail : 0 ≤ tail k < BUFFER_SIZE;
}.

Definition queue_len (k : Kbd) : nat := Z.to_nat ((head k - tail k) `mod` BUFFER_SIZE).

(** The characters waiting, oldest first. *)
Definition queue (k : Kbd) : list Z :=
  map (λ i, nth (Z.to_nat ((tail k + Z.of_nat i) `mod` BUFFER_SIZE)) (kbuf k) 0) (seq 0 (queue_len k)).

(** A full queue drops what comes. *)
Definition enqueue (q : list Z) (c : Z) : list Z := if decide (length q < 63)%nat then q ++ [c] else q.

(** The modifiers: alt, ctrl, shift and caps lock. *)
Definition mods : Type := bool * bool * bool * bool.
Definition mods_of (k : Kbd) : mods := (alt_pressed k, ctrl_pressed k, shift_pressed k, caps_lock k).

(** What a scancode does to the modifiers. *)
Definition next_mods (sc : Z) (m : mods) : mods :=
  let '(alt, ctrl, shift, caps) := m in
  let down := bool_decide (sc < 128) in
  let key := sc `mod` 128 in
  if decide (key = 0x2A ∨ key = 0x36) then (alt, ctrl, down, caps)
  else if decide (key = 0x3A) then (alt, ctrl, shift, negb caps)
  else if decide (key = 0x38) then (down, ctrl, shift, caps)
  else if decide (key = 0x1D) then (alt, down, shift, caps)
  else (alt, ctrl, shift, caps).

(** Alt and a function key. *)
Definition console_key (sc : Z) (m : mods) : option Z :=
  if decide (m.1.1.1 = true ∧ 0x3B ≤ sc ≤ 0x3E) then Some (sc - 0x3B) else None.

(** The character a scancode types. *)
Definition typed (sc : Z) (m : mods) : option Z :=
  let '(alt, _, shift, caps) := m in
  if decide (sc = 0x2A ∨ sc = 0x36 ∨ sc = 0x3A ∨ sc = 0x38 ∨ sc = 0x1D) then None
  else if decide (sc = 0x0E) then Some 8
  else if decide (sc = 0x1C) then Some 10
  else if decide (alt = true ∧ 0x3B ≤ sc ≤ 0x3E) then None
  else match scancode_to_ascii !! Z.to_nat sc with
       | None | Some 0 => None
       | Some c => Some (if decide (97 ≤ c ≤ 122 ∧ xorb shift caps = true) then c - 32 else c)
       end.

Fixpoint types (scs : list Z) (m : mods) : list Z :=
  match scs with
  | [] => []
  | sc :: scs => option_list (typed sc m) ++ types scs (next_mods sc m)
  end.

Lemma queue_length k : length (queue k) = queue_len k.
Proof. unfold queue. by rewrite length_map, length_seq. Qed.

Lemma queue_len_bound k : (queue_len k < 64)%nat.
Proof. unfold queue_len, BUFFER_SIZE. pose proof (Z.mod_pos_bound (head k - tail k) 64). lia. Qed.

Ltac kbd_lia := unfold queue_len, BUFFER_SIZE, zlen in *; Z.div_mod_to_equations; lia.

Lemma push_char_spec c k :
  kbd_ok k → c ≠ 0 →
  ∃ k', push_char c k = Ok k' ∧ kbd_ok k' ∧ queue k' = enqueue (queue k) c ∧ mods_of k' = mods_of k.
Proof.
  intros [Hl Hh Ht] Hc. unfold push_char. rewrite (proj2 (Z.eqb_neq c 0)) by done.
  rewrite Z.rem_mod_nonneg by (unfold BUFFER_SIZE; lia). unfold enqueue. rewrite queue_length.
  destruct (Z.eqb_spec ((head k + 1) `mod` BUFFER_SIZE) (tail k)) as [Hf|Hf]; cbn [negb].
  - rewrite decide_False by kbd_lia. exists k. by split_and!.
  - rewrite decide_True by kbd_lia. rewrite zset_is by lia. res_step. eexists. split; [done|].
    split_and!; [split; cbn; [by rewrite zlen_insert|kbd_lia|done]| |done].
    unfold queue. cbn [kbuf head tail with_ring].
    replace (queue_len _) with (S (queue_len k)) by (unfold queue_len; cbn [head tail with_ring]; kbd_lia).
    rewrite seq_S, map_app. f_equal.
    + apply map_ext_in. intros i Hi%in_seq. rewrite !nth_lookup, list_lookup_insert_ne; [done|]. kbd_lia.
    + simpl. f_equal. rewrite nth_lookup. replace (Z.to_nat _) with (Z.to_nat (head k)) by kbd_lia.
      rewrite list_lookup_insert_eq by kbd_lia. done.
Qed.

Lemma scancode_table_length : length scancode_to_ascii = 128%nat.
Proof. done. Qed.

(** The release bit and the key number. *)
Lemma scancode_bits sc : is_u8 sc →
  negb (Z.land sc 0x80 =? 0) = negb (bool_decide (sc < 128)) ∧ Z.land sc 0x7F = sc `mod` 128.
Proof.
  intros Hsc. split; [|exact (land_ones_mod sc 7 ltac:(lia))]. f_equal.
  assert (∀ n, n ∈ seq 0 256 → (Z.land (Z.of_nat n) 0x80 =? 0) = bool_decide (Z.of_nat n < 128)) as Hall.
  { apply Forall_forall. vm_compute. repeat (constructor; [reflexivity|]). constructor. }
  specialize (Hall (Z.to_nat sc)). rewrite Z2Nat.id in Hall by word. apply Hall, elem_of_seq. word.
Qed.

Lemma shift_case_eq c k :
  shift_case c k = if decide (97 ≤ c ≤ 122 ∧ xorb (shift_pressed k) (caps_lock k) = true) then c - 32 else c.
Proof.
  unfold shift_case. destruct (Z.leb_spec 97 c), (Z.leb_spec c 122), (xorb (shift_pressed k) (caps_lock k));
    cbn [andb]; case_decide; lia || naive_solver lia.
Qed.

Lemma scancode_cases sc : is_u8 sc →
  (sc < 128 ∧ negb (Z.land sc 0x80 =? 0) = false ∧ Z.land sc 0x7F = sc ∧ sc `mod` 128 = sc) ∨
  (∃ key, sc = key + 128 ∧ 0 ≤ key < 128 ∧ negb (Z.land sc 0x80 =? 0) = true ∧ Z.land sc 0x7F = key ∧ sc `mod` 128 = key).
Proof.
  intros Hsc. destruct (scancode_bits sc Hsc) as [-> ->]. unfold is_u8 in Hsc. case_bool_decide.
  - left. rewrite Z.mod_small by lia. done.
  - right. exists (sc - 128). split_and!; try done; Z.div_mod_to_equations; lia.
Qed.

Lemma typed_released key m : 0 ≤ key < 128 → typed (key + 128) m = None ∧ console_key (key + 128) m = None.
Proof.
  intros Hk. destruct m as [[[alt ctrl] shift] caps]. unfold typed, console_key. cbn [fst].
  rewrite lookup_ge_None_2 by (rewrite scancode_table_length; lia). repeat case_decide; lia || done.
Qed.

Lemma with_mods_ok k a c s l :
  kbd_ok k → kbd_ok (MkKbd (kbuf k) (head k) (tail k) a c s l) ∧ queue (MkKbd (kbuf k) (head k) (tail k) a c s l) = queue k.
Proof. intros []. by split. Qed.

Lemma released_spec sc key k t :
  sc = key + 128 → 0 ≤ key < 128 → negb (Z.land sc 0x80 =? 0) = true → Z.land sc 0x7F = key → sc `mod` 128 = key →
  kbd_ok k → ∃ k', keyboard_handler sc (k, t) = Ok (k', t) ∧ kbd_ok k' ∧ queue k' = queue k ∧
    mods_of k' = next_mods sc (mods_of k).
Proof.
  intros Esc Hkey Hrel Hland Hmod Hk. unfold keyboard_handler, next_mods, mods_of. rewrite Hrel, Hland, Hmod. cbn [negb].
  rewrite bool_decide_false by lia.
  destruct (Z.eqb_spec key 0x2A), (Z.eqb_spec key 0x36), (Z.eqb_spec key 0x3A), (Z.eqb_spec key 0x38), (Z.eqb_spec key 0x1D);
    try lia; cbn [orb]; eexists; (split; [done|]); repeat case_decide; try lia;
    (split; [by apply with_mods_ok|done] || done).
Qed.

Lemma ascii_not_nul c k : 0 < c → shift_case c k ≠ 0.
Proof. intros Hc. rewrite shift_case_eq. case_decide; lia. Qed.

Lemma table_chars i c : scancode_to_ascii !! i = Some c → 0 ≤ c.
Proof.
  intros Hl. assert (Forall (λ c, 0 ≤ c) scancode_to_ascii) as Hf by (repeat (constructor; [done|]); constructor).
  by eapply Forall_lookup_1 in Hf.
Qed.

Definition enqueue_opt (q : list Z) (o : option Z) : list Z :=
  match o with Some c => enqueue q c | None => q end.

Lemma table_spec sc k (t : Tty) :
  0 ≤ sc < 128 → kbd_ok k →
  ∃ k', (ascii ← or_fault (zget scancode_to_ascii sc);
         if ascii =? 0 then Ok (k, t) else k ← push_char (shift_case ascii k) k; Ok (k, t)) = Ok (k', t) ∧ kbd_ok k' ∧
    queue k' = enqueue_opt (queue k)
      (match scancode_to_ascii !! Z.to_nat sc with None | Some 0 => None | Some c =>
         Some (if decide (97 ≤ c ≤ 122 ∧ xorb (shift_pressed k) (caps_lock k) = true) then c - 32 else c) end) ∧
    mods_of k' = mods_of k.
Proof.
  intros Hsc Hk. destruct (zget_is_Some scancode_to_ascii sc) as [c Hc]; [unfold zlen; rewrite scancode_table_length; lia|].
  rewrite Hc. res_step. apply zget_Some in Hc as [_ Hl]. rewrite Hl. pose proof (table_chars _ _ Hl) as Hpos.
  destruct (Z.eqb_spec c 0) as [->|H0]; [by exists k|].
  destruct (push_char_spec (shift_case c k) k Hk) as (k' & -> & Hk' & Hq & Hm); [apply ascii_not_nul; lia|].
  exists k'. res_step. split_and!; [done..| |done]. rewrite Hq, shift_case_eq. destruct c; [done..|lia].
Qed.

Lemma pressed_spec sc k t :
  0 ≤ sc < 128 → negb (Z.land sc 0x80 =? 0) = false → Z.land sc 0x7F = sc → sc `mod` 128 = sc →
  kbd_ok k → tty_ok t →
  ∃ k' t', keyboard_handler sc (k, t) = Ok (k', t') ∧ kbd_ok k' ∧ tty_ok t' ∧
    queue k' = enqueue_opt (queue k) (typed sc (mods_of k)) ∧
    mods_of k' = next_mods sc (mods_of k) ∧ consoles t' = consoles t ∧
    active_console t' = default (active_console t) (console_key sc (mods_of k)).
Proof.
  intros Hsc Hrel Hland Hmod Hk Ht. unfold keyboard_handler, next_mods, mods_of, typed, console_key.
  rewrite Hrel, Hland, Hmod. cbn [negb fst]. rewrite bool_decide_true by lia.
  destruct (Z.eqb_spec sc 0x2A), (Z.eqb_spec sc 0x36), (Z.eqb_spec sc 0x3A), (Z.eqb_spec sc 0x38), (Z.eqb_spec sc 0x1D); try lia;
    [by (eexists _, t; split; [done|]; repeat case_decide; try lia; split_and!; try done; by apply with_mods_ok)..|].
  cbn [orb]. rewrite !(decide_False (P := sc = _ ∨ _)), !(decide_False (P := sc = 58)), !(decide_False (P := sc = 56)), !(decide_False (P := sc = 29)) by lia.
  destruct (Z.eqb_spec sc 0x0E).
  { destruct (push_char_spec 8 k Hk) as (k' & -> & Hk' & Hq & Hm); [done|]. exists k', t. res_step.
    repeat case_decide; try lia. by split_and!. }
  destruct (Z.eqb_spec sc 0x1C).
  { destruct (push_char_spec 10 k Hk) as (k' & -> & Hk' & Hq & Hm); [done|]. exists k', t. res_step.
    repeat case_decide; try lia. by split_and!. }
  rewrite !(decide_False (P := sc = 14)), !(decide_False (P := sc = 28)) by done.
  destruct (alt_pressed k && (59 <=? sc) && (sc <=? 62)) eqn:Ef.
  - bool_arith. rewrite !decide_True by done.
    destruct (switch_to_spec (sc - 0x3B) t Ht) as (t' & -> & Ht' & Hc & Ha). exists k, t'. res_step.
    rewrite decide_True in Ha by (unfold NUM_CONSOLES; lia). by split_and!.
  - rewrite !(decide_False (P := alt_pressed k = true ∧ _)); [|intros (Hx & Hy & Hz); rewrite Hx in Ef; cbn in Ef; bool_arith; lia..].
    destruct (table_spec sc k t Hsc Hk) as (k' & -> & Hk' & Hq & Hm). exists k', t. by split_and!.
Qed.

Lemma handler_spec sc k t :
  kbd_ok k → tty_ok t → is_u8 sc →
  ∃ k' t', keyboard_handler sc (k, t) = Ok (k', t') ∧ kbd_ok k' ∧ tty_ok t' ∧
    queue k' = enqueue_opt (queue k) (typed sc (mods_of k)) ∧
    mods_of k' = next_mods sc (mods_of k) ∧ consoles t' = consoles t ∧
    active_console t' = default (active_console t) (console_key sc (mods_of k)).
Proof.
  intros Hk Ht Hsc. destruct (scancode_cases sc Hsc) as [(H1 & H2 & H3 & H4)|(key & H1 & H2 & H3 & H4 & H5)].
  - apply pressed_spec; try done. unfold is_u8 in Hsc. lia.
  - destruct (released_spec sc key k t H1 H2 H3 H4 H5 Hk) as (k' & E & Hk' & Hq & Hm). exists k', t.
    destruct (typed_released key (mods_of k) H2) as [T1 T2]. rewrite <-H1 in T1, T2. rewrite T1, T2. by split_and!.
Qed.

Lemma enqueue_take q o cs :
  (length q ≤ 63)%nat →
  enqueue_opt q o ++ take (63 - length (enqueue_opt q o)) cs = q ++ take (63 - length q) (option_list o ++ cs).
Proof.
  intros Hq. destruct o as [c|]; cbn [enqueue_opt option_list app]; [|done].
  unfold enqueue. case_decide.
  - rewrite length_app, <-app_assoc. f_equal. simpl. replace (63 - length q)%nat with (S (63 - (length q + 1))) by lia. done.
  - replace (63 - length q)%nat with 0%nat by lia. done.
Qed.

Lemma interrupts_spec scs k t :
  kbd_ok k → tty_ok t → Forall is_u8 scs →
  ∃ k' t', interrupts scs (k, t) = Ok (k', t') ∧ kbd_ok k' ∧ tty_ok t' ∧
    queue k' = queue k ++ take (63 - length (queue k)) (types scs (mods_of k)) ∧
    mods_of k' = foldl (λ m sc, next_mods sc m) (mods_of k) scs.
Proof.
  intros Hk Ht Hscs. revert k t Hk Ht. induction Hscs as [|sc scs Hsc Hscs IH]; intros k t Hk Ht; cbn [interrupts types foldl].
  { exists k, t. rewrite take_nil, app_nil_r. done. }
  destruct (handler_spec sc k t Hk Ht Hsc) as (k1 & t1 & -> & Hk1 & Ht1 & Hq & Hm & _). res_step.
  destruct (IH k1 t1 Hk1 Ht1) as (k' & t' & -> & Hk' & Ht' & Hq' & Hm'). exists k', t'.
  rewrite Hq', Hm', Hq, Hm. split_and!; try done. apply enqueue_take. rewrite queue_length.
  pose proof (queue_len_bound k). lia.
Qed.

Lemma queue_cons k c q :
  kbd_ok k → queue k = c :: q →
  getchar_read k = Ok (Some c) ∧ kbd_ok (getchar_advance k) ∧ queue (getchar_advance k) = q.
Proof.
  intros [Hl Hh Ht] Hq. pose proof (queue_length k) as Hn. rewrite Hq in Hn. cbn in Hn.
  assert (head k ≠ tail k) as Hne.
  { intros He. unfold queue_len in Hn. rewrite He, Z.sub_diag in Hn. done. }
  unfold queue in Hq. rewrite <-Hn in Hq. cbn [seq map] in Hq. injection Hq as Hc Hq. split_and!.
  - unfold getchar_read. rewrite (proj2 (Z.eqb_neq _ _)) by done.
    replace (Z.to_nat _) with (Z.to_nat (tail k)) in Hc by kbd_lia.
    rewrite (proj2 (zget_Some _ _ c)); [done|]. split; [lia|]. rewrite <-Hc.
    destruct (nth_lookup_or_length (kbuf k) (Z.to_nat (tail k)) 0); [done|kbd_lia].
  - unfold getchar_advance. rewrite Z.rem_mod_nonneg by (unfold BUFFER_SIZE; lia). split; cbn; [done..|kbd_lia].
  - unfold queue. replace (queue_len (getchar_advance k)) with (length q).
    + etransitivity; [|exact Hq]. rewrite <-seq_shift, map_map. apply map_ext_in. intros i Hi%in_seq.
      cbn [getchar_advance with_ring tail kbuf]. rewrite Z.rem_mod_nonneg by (unfold BUFFER_SIZE; lia).
      f_equal. f_equal. rewrite Zplus_mod_idemp_l. f_equal. lia.
    + unfold queue_len in *. cbn [getchar_advance with_ring tail head].
      rewrite Z.rem_mod_nonneg by (unfold BUFFER_SIZE; lia). kbd_lia.
Qed.

Lemma queue_nil k : kbd_ok k → queue k = [] → head k = tail k.
Proof.
  intros [Hl Hh Ht] Hq. pose proof (queue_length k) as Hn. rewrite Hq in Hn. unfold queue_len in Hn. cbn in Hn. kbd_lia.
Qed.

(** ** The properties *)

(** C22. The keyboard is a queue of at most 63 characters.  A run of keyboard
    interrupts always returns and appends, in order, the characters the scancodes
    type under the modifiers in force, dropping what does not fit; [getchar] takes
    the oldest character, and gives 0 on an empty queue. *)
Theorem keyboard_fifo scs k t :
  kbd_ok k → tty_ok t → Forall is_u8 scs →
  ∃ k' t', interrupts scs (k, t) = Ok (k', t') ∧ kbd_ok k' ∧
    queue k' = queue k ++ take (63 - length (queue k)) (types scs (mods_of k)) ∧
    match queue k' with
    | [] => getchar k' = Ok (k', 0)
    | c :: q => ∃ k'', getchar k' = Ok (k'', c) ∧ kbd_ok k'' ∧ queue k'' = q
    end.
Proof.
  intros Hk Ht Hs. destruct (interrupts_spec scs k t Hk Ht Hs) as (k' & t' & E & Hk' & _ & Hq & _).
  exists k', t'. split_and!; try done. unfold getchar. destruct (queue k') as [|c q] eqn:Eq.
  - unfold getchar_read. by rewrite (queue_nil _ Hk' Eq), Z.eqb_refl.
  - destruct (queue_cons _ c q Hk' Eq) as (-> & ? & ?). eauto.
Qed.

Definition idle_kbd : Kbd := MkKbd (replicate 64 0) 62 62 false false false false.

Lemma idle_kbd_ok : kbd_ok idle_kbd.
Proof. by split. Qed.

(** Shift down, [a], shift up, [b], enter: "Ab" and a newline, across the end of
    the ring. *)
Lemma keyboard_fifo_witness :
  types [0x2A; 0x1E; 0xAA; 0x30; 0x1C] (mods_of idle_kbd) = [65; 98; 10] ∧
  ∃ t k' t', interrupts [0x2A; 0x1E; 0xAA; 0x30; 0x1C] (idle_kbd, t) = Ok (k', t') ∧ queue k' = [65; 98; 10].
Proof.
  split; [reflexivity|]. destruct (init_spec reset_tty reset_power_on) as (t & _ & Hok & _).
  destruct (keyboard_fifo [0x2A; 0x1E; 0xAA; 0x30; 0x1C] idle_kbd t) as (k' & t' & E & _ & Hq & _);
    [apply idle_kbd_ok|exact Hok|repeat (constructor; [split; lia|]); constructor|].
  exists t, k', t'. split; [exact E|exact Hq].
Defined.

(** A keyboard interrupt between the two steps of [getchar] does no harm: the
    character read stays the one removed, and everything the interrupts typed stays
    in the queue behind the rest. *)
Theorem getchar_interrupted k t c q scs :
  kbd_ok k → tty_ok t → Forall is_u8 scs → queue k = c :: q →
  getchar_read k = Ok (Some c) ∧
  ∃ k' t', interrupts scs (k, t) = Ok (k', t') ∧
    queue (getchar_advance k') = q ++ take (62 - length q) (types scs (mods_of k)).
Proof.
  intros Hk Ht Hs Hq. destruct (queue_cons k c q Hk Hq) as (E & _ & _). split; [done|].
  destruct (interrupts_spec scs k t Hk Ht Hs) as (k' & t' & Ei & Hk' & _ & Hq' & _). exists k', t'. split; [done|].
  rewrite Hq in Hq'. by destruct (queue_cons k' c _ Hk' Hq') as (_ & _ & ->).
Qed.

Definition one_key : Kbd := MkKbd (<[63%nat := 120]> (replicate 64 0)) 0 63 false false false false.

Lemma getchar_interrupted_witness :
  getchar_read one_key = Ok (Some 120) ∧
  ∃ t k' t', interrupts [0x1E] (one_key, t) = Ok (k', t') ∧ queue (getchar_advance k') = [97].
Proof.
  destruct (init_spec reset_tty reset_power_on) as (t & _ & Hok & _).
  destruct (getchar_interrupted one_key t 120 [] [0x1E]) as (E & k' & t' & Ei & Hq);
    [by split|exact Hok|constructor; [split; lia|constructor]|reflexivity|].
  split; [exact E|]. exists t, k', t'. split; [exact Ei|exact Hq].
Defined.
