(* ===== verification/Partition.v ===== *)
(** * Partition tables ([fs/partition.cpp])

    The MBR and GPT scanner.  A block device is what [raw_read] gives: the bytes of
    [count] sectors from [lba] on, or a failure; nothing in the kernel writes to
    it.  On-disk structures are read at their byte offsets in the sector. *)

From S2P Require Import Prelude CString.

(** [vfs::ReadBlock]. *)
Definition ReadBlock : Type := Z → Z → option (list Z).

Record Partition := MkPartition {
  start_lba : Z;
  sector_count : Z;
  p_type : Z;
  valid : bool;
}.

Definition SECTOR : Z := 512.

(** [MBR] and its [MBRPartition]s. *)
Definition MBR_PARTS : Z := 446.
Definition MBR_SIGNATURE : Z := 510.
Definition mbr_part (sector : list Z) (i off n : Z) : Res Z := or_fault (field sector (MBR_PARTS + 16 * i + off) n).
Definition MP_TYPE : Z := 4.
Definition MP_LBA_START : Z := 8.
Definition MP_SECTOR_COUNT : Z := 12.

(** [GPTHeader]: signature 0, partition_entry_lba 72, num_entries 80, entry_size 84. *)
Definition GPT_ENTRY_LBA : Z := 72.
Definition GPT_NUM_ENTRIES : Z := 80.
Definition GPT_ENTRY_SIZE : Z := 84.
(** [GPTEntry]: partition_type_guid 0, first_lba 32, last_lba 40. *)
Definition GE_FIRST_LBA : Z := 32.
Definition GE_LAST_LBA : Z := 40.

(** "EFI PART" *)
Definition EFI_PART : list Z := [69; 70; 73; 32; 80; 65; 82; 84; 0].

(** Reading sectors into a buffer of [size] bytes: the bytes now at its start. *)
Definition read_into (read : ReadBlock) (size lba count : Z) : Res (option (list Z)) :=
  match read lba count with
  | None => Ok None
  | Some d => if size <? zlen d then Fault else Ok (Some d)
  end.

(** [for (int i = 0; i < 4; ++i)]: is there a protective entry? *)
Fixpoint is_gpt_loop (n : nat) (i : Z) (sector : list Z) : Res bool :=
  match n with
  | O => Ok false
  | S n => ty ← mbr_part sector i MP_TYPE 1; if ty =? 0xEE then Ok true else is_gpt_loop n (i + 1) sector
  end.

(** Are bytes [off+j .. off+15] all zero? *)
Fixpoint zero_guid (n : nat) (off : Z) (b : list Z) : Res bool :=
  match n with
  | O => Ok true
  | S n => c ← or_fault (zget b off); if negb (c =? 0) then Ok false else zero_guid n (off + 1) b
  end.

(** The GPT entry loop; [out] is the partitions found so far.  A division by zero
    traps. *)
Fixpoint gpt_loop (fuel : nat) (raw_read : ReadBlock) (entry_lba num_entries entry_size entries_per_sector i max : Z)
    (out : list Partition) : Res (list Partition) :=
  match fuel with
  | O => NoFuel
  | S fuel =>
      if negb ((i <? num_entries) && (zlen out <? max)) then Ok out else
      if entries_per_sector =? 0 then Fault else
      let sector_offset := i / entries_per_sector in
      let entry_offset := i `mod` entries_per_sector in
      r ← read_into raw_read SECTOR (u64 (entry_lba + sector_offset)) 1;
      match r with
      | None => Ok out
      | Some sector_buf =>
          let e := entry_offset * entry_size in
          zero ← zero_guid 16 e sector_buf;
          if zero : bool then gpt_loop fuel raw_read entry_lba num_entries entry_size entries_per_sector (i + 1) max out
          else
            first ← or_fault (field sector_buf (e + GE_FIRST_LBA) 8);
            last ← or_fault (field sector_buf (e + GE_LAST_LBA) 8);
            gpt_loop fuel raw_read entry_lba num_entries entry_size entries_per_sector (i + 1) max
              (out ++ [MkPartition first (u64 (last - first + 1)) 0 true])
      end
  end.

(** The MBR entry loop. *)
Fixpoint mbr_loop (n : nat) (i max : Z) (sector : list Z) (out : list Partition) : Res (list Partition) :=
  match n with
  | O => Ok out
  | S n =>
      if negb (zlen out <? max) then Ok out else
      ty ← mbr_part sector i MP_TYPE 1;
      if ty =? 0 then mbr_loop n (i + 1) max sector out else
      lba ← mbr_part sector i MP_LBA_START 4;
      count ← mbr_part sector i MP_SECTOR_COUNT 4;
      mbr_loop n (i + 1) max sector (out ++ [MkPartition lba count ty true])
  end.

Definition scan (raw_read : ReadBlock) (max : Z) : Res (list Partition) :=
  if max <=? 0 then Ok [] else
  r ← read_into raw_read SECTOR 0 1;
  match r with
  | None => Ok []
  | Some sector =>
      sig ← or_fault (field sector MBR_SIGNATURE 2);
      if negb (sig =? 0xAA55) then Ok [] else
      is_gpt ← is_gpt_loop 4 0 sector;
      if is_gpt : bool then
        r ← read_into raw_read SECTOR 1 1;
        match r with
        | None => Ok []
        | Some sector =>
            d ← strncmp sector EFI_PART 8;
            if negb (d =? 0) then Ok [] else
            entry_size ← or_fault (field sector GPT_ENTRY_SIZE 4);
            let entry_size := if entry_size <? 128 then 128 else entry_size in
            let entries_per_sector := 512 / entry_size in
            entry_lba ← or_fault (field sector GPT_ENTRY_LBA 8);
            num_entries ← or_fault (field sector GPT_NUM_ENTRIES 4);
            gpt_loop (S (Z.to_nat num_entries)) raw_read entry_lba num_entries entry_size entries_per_sector 0 max []
        end
      else mbr_loop 4 0 max sector []
  end.

(** [PartitionReadContext] and the reader of one partition. *)
Record PartitionReadContext := MkCtx { raw_read : ReadBlock; base_lba : Z }.

Definition read_partition (lba count : Z) (ctx : PartitionReadContext) : option (list Z) :=
  raw_read ctx (u64 (base_lba ctx + lba)) count.

(** ** What a partition table says *)

(** A GPT entry's type GUID and bounds. *)
Record gpt_slot := MkSlot { s_guid : list Z; s_first : Z; s_last : Z }.

Definition slot_used (s : gpt_slot) : bool := negb (forallb (λ c, c =? 0) (s_guid s)).

Definition slot_part (s : gpt_slot) : option Partition :=
  if slot_used s then Some (MkPartition (s_first s) (u64 (s_last s - s_first s + 1)) 0 true) else None.

(** The entry at byte [off] of a sector. *)
Definition slot_at (sector : list Z) (off : Z) (s : gpt_slot) : Prop :=
  slice sector off 16 = Some (s_guid s) ∧
  field sector (off + GE_FIRST_LBA) 8 = Some (s_first s) ∧ field sector (off + GE_LAST_LBA) 8 = Some (s_last s).

(** An MBR entry's type, first sector and size. *)
Record mbr_slot := MkMbrSlot { m_type : Z; m_first : Z; m_count : Z }.

Definition mbr_slot_part (s : mbr_slot) : option Partition :=
  if m_type s =? 0 then None else Some (MkPartition (m_first s) (m_count s) (m_type s) true).

Definition mbr_slot_at (sector : list Z) (i : Z) (s : mbr_slot) : Prop :=
  mbr_part sector i MP_TYPE 1 = Ok (m_type s) ∧ mbr_part sector i MP_LBA_START 4 = Ok (m_first s) ∧
  mbr_part sector i MP_SECTOR_COUNT 4 = Ok (m_count s).

(** A disk that holds a table of partitions. *)
Inductive disk_holds (read : ReadBlock) : list Partition → Prop :=
  | holds_gpt mbr hdr protective entry_lba entry_size table :
      read 0 1 = Some mbr → zlen mbr = SECTOR → field mbr MBR_SIGNATURE 2 = Some 0xAA55 →
      (∃ i : nat, protective !! i = Some 0xEE ∧ (i < 4)%nat) → length protective = 4%nat →
      (∀ i ty, protective !! i = Some ty → mbr_part mbr (Z.of_nat i) MP_TYPE 1 = Ok ty) →
      read 1 1 = Some hdr → zlen hdr = SECTOR → take 8 hdr = take 8 EFI_PART →
      field hdr GPT_ENTRY_LBA 8 = Some entry_lba → field hdr GPT_NUM_ENTRIES 4 = Some (zlen table) →
      field hdr GPT_ENTRY_SIZE 4 = Some entry_size → 128 ≤ entry_size ≤ 512 →
      (∀ i s, table !! i = Some s → ∃ sector,
        read (u64 (entry_lba + Z.of_nat i / (512 / entry_size))) 1 = Some sector ∧ zlen sector = SECTOR ∧
        slot_at sector ((Z.of_nat i `mod` (512 / entry_size)) * entry_size) s) →
      disk_holds read (omap slot_part table)
  | holds_mbr mbr table :
      read 0 1 = Some mbr → zlen mbr = SECTOR → field mbr MBR_SIGNATURE 2 = Some 0xAA55 →
      length table = 4%nat → (∀ i s, table !! i = Some s → mbr_slot_at mbr (Z.of_nat i) s ∧ m_type s ≠ 0xEE) →
      disk_holds read (omap mbr_slot_part table).

Lemma zero_guid_spec n off b (g : list Z) :
  0 ≤ off → length g = n → (∀ i c, g !! i = Some c → zget b (off + Z.of_nat i) = Some c) →
  zero_guid n off b = Ok (forallb (λ c, c =? 0) g).
Proof.
  revert off g. induction n as [|n IH]; intros off g Hoff Hl Hg; destruct g as [|c g]; try discriminate; [done|].
  injection Hl as Hl. cbn [zero_guid].
  specialize (Hg 0%nat c eq_refl) as Hc. rewrite Z.add_0_r in Hc. rewrite Hc. res_step.
  destruct (Z.eqb_spec c 0) as [->|H0]; cbn [negb forallb Z.eqb andb].
  - apply IH; [lia|done|]. intros i c Hi. rewrite <-(Hg (S i) c Hi). f_equal. lia.
  - by rewrite (proj2 (Z.eqb_neq c 0)).
Qed.

Lemma slice_lookup {A} (b : list A) off n g i c :
  slice b off n = Some g → g !! i = Some c → zget b (off + Z.of_nat i) = Some c.
Proof.
  unfold slice. case_match eqn:E; [done|]. intros [= <-] Hi. bool_arith.
  apply lookup_take_Some in Hi as [Hi _]. rewrite lookup_drop in Hi. apply zget_Some. split; [lia|].
  rewrite <-Hi. f_equal. lia.
Qed.

Lemma read_into_ok (read : ReadBlock) lba d : read lba 1 = Some d → zlen d = SECTOR → read_into read SECTOR lba 1 = Ok (Some d).
Proof. unfold read_into. intros -> ->. by rewrite Z.ltb_irrefl. Qed.

Lemma gpt_loop_spec read entry_lba entry_size (table rest : list gpt_slot) fuel i max out :
  128 ≤ entry_size ≤ 512 → (length rest < fuel)%nat → drop i table = rest → (i ≤ length table)%nat → zlen out ≤ max →
  (∀ i s, table !! i = Some s → ∃ sector,
    read (u64 (entry_lba + Z.of_nat i / (512 / entry_size))) 1 = Some sector ∧ zlen sector = SECTOR ∧
    slot_at sector ((Z.of_nat i `mod` (512 / entry_size)) * entry_size) s) →
  gpt_loop fuel read entry_lba (zlen table) entry_size (512 / entry_size) (Z.of_nat i) max out
  = Ok (out ++ take (Z.to_nat (max - zlen out)) (omap slot_part rest)).
Proof.
  intros Hes Hf Hd Hi Hmax Htab. assert (0 < 512 / entry_size) as Heps by (apply Z.div_str_pos; lia).
  revert fuel i out Hf Hd Hi Hmax. induction rest as [|s rest IH]; intros fuel i out Hf Hd Hi Hmax; destruct fuel as [|fuel]; try (simpl in Hf; lia).
  - apply (f_equal length) in Hd. rewrite length_drop in Hd. simpl in Hd. cbn [gpt_loop].
    rewrite (proj2 (Z.ltb_ge (Z.of_nat i) (zlen table))) by (unfold zlen; lia). cbn [andb negb].
    change (omap slot_part []) with (@nil Partition). by rewrite take_nil, app_nil_r.
  - assert (table !! i = Some s) as Hs.
    { rewrite <-(Nat.add_0_r i), <-lookup_drop, Hd. done. }
    assert (drop (S i) table = rest) as Hd' by (rewrite (drop_S _ _ _ Hs) in Hd; by injection Hd).
    pose proof (lookup_lt_Some _ _ _ Hs). cbn [gpt_loop length omap list_omap] in *.
    rewrite (proj2 (Z.ltb_lt (Z.of_nat i) (zlen table))) by (unfold zlen; lia). cbn [andb].
    destruct (Z.ltb_spec (zlen out) max) as [Hm|Hm]; cbn [negb]; [|by rewrite Z2Nat.nonpos, app_nil_r by lia].
    rewrite (proj2 (Z.eqb_neq _ 0)) by lia.
    destruct (Htab i s Hs) as (sector & Hr & Hl & Hg & Hfirst & Hlast). rewrite (read_into_ok _ _ _ Hr Hl). res_step.
    rewrite (zero_guid_spec _ _ _ (s_guid s)).
    + res_step. unfold slot_part, slot_used at 1. replace (Z.of_nat i + 1) with (Z.of_nat (S i)) by lia.
      destruct (forallb _ _) eqn:Hz; cbn [negb]; [apply IH; done || lia|].
      rewrite Hfirst, Hlast. res_step. rewrite IH; [|lia|done|lia|unfold zlen in *; rewrite length_app; simpl; lia].
      rewrite <-app_assoc. cbn [app]. f_equal. f_equal.
      replace (Z.to_nat (max - zlen out)) with (S (Z.to_nat (max - zlen (out ++ [MkPartition (s_first s) (u64 (s_last s - s_first s + 1)) 0 true]))));
        [done|]. unfold zlen in *. rewrite length_app. simpl. lia.
    + pose proof (Z.mod_pos_bound (Z.of_nat i) (512 / entry_size) Heps). nia.
    + apply slice_length in Hg. unfold zlen in Hg. lia.
    + intros j c Hj. by eapply slice_lookup.
Qed.

Lemma mbr_loop_spec mbr (table rest : list mbr_slot) n i max out :
  n = length rest → drop i table = rest → zlen out ≤ max →
  (∀ i s, table !! i = Some s → mbr_slot_at mbr (Z.of_nat i) s) →
  mbr_loop n (Z.of_nat i) max mbr out = Ok (out ++ take (Z.to_nat (max - zlen out)) (omap mbr_slot_part rest)).
Proof.
  intros Hn Hd Hmax Htab. revert n i out Hn Hd Hmax. induction rest as [|s rest IH]; intros n i out -> Hd Hmax; cbn [mbr_loop length].
  - change (omap mbr_slot_part []) with (@nil Partition). by rewrite take_nil, app_nil_r.
  - assert (table !! i = Some s) as Hs by (rewrite <-(Nat.add_0_r i), <-lookup_drop, Hd; done).
    assert (drop (S i) table = rest) as Hd' by (rewrite (drop_S _ _ _ Hs) in Hd; by injection Hd).
    cbn [omap list_omap].
    destruct (Z.ltb_spec (zlen out) max) as [Hm|Hm]; cbn [negb]; [|by rewrite Z2Nat.nonpos, app_nil_r by lia].
    destruct (Htab i s Hs) as (Et & Ef & Ec). rewrite Et. res_step. replace (Z.of_nat i + 1) with (Z.of_nat (S i)) by lia.
    unfold mbr_slot_part at 1. destruct (m_type s =? 0); [by apply IH|].
    rewrite Ef, Ec. res_step. rewrite (IH _ (S i)); [|done..|unfold zlen in *; rewrite length_app; simpl; lia].
    rewrite <-app_assoc. cbn [app]. f_equal. f_equal.
    replace (Z.to_nat (max - zlen out)) with (S (Z.to_nat (max - zlen (out ++ [MkPartition (m_first s) (m_count s) (m_type s) true]))));
      [done|]. unfold zlen in *. rewrite length_app. simpl. lia.
Qed.

Lemma is_gpt_loop_spec n i mbr tys (l : list Z) :
  drop i tys = l → n = length l → (∀ i ty, tys !! i = Some ty → mbr_part mbr (Z.of_nat i) MP_TYPE 1 = Ok ty) →
  is_gpt_loop n (Z.of_nat i) mbr = Ok (bool_decide (0xEE ∈ l)).
Proof.
  intros Hd -> Htab. revert i Hd. induction l as [|ty l IH]; intros i Hd; cbn [is_gpt_loop length]; [done|].
  assert (tys !! i = Some ty) as Hs by (rewrite <-(Nat.add_0_r i), <-lookup_drop, Hd; done).
  rewrite (Htab _ _ Hs). res_step. destruct (Z.eqb_spec ty 0xEE) as [->|Hne].
  - rewrite bool_decide_true; [done|]. apply list_elem_of_here.
  - replace (Z.of_nat i + 1) with (Z.of_nat (S i)) by lia. rewrite IH.
    + f_equal. apply bool_decide_ext. rewrite elem_of_cons. naive_solver.
    + rewrite (drop_S _ _ _ Hs) in Hd. by injection Hd.
Qed.

(** The three loops, run from the start. *)
Lemma is_gpt_all mbr (tys : list Z) :
  length tys = 4%nat → (∀ i ty, tys !! i = Some ty → mbr_part mbr (Z.of_nat i) MP_TYPE 1 = Ok ty) →
  is_gpt_loop 4 0 mbr = Ok (bool_decide (0xEE ∈ tys)).
Proof. intros Hl Ht. by apply (is_gpt_loop_spec 4 0 mbr tys tys). Qed.

Lemma mbr_all mbr table max :
  length table = 4%nat → 0 ≤ max → (∀ i s, table !! i = Some s → mbr_slot_at mbr (Z.of_nat i) s) →
  mbr_loop 4 0 max mbr [] = Ok (take (Z.to_nat max) (omap mbr_slot_part table)).
Proof.
  intros Hl Hm Ht. rewrite <-(Z.sub_0_r max) at 2. by apply (mbr_loop_spec mbr table table 4 0 max []).
Qed.

Lemma gpt_all read entry_lba entry_size (table : list gpt_slot) max :
  128 ≤ entry_size ≤ 512 → 0 ≤ max →
  (∀ i s, table !! i = Some s → ∃ sector,
    read (u64 (entry_lba + Z.of_nat i / (512 / entry_size))) 1 = Some sector ∧ zlen sector = SECTOR ∧
    slot_at sector ((Z.of_nat i `mod` (512 / entry_size)) * entry_size) s) →
  gpt_loop (S (Z.to_nat (zlen table))) read entry_lba (zlen table) entry_size (512 / entry_size) 0 max []
  = Ok (take (Z.to_nat max) (omap slot_part table)).
Proof.
  intros Hs Hm Ht. rewrite <-(Z.sub_0_r max) at 2.
  apply (gpt_loop_spec read entry_lba entry_size table table _ 0 max []); try done; [unfold zlen; lia|lia].
Qed.

Lemma efi_part_match hdr : take 8 hdr = take 8 EFI_PART → strncmp hdr EFI_PART 8 = Ok 0.
Proof.
  intros Hh. rewrite <-(take_drop 8 hdr), Hh. by destruct (drop 8 hdr).
Qed.

Lemma scan_spec read ps max : disk_holds read ps → 0 ≤ max → scan read max = Ok (take (Z.to_nat max) ps).
Proof.
  intros Hd Hmax. unfold scan. destruct (Z.leb_spec max 0); [by replace max with 0 by lia|].
  destruct Hd as [mbr hdr protective entry_lba entry_size table Hr Hl Hsig (i & Hi & _) Hp Hty Hr1 Hl1 Hm He Hn Hs Hb Htab|mbr table Hr Hl Hsig Hn Htab];
    rewrite (read_into_ok _ _ _ Hr Hl); res_step; rewrite Hsig; res_step; cbn [negb Z.eqb Pos.eqb].
  - rewrite (is_gpt_all mbr protective) by done. res_step.
    rewrite bool_decide_true by (by eapply list_elem_of_lookup_2).
    rewrite (read_into_ok _ _ _ Hr1 Hl1). res_step. rewrite (efi_part_match _ Hm). res_step. cbn [negb Z.eqb].
    rewrite Hs, He, Hn. res_step. rewrite (proj2 (Z.ltb_ge entry_size 128)) by lia.
    by apply gpt_all.
  - rewrite (is_gpt_all mbr (map m_type table)); [|by rewrite length_map|].
    2:{ intros i ty Hi. apply list_lookup_fmap_Some in Hi as (s & -> & Hi). by destruct (Htab i s Hi) as [[? _] _]. }
    res_step. rewrite bool_decide_false.
    2:{ intros Hin. apply list_elem_of_fmap in Hin as (s & Es & Hin). apply list_elem_of_lookup in Hin as [i Hi].
        by destruct (Htab i s Hi) as [_ []]. }
    apply mbr_all; [done|lia|]. intros i s Hi. by apply Htab.
Qed.

(** A GPT whose entries are larger than a sector makes the scanner divide by zero. *)
Lemma scan_large_entries read mbr hdr (protective : list Z) size n lba max :
  read 0 1 = Some mbr → zlen mbr = SECTOR → field mbr MBR_SIGNATURE 2 = Some 0xAA55 →
  0xEE ∈ protective → length protective = 4%nat →
  (∀ i ty, protective !! i = Some ty → mbr_part mbr (Z.of_nat i) MP_TYPE 1 = Ok ty) →
  read 1 1 = Some hdr → zlen hdr = SECTOR → take 8 hdr = take 8 EFI_PART →
  field hdr GPT_ENTRY_SIZE 4 = Some size → field hdr GPT_ENTRY_LBA 8 = Some lba → field hdr GPT_NUM_ENTRIES 4 = Some n →
  512 < size → 0 < n → 0 < max → scan read max = Fault.
Proof.
  intros Hr Hl Hsig Hin Hp Hty Hr1 Hl1 Hm Hs He Hn Hsz Hn0 Hmax. unfold scan.
  rewrite (proj2 (Z.leb_gt max 0)), (read_into_ok _ _ _ Hr Hl) by lia. res_step. rewrite Hsig. res_step. cbn [negb Z.eqb Pos.eqb].
  rewrite (is_gpt_all mbr protective), bool_decide_true by done. res_step.
  rewrite (read_into_ok _ _ _ Hr1 Hl1). res_step. rewrite (efi_part_match _ Hm). res_step. cbn [negb Z.eqb].
  rewrite Hs, He, Hn. res_step. rewrite (proj2 (Z.ltb_ge size 128)) by lia. cbn [gpt_loop].
  rewrite (proj2 (Z.ltb_lt 0 n)), (proj2 (Z.ltb_lt _ max)) by (unfold zlen; simpl; lia). cbn [andb negb].
  by rewrite Z.div_small by lia.
Qed.

(** ** The properties *)

(** C24. On a disk that holds a GPT (entries of 128 to 512 bytes, any number of
    them) or an MBR table, [scan] finds exactly the table's used entries, in order,
    up to the caller's limit, and always returns. *)
Theorem scan_reads_table read ps max :
  disk_holds read ps → 0 ≤ max → scan read max = Ok (take (Z.to_nat max) ps).
Proof. apply scan_spec. Qed.

(** A disk with a GPT of three entries, the second unused. *)
Definition zeros (n : nat) : list Z := replicate n 0.
Definition sample_mbr : list Z := zeros 450 ++ [0xEE] ++ zeros 59 ++ [0x55; 0xAA].
Definition sample_hdr : list Z := take 8 EFI_PART ++ zeros 64 ++ le_bytes 8 2 ++ le_bytes 4 3 ++ le_bytes 4 128 ++ zeros 424.
Definition sample_slot (s : gpt_slot) : list Z := s_guid s ++ zeros 16 ++ le_bytes 8 (s_first s) ++ le_bytes 8 (s_last s) ++ zeros 80.
Definition sample_table : list gpt_slot :=
  [MkSlot (replicate 16 7) 2048 4095; MkSlot (zeros 16) 0 0; MkSlot (replicate 16 9) 4096 5000].
Definition sample_disk : ReadBlock := λ lba count,
  if negb (count =? 1) then None
  else if lba =? 0 then Some sample_mbr
  else if lba =? 1 then Some sample_hdr
  else if lba =? 2 then Some (concat (map sample_slot sample_table) ++ zeros 128)
  else None.

Lemma sample_disk_holds : disk_holds sample_disk (omap slot_part sample_table).
Proof.
  apply (holds_gpt sample_disk sample_mbr sample_hdr [0xEE; 0; 0; 0] 2 128).
  1-3: vm_compute; reflexivity.
  - exists 0%nat. split; [reflexivity|lia].
  - reflexivity.
  - intros i ty Hi. do 4 (destruct i as [|i]; [injection Hi as <-; vm_compute; reflexivity|]). discriminate Hi.
  - reflexivity.
  - vm_compute. reflexivity.
  - vm_compute. reflexivity.
  - vm_compute. reflexivity.
  - vm_compute. reflexivity.
  - vm_compute. reflexivity.
  - lia.
  - intros i s Hi. exists (concat (map sample_slot sample_table) ++ zeros 128).
    do 3 (destruct i as [|i]; [injection Hi as <-; split; [vm_compute; reflexivity|split; [vm_compute; reflexivity|split; [vm_compute; reflexivity|split; vm_compute; reflexivity]]]|]). discriminate Hi.
Qed.

Lemma scan_reads_table_witness :
  scan sample_disk 16 = Ok [MkPartition 2048 2048 0 true; MkPartition 4096 905 0 true].
Proof.
  etransitivity; [apply (scan_reads_table sample_disk (omap slot_part sample_table) 16); [apply sample_disk_holds|lia]|].
  vm_compute. reflexivity.
Defined.
