(* ===== verification/Ext2.v ===== *)
(** * The ext2 driver ([fs/ext2.cpp])

    Mounting, inode lookup, the direct and indirect block map, reading files and
    listing directories.  Structures on the disk are bytes read at their offsets; a
    block in a heap buffer is the bytes the read left there.  All block arithmetic
    is [u32], as in the code. *)

From S2P Require Import Prelude CString Task Fs Partition.

(** [Ext2Superblock], [Ext2BlockGroupDesc], [Ext2Inode] and [Ext2DirEntry] field
    offsets. *)
Definition SB_BLOCKS_COUNT : Z := 4.
Definition SB_FIRST_DATA_BLOCK : Z := 20.
Definition SB_LOG_BLOCK_SIZE : Z := 24.
Definition SB_BLOCKS_PER_GROUP : Z := 32.
Definition SB_INODES_PER_GROUP : Z := 40.
Definition SB_MAGIC : Z := 56.
Definition SB_REV_LEVEL : Z := 76.
Definition SB_INODE_SIZE : Z := 88.
Definition SIZEOF_BGD : Z := 32.
Definition BG_INODE_TABLE : Z := 8.
Definition SIZEOF_EXT2INODE : Z := 128.
Definition i_mode (di : list Z) : Res Z := or_fault (field di 0 2).
Definition i_size (di : list Z) : Res Z := or_fault (field di 4 4).
Definition i_block (di : list Z) (n : Z) : Res Z := or_fault (field di (40 + 4 * n) 4).
Definition SIZEOF_DIRENTRY : Z := 8.

Definition SIZEOF_EXT2STATE : Z := 4136.
Definition SIZEOF_EXT2REF : Z := 144.
Definition MAX_GROUPS : Z := 128.

(** [bgdt] is the bytes of the descriptors read at mount. *)
Record Ext2State := MkExt2 {
  e_read : ReadBlock;
  block_size : Z;
  sectors_per_block : Z;
  inodes_per_group : Z;
  inode_size : Z;
  first_data_block : Z;
  blocks_per_group : Z;
  num_groups : Z;
  bgdt : list Z;
}.

(** [Ext2InodeRef], without its pointer to the one state. *)
Record Ext2InodeRef := MkRef { ref_ino : Z; disk : list Z }.

(** Read a block into a buffer of [block_size] bytes. *)
Definition read_block (st : Ext2State) (block_no : Z) : Res (option (list Z)) :=
  read_into (e_read st) (block_size st) (u64 (block_no * sectors_per_block st)) (sectors_per_block st).

Definition div32 (x y : Z) : Res Z := if y =? 0 then Fault else Ok (x / y).
Definition mod32 (x y : Z) : Res Z := if y =? 0 then Fault else Ok (x `mod` y).

Section ext2.
Context {K : Type} `{KernelEnv K}.

(** One level of indirection: entry [idx] of the block of pointers [block_no].
    [resolve_block] repeats these lines at each level. *)
Definition indirect (st : Ext2State) (block_no idx : Z) (k : K) : Res (K * Z) :=
  if block_no =? 0 then Ok (k, 0) else
  '(k, buf) ← kmalloc (block_size st) k;
  if buf =? 0 then Ok (k, 0) else
  ok ← read_block st block_no;
  result ← (match ok with Some d => or_fault (field d (4 * idx) 4) | None => Ok 0 end);
  k ← kfree buf k;
  Ok (k, result).

Definition resolve_block (st : Ext2State) (di : list Z) (logical : Z) (k : K) : Res (K * Z) :=
  let ptrs_per_block := block_size st / 4 in
  if logical <? 12 then b ← i_block di logical; Ok (k, b) else
  let logical := logical - 12 in
  if logical <? ptrs_per_block then
    ind ← i_block di 12;
    indirect st ind logical k
  else
  let logical := logical - ptrs_per_block in
  let ptrs2 := u32 (ptrs_per_block * ptrs_per_block) in
  if logical <? ptrs2 then
    dind ← i_block di 13;
    i ← div32 logical ptrs_per_block;
    '(k, ind) ← indirect st dind i k;
    j ← mod32 logical ptrs_per_block;
    indirect st ind j k
  else
  let logical := u32 (logical - ptrs2) in
  if logical <? u32 (ptrs2 * ptrs_per_block) then
    tind ← i_block di 14;
    i ← div32 logical ptrs2;
    '(k, dind) ← indirect st tind i k;
    logical ← mod32 logical ptrs2;
    i ← div32 logical ptrs_per_block;
    '(k, ind) ← indirect st dind i k;
    j ← mod32 logical ptrs_per_block;
    indirect st ind j k
  else Ok (k, 0).

(** The inode's 128 bytes, if it can be read. *)
Definition fetch_inode (st : Ext2State) (ino : Z) (k : K) : Res (K * option (list Z)) :=
  if ino =? 0 then Ok (k, None) else
  group ← div32 (u32 (ino - 1)) (inodes_per_group st);
  loc ← mod32 (u32 (ino - 1)) (inodes_per_group st);
  if num_groups st <=? group then Ok (k, None) else
  table_block ← or_fault (field (bgdt st) (SIZEOF_BGD * group + BG_INODE_TABLE) 4);
  let byte_off := u32 (loc * inode_size st) in
  blk_off ← div32 byte_off (block_size st);
  off_in_blk ← mod32 byte_off (block_size st);
  '(k, blk) ← kmalloc (block_size st) k;
  if blk =? 0 then Ok (k, None) else
  ok ← read_block st (u32 (table_block + blk_off));
  out ← (match ok with Some d => o ← or_fault (slice d off_in_blk SIZEOF_EXT2INODE); Ok (Some o) | None => Ok None end);
  k ← kfree blk k;
  Ok (k, out).

Definition make_vfs_inode (st : Ext2State) (ino : Z) (k : K) : Res (K * option (Inode Ext2InodeRef)) :=
  '(k, ref) ← kmalloc SIZEOF_EXT2REF k;
  if ref =? 0 then Ok (k, None) else
  '(k, d) ← fetch_inode st ino k;
  match d with
  | None => k ← kfree ref k; Ok (k, None)
  | Some d =>
      '(k, inode) ← kmalloc SIZEOF_INODE k;
      if inode =? 0 then k ← kfree ref k; Ok (k, None) else
      sz ← i_size d;
      mode ← i_mode d;
      Ok (k, Some (MkInode ino sz (Z.land mode 0xF000 =? 0x4000) (MkRef ino d)))
  end.

(** The copy loop; [out] is what has been written to the caller's buffer. *)
Fixpoint read_loop (fuel : nat) (st : Ext2State) (di : list Z) (offset count : Z) (out : list Z) (k : K)
    : Res (K * list Z) :=
  match fuel with
  | O => NoFuel
  | S fuel =>
      if negb (zlen out <? count) then Ok (k, out) else
      let file_off := u64 (offset + zlen out) in
      logical ← div32 file_off (block_size st);
      let logical := u32 logical in
      off_in_blk ← mod32 file_off (block_size st);
      let avail := block_size st - off_in_blk in
      let to_copy := u32 (count - zlen out) in
      let to_copy := if avail <? to_copy then avail else to_copy in
      '(k, phys_blk) ← resolve_block st di logical k;
      if phys_blk =? 0 then Ok (k, out) else
      ok ← read_block st phys_blk;
      match ok with
      | None => Ok (k, out)
      | Some d => bs ← or_fault (slice d off_in_blk to_copy); read_loop fuel st di offset count (out ++ bs) k
      end
  end.

Definition ext2_read (st : Ext2State) (inode : Inode Ext2InodeRef) (offset count : Z) (k : K) : Res (K * (Z * list Z)) :=
  let di := disk (private_data inode) in
  file_size ← i_size di;
  if file_size <=? offset then Ok (k, (0, [])) else
  let count := if file_size <? u64 (offset + count) then file_size - offset else count in
  '(k, blk_buf) ← kmalloc (block_size st) k;
  if blk_buf =? 0 then Ok (k, (-1, [])) else
  '(k, out) ← read_loop (S (Z.to_nat count)) st di offset count [] k;
  k ← kfree blk_buf k;
  Ok (k, (i64_of (zlen out), out)).

(** The entries of one block: what has been written, the position in the stream and
    whether the caller's buffer is full. *)
Fixpoint dir_block_loop (fuel : nat) (blk : list Z) (pos limit offset count : Z) (out : list Z) (stream_pos : Z)
    : Res (list Z * Z * bool) :=
  match fuel with
  | O => NoFuel
  | S fuel =>
      if negb (pos <? limit) then Ok (out, stream_pos, false) else
      inode ← or_fault (field blk pos 4);
      rec_len ← or_fault (field blk (pos + 4) 2);
      name_len ← or_fault (field blk (pos + 6) 1);
      if rec_len =? 0 then Ok (out, stream_pos, false) else
      if negb (inode =? 0) && (0 <? name_len) then
        let needed := 8 + name_len + 1 in
        if offset <=? stream_pos then
          if count <? zlen out + needed then Ok (out, stream_pos, true) else
          nm ← or_fault (slice blk (pos + SIZEOF_DIRENTRY) name_len);
          dir_block_loop fuel blk (pos + rec_len) limit offset count (out ++ dirent inode nm) (stream_pos + needed)
        else dir_block_loop fuel blk (pos + rec_len) limit offset count out (stream_pos + needed)
      else dir_block_loop fuel blk (pos + rec_len) limit offset count out stream_pos
  end.

Fixpoint readdir_loop (fuel : nat) (st : Ext2State) (di : list Z) (dir_size blk_start offset count : Z) (out : list Z)
    (stream_pos : Z) (k : K) : Res (K * list Z) :=
  match fuel with
  | O => NoFuel
  | S fuel =>
      if negb (blk_start <? dir_size) then Ok (k, out) else
      logical ← div32 blk_start (block_size st);
      '(k, phys_blk) ← resolve_block st di logical k;
      if phys_blk =? 0 then Ok (k, out) else
      ok ← read_block st phys_blk;
      match ok with
      | None => Ok (k, out)
      | Some d =>
          let blk_end := u32 (blk_start + block_size st) in
          let blk_end := if dir_size <? blk_end then dir_size else blk_end in
          let limit := u32 (blk_end - blk_start) in
          '(out, stream_pos, full) ← dir_block_loop (S (Z.to_nat limit)) d 0 limit offset count out stream_pos;
          if full : bool then Ok (k, out)
          else readdir_loop fuel st di dir_size (u32 (blk_start + block_size st)) offset count out stream_pos k
      end
  end.

Definition ext2_readdir (st : Ext2State) (inode : Inode Ext2InodeRef) (offset count : Z) (k : K) : Res (K * (Z * list Z)) :=
  let di := disk (private_data inode) in
  dir_size ← i_size di;
  '(k, blk_buf) ← kmalloc (block_size st) k;
  if blk_buf =? 0 then Ok (k, (-1, [])) else
  '(k, out) ← readdir_loop (S (S (Z.to_nat (dir_size / block_size st)))) st di dir_size 0 offset count [] 0 k;
  k ← kfree blk_buf k;
  Ok (k, (i64_of (zlen out), out)).

Definition ext2_root_inode (st : Ext2State) (k : K) : Res (K * option (Inode Ext2InodeRef)) := make_vfs_inode st 2 k.

Definition ext2_get_inode (st : Ext2State) (ino : Z) (k : K) : Res (K * option (Inode Ext2InodeRef)) :=
  make_vfs_inode st (u32 ino) k.

(** A shift of a 32-bit word by 32 or more is undefined. *)
Definition shl32 (x n : Z) : Res Z := if 32 <=? n then Fault else Ok (u32 (Z.shiftl x n)).

Definition mount (read_fn : ReadBlock) (k : K) : Res (K * option (Ext2State * SuperBlock K Ext2InodeRef)) :=
  r ← read_into read_fn 1024 2 2;
  match r with
  | None => Ok (k, None)
  | Some sb =>
      magic ← or_fault (field sb SB_MAGIC 2);
      if negb (magic =? 0xEF53) then Ok (k, None) else
      log ← or_fault (field sb SB_LOG_BLOCK_SIZE 4);
      block_size ← shl32 1024 log;
      let sectors_per_blk := block_size / 512 in
      rev ← or_fault (field sb SB_REV_LEVEL 4);
      s_inode_size ← or_fault (field sb SB_INODE_SIZE 2);
      let inode_size := if (1 <=? rev) && (128 <=? s_inode_size) then s_inode_size else 128 in
      blocks ← or_fault (field sb SB_BLOCKS_COUNT 4);
      bpg ← or_fault (field sb SB_BLOCKS_PER_GROUP 4);
      num_groups ← div32 (u32 (blocks + bpg - 1)) bpg;
      if MAX_GROUPS <? num_groups then Ok (k, None) else
      '(k, state) ← kmalloc SIZEOF_EXT2STATE k;
      if state =? 0 then Ok (k, None) else
      ipg ← or_fault (field sb SB_INODES_PER_GROUP 4);
      fdb ← or_fault (field sb SB_FIRST_DATA_BLOCK 4);
      let bgdt_block := u32 (fdb + 1) in
      let bgdt_bytes := num_groups * SIZEOF_BGD in
      let bgdt_sectors := (bgdt_bytes + 511) / 512 in
      let bgdt_lba := u64 (bgdt_block * sectors_per_blk) in
      '(k, bgdt_buf) ← kmalloc ((bgdt_sectors + 1) * 512) k;
      if bgdt_buf =? 0 then k ← kfree state k; Ok (k, None) else
      r ← read_into read_fn ((bgdt_sectors + 1) * 512) bgdt_lba bgdt_sectors;
      match r with
      | None => k ← kfree bgdt_buf k; k ← kfree state k; Ok (k, None)
      | Some d =>
          bgdt ← or_fault (slice d 0 bgdt_bytes);
          k ← kfree bgdt_buf k;
          let st := MkExt2 read_fn block_size sectors_per_blk ipg inode_size fdb bpg num_groups bgdt in
          '(k, vfs_sb) ← kmalloc SIZEOF_SUPERBLOCK k;
          if vfs_sb =? 0 then k ← kfree state k; Ok (k, None) else
          Ok (k, Some (st, MkSuperBlock (Some (ext2_root_inode st)) (Some (ext2_get_inode st))
                             (MkInodeOps (Some (ext2_read st)) (Some (ext2_readdir st)))))
      end
  end.

End ext2.
