(* ===== verification/Ext2Spec.v ===== *)
(** * The ext2 block map and file contents

    A reference for the on-disk tree: following [level] levels of pointer blocks,
    and the file a block map describes.  [resolve_block] walks exactly that tree,
    and [ext2_read] copies exactly the bytes of the file; both give back every
    buffer they allocate. *)

From S2P Require Import Prelude CString Task BumpEnv Fs Partition Ext2.

(** A mounted volume: blocks of 1, 2 or 4 KiB, and a device that gives whole
    sectors. *)
Record geometry (st : Ext2State) : Prop := {
  g_size : block_size st = 1024 ∨ block_size st = 2048 ∨ block_size st = 4096;
  g_sectors : sectors_per_block st = block_size st / 512;
  g_read lba n d : e_read st lba n = Some d → zlen d = n * 512 ∧ Forall is_u8 d;
}.

Definition inode_ok (di : list Z) : Prop := zlen di = SIZEOF_EXT2INODE ∧ Forall is_u8 di.

(** ** The reference *)

Definition block_of (st : Ext2State) (b : Z) : option (list Z) :=
  e_read st (u64 (b * sectors_per_block st)) (sectors_per_block st).

(** Pointers in a block. *)
Definition ptrs (st : Ext2State) : Z := block_size st / 4.

(** Pointer [i] of block [b]; block 0 is a hole, and an unreadable block is one. *)
Definition ptr_at (st : Ext2State) (b i : Z) : Z :=
  if b =? 0 then 0 else
  match block_of st b with Some d => default 0 (field d (4 * i) 4) | None => 0 end.

(** Entry [n] of the tree of [level] levels below block [b]. *)
Fixpoint follow (st : Ext2State) (level : nat) (b n : Z) : Z :=
  match level with
  | O => b
  | S level => follow st level (ptr_at st b (n / ptrs st ^ Z.of_nat level)) (n `mod` ptrs st ^ Z.of_nat level)
  end.

Definition pointer (di : list Z) (i : Z) : Z := default 0 (field di (40 + 4 * i) 4).

(** The block that holds block [n] of a file: twelve direct pointers, then trees of
    one, two and three levels. *)
Definition block_map (st : Ext2State) (di : list Z) (n : Z) : Z :=
  let p := ptrs st in
  if n <? 12 then pointer di n
  else if n - 12 <? p then follow st 1 (pointer di 12) (n - 12)
  else if n - 12 - p <? p ^ 2 then follow st 2 (pointer di 13) (n - 12 - p)
  else if n - 12 - p - p ^ 2 <? p ^ 3 then follow st 3 (pointer di 14) (n - 12 - p - p ^ 2)
  else 0.

(** [data] is the contents of the file: every block is there and readable. *)
Record file_holds (st : Ext2State) (di : list Z) (data : list Z) : Prop := {
  fh_size : field di 4 4 = Some (zlen data);
  fh_block n : 0 ≤ n → n * block_size st < zlen data →
    block_map st di n ≠ 0 ∧ ∃ d, block_of st (block_map st di n) = Some d ∧
      ∀ j, 0 ≤ j < block_size st → n * block_size st + j < zlen data →
        zget d j = zget data (n * block_size st + j);
}.

Section spec.
Context {K : Type} `{KernelEnvLaws K}.

Definition same_live (k k' : K) : Prop := ∀ q, k_live k' q = k_live k q.

(** A block number, or 0 for want of memory; the heap is as it was. *)
Definition gives_block (k : K) (b : Z) (r : Res (K * Z)) : Prop :=
  ensures r (λ '(k', x), same_live k k' ∧ (x = b ∨ (x = 0 ∧ can_fail (K := K)))).

Lemma block_size_pos st : geometry st → 0 < block_size st.
Proof. intros [[->|[->| ->]] _ _]; done. Qed.

Lemma read_block_spec st b : geometry st → read_block st b = Ok (block_of st b).
Proof.
  intros [Hs Hsec Hr]. unfold read_block, read_into, block_of. destruct (e_read st _ _) as [d|] eqn:E; [|done].
  apply Hr in E as [Hl _]. rewrite Hsec in Hl. rewrite (proj2 (Z.ltb_ge _ _)); [done|].
  rewrite Hl. destruct Hs as [->|[->| ->]]; done.
Qed.

Lemma block_length st b d : geometry st → block_of st b = Some d → zlen d = block_size st ∧ Forall is_u8 d.
Proof.
  intros [Hs Hsec Hr] E. destruct (Hr _ _ _ E) as [Hl Hb]. split; [|done]. rewrite Hl, Hsec.
  destruct Hs as [->|[->| ->]]; done.
Qed.

Lemma indirect_spec st b i (k : K) :
  geometry st → 0 ≤ i < ptrs st → gives_block k (ptr_at st b i) (indirect st b i k).
Proof using H0.
  intros Hg Hi. unfold indirect, gives_block, ptr_at. destruct (Z.eqb_spec b 0) as [->|Hb]; [simpl; split; [done|by left]|].
  destruct (kmalloc_cases (block_size st) k) as [->|[[k1 E1]|(k1 & p & E1 & P1 & V1)]]; [done|..]; rewrite E1; res_step.
  { simpl. split; [intros q; by apply (kmalloc_null_live _ _ _ _ E1)|]. right. split; [done|eapply null_can_fail, E1; pose proof (block_size_pos st Hg); lia]. }
  rewrite (proj2 (Z.eqb_neq p 0)), read_block_spec by done. res_step.
  destruct (kmalloc_kfree _ _ _ _ E1 P1) as (_ & _ & Hfree). destruct (Hfree k1 ltac:(done)) as (k2 & E2 & L2).
  destruct (block_of st b) as [d|] eqn:Ed.
  - destruct (block_length st b d Hg Ed) as [Hl _]. unfold ptrs in Hi.
    destruct (field_is_Some d (4 * i) 4) as [v ->]; [lia|lia|rewrite Hl; Z.div_mod_to_equations; lia|].
    res_step. rewrite E2. simpl. split; [done|by left].
  - res_step. rewrite E2. simpl. split; [done|by left].
Qed.

(** Two levels in a row: a null pointer on the way gives 0 without more reads. *)
Lemma indirect_then st b x i (k k' : K) :
  geometry st → 0 ≤ i < ptrs st → same_live k k' → (x = b ∨ (x = 0 ∧ can_fail (K := K))) →
  gives_block k (ptr_at st b i) (indirect st x i k').
Proof using H0.
  intros Hg Hi Hl Hx. assert (gives_block k' (ptr_at st x i) (indirect st x i k')) as Hb by by apply indirect_spec.
  eapply ensures_mono; [exact Hb|]. intros [k2 y] [L2 Hy]. split; [intros q; by rewrite L2|].
  destruct Hx as [->|[-> Hf]]; [done|]. right. destruct Hy as [->|[-> _]]; [done|done].
Qed.

Lemma geometry_ptrs st : geometry st → ptrs st = 256 ∨ ptrs st = 512 ∨ ptrs st = 1024.
Proof. intros [Hs _ _]. unfold ptrs. destruct Hs as [->|[->| ->]]; [left|right; left|right; right]; done. Qed.

Lemma pointer_ok di i : inode_ok di → 0 ≤ i < 15 → i_block di i = Ok (pointer di i).
Proof.
  intros [Hl _] Hi. unfold i_block, pointer. unfold SIZEOF_EXT2INODE in Hl.
  destruct (field_is_Some di (40 + 4 * i) 4) as [v ->]; [lia..|done].
Qed.

Lemma follow_1 st b n : follow st 1 b n = ptr_at st b n.
Proof. cbn [follow]. change (ptrs st ^ Z.of_nat 0) with 1. by rewrite Z.div_1_r. Qed.

Lemma follow_2 st b n : follow st 2 b n = ptr_at st (ptr_at st b (n / ptrs st)) (n `mod` ptrs st).
Proof.
  change (follow st 2 b n) with (follow st 1 (ptr_at st b (n / ptrs st ^ 1)) (n `mod` ptrs st ^ 1)).
  by rewrite follow_1, Z.pow_1_r.
Qed.

Lemma follow_3 st b n :
  follow st 3 b n = ptr_at st (ptr_at st (ptr_at st b (n / ptrs st ^ 2)) (n `mod` ptrs st ^ 2 / ptrs st)) (n `mod` ptrs st ^ 2 `mod` ptrs st).
Proof.
  change (follow st 3 b n) with (follow st 2 (ptr_at st b (n / ptrs st ^ 2)) (n `mod` ptrs st ^ 2)). by rewrite follow_2.
Qed.

Lemma div32_ok x y : y ≠ 0 → div32 x y = Ok (x / y).
Proof. intros Hy. unfold div32. by rewrite (proj2 (Z.eqb_neq y 0)). Qed.

Lemma mod32_ok x y : y ≠ 0 → mod32 x y = Ok (x `mod` y).
Proof. intros Hy. unfold mod32. by rewrite (proj2 (Z.eqb_neq y 0)). Qed.

Lemma resolve_block_spec st di n (k : K) :
  geometry st → inode_ok di → is_u32 n → gives_block k (block_map st di n) (resolve_block st di n k).
Proof using H0.
  intros Hg Hdi Hn. unfold resolve_block, block_map. fold (ptrs st). pose proof (geometry_ptrs st Hg) as Hp.
  set (p := ptrs st) in *. assert (0 < p ∧ p ^ 2 = p * p ∧ p ^ 3 = p * p * p ∧ p * p < 2 ^ 32 ∧ p * p * p < 2 ^ 32) as (Hp0 & P2 & P3 & B2 & B3).
  { destruct Hp as [->|[->| ->]]; lia. }
  rewrite P2, P3, (u32_small (p * p)), (u32_small (p * p * p)) by (unfold is_u32; nia).
  destruct (Z.ltb_spec n 12) as [H12|H12].
  { rewrite pointer_ok by (done || unfold is_u32 in Hn; lia). res_step. simpl. split; [done|by left]. }
  destruct (Z.ltb_spec (n - 12) p) as [H1|H1].
  { rewrite pointer_ok by (done || lia). res_step. rewrite follow_1. apply indirect_spec; [done|unfold p in *; lia]. }
  destruct (Z.ltb_spec (n - 12 - p) (p * p)) as [H2|H2].
  { rewrite pointer_ok by (done || lia). res_step. rewrite div32_ok, mod32_ok, follow_2 by lia. res_step. fold p.
    set (m := n - 12 - p) in *. eapply ensures_bind.
    - apply (indirect_spec st _ (m / p) k Hg). fold p. split; [apply Z.div_pos; lia|apply Z.div_lt_upper_bound; lia].
    - intros [k1 x] [L1 Hx]. res_step. apply indirect_then; [done| |done|done]. apply Z.mod_pos_bound. lia. }
  unfold is_u32 in Hn. rewrite (u32_small (n - 12 - p - p * p)) by (unfold is_u32; lia).
  destruct (Z.ltb_spec (n - 12 - p - p * p) (p * p * p)) as [H3|H3]; [|simpl; split; [done|by left]].
  rewrite pointer_ok by (done || lia). res_step. rewrite div32_ok, mod32_ok, follow_3 by lia. res_step. fold p. rewrite P2.
  set (m := n - 12 - p - p * p) in *. pose proof (Z.mod_pos_bound m (p * p) ltac:(lia)) as Hm.
  eapply ensures_bind.
  { apply (indirect_spec st _ (m / (p * p)) k Hg). fold p. split; [apply Z.div_pos; lia|apply Z.div_lt_upper_bound; lia]. }
  intros [k1 x] [L1 Hx]. res_step. rewrite div32_ok, mod32_ok by lia. res_step. eapply ensures_bind.
  { apply (indirect_then st (ptr_at st (pointer di 14) (m / (p * p))) x (m `mod` (p * p) / p) k k1 Hg); [|done|exact Hx].
    fold p. split; [apply Z.div_pos; lia|apply Z.div_lt_upper_bound; lia]. }
  intros [k2 y] [L2 Hy]. res_step. apply indirect_then; [done| |done|done]. apply Z.mod_pos_bound. fold p. lia.
Qed.

(** ** Reading *)

Lemma file_block st di data n (k : K) :
  geometry st → inode_ok di → file_holds st di data → 0 ≤ n → n * block_size st < zlen data → zlen data < 2 ^ 32 →
  gives_block k (block_map st di n) (resolve_block st di n k).
Proof using H0.
  intros Hg Hdi Hf Hn Hb Hl. apply resolve_block_spec; [done..|].
  destruct Hg as [[Hs|[Hs|Hs]] _ _]; rewrite Hs in Hb; unfold is_u32; lia.
Qed.

(** A piece of a file inside one block. *)
Lemma file_piece st di data n d off m :
  geometry st → file_holds st di data → block_of st (block_map st di n) = Some d →
  0 ≤ n → 0 ≤ off → 0 ≤ m → off + m ≤ block_size st → n * block_size st + off + m ≤ zlen data →
  n * block_size st < zlen data →
  slice d off m = Some (take (Z.to_nat m) (drop (Z.to_nat (n * block_size st + off)) data)).
Proof.
  intros Hg Hf Hd Hn Ho Hm Hb Hl Hlt. destruct (block_length st _ d Hg Hd) as [Hlen _].
  destruct (fh_block _ _ _ Hf n Hn Hlt) as (_ & d' & Hd' & Hj). assert (d' = d) as -> by congruence.
  unfold slice. rewrite (proj2 (Z.ltb_ge off 0)), (proj2 (Z.ltb_ge m 0)), (proj2 (Z.ltb_ge (zlen d) _)) by lia. cbn [orb]. f_equal.
  assert (0 < block_size st) by (destruct (g_size _ Hg) as [->|[->| ->]]; lia).
  apply list_eq. intros i. destruct (decide (i < Z.to_nat m)%nat) as [Hi|Hi].
  - rewrite !lookup_take_lt, !lookup_drop by done. specialize (Hj (off + Z.of_nat i) ltac:(lia) ltac:(lia)).
    unfold zget in Hj. rewrite !(proj2 (Z.ltb_ge _ 0)) in Hj by lia.
    replace (Z.to_nat off + i)%nat with (Z.to_nat (off + Z.of_nat i)) by lia. rewrite Hj. f_equal. lia.
  - rewrite !lookup_take_ge by lia. done.
Qed.

(** What a read of [count] bytes at [off] may give: all of them, or for want of
    memory only some of the first ones. *)
Definition wanted (data : list Z) (off count : Z) : list Z := take (Z.to_nat count) (drop (Z.to_nat off) data).

Lemma wanted_snoc data off n m :
  0 ≤ off → 0 ≤ n → 0 ≤ m → wanted data off n ++ wanted data (off + n) m = wanted data off (n + m).
Proof.
  intros. unfold wanted. rewrite (Z2Nat.inj_add off n), <-drop_drop, Z2Nat.inj_add by lia. apply take_take_drop.
Qed.

Lemma wanted_length data off n : 0 ≤ off → 0 ≤ n → off + n ≤ zlen data → zlen (wanted data off n) = n.
Proof. intros. unfold wanted, zlen in *. rewrite length_take, length_drop. lia. Qed.

Lemma ext2_read_loop_spec st di data off count m fuel (k : K) :
  geometry st → inode_ok di → file_holds st di data → zlen data < 2 ^ 32 →
  0 ≤ off → 0 ≤ m ≤ count → off + count ≤ zlen data → (Z.to_nat (count - m) < fuel)%nat →
  ensures (read_loop fuel st di off count (wanted data off m) k) (λ '(k', out), same_live k k' ∧
    (out = wanted data off count ∨ can_fail (K := K) ∧ out `prefix_of` wanted data off count)).
Proof using H0.
  intros Hg Hdi Hf Hl Ho Hm Hc Hfu. revert m k Hm Hfu. induction fuel as [|fuel IH]; intros m k Hm Hfu; [lia|].
  cbn [read_loop]. rewrite wanted_length by lia.
  destruct (Z.ltb_spec m count) as [Hlt|Hge]; cbn [negb].
  2: { assert (m = count) as -> by lia. simpl. split; [done|by left]. }
  assert (0 < block_size st ≤ 4096) as Hbs by (destruct (g_size _ Hg) as [->|[->| ->]]; lia).
  rewrite (u64_small (off + m)) by (unfold is_u64; lia). rewrite div32_ok, mod32_ok by lia. res_step.
  set (n := (off + m) / block_size st). set (o := (off + m) `mod` block_size st).
  assert (n * block_size st + o = off + m) as Hno by (unfold n, o; rewrite (Z.div_mod (off + m) (block_size st)) at 3 by lia; lia).
  assert (0 ≤ o < block_size st) as Hob by (apply Z.mod_pos_bound; lia).
  assert (0 ≤ n ≤ off + m) as Hnb by (unfold n; split; [apply Z.div_pos; lia|apply Z.div_le_upper_bound; nia]).
  rewrite (u32_small n), (u32_small (count - m)) by (unfold is_u32; lia).
  set (c := if block_size st - o <? count - m then block_size st - o else count - m).
  assert (0 < c ∧ o + c ≤ block_size st ∧ m + c ≤ count) as (C1 & C2 & C3) by (unfold c; case_cmp; lia).
  eapply ensures_bind; [apply (file_block st di data n k); [done..|lia|lia|done]|].
  intros [k1 x] [L1 Hx]. destruct (fh_block _ _ _ Hf n ltac:(lia) ltac:(lia)) as (Hne & d & Hd & _).
  destruct Hx as [->|[-> Hfail]].
  2: { simpl. split; [done|]. right. split; [done|]. exists (wanted data (off + m) (count - m)).
       rewrite wanted_snoc by lia. f_equal. lia. }
  rewrite (proj2 (Z.eqb_neq (block_map st di n) 0)), read_block_spec, Hd by done. res_step.
  rewrite (file_piece st di data n d o c) by (done || lia). res_step.
  rewrite Hno. fold (wanted data (off + m) c). rewrite wanted_snoc by lia.
  eapply ensures_mono; [apply IH; lia|]. intros [k2 out] [L2 Hout]. split; [intros q; by rewrite L2|done].
Qed.

Lemma ext2_read_spec st inode data off count (k : K) :
  let di := disk (private_data inode) in
  geometry st → inode_ok di → file_holds st di data → 0 ≤ off → 0 ≤ count → off + count < 2 ^ 64 →
  ensures (ext2_read st inode off count k) (λ '(k', (n, out)), same_live k k' ∧
    (n = zlen out ∧ out = wanted data off count ∨
     can_fail (K := K) ∧ (n = -1 ∧ out = [] ∨ n = zlen out ∧ out `prefix_of` wanted data off count))).
Proof using H0.
  intros di Hg Hdi Hf Ho Hc Hw. unfold ext2_read. fold di. unfold i_size. rewrite (fh_size _ _ _ Hf). res_step.
  assert (zlen data < 2 ^ 32) as Hl.
  { destruct Hdi as [_ Hb]. exact (proj2 (field_bound di 4 4 (zlen data) Hb (fh_size _ _ _ Hf))). }
  destruct (Z.leb_spec (zlen data) off) as [Hle|Hgt].
  { simpl. split; [done|]. left. split; [done|]. unfold wanted. rewrite drop_ge by (unfold zlen in Hle; lia). by rewrite take_nil. }
  rewrite u64_small by (unfold is_u64; lia).
  set (c := if zlen data <? off + count then zlen data - off else count).
  assert (0 ≤ c ∧ off + c ≤ zlen data) as (C1 & C2) by (unfold c; case_cmp; lia).
  assert (wanted data off count = wanted data off c) as ->.
  { unfold wanted, c. case_cmp; [|done]. rewrite !take_ge; [done|..]; rewrite length_drop; unfold zlen in *; lia. }
  destruct (kmalloc_cases (block_size st) k) as [->|[[k1 E1]|(k1 & p & E1 & P1 & V1)]]; [done|..]; rewrite E1; res_step.
  { simpl. split; [intros q; by apply (kmalloc_null_live _ _ _ _ E1)|]. right. split; [eapply null_can_fail, E1; pose proof (block_size_pos st Hg); lia|by left]. }
  rewrite (proj2 (Z.eqb_neq p 0)) by done. destruct (kmalloc_kfree _ _ _ _ E1 P1) as (_ & _ & Hfree).
  change ([] : list Z) with (wanted data off 0).
  eapply ensures_bind; [apply (ext2_read_loop_spec st di data off c 0); done || lia|].
  intros [k2 out] [L2 Hout]. destruct (Hfree k2 L2) as (k3 & -> & L3). res_step. simpl. split; [done|].
  assert (zlen out < 2 ^ 32) as Hol.
  { assert (zlen out ≤ c); [|lia]. pose proof (wanted_length data off c Ho C1 C2) as Hwl.
    destruct Hout as [->|[_ [r Hr]]]; [lia|]. rewrite Hr in Hwl. unfold zlen in *. rewrite length_app in Hwl. lia. }
  assert (i64_of (zlen out) = zlen out) as ->.
  { unfold i64_of. rewrite u64_small by (unfold is_u64, zlen in *; lia). by rewrite (proj2 (Z.ltb_lt _ _)) by lia. }
  destruct Hout as [->|[Hf' Hpre]]; [by left|right]. split; [done|by right].
Qed.

End spec.

(** ** The properties *)

(** C25. On a volume of 1, 2 or 4 KiB blocks, [resolve_block] gives for every 32-bit
    block index the block the file's tree of pointers holds there (a direct
    pointer, or one, two or three levels down), 0 for a hole, an unreadable pointer
    block or an index past the tree, and 0 when memory runs out; every buffer it
    takes is given back. *)
Theorem resolve_block_walks_tree {K} `{KernelEnvLaws K} st di n (k : K) :
  geometry st → inode_ok di → is_u32 n →
  ensures (resolve_block st di n k) (λ '(k', b), (∀ q, k_live k' q = k_live k q) ∧
    (b = block_map st di n ∨ (b = 0 ∧ can_fail (K := K)))).
Proof. intros Hg Hdi Hn. exact (resolve_block_spec st di n k Hg Hdi Hn). Qed.

(** C26. Reading [count] bytes at [off] of a file whose blocks are all there gives
    exactly those bytes of the file, cut at its end, whatever blocks they span;
    when memory runs out it gives -1 or the first of them.  Every buffer is given
    back. *)
Theorem ext2_read_contents {K} `{KernelEnvLaws K} st inode data off count (k : K) :
  geometry st → inode_ok (disk (private_data inode)) → file_holds st (disk (private_data inode)) data →
  0 ≤ off → 0 ≤ count → off + count < 2 ^ 64 →
  ensures (ext2_read st inode off count k) (λ '(k', (n, out)), (∀ q, k_live k' q = k_live k q) ∧
    (n = zlen out ∧ out = take (Z.to_nat count) (drop (Z.to_nat off) data) ∨
     can_fail (K := K) ∧ (n = -1 ∧ out = [] ∨
       n = zlen out ∧ out `prefix_of` take (Z.to_nat count) (drop (Z.to_nat off) data)))).
Proof. intros Hg Hdi Hf Ho Hc Hw. exact (ext2_read_spec st inode data off count k Hg Hdi Hf Ho Hc Hw). Qed.

(** A file of twelve direct blocks and five bytes behind the indirect block. *)
Definition letters : list Z := replicate 1024 65.
Definition tail_block : list Z := replicate 1024 66.
Definition pointer_block : list Z := le_bytes 4 7 ++ replicate 1020 0.

Definition sample_read : ReadBlock := λ lba n,
  if negb (n =? 2) then None
  else if lba =? 12 then Some letters else if lba =? 14 then Some tail_block
  else if lba =? 10 then Some pointer_block else None.

Definition sample_volume : Ext2State := MkExt2 sample_read 1024 2 8 128 1 8192 1 (replicate 32 0).

Definition sample_inode : list Z :=
  le_bytes 4 0 ++ le_bytes 4 12293 ++ replicate 32 0 ++ concat (replicate 12 (le_bytes 4 6)) ++ le_bytes 4 5 ++ replicate 36 0.

Definition sample_data : list Z := replicate (Z.to_nat 12288) 65 ++ replicate 5 66.

Lemma sample_geometry : geometry sample_volume.
Proof.
  split; [by left|done|]. intros lba n d. cbn [sample_volume e_read]. unfold sample_read.
  destruct (Z.eqb_spec n 2) as [->|]; cbn [negb]; [|done].
  repeat case_match; intros [= <-]; (split; [vm_compute; reflexivity|]);
    [apply Forall_replicate; word|apply Forall_replicate; word|].
  apply Forall_app. split; [apply le_bytes_range|apply Forall_replicate; word].
Qed.

Lemma sample_inode_ok : inode_ok sample_inode.
Proof.
  split; [vm_compute; reflexivity|]. apply Forall_fold_right. vm_compute.
  repeat (split; [split; [discriminate|reflexivity]|]). exact I.
Qed.

Lemma zget_replicate n (x : Z) j : 0 ≤ j < Z.of_nat n → zget (replicate n x) j = Some x.
Proof. intros Hj. apply zget_Some. split; [lia|]. apply lookup_replicate. split; [done|lia]. Qed.

Lemma sample_block_map n : 0 ≤ n ≤ 12 → block_map sample_volume sample_inode n = if n =? 12 then 7 else 6.
Proof.
  intros Hn. assert (n ∈ seqZ 0 13) as Hin by (apply elem_of_seqZ; lia).
  change (seqZ 0 13) with [0; 1; 2; 3; 4; 5; 6; 7; 8; 9; 10; 11; 12] in Hin.
  repeat (apply elem_of_cons in Hin as [->|Hin]; [vm_compute; reflexivity|]). by apply not_elem_of_nil in Hin.
Qed.

Lemma sample_data_length : zlen sample_data = 12293.
Proof. unfold sample_data, zlen. rewrite length_app, !length_replicate. lia. Qed.

Lemma sample_file : file_holds sample_volume sample_inode sample_data.
Proof.
  split; [rewrite sample_data_length; vm_compute; reflexivity|]. intros n Hn. rewrite sample_data_length.
  change (block_size sample_volume) with 1024. intros Hlt. rewrite sample_block_map by lia.
  destruct (Z.eqb_spec n 12) as [->|Hne]; (split; [done|]).
  - exists tail_block. split; [reflexivity|]. intros j Hj Hl. unfold tail_block. rewrite zget_replicate by lia.
    symmetry. apply zget_Some. split; [lia|]. unfold sample_data. rewrite lookup_app_r by (rewrite length_replicate; lia).
    rewrite length_replicate. apply lookup_replicate. split; [done|lia].
  - exists letters. split; [reflexivity|]. intros j Hj Hl. unfold letters. rewrite zget_replicate by lia.
    symmetry. apply zget_Some. split; [lia|]. unfold sample_data. rewrite lookup_app_l by (rewrite length_replicate; lia).
    apply lookup_replicate. split; [done|lia].
Qed.


Lemma resolve_block_walks_tree_witness :
  block_map sample_volume sample_inode 12 = 7 ∧
  ensures (resolve_block sample_volume sample_inode 12 (MkBump 0x1000 [])) (λ '(k', b),
    (∀ q, k_live k' q = k_live (MkBump 0x1000 []) q) ∧
    (b = block_map sample_volume sample_inode 12 ∨ (b = 0 ∧ can_fail (K := Bump)))).
Proof.
  split; [by rewrite sample_block_map by lia|].
  apply resolve_block_walks_tree; [apply sample_geometry|apply sample_inode_ok|split; lia].
Defined.

(** Eight bytes across the end of the direct blocks. *)
Lemma ext2_read_contents_witness :
  ensures (ext2_read sample_volume (MkInode 3 12293 false (MkRef 3 sample_inode)) 12285 100 (MkBump 0x1000 [])) (λ '(k', (n, out)),
    (∀ q, k_live k' q = k_live (MkBump 0x1000 []) q) ∧
    (n = zlen out ∧ out = take (Z.to_nat 100) (drop (Z.to_nat 12285) sample_data) ∨
     can_fail (K := Bump) ∧ (n = -1 ∧ out = [] ∨
       n = zlen out ∧ out `prefix_of` take (Z.to_nat 100) (drop (Z.to_nat 12285) sample_data)))).
Proof.
  apply ext2_read_contents; [apply sample_geometry|apply sample_inode_ok|apply sample_file|lia..].
Defined.
