(* ===== verification/VfsInit.v ===== *)
(** * Finding the root file system ([vfs::mount], [vfs::init])

    The partitions of a disk are tried in order, then the whole disk as one
    file system. *)

From S2P Require Import Prelude Task Fs Partition Ext2 Vfs.

Section init.
Context {K : Type} `{KernelEnv K}.

(** The static context [s_part_ctx] is set before every mount and not changed
    after the one that succeeds, so the mounted file system keeps reading through
    the value it was mounted with. *)
Definition vfs_mount (read_block : ReadBlock) (part_lba : Z) (k : K) : Res (K * option (SuperBlock K Ext2InodeRef)) :=
  let ctx := MkCtx read_block part_lba in
  '(k, r) ← Ext2.mount (λ lba count, read_partition lba count ctx) k;
  Ok (k, match r with Some (_, sb) => Some sb | None => None end).

(** [for (int i = 0; i < n; ++i)]. *)
Fixpoint try_partitions (raw_read : ReadBlock) (parts : list Partition) (k : K)
    : Res (K * option (SuperBlock K Ext2InodeRef)) :=
  match parts with
  | [] => Ok (k, None)
  | p :: parts =>
      if negb (valid p) then try_partitions raw_read parts k else
      '(k, sb) ← vfs_mount raw_read (start_lba p) k;
      match sb with
      | Some sb => Ok (k, Some sb)
      | None => try_partitions raw_read parts k
      end
  end.

Definition vfs_init (raw_read : ReadBlock) (v : Vfs K Ext2InodeRef) : Res (Vfs K Ext2InodeRef) :=
  parts ← scan raw_read 16;
  '(k, sb) ← try_partitions raw_read parts (kern v);
  match sb with
  | Some sb => Ok (MkVfs k (Some sb) (s_mounts v) (files v))
  | None =>
      '(k, sb) ← vfs_mount raw_read 0 k;
      match sb with
      | Some sb => Ok (MkVfs k (Some sb) (s_mounts v) (files v))
      | None => Ok (with_kern k v)
      end
  end.

End init.
