(* ===== verification/Elf.v ===== *)
(** * The ELF loader ([task/elf.cpp])

    The file is the buffer [read_whole_file] gives; headers are read at their byte
    offsets.  A page is filled through the physmap, that is by writing the memory
    of the frame just allocated. *)

From S2P Require Import Prelude Mem Frames Vmm Task Fs Vfs.

(** [Elf64_Ehdr] and [Elf64_Phdr]. *)
Definition SIZEOF_EHDR : Z := 64.
Definition SIZEOF_PHDR : Z := 56.
Definition e_type (d : list Z) : Res Z := or_fault (field d 16 2).
Definition e_machine (d : list Z) : Res Z := or_fault (field d 18 2).
Definition e_entry (d : list Z) : Res Z := or_fault (field d 24 8).
Definition e_phoff (d : list Z) : Res Z := or_fault (field d 32 8).
Definition e_phentsize (d : list Z) : Res Z := or_fault (field d 54 2).
Definition e_phnum (d : list Z) : Res Z := or_fault (field d 56 2).

Record Phdr := MkPhdr {
  ph_type : Z; ph_flags : Z; ph_offset : Z; ph_vaddr : Z; ph_filesz : Z; ph_memsz : Z;
}.

Definition read_phdr (d : list Z) (off : Z) : Res Phdr :=
  ty ← or_fault (field d off 4);
  fl ← or_fault (field d (off + 4) 4);
  o ← or_fault (field d (off + 8) 8);
  v ← or_fault (field d (off + 16) 8);
  fs ← or_fault (field d (off + 32) 8);
  ms ← or_fault (field d (off + 40) 8);
  Ok (MkPhdr ty fl o v fs ms).

Definition ELFMAG : list Z := [0x7F; 69; 76; 70].
Definition EI_CLASS : Z := 4.
Definition EI_DATA : Z := 5.
Definition ELFCLASS64 : Z := 2.
Definition ELFDATA2LSB : Z := 1.
Definition ET_EXEC : Z := 2.
Definition EM_X86_64 : Z := 62.
Definition PT_LOAD : Z := 1.
Definition PF_X : Z := 1.
Definition PF_W : Z := 2.

Record LoadResult := MkLoadResult {
  entry : Z; phdr_vaddr : Z; phnum : Z; phentsize : Z; highest_addr : Z;
}.

(** The page flags of a segment. *)
Definition seg_flags (p_flags : Z) : Z :=
  let flags := Z.lor PRESENT USER in
  let flags := if negb (Z.land p_flags PF_W =? 0) then Z.lor flags WRITABLE else flags in
  if Z.land p_flags PF_X =? 0 then Z.lor flags NO_EXECUTE else flags.

Section elf.
Context {A : Type} `{FrameAlloc A}.

(** One turn of the page loop: a fresh frame, mapped, zeroed and filled. *)
Definition load_page (file_data : list Z) (ph : Phdr) (flags va : Z) (s : Vmm A) : Res (Vmm A) :=
  let seg_start := ph_vaddr ph in
  let seg_file_end := u64 (ph_vaddr ph + ph_filesz ph) in
  '(s, phys) ← alloc s;
  s ← Vmm.map va phys flags s;
  let s := with_pm (fill (pm s) phys PAGE_SIZE 0) s in
  let page_end := u64 (va + PAGE_SIZE) in
  let copy_start := if va <? seg_start then seg_start else va in
  let copy_end := if seg_file_end <? page_end then seg_file_end else page_end in
  if copy_start <? copy_end then
    let file_off := u64 (ph_offset ph + (copy_start - seg_start)) in
    bytes ← or_fault (slice file_data file_off (copy_end - copy_start));
    Ok (with_pm (store_bytes (pm s) (phys + (copy_start - va)) bytes) s)
  else Ok s.

Fixpoint load_pages (n : nat) (file_data : list Z) (ph : Phdr) (flags va : Z) (s : Vmm A) : Res (Vmm A) :=
  match n with
  | O => Ok s
  | S n => s ← load_page file_data ph flags va s; load_pages n file_data ph flags (va + PAGE_SIZE) s
  end.

(** The turns of [for (; va < va_end; va += PAGE_SIZE)]; both ends are multiples of
    the page size and [va_end] is below 2^64, so [va] does not wrap. *)
Definition pages_between (va va_end : Z) : nat := Z.to_nat ((va_end - va) / PAGE_SIZE).

Definition load_segment (file_data : list Z) (file_size : Z) (ph : Phdr) (s : Vmm A) : Res (Vmm A * bool) :=
  if ph_memsz ph <? ph_filesz ph then Ok (s, false) else
  if (file_size <? ph_offset ph) || (file_size - ph_offset ph <? ph_filesz ph) then Ok (s, false) else
  let flags := seg_flags (ph_flags ph) in
  let va := page_down (ph_vaddr ph) in
  let va_end := page_up (u64 (ph_vaddr ph + ph_memsz ph)) in
  s ← load_pages (pages_between va va_end) file_data ph flags va s;
  Ok (s, true).

(** The loop over the program headers: the state, and the address of the headers
    and the highest address so far unless a segment failed. *)
Fixpoint load_phdrs (n : nat) (data : list Z) (size e_phoff e_phentsize i phdr_vaddr highest_addr : Z) (s : Vmm A)
    : Res (Vmm A * option (Z * Z)) :=
  match n with
  | O => Ok (s, Some (phdr_vaddr, highest_addr))
  | S n =>
      ph ← read_phdr data (e_phoff + i * e_phentsize);
      if negb (ph_type ph =? PT_LOAD) then load_phdrs n data size e_phoff e_phentsize (i + 1) phdr_vaddr highest_addr s else
      '(s, ok) ← load_segment data size ph s;
      if negb ok then Ok (s, None) else
      let phdr_vaddr := if (ph_offset ph <=? e_phoff) && (e_phoff - ph_offset ph <? ph_filesz ph)
                        then u64 (ph_vaddr ph + (e_phoff - ph_offset ph)) else phdr_vaddr in
      let seg_end := page_up (u64 (ph_vaddr ph + ph_memsz ph)) in
      let highest_addr := if highest_addr <? seg_end then seg_end else highest_addr in
      load_phdrs n data size e_phoff e_phentsize (i + 1) phdr_vaddr highest_addr s
  end.

Definition parse_and_load (data : list Z) (size : Z) (s : Vmm A) : Res (Vmm A * option LoadResult) :=
  if size <? SIZEOF_EHDR then Ok (s, None) else
  magic ← or_fault (slice data 0 4);
  if negb (bool_decide (magic = ELFMAG)) then Ok (s, None) else
  class ← or_fault (zget data EI_CLASS);
  enc ← or_fault (zget data EI_DATA);
  if negb (class =? ELFCLASS64) || negb (enc =? ELFDATA2LSB) then Ok (s, None) else
  ty ← e_type data;
  if negb (ty =? ET_EXEC) then Ok (s, None) else
  mach ← e_machine data;
  if negb (mach =? EM_X86_64) then Ok (s, None) else
  phoff ← e_phoff data;
  phnum ← e_phnum data;
  if (phoff =? 0) || (phnum =? 0) then Ok (s, None) else
  phentsize ← e_phentsize data;
  let phdrs_bytes := phnum * phentsize in
  if (phentsize <? SIZEOF_PHDR) || (size <? phoff) || (size - phoff <? phdrs_bytes) then Ok (s, None) else
  '(s, r) ← load_phdrs (Z.to_nat phnum) data size phoff phentsize 0 0 0 s;
  match r with
  | None => Ok (s, None)
  | Some (phdr_vaddr, highest_addr) =>
      entry ← e_entry data;
      Ok (s, Some (MkLoadResult entry phdr_vaddr phnum phentsize highest_addr))
  end.

Context {K P : Type} `{KernelEnv K}.

(** [elf::load]: open, read, load. *)
Definition load (dir_fuel : nat) (stale : list Z) (fresh : Z → list Z) (path : list Z) (v : Vfs K P) (s : Vmm A)
    : Res (Vfs K P * Vmm A * option LoadResult) :=
  '(v, file) ← open dir_fuel stale path v;
  if file =? 0 then Ok (v, s, None) else
  '(v, data) ← read_whole_file fresh file v;
  k ← kfree file (kern v);
  let v := with_files (delete file (files v)) (with_kern k v) in
  match data with
  | None => Ok (v, s, None)
  | Some (p, bytes) =>
      '(s, r) ← parse_and_load bytes (zlen bytes - 1) s;
      k ← kfree p (kern v);
      Ok (with_kern k v, s, r)
  end.

End elf.
