(* ===== verification/UserPages.v ===== *)
(** * Filling user pages

    What loading a program needs of the page tables: which frames hold data rather
    than tables, what an operation may do to them, and the effect of mapping a
    fresh frame and writing into it. *)

From S2P Require Import Prelude Mem Frames Vmm PageTable.

Section pages.
Context {A : Type} `{FrameAllocLaws A}.
Implicit Types (s : Vmm A).

(** Frame [f] is in use and is none of the tables. *)
Definition data_frame (P : Z → Prop) (root : Z) s (f : Z) : Prop :=
  fa_used (fa s) f = true ∧
  ∀ q t, ok_path P q → (length q ≤ 3)%nat → table_at (pm s) root q = Some t → frame_of t ≠ f.

(** [s'] comes after [s]: the tables are a tree, data stays data and keeps its
    bytes. *)
Record extends (P : Z → Prop) (root : Z) s s' : Prop := {
  x_tree : tree_ok P root s';
  x_regs : cr3 s' = cr3 s;
  x_used f : fa_used (fa s) f = true → fa_used (fa s') f = true;
  x_data f : data_frame P root s f → data_frame P root s' f;
  x_mem x : data_frame P root s (frame_of x) → pm s' x = pm s x;
}.

Lemma extends_refl P root s : tree_ok P root s → extends P root s s.
Proof. by split. Qed.

Lemma extends_trans P root s1 s2 s3 : extends P root s1 s2 → extends P root s2 s3 → extends P root s1 s3.
Proof.
  intros [T1 R1 U1 D1 M1] [T2 R2 U2 D2 M2]. split; [done|congruence|by auto..|].
  intros x Hx. rewrite M2 by auto. by apply M1.
Qed.

Lemma grows_extends P root s s' : grows P root s s' → extends P root s s'.
Proof.
  intros G. split; [apply G|apply (g_regs _ _ _ _ G)|apply (g_used _ _ _ _ G)| |].
  - intros f [Hu Hf]. split; [by apply (g_used _ _ _ _ G)|]. intros q t Hq Hl Ht.
    destruct (g_new _ _ _ _ G q t Hq Hl Ht) as [Ht'|Hn]; [by apply (Hf q)|]. intros <-. congruence.
  - intros x [Hu Hf]. by apply (g_mem _ _ _ _ G).
Qed.

Lemma alloc_extends P root s s1 phys :
  tree_ok P root s → alloc s = Ok (s1, phys) →
  extends P root s s1 ∧ data_frame P root s1 (frame_of phys) ∧ is_frame phys ∧
  fa_used (fa s) (frame_of phys) = false ∧ pm s1 = pm s.
Proof using H0.
  intros Hok E. unfold alloc in E. res_inv. destruct a as [a p]. injection E as <- <-.
  destruct (fa_alloc_fresh _ _ _ Ha) as (f & -> & Hf & Hu & Hu').
  assert (frame_of (f * PAGE_SIZE) = f) as Hfr by (unfold frame_of, PAGE_SIZE; apply Z.div_mul; lia).
  assert (∀ g, fa_used (fa s) g = true → fa_used a g = true) as Hmono by (intros g Hg; by rewrite Hu', Hg, orb_true_r).
  destruct (tree_same P root s (with_fa a s)) as (Ht & _ & _); [done|done|done|].
  rewrite Hfr. split_and!; [split|split|by exists f|done|done]; try done.
  - intros g [Hg Ht']. split; [by apply Hmono|done].
  - cbn. by rewrite Hu', Z.eqb_refl.
  - intros q t Hq Hl Ht'. destruct (ok_table _ _ _ Hok q t Hq Hl Ht') as [_ Hut]. intros Heq. congruence.
Qed.

(** Writing to a data frame leaves the tables alone. *)
Lemma write_tables P root s m f :
  tree_ok P root s → data_frame P root s f → (∀ x, frame_of x ≠ f → m x = pm s x) →
  tree_ok P root (with_pm m s) ∧ same_leaves P root s (with_pm m s) ∧
  ∀ q, ok_path P q → (length q ≤ 4)%nat → table_at m root q = table_at (pm s) root q.
Proof using H0.
  intros Hok [Hu Hf] Hm. apply tree_same; [done| |done].
  intros q i t Hq Hl Ht. destruct (ok_table _ _ _ Hok q t) as [Hft _]; [by eapply ok_path_snoc_l|done..|].
  enough (Vmm.entry m t i = Vmm.entry (pm s) t i) as E by (cbn [pm with_pm]; by rewrite E).
  apply entry_mem_ext; [done|by eapply ok_path_last|]. intros x Hx. apply Hm. rewrite Hx.
  apply (Hf q); [by eapply ok_path_snoc_l|done..].
Qed.

Lemma write_extends P root s m f :
  tree_ok P root s → data_frame P root s f → (∀ x, frame_of x ≠ f → m x = pm s x) →
  tree_ok P root (with_pm m s) ∧ (∀ g, data_frame P root s g → data_frame P root (with_pm m s) g) ∧
  same_walk P root s (with_pm m s).
Proof using H0.
  intros Hok Hd Hm. destruct (write_tables P root s m f Hok Hd Hm) as (Ht & HL & HT).
  split_and!; [done| |by apply same_leaves_walk].
  intros g [Hgu Hg]. split; [done|]. intros q t Hq Hl Hqt. apply (Hg q); [done..|]. by rewrite <-HT by (done || lia).
Qed.

(** Giving a data frame back leaves the tables alone too. *)
Lemma free_tree P root s phys :
  tree_ok P root s → data_frame P root s (phys / PAGE_SIZE) → tree_ok P root (free phys s).
Proof using All.
  intros [Ht Hi Hh] [_ Hd]. split; [|exact Hi|exact Hh]. intros q t Hq Hl E. destruct (Ht q t Hq Hl E) as [Hf Hu]. split; [done|].
  cbn [free with_fa fa]. assert (0 ≤ frame_of t < NUM_FRAMES) as Hb.
  { destruct Hf as (f & -> & Hf). unfold frame_of, PAGE_SIZE. by rewrite Z.div_mul by lia. }
  rewrite fa_free_used by done. rewrite Hu, andb_true_r. apply negb_true_iff, Z.eqb_neq. intros E'. by apply (Hd q t Hq Hl).
Qed.


End pages.

(** ** Addresses and pages *)

Lemma frame_of_offset phys j : is_frame phys → 0 ≤ j < PAGE_SIZE → frame_of (phys + j) = frame_of phys.
Proof.
  intros (f & -> & _) Hj. unfold frame_of, PAGE_SIZE in *. rewrite Z.div_mul by lia.
  symmetry. apply (Z.div_unique _ _ _ j); lia.
Qed.

Lemma frame_of_page phys x : is_frame phys → frame_of x = frame_of phys → ∃ j, x = phys + j ∧ 0 ≤ j < PAGE_SIZE.
Proof.
  intros (f & -> & _) Hx. unfold frame_of, PAGE_SIZE in *. rewrite Z.div_mul in Hx by lia.
  exists (x - f * 4096). Z.div_mod_to_equations. lia.
Qed.

(** A memory given by its 64-bit words. *)
Definition word_mem (w : Z → Z) : mem := λ x, byte_of (w (x / 8 * 8)) (x `mod` 8).

Lemma entry_word_mem w t i : (∀ a, 0 ≤ w a < 2 ^ 64) → t `mod` 8 = 0 → entry (word_mem w) t i = w (t + 8 * i).
Proof.
  intros Hw Ht. unfold entry, load64. rewrite (load_bytes_of 8 (word_mem w) _ 0 (w (t + 8 * i))).
  - change (2 ^ (8 * 0)) with 1. rewrite Z.div_1_r. apply Z.mod_small, Hw.
  - lia.
  - intros x Hx. unfold word_mem. assert (x / 8 = (t + 8 * i) / 8 ∧ (t + 8 * i) `mod` 8 = 0) as [-> Hm] by (Z.div_mod_to_equations; lia).
    f_equal; [f_equal|]; Z.div_mod_to_equations; lia.
Qed.

Lemma mem_ok_word_mem w : mem_ok (word_mem w).
Proof.
  intros x. unfold word_mem, byte_of. change 255 with (Z.ones 8). rewrite Z.land_ones by lia. apply Z.mod_pos_bound. lia.
Qed.

Lemma idx_digits v k : 0 ≤ k → Z.land (Z.shiftr v k) 0x1FF = (v / 2 ^ k) `mod` 512.
Proof. intros Hk. rewrite Z.shiftr_div_pow2 by done. exact (land_ones_mod _ 9 ltac:(lia)). Qed.

Lemma digit_step a b : a / 512 = b / 512 → a `mod` 512 = b `mod` 512 → a = b.
Proof. intros Hd Hm. rewrite (Z.div_mod a 512), (Z.div_mod b 512) by lia. congruence. Qed.

(** Two addresses below 2^48 have the same indices when they are in one page. *)
Lemma same_page v v' :
  0 ≤ v < 2 ^ 48 → 0 ≤ v' < 2 ^ 48 → idx_path v = idx_path v' ↔ v / PAGE_SIZE = v' / PAGE_SIZE.
Proof.
  intros Hv Hv'. unfold idx_path, pml4_idx, pdpt_idx, pd_idx, pt_idx, PAGE_SIZE. rewrite !idx_digits by lia.
  assert (∀ w k, 12 ≤ k → w / 2 ^ k = w / 4096 / 2 ^ (k - 12)) as Hdiv.
  { intros w k Hk. change 4096 with (2 ^ 12). rewrite Z.div_div by lia. f_equal. rewrite <-Z.pow_add_r by lia. f_equal. lia. }
  rewrite !(Hdiv _ 39), !(Hdiv _ 30), !(Hdiv _ 21) by lia. change (2 ^ 12) with 4096.
  replace (39 - 12) with (9 + 9 + 9) by lia. replace (30 - 12) with (9 + 9) by lia.
  replace (21 - 12) with 9 by lia.
  rewrite !Z.pow_add_r, <-!Z.div_div by lia. change (2 ^ 9) with 512.
  assert (0 ≤ v / 4096 < 2 ^ 36) by (split; [apply Z.div_pos; lia|apply Z.div_lt_upper_bound; lia]).
  assert (0 ≤ v' / 4096 < 2 ^ 36) by (split; [apply Z.div_pos; lia|apply Z.div_lt_upper_bound; lia]).
  set (a := v / 4096) in *. set (b := v' / 4096) in *. clearbody a b. split; [|by intros ->].
  intros [= E1 E2 E3 E4]. apply digit_step; [|done]. apply digit_step; [|done]. apply digit_step; [|done].
  rewrite !Z.mod_small in E1; [done|..]; split; try (repeat apply Z.div_pos; lia);
    repeat (apply Z.div_lt_upper_bound; [lia|]); lia.
Qed.

Lemma page_offset v : Z.land v 0xFFF = v `mod` PAGE_SIZE.
Proof. exact (land_ones_mod v 12 ltac:(lia)). Qed.

(** ** Identity mappings *)

Section identity.
Context {A : Type} `{FrameAllocLaws A}.
Context (P : Z → Prop) (HP : ∀ va, 0 ≤ va < 2 ^ 47 → P (pml4_idx va)).
Implicit Type s : Vmm A.

Lemma map_identity va flags s :
  tree_ok P (get_pml4 s) s → 0 ≤ va < 2 ^ 47 → va `mod` PAGE_SIZE = 0 → Z.land flags PHYS_MASK = 0 → Z.testbit flags 0 = true →
  ensures_frames 3 (fa s) (Vmm.map va va flags s) (λ s', extends P (get_pml4 s) s s' ∧
    ∀ v, 0 ≤ v < 2 ^ 47 → virt_to_phys v s' = if decide (v / PAGE_SIZE = va / PAGE_SIZE) then v else virt_to_phys v s).
Proof using All.
  intros Ht Hva Hal Hfl Hb. unfold Vmm.map. pose proof (map_into_costs (get_pml4 s) va va flags s) as Hc.
  destruct (map_into_total (get_pml4 s) va va flags s) as [[s' E]|E]; rewrite E in *; [|done].
  destruct (map_into_full P (get_pml4 s) va va flags s s' Ht (HP va Hva) E) as (G & W & _). cbn [ensures_frames].
  pose proof (grows_extends _ _ _ _ G) as X. split; [done|]. intros v Hv. unfold virt_to_phys, get_pml4.
  rewrite (x_regs _ _ _ _ X). change (entry_phys (cr3 s)) with (get_pml4 s). rewrite W by by apply HP.
  destruct (leaf_translation va flags v ltac:(lia) Hfl Hb) as [-> ->]. rewrite page_offset, page_down_eq.
  destruct (same_page v va) as [S1 S2]; [lia..|].
  case_decide as Hd; [rewrite decide_True by by apply S1|rewrite decide_False by (intros ?; by apply Hd, S2)]; [|done].
  apply S1 in Hd. unfold PAGE_SIZE in *. Z.div_mod_to_equations. lia.
Qed.

End identity.
