(* ===== verification/PageRights.v ===== *)
(** * What a page allows

    The rights of a small page: what its own entry and the table entries above it
    say about writing, user access and execution, that [map_into] sets exactly
    those of the page it maps, and that it keeps those of every other one. *)

From S2P Require Import Prelude Mem Frames Vmm PageTable UserPages.

Section rights.
Context {A : Type} `{FrameAllocLaws A}.
Implicit Types (s : Vmm A).

(** The page of [va] is mapped by an entry of a page table with the present, write,
    user and no-execute bits of [flags], and no table entry above it forbids writing,
    nor user access if [flags] allows it. *)
Definition rights (m : mem) (root va flags : Z) : Prop :=
  ∃ t4 t3 t2, table_at m root [pml4_idx va] = Some t4 ∧
    table_at m root [pml4_idx va; pdpt_idx va] = Some t3 ∧
    table_at m root [pml4_idx va; pdpt_idx va; pd_idx va] = Some t2 ∧
    (∀ b, b = 0 ∨ b = 1 ∨ b = 2 ∨ b = 63 → Z.testbit (entry m t2 (pt_idx va)) b = Z.testbit flags b) ∧
    (∀ b, b = 1 ∨ b = 2 → Z.testbit (link_flags flags) b = true →
      Z.testbit (entry m root (pml4_idx va)) b = true ∧ Z.testbit (entry m t4 (pdpt_idx va)) b = true ∧
      Z.testbit (entry m t3 (pd_idx va)) b = true).

(** Rights only depend on the indices. *)
Lemma rights_idx m root v va flags : idx_path v = idx_path va → rights m root va flags → rights m root v flags.
Proof using Type. intros [= E1 E2 E3 E4]. unfold rights. by rewrite E1, E2, E3, E4. Qed.

(** The tables on the way to [va] are tables of the tree. *)
Lemma idx_paths P va : P (pml4_idx va) →
  ok_path P [pml4_idx va] ∧ ok_path P ([pml4_idx va] ++ [pdpt_idx va]) ∧
  ok_path P ([pml4_idx va; pdpt_idx va] ++ [pd_idx va]) ∧ ok_path P ([pml4_idx va; pdpt_idx va; pd_idx va] ++ [pt_idx va]).
Proof using Type.
  intros Hp. pose proof (idx_path_ok P va Hp) as Hpath. unfold idx_path in Hpath. split_and!.
  - eapply ok_path_prefix; [|exact Hpath]. apply (prefix_cons _ []), prefix_nil.
  - eapply ok_path_prefix; [|exact Hpath]. apply prefix_cons, (prefix_cons _ []), prefix_nil.
  - eapply ok_path_prefix; [|exact Hpath]. do 2 apply prefix_cons. apply (prefix_cons _ []), prefix_nil.
  - exact Hpath.
Qed.

(** ** Page-table entries under the operations *)

(** The entry [i] of a page table reached by [q] is as it was. *)
Definition same_pte (P : Z → Prop) root s s' q i : Prop :=
  ∀ t, ok_path P (q ++ [i]) → length q = 3%nat → table_at (pm s) root q = Some t →
    entry (pm s') t i = entry (pm s) t i.

Lemma same_pte_trans P root s1 s2 s3 q i :
  grows P root s1 s2 → same_pte P root s1 s2 q i → same_pte P root s2 s3 q i → same_pte P root s1 s3 q i.
Proof using Type.
  intros G E1 E2 t Hq Hl Ht. rewrite <-E1 by done. apply E2; [done..|].
  apply (g_keep _ _ _ _ G); [by eapply ok_path_snoc_l|lia|done].
Qed.

Lemma set_pte P root s p t i v q j :
  tree_ok P root s → ok_path P (p ++ [i]) → (length p ≤ 3)%nat → table_at (pm s) root p = Some t →
  (q, j) ≠ (p, i) → same_pte P root s (with_pm (set_entry (pm s) t i v) s) q j.
Proof using Type.
  intros Hok Hp Hl Ht Hne tq Hq Hlq Htq.
  by apply (set_entry_tree_other P root s p t i v Hok Hp Ht q); [..|lia| |].
Qed.

Lemma shorter_ne (p q : list Z) (i j : Z) : (length p ≤ 2)%nat → length q = 3%nat → (q, j) ≠ (p, i).
Proof using Type. intros Hp Hq [= -> _]. lia. Qed.

(** A fresh table hung into the tree. *)
Lemma fresh_link_pte P root s s1 f w p t i v q j :
  tree_ok P root s → alloc s = Ok (s1, f) → ok_path P (p ++ [i]) → (length p ≤ 2)%nat →
  table_at (pm s) root p = Some t →
  let s2 := with_pm (store_words 512 0 f w (pm s1)) s1 in
  same_pte P root s (with_pm (set_entry (pm s2) t i v) s2) q j.
Proof using H0.
  intros Hok Ha Hp Hl Ht s2 tq Hq Hlq Htq.
  destruct (fresh_table P root s s1 f w Hok Ha) as (G & _ & _ & _ & _ & _ & _ & Hsame). fold s2 in G, Hsame.
  rewrite <-(Hsame q tq j Hq ltac:(lia) Htq).
  apply (set_pte P root s2 p t i v q j); [apply G|done|lia| |by apply shorter_ne|done..|].
  - apply (g_keep _ _ _ _ G); [by eapply ok_path_snoc_l|lia|done].
  - apply (g_keep _ _ _ _ G); [by eapply ok_path_snoc_l|lia|done].
Qed.

Lemma ensure_table_pte P root s p t i fl s' t' q j :
  tree_ok P root s → ok_path P (p ++ [i]) → (length p ≤ 2)%nat → table_at (pm s) root p = Some t →
  ensure_table t i fl s = Ok (s', t') → same_pte P root s s' q j.
Proof using H0.
  intros Hok Hp Hl Ht E. unfold ensure_table in E. res_inv. subst a t'.
  destruct (present (entry (pm s) t i)) eqn:Hpr; cbn [negb] in Ha; res_inv; subst.
  - intros tq Hq Hlq. apply (set_pte P root s p t i _ q j Hok Hp); [lia|done|by apply shorter_ne|done..].
  - destruct a as [s1 f]. injection Ha as <-. by apply (fresh_link_pte P root s s1 f (λ _, 0) p).
Qed.

Lemma split_pte P root s p t i s' q j :
  tree_ok P root s → ok_path P (p ++ [i]) → (length p ≤ 2)%nat → table_at (pm s) root p = Some t →
  (if present (entry (pm s) t i) && huge (entry (pm s) t i) then split_huge_page t i s else Ok s) = Ok s' →
  same_pte P root s s' q j.
Proof using H0.
  intros Hok Hp Hl Ht E. case_match; [|by simplify_eq].
  unfold split_huge_page in E. res_inv. destruct a as [s1 f]. res_inv. subst.
  by apply (fresh_link_pte P root s s1 f _ p).
Qed.

(** [map_into] writes one page-table entry. *)
Lemma map_into_pte P root virt phys flags s s' q j :
  tree_ok P root s → P (pml4_idx virt) → map_into root virt phys flags s = Ok s' →
  q ++ [j] ≠ idx_path virt → same_pte P root s s' q j.
Proof using H0.
  intros Hok HP Hm Hne. unfold map_into in Hm.
  destruct (idx_path_page_down_inv virt) as (R1 & R2 & R3 & R4). rewrite R1, R2, R3, R4 in Hm. fold (link_flags flags) in Hm.
  destruct (link_flags_spec flags) as [Hfl _]. res_inv.
  destruct a as [s1 t4]. rename Ha into H1. res_inv. destruct a as [s2 t3]. rename Ha into H2. res_inv.
  rename a into s3, Ha into H3. destruct a0 as [s4 t2]. rename Ha0 into H4. res_inv. subst s'.
  destruct (idx_paths P virt HP) as (Hp1 & Hp2 & Hp3 & Hp4).
  destruct (ensure_table_spec P root s [] root (pml4_idx virt) (link_flags flags) s1 t4 Hok Hp1) as (G1 & _ & T1 & _);
    [simpl; lia|done|by apply (ok_huge _ _ _ Hok [] _ _ Hp1 (Nat.le_0_l _))|done..|].
  destruct (ensure_table_spec P root s1 [pml4_idx virt] t4 (pdpt_idx virt) (link_flags flags) s2 t3
    (g_tree _ _ _ _ G1) Hp2) as (G2 & _ & T2 & _);
    [simpl; lia|done|by apply (ok_huge _ _ _ (g_tree _ _ _ _ G1) [pml4_idx virt] _ _ Hp2 (le_n _))|done..|].
  destruct (split_step P root s2 [pml4_idx virt; pdpt_idx virt] t3 (pd_idx virt) s3 (g_tree _ _ _ _ G2) Hp3) as (G3 & _ & N3); [done..|].
  assert (table_at (pm s3) root [pml4_idx virt; pdpt_idx virt] = Some t3) as T2'.
  { apply (g_keep _ _ _ _ G3); [by eapply ok_path_snoc_l|simpl; lia|done]. }
  destruct (ensure_table_spec P root s3 [pml4_idx virt; pdpt_idx virt] t3 (pd_idx virt) (link_flags flags) s4 t2 (g_tree _ _ _ _ G3) Hp3)
    as (G4 & _ & T4 & _); [simpl; lia|done..|].
  apply (same_pte_trans _ _ _ s1); [done|eapply (ensure_table_pte P root s []); [exact Hok|exact Hp1|simpl; lia|reflexivity|exact H1]|].
  apply (same_pte_trans _ _ _ s2); [done|eapply (ensure_table_pte P root s1 [_]); [apply G1|exact Hp2|simpl; lia|exact T1|exact H2]|].
  apply (same_pte_trans _ _ _ s3); [done|eapply (split_pte P root s2 [_; _]); [apply G2|exact Hp3|simpl; lia|exact T2|exact H3]|].
  apply (same_pte_trans _ _ _ s4); [done|eapply (ensure_table_pte P root s3 [_; _]); [apply G3|exact Hp3|simpl; lia|exact T2'|exact H4]|].
  apply (set_pte P root s4 [pml4_idx virt; pdpt_idx virt; pd_idx virt]); [apply G4|done|simpl; lia|done|].
  intros [= -> ->]. by apply Hne.
Qed.

(** ** Rights under the operations *)

Lemma rights_grows P root s s' va flags :
  grows P root s s' → P (pml4_idx va) → same_pte P root s s' [pml4_idx va; pdpt_idx va; pd_idx va] (pt_idx va) →
  rights (pm s) root va flags → rights (pm s') root va flags.
Proof using Type.
  intros G HP E (t4 & t3 & t2 & T4 & T3 & T2 & Hleaf & Hup). destruct (idx_paths P va HP) as (Hp1 & Hp2 & Hp3 & Hp4).
  exists t4, t3, t2. split_and!.
  - apply (g_keep _ _ _ _ G); [done|simpl; lia|done].
  - apply (g_keep _ _ _ _ G); [done|simpl; lia|done].
  - apply (g_keep _ _ _ _ G); [done|simpl; lia|done].
  - intros b Hb. rewrite (E t2 Hp4 eq_refl T2). by apply Hleaf.
  - intros b Hb Hl. destruct (Hup b Hb Hl) as (U1 & U2 & U3). split_and!.
    + apply (g_perm _ _ _ _ G []); [done|simpl; lia|done|by eexists|done|done].
    + apply (g_perm _ _ _ _ G [pml4_idx va]); [done|simpl; lia|done|by eexists|done|done].
    + apply (g_perm _ _ _ _ G [pml4_idx va; pdpt_idx va]); [done|simpl; lia|done|by eexists|done|done].
Qed.

(** After [map_into] the page has the flags asked for; another page keeps its own. *)
Lemma map_into_rights P root virt phys flags s s' :
  tree_ok P root s → P (pml4_idx virt) → 0 ≤ phys < 2 ^ 52 → map_into root virt phys flags s = Ok s' →
  (∀ va, idx_path va = idx_path virt → rights (pm s') root va flags) ∧
  (∀ va fl, P (pml4_idx va) → idx_path va ≠ idx_path virt → rights (pm s) root va fl → rights (pm s') root va fl).
Proof using H0.
  intros Hok HP Hphys Hm. destruct (map_into_full P root virt phys flags s s' Hok HP Hm) as (G & _ & t4 & t3 & t2 & T4 & T3 & T2 & He & Hb).
  split.
  - intros va Hidx. apply (rights_idx _ _ _ virt); [done|]. exists t4, t3, t2. split_and!; try done.
    intros b Hbit. rewrite He, u64_testbit, Z.lor_spec. rewrite (proj2 (Z.ltb_lt b 64)) by lia. cbn [andb].
    enough (Z.testbit (band_not phys 0xFFF) b = false) as -> by done.
    unfold band_not. rewrite Z.ldiff_spec. destruct Hbit as [->|[->|[->| ->]]]; [by rewrite andb_false_r..|].
    by rewrite (testbit_high phys 52) by lia.
  - intros va fl Hva Hne Hr. eapply rights_grows; [exact G|done| |done].
    eapply map_into_pte; [done|exact HP|exact Hm|done].
Qed.

(** Writing to a data frame changes no rights. *)
Lemma rights_write P root s m f va flags :
  tree_ok P root s → data_frame P root s f → (∀ x, frame_of x ≠ f → m x = pm s x) → P (pml4_idx va) →
  rights (pm s) root va flags → rights m root va flags.
Proof using H0.
  intros Hok Hd Hm HP (t4 & t3 & t2 & T4 & T3 & T2 & Hleaf & Hup). destruct (idx_paths P va HP) as (Hp1 & Hp2 & Hp3 & Hp4).
  destruct (write_tables P root s m f Hok Hd Hm) as (_ & _ & HT).
  assert (∀ q i t, ok_path P (q ++ [i]) → (length q ≤ 3)%nat → table_at (pm s) root q = Some t → entry m t i = entry (pm s) t i) as He.
  { intros q i t Hq Hl Ht. apply ok_path_snoc_l in Hq as Hq'. destruct (ok_table _ _ _ Hok q t Hq' Hl Ht) as [Hf _].
    apply entry_mem_ext; [done|by eapply ok_path_last|]. intros x Hx. apply Hm. rewrite Hx. by apply (proj2 Hd q). }
  exists t4, t3, t2. rewrite !HT by (done || (simpl; lia)). split_and!; try done.
  - intros b Hb. rewrite (He _ _ _ Hp4 ltac:(simpl; lia) T2). by apply Hleaf.
  - intros b Hb Hl. destruct (Hup b Hb Hl) as (U1 & U2 & U3).
    rewrite (He [] _ _ Hp1 ltac:(simpl; lia) eq_refl), (He _ _ _ Hp2 ltac:(simpl; lia) T4), (He _ _ _ Hp3 ltac:(simpl; lia) T3).
    by split_and!.
Qed.

(** ** Rights in plain words *)

(** What the page of [va] lets the program do: read it, and write or execute it or not. *)
Record user_page (m : mem) (root va : Z) (writable executable : bool) : Prop := {
  up_tables : ∃ t4 t3 t2, table_at m root [pml4_idx va] = Some t4 ∧
    table_at m root [pml4_idx va; pdpt_idx va] = Some t3 ∧
    table_at m root [pml4_idx va; pdpt_idx va; pd_idx va] = Some t2 ∧
    let pte := entry m t2 (pt_idx va) in
    Z.testbit pte 0 = true ∧ Z.testbit pte 2 = true ∧
    Z.testbit pte 1 = writable ∧ Z.testbit pte 63 = negb executable ∧
    ∀ e, e ∈ [entry m root (pml4_idx va); entry m t4 (pdpt_idx va); entry m t3 (pd_idx va)] →
      Z.testbit e 1 = true ∧ Z.testbit e 2 = true;
}.

Lemma rights_user_page m root va flags w x :
  Z.testbit flags 0 = true → Z.testbit flags 2 = true → Z.testbit flags 1 = w → Z.testbit flags 63 = negb x →
  rights m root va flags → user_page m root va w x.
Proof using Type.
  intros F0 F2 F1 F3 (t4 & t3 & t2 & T4 & T3 & T2 & Hleaf & Hup). split. exists t4, t3, t2. cbv zeta.
  destruct (link_flags_spec flags) as (_ & L1 & L2).
  destruct (Hup 1 ltac:(lia) L1) as (? & ? & ?). destruct (Hup 2 ltac:(lia) (L2 F2)) as (? & ? & ?).
  split_and!; [done..|rewrite Hleaf by lia; done|rewrite Hleaf by lia; done|rewrite Hleaf by lia; done|rewrite Hleaf by lia; done|].
  intros e. rewrite !elem_of_cons. by intros [->|[->|[->|Hin%not_elem_of_nil]]].
Qed.

(** What keeps the rights of a page whatever they are keeps them as a program sees them. *)
Lemma user_page_keep m m' root root' va w x :
  user_page m root va w x → (∀ fl, rights m root va fl → rights m' root' va fl) → user_page m' root' va w x.
Proof using Type.
  intros [(t4 & t3 & t2 & T4 & T3 & T2 & E0 & E2 & E1 & E63 & Hup)] Hk.
  apply (rights_user_page _ _ _ (entry m t2 (pt_idx va))); [done..|]. apply Hk. exists t4, t3, t2. split_and!; [done..|].
  intros b Hb _. assert (∀ e, e ∈ [entry m root (pml4_idx va); entry m t4 (pdpt_idx va); entry m t3 (pd_idx va)] →
    Z.testbit e b = true) as Hbit by (intros e He; destruct (Hup e He), Hb as [->| ->]; done).
  split_and!; apply Hbit; rewrite !elem_of_cons; tauto.
Qed.

End rights.
