(* ===== verification/Space.v ===== *)
(** * What an address space owns

    An address space shares the kernel's tables with every other one, except for a window
    of its first gigabyte and for the slots of its PML4 that are not the heap's or the
    physmap's.  Its own part is a tree of four levels: tables and, at the bottom, pages, all
    of them distinct frames. *)

From S2P Require Import Prelude Mem Frames Vmm PageTable UserPages.

(** ** The private paths *)

Definition shared_slot (i : Z) : bool := (i =? HEAP_PML4_IDX) || (i =? PHYSMAP_PML4_IDX).

Definition private (q : list Z) : Prop :=
  Forall idx_ok q ∧
  match q with
  | [] => True
  | i :: q => if decide (i = 0)
      then match q with
           | [] => True
           | j :: q => j < 4 ∧ match q with [] => True | k :: _ => j = 0 ∧ in_window (Z.shiftl k 21) = true end
           end
      else shared_slot i = false
  end.

Lemma private_prefix q q' : q `prefix_of` q' → private q' → private q.
Proof.
  intros [r ->] [Hf Hq]. split; [by apply Forall_app in Hf as [? _]|].
  destruct q as [|i q]; [done|]. cbn [app] in Hq. case_decide; [|done].
  destruct q as [|j q]; [done|]. cbn [app] in Hq. destruct q as [|k q]; [by destruct Hq|done].
Qed.

Lemma private_snoc_l q i : private (q ++ [i]) → private q.
Proof. apply private_prefix. by eexists. Qed.

Lemma private_last q i : private (q ++ [i]) → idx_ok i.
Proof. intros [Hf _]. apply Forall_app in Hf as [_ Hf]. by inversion Hf. Qed.

Section space.
Context {A : Type} `{FrameAllocLaws A}.
Implicit Type s : Vmm A.

(** The table or page [t] at the path [q]. *)
Definition node s (root : Z) (q : list Z) (t : Z) : Prop := private q ∧ (length q ≤ 4)%nat ∧ table_at (pm s) root q = Some t.

Record space (root : Z) s : Prop := {
  sp_frame q t : node s root q t → is_frame t ∧ fa_used (fa s) (frame_of t) = true;
  sp_inj q q' t : node s root q t → node s root q' t → q = q';
  sp_huge q i t : node s root q t → private (q ++ [i]) → (length q ≤ 3)%nat →
    present (entry (pm s) t i) = true → huge (entry (pm s) t i) = false;
}.

(** Entry [i] of the table at [q] belongs to others, or leads to a page. *)
Definition settled s (root : Z) (q : list Z) (i : Z) : Prop :=
  (idx_ok i ∧ ¬ private (q ++ [i])) ∨ (length q = 3%nat ∧ ∃ t, node s root (q ++ [i]) t).

Lemma settled_idx s root q i : settled s root q i → idx_ok i.
Proof. intros [[? _]|(_ & t & Hp & _)]; [done|by eapply private_last]. Qed.

(** [s'] has the nodes of [s] and more; what is newly in use is a node; settled entries are
    what they were; and the frames in use that hold none of the tables keep their bytes. *)
Record grown (root : Z) s s' : Prop := {
  gr_space : space root s';
  gr_keep q t : node s root q t → node s' root q t;
  gr_new q t : node s' root q t → node s root q t ∨ fa_used (fa s) (frame_of t) = false;
  gr_used g : fa_used (fa s') g = true ↔ fa_used (fa s) g = true ∨ ∃ q t, node s' root q t ∧ frame_of t = g;
  gr_mem x : fa_used (fa s) (frame_of x) = true →
    (∀ q t, node s root q t → (length q ≤ 3)%nat → frame_of t ≠ frame_of x) → pm s' x = pm s x;
  gr_entry q t i : node s root q t → (length q ≤ 3)%nat → settled s root q i → entry (pm s') t i = entry (pm s) t i;
  gr_regs : cr3 s' = cr3 s ∧ g_kernel_pml4 s' = g_kernel_pml4 s;
}.

Lemma frame_inj t t' : is_frame t → is_frame t' → frame_of t = frame_of t' → t = t'.
Proof. intros (f & -> & _) (f' & -> & _). unfold frame_of, PAGE_SIZE. rewrite !Z.div_mul by lia. by intros ->. Qed.

Lemma gr_refl root s : space root s → grown root s s.
Proof. intros Hs. split; [done|done|by left| |done..]. intros g. split; [by left|]. intros [?|(q & t & Hn & <-)]; [done|]. by eapply sp_frame. Qed.

Lemma gr_trans root s1 s2 s3 : grown root s1 s2 → grown root s2 s3 → grown root s1 s3.
Proof.
  intros [S1 K1 N1 U1 M1 L1 [C1 G1]] [S2 K2 N2 U2 M2 L2 [C2 G2]].
  assert (∀ g, fa_used (fa s2) g = false → fa_used (fa s1) g = false) as Hmono.
  { intros g. rewrite <-!not_true_iff_false, U1. tauto. }
  split; [done|by auto| | | | |split; congruence].
  - intros q t Hn. destruct (N2 q t Hn) as [Hn'|Hu]; [by apply N1|right; by apply Hmono].
  - intros g. rewrite U2, U1. split; [|naive_solver]. intros [[?|(q & t & Hn & <-)]|?]; [by left| |by right]. right. exists q, t. auto.
  - intros x Hx Hn. rewrite M2; [by apply M1|rewrite U1; by left|]. intros q t Hq Hl E. destruct (N1 q t Hq) as [Hq'|Hu]; [by apply (Hn q t)|]. congruence.
  - intros q t i Hq Hl Ht. rewrite (L2 q t i), (L1 q t i); auto. destruct Ht as [?|(? & t' & ?)]; [by left|right; split; [done|exists t'; auto]].
Qed.

(** ** Writing entries *)

(** Memories that agree on the entries of the tables have the same nodes. *)
Lemma nodes_same root s s' :
  (∀ q t i, node s root q t → (length q ≤ 3)%nat → private (q ++ [i]) → entry_eq (entry (pm s') t i) (entry (pm s) t i)) →
  ∀ q, private q → (length q ≤ 4)%nat → table_at (pm s') root q = table_at (pm s) root q.
Proof.
  intros He q Hq Hl. apply table_at_ext. intros r j t Hr Ht. destruct (prefix_snoc_inv _ _ _ Hr) as [Hr' Hl'].
  apply (He r); [split; [by eapply private_prefix|split; [lia|done]]|lia|by eapply private_prefix].
Qed.

Lemma space_same root s s' :
  space root s →
  (∀ q t i, node s root q t → (length q ≤ 3)%nat → private (q ++ [i]) → entry_eq (entry (pm s') t i) (entry (pm s) t i)) →
  (∀ g, fa_used (fa s) g = true → fa_used (fa s') g = true) →
  space root s' ∧ ∀ q t, node s' root q t ↔ node s root q t.
Proof.
  intros Hs He Hu. pose proof (nodes_same root s s' He) as Hn.
  assert (∀ q t, node s' root q t ↔ node s root q t) as Hiff.
  { intros q t. unfold node. split; intros (Hp & Hl & Ht); (split; [done|split; [done|]]); [by rewrite <-Hn|by rewrite Hn]. }
  split; [|done]. split.
  - intros q t Hq%Hiff. destruct (sp_frame _ _ Hs q t Hq) as [? ?]. auto.
  - intros q q' t Hq%Hiff Hq'%Hiff. by eapply sp_inj.
  - intros q i t Hq%Hiff Hp Hl. destruct (He q t i Hq Hl Hp) as (-> & -> & _). by apply (sp_huge _ _ Hs q).
Qed.

(** The tables of a space are frames in use: where these keep their bytes, the space stays. *)
Lemma space_kept root s s' :
  space root s → (∀ x q t, node s root q t → (length q ≤ 3)%nat → frame_of x = frame_of t → pm s' x = pm s x) →
  (∀ g, fa_used (fa s) g = true → fa_used (fa s') g = true) →
  space root s' ∧ (∀ q t, node s' root q t ↔ node s root q t) ∧
  ∀ q t i, node s root q t → (length q ≤ 3)%nat → idx_ok i → entry (pm s') t i = entry (pm s) t i.
Proof.
  intros Hs Hm Hu.
  assert (∀ q t i, node s root q t → (length q ≤ 3)%nat → idx_ok i → entry (pm s') t i = entry (pm s) t i) as He.
  { intros q t i Hq Hl Hi. apply entry_mem_ext; [by apply (sp_frame _ _ Hs q)|done|]. intros x Hx. by apply (Hm x q t). }
  destruct (space_same root s s' Hs) as [? ?]; [|done|by split_and!].
  intros q t i Hq Hl Hp. by rewrite (He q) by (done || by eapply private_last).
Qed.

(** Linking a frame that is no node yet at an absent entry. *)
Lemma link_node root s q t i v t2 :
  space root s → node s root q t → private (q ++ [i]) → (length q ≤ 3)%nat → present (entry (pm s) t i) = false →
  present v = true → huge v = false → entry_phys v = t2 → is_frame t2 → fa_used (fa s) (frame_of t2) = true →
  (∀ q', ¬ node s root q' t2) → ((length q ≤ 2)%nat → ∀ j, idx_ok j → present (entry (pm s) t2 j) = false) →
  let s' := with_pm (set_entry (pm s) t i v) s in
  space root s' ∧ ∀ q' t', node s' root q' t' ↔ node s root q' t' ∨ (q' = q ++ [i] ∧ t' = t2).
Proof.
  intros Hs Hq Hp Hl Habs Hv1 Hv2 Hv3 Hf2 Hu2 Hnew Hempty s'. pose proof Hq as (Hqp & _ & Ht). pose proof (private_last _ _ Hp) as Hi.
  destruct (sp_frame _ _ Hs q t Hq) as [Hft _].
  assert (∀ r t', node s root r t' → (length r ≤ 3)%nat → ∀ j, idx_ok j → (t', j) ≠ (t, i) → entry (pm s') t' j = entry (pm s) t' j) as Hother.
  { intros r t' Hr Hlr j Hj Hne. apply entry_set_other; [done|by apply (sp_frame _ _ Hs r)|done|done|congruence]. }
  assert (∀ q', private q' → (length q' ≤ 4)%nat → ¬ (q ++ [i]) `prefix_of` q' → table_at (pm s') root q' = table_at (pm s) root q') as HA.
  { intros q' Hp' Hl' Hn. apply table_at_ext. intros r j t' Hr Ht'. destruct (prefix_snoc_inv _ _ _ Hr) as [Hr' Hlr].
    assert (node s root r t') as Hnr by (split; [by eapply private_prefix|split; [lia|done]]).
    rewrite (Hother r t' Hnr ltac:(lia) j); [done|eapply private_last, private_prefix; done|]. intros [= -> ->]. apply Hn. by rewrite (sp_inj _ _ Hs q r t). }
  assert (table_at (pm s') root (q ++ [i]) = Some t2) as Hhere.
  { rewrite (table_at_snoc _ _ _ _ t).
    - cbn zeta. unfold s' at 1 2 3. cbn [pm with_pm]. rewrite entry_set_same. destruct (entry_eq_u64 v) as (-> & -> & ->). by rewrite Hv1, Hv2, Hv3.
    - rewrite HA; [done|done|lia|]. intros [r Hr]. apply (f_equal length) in Hr. rewrite !length_app in Hr. simpl in Hr. lia. }
  assert (∀ r, table_at (pm s) root ((q ++ [i]) ++ r) = None) as Hgone.
  { intros r. rewrite table_at_app, (table_at_snoc _ _ _ _ t Ht). cbn zeta. by rewrite Habs. }
  assert (t2 ≠ t) as Hne2 by (intros ->; by apply (Hnew q)).
  assert (∀ j, idx_ok j → entry (pm s') t2 j = entry (pm s) t2 j) as H2 by (intros j Hj; apply entry_set_other; [done..|congruence]).
  assert (∀ q' t', node s' root q' t' ↔ node s root q' t' ∨ (q' = q ++ [i] ∧ t' = t2)) as Hiff.
  { intros q' t'. unfold node. split.
    - intros (Hp' & Hl' & Ht'). destruct (decide ((q ++ [i]) `prefix_of` q')) as [[r ->]|Hn]; [|left; by rewrite HA in Ht'].
      right. destruct r as [|j r]; [rewrite app_nil_r in *; split; [done|congruence]|]. exfalso.
      rewrite table_at_app, Hhere in Ht'. cbn [mbind option_bind table_at] in Ht'. destruct Hp' as [Hf' _]. apply Forall_app in Hf' as [_ [Hj _]%Forall_cons].
      rewrite H2, Hempty in Ht' by (done || (rewrite !length_app in Hl'; simpl in Hl'; lia)). done.
    - intros [(Hp' & Hl' & Ht')|[-> ->]]; [|split; [done|split; [rewrite length_app; simpl; lia|done]]]. split; [done|]. split; [done|].
      rewrite HA; [done..|]. intros [r ->]. by rewrite Hgone in Ht'. }
  split; [split|done].
  - intros q' t' [Hn|[-> ->]]%Hiff; [by apply (sp_frame _ _ Hs q')|done].
  - intros q1 q2 t' [Hn1|[-> ->]]%Hiff [Hn2|[-> E]]%Hiff; [by eapply sp_inj|subst t'; by destruct (Hnew q1)|by destruct (Hnew q2)|done].
  - intros q' j t' [Hn|[-> ->]]%Hiff Hp' Hl'; pose proof (private_last _ _ Hp') as Hj.
    + destruct (decide ((t', j) = (t, i))) as [[= -> ->]|Hne]; [|rewrite (Hother q') by done; by apply (sp_huge _ _ Hs q')].
      unfold s'. cbn [pm with_pm]. rewrite entry_set_same. by destruct (entry_eq_u64 v) as (_ & -> & _).
    + rewrite H2, Hempty by (done || (rewrite length_app in Hl'; simpl in Hl'; lia)). done.
Qed.

(** ** Making room for a page *)

(** Writing an entry above the pages leaves the settled ones alone. *)
Lemma settled_set root s m q t i v :
  space root s → node s root q t → private (q ++ [i]) → (length q ≤ 2)%nat →
  (∀ q' t' j, node s root q' t' → (length q' ≤ 3)%nat → idx_ok j → entry m t' j = entry (pm s) t' j) →
  ∀ q' t' j, node s root q' t' → (length q' ≤ 3)%nat → settled s root q' j → entry (set_entry m t i v) t' j = entry (pm s) t' j.
Proof.
  intros Hs Hq Hp Hl He q' t' j Hq' Hl' Hset. pose proof (settled_idx _ _ _ _ Hset) as Hj. rewrite <-(He q' t') by done.
  apply entry_set_other; [by apply (sp_frame _ _ Hs q)|by apply (sp_frame _ _ Hs q')|by eapply private_last|done|].
  intros [= <- <-]. rewrite <-(sp_inj _ _ Hs q q' t) in Hset by done. destruct Hset as [[_ ?]|[? _]]; [done|lia].
Qed.

(** A new table. *)
Lemma link_table root s q t i s1 f v :
  space root s → node s root q t → private (q ++ [i]) → (length q ≤ 2)%nat → present (entry (pm s) t i) = false →
  alloc s = Ok (s1, f) → present v = true → huge v = false → entry_phys v = f →
  let s' := with_pm (set_entry (pm (zero_table f s1)) t i v) (zero_table f s1) in
  grown root s s' ∧ node s' root (q ++ [i]) f ∧ ∀ q' t'', node s' root q' t'' → length q' = 4%nat → node s root q' t''.
Proof using H0.
  intros Hs Hq Hp Hl Hpr Ha Hv1 Hv2 Hv3. set (s2 := zero_table f s1). pose proof (private_last _ _ Hp) as Hi.
  destruct (sp_frame _ _ Hs q t Hq) as [Hft Hut]. destruct (alloc_spec _ _ _ Ha) as (Hf & Hun & Hus & Hmono & Hpm & Hc & Hg).
  assert (∀ x, frame_of x ≠ frame_of f → pm s2 x = pm s x) as Hm2 by (intros x Hx; unfold s2, zero_table; cbn [pm with_pm]; rewrite store_words_frame by done; by rewrite Hpm).
  assert (∀ q' t', node s root q' t' → frame_of t' ≠ frame_of f) as Hnf by (intros q' t' Hn E; destruct (sp_frame _ _ Hs q' t' Hn) as [_ Hu]; congruence).
  destruct (space_kept root s s2 Hs) as (Hs2 & Hiff2 & He2); [|exact Hmono|].
  { intros x q' t' Hn _ Hx. apply Hm2. rewrite Hx. by eapply Hnf. }
  destruct (link_node root s2 q t i v f) as [Hs' Hiff]; try done.
  { by apply Hiff2. }
  { lia. }
  { by rewrite (He2 q) by (done || lia). }
  { intros q' Hn%Hiff2. by apply (Hnf q' f). }
  { intros _ j Hj. unfold s2, zero_table. cbn [pm with_pm]. unfold Vmm.entry. rewrite (store_words_same 512 0 f (λ _, 0)); [done|unfold idx_ok in Hj; lia|done]. }
  intros s3. assert (∀ g, fa_used (fa s3) g = (frame_of f =? g) || fa_used (fa s) g) as Hall.
  { intros g. change (fa_used (fa s1) g = (frame_of f =? g) || fa_used (fa s) g). unfold alloc in Ha. res_inv. destruct a as [a p]. injection Ha as <- <-.
    destruct (fa_alloc_fresh _ _ _ Ha0) as (g' & -> & Hg' & _ & Hall). cbn [fa with_fa]. rewrite Hall. unfold frame_of, PAGE_SIZE. by rewrite Z.div_mul. }
  split; [split; [done| | | | |exact (settled_set root s (pm s2) q t i v Hs Hq Hp Hl He2)|done]|split].
  - intros q' t' Hn. apply Hiff. left. by apply Hiff2.
  - intros q' t' [Hn%Hiff2|[-> ->]]%Hiff; [by left|by right].
  - intros g. rewrite Hall, orb_true_iff, Z.eqb_eq. split; [intros [<-|?]; [right; exists (q ++ [i]), f; split; [apply Hiff; by right|done]|by left]|].
    intros [?|(q' & t' & [Hn%Hiff2|[-> ->]]%Hiff & <-)]; [by right| |by left]. right. by apply (sp_frame _ _ Hs q').
  - intros x Hx Hn. cbn [s3 pm with_pm]. rewrite set_entry_frame; [apply Hm2; congruence|done|done|]. intros E. by apply (Hn q t Hq); [lia|].
  - apply Hiff. by right.
  - intros q' t' [Hn%Hiff2|[-> ->]]%Hiff Hl4; [done|]. rewrite length_app in Hl4. simpl in Hl4. lia.
Qed.

Lemma ensure_node root s q t i fl s' t' :
  space root s → node s root q t → private (q ++ [i]) → (length q ≤ 2)%nat → 0 ≤ fl < 8 → ensure_table t i fl s = Ok (s', t') →
  grown root s s' ∧ node s' root (q ++ [i]) t' ∧ ∀ q' t'', node s' root q' t'' → length q' = 4%nat → node s root q' t''.
Proof using H0.
  intros Hs Hq Hp Hl Hfl. unfold ensure_table. intros E. res_inv. subst a t'. pose proof Hq as (Hqp & _ & Ht). pose proof (private_last _ _ Hp) as Hi.
  destruct (sp_frame _ _ Hs q t Hq) as [Hft Hut].
  destruct (present (entry (pm s) t i)) eqn:Hpr; cbn [negb] in Ha; res_inv; subst.
  - set (v := Z.lor _ _). assert (entry_eq (u64 v) (entry (pm s) t i)) as Hv by (etrans; [apply entry_eq_u64|apply entry_eq_widen]).
    destruct (space_same root s (with_pm (set_entry (pm s) t i v) s) Hs) as [Hs' Hiff].
    { intros r t' j Hr Hlr Hpj. cbn [pm with_pm]. pose proof (private_last _ _ Hpj) as Hj. destruct (decide ((t', j) = (t, i))) as [[= -> ->]|Hne]; [by rewrite entry_set_same|].
      rewrite entry_set_other; [done|done|by apply (sp_frame _ _ Hs r)|done|done|congruence]. }
    { done. }
    split; [split; [done|by intros; apply Hiff|intros q' t' ?%Hiff; by left| | |exact (settled_set root s (pm s) q t i v Hs Hq Hp Hl (λ _ _ _ _ _ _, eq_refl))|done]|split].
    + intros g. cbn [fa with_pm]. split; [by left|]. intros [?|(q' & t' & Hn%Hiff & <-)]; [done|by apply (sp_frame _ _ Hs q')].
    + intros x Hx Hn. cbn [pm with_pm]. apply set_entry_frame; [done..|]. intros Ex. by apply (Hn q t Hq); [lia|].
    + apply Hiff. split; [done|]. split; [rewrite length_app; simpl; lia|]. rewrite (table_at_snoc _ _ _ _ t Ht). cbn zeta.
      rewrite Hpr, (sp_huge _ _ Hs q) by (done || lia). cbn [andb negb pm with_pm]. rewrite entry_set_same. by destruct Hv as (_ & _ & ->).
    + by intros q' t'' ?%Hiff _.
  - destruct a as [s1 f]. injection Ha as <-. destruct (alloc_spec _ _ _ Ha0) as (Hf & _).
    change PRESENT with 1. rewrite <-Z.lor_assoc. set (v := Z.lor f (Z.lor fl 1)).
    assert (0 ≤ Z.lor fl 1 < 2 ^ 3) as Hfl1.
    { apply bounded_by_bits; [lia|rewrite Z.lor_nonneg; lia|]. intros k Hk. rewrite Z.lor_spec, (testbit_high fl 3), (testbit_high 1 3) by lia. done. }
    destruct (link_entry f (Z.lor fl 1)) as (Hv1 & Hv2 & Hv3); [done|lia|rewrite Z.lor_spec; apply orb_true_r|]. fold v in Hv1, Hv2, Hv3.
    cbn [pm with_pm]. rewrite entry_set_same. destruct (entry_eq_u64 v) as (_ & _ & ->). rewrite Hv3. by apply link_table.
Qed.

(** ** Mapping a fresh page *)

(** [s1] is [s] with the frame [F] taken into use, whatever its bytes. *)
Record taken (F : Z) s s1 : Prop := {
  tk_frame : is_frame F;
  tk_fresh : fa_used (fa s) (frame_of F) = false;
  tk_used g : fa_used (fa s1) g = (frame_of F =? g) || fa_used (fa s) g;
  tk_mem x : frame_of x ≠ frame_of F → pm s1 x = pm s x;
  tk_regs : cr3 s1 = cr3 s ∧ g_kernel_pml4 s1 = g_kernel_pml4 s;
}.

Lemma alloc_taken s s1 F : alloc s = Ok (s1, F) → taken F s s1 ∧ pm s1 = pm s.
Proof using H0.
  unfold alloc. intros E. res_inv. destruct a as [a p]. injection E as <- <-. destruct (fa_alloc_fresh _ _ _ Ha) as (g & -> & Hg & Hun & Hall).
  assert (frame_of (g * PAGE_SIZE) = g) as Eg by (by apply Z.div_mul). split; [split; rewrite ?Eg; try done; by exists g|done].
Qed.

Lemma taken_write F s s1 m : taken F s s1 → (∀ x, frame_of x ≠ frame_of F → m x = pm s1 x) → taken F s (with_pm m s1).
Proof. intros [? ? ? M ?] Hm. split; try done. intros x Hx. cbn. by rewrite Hm, M. Qed.

Lemma taken_space F root s s1 : taken F s s1 → space root s → space root s1 ∧ (∀ q t, node s1 root q t ↔ node s root q t) ∧
  ∀ q t i, node s root q t → (length q ≤ 3)%nat → idx_ok i → entry (pm s1) t i = entry (pm s) t i.
Proof.
  intros [Hf Hun Hus Hm _] Hs. apply space_kept; [done| |].
  - intros x q t Hn _ Hx. apply Hm. rewrite Hx. intros E. destruct (sp_frame _ _ Hs q t Hn). congruence.
  - intros g Hg. by rewrite Hus, Hg, orb_true_r.
Qed.

(** The four tables on the way to a page. *)
Lemma private_path va : private (idx_path va) →
  private [pml4_idx va] ∧ private [pml4_idx va; pdpt_idx va] ∧ private [pml4_idx va; pdpt_idx va; pd_idx va].
Proof.
  intros Hp. unfold idx_path in Hp. split_and!; (eapply private_prefix; [|exact Hp]);
    [apply (prefix_cons _ []), prefix_nil|apply prefix_cons, (prefix_cons _ []), prefix_nil|do 2 apply prefix_cons; apply (prefix_cons _ []), prefix_nil].
Qed.

Lemma root_node root s : node s root [] root.
Proof. split; [by split|]. split; [simpl; lia|done]. Qed.

(** The tables of the code on the way to [va]. *)
Lemma map_tables root s va fl s2 t4 s3 t3 s3' s4 t2 : space root s → private (idx_path va) → 0 ≤ fl < 8 →
  ensure_table root (pml4_idx va) fl s = Ok (s2, t4) → ensure_table t4 (pdpt_idx va) fl s2 = Ok (s3, t3) →
  (if present (entry (pm s3) t3 (pd_idx va)) && huge (entry (pm s3) t3 (pd_idx va)) then split_huge_page t3 (pd_idx va) s3 else Ok s3) = Ok s3' →
  ensure_table t3 (pd_idx va) fl s3' = Ok (s4, t2) →
  grown root s s4 ∧ node s4 root [pml4_idx va; pdpt_idx va; pd_idx va] t2 ∧ ∀ q t, node s4 root q t → length q = 4%nat → node s root q t.
Proof using H0.
  intros Hs Hp Hlf E1 E2 E3 E4. destruct (private_path va Hp) as (Hp1 & Hp2 & Hp3).
  destruct (ensure_node root s [] root (pml4_idx va) _ s2 t4 Hs (root_node _ _) Hp1 ltac:(simpl; lia) Hlf E1) as (G1 & N1 & L1).
  destruct (ensure_node root s2 [pml4_idx va] t4 (pdpt_idx va) _ s3 t3 (gr_space _ _ _ G1) N1 Hp2 ltac:(simpl; lia) Hlf E2) as (G2 & N2 & L2).
  assert (s3' = s3) as ->.
  { destruct (present (entry (pm s3) t3 (pd_idx va))) eqn:Hpr; [|by injection E3].
    rewrite (sp_huge _ _ (gr_space _ _ _ G2) [pml4_idx va; pdpt_idx va]) in E3 by (done || (simpl; lia)). by injection E3. }
  destruct (ensure_node root s3 [pml4_idx va; pdpt_idx va] t3 (pd_idx va) _ s4 t2 (gr_space _ _ _ G2) N2 Hp3 ltac:(simpl; lia) Hlf E4) as (G3 & N3 & L3).
  split; [exact (gr_trans _ _ _ _ G1 (gr_trans _ _ _ _ G2 G3))|]. split; [exact N3|]. intros q t Hn Hl. auto.
Qed.

(** The last step: a frame that is taken but no node yet becomes the page at [q ++ [i]]. *)
Lemma link_page root s s1 s4 F q t i v :
  space root s → taken F s s1 → grown root s1 s4 → (∀ q t, node s1 root q t ↔ node s root q t) →
  (∀ q t i, node s root q t → (length q ≤ 3)%nat → idx_ok i → entry (pm s1) t i = entry (pm s) t i) →
  (∀ q t, node s4 root q t → length q = 4%nat → node s root q t) → (∀ t, ¬ node s root (q ++ [i]) t) →
  length q = 3%nat → private (q ++ [i]) → node s4 root q t → present v = true → huge v = false → entry_phys v = F →
  let s' := with_pm (set_entry (pm s4) t i v) s4 in grown root s s' ∧ (∀ q' t', node s' root q' t' ↔ node s4 root q' t' ∨ (q' = q ++ [i] ∧ t' = F)) ∧
    ∀ x, frame_of x = frame_of F → pm s' x = pm s1 x.
Proof using H0.
  intros Hs [HF Hun Hus Hm Hr] G Hiff1 Hleaf1 L Habs Hlq Hp N Hv1 Hv2 Hv3. pose proof (private_last _ _ Hp) as Hi.
  assert (∀ q', ¬ node s root q' F) as HnF by (intros q' Hn; destruct (sp_frame _ _ Hs q' F Hn); congruence).
  assert (fa_used (fa s1) (frame_of F) = true) as HuF by (by rewrite Hus, Z.eqb_refl).
  assert (∀ q', ¬ node s4 root q' F) as HnF4.
  { intros q' Hn. destruct (gr_new _ _ _ G q' F Hn) as [Hn1|Hu1]; [by apply (HnF q'), Hiff1|congruence]. }
  assert (present (entry (pm s4) t i) = false) as Hpr4.
  { destruct (present (entry (pm s4) t i)) eqn:Hpr; [|done]. exfalso. apply (Habs (entry_phys (entry (pm s4) t i))), L; [|rewrite length_app; simpl; lia].
    split; [done|]. split; [rewrite length_app; simpl; lia|]. pose proof N as (_ & _ & Ht). rewrite (table_at_snoc _ _ _ _ _ Ht). cbn zeta.
    rewrite Hpr, (sp_huge _ _ (gr_space _ _ _ G) q) by (done || lia). done. }
  destruct (link_node root s4 q t i v F (gr_space _ _ _ G) N Hp) as [Hs5 Hiff]; try done.
  { lia. }
  { apply G. by left. }
  { lia. }
  destruct (sp_frame _ _ (gr_space _ _ _ G) _ _ N) as [Hft _].
  assert (frame_of t ≠ frame_of F) as Hne by (intros E; apply (HnF4 q); by rewrite (frame_inj F t)).
  assert (∀ x, frame_of x ≠ frame_of t → set_entry (pm s4) t i v x = pm s4 x) as Hset by (intros x Hx; by apply set_entry_frame).
  intros s5. split; [split; [done| | | | | |]|split; [done|]].
  - intros q' t' Hn. apply Hiff. left. by apply (gr_keep _ _ _ G), Hiff1.
  - intros q' t' [Hn|[_ ->]]%Hiff; [|by right]. destruct (gr_new _ _ _ G q' t' Hn) as [Hn1|Hu]; [left; by apply Hiff1|]. right.
    rewrite Hus in Hu. by apply orb_false_iff in Hu as [_ ?].
  - intros g. change (fa s5) with (fa s4). rewrite (gr_used _ _ _ G), Hus, orb_true_iff, Z.eqb_eq. split.
    + intros [[<-|?]|(q' & t' & Hn & <-)]; [right; exists (q ++ [i]), F; split; [apply Hiff; by right|done]|by left|right; exists q', t'; split; [apply Hiff; by left|done]].
    + intros [?|(q' & t' & [Hn|[_ ->]]%Hiff & <-)]; [left; by right|right; by exists q', t'|left; by left].
  - intros x Hx Hn. assert (frame_of x ≠ frame_of F) as Hxf by (intros E; congruence).
    assert (∀ q t, node s4 root q t → (length q ≤ 3)%nat → frame_of t ≠ frame_of x) as Hn4.
    { intros q' t' Hq' Hl E. destruct (gr_new _ _ _ G q' t' Hq') as [Hq1|Hu]; [by apply (Hn q' t'); [apply Hiff1| |]|]. rewrite Hus, E, Hx, orb_true_r in Hu. done. }
    cbn [s5 pm with_pm]. rewrite Hset by (intros E; by apply (Hn4 _ _ N); [lia|]).
    rewrite (gr_mem _ _ _ G); [by apply Hm|by rewrite Hus, Hx, orb_true_r|]. intros q' t' Hq' Hl. apply (Hn q' t'); [by apply Hiff1|done].
  - intros q' t' j Hq' Hlq' Hj. pose proof (settled_idx _ _ _ _ Hj) as Hjo. cbn [s5 pm with_pm].
    rewrite entry_set_other; [|done|by apply (sp_frame _ _ Hs q')|done|done|].
    + rewrite (gr_entry _ _ _ G q' t' j); [by apply (Hleaf1 q')|by apply Hiff1|done|].
      destruct Hj as [?|(? & t'' & ?)]; [by left|right; split; [done|exists t''; by apply Hiff1]].
    + intros [= <- <-]. apply Hiff1, (gr_keep _ _ _ G) in Hq'. rewrite (sp_inj _ _ (gr_space _ _ _ G) _ _ t Hq' N) in Hj.
      destruct Hj as [[_ ?]|(_ & t' & Ht')]; [done|by apply (Habs t')].
  - destruct Hr, (gr_regs _ _ _ G). split; cbn; congruence.
  - intros x Hx. cbn [s5 pm with_pm]. rewrite Hset by congruence. apply (gr_mem _ _ _ G); [by rewrite Hx|].
    intros q' t' Hq' _ E. apply Hiff1 in Hq'. destruct (sp_frame _ _ Hs q' t' Hq') as [? ?]. congruence.
Qed.

Lemma map_page root s s1 F va flags :
  space root s → private (idx_path va) → (∀ t, ¬ node s root (idx_path va) t) → taken F s s1 →
  Z.land flags PHYS_MASK = 0 → Z.testbit flags 0 = true → Z.testbit flags 7 = false →
  ensures (map_into root va F flags s1) (λ s', grown root s s' ∧ node s' root (idx_path va) F ∧
    (∀ q t, node s' root q t → length q = 4%nat → node s root q t ∨ q = idx_path va) ∧
    (∀ x, frame_of x = frame_of F → pm s' x = pm s1 x) ∧
    ∃ t, node s' root [pml4_idx va; pdpt_idx va; pd_idx va] t ∧ entry (pm s') t (pt_idx va) = u64 (Z.lor F flags)).
Proof using H0.
  intros Hs Hp Habs Ht Hfl Hb0 Hb7. destruct (map_into_total root va F flags s1) as [[s5 E]|E]; rewrite E; [|done]. cbn [ensures]. revert E.
  destruct (taken_space _ _ _ _ Ht Hs) as (Hs1 & Hiff1 & Hleaf1). pose proof (tk_frame _ _ _ Ht) as HF.
  unfold map_into. destruct (idx_path_page_down_inv va) as (-> & -> & -> & ->). fold (link_flags flags). destruct (link_flags_spec flags) as [Hlf _].
  intros E. res_inv. destruct a as [s2 t4]. rename Ha into E1. res_inv. destruct a as [s3 t3]. rename Ha into E2. res_inv.
  rename a into s3', Ha into E3. destruct a0 as [s4 t2]. rename Ha0 into E4. res_inv. subst s5.
  destruct (map_tables root s1 va _ s2 t4 s3 t3 s3' s4 t2 Hs1 Hp Hlf E1 E2 E3 E4) as (G & N3 & L).
  assert (band_not F 0xFFF = F) as EF.
  { rewrite band_not_4095. destruct (is_frame_bounds F HF) as [_ ->]. lia. }
  rewrite EF. set (v := Z.lor F flags).
  assert (present v = true ∧ huge v = false ∧ entry_phys v = F) as (Hv1 & Hv2 & Hv3).
  { split_and!; [unfold v; autorewrite with bits; by rewrite Hb0, orb_true_r| |by apply entry_phys_frame].
    unfold v. autorewrite with bits. rewrite Hb7. destruct HF as (f & -> & _). change PAGE_SIZE with 4096. by rewrite mult_4096_testbit. }
  destruct (link_page root s s1 s4 F [pml4_idx va; pdpt_idx va; pd_idx va] t2 (pt_idx va) v) as (G5 & Hiff & Hpage); try done.
  { intros q t Hn Hl. by apply Hiff1, L. }
  split; [exact G5|]. split; [apply Hiff; by right|]. split; [|split; [exact Hpage|]].
  - intros q t [Hn|[-> _]]%Hiff Hl; [left; by apply Hiff1, L|by right].
  - exists t2. split; [apply Hiff; by left|]. apply entry_set_same.
Qed.

End space.
