(* ===== verification/SpaceOps.v ===== *)
(** * Creating, filling and destroying an address space

    [create_address_space] gives a space that owns its frames, [destroy_address_space] gives
    back exactly the frames a space owns. *)

From S2P Require Import Prelude Mem Frames Vmm PageTable UserPages Space.

Ltac idx_forall := repeat (apply Forall_cons_2; [done || (unfold idx_ok; lia)|]); done || by apply Forall_nil.

Section destroy.
Context {A : Type} `{FrameAllocLaws A}.
Implicit Type s : Vmm A.

(** The frames in [B] were given back, and nothing else happened. *)
Record frees (B : Z → Prop) s s' : Prop := {
  fr_pm : pm s' = pm s;
  fr_regs : cr3 s' = cr3 s ∧ g_kernel_pml4 s' = g_kernel_pml4 s;
  fr_used g : 0 ≤ g < NUM_FRAMES → fa_used (fa s') g = true ↔ fa_used (fa s) g = true ∧ ¬ B g;
}.

Lemma frees_none s : frees (λ _, False) s s.
Proof. split; [done|done|]. intros g _. tauto. Qed.

Lemma frees_ext (B B' : Z → Prop) s s' : (∀ g, B g ↔ B' g) → frees B s s' → frees B' s s'.
Proof. intros E [? ? U]. split; [done|done|]. intros g Hg. by rewrite U, E. Qed.

Lemma frees_trans B1 B2 s1 s2 s3 : frees B1 s1 s2 → frees B2 s2 s3 → frees (λ g, B1 g ∨ B2 g) s1 s3.
Proof. intros [P1 [C1 G1] U1] [P2 [C2 G2] U2]. split; [congruence|split; congruence|]. intros g Hg. rewrite U2, U1 by done. tauto. Qed.

Lemma free_frees p s : frees (λ g, frame_of p = g) s (free p s).
Proof using H0.
  split; [done|done|]. intros g Hg. cbn [free with_fa fa]. rewrite fa_free_used, andb_true_iff, negb_true_iff, Z.eqb_neq by done. unfold frame_of. tauto.
Qed.

Lemma frees_iter (B : Z → Z → Prop) n lo (f : Z → Vmm A → Vmm A) s :
  (∀ j s', lo ≤ j < lo + Z.of_nat n → pm s' = pm s → frees (B j) s' (f j s')) →
  frees (λ g, ∃ j, lo ≤ j < lo + Z.of_nat n ∧ B j g) s (iter_up n lo 1 f s).
Proof.
  revert lo s. induction n as [|n IH]; intros lo s Hf; cbn [iter_up].
  { eapply frees_ext; [|apply frees_none]. intros g. split; [done|]. intros (j & Hj & _). lia. }
  pose proof (Hf lo s ltac:(lia) eq_refl) as F1. eapply frees_ext; [|eapply frees_trans; [exact F1|apply IH]].
  - intros g. split; [intros [Hb|(j & Hj & Hb)]; [exists lo|exists j]; (split; [lia|done])|]. intros (j & Hj & Hb).
    destruct (decide (j = lo)) as [->|]; [by left|right; exists j; split; [lia|done]].
  - intros j s' Hj Hpm. apply Hf; [lia|]. rewrite Hpm. apply F1.
Qed.

(** ** A whole subtree *)

(** The frames of the subtree of depth [n] at [t]. *)
Definition below (m : mem) (n : nat) (t g : Z) : Prop :=
  ∃ q t', Forall idx_ok q ∧ (length q ≤ n)%nat ∧ table_at m t q = Some t' ∧ frame_of t' = g.

Lemma below_O m t g : below m 0 t g ↔ frame_of t = g.
Proof.
  split; [|by exists [], t]. intros (q & t' & _ & Hl & E & <-). destruct q; [by injection E as ->|simpl in Hl; lia].
Qed.

Lemma below_S m n t g : below m (S n) t g ↔ frame_of t = g ∨
  ∃ i, idx_ok i ∧ present (entry m t i) && negb (huge (entry m t i)) = true ∧ below m n (entry_phys (entry m t i)) g.
Proof.
  split.
  - intros (q & t' & Hq & Hl & E & <-). destruct q as [|i q]; [left; by injection E as ->|right]. apply Forall_cons in Hq as [Hi Hq].
    cbn [table_at] in E. case_match eqn:Hb; [|done]. exists i. split; [done|]. split; [done|]. exists q, t'. simpl in Hl. split_and!; [done|lia|done|done].
  - intros [<-|(i & Hi & Hb & q & t' & Hq & Hl & E & <-)]; [by exists [], t; split_and!; [|simpl; lia| |]|].
    exists (i :: q), t'. split; [by constructor|]. split; [simpl; lia|]. split; [|done]. cbn [table_at]. by rewrite Hb.
Qed.

(** Freeing what the present entries of a table lead to, and the table. *)
Lemma frees_table n t s (f : Z → Vmm A → Vmm A) :
  (∀ j s', idx_ok j → pm s' = pm s →
    if present (entry (pm s) t j) && negb (huge (entry (pm s) t j)) then frees (below (pm s) n (entry_phys (entry (pm s) t j))) s' (f j s') else f j s' = s') →
  frees (below (pm s) (S n) t) s (free t (iter_up 512 0 1 f s)).
Proof using H0.
  intros Hf. set (B := λ (i g : Z), present (entry (pm s) t i) && negb (huge (entry (pm s) t i)) = true ∧ below (pm s) n (entry_phys (entry (pm s) t i)) g).
  apply (frees_ext (λ g, (∃ j, 0 ≤ j < 0 + Z.of_nat 512 ∧ B j g) ∨ frame_of t = g)); [intros g; rewrite below_S; unfold B, idx_ok; naive_solver|].
  eapply frees_trans; [|apply free_frees]. apply (frees_iter B). intros j s' Hj Hpm. specialize (Hf j s' Hj Hpm). unfold B.
  destruct (_ && _); [eapply frees_ext; [|exact Hf]; intros g; naive_solver|]. rewrite Hf. eapply frees_ext; [|apply frees_none]. intros g. naive_solver.
Qed.

Lemma free_table_frees level t s : frees (below (pm s) (S level) t) s (free_table level t s).
Proof using H0.
  revert t s. induction level as [|level IH]; intros t s; cbn [free_table]; apply frees_table; intros j s' Hj Hpm; rewrite Hpm.
  all: destruct (present _); cbn [negb orb andb]; [|done].
  all: destruct (huge _); cbn [negb]; [done|].
  - eapply frees_ext; [|apply free_frees]. intros g. by rewrite below_O.
  - rewrite <-Hpm. apply IH.
Qed.

(** ** The whole space *)

Definition owned s (root g : Z) : Prop := ∃ q t, node s root q t ∧ frame_of t = g.

(** What lies below entry [i] of the PML4. *)
Definition owned_at s (root i g : Z) : Prop := ∃ q t, node s root (i :: q) t ∧ frame_of t = g.

Lemma owned_split s root g : owned s root g ↔ frame_of root = g ∨ ∃ i, idx_ok i ∧ owned_at s root i g.
Proof.
  split.
  - intros ([|i q] & t & Hn & <-); [left; by destruct Hn as (_ & _ & [= ->])|right]. exists i. split; [|by exists q, t].
    destruct Hn as ([Hf _] & _). by apply Forall_cons in Hf as [? _].
  - intros [<-|(i & _ & q & t & Hn & <-)]; [exists [], root|exists (i :: q), t]; (split; [|done]); [apply root_node|done].
Qed.

(** A slot that is the space's own. *)
Lemma owned_slot s root i g : space root s → i ≠ 0 → shared_slot i = false → idx_ok i →
  owned_at s root i g ↔ present (entry (pm s) root i) = true ∧ below (pm s) 3 (entry_phys (entry (pm s) root i)) g.
Proof.
  intros Hs Hi Hsh Hok. assert (∀ q, Forall idx_ok q → private (i :: q)) as Hpriv.
  { intros q Hq. split; [by constructor|]. by rewrite decide_False. }
  split.
  - intros (q & t & (Hp & Hl & Ht) & <-). cbn [table_at] in Ht. case_match eqn:Hb; [|done]. apply andb_true_iff in Hb as [Hb _]. split; [done|].
    exists q, t. destruct Hp as [Hf _]. apply Forall_cons in Hf as [_ Hf]. simpl in Hl. split_and!; [done|lia|done|done].
  - intros [Hb (q & t & Hq & Hl & Ht & <-)]. exists q, t. split; [|done]. split; [by apply Hpriv|]. split; [simpl; lia|]. cbn [table_at].
    rewrite Hb, (sp_huge _ _ Hs [] i root (root_node _ _)); [done|by apply (Hpriv [])|simpl; lia|done].
Qed.

Lemma shared_owned s root i g : shared_slot i = true → ¬ owned_at s root i g.
Proof.
  intros Hsh (q & t & ([_ Hp] & _) & _). case_decide; [|congruence]. subst i. done.
Qed.

(** What a page directory of the low slot leads to, in its window. *)
Definition in_directory s (j pd g : Z) : Prop :=
  frame_of pd = g ∨ (j = 0 ∧ ∃ k, idx_ok k ∧ in_window (Z.shiftl k 21) = true ∧ present (entry (pm s) pd k) = true ∧
    below (pm s) 1 (entry_phys (entry (pm s) pd k)) g).

Lemma owned_zero s root g : space root s → let pdpt := entry_phys (entry (pm s) root 0) in
  owned_at s root 0 g ↔ present (entry (pm s) root 0) = true ∧ (frame_of pdpt = g ∨
    ∃ j, 0 ≤ j < 4 ∧ present (entry (pm s) pdpt j) = true ∧ in_directory s j (entry_phys (entry (pm s) pdpt j)) g).
Proof.
  intros Hs pdpt.
  assert (private [0]) as P1 by (split; [idx_forall|done]).
  assert (∀ j, 0 ≤ j < 4 → private [0; j]) as P2 by (intros j Hj; split; [idx_forall|rewrite decide_True by done; lia]).
  assert (∀ k q, idx_ok k → Forall idx_ok q → in_window (Z.shiftl k 21) = true → private (0 :: 0 :: k :: q)) as P3
    by (intros k q Hk Hq Hw; split; [idx_forall|rewrite decide_True by done; by split_and!]).
  assert (present (entry (pm s) root 0) = true → huge (entry (pm s) root 0) = false) as H1'.
  { intros Hp. apply (sp_huge _ _ Hs [] 0 root (root_node _ _)); [done|simpl; lia|done]. }
  assert (present (entry (pm s) root 0) = true → node s root [0] pdpt) as N1.
  { intros Hp. split; [done|]. split; [simpl; lia|]. cbn [table_at]. by rewrite Hp, H1'. }
  assert (∀ j, 0 ≤ j < 4 → present (entry (pm s) root 0) = true → present (entry (pm s) pdpt j) = true → huge (entry (pm s) pdpt j) = false) as H2'.
  { intros j Hj Hp Hpj. apply (sp_huge _ _ Hs [0] j pdpt (N1 Hp)); [by apply P2|simpl; lia|done]. }
  assert (∀ j, 0 ≤ j < 4 → present (entry (pm s) root 0) = true → present (entry (pm s) pdpt j) = true → node s root [0; j] (entry_phys (entry (pm s) pdpt j))) as N2.
  { intros j Hj Hp Hpj. split; [by apply P2|]. split; [simpl; lia|]. cbn [table_at]. rewrite Hp, H1' by done. cbn [andb negb]. fold pdpt. by rewrite Hpj, (H2' j). }
  split.
  - intros (q & t & (Hp & Hl & Ht) & <-). cbn [table_at] in Ht. case_match eqn:Hb; [|done]. apply andb_true_iff in Hb as [Hb _]. split; [done|]. fold pdpt in Ht.
    destruct q as [|j q]; [left; by injection Ht as ->|right]. cbn [table_at] in Ht. destruct Hp as [Hf Hp]. rewrite decide_True in Hp by done.
    destruct Hp as [Hj Hp]. apply Forall_cons in Hf as [_ [Hj0 Hf]%Forall_cons]. unfold idx_ok in Hj0. case_match eqn:Hbj; [|done]. apply andb_true_iff in Hbj as [Hbj _].
    exists j. split; [lia|]. split; [done|]. destruct q as [|k q]; [left; by injection Ht as ->|right]. destruct Hp as [-> Hw]. split; [done|].
    apply Forall_cons in Hf as [Hk Hf]. exists k. cbn [table_at] in Ht. case_match eqn:Hbk; [|done]. apply andb_true_iff in Hbk as [Hbk _].
    split_and!; [done..|]. exists q, t. simpl in Hl. split_and!; [done|lia|done|done].
  - intros [Hb [<-|(j & Hj & Hbj & [<-|(-> & k & Hk & Hw & Hbk & q & t & Hq & Hl & Ht & <-)])]].
    + exists [], pdpt. split; [by apply N1|done].
    + exists [j], (entry_phys (entry (pm s) pdpt j)). split; [by apply N2|done].
    + exists (0 :: k :: q), t. split; [|done]. split; [by apply P3|]. split; [simpl; lia|]. destruct (N2 0 ltac:(lia) Hb Hbj) as (_ & _ & Hpd).
      change (0 :: 0 :: k :: q) with ([0; 0] ++ k :: q). rewrite table_at_app, Hpd. cbn [mbind option_bind table_at].
      rewrite Hbk, (sp_huge _ _ Hs [0; 0] k _ (N2 0 ltac:(lia) Hb Hbj)); [done|by apply (P3 k [])|simpl; lia|done].
Qed.

Lemma destroy_pd_frees s s' pdpt j : pm s' = pm s → 
  frees (λ g, present (entry (pm s) pdpt j) = true ∧ in_directory s j (entry_phys (entry (pm s) pdpt j)) g) s' (destroy_pd pdpt j s').
Proof using H0.
  intros Hpm. unfold destroy_pd. rewrite Hpm. destruct (present (entry (pm s) pdpt j)) eqn:Hb; cbn [negb].
  2: { eapply frees_ext; [|apply frees_none]. intros g. naive_solver. }
  set (pd := entry_phys (entry (pm s) pdpt j)).
  apply (frees_ext (λ g, (j = 0 ∧ ∃ k, 0 ≤ k < 0 + Z.of_nat 512 ∧ in_window (Z.shiftl k 21) = true ∧ present (entry (pm s) pd k) = true ∧
    below (pm s) 1 (entry_phys (entry (pm s) pd k)) g) ∨ frame_of pd = g)).
  { intros g. unfold in_directory, idx_ok. naive_solver. }
  eapply frees_trans; [|apply free_frees]. destruct (Z.eqb_spec j 0) as [->|Hj].
  2: { eapply frees_ext; [|apply frees_none]. intros g. naive_solver. }
  eapply frees_ext; [|apply (frees_iter (λ k g, in_window (Z.shiftl k 21) = true ∧ present (entry (pm s) pd k) = true ∧ below (pm s) 1 (entry_phys (entry (pm s) pd k)) g))].
  { intros g. naive_solver. }
  intros k s2 Hk Hpm2. rewrite Hpm2, Hpm. destruct (in_window _); cbn [negb]; [|eapply frees_ext; [|apply frees_none]; intros g; naive_solver].
  destruct (present (entry (pm s) pd k)); cbn [negb]; [|eapply frees_ext; [|apply frees_none]; intros g; naive_solver].
  eapply frees_ext; [|apply free_table_frees]. intros g. rewrite Hpm2, Hpm. naive_solver.
Qed.

(** [destroy_address_space] gives back exactly the frames the space owns, shared tables and
    the pages behind them are left alone. *)
Lemma destroy_frees cr3 s :
  space (Z.land cr3 PHYS_MASK) s → frees (owned s (Z.land cr3 PHYS_MASK)) s (destroy_address_space cr3 s).
Proof using H0.
  set (root := Z.land cr3 PHYS_MASK). intros Hs. unfold destroy_address_space. fold root.
  apply (frees_ext (λ g, (owned_at s root 0 g ∨ ∃ i, 1 ≤ i < 1 + Z.of_nat 511 ∧ owned_at s root i g) ∨ frame_of root = g)).
  { intros g. rewrite owned_split. unfold idx_ok. split; [intros [[Ho|(i & Hi & Ho)]|?]; [right; exists 0|right; exists i|by left]; (split; [lia|done])|].
    intros [?|(i & Hi & Ho)]; [by right|left]. destruct (decide (i = 0)) as [->|]; [by left|right; exists i; split; [lia|done]]. }
  set (s1 := if present (entry (pm s) root 0) then destroy_pml4_slot0 (entry_phys (entry (pm s) root 0)) s else s).
  eapply frees_trans; [|apply free_frees]. assert (pm s1 = pm s ∧ frees (owned_at s root 0) s s1) as [Hpm1 F1]; [|apply (frees_trans _ _ s s1); [done|]].
  - enough (frees (owned_at s root 0) s s1) as F by (split; [apply F|done]). unfold s1. destruct (present (entry (pm s) root 0)) eqn:Hb.
    2: { eapply frees_ext; [|apply frees_none]. intros g. rewrite owned_zero by done. split; [done|]. intros [? _]. congruence. }
    unfold destroy_pml4_slot0. set (pdpt := entry_phys (entry (pm s) root 0)).
    apply (frees_ext (λ g, (∃ j, 0 ≤ j < 0 + Z.of_nat 4 ∧ present (entry (pm s) pdpt j) = true ∧ in_directory s j (entry_phys (entry (pm s) pdpt j)) g) ∨ frame_of pdpt = g)).
    { intros g. rewrite owned_zero by done. cbv zeta. fold pdpt. tauto. }
    eapply frees_trans; [|apply free_frees].
    apply (frees_iter (λ j g, present (entry (pm s) pdpt j) = true ∧ in_directory s j (entry_phys (entry (pm s) pdpt j)) g)).
    intros j s' _ Hpm. by apply destroy_pd_frees.
  - clearbody s1. apply (frees_iter (owned_at s root)). intros i s' Hi Hpm. rewrite Hpm, Hpm1. fold (shared_slot i).
    destruct (shared_slot i) eqn:Hsh; [eapply frees_ext; [|apply frees_none]; intros g; split; [done|by apply shared_owned]|].
    destruct (present (entry (pm s) root i)) eqn:Hb; cbn [negb].
    + eapply frees_ext; [|apply free_table_frees]. intros g. rewrite (owned_slot s root i) by (done || lia || (unfold idx_ok; lia)). rewrite Hpm, Hpm1. tauto.
    + eapply frees_ext; [|apply frees_none]. intros g. rewrite (owned_slot s root i) by (done || lia || (unfold idx_ok; lia)). split; [done|]. intros [? _]. congruence.
Qed.

End destroy.

(** ** A new space *)

Section create.
Context {A : Type} `{FrameAllocLaws A}.
Implicit Type s : Vmm A.

(** The frames at [fs] were taken since [s0], and only they were written. *)
Record fresh_from s0 (fs : list Z) s : Prop := {
  ff_frames f : f ∈ fs → is_frame f ∧ fa_used (fa s0) (frame_of f) = false;
  ff_distinct : NoDup fs;
  ff_used g : fa_used (fa s) g = true ↔ fa_used (fa s0) g = true ∨ ∃ f, f ∈ fs ∧ frame_of f = g;
  ff_mem x : (∀ f, f ∈ fs → frame_of x ≠ frame_of f) → pm s x = pm s0 x;
  ff_regs : cr3 s = cr3 s0 ∧ g_kernel_pml4 s = g_kernel_pml4 s0;
}.

Lemma fresh_refl s : fresh_from s [] s.
Proof.
  assert (∀ f : Z, f ∉ []) as Hnil by apply not_elem_of_nil. split; [intros f Hf; by destruct (Hnil f)|apply NoDup_nil_2| |done|done].
  intros g. split; [by left|]. intros [Hu|(f & Hf & _)]; [exact Hu|by destruct (Hnil f)].
Qed.

Lemma fresh_alloc s0 fs s s' f : fresh_from s0 fs s → alloc s = Ok (s', f) → fresh_from s0 (f :: fs) s' ∧ pm s' = pm s.
Proof using H0.
  intros [Hf Hd Hu Hm [Hc Hg]] E. destruct (alloc_taken s s' f E) as [[Tf Tn Tu Tm [Tc Tg]] Hpm].
  assert (fa_used (fa s0) (frame_of f) = false ∧ ∀ f', f' ∈ fs → frame_of f' ≠ frame_of f) as [Hn0 Hnf].
  { rewrite <-!not_true_iff_false, Hu in Tn. split; [apply not_true_iff_false; intros E'; apply Tn; by left|]. intros f' Hf' E'. apply Tn. right. by exists f'. }
  split; [|done]. split.
  - intros f' [->|Hin]%elem_of_cons; auto.
  - constructor; [|done]. intros Hin. by apply (Hnf f).
  - intros g. rewrite Tu, orb_true_iff, Z.eqb_eq, Hu. split; [intros [<-|[?|(f' & ? & <-)]]|intros [?|(f' & [->|?]%elem_of_cons & <-)]].
    + right. exists f. split; [apply list_elem_of_here|done].
    + by left.
    + right. exists f'. split; [by apply list_elem_of_further|done].
    + right. by left.
    + by left.
    + right. right. by exists f'.
  - intros x Hx. rewrite Hpm. apply Hm. intros f' Hf'. apply Hx. by apply list_elem_of_further.
  - split; congruence.
Qed.

Lemma fresh_write s0 fs s m f : fresh_from s0 fs s → f ∈ fs → (∀ x, frame_of x ≠ frame_of f → m x = pm s x) → fresh_from s0 fs (with_pm m s).
Proof. intros [Hf Hd Hu Hm Hr] Hin Hw. split; [done..| |done]. intros x Hx. cbn. rewrite Hw by auto. by apply Hm. Qed.

(** Entries of the other new frames, and of everything that was in use. *)
Lemma fresh_entry s0 fs s t i : fresh_from s0 fs s → is_frame t → fa_used (fa s0) (frame_of t) = true → idx_ok i → entry (pm s) t i = entry (pm s0) t i.
Proof. intros [Hf _ _ Hm _] Ht Hu Hi. apply entry_mem_ext; [done..|]. intros x Hx. apply Hm. intros f Hin E. destruct (Hf f Hin). congruence. Qed.

Lemma fresh_ne s0 fs s t f : fresh_from s0 fs s → f ∈ fs → is_frame t → t ≠ f → frame_of t ≠ frame_of f.
Proof. intros Hs Hin Ht Hne E. apply Hne, frame_inj; [done|by apply (ff_frames _ _ _ Hs)|done]. Qed.

(** What the kernel's tables must be: those below the low slot, the heap's and the physmap's
    are trees of frames in use. *)
Record kernel_ok s : Prop := {
  ko_bytes : mem_ok (pm s);
  ko_tree i : i = 0 ∨ shared_slot i = true → tree_ok (λ j, j = i) (g_kernel_pml4 s) s;
}.

Definition RWU (t : Z) : Z := Z.lor (Z.lor (Z.lor t PRESENT) WRITABLE) USER.

Lemma RWU_link t : is_frame t → present (RWU t) = true ∧ huge (RWU t) = false ∧ entry_phys (RWU t) = t ∧ is_u64 (RWU t).
Proof.
  intros Ht. unfold RWU. rewrite <-!Z.lor_assoc. change (Z.lor PRESENT (Z.lor WRITABLE USER)) with 7.
  destruct (link_entry t 7 Ht) as (-> & -> & ->); [lia|done|]. split_and!; [done..|]. destruct (is_frame_bounds t Ht) as [Hb _]. apply bounded_by_bits; [lia|apply Z.lor_nonneg; lia|].
  intros i Hi. rewrite Z.lor_spec, (testbit_high t 32), (testbit_high 7 3) by lia. done.
Qed.

Lemma zero_entry t s i : idx_ok i → entry (pm (zero_table t s)) t i = 0.
Proof. intros Hi. unfold zero_table. cbn [pm with_pm]. apply (store_words_same 512 0 t (λ _, 0)); [unfold idx_ok in Hi; lia|done]. Qed.

(** The directories of the low slot, those below [n] made. *)
Record dirs s0 (r pdpt : Z) (rt : Z → Z) (n : Z) (pdf : Z → option Z) (fs : list Z) s : Prop := {
  di_fresh : fresh_from s0 fs s;
  di_list f : f ∈ fs ↔ f = r ∨ f = pdpt ∨ ∃ i, 0 ≤ i < n ∧ pdf i = Some f;
  di_ne i f : 0 ≤ i < n → pdf i = Some f → f ≠ r ∧ f ≠ pdpt;
  di_inj i i' f : 0 ≤ i < n → 0 ≤ i' < n → pdf i = Some f → pdf i' = Some f → i = i';
  di_pdpt i : idx_ok i → entry (pm s) pdpt i = if decide (i < n) then match pdf i with Some f => RWU f | None => 0 end else 0;
  di_root i : idx_ok i → entry (pm s) r i = rt i;
}.

Definition kpdpt s : Z := entry_phys (entry (pm s) (g_kernel_pml4 s) 0).
Definition kpd s (j : Z) : Z := entry_phys (entry (pm s) (kpdpt s) j).

Lemma kernel_dirs s j : kernel_ok s → present (entry (pm s) (g_kernel_pml4 s) 0) = true → 0 ≤ j < 512 →
  (is_frame (kpdpt s) ∧ fa_used (fa s) (frame_of (kpdpt s)) = true) ∧
  (present (entry (pm s) (kpdpt s) j) = true → huge (entry (pm s) (kpdpt s) j) = false ∧ is_frame (kpd s j) ∧ fa_used (fa s) (frame_of (kpd s j)) = true).
Proof.
  intros [_ Hk] Hp Hj. specialize (Hk 0 (or_introl eq_refl)). set (P := λ j, j = 0) in Hk.
  assert (ok_path P [0]) as P1 by (split; [idx_forall|done]). assert (ok_path P [0; j]) as P2 by (split; [idx_forall|done]).
  pose proof (ok_huge _ _ _ Hk [] 0 _ P1 ltac:(simpl; lia) eq_refl Hp) as H4.
  assert (table_at (pm s) (g_kernel_pml4 s) [0] = Some (kpdpt s)) as T1 by (cbn [table_at]; by rewrite Hp, H4).
  split; [apply (ok_table _ _ _ Hk [0]); [done|simpl; lia|done]|]. intros Hpj.
  pose proof (ok_huge _ _ _ Hk [0] j _ P2 ltac:(simpl; lia) T1 Hpj) as H3. split; [done|].
  apply (ok_table _ _ _ Hk [0; j]); [done|simpl; lia|]. cbn [table_at]. rewrite Hp, H4. cbn [andb negb]. fold (kpdpt s). by rewrite Hpj, H3.
Qed.

(** What the directories hold. *)
Definition filled s0 (n : Z) (pdf : Z → option Z) s : Prop := ∀ i, 0 ≤ i < n →
  (present (entry (pm s0) (g_kernel_pml4 s0) 0) && present (entry (pm s0) (kpdpt s0) i) = true ↔ is_Some (pdf i)) ∧
  ∀ f k, pdf i = Some f → idx_ok k → entry (pm s) f k = share_pd_entry (kpd s0 i) i k (pm s0).

(** A directory that the kernel does not have. *)
Lemma share_pd_absent s0 r pdpt rt n pdf fs s :
  0 ≤ n < 4 → present (entry (pm s0) (kpdpt s0) n) = false → dirs s0 r pdpt rt n pdf fs s → filled s0 n pdf s →
  ∃ pdf' fs', dirs s0 r pdpt rt (n + 1) pdf' fs' s ∧ filled s0 (n + 1) pdf' s.
Proof.
  intros Hn Hb [Dfr Dl Dne Dinj Dp Dr] Hfill.
  exists (λ i, if decide (i = n) then None else pdf i), fs. split; [split|].
  - done.
  - intros f. rewrite Dl. split; (intros [?|[?|(i & Hi & E)]]; [by left|by right; left|right; right]).
    + exists i. rewrite decide_False by lia. split; [lia|done].
    + case_decide; [done|]. exists i. split; [lia|done].
  - intros i f Hi. case_decide; [done|]. apply Dne. lia.
  - intros i i' f Hi Hi'. repeat case_decide; try done. apply Dinj; lia.
  - intros i Hi. rewrite Dp by done. destruct (decide (i = n)) as [->|]; [by rewrite decide_False, decide_True by lia|].
    by repeat (case_decide; try lia).
  - done.
  - intros i Hi. case_decide; [subst; rewrite Hb, andb_false_r; split; [by split; [|intros [? ?]]|done]|]. apply Hfill. lia.
Qed.

(** A copy of one that the kernel has, in the frame [f]. *)
Lemma share_pd_present s0 r pdpt rt n pdf fs s s1 f :
  kernel_ok s0 → present (entry (pm s0) (g_kernel_pml4 s0) 0) = true → 0 ≤ n < 4 → dirs s0 r pdpt rt n pdf fs s → filled s0 n pdf s →
  r ≠ pdpt → present (entry (pm s0) (kpdpt s0) n) = true → alloc s = Ok (s1, f) →
  let w := λ i, share_pd_entry (kpd s0 n) n i (pm s1) in let s2 := with_pm (store_words 512 0 f w (pm s1)) s1 in
  ∃ pdf' fs', dirs s0 r pdpt rt (n + 1) pdf' fs' (with_pm (set_entry (pm s2) pdpt n (RWU f)) s2) ∧
    filled s0 (n + 1) pdf' (with_pm (set_entry (pm s2) pdpt n (RWU f)) s2).
Proof using H0.
  intros Hk Hp Hn D Hfill Hrp Hb Ea w s2. pose proof D as [Dfr Dl Dne Dinj Dp Dr]. destruct (kernel_dirs s0 n Hk Hp ltac:(lia)) as [_ Hpd].
  destruct (Hpd Hb) as (Hh & HFd & HUd).
  destruct (fresh_alloc s0 fs s s1 f Dfr Ea) as [F1 Epm]. set (s3 := with_pm _ s2).
  destruct (ff_frames _ _ _ F1 f (list_elem_of_here _ _)) as [HFf HUf]. pose proof (ff_distinct _ _ _ F1) as [Hnf _]%NoDup_cons.
  assert (f ≠ r ∧ f ≠ pdpt) as [Hfr Hfp] by (split; intros ->; apply Hnf, Dl; tauto).
  assert (pdpt ∈ fs) as Hin by (apply Dl; tauto). assert (∀ t, t ∈ fs → is_frame t ∧ frame_of t ≠ frame_of f) as Hfs.
  { intros t Ht. destruct (ff_frames _ _ _ Dfr t Ht) as [HFt _]. split; [done|]. intros E. apply Hnf. by rewrite (frame_inj f t). }
  assert (fresh_from s0 (f :: fs) s2) as F2 by (apply (fresh_write s0 (f :: fs) s1 _ f F1); [apply list_elem_of_here|intros x Hx; by apply store_words_frame]).
  assert (fresh_from s0 (f :: fs) s3) as F3.
  { apply (fresh_write s0 (f :: fs) s2 _ pdpt F2); [by apply list_elem_of_further|]. intros x Hx. apply set_entry_frame; [by apply Hfs|unfold idx_ok; lia|done]. }
  assert (∀ t i, t ∈ fs → idx_ok i → entry (pm s2) t i = entry (pm s) t i) as He2.
  { intros t i Ht Hi. destruct (Hfs t Ht) as [HFt Hnt]. rewrite <-Epm. apply entry_mem_ext; [done..|]. intros x Hx. apply store_words_frame; [done|congruence]. }
  assert (∀ t i, is_frame t → idx_ok i → (t, i) ≠ (pdpt, n) → entry (pm s3) t i = entry (pm s2) t i) as He3.
  { intros t i Ht Hi Hne. apply entry_set_other; [by apply Hfs|done|unfold idx_ok; lia|done|congruence]. }
  assert (∀ k, idx_ok k → entry (pm s3) f k = share_pd_entry (kpd s0 n) n k (pm s0)) as Hef.
  { intros k Hk'. rewrite He3; [|done|done|congruence]. assert (w k = share_pd_entry (kpd s0 n) n k (pm s0)) as Ew.
    { unfold w, share_pd_entry. by rewrite (fresh_entry s0 (f :: fs)). }
    rewrite <-Ew. apply (store_words_same 512 0 f w (pm s1)); [unfold idx_ok in Hk'; lia|]. rewrite Ew. unfold share_pd_entry.
    case_match; [|done]. apply (load_bound 8), Hk. }
  exists (λ i, if decide (i = n) then Some f else pdf i), (f :: fs). split; [split|].
  - done.
  - intros t. rewrite elem_of_cons, Dl. split.
    + intros [->|[?|[?|(i & Hi & E)]]]; [right; right; exists n; rewrite decide_True by done; split; [lia|done]|by left|by right; left|].
      right. right. exists i. rewrite decide_False by lia. split; [lia|done].
    + intros [?|[?|(i & Hi & E)]]; [by right; left|by right; right; left|]. case_decide; [left; congruence|]. right. right. right. exists i. split; [lia|done].
  - intros i t Hi. case_decide; [intros [= <-]; done|]. apply Dne. lia.
  - intros i i' t Hi Hi' E1 E2. repeat case_decide; try congruence; [..|by eapply Dinj; [lia|lia| |]].
    all: simplify_eq; destruct Hnf; apply Dl; right; right; eexists; (split; [|eassumption]); lia.
  - intros i Hi. destruct (decide (i = n)) as [->|Hne].
    + rewrite decide_True by lia. unfold s3. cbn [pm with_pm]. rewrite entry_set_same. apply u64_small. by apply RWU_link.
    + rewrite He3, He2, Dp by (done || congruence || apply Hfs, Hin). by repeat (case_decide; try lia).
  - intros i Hi. rewrite He3, He2, Dr; [done|done|apply Dl; tauto|done|apply Hfs, Dl; tauto|done|congruence].
  - intros i Hi. case_decide as Hd.
    + subst i. rewrite Hp, Hb. split; [by split|]. intros t k [= <-] Hk'. by apply Hef.
    + destruct (Hfill i ltac:(lia)) as [Hf1 Hf2]. split; [done|]. intros t k E Hk'.
      assert (t ∈ fs) as Ht by (apply Dl; right; right; exists i; split; [lia|done]). destruct (Dne i t ltac:(lia) E) as [_ Htp].
      rewrite He3, He2; [by apply Hf2|done|done|by apply Hfs|done|congruence].
Qed.

Lemma share_pd_step s0 r pdpt rt n pdf fs s :
  kernel_ok s0 → present (entry (pm s0) (g_kernel_pml4 s0) 0) = true → 0 ≤ n < 4 → dirs s0 r pdpt rt n pdf fs s → filled s0 n pdf s →
  r ≠ pdpt →
  ensures (share_pd (kpdpt s0) pdpt n s) (λ s', ∃ pdf' fs', dirs s0 r pdpt rt (n + 1) pdf' fs' s' ∧ filled s0 (n + 1) pdf' s').
Proof using H0.
  intros Hk Hp Hn D Hfill Hrp. destruct (kernel_dirs s0 n Hk Hp ltac:(lia)) as [[HFk HUk] _].
  unfold share_pd. rewrite (fresh_entry s0 fs) by (done || (unfold idx_ok; lia) || apply D).
  destruct (present (entry (pm s0) (kpdpt s0) n)) eqn:Hb; cbn [negb]; [|cbn [ensures]; by apply (share_pd_absent s0 r pdpt rt n pdf fs)].
  destruct (alloc s) as [[s1 f]| | |] eqn:Ea; try (by destruct (alloc_total s) as [[? E]|E]; rewrite E in Ea).
  cbn [mbind res_bind ensures]. fold (kpd s0 n). fold (RWU f). by apply (share_pd_present s0 r pdpt rt n pdf fs s).
Qed.

Lemma iter_upM_ensures {S} (P : Z → S → Prop) n lo (f : Z → S → Res S) x :
  P lo x → (∀ j y, lo ≤ j < lo + Z.of_nat n → P j y → ensures (f j y) (P (j + 1))) → ensures (iter_upM n lo 1 f x) (P (lo + Z.of_nat n)).
Proof using Type.
  clear. revert lo x. induction n as [|n IH]; intros lo x Hx Hf; cbn [iter_upM ensures]; [by rewrite Z.add_0_r|].
  eapply ensures_bind; [apply Hf; [lia|done]|]. intros y Hy. replace (lo + Z.of_nat (Datatypes.S n)) with (lo + 1 + Z.of_nat n) by lia.
  apply IH; [done|]. intros j z Hj. apply Hf. lia.
Qed.

(** The entries of the PML4 of a new space. *)
Definition root_entry s0 (pdpt i : Z) : Z :=
  if decide (i = 0) then RWU pdpt else if shared_slot i then entry (pm s0) (g_kernel_pml4 s0) i else 0.

Lemma kernel_root s : kernel_ok s → is_frame (g_kernel_pml4 s) ∧ fa_used (fa s) (frame_of (g_kernel_pml4 s)) = true.
Proof. intros [_ Hk]. apply (ok_table _ _ _ (Hk 0 (or_introl eq_refl)) []); [by split|simpl; lia|done]. Qed.

(** The new PML4, with the slots it shares. *)
Lemma root_shared s0 s1 r : kernel_ok s0 → fresh_from s0 [r] s1 →
  let s2 := zero_table r s1 in
  let s3 := with_pm (set_entry (pm s2) r HEAP_PML4_IDX (entry (pm s2) (g_kernel_pml4 s0) HEAP_PML4_IDX)) s2 in
  let s4 := with_pm (set_entry (pm s3) r PHYSMAP_PML4_IDX (entry (pm s3) (g_kernel_pml4 s0) PHYSMAP_PML4_IDX)) s3 in
  fresh_from s0 [r] s4 ∧ ∀ i, idx_ok i → entry (pm s4) r i = if shared_slot i then entry (pm s0) (g_kernel_pml4 s0) i else 0.
Proof.
  intros Hk F1 s2 s3 s4. set (kr := g_kernel_pml4 s0) in *. destruct (kernel_root s0 Hk) as [HFk HUk].
  destruct (ff_frames _ _ _ F1 r (list_elem_of_here _ _)) as [HFr HUr].
  assert (∀ s i v, fresh_from s0 [r] s → idx_ok i → fresh_from s0 [r] (with_pm (set_entry (pm s) r i v) s)) as Hset.
  { intros s i v F Hi. apply (fresh_write s0 [r] s _ r F (list_elem_of_here _ _)). intros x Hx. by apply set_entry_frame. }
  assert (fresh_from s0 [r] s2) as F2 by (apply (fresh_write s0 [r] s1 _ r F1 (list_elem_of_here _ _)); intros x Hx; by apply store_words_frame).
  assert (idx_ok HEAP_PML4_IDX ∧ idx_ok PHYSMAP_PML4_IDX) as [IH IP] by (split; vm_compute; split; congruence).
  pose proof (Hset s2 HEAP_PML4_IDX (entry (pm s2) kr HEAP_PML4_IDX) F2 IH) as F3. fold s3 in F3.
  pose proof (Hset s3 PHYSMAP_PML4_IDX (entry (pm s3) kr PHYSMAP_PML4_IDX) F3 IP) as F4. fold s4 in F4. split; [done|].
  assert (∀ s j, fresh_from s0 [r] s → idx_ok j → entry (pm s) kr j = entry (pm s0) kr j) as Hkr by (intros s j F Hj; by apply (fresh_entry s0 [r])).
  assert (∀ j, idx_ok j → is_u64 (entry (pm s0) kr j)) as Hu64 by (intros; apply (load_bound 8), Hk).
  pose proof (Hkr s2 _ F2 IH) as K2. pose proof (Hkr s3 _ F3 IP) as K3.
  assert (∀ i, idx_ok i → entry (pm s2) r i = 0) as Z2 by (intros; by apply zero_entry).
  intros i Hi. unfold shared_slot. change (pm s4) with (set_entry (pm s3) r PHYSMAP_PML4_IDX (entry (pm s3) kr PHYSMAP_PML4_IDX)). rewrite K3. clear K3 F4 F3 s4.
  destruct (Z.eqb_spec i PHYSMAP_PML4_IDX) as [->|Hp]; [rewrite orb_true_r, entry_set_same; by apply u64_small, Hu64|].
  rewrite (entry_set_other _ r PHYSMAP_PML4_IDX) by (done || congruence).
  change (pm s3) with (set_entry (pm s2) r HEAP_PML4_IDX (entry (pm s2) kr HEAP_PML4_IDX)). rewrite K2. clear K2 F2 s3. clearbody s2.
  destruct (Z.eqb_spec i HEAP_PML4_IDX) as [->|Hh]; cbn [orb].
  - rewrite entry_set_same. by apply u64_small, Hu64.
  - rewrite entry_set_other by (done || congruence). by apply Z2.
Qed.

Lemma create_dirs s0 :
  kernel_ok s0 → ensures (create_address_space s0) (λ '(s, r), ∃ pdpt pdf fs,
    dirs s0 r pdpt (root_entry s0 pdpt) 4 pdf fs s ∧ filled s0 4 pdf s ∧ r ≠ pdpt).
Proof using H0.
  intros Hk. destruct (kernel_root s0 Hk) as [HFk HUk]. unfold create_address_space.
  assert (∀ s, alloc s = Halt ∨ ∃ s' f, alloc s = Ok (s', f)) as Htotal by (intros s; destruct (alloc_total s) as [[[s' f] E]|E]; [right; by exists s', f|by left]).
  destruct (Htotal s0) as [->|(s1 & r & Ea)]; [done|]. rewrite Ea. cbn [mbind res_bind].
  destruct (fresh_alloc s0 [] s0 s1 r (fresh_refl s0) Ea) as [F1 _]. destruct (ff_frames _ _ _ F1 r (list_elem_of_here _ _)) as [HFr HUr].
  change (g_kernel_pml4 (zero_table r s1)) with (g_kernel_pml4 s1). destruct (ff_regs _ _ _ F1) as [_ ->].
  destruct (root_shared s0 s1 r Hk F1) as [F4 E4]. set (s4 := with_pm _ (with_pm _ (zero_table r s1))) in *. set (kr := g_kernel_pml4 s0) in *. clearbody s4.
  destruct (Htotal s4) as [->|(s5 & pdpt & Ea5)]; [done|]. rewrite Ea5. cbn [mbind res_bind].
  destruct (fresh_alloc s0 [r] s4 s5 pdpt F4 Ea5) as [F5 Ep5]. destruct (ff_frames _ _ _ F5 pdpt (list_elem_of_here _ _)) as [HFp HUp].
  pose proof (ff_distinct _ _ _ F5) as [Hnp%not_elem_of_cons _]%NoDup_cons. destruct Hnp as [Hpr _].
  assert (frame_of r ≠ frame_of pdpt) as Hframe by (intros E; apply Hpr; symmetry; by apply frame_inj).
  set (s6 := zero_table pdpt s5). assert (fresh_from s0 [pdpt; r] s6) as F6 by (apply (fresh_write s0 [pdpt; r] s5 _ pdpt F5 (list_elem_of_here _ _)); intros x Hx; by apply store_words_frame).
  assert (∀ i, idx_ok i → entry (pm s6) pdpt i = 0) as Zp by (intros; by apply zero_entry).
  assert (∀ i, idx_ok i → entry (pm s6) r i = if shared_slot i then entry (pm s0) kr i else 0) as E6.
  { intros i Hi. rewrite <-E4 by done. rewrite <-Ep5. apply entry_mem_ext; [done..|]. intros x Hx. unfold s6, zero_table. cbn [pm with_pm]. apply store_words_frame; [done|congruence]. }
  assert (dirs s0 r pdpt (λ i, if shared_slot i then entry (pm s0) kr i else 0) 0 (λ _, None) [pdpt; r] s6 ∧ filled s0 0 (λ _, None) s6) as D6.
  { split; [split; try done|intros i Hi; lia].
    - intros f. rewrite !elem_of_cons, elem_of_nil. split; [intros [?|[?|[]]]; [by right; left|by left]|intros [?|[?|(i & Hi & _)]]; [by right; left|by left|lia]].
    - intros i Hi. rewrite Zp by done. by case_decide. }
  rewrite (fresh_entry s0 [pdpt; r] s6 kr 0) by (done || unfold idx_ok; lia).
  clearbody s6. clear Zp E6 F6 Ep5 Ea5 E4 F5 F4 F1 Ea.
  set (rt := λ i, if shared_slot i then entry (pm s0) kr i else 0) in *.
  apply (ensures_bind _ _ (λ s7, ∃ pdf fs, dirs s0 r pdpt rt 4 pdf fs s7 ∧ filled s0 4 pdf s7)).
  { destruct (present (entry (pm s0) kr 0)) eqn:Hp.
    - apply (iter_upM_ensures (λ n s, ∃ pdf fs, dirs s0 r pdpt rt n pdf fs s ∧ filled s0 n pdf s)); [by eexists _, _|].
      intros j y Hj (pdf & fs & D & Hfill). apply (share_pd_step s0 r pdpt rt j pdf fs y); [done|done|lia|done|done|congruence].
    - cbn [ensures]. exists (λ _, None), [pdpt; r]. destruct D6 as [[Df Dl Dn Di Dp Dr] _]. split; [split; try done|].
      + intros f. rewrite Dl. split; (intros [?|[?|(i & Hi & ?)]]; [by left|by right; left|done]).
      + intros i Hi. rewrite Dp by done. by repeat case_decide.
      + intros i Hi. fold kr. rewrite Hp. split; [split; [done|by intros [? ?]]|done]. }
  intros s7 (pdf & fs & [Df Dl Dn Di Dp Dr] & Hfill). fold (RWU pdpt). cbn [ensures]. exists pdpt, pdf, fs.
  assert (r ∈ fs) as Hrin by (apply Dl; by left). assert (idx_ok 0) as H0' by (unfold idx_ok; lia).
  assert (∀ t i, is_frame t → idx_ok i → (t, i) ≠ (r, 0) → entry (set_entry (pm s7) r 0 (RWU pdpt)) t i = entry (pm s7) t i) as He.
  { intros t i Ht Hi Hne. apply entry_set_other; [done..|congruence]. }
  split; [split|split; [|congruence]]; try done.
  - apply (fresh_write s0 fs s7 _ r Df Hrin). intros x Hx. by apply set_entry_frame.
  - intros i Hi. cbn [pm with_pm]. rewrite He by (done || congruence). by apply Dp.
  - intros i Hi. cbn [pm with_pm]. unfold root_entry. case_decide as Hd; [subst; rewrite entry_set_same; apply u64_small; by apply RWU_link|].
    rewrite He by (done || congruence). by apply Dr.
  - intros i Hi. destruct (Hfill i Hi) as [Hf1 Hf2]. split; [done|]. intros f k E Hk'. cbn [pm with_pm].
    assert (f ∈ fs) as Hfin by (apply Dl; right; right; by exists i). destruct (Dn i f Hi E) as [Hne _].
    rewrite He; [by apply Hf2|by apply (ff_frames _ _ _ Df)|done|congruence].
Qed.

(** ** What was created *)

(** A space of frames that were free, with no pages yet. *)
Record fresh_space s0 s (r : Z) : Prop := {
  fs_space : space r s;
  fs_root : is_frame r;
  fs_new q t : node s r q t → fa_used (fa s0) (frame_of t) = false;
  fs_short q t : node s r q t → (length q ≤ 2)%nat;
  fs_used g : fa_used (fa s) g = true ↔ fa_used (fa s0) g = true ∨ owned s r g;
  fs_mem x : fa_used (fa s0) (frame_of x) = true → pm s x = pm s0 x;
  fs_regs : cr3 s = cr3 s0 ∧ g_kernel_pml4 s = g_kernel_pml4 s0;
}.

Lemma window_entry s0 j k : in_window (Z.shiftl k 21) = true → j = 0 → share_pd_entry (kpd s0 j) j k (pm s0) = 0.
Proof.
  intros Hw ->. unfold share_pd_entry. change (Z.shiftl 0 30) with 0. rewrite Z.lor_0_l. unfold in_window in Hw. apply negb_true_iff, orb_false_iff in Hw as [H1 H2].
  apply Z.ltb_ge in H1. apply Z.leb_gt in H2. by rewrite (proj2 (Z.leb_le _ _)), (proj2 (Z.ltb_lt _ _)).
Qed.

Lemma new_nodes s0 s r pdpt pdf fs q t :
  dirs s0 r pdpt (root_entry s0 pdpt) 4 pdf fs s → filled s0 4 pdf s →
  node s r q t ↔ (q = [] ∧ t = r) ∨ (q = [0] ∧ t = pdpt) ∨ ∃ j, 0 ≤ j < 4 ∧ q = [0; j] ∧ pdf j = Some t.
Proof.
  intros [Df Dl Dn Di Dp Dr] Hfill. assert (∀ f, f ∈ fs → is_frame f) as Hfr by (intros f Hf; by apply (ff_frames _ _ _ Df)).
  assert (pdpt ∈ fs) as Hpin by (apply Dl; tauto). destruct (RWU_link pdpt (Hfr _ Hpin)) as (L1 & L2 & L3 & _).
  assert (∀ j f, 0 ≤ j < 4 → pdf j = Some f → present (RWU f) = true ∧ huge (RWU f) = false ∧ entry_phys (RWU f) = f) as HL.
  { intros j f Hj E. assert (f ∈ fs) as Hin by (apply Dl; right; right; by exists j). destruct (RWU_link f (Hfr _ Hin)) as (? & ? & ? & _). done. }
  assert (∀ i, idx_ok i → i ≠ 0 → shared_slot i = false → entry (pm s) r i = 0) as Hr0.
  { intros i Hi Hne Hsh. rewrite Dr by done. unfold root_entry. by rewrite decide_False, Hsh. }
  assert (entry (pm s) r 0 = RWU pdpt) as Hr00 by (rewrite Dr by (unfold idx_ok; lia); done).
  assert (∀ j, 0 ≤ j < 4 → entry (pm s) pdpt j = match pdf j with Some f => RWU f | None => 0 end) as Hpj.
  { intros j Hj. rewrite Dp by (unfold idx_ok; lia). by rewrite decide_True by lia. }
  split.
  - intros ([Hq Hp] & Hl & Ht). destruct q as [|i q]; [left; by injection Ht as ->|right]. apply Forall_cons in Hq as [Hi Hq]. cbn [table_at] in Ht.
    case_decide as Hd; [|by rewrite Hr0 in Ht]. subst i. rewrite Hr00, L1, L2, L3 in Ht. cbn [andb negb] in Ht.
    destruct q as [|j q]; [left; by injection Ht as ->|right]. destruct Hp as [Hj Hp]. apply Forall_cons in Hq as [Hj0 Hq]. unfold idx_ok in Hj0.
    cbn [table_at] in Ht. rewrite Hpj in Ht by lia. destruct (pdf j) as [f|] eqn:E; [|done]. destruct (HL j f ltac:(lia) E) as (L1' & L2' & L3').
    rewrite L1', L2', L3' in Ht. cbn [andb negb] in Ht. destruct q as [|k q]; [exists j; injection Ht as ->; split; [lia|done]|]. exfalso.
    destruct Hp as [-> Hw]. apply Forall_cons in Hq as [Hk _]. cbn [table_at] in Ht. destruct (Hfill 0 ltac:(lia)) as [_ Hf]. rewrite (Hf f k E Hk) in Ht.
    by rewrite window_entry in Ht.
  - intros [[-> ->]|[[-> ->]|(j & Hj & -> & E)]].
    + apply root_node.
    + split; [split; [idx_forall|done]|]. split; [simpl; lia|]. cbn [table_at]. by rewrite Hr00, L1, L2, L3.
    + destruct (HL j t Hj E) as (L1' & L2' & L3'). split; [split; [idx_forall|rewrite decide_True by done; lia]|]. split; [simpl; lia|].
      cbn [table_at]. rewrite Hr00, L1, L2, L3. cbn [andb negb]. rewrite Hpj, E by done. by rewrite L1', L2', L3'.
Qed.

Lemma create_fresh s0 s r pdpt pdf fs :
  dirs s0 r pdpt (root_entry s0 pdpt) 4 pdf fs s → filled s0 4 pdf s → r ≠ pdpt → fresh_space s0 s r.
Proof.
  intros D Hfill Hrp. pose proof (λ q t, new_nodes s0 s r pdpt pdf fs q t D Hfill) as Hn. destruct D as [Df Dl Dn Di Dp Dr].
  assert (∀ q t, node s r q t → t ∈ fs) as Hin.
  { intros q t [[_ ->]|[[_ ->]|(j & Hj & _ & E)]]%Hn; apply Dl; [tauto..|right; right; by exists j]. }
  assert (∀ t, t ∈ fs → ∃ q, node s r q t) as Hout.
  { intros t [->|[->|(j & Hj & E)]]%Dl; [exists []|exists [0]|exists [0; j]]; apply Hn; [tauto..|]. right. right. by exists j. }
  assert (∀ t, t ∈ fs → is_frame t ∧ fa_used (fa s) (frame_of t) = true) as Hfr.
  { intros t Ht. split; [by apply (ff_frames _ _ _ Df)|]. apply (ff_used _ _ _ Df). right. by exists t. }
  split.
  - split.
    + intros q t Hq. by apply Hfr, (Hin q).
    + intros q q' t [[-> ->]|[[-> ->]|(j & Hj & -> & E)]]%Hn [[-> E']|[[-> E']|(j' & Hj' & -> & E')]]%Hn; try done; try congruence.
      * by destruct (Dn j' r Hj' E').
      * by destruct (Dn j' pdpt Hj' E').
      * subst t. by destruct (Dn j r Hj E).
      * subst t. by destruct (Dn j pdpt Hj E).
      * by rewrite (Di j j' t).
    + intros q i t Hq Hp Hl Hpr. pose proof (private_last _ _ Hp) as Hi. apply Hn in Hq as [[-> ->]|[[-> ->]|(j & Hj & -> & E)]].
      * rewrite Dr in Hpr |- * by done. unfold root_entry in *. destruct Hp as [_ Hp]. cbn [app] in Hp. case_decide; [|by rewrite Hp in *].
        apply (RWU_link pdpt), Hfr, Dl. tauto.
      * rewrite Dp in Hpr |- * by done. destruct Hp as [_ Hp]. cbn [app] in Hp. rewrite decide_True in Hp by done. destruct Hp as [Hi4 _].
        rewrite decide_True in Hpr |- * by done. destruct (pdf i) as [f|] eqn:E; [|done]. apply (RWU_link f), Hfr, Dl. right. right. exists i. unfold idx_ok in Hi. split; [lia|done].
      * destruct Hp as [_ Hp]. cbn [app] in Hp. rewrite decide_True in Hp by done. destruct Hp as (_ & -> & Hw). destruct (Hfill 0 ltac:(lia)) as [_ Hf].
        rewrite (Hf t i E Hi), window_entry in Hpr by done. done.
  - apply Hfr, Dl. tauto.
  - intros q t Hq. by apply (ff_frames _ _ _ Df), (Hin q).
  - intros q t [[-> _]|[[-> _]|(j & _ & -> & _)]]%Hn; simpl; lia.
  - intros g. rewrite (ff_used _ _ _ Df). split; (intros [?|Hg]; [by left|right]).
    + destruct Hg as (t & Ht & <-). destruct (Hout t Ht) as [q Hq]. by exists q, t.
    + destruct Hg as (q & t & Hq & <-). exists t. split; [by apply (Hin q)|done].
  - intros x Hx. apply (ff_mem _ _ _ Df). intros f Hf E. destruct (ff_frames _ _ _ Df f Hf). congruence.
  - apply Df.
Qed.

(** The kernel's part of the new space translates as the kernel's tables do. *)
Definition borrowed (va : Z) : bool :=
  if decide (pml4_idx va = 0) then (pdpt_idx va <? 4) && negb ((pdpt_idx va =? 0) && in_window (Z.shiftl (pd_idx va) 21))
  else shared_slot (pml4_idx va).

Lemma kernel_entry s0 s i q t j :
  kernel_ok s0 → (∀ x, fa_used (fa s0) (frame_of x) = true → pm s x = pm s0 x) → i = 0 ∨ shared_slot i = true →
  Forall idx_ok (i :: q) → (length q ≤ 2)%nat → table_at (pm s0) (g_kernel_pml4 s0) (i :: q) = Some t → idx_ok j →
  entry (pm s) t j = entry (pm s0) t j.
Proof.
  intros [_ Hk] Hm Hi Hq Hl Ht Hj. destruct (ok_table _ _ _ (Hk i Hi) (i :: q) t) as [Hf Hu]; [by split|simpl; lia|done|].
  apply entry_mem_ext; [done..|]. intros x Hx. apply Hm. by rewrite Hx.
Qed.

Lemma reserved_window j k : 0 ≤ j < 4 → 0 ≤ k < 512 →
  let v := Z.lor (Z.shiftl j 30) (Z.shiftl k 21) in (RESERVED_LOW <=? v) && (v <? RESERVED_HIGH) = (j =? 0) && in_window (Z.shiftl k 21).
Proof.
  intros Hj Hk v. unfold v, in_window. rewrite negb_orb, <-Z.leb_antisym, <-Z.ltb_antisym.
  destruct (Z.eqb_spec j 0) as [->|Hne]; [done|]. cbn [andb]. apply andb_false_iff. right. apply Z.ltb_ge.
  assert (Z.testbit (Z.lor (Z.shiftl j 30) (Z.shiftl k 21)) (30 + Z.log2 j) = true) as Hb.
  { rewrite Z.lor_spec, Z.shiftl_spec by (pose proof (Z.log2_nonneg j); lia). rewrite Z.add_simpl_l, Z.bit_log2 by lia. done. }
  destruct (Z.le_gt_cases RESERVED_HIGH (Z.lor (Z.shiftl j 30) (Z.shiftl k 21))) as [|Hlt]; [done|]. exfalso.
  rewrite (testbit_high _ 24) in Hb; [done|split; [apply Z.lor_nonneg; rewrite !Z.shiftl_nonneg; lia|exact Hlt]|pose proof (Z.log2_nonneg j); lia].
Qed.

(** A whole slot that two PML4s share. *)
Lemma shared_walk s0 s r va :
  kernel_ok s0 → (∀ x, fa_used (fa s0) (frame_of x) = true → pm s x = pm s0 x) → pml4_idx va = 0 ∨ shared_slot (pml4_idx va) = true →
  entry (pm s) r (pml4_idx va) = entry (pm s0) (g_kernel_pml4 s0) (pml4_idx va) → walk (pm s) r va = walk (pm s0) (g_kernel_pml4 s0) va.
Proof.
  intros Hk Hm Hi0 E4. pose proof (kernel_entry s0 s (pml4_idx va)) as HE. unfold walk. rewrite E4.
  assert (idx_ok (pml4_idx va) ∧ idx_ok (pdpt_idx va) ∧ idx_ok (pd_idx va) ∧ idx_ok (pt_idx va)) as (I4 & I3 & I2 & I1) by (split_and!; apply idx_range).
  set (i := pml4_idx va) in *. set (P := λ j, j = i).
  destruct (present (entry (pm s0) (g_kernel_pml4 s0) i)) eqn:P4; cbn [negb]; [|done].
  assert (ok_path P [i]) as P1' by (split; [idx_forall|done]). pose proof (ko_tree _ Hk i Hi0) as Hok.
  pose proof (ok_huge _ _ _ Hok [] i _ P1' ltac:(simpl; lia) eq_refl P4) as H4.
  assert (table_at (pm s0) (g_kernel_pml4 s0) [i] = Some (entry_phys (entry (pm s0) (g_kernel_pml4 s0) i))) as T1 by (cbn [table_at]; by rewrite P4, H4).
  rewrite (HE [] _ (pdpt_idx va) Hk Hm Hi0 ltac:(idx_forall) ltac:(simpl; lia) T1 I3).
  set (t3 := entry_phys (entry (pm s0) (g_kernel_pml4 s0) i)) in *. destruct (present (entry (pm s0) t3 (pdpt_idx va))) eqn:P3; cbn [negb]; [|done].
  destruct (huge (entry (pm s0) t3 (pdpt_idx va))) eqn:H3; [done|].
  assert (table_at (pm s0) (g_kernel_pml4 s0) [i; pdpt_idx va] = Some (entry_phys (entry (pm s0) t3 (pdpt_idx va)))) as T2.
  { change [i; pdpt_idx va] with ([i] ++ [pdpt_idx va]). rewrite (table_at_snoc _ _ _ _ _ T1). cbn zeta. by rewrite P3, H3. }
  rewrite (HE [pdpt_idx va] _ (pd_idx va) Hk Hm Hi0 ltac:(idx_forall) ltac:(simpl; lia) T2 I2).
  set (t2 := entry_phys (entry (pm s0) t3 (pdpt_idx va))) in *. destruct (present (entry (pm s0) t2 (pd_idx va))) eqn:P2; cbn [negb]; [|done].
  destruct (huge (entry (pm s0) t2 (pd_idx va))) eqn:H2; [done|].
  assert (table_at (pm s0) (g_kernel_pml4 s0) [i; pdpt_idx va; pd_idx va] = Some (entry_phys (entry (pm s0) t2 (pd_idx va)))) as T3.
  { change [i; pdpt_idx va; pd_idx va] with ([i; pdpt_idx va] ++ [pd_idx va]). rewrite (table_at_snoc _ _ _ _ _ T2). cbn zeta. by rewrite P2, H2. }
  by rewrite (HE [pdpt_idx va; pd_idx va] _ (pt_idx va) Hk Hm Hi0 ltac:(idx_forall) ltac:(simpl; lia) T3 I1).
Qed.

Lemma create_walk s0 s r pdpt pdf fs va :
  kernel_ok s0 → dirs s0 r pdpt (root_entry s0 pdpt) 4 pdf fs s → filled s0 4 pdf s →
  (∀ x, fa_used (fa s0) (frame_of x) = true → pm s x = pm s0 x) →
  walk (pm s) r va = if borrowed va then walk (pm s0) (g_kernel_pml4 s0) va else 0.
Proof.
  intros Hk D Hfill Hm. destruct D as [Df Dl Dn Di Dp Dr].
  assert (idx_ok (pml4_idx va) ∧ idx_ok (pdpt_idx va) ∧ idx_ok (pd_idx va) ∧ idx_ok (pt_idx va)) as (I4 & I3 & I2 & I1) by (split_and!; apply idx_range).
  pose proof (kernel_entry s0 s (pml4_idx va)) as HE. unfold borrowed.
  destruct (decide (pml4_idx va = 0)) as [E4|N4].
  - unfold walk. rewrite Dr by done. unfold root_entry. rewrite decide_True by done. destruct (RWU_link pdpt) as (-> & L2 & -> & _); [apply (ff_frames _ _ _ Df), Dl; tauto|]. cbn [negb]. rewrite Dp by done. rewrite E4 in *.
    destruct (Z.ltb_spec (pdpt_idx va) 4) as [Hj|Hj]; [|by rewrite decide_False by lia]. rewrite decide_True by done. cbn [andb].
    unfold idx_ok in I3. destruct (Hfill (pdpt_idx va) ltac:(lia)) as [Hf1 Hf2]. fold (kpdpt s0). destruct (pdf (pdpt_idx va)) as [f|] eqn:E.
    2: { change (present 0) with false. cbn [negb]. case_match; [|done]. destruct (present (entry (pm s0) (g_kernel_pml4 s0) 0)) eqn:P4; cbn [negb andb] in *; [|done].
      destruct (present (entry (pm s0) (kpdpt s0) (pdpt_idx va))) eqn:P3; cbn [negb]; [|done]. destruct Hf1 as [Hf1 _]. by destruct (Hf1 eq_refl). }
    destruct Hf1 as [_ Hf1]. specialize (Hf1 ltac:(by eexists)). apply andb_true_iff in Hf1 as [P4 P3].
    destruct (RWU_link f) as (-> & -> & -> & _); [apply (ff_frames _ _ _ Df), Dl; right; right; exists (pdpt_idx va); split; [lia|done]|]. cbn [negb].
    rewrite (Hf2 f (pd_idx va) eq_refl I2). unfold share_pd_entry. rewrite reserved_window by (done || lia). rewrite P4, P3. cbn [negb].
    destruct (kernel_dirs s0 (pdpt_idx va) Hk P4 ltac:(lia)) as [_ Hd]. destruct (Hd P3) as (H3 & _ & _). rewrite H3. fold (kpd s0 (pdpt_idx va)).
    destruct ((pdpt_idx va =? 0) && in_window (Z.shiftl (pd_idx va) 21)); cbn [negb andb]; [done|].
    destruct (present (entry (pm s0) (kpd s0 (pdpt_idx va)) (pd_idx va))) eqn:P2; [rewrite P2; cbn [negb]|done].
    destruct (huge (entry (pm s0) (kpd s0 (pdpt_idx va)) (pd_idx va))) eqn:H2; [done|].
    rewrite (HE [pdpt_idx va; pd_idx va]); [done|done|done|by left|idx_forall|simpl; lia| |done].
    assert (ok_path (λ j, j = 0) [0]) as P1' by (split; [idx_forall|done]).
    pose proof (ok_huge _ _ _ (ko_tree _ Hk 0 (or_introl eq_refl)) [] 0 _ P1' ltac:(simpl; lia) eq_refl P4) as H4.
    cbn [table_at]. rewrite P4, H4. cbn [negb andb]. fold (kpdpt s0). rewrite P3, H3. cbn [negb andb]. fold (kpd s0 (pdpt_idx va)). by rewrite P2, H2.
  - assert (entry (pm s) r (pml4_idx va) = if shared_slot (pml4_idx va) then entry (pm s0) (g_kernel_pml4 s0) (pml4_idx va) else 0) as Er
      by (rewrite Dr by done; unfold root_entry; by rewrite decide_False).
    destruct (shared_slot (pml4_idx va)) eqn:Hsh; [apply shared_walk; auto|]. unfold walk. by rewrite Er.
Qed.

(** ** The tables a program of the new space walks *)

Definition user_half (i : Z) : Prop := i < 256.

Lemma user_half_idx va : 0 ≤ va < 2 ^ 47 → user_half (pml4_idx va).
Proof.
  intros Hva. unfold user_half, pml4_idx. change 0x1FF with (Z.ones 9). rewrite Z.land_ones, Z.shiftr_div_pow2 by lia.
  change (2 ^ 9) with 512. Z.div_mod_to_equations. lia.
Qed.

Lemma new_tables s0 s r pdpt pdf fs q t :
  kernel_ok s0 → dirs s0 r pdpt (root_entry s0 pdpt) 4 pdf fs s → filled s0 4 pdf s → ok_path user_half q → (length q ≤ 3)%nat → table_at (pm s) r q = Some t →
  (q = [] ∧ t = r) ∨ (q = [0] ∧ t = pdpt) ∨ (∃ j, 0 ≤ j < 4 ∧ q = [0; j] ∧ pdf j = Some t) ∨
  ∃ j k, 0 ≤ j < 4 ∧ idx_ok k ∧ q = [0; j; k] ∧ table_at (pm s0) (g_kernel_pml4 s0) [0; j; k] = Some t.
Proof.
  intros Hk [Df Dl Dn Di Dp Dr] Hfill [Hq Hlow] Hl Ht.
  destruct q as [|i q]; [left; by injection Ht as ->|right]. apply Forall_cons in Hq as [Hi Hq]. unfold user_half in Hlow. cbn [table_at] in Ht. rewrite Dr in Ht by done.
  unfold root_entry in Ht. destruct (decide (i = 0)) as [->|Hne].
  2: { destruct (shared_slot i) eqn:Hsh; [|done]. exfalso. revert Hsh. unfold shared_slot. change HEAP_PML4_IDX with 256. change PHYSMAP_PML4_IDX with 384.
    rewrite !(proj2 (Z.eqb_neq _ _)) by lia. done. }
  destruct (RWU_link pdpt) as (L1 & L2 & L3 & _); [apply (ff_frames _ _ _ Df), Dl; tauto|]. rewrite L1, L2, L3 in Ht. cbn [andb negb] in Ht.
  destruct q as [|j q]; [left; by injection Ht as ->|right]. apply Forall_cons in Hq as [Hj Hq]. cbn [table_at] in Ht. rewrite Dp in Ht by done. unfold idx_ok in Hj.
  case_decide as Hj4; [|done]. destruct (pdf j) as [f|] eqn:E; [|done].
  destruct (RWU_link f) as (M1 & M2 & M3 & _); [apply (ff_frames _ _ _ Df), Dl; right; right; exists j; split; [lia|done]|]. rewrite M1, M2, M3 in Ht. cbn [andb negb] in Ht.
  destruct q as [|k q]; [left; exists j; injection Ht as ->; split; [lia|done]|right]. apply Forall_cons in Hq as [Hko Hq]. exists j, k. split; [lia|]. split; [done|].
  destruct (Hfill j ltac:(lia)) as [[_ Hf1] Hf2]. specialize (Hf1 ltac:(by exists f)). apply andb_true_iff in Hf1 as [P4 P3].
  cbn [table_at] in Ht. rewrite (Hf2 f k E Hko) in Ht. unfold share_pd_entry in Ht. destruct (negb _ && _) eqn:Hs in Ht; [|done]. apply andb_true_iff in Hs as [_ P2].
  rewrite P2 in Ht. cbn [andb] in Ht. destruct (huge (entry (pm s0) (kpd s0 j) k)) eqn:H2; [done|]. cbn [negb] in Ht.
  destruct q as [|? q]; [|simpl in Hl; lia]. injection Ht as <-. split; [done|].
  destruct (kernel_dirs s0 j Hk P4 ltac:(lia)) as [_ Hd]. destruct (Hd P3) as (H3 & _).
  assert (huge (entry (pm s0) (g_kernel_pml4 s0) 0) = false) as H4.
  { apply (ok_huge _ _ _ (ko_tree _ Hk 0 (or_introl eq_refl)) [] 0 _); [split; [idx_forall|done]|simpl; lia|done|done]. }
  cbn [table_at]. rewrite P4, H4. cbn [negb andb]. fold (kpdpt s0). rewrite P3, H3. cbn [negb andb]. fold (kpd s0 j). by rewrite P2, H2.
Qed.

Lemma create_tree s0 s r pdpt pdf fs :
  kernel_ok s0 → dirs s0 r pdpt (root_entry s0 pdpt) 4 pdf fs s → filled s0 4 pdf s → r ≠ pdpt → tree_ok user_half r s.
Proof.
  intros Hk D Hfill Hrp. pose proof (λ q t, new_tables s0 s r pdpt pdf fs q t Hk D Hfill) as Hn. destruct D as [Df Dl Dn Di Dp Dr].
  pose proof (ko_tree _ Hk 0 (or_introl eq_refl)) as Hker.
  assert (∀ j k, 0 ≤ j < 4 → idx_ok k → ok_path (λ i, i = 0) [0; j; k]) as Hpath by (intros j k Hj Hko; split; [idx_forall|done]).
  assert (∀ j k t, 0 ≤ j < 4 → idx_ok k → table_at (pm s0) (g_kernel_pml4 s0) [0; j; k] = Some t → is_frame t ∧ fa_used (fa s0) (frame_of t) = true) as Hold.
  { intros j k t Hj Hko Ht. apply (ok_table _ _ _ Hker [0; j; k]); [by apply Hpath|simpl; lia|done]. }
  assert (∀ f, f ∈ fs → is_frame f ∧ fa_used (fa s0) (frame_of f) = false) as Hnew by apply Df.
  assert (r ∈ fs ∧ pdpt ∈ fs) as [Hrin Hpin] by (split; apply Dl; tauto).
  assert (∀ j t, 0 ≤ j < 4 → pdf j = Some t → t ∈ fs) as Hjin by (intros j t Hj E; apply Dl; right; right; by exists j).
  assert (∀ t j k, t ∈ fs → 0 ≤ j < 4 → idx_ok k → table_at (pm s0) (g_kernel_pml4 s0) [0; j; k] ≠ Some t) as Hsep.
  { intros t j k Hin Hj Hko E. destruct (Hnew t Hin) as [_ Hu]. destruct (Hold j k t Hj Hko E). congruence. }
  split.
  - intros q t Hq Hl Ht. assert (t ∈ fs ∨ is_frame t ∧ fa_used (fa s0) (frame_of t) = true) as [Hin|[Hf Hu]].
    { destruct (Hn q t Hq Hl Ht) as [[_ ->]|[[_ ->]|[(j & Hj & _ & E)|(j & k & Hj & Hko & _ & E)]]]; [by left|by left|left; by eapply Hjin|right; by eapply Hold]. }
    + split; [by apply Hnew|]. apply (ff_used _ _ _ Df). right. by exists t.
    + split; [done|]. apply (ff_used _ _ _ Df). by left.
  - intros q q' t Hq Hq' Hl Hl' Ht Ht'.
    destruct (Hn q t Hq Hl Ht) as [[-> E]|[[-> E]|[(j & Hj & -> & E)|(j & k & Hj & Hko & -> & E)]]];
      destruct (Hn q' t Hq' Hl' Ht') as [[-> E']|[[-> E']|[(j' & Hj' & -> & E')|(j' & k' & Hj' & Hko' & -> & E')]]]; try done; try congruence; subst.
    all: try (by destruct (Dn _ _ Hj E)); try (by destruct (Dn _ _ Hj' E')); try (by destruct (Hsep _ _ _ Hrin Hj Hko E)); try (by destruct (Hsep _ _ _ Hpin Hj Hko E)).
    all: try (by destruct (Hsep _ _ _ Hrin Hj' Hko' E')); try (by destruct (Hsep _ _ _ Hpin Hj' Hko' E')).
    + by rewrite (Di j j' t).
    + by destruct (Hsep t _ _ (Hjin _ _ Hj E) Hj' Hko' E').
    + by destruct (Hsep t _ _ (Hjin _ _ Hj' E') Hj Hko E).
    + apply (ok_inj _ _ _ Hker _ _ t); [by apply Hpath|by apply Hpath|simpl; lia|simpl; lia|done|done].
  - intros q i t Hq Hl Ht Hpr. assert (ok_path user_half q) as Hq'.
    { destruct Hq as [Hf Hh]. apply Forall_app in Hf as [Hf _]. split; [done|]. by destruct q. }
    destruct Hq as [Hf Hh]. apply Forall_app in Hf as [_ [Hi _]%Forall_cons].
    destruct (Hn q t Hq' ltac:(lia) Ht) as [[-> ->]|[[-> ->]|[(j & Hj & -> & E)|(j & k & Hj & Hko & -> & E)]]]; [| |simpl in Hl; lia..].
    + cbn in Hh. unfold user_half in Hh. rewrite Dr in Hpr |- * by done. unfold root_entry in *. case_decide; [by apply RWU_link, Hnew|].
      destruct (shared_slot i) eqn:Hsh; [|done]. exfalso. revert Hsh. unfold shared_slot. change HEAP_PML4_IDX with 256. change PHYSMAP_PML4_IDX with 384.
      rewrite !(proj2 (Z.eqb_neq _ _)) by lia. done.
    + rewrite Dp in Hpr |- * by done. unfold idx_ok in Hi. case_decide; [|done]. destruct (pdf i) as [f|] eqn:E; [|done]. apply (RWU_link f), Hnew, (Hjin i); [lia|done].
Qed.

End create.
