(* ===== verification/SpaceClone.v ===== *)
(** * Copying an address space

    [clone_address_space] walks the private tables of the source in the order of the
    addresses and gives the destination a copy of every page. *)

From S2P Require Import Prelude Mem Frames Vmm PageTable UserPages Space SpaceOps.

(** ** Addresses in order *)

(** The number of a page, from the indices that lead to it. *)
Definition page_no (q : list Z) : Z := foldl (λ n i, n * 512 + i) 0 q.

(** The address that [clone_pt] builds from the indices. *)
Definition path_virt (a b c d : Z) : Z :=
  Z.lor (Z.lor (Z.lor (Z.shiftl a 39) (Z.shiftl b 30)) (Z.shiftl c 21)) (Z.shiftl d 12).

Ltac index_bits i :=
  repeat match goal with |- context [Z.testbit ?x (i + ?m - ?k)] =>
    first [replace (i + m - k) with i by lia | rewrite (Z.testbit_neg_r x (i + m - k)) by lia | rewrite (testbit_high x 9 (i + m - k)) by lia] end.

Lemma path_virt_idx a b c d : idx_ok a → idx_ok b → idx_ok c → idx_ok d → idx_path (path_virt a b c d) = [a; b; c; d].
Proof.
  unfold idx_ok. intros Ha Hb Hc Hd. unfold idx_path, pml4_idx, pdpt_idx, pd_idx, pt_idx, path_virt. change 0x1FF with (Z.ones 9). repeat f_equal.
  all: apply Z_bits_ext; intros i Hi; rewrite Z.land_spec, Z.shiftr_spec, !Z.lor_spec, !Z.shiftl_spec, ones_testbit by lia.
  all: rewrite (proj2 (Z.leb_le 0 _) Hi); destruct (Z.ltb_spec i 9) as [Hi9|Hi9]; cbn [andb]; rewrite ?andb_true_r, ?andb_false_r.
  all: try (symmetry; apply (testbit_high _ 9); lia).
  all: match goal with Hi : 0 ≤ ?i |- _ => index_bits i end; by rewrite ?orb_false_r.
Qed.

Section clone.
Context {A : Type} `{FrameAllocLaws A}.
Implicit Type s : Vmm A.

(** ** One page *)

Definition CLONE_FLAGS : Z := Z.lor (Z.lor (Z.lor PRESENT WRITABLE) USER) NO_EXECUTE.

Lemma clone_flags e : present e = true →
  let flags := Z.land e CLONE_FLAGS in Z.land flags PHYS_MASK = 0 ∧ Z.testbit flags 0 = true ∧ Z.testbit flags 7 = false.
Proof.
  intros Hp flags. unfold flags. rewrite <-Z.land_assoc. change (Z.land CLONE_FLAGS PHYS_MASK) with 0. rewrite Z.land_0_r.
  rewrite !Z.land_spec. change (Z.testbit CLONE_FLAGS 0) with true. change (Z.testbit CLONE_FLAGS 7) with false.
  rewrite andb_true_r, andb_false_r, <-present_testbit. done.
Qed.

(** Page [q] of [dst] holds the bytes the frame [P] had in [s0], with the flags of [e]. *)
Definition page_copy (s0 : Vmm A) (P e : Z) (dst : Z) (q : list Z) (i : Z) s : Prop :=
  ∃ F t, node s dst (q ++ [i]) F ∧ (∀ k, 0 ≤ k < PAGE_SIZE → pm s (F + k) = pm s0 (P + k)) ∧
    node s dst q t ∧ entry (pm s) t i = u64 (Z.lor F (Z.land e CLONE_FLAGS)).

Lemma clone_leaf_spec dst a b c d e s :
  Forall idx_ok [a; b; c; d] → space dst s → private [a; b; c; d] → (∀ t, ¬ node s dst [a; b; c; d] t) →
  present e = true → is_frame (entry_phys e) → fa_used (fa s) (frame_of (entry_phys e)) = true →
  ensures (clone_leaf dst (path_virt a b c d) e s) (λ s', grown dst s s' ∧ page_copy s (entry_phys e) e dst [a; b; c] d s' ∧
    ∀ q t, node s' dst q t → length q = 4%nat → node s dst q t ∨ q = [a; b; c; d]).
Proof using H0.
  intros Hok Hs Hp Hno Hpe HP HuP. pose proof (λ Ha Hb Hc Hd, path_virt_idx a b c d Ha Hb Hc Hd) as Hpath.
  assert (idx_path (path_virt a b c d) = [a; b; c; d]) as Hq.
  { do 4 (apply Forall_cons in Hok as [? Hok]). by apply Hpath. }
  clear Hpath. unfold clone_leaf. fold CLONE_FLAGS. destruct (alloc s) as [[s1 F]| | |] eqn:Ea; try (by destruct (alloc_total s) as [[? E]|E]; rewrite E in Ea).
  cbn [mbind res_bind]. destruct (alloc_taken s s1 F Ea) as [T Epm]. set (P := entry_phys e) in *.
  assert (∀ x, copy (pm s1) F P 4096 x = if (F <=? x) && (x <? F + 4096) then pm s (P + (x - F)) else pm s x) as Hcopy by (intros x; unfold copy; by rewrite Epm).
  assert (taken F s (with_pm (copy (pm s1) F P 4096) s1)) as T2.
  { apply taken_write; [done|]. intros x Hx. rewrite Hcopy, Epm. case_match eqn:E; [|done]. exfalso. apply Hx. apply andb_true_iff in E as [E1%Z.leb_le E2%Z.ltb_lt].
    replace x with (F + (x - F)) by lia. rewrite frame_of_offset; [|apply T|unfold PAGE_SIZE; lia]. done. }
  destruct (clone_flags e Hpe) as (Hf1 & Hf2 & Hf3).
  eapply ensures_mono; [apply (map_page dst s _ F (path_virt a b c d) (Z.land e CLONE_FLAGS) Hs)|]; rewrite ?Hq; try done.
  assert (pml4_idx (path_virt a b c d) = a ∧ pdpt_idx (path_virt a b c d) = b ∧ pd_idx (path_virt a b c d) = c ∧ pt_idx (path_virt a b c d) = d) as (-> & -> & -> & ->)
    by (unfold idx_path in Hq; by injection Hq as -> -> -> ->).
  intros s' (G & N & L & M & t & Nt & Et). split; [done|]. split; [|done]. exists F, t. split; [done|]. split; [|done].
  intros k Hk. rewrite M by (apply frame_of_offset; [apply T|done]). cbn [pm with_pm]. rewrite Hcopy.
  unfold PAGE_SIZE in Hk. rewrite (proj2 (Z.leb_le _ _)), (proj2 (Z.ltb_lt _ _)) by lia. cbn [andb]. f_equal. lia.
Qed.

(** ** What has been copied *)

Lemma page_no_4 a b c d : page_no [a; b; c; d] = ((a * 512 + b) * 512 + c) * 512 + d.
Proof. unfold page_no. cbn [foldl]. lia. Qed.

Lemma path_4 q : length q = 4%nat → Forall idx_ok q → ∃ a b c d, q = [a; b; c; d] ∧ idx_ok a ∧ idx_ok b ∧ idx_ok c ∧ idx_ok d.
Proof.
  intros Hl Hq. destruct q as [|a [|b [|c [|d [|]]]]]; try done. exists a, b, c, d. split; [done|].
  by repeat (apply Forall_cons in Hq as [? Hq]).
Qed.

Lemma page_no_inj q q' : length q = 4%nat → length q' = 4%nat → Forall idx_ok q → Forall idx_ok q' → page_no q = page_no q' → q = q'.
Proof.
  intros Hl Hl' Hq Hq'. destruct (path_4 q Hl Hq) as (a & b & c & d & -> & ? & ? & ? & ?). destruct (path_4 q' Hl' Hq') as (a' & b' & c' & d' & -> & ? & ? & ? & ?).
  rewrite !page_no_4. unfold idx_ok in *. intros E. assert (a = a' ∧ b = b' ∧ c = c' ∧ d = d') as (-> & -> & -> & ->) by lia. done.
Qed.

Lemma page_copy_keep s0 P e dst q i s s' : grown dst s s' → space dst s → length q = 3%nat → page_copy s0 P e dst q i s → page_copy s0 P e dst q i s'.
Proof.
  intros G Hs Hl (F & t & NF & Hb & Nt & Et). exists F, t. split; [by apply G|]. split; [|split; [by apply G|]].
  - intros k Hk. destruct (sp_frame _ _ Hs _ F NF) as [HF HU]. rewrite (gr_mem _ _ _ G); [by apply Hb|by rewrite frame_of_offset|].
    intros q' t' N' Hl' E. rewrite frame_of_offset in E by done. assert (t' = F) as -> by (apply frame_inj; [by apply (sp_frame _ _ Hs q')|done..]).
    rewrite (sp_inj _ _ Hs _ _ _ N' NF), length_app, Hl in Hl'. simpl in Hl'. lia.
  - rewrite (gr_entry _ _ _ G q t i); [done|done|lia|]. right. split; [done|by exists F].
Qed.

Section copy.
Context (s0 : Vmm A) (src dst : Z) (Hsrc : space src s0) (Hdst : space dst s0).
Context (Hdisj : ∀ q q' t, node s0 src q t → ¬ node s0 dst q' t) (Hempty : ∀ q t, node s0 dst q t → (length q ≤ 3)%nat).

(** The pages below number [n] are copied, and nothing else is mapped. *)
Record cloned (n : Z) s : Prop := {
  cl_grown : grown dst s0 s;
  cl_done q i T F : node s0 src q T → length q = 3%nat → node s0 src (q ++ [i]) F → page_no (q ++ [i]) < n →
    page_copy s0 F (entry (pm s0) T i) dst q i s;
  cl_only q t : node s dst q t → length q = 4%nat → page_no q < n ∧ ∃ F, node s0 src q F;
}.

Lemma cloned_start : cloned 0 s0.
Proof using Hdst Hempty.
  split; [by apply gr_refl| |].
  - intros q i T F Nq Hl ([Hok _] & _) Hn. exfalso. destruct (path_4 (q ++ [i])) as (a & b & c & d & E & ? & ? & ? & ?); [rewrite length_app; simpl; lia|done|].
    rewrite E, page_no_4 in Hn. unfold idx_ok in *. lia.
  - intros q t N Hl. apply Hempty in N. lia.
Qed.

(** The source is left as it is. *)
Lemma cloned_src n s q t : cloned n s → node s0 src q t →
  (∀ x, frame_of x = frame_of t → pm s x = pm s0 x) ∧ fa_used (fa s) (frame_of t) = true ∧
  ∀ i, idx_ok i → entry (pm s) t i = entry (pm s0) t i.
Proof using Hsrc Hdst Hdisj.
  intros [G _ _] N. destruct (sp_frame _ _ Hsrc q t N) as [HF HU].
  assert (∀ x, frame_of x = frame_of t → pm s x = pm s0 x) as Hm.
  { intros x Hx. apply (gr_mem _ _ _ G); [by rewrite Hx|]. intros q' t' N' _ E. apply (Hdisj q q' t N).
    rewrite Hx in E. by rewrite <-(frame_inj t' t) by (done || by apply (sp_frame _ _ Hdst q')). }
  split; [done|]. split; [apply (gr_used _ _ _ G); by left|]. intros i Hi. by apply entry_mem_ext.
Qed.

Lemma cloned_skip n m s : n ≤ m → (∀ q F, node s0 src q F → length q = 4%nat → ¬ n ≤ page_no q < m) → cloned n s → cloned m s.
Proof using Type.
  intros Hnm Hnone [G D O]. split; [done| |].
  - intros q i T F Nq Hl NF Hlt. apply (D q i T F); try done. destruct (Z.lt_ge_cases (page_no (q ++ [i])) n); [done|].
    exfalso. apply (Hnone (q ++ [i]) F NF); [rewrite length_app; simpl; lia|lia].
  - intros q t N Hl. destruct (O q t N Hl) as [? ?]. split; [lia|done].
Qed.

Lemma cloned_step a b c d T s : let e := entry (pm s0) T d in
  node s0 src [a; b; c] T → node s0 src [a; b; c; d] (entry_phys e) → present e = true → cloned (page_no [a; b; c; d]) s →
  ensures (clone_leaf dst (path_virt a b c d) e s) (cloned (page_no [a; b; c; d] + 1)).
Proof using H0 Hsrc Hdst Hdisj.
  intros e NT NF Hpe C. pose proof C as [G D O]. pose proof NF as (HpF & _). destruct (cloned_src _ _ _ _ C NF) as (HbF & HuF & _).
  eapply ensures_mono; [apply clone_leaf_spec|]; try done.
  - apply HpF.
  - apply G.
  - intros t N. destruct (O _ _ N) as [? _]; [done|lia].
  - by apply (sp_frame _ _ Hsrc _ _ NF).
  - intros s' (G' & Hcopy & L). split.
    + by eapply gr_trans.
    + intros q i T' F Nq Hl N Hlt. destruct (Z.lt_ge_cases (page_no (q ++ [i])) (page_no [a; b; c; d])) as [Hlt'|Hge].
      { apply (page_copy_keep _ _ _ _ _ _ s); [done|apply G|done|by apply D]. }
      assert (q ++ [i] = [a; b; c] ++ [d]) as [-> ->]%app_inj_tail.
      { apply page_no_inj; [rewrite length_app; simpl; lia|done|apply N|apply HpF|]. cbn [app]. lia. }
      destruct NT as (_ & _ & NT), Nq as (_ & _ & Nq). rewrite NT in Nq. injection Nq as <-. destruct NF as (_ & _ & NF), N as (_ & _ & N).
      cbn [app] in N; rewrite NF in N. injection N as <-. destruct Hcopy as (F' & t & N1 & Hb & N2). exists F', t. split; [done|]. split; [|done].
      intros k Hk. rewrite Hb by done. apply HbF. apply frame_of_offset; [|done]. apply (sp_frame _ _ Hsrc [a; b; c; d]). by split_and!.
    + intros q t N Hl. destruct (L q t N Hl) as [N'| ->]; [destruct (O q t N' Hl); split; [lia|done]|]. split; [lia|by eexists].
Qed.

(** ** The loops *)

Lemma src_child q T i : node s0 src q T → private (q ++ [i]) → (length q ≤ 3)%nat → present (entry (pm s0) T i) = true →
  node s0 src (q ++ [i]) (entry_phys (entry (pm s0) T i)).
Proof using Hsrc.
  intros N Hp Hl Hpr. pose proof N as (_ & _ & Ht). split; [done|]. split; [rewrite length_app; simpl; lia|].
  rewrite (table_at_snoc _ _ _ _ _ Ht). cbn zeta. by rewrite Hpr, (sp_huge _ _ Hsrc q).
Qed.

Lemma src_absent q T i r F : node s0 src q T → present (entry (pm s0) T i) = false → ¬ node s0 src (q ++ i :: r) F.
Proof using Type. intros (_ & _ & Ht) Hpr (_ & _ & HF). rewrite table_at_app, Ht in HF. cbn [mbind option_bind table_at] in HF. by rewrite Hpr in HF. Qed.

(** The pages of a range of numbers. *)
Lemma pages_of q F n : node s0 src q F → length q = 4%nat → n ≤ page_no q → ∃ a b c d,
  q = [a; b; c; d] ∧ idx_ok a ∧ idx_ok b ∧ idx_ok c ∧ idx_ok d ∧ n ≤ ((a * 512 + b) * 512 + c) * 512 + d.
Proof using Type.
  intros ([Hq _] & _) Hl Hn. destruct (path_4 q Hl Hq) as (a & b & c & d & -> & ? & ? & ? & ?). rewrite page_no_4 in Hn. by exists a, b, c, d.
Qed.

Lemma clone_pt_spec a b c T s :
  idx_ok a → idx_ok b → idx_ok c → (∀ d, idx_ok d → private [a; b; c; d]) → node s0 src [a; b; c] T → cloned (((a * 512 + b) * 512 + c) * 512) s →
  ensures (clone_pt dst T a b c s) (cloned (((a * 512 + b) * 512 + c) * 512 + 512)).
Proof using H0 Hsrc Hdst Hdisj.
  intros Ha Hb Hc Hp N C. unfold clone_pt. set (base := ((a * 512 + b) * 512 + c) * 512) in *.
  apply (iter_upM_ensures (λ d, cloned (base + d)) 512 0); [by rewrite Z.add_0_r|]. intros d s' Hd C'. assert (idx_ok d) as Hdo by (unfold idx_ok; lia).
  destruct (cloned_src _ _ _ _ C' N) as (_ & _ & ->); [|done]. destruct (present (entry (pm s0) T d)) eqn:Hpr; cbn [negb].
  - fold (path_virt a b c d). pose proof (cloned_step a b c d T s' N) as Hstep. rewrite page_no_4 in Hstep. rewrite Z.add_assoc. apply Hstep; [|done..].
    apply (src_child [a; b; c]); [done|by apply Hp|simpl; lia|done].
  - cbn [ensures]. apply (cloned_skip (base + d)); [lia| |done]. intros q F NF Hl [H1 H2]. unfold base, idx_ok in *.
    destruct (pages_of q F _ NF Hl H1) as (a' & b' & c' & d' & -> & ? & ? & ? & ? & Hn). rewrite page_no_4 in H1, H2. unfold idx_ok in *.
    assert (a' = a ∧ b' = b ∧ c' = c ∧ d' = d) as (-> & -> & -> & ->) by lia. by apply (src_absent [a; b; c] T d [] F N).
Qed.

(** One entry of a page directory. *)
Lemma clone_pd_entry a b c T s :
  idx_ok a → idx_ok b → idx_ok c → private [a; b; c] → (∀ d, idx_ok d → private [a; b; c; d]) → node s0 src [a; b] T → cloned (((a * 512 + b) * 512 + c) * 512) s →
  ensures (if negb (present (entry (pm s) T c)) then Ok s else clone_pt dst (entry_phys (entry (pm s) T c)) a b c s)
    (cloned (((a * 512 + b) * 512 + c) * 512 + 512)).
Proof using H0 Hsrc Hdst Hdisj.
  intros Ha Hb Hc Hp3 Hp N C. destruct (cloned_src _ _ _ _ C N) as (_ & _ & ->); [|done]. destruct (present (entry (pm s0) T c)) eqn:Hpr; cbn [negb].
  - apply clone_pt_spec; [done..| |done]. apply (src_child [a; b]); [done..|simpl; lia|done].
  - cbn [ensures]. eapply cloned_skip; [| |exact C]; [lia|]. intros q F NF Hl [H1 H2]. unfold idx_ok in *.
    destruct (pages_of q F _ NF Hl H1) as (a' & b' & c' & d' & -> & ? & ? & ? & ? & Hn). rewrite page_no_4 in H1, H2. unfold idx_ok in *.
    assert (a' = a ∧ b' = b ∧ c' = c) as (-> & -> & ->) by lia. by apply (src_absent [a; b] T c [d'] F N).
Qed.

Lemma private_window c d : in_window (Z.shiftl c 21) = true → idx_ok c → idx_ok d → private [0; 0; c; d].
Proof using Type. intros Hw Hc Hd. split; [idx_forall|rewrite decide_True by done; by split_and!]. Qed.

Lemma private_slot a q : a ≠ 0 → shared_slot a = false → idx_ok a → Forall idx_ok q → private (a :: q).
Proof using Type. intros Ha Hs Hok Hq. split; [by constructor|by rewrite decide_False]. Qed.

(** The pages of the low slot are those of the window. *)
Lemma low_pages b c d F : node s0 src [0; b; c; d] F → b = 0 ∧ in_window (Z.shiftl c 21) = true.
Proof using Type. intros ([_ Hp] & _). rewrite decide_True in Hp by done. tauto. Qed.

(** No page of the source has a number from [n] to [m]. *)
Lemma cloned_gap n m s :
  n ≤ m → (∀ a b c d F, idx_ok a → idx_ok b → idx_ok c → idx_ok d → n ≤ ((a * 512 + b) * 512 + c) * 512 + d < m → ¬ node s0 src [a; b; c; d] F) →
  cloned n s → cloned m s.
Proof using Type.
  intros Hnm Hnone C. apply (cloned_skip n); [done| |done]. intros q F NF Hl [H1 H2].
  destruct (pages_of q F n NF Hl H1) as (a & b & c & d & -> & ? & ? & ? & ? & Hn). rewrite page_no_4 in H2. by apply (Hnone a b c d F).
Qed.

Lemma clone_window_spec s : cloned 0 s → ensures (clone_window dst src s) (cloned (512 * 512 * 512)).
Proof using H0 Hsrc Hdst Hdisj.
  intros C. unfold clone_window. assert (idx_ok 0) as H0' by (unfold idx_ok; lia).
  assert (private [0] ∧ private [0; 0]) as [P1 P2] by (split; (split; [idx_forall|rewrite ?decide_True by done; (done || (split; [lia|done]))])).
  assert (∀ a b c d F, 0 ≤ ((a * 512 + b) * 512 + c) * 512 + d < 512 * 512 * 512 → idx_ok a → idx_ok b → idx_ok c → idx_ok d → node s0 src [a; b; c; d] F →
    a = 0 ∧ b = 0 ∧ in_window (Z.shiftl c 21) = true) as Hlow.
  { intros a b c d F Hr ? ? ? ? NF. unfold idx_ok in *. assert (a = 0) as -> by lia. split; [done|by eapply low_pages]. }
  destruct (cloned_src _ _ _ _ C (root_node src s0)) as (_ & _ & ->); [|done].
  destruct (present (entry (pm s0) src 0)) eqn:Hp4; cbn [negb].
  2: { apply (cloned_gap 0); [lia| |done]. intros a b c d F ? ? ? ? Hr NF. destruct (Hlow a b c d F) as (-> & -> & _); [done..|].
    by apply (src_absent [] src 0 [0; c; d] F (root_node src s0)). }
  pose proof (src_child [] src 0 (root_node _ _) P1 ltac:(simpl; lia) Hp4) as N1. cbn [app] in N1. set (pdpt := entry_phys (entry (pm s0) src 0)) in *.
  destruct (cloned_src _ _ _ _ C N1) as (_ & _ & ->); [|done]. destruct (present (entry (pm s0) pdpt 0)) eqn:Hp3; cbn [negb].
  2: { apply (cloned_gap 0); [lia| |done]. intros a b c d F ? ? ? ? Hr NF. destruct (Hlow a b c d F) as (-> & -> & _); [done..|].
    by apply (src_absent [0] pdpt 0 [c; d] F N1). }
  pose proof (src_child [0] pdpt 0 N1 P2 ltac:(simpl; lia) Hp3) as N2. cbn [app] in N2. set (pd := entry_phys (entry (pm s0) pdpt 0)) in *.
  eapply ensures_mono; [apply (iter_upM_ensures (λ k, cloned (k * 512)) 512 0)|]; [done| |].
  - intros c s' Hc C'. assert (idx_ok c) as Hco by (unfold idx_ok; lia). replace ((c + 1) * 512) with (((0 * 512 + 0) * 512 + c) * 512 + 512) by lia.
    destruct (in_window (Z.shiftl c 21)) eqn:Hw; cbn [negb].
    + apply clone_pd_entry; [done..| | |done|exact C'].
      * by apply (private_prefix _ [0; 0; c; 0]), private_window; [exists [0]|..].
      * intros d Hd. by apply private_window.
    + apply (cloned_gap (c * 512)); [lia| |done]. intros a b c' d F ? ? ? ? Hr NF. unfold idx_ok in *.
      destruct (Hlow a b c' d F) as (-> & -> & Hw'); [lia|unfold idx_ok; lia..|done|]. assert (c' = c) as -> by lia. congruence.
  - intros s' C'. apply (cloned_gap ((0 + Z.of_nat 512) * 512)); [lia| |done]. intros a b c d F ? ? ? ? Hr NF.
    destruct (Hlow a b c d F) as (-> & -> & _); [lia|done..|]. unfold idx_ok in *. lia.
Qed.

Lemma clone_slot_spec a s : 1 ≤ a < 512 → cloned (a * (512 * 512 * 512)) s → ensures (clone_slot dst src a s) (cloned ((a + 1) * (512 * 512 * 512))).
Proof using H0 Hsrc Hdst Hdisj.
  intros Ha C. assert (idx_ok a) as Hao by (unfold idx_ok; lia). unfold clone_slot. fold (shared_slot a).
  destruct (shared_slot a) eqn:Hsh.
  { apply (cloned_gap (a * (512 * 512 * 512))); [lia| |done]. intros a' b c d F ? ? ? ? Hr ([_ Hp] & _). unfold idx_ok in *. assert (a' = a) as -> by lia.
    rewrite decide_False in Hp by lia. congruence. }
  assert (∀ q, Forall idx_ok q → private (a :: q)) as Hpriv by (intros; apply private_slot; (done || lia)).
  destruct (cloned_src _ _ _ _ C (root_node src s0)) as (_ & _ & ->); [|done]. destruct (present (entry (pm s0) src a)) eqn:Hp4; cbn [negb].
  2: { apply (cloned_gap (a * (512 * 512 * 512))); [lia| |done]. intros a' b c d F ? ? ? ? Hr NF. unfold idx_ok in *. assert (a' = a) as -> by lia.
    by apply (src_absent [] src a [b; c; d] F (root_node src s0)). }
  pose proof (src_child [] src a (root_node _ _) (Hpriv [] ltac:(idx_forall)) ltac:(simpl; lia) Hp4) as N1. cbn [app] in N1. set (pdpt := entry_phys (entry (pm s0) src a)) in *.
  replace ((a + 1) * (512 * 512 * 512)) with ((a * 512 + (0 + Z.of_nat 512)) * 512 * 512) by lia.
  apply (iter_upM_ensures (λ b, cloned ((a * 512 + b) * 512 * 512)) 512 0); [by replace ((a * 512 + 0) * 512 * 512) with (a * (512 * 512 * 512)) by lia|].
  intros b s1 Hb C1. assert (idx_ok b) as Hbo by (unfold idx_ok; lia).
  destruct (cloned_src _ _ _ _ C1 N1) as (_ & _ & ->); [|done]. destruct (present (entry (pm s0) pdpt b)) eqn:Hp3; cbn [negb].
  2: { apply (cloned_gap ((a * 512 + b) * 512 * 512)); [lia| |done]. intros a' b' c d F ? ? ? ? Hr NF. unfold idx_ok in *. assert (a' = a ∧ b' = b) as [-> ->] by lia.
    by apply (src_absent [a] pdpt b [c; d] F N1). }
  pose proof (src_child [a] pdpt b N1 (Hpriv [b] ltac:(idx_forall)) ltac:(simpl; lia) Hp3) as N2. cbn [app] in N2.
  replace ((a * 512 + (b + 1)) * 512 * 512) with (((a * 512 + b) * 512 + (0 + Z.of_nat 512)) * 512) by lia.
  apply (iter_upM_ensures (λ c, cloned (((a * 512 + b) * 512 + c) * 512)) 512 0); [by replace (((a * 512 + b) * 512 + 0) * 512) with ((a * 512 + b) * 512 * 512) by lia|].
  intros c s2 Hc C2. assert (idx_ok c) as Hco by (unfold idx_ok; lia). replace (((a * 512 + b) * 512 + (c + 1)) * 512) with (((a * 512 + b) * 512 + c) * 512 + 512) by lia.
  apply clone_pd_entry; [done..| | |done|done]; [|intros d Hd]; apply Hpriv; idx_forall.
Qed.

Lemma clone_spec s : cloned 0 s →
  ensures (s ← clone_window dst src s; iter_upM 511 1 1 (clone_slot dst src) s) (cloned (512 * 512 * 512 * 512)).
Proof using H0 Hsrc Hdst Hdisj.
  intros C. eapply ensures_bind; [by apply clone_window_spec|]. intros s1 C1.
  apply (iter_upM_ensures (λ a, cloned (a * (512 * 512 * 512))) 511 1); [done|]. intros a s2 Ha. apply clone_slot_spec. lia.
Qed.

End copy.

End clone.
