(* ===== verification/SpaceLife.v ===== *)
(** * The life of an address space

    What [create_address_space], [clone_address_space] and [destroy_address_space] do
    together, as [fork] and the end of a process use them. *)

From S2P Require Import Prelude Mem Frames Pmm Vmm PageTable UserPages Space SpaceOps SpaceClone.

Section life.
Context {A : Type} `{FrameAllocLaws A}.
Implicit Type s : Vmm A.

(** ** Private pages *)

(** The page of [va] is in the frame [F], with the entry [e]. *)
Definition page s (root va F e : Z) : Prop :=
  walk (pm s) root va = F + Z.land va 0xFFF ∧ node s root (idx_path va) F ∧
  ∃ t, node s root [pml4_idx va; pdpt_idx va; pd_idx va] t ∧ entry (pm s) t (pt_idx va) = e.

Lemma private_walk root s va : space root s → private (idx_path va) →
  walk (pm s) root va = match table_at (pm s) root (idx_path va) with Some F => u64 (F + Z.land va 0xFFF) | None => 0 end.
Proof.
  intros Hs Hp. destruct (private_path va Hp) as (P1 & P2 & P3). unfold walk, idx_path. cbn [table_at].
  pose proof (λ i t, sp_huge _ _ Hs [] i t) as H4. pose proof (sp_huge _ _ Hs [pml4_idx va]) as H3.
  pose proof (sp_huge _ _ Hs [pml4_idx va; pdpt_idx va]) as H2. pose proof (sp_huge _ _ Hs [pml4_idx va; pdpt_idx va; pd_idx va]) as H1.
  assert (∀ q t, private q → (length q ≤ 4)%nat → table_at (pm s) root q = Some t → node s root q t) as Hn by (by intros).
  destruct (present (entry (pm s) root (pml4_idx va))) eqn:E4; cbn [negb andb]; [|done]. specialize (H4 _ _ (root_node _ _) P1 ltac:(simpl; lia) E4).
  rewrite H4. cbn [negb]. set (t3 := entry_phys (entry (pm s) root (pml4_idx va))) in *.
  assert (node s root [pml4_idx va] t3) as N3 by (apply Hn; [done|simpl; lia|]; cbn [table_at]; by rewrite E4, H4).
  destruct (present (entry (pm s) t3 (pdpt_idx va))) eqn:E3; cbn [negb andb]; [|done]. specialize (H3 _ _ N3 P2 ltac:(simpl; lia) E3). rewrite H3. cbn [negb].
  set (t2 := entry_phys (entry (pm s) t3 (pdpt_idx va))) in *.
  assert (node s root [pml4_idx va; pdpt_idx va] t2) as N2 by (apply Hn; [done|simpl; lia|]; cbn [table_at]; rewrite E4, H4; cbn [negb andb]; fold t3; by rewrite E3, H3).
  destruct (present (entry (pm s) t2 (pd_idx va))) eqn:E2; cbn [negb andb]; [|done]. specialize (H2 _ _ N2 P3 ltac:(simpl; lia) E2). rewrite H2. cbn [negb].
  set (t1 := entry_phys (entry (pm s) t2 (pd_idx va))) in *.
  assert (node s root [pml4_idx va; pdpt_idx va; pd_idx va] t1) as N1.
  { apply Hn; [done|simpl; lia|]. cbn [table_at]. rewrite E4, H4. cbn [negb andb]. fold t3. rewrite E3, H3. cbn [negb andb]. fold t2. by rewrite E2, H2. }
  destruct (present (entry (pm s) t1 (pt_idx va))) eqn:E1; cbn [negb andb]; [|done]. by rewrite (H1 _ _ N1 Hp ltac:(simpl; lia) E1).
Qed.

Lemma node_page root s va F t :
  space root s → node s root (idx_path va) F → node s root [pml4_idx va; pdpt_idx va; pd_idx va] t → page s root va F (entry (pm s) t (pt_idx va)).
Proof.
  intros Hs N Nt. pose proof N as (Hp & _ & Ht). split; [|split; [done|by exists t]]. rewrite private_walk, Ht by done.
  apply u64_small. destruct (sp_frame _ _ Hs _ F N) as [[Hb _]%is_frame_bounds _]. change 0xFFF with (Z.ones 12). rewrite Z.land_ones by lia.
  pose proof (Z.mod_pos_bound va (2 ^ 12)). unfold is_u64. lia.
Qed.

(** Every page has the tables above it. *)
Lemma page_tables root s va F : node s root (idx_path va) F → ∃ t, node s root [pml4_idx va; pdpt_idx va; pd_idx va] t.
Proof.
  intros (Hp & _ & Ht). change (idx_path va) with ([pml4_idx va; pdpt_idx va; pd_idx va] ++ [pt_idx va]) in Ht. rewrite table_at_app in Ht.
  destruct (table_at (pm s) root [pml4_idx va; pdpt_idx va; pd_idx va]) as [t|] eqn:E; [|done]. exists t. split; [by apply private_path|]. split; [simpl; lia|done].
Qed.

(** ** The kernel's part *)

(** A directory of the low slot that holds the kernel's entries. *)
Lemma low_walk s0 s r f va :
  kernel_ok s0 → (∀ x, fa_used (fa s0) (frame_of x) = true → pm s x = pm s0 x) → pml4_idx va = 0 →
  present (entry (pm s0) (g_kernel_pml4 s0) 0) = true → present (entry (pm s0) (kpdpt s0) (pdpt_idx va)) = true →
  node s r [0; pdpt_idx va] f → entry (pm s) f (pd_idx va) = entry (pm s0) (kpd s0 (pdpt_idx va)) (pd_idx va) →
  walk (pm s) r va = walk (pm s0) (g_kernel_pml4 s0) va.
Proof.
  intros Hk Hm E4 P4 P3 (_ & _ & Ht) Ef.
  assert (idx_ok (pml4_idx va) ∧ idx_ok (pdpt_idx va) ∧ idx_ok (pd_idx va) ∧ idx_ok (pt_idx va)) as (I4 & I3 & I2 & I1) by (split_and!; apply idx_range).
  destruct (kernel_dirs s0 (pdpt_idx va) Hk P4) as [_ Hd]; [done|]. destruct (Hd P3) as (H3 & _ & _).
  assert (huge (entry (pm s0) (g_kernel_pml4 s0) 0) = false) as H4.
  { apply (ok_huge _ _ _ (ko_tree _ Hk 0 (or_introl eq_refl)) [] 0 _); [split; [idx_forall|done]|simpl; lia|done|done]. }
  cbn [table_at] in Ht. destruct (present (entry (pm s) r 0)) eqn:Q4; cbn [andb] in Ht; [|done]. destruct (huge (entry (pm s) r 0)); cbn [negb] in Ht; [done|].
  unfold walk. rewrite E4, Q4, P4. cbn [negb]. fold (kpdpt s0). set (t3 := entry_phys (entry (pm s) r 0)) in *. rewrite P3, H3.
  destruct (present (entry (pm s) t3 (pdpt_idx va))) eqn:Q3; cbn [andb] in Ht; [|done]. destruct (huge (entry (pm s) t3 (pdpt_idx va))); cbn [negb] in Ht; [done|].
  injection Ht as ->. cbn [negb]. fold (kpd s0 (pdpt_idx va)). rewrite Ef. destruct (present (entry (pm s0) (kpd s0 (pdpt_idx va)) (pd_idx va))) eqn:P2; cbn [negb]; [|done].
  destruct (huge (entry (pm s0) (kpd s0 (pdpt_idx va)) (pd_idx va))) eqn:H2; [done|].
  rewrite (kernel_entry s0 s 0 [pdpt_idx va; pd_idx va]); [done|done|done|by left|idx_forall|simpl; lia| |done].
  cbn [table_at]. rewrite P4, H4. cbn [negb andb]. fold (kpdpt s0). rewrite P3, H3. cbn [negb andb]. fold (kpd s0 (pdpt_idx va)). by rewrite P2, H2.
Qed.

(** What [create_address_space] promises. *)
Record created s0 s (r : Z) : Prop := {
  cr_fresh : fresh_space s0 s r;
  cr_walk va : walk (pm s) r va = if borrowed va then walk (pm s0) (g_kernel_pml4 s0) va else 0;
  cr_slot i : shared_slot i = true → idx_ok i → entry (pm s) r i = entry (pm s0) (g_kernel_pml4 s0) i;
  cr_low j k : 0 ≤ j < 4 → idx_ok k → (j =? 0) && in_window (Z.shiftl k 21) = false →
    present (entry (pm s0) (g_kernel_pml4 s0) 0) = true → present (entry (pm s0) (kpdpt s0) j) = true → present (entry (pm s0) (kpd s0 j) k) = true →
    ∃ f, node s r [0; j] f ∧ entry (pm s) f k = entry (pm s0) (kpd s0 j) k;
  cr_tree : tree_ok user_half r s;
  cr_tables q t : ok_path user_half q → (length q ≤ 3)%nat → table_at (pm s) r q = Some t →
    fa_used (fa s0) (frame_of t) = false ∨ ∃ j k, idx_ok j ∧ idx_ok k ∧ table_at (pm s0) (g_kernel_pml4 s0) [0; j; k] = Some t;
}.

Lemma create_created s0 : kernel_ok s0 → ensures (create_address_space s0) (λ '(s, r), created s0 s r).
Proof using H0.
  intros Hk. eapply ensures_mono; [by apply create_dirs|]. intros [s r] (pdpt & pdf & fs & D & Hfill & Hne).
  pose proof (create_fresh _ _ _ _ _ _ D Hfill Hne) as F. pose proof (fs_mem _ _ _ F) as Hm. split; [done| | | | |].
  - intros va. by eapply create_walk.
  - intros i Hsh Hi. rewrite (di_root _ _ _ _ _ _ _ _ D) by done. unfold root_entry. rewrite decide_False, Hsh; [done|by intros ->].
  - intros j k Hj Hki Hw P4 P3 P2. destruct (Hfill j Hj) as [Hf1 Hf2]. destruct Hf1 as [Hf1 _]. destruct Hf1 as [f E]; [by rewrite P4, P3|].
    exists f. split; [eapply new_nodes; [done..|]; right; right; by exists j|]. rewrite (Hf2 f k E Hki). unfold share_pd_entry.
    unfold idx_ok in Hki. by rewrite reserved_window, Hw, P2 by lia.
  - by eapply create_tree.
  - intros q t Hq Hl Ht. pose proof (λ t, proj2 (di_list _ _ _ _ _ _ _ _ D t)) as Dl.
    destruct (new_tables s0 s r pdpt pdf fs q t Hk D Hfill Hq Hl Ht) as [[_ ->]|[[_ ->]|[(j & Hj & _ & E)|(j & k & Hj & Hko & _ & E)]]]; [left..|right; exists j, k; split; [unfold idx_ok; lia|done]].
    all: apply (ff_frames _ _ _ (di_fresh _ _ _ _ _ _ _ _ D)), Dl; tauto || (right; right; by exists j).
Qed.

(** ** The life of a space *)

Section alive.
Context (s0 s1 s : Vmm A) (r : Z) (Hfresh : fresh_space s0 s1 r) (Hgrown : grown r s1 s).

Lemma life_new q t : node s r q t → fa_used (fa s0) (frame_of t) = false.
Proof using All.
  intros N. destruct (gr_new _ _ _ Hgrown q t N) as [N1|Hu]; [by apply (fs_new _ _ _ Hfresh q)|].
  rewrite <-not_true_iff_false in Hu |- *. intros E. apply Hu, (fs_used _ _ _ Hfresh). by left.
Qed.

Lemma life_mem x : fa_used (fa s0) (frame_of x) = true → pm s x = pm s0 x.
Proof using All.
  intros Hx. rewrite (gr_mem _ _ _ Hgrown); [by apply (fs_mem _ _ _ Hfresh)|apply (fs_used _ _ _ Hfresh); by left|].
  intros q t N _ E. pose proof (fs_new _ _ _ Hfresh q t N). congruence.
Qed.

Lemma life_used g : fa_used (fa s) g = true ↔ fa_used (fa s0) g = true ∨ owned s r g.
Proof using All.
  rewrite (gr_used _ _ _ Hgrown), (fs_used _ _ _ Hfresh). split; [|intros [?|?]; [by left; left|by right]].
  intros [[?|(q & t & N & <-)]|?]; [by left| |by right]. right. exists q, t. split; [by apply Hgrown|done].
Qed.

Lemma life_root : Z.land r PHYS_MASK = r.
Proof using All. pose proof (entry_phys_frame r 0 (fs_root _ _ _ Hfresh) eq_refl) as E. by rewrite Z.lor_0_r in E. Qed.

(** Destroying the space gives back what it took. *)
Lemma life_destroy : let s' := destroy_address_space r s in
  (∀ x, fa_used (fa s0) (frame_of x) = true → pm s' x = pm s0 x) ∧
  (∀ g, 0 ≤ g < NUM_FRAMES → fa_used (fa s') g = fa_used (fa s0) g) ∧ cr3 s' = cr3 s0 ∧ g_kernel_pml4 s' = g_kernel_pml4 s0.
Proof using All.
  intros s'. pose proof (destroy_frees r s) as F. rewrite life_root in F. specialize (F (gr_space _ _ _ Hgrown)). fold s' in F. destruct F as [Hpm [Hc Hg] Hu].
  destruct (gr_regs _ _ _ Hgrown) as [Gc Gg], (fs_regs _ _ _ Hfresh) as [Fc Fg]. split_and!; [|intros g Hgr|congruence..].
  - intros x Hx. rewrite Hpm. by apply life_mem.
  - apply eq_true_iff_eq. rewrite Hu, life_used by done. split; [intros [[Ho|Ho] Hn]; [exact Ho|by destruct (Hn Ho)]|]. intros Hu0. split; [by left|].
    intros (q & t & N & <-). pose proof (life_new q t N). congruence.
Qed.

End alive.

(** The kernel's translations stay in the space. *)
Lemma life_kernel s0 s1 s r va :
  kernel_ok s0 → created s0 s1 r → grown r s1 s → borrowed va = true → walk (pm s0) (g_kernel_pml4 s0) va ≠ 0 →
  walk (pm s) r va = walk (pm s0) (g_kernel_pml4 s0) va.
Proof using H0.
  intros Hk [F W Hslot Hlow _ _] G Hb Hnz. pose proof (life_mem s0 s1 s r F G) as Hm. unfold borrowed in Hb.
  assert (idx_ok (pml4_idx va) ∧ idx_ok (pdpt_idx va) ∧ idx_ok (pd_idx va)) as (I4 & I3 & I2) by (split_and!; apply idx_range).
  case_decide as E4.
  - apply andb_true_iff in Hb as [Hj%Z.ltb_lt Hw%negb_true_iff].
    assert (present (entry (pm s0) (g_kernel_pml4 s0) 0) = true ∧ present (entry (pm s0) (kpdpt s0) (pdpt_idx va)) = true ∧
      present (entry (pm s0) (kpd s0 (pdpt_idx va)) (pd_idx va)) = true) as (P4 & P3 & P2).
    { unfold walk in Hnz. rewrite E4 in Hnz. fold (kpdpt s0) in Hnz. destruct (present (entry (pm s0) (g_kernel_pml4 s0) 0)) eqn:P4; [|done].
      destruct (kernel_dirs s0 (pdpt_idx va) Hk P4 I3) as [_ Hd]. cbn [negb] in Hnz. destruct (present (entry (pm s0) (kpdpt s0) (pdpt_idx va))) eqn:P3; [|done].
      destruct (Hd eq_refl) as (H3 & _). rewrite H3 in Hnz. cbn [negb] in Hnz. fold (kpd s0 (pdpt_idx va)) in Hnz. by destruct (present (entry (pm s0) (kpd s0 (pdpt_idx va)) (pd_idx va))). }
    unfold idx_ok in I3. destruct (Hlow (pdpt_idx va) (pd_idx va)) as (f & N & Ef); [lia|done..|].
    apply (low_walk s0 s r f va); [done..|by apply G|]. rewrite <-Ef. apply (gr_entry _ _ _ G [0; pdpt_idx va]); [done|simpl; lia|]. left. split; [done|].
    intros [_ Hp]. cbn [app] in Hp. rewrite decide_True in Hp by done. destruct Hp as (_ & Hj0 & Hw'). rewrite Hj0, Hw' in Hw. done.
  - apply shared_walk; [done|done|by right|]. rewrite (gr_entry _ _ _ G [] r); [by apply Hslot|apply root_node|simpl; lia|]. left. split; [done|].
    intros [_ Hp]. cbn [app] in Hp. rewrite decide_False in Hp by done. congruence.
Qed.

(** ** Fork *)

(** The two calls of [sys_fork]. *)
Definition fork_space (src_cr3 : Z) (s : Vmm A) : Res (Vmm A * Z) :=
  '(s, child_cr3) ← create_address_space s;
  s ← clone_address_space child_cr3 src_cr3 s;
  Ok (s, child_cr3).

Definition ALL_PAGES : Z := 512 * 512 * 512 * 512.

Record forked s0 (src : Z) s1 s (r : Z) : Prop := {
  fk_created : created s0 s1 r;
  fk_source : space src s1;
  fk_nodes q t : node s1 src q t ↔ node s0 src q t;
  fk_entries q t i : node s0 src q t → (length q ≤ 3)%nat → idx_ok i → entry (pm s1) t i = entry (pm s0) t i;
  fk_cloned : cloned s1 src r ALL_PAGES s;
}.

Lemma fork_forked s0 src_cr3 : let src := Z.land src_cr3 PHYS_MASK in
  kernel_ok s0 → space src s0 → ensures (fork_space src_cr3 s0) (λ '(s, r), ∃ s1, forked s0 src s1 s r).
Proof using H0.
  intros src Hk Hs. unfold fork_space. eapply ensures_bind; [by apply create_created|]. intros [s1 r] C. pose proof (cr_fresh _ _ _ C) as F.
  assert (∀ g, fa_used (fa s0) g = true → fa_used (fa s1) g = true) as Hmono by (intros g Hg; apply (fs_used _ _ _ F); by left).
  destruct (space_kept src s0 s1 Hs) as (Hs1 & Hiff & He); [|done|].
  { intros x q t N _ Hx. apply (fs_mem _ _ _ F). rewrite Hx. by apply (sp_frame _ _ Hs q). }
  unfold clone_address_space. rewrite (life_root s0 s1 s1 r F) by (apply gr_refl, F). fold src.
  assert (∀ q q' t, node s1 src q t → ¬ node s1 r q' t) as Hdisj.
  { intros q q' t N%Hiff N'. destruct (sp_frame _ _ Hs q t N) as [_ Hu]. pose proof (fs_new _ _ _ F q' t N'). congruence. }
  assert (∀ q t, node s1 r q t → (length q ≤ 3)%nat) as Hempty by (intros q t N; apply (fs_short _ _ _ F) in N; lia).
  eapply ensures_bind; [apply (clone_spec s1 src r Hs1 (fs_space _ _ _ F) Hdisj s1); apply cloned_start; [apply F|done]|].
  intros s Hc. cbn [ensures]. exists s1. by split.
Qed.

(** The bytes of a page of the source. *)
Lemma forked_bytes s0 src s1 s r q F0 : space src s0 → forked s0 src s1 s r → node s0 src q F0 →
  ∀ k, 0 ≤ k < PAGE_SIZE → pm s1 (F0 + k) = pm s0 (F0 + k).
Proof using Type.
  intros Hs K N k Hk. destruct (sp_frame _ _ Hs q F0 N) as [HF HU]. apply (fs_mem _ _ _ (cr_fresh _ _ _ (fk_created _ _ _ _ _ K))). by rewrite frame_of_offset.
Qed.

Lemma forked_page s0 src s1 s r va F0 e : space src s0 → forked s0 src s1 s r → page s0 src va F0 e →
  ∃ F, page s r va F (u64 (Z.lor F (Z.land e CLONE_FLAGS))) ∧ fa_used (fa s0) (frame_of F) = false ∧ ∀ k, 0 ≤ k < PAGE_SIZE → pm s (F + k) = pm s0 (F0 + k).
Proof using H0.
  intros Hs K (_ & N & T & NT & <-). pose proof K as [C Hs1 Hiff He [G D O]].
  destruct (D [pml4_idx va; pdpt_idx va; pd_idx va] (pt_idx va) T F0) as (F & t & NF & Hb & Nt & Et); [by apply Hiff|done|by apply Hiff| |].
  { destruct N as ([Hok _] & _). change ([pml4_idx va; pdpt_idx va; pd_idx va] ++ [pt_idx va]) with (idx_path va). unfold idx_path in *. rewrite page_no_4.
    repeat (apply Forall_cons in Hok as [? Hok]). unfold ALL_PAGES, idx_ok in *. lia. }
  exists F. split; [|split].
  - rewrite <-(He _ _ _ NT) by (simpl; lia || apply idx_range). rewrite <-Et. by apply node_page; [apply G| |].
  - apply (life_new s0 s1 s r (cr_fresh _ _ _ C) G _ _ NF).
  - intros k Hk. rewrite Hb by done. by apply (forked_bytes s0 src s1 s r (idx_path va)).
Qed.


(** C7. Forking and ending a process give back exactly what they took.  After the space of
    the child is created, filled from the parent and destroyed, the frames in use are those
    that were in use before, and their bytes are unchanged. *)
Theorem space_lifecycle s0 src_cr3 :
  kernel_ok s0 → space (Z.land src_cr3 PHYS_MASK) s0 →
  ensures ('(s, r) ← fork_space src_cr3 s0; Ok (destroy_address_space r s)) (λ s,
    (∀ g, 0 ≤ g < NUM_FRAMES → fa_used (fa s) g = fa_used (fa s0) g) ∧
    (∀ x, fa_used (fa s0) (frame_of x) = true → pm s x = pm s0 x) ∧
    cr3 s = cr3 s0 ∧ g_kernel_pml4 s = g_kernel_pml4 s0).
Proof using H0.
  intros Hk Hs. eapply ensures_bind; [by apply fork_forked|]. intros [s r] (s1 & [C _ _ _ [G _ _]]). cbn [ensures].
  destruct (life_destroy s0 s1 s r (cr_fresh _ _ _ C) G) as (Hm & Hu & Hc & Hg). by split_and!.
Qed.

(** A new address space shares the kernel's part and nothing else.  Its translations are
    the kernel's in the first four gigabytes, except for the window of the programs, and in
    the slots of the heap and the physmap; there is no other page.  Its own tables were free,
    they are all that is newly in use, and nothing that was in use is written. *)
Lemma create_shares_kernel s0 :
  kernel_ok s0 → ensures (create_address_space s0) (λ '(s, r),
    (∀ va, walk (pm s) r va = if borrowed va then walk (pm s0) (g_kernel_pml4 s0) va else 0) ∧
    (∀ q t, node s r q t → (length q ≤ 2)%nat ∧ is_frame t ∧ fa_used (fa s0) (frame_of t) = false) ∧
    (∀ g, fa_used (fa s) g = true ↔ fa_used (fa s0) g = true ∨ owned s r g) ∧
    (∀ x, fa_used (fa s0) (frame_of x) = true → pm s x = pm s0 x) ∧ cr3 s = cr3 s0).
Proof using H0.
  intros Hk. eapply ensures_mono; [by apply create_created|]. intros [s r] [F W _ _ _ _]. split_and!; [done| |apply F|apply F|apply F].
  intros q t N. split_and!; [by apply (fs_short _ _ _ F q t)|by apply (sp_frame _ _ (fs_space _ _ _ F) q)|by apply (fs_new _ _ _ F q)].
Qed.

End life.

(** ** A machine with one process *)

(** The kernel's PML4 is at 0x1000, with one directory that maps the first 2 MiB, and empty
    tables for the heap and the physmap.  The process at 0x6000 has one page, at 4 MiB, in
    the frame 0xA000: user, not writable, not executable. *)
Definition proc_word (a : Z) : Z :=
  if a =? 0x1000 then 0x2003 else
  if a =? 0x1800 then 0x4003 else
  if a =? 0x1C00 then 0x5003 else
  if a =? 0x2000 then 0x3003 else
  if a =? 0x3000 then 0x83 else
  if a =? 0x6000 then 0x7007 else
  if a =? 0x7000 then 0x8007 else
  if a =? 0x8010 then 0x9007 else
  if a =? 0x9000 then 0x800000000000A005 else
  if a =? 0xA000 then 0x1122 else 0.

(** Frames 256 to 263 are free. *)
Definition proc_machine : Vmm Pmm := MkVmm (word_mem proc_word) (MkPmm {[ 32 := 0 ]} 8 0) 0x6000 0x1000.

Lemma proc_entry t i : t `mod` 8 = 0 → entry (pm proc_machine) t i = proc_word (t + 8 * i).
Proof. apply entry_word_mem. intros a. unfold proc_word. repeat case_match; lia. Qed.

Definition proc_edges : list (Z * Z * Z) := [
  (0x1000, 0, 0x2000); (0x1000, 256, 0x4000); (0x1000, 384, 0x5000); (0x2000, 0, 0x3000);
  (0x6000, 0, 0x7000); (0x7000, 0, 0x8000); (0x8000, 2, 0x9000); (0x9000, 0, 0xA000)].

Definition proc_tables : list Z := [0x1000; 0x2000; 0x3000; 0x4000; 0x5000; 0x6000; 0x7000; 0x8000; 0x9000].

Lemma proc_word_zero a : a ∉ [0x1000; 0x1800; 0x1C00; 0x2000; 0x3000; 0x6000; 0x7000; 0x8010; 0x9000; 0xA000] → proc_word a = 0.
Proof. rewrite !not_elem_of_cons. intros (? & ? & ? & ? & ? & ? & ? & ? & ? & ? & _). unfold proc_word. by do 10 (rewrite (proj2 (Z.eqb_neq _ _)) by done). Qed.

Lemma proc_edge t i : t ∈ proc_tables → idx_ok i → let e := entry (pm proc_machine) t i in
  present e && negb (huge e) = true → (t, i, entry_phys e) ∈ proc_edges.
Proof.
  intros Ht Hi. assert (t `mod` 8 = 0) as Hm by (revert t Ht; apply Forall_forall, (bool_decide_unpack _); vm_compute; exact I).
  cbv zeta. rewrite proc_entry by done. unfold idx_ok in Hi.
  destruct (decide (t + 8 * i ∈ [0x1000; 0x1800; 0x1C00; 0x2000; 0x3000; 0x6000; 0x7000; 0x8010; 0x9000; 0xA000])) as [Hin|Hz]; [|by rewrite (proc_word_zero _ Hz)].
  unfold proc_tables in Ht. rewrite !elem_of_cons, elem_of_nil in Ht. rewrite !elem_of_cons, elem_of_nil in Hin.
  destruct_or! Ht; subst t; try done; destruct_or! Hin; try lia; rewrite Hin; intros Hb; try discriminate Hb.
  all: first [assert (i = 0) as -> by lia|assert (i = 2) as -> by lia|assert (i = 256) as -> by lia|assert (i = 384) as -> by lia].
  all: apply (bool_decide_unpack _); vm_compute; exact I.
Qed.

(** One step of a path. *)
Ltac proc_step Ht :=
  match type of Ht with table_at _ ?t (?i :: _) = _ =>
    cbn [table_at] in Ht; destruct (present (entry (pm proc_machine) t i) && negb (huge (entry (pm proc_machine) t i))) eqn:Hb; [|done];
    apply proc_edge in Hb; [|apply (bool_decide_unpack _); vm_compute; exact I|done];
    unfold proc_edges in Hb; rewrite !elem_of_cons, elem_of_nil in Hb; destruct_or! Hb; try done; 
    let Ei := fresh in pose proof (f_equal (λ x, x.1.2) Hb) as Ei; apply (f_equal snd) in Hb; cbn [fst snd] in Hb, Ei; rewrite Hb in Ht; clear Hb; subst i
  end.

Lemma proc_kernel q t : Forall idx_ok q → table_at (pm proc_machine) 0x1000 q = Some t →
  (q, t) ∈ [([], 0x1000); ([0], 0x2000); ([0; 0], 0x3000); ([256], 0x4000); ([384], 0x5000)].
Proof.
  intros Hq Ht. rewrite !elem_of_cons, elem_of_nil. destruct q as [|i q]; [injection Ht as <-; tauto|]. apply Forall_cons in Hq as [Hi Hq].
  proc_step Ht; (destruct q as [|j q]; [injection Ht as <-; tauto|]); apply Forall_cons in Hq as [Hj Hq]; proc_step Ht.
  destruct q as [|k q]; [injection Ht as <-; tauto|]. apply Forall_cons in Hq as [Hk Hq]. proc_step Ht.
Qed.

Lemma proc_source q t : Forall idx_ok q → (length q ≤ 4)%nat → table_at (pm proc_machine) 0x6000 q = Some t →
  (q, t) ∈ [([], 0x6000); ([0], 0x7000); ([0; 0], 0x8000); ([0; 0; 2], 0x9000); ([0; 0; 2; 0], 0xA000)].
Proof.
  intros Hq Hl Ht. rewrite !elem_of_cons, elem_of_nil.
  do 4 (destruct q as [|? q]; [injection Ht as <-; tauto|]; apply Forall_cons in Hq as [? Hq]; proc_step Ht).
  destruct q; [injection Ht as <-; tauto|simpl in Hl; lia].
Qed.

Lemma proc_used f : ¬ 256 ≤ f < 264 → fa_used (fa proc_machine) f = true.
Proof.
  intros Hf. change (is_used (MkPmm {[ 32 := 0 ]} 8 0) f = true). unfold is_used, bitmap_byte. cbn [bitmap].
  rewrite lookup_singleton_ne by (intros E; Z.div_mod_to_equations; lia). cbn [default].
  assert (0 ≤ f `mod` 8 < 8) as Hb by (apply Z.mod_pos_bound; lia). generalize dependent (f `mod` 8). intros r Hb.
  assert (r = 0 ∨ r = 1 ∨ r = 2 ∨ r = 3 ∨ r = 4 ∨ r = 5 ∨ r = 6 ∨ r = 7) as [->|[->|[->|[->|[->|[->|[->| ->]]]]]]] by lia; done.
Qed.

Ltac in_cases Hin := rewrite !elem_of_cons, elem_of_nil in Hin; destruct_or! Hin; try done; injection Hin as -> ->.

Lemma proc_frame k : 0 ≤ k < 256 → is_frame (k * PAGE_SIZE) ∧ fa_used (fa proc_machine) (frame_of (k * PAGE_SIZE)) = true.
Proof.
  intros Hk. split; [exists k; unfold NUM_FRAMES; split; [done|lia]|]. apply proc_used. unfold frame_of, PAGE_SIZE. rewrite Z.div_mul by lia. lia.
Qed.

(** The tables hold no huge page at the top two levels. *)
Lemma proc_huge t i : t ∈ [0x1000; 0x2000; 0x4000; 0x5000; 0x6000; 0x7000; 0x8000; 0x9000] → idx_ok i → huge (entry (pm proc_machine) t i) = false.
Proof.
  intros Ht Hi. assert (t `mod` 8 = 0) as Hm by (revert t Ht; apply Forall_forall, (bool_decide_unpack _); vm_compute; exact I).
  rewrite proc_entry by done. destruct (decide (t + 8 * i = 0x3000)) as [E|N1]; [exfalso|destruct (decide (t + 8 * i = 0xA000)) as [E|N2]; [exfalso|]].
  1,2: unfold idx_ok in Hi; rewrite !elem_of_cons, elem_of_nil in Ht; destruct_or! Ht; subst; lia || done.
  unfold proc_word. rewrite (proj2 (Z.eqb_neq _ 0x3000) N1), (proj2 (Z.eqb_neq _ 0xA000) N2). by repeat case_match.
Qed.

Lemma proc_kernel_ok : kernel_ok proc_machine.
Proof.
  split; [apply mem_ok_word_mem|]. intros i Hi. change (g_kernel_pml4 proc_machine) with 0x1000. split.
  - intros q t [Hq _] _ Ht. pose proof (proc_kernel q t Hq Ht) as Hin. in_cases Hin; [apply (proc_frame 1)|apply (proc_frame 2)|apply (proc_frame 3)|apply (proc_frame 4)|apply (proc_frame 5)]; lia.
  - intros q q' t [Hq _] [Hq' _] _ _ Ht Ht'. pose proof (proc_kernel q t Hq Ht) as Hin. pose proof (proc_kernel q' t Hq' Ht') as Hin'.
    in_cases Hin; rewrite !elem_of_cons, elem_of_nil in Hin'; destruct_or! Hin'; try done; by injection Hin' as ->.
  - intros q j t [Hq _] Hl Ht _. apply Forall_app in Hq as [Hq [Hj _]%Forall_cons]. pose proof (proc_kernel q t Hq Ht) as Hin.
    in_cases Hin; [..|simpl in Hl; lia| |]; apply proc_huge; (done || (apply (bool_decide_unpack _); vm_compute; exact I)).
Qed.

Lemma proc_space : space 0x6000 proc_machine.
Proof.
  assert (∀ q t, node proc_machine 0x6000 q t → (q, t) ∈ [([], 0x6000); ([0], 0x7000); ([0; 0], 0x8000); ([0; 0; 2], 0x9000); ([0; 0; 2; 0], 0xA000)]) as Hn.
  { intros q t ([Hq _] & Hl & Ht). by apply proc_source. }
  split.
  - intros q t Hin%Hn. in_cases Hin; [apply (proc_frame 6)|apply (proc_frame 7)|apply (proc_frame 8)|apply (proc_frame 9)|apply (proc_frame 10)]; lia.
  - intros q q' t Hin%Hn Hin'%Hn. in_cases Hin; rewrite !elem_of_cons, elem_of_nil in Hin'; destruct_or! Hin'; try done; by injection Hin' as ->.
  - intros q i t Hin%Hn Hp%private_last Hl _. in_cases Hin; [..|simpl in Hl; lia]; apply proc_huge; (done || (apply (bool_decide_unpack _); vm_compute; exact I)).
Qed.

Lemma proc_page : page proc_machine 0x6000 0x400000 0xA000 0x800000000000A005.
Proof.
  assert (node proc_machine 0x6000 [0; 0; 2] 0x9000 ∧ node proc_machine 0x6000 [0; 0; 2; 0] 0xA000) as [N1 N2].
  { split; (split; [split; [idx_forall|done]|split; [simpl; lia|reflexivity]]). }
  split; [reflexivity|]. split; [exact N2|]. exists 0x9000. split; [exact N1|reflexivity].
Qed.


Lemma space_lifecycle_witness :
  ensures ('(s, r) ← fork_space 0x6000 proc_machine; Ok (destroy_address_space r s)) (λ s,
    (∀ g, 256 ≤ g < 264 → fa_used (fa s) g = false) ∧ pm s 0xA000 = 0x22).
Proof.
  eapply ensures_mono; [exact (space_lifecycle proc_machine 0x6000 proc_kernel_ok proc_space)|].
  intros s (Hu & Hm & _). split; [|apply Hm; reflexivity]. intros g Hg. rewrite Hu by (unfold NUM_FRAMES; lia).
  change (is_used (MkPmm {[ 32 := 0 ]} 8 0) g = false).
  assert (g = 256 ∨ g = 257 ∨ g = 258 ∨ g = 259 ∨ g = 260 ∨ g = 261 ∨ g = 262 ∨ g = 263) as [->|[->|[->|[->|[->|[->|[->| ->]]]]]]] by lia; reflexivity.
Defined.
