(* ===== verification/ElfSpec.v ===== *)
(** * What a loaded program looks like

    The memory image of a segment, and the proof that after loading every byte of
    every segment is where the program expects it, through the page tables. *)

From S2P Require Import Prelude Mem Frames Pmm Vmm PageTable UserPages PageRights Task Fs Vfs Elf.

(** The byte a segment puts at [va]. *)
Definition image (data : list Z) (ph : Phdr) (va : Z) : Z :=
  if decide (ph_vaddr ph ≤ va < ph_vaddr ph + ph_filesz ph)
  then default 0 (zget data (ph_offset ph + (va - ph_vaddr ph))) else 0.

(** A segment in the user half whose file part is inside the file. *)
Record seg_ok (data : list Z) (size : Z) (ph : Phdr) : Prop := {
  so_addr : 0 ≤ ph_vaddr ph ∧ 0 ≤ ph_memsz ph ∧ ph_vaddr ph + ph_memsz ph ≤ 2 ^ 47;
  so_file : 0 ≤ ph_offset ph ∧ 0 ≤ ph_filesz ph ≤ ph_memsz ph ∧ ph_offset ph + ph_filesz ph ≤ size ≤ zlen data;
  so_size : size < 2 ^ 63;
}.

(** The pages of a segment. *)
Definition seg_lo (ph : Phdr) : Z := page_down (ph_vaddr ph).
Definition seg_hi (ph : Phdr) : Z := page_up (ph_vaddr ph + ph_memsz ph).
Definition in_seg (ph : Phdr) (va : Z) : Prop := seg_lo ph ≤ va < seg_hi ph.

Section spec.
Context {A : Type} `{FrameAllocLaws A}.
Context (P : Z → Prop) (HP : ∀ va, 0 ≤ va < 2 ^ 47 → P (pml4_idx va)).

(** Address [va] is mapped to a data frame and holds the byte [c]. *)
Definition holds (s : Vmm A) (va c : Z) : Prop :=
  let pa := walk (pm s) (get_pml4 s) va in
  pa ≠ 0 ∧ data_frame P (get_pml4 s) s (frame_of pa) ∧ pm s pa = c.

Record user_ok (s : Vmm A) : Prop := {
  uo_tree : tree_ok P (get_pml4 s) s;
  uo_zero : fa_used (fa s) 0 = true;
}.

(** A frame that is free in [s]. *)
Definition free_frame (s : Vmm A) (f : Z) : Prop := 0 ≤ f < NUM_FRAMES ∧ fa_used (fa s) f = false.

(** What filling the pages of [in_pages] with [f], mapped with [flags], does. *)
Record fills (in_pages : Z → Prop) (flags : Z) (f : Z → Z) (s s' : Vmm A) : Prop := {
  fi_ext : extends P (get_pml4 s) s s';
  fi_in va : 0 ≤ va < 2 ^ 47 → in_pages va → holds s' va (f va);
  fi_out va : 0 ≤ va < 2 ^ 47 → ¬ in_pages va → walk (pm s') (get_pml4 s') va = walk (pm s) (get_pml4 s) va;
  fi_new va : 0 ≤ va < 2 ^ 47 → in_pages va → free_frame s (frame_of (walk (pm s') (get_pml4 s') va));
  fi_rights va : 0 ≤ va < 2 ^ 47 → in_pages va → rights (pm s') (get_pml4 s') va flags;
  fi_keep va fl : 0 ≤ va < 2 ^ 47 → ¬ in_pages va →
    rights (pm s) (get_pml4 s) va fl → rights (pm s') (get_pml4 s') va fl;
}.

(** From [s] to [s'] the page of [va] is mapped with [flags], and the others keep their rights. *)
Definition sets_rights (va flags root : Z) (s s' : Vmm A) : Prop :=
  (∀ v, 0 ≤ v < 2 ^ 47 → v / PAGE_SIZE = va / PAGE_SIZE → rights (pm s') root v flags) ∧
  (∀ v fl, 0 ≤ v < 2 ^ 47 → v / PAGE_SIZE ≠ va / PAGE_SIZE → rights (pm s) root v fl → rights (pm s') root v fl).

Lemma extends_pml4 root s s' : extends P root s s' → get_pml4 s' = get_pml4 s.
Proof. intros X. unfold get_pml4. by rewrite (x_regs _ _ _ _ X). Qed.

Lemma extends_user s s' : user_ok s → extends P (get_pml4 s) s s' → user_ok s'.
Proof.
  intros [_ Hz] X. split; [rewrite (extends_pml4 _ _ _ X); apply X|]. by apply (x_used _ _ _ _ X).
Qed.

Lemma holds_extends s s' va c :
  extends P (get_pml4 s) s s' → holds s va c →
  walk (pm s') (get_pml4 s') va = walk (pm s) (get_pml4 s) va → holds s' va c.
Proof.
  intros X (H1 & H2 & H3) Hw. unfold holds. rewrite Hw, (extends_pml4 _ _ _ X). split_and!; [done|by apply X|].
  by rewrite (x_mem _ _ _ _ X).
Qed.

(** A frame that was free later was free before. *)
Lemma extends_free root s s' f : extends P root s s' → free_frame s' f → free_frame s f.
Proof. intros X [Hr Hf]. split; [done|]. destruct (fa_used (fa s) f) eqn:E; [|done]. apply (x_used _ _ _ _ X) in E. congruence. Qed.

Lemma fills_trans (I1 I2 : Z → Prop) fl f s s1 s2 :
  (∀ va, Decision (I1 va)) → (∀ va, Decision (I2 va)) →
  (∀ va, I1 va → ¬ I2 va) → fills I1 fl f s s1 → fills I2 fl f s1 s2 → fills (λ va, I1 va ∨ I2 va) fl f s s2.
Proof.
  intros D1 D2 Hd [X1 In1 Out1 New1 Ri1 Ke1] [X2 In2 Out2 New2 Ri2 Ke2]. pose proof (extends_pml4 _ _ _ X1) as R1. rewrite R1 in X2. split.
  - by eapply extends_trans.
  - intros va Hva Hor. destruct (decide (I2 va)) as [H2|H2]; [by apply In2|].
    destruct Hor as [H1|]; [|done]. eapply holds_extends; [rewrite R1; exact X2|by apply In1|by apply Out2].
  - intros va Hva Hn. rewrite Out2 by tauto. apply Out1; tauto.
  - intros va Hva Hor. destruct (decide (I2 va)) as [H2|H2]; [by eapply extends_free, New2|].
    destruct Hor as [H1|]; [|done]. rewrite Out2 by done. by apply New1.
  - intros va Hva Hor. destruct (decide (I2 va)) as [H2|H2]; [by apply Ri2|].
    destruct Hor as [H1|]; [|done]. by apply Ke2, Ri1.
  - intros va fl' Hva Hn Hr. apply Ke2; [done|tauto|]. apply Ke1; [done|tauto|done].
Qed.

(** ** One page *)

Lemma seg_flags_ok fl : Z.land (seg_flags fl) PHYS_MASK = 0 ∧ Z.testbit (seg_flags fl) 0 = true.
Proof. unfold seg_flags. destruct (negb _), (_ =? 0); split; reflexivity. Qed.

(** The bits of the flags of a segment. *)
Lemma seg_flags_rights fl :
  Z.testbit (seg_flags fl) 0 = true ∧ Z.testbit (seg_flags fl) 2 = true ∧
  Z.testbit (seg_flags fl) 1 = Z.testbit fl 1 ∧ Z.testbit (seg_flags fl) 63 = negb (Z.testbit fl 0).
Proof using Type.
  pose proof (land_pow2_testbit fl 1 ltac:(lia)) as E1. pose proof (land_pow2_testbit fl 0 ltac:(lia)) as E0.
  unfold seg_flags. change PF_W with (2 ^ 1). change PF_X with (2 ^ 0). rewrite E1, <-E0.
  by destruct (Z.testbit fl 1), (Z.land fl (2 ^ 0) =? 0).
Qed.

Lemma map_frame va flags s s1 phys :
  user_ok s → alloc s = Ok (s1, phys) → 0 ≤ va < 2 ^ 47 → va `mod` PAGE_SIZE = 0 → Z.land flags PHYS_MASK = 0 → Z.testbit flags 0 = true →
  is_frame phys ∧ phys ≠ 0 ∧ fa_used (fa s) (frame_of phys) = false ∧
  ensures (Vmm.map va phys flags s1) (λ s', extends P (get_pml4 s) s s' ∧ data_frame P (get_pml4 s) s' (frame_of phys) ∧
    sets_rights va flags (get_pml4 s) s s' ∧
    ∀ v, 0 ≤ v < 2 ^ 47 → walk (pm s') (get_pml4 s) v =
      if decide (v / PAGE_SIZE = va / PAGE_SIZE) then phys + v `mod` PAGE_SIZE else walk (pm s) (get_pml4 s) v).
Proof using All.
  intros [Hok Hz] Ea Hva Hal Hfl Hb. destruct (alloc_extends P (get_pml4 s) s s1 phys Hok Ea) as (X1 & D1 & Hfr & Hfree & Hpm).
  split; [done|]. split; [intros ->; change (frame_of 0) with 0 in Hfree; congruence|]. split; [done|].
  unfold Vmm.map. rewrite (extends_pml4 _ _ _ X1).
  destruct (map_into_total (get_pml4 s) va phys flags s1) as [[s2 E2]|E2]; rewrite E2; [|done].
  destruct (map_into_full P (get_pml4 s) va phys flags s1 s2 (x_tree _ _ _ _ X1) (HP va Hva) E2) as (G & W & _). cbn [ensures].
  assert (0 ≤ phys < 2 ^ 52) as Hpb by (destruct Hfr as (f & -> & ?); unfold NUM_FRAMES, PAGE_SIZE in *; lia).
  assert (phys `mod` PAGE_SIZE = 0) as Hpal by (destruct Hfr as (f & -> & _); unfold PAGE_SIZE; apply Z.mod_mul; lia).
  split; [eapply extends_trans; [exact X1|by apply grows_extends]|]. split; [apply (x_data _ _ _ _ (grows_extends _ _ _ _ G) _ D1)|].
  split.
  { destruct (map_into_rights P (get_pml4 s) va phys flags s1 s2 (x_tree _ _ _ _ X1) (HP va Hva) Hpb E2) as [Rin Rout]. split.
    - intros v Hv Hpage. apply Rin, same_page; [lia..|done].
    - intros v fl Hv Hpage Hr. apply Rout; [by apply HP| |by rewrite Hpm]. intros Hidx. apply Hpage, same_page; [lia..|done]. }
  intros v Hv. rewrite W by by apply HP. rewrite Hpm.
  destruct (leaf_translation phys flags v Hpb Hfl Hb) as [-> ->].
  rewrite page_offset, page_down_eq. unfold PAGE_SIZE in *.
  destruct (same_page v va) as [S1 S2]; [lia..|].
  case_decide as Hd; [rewrite decide_True by by apply S1|rewrite decide_False by (intros ?; by apply Hd, S2)]; [lia|done].
Qed.

Lemma map_fresh va flags s :
  user_ok s → 0 ≤ va < 2 ^ 47 → va `mod` PAGE_SIZE = 0 → Z.land flags PHYS_MASK = 0 → Z.testbit flags 0 = true →
  ensures ('(s, phys) ← alloc s; s ← Vmm.map va phys flags s; Ok (s, phys)) (λ '(s', phys),
    extends P (get_pml4 s) s s' ∧ data_frame P (get_pml4 s) s' (frame_of phys) ∧ is_frame phys ∧ phys ≠ 0 ∧
    fa_used (fa s) (frame_of phys) = false ∧ sets_rights va flags (get_pml4 s) s s' ∧
    ∀ v, 0 ≤ v < 2 ^ 47 → walk (pm s') (get_pml4 s) v =
      if decide (v / PAGE_SIZE = va / PAGE_SIZE) then phys + v `mod` PAGE_SIZE else walk (pm s) (get_pml4 s) v).
Proof using All.
  intros Hu Hva Hal Hfl Hb. destruct (alloc s) as [[s1 phys]| | |] eqn:Ea;
    try by (unfold alloc in Ea; destruct (fa_alloc_total (fa s)) as [[[? ?] E]|E]; rewrite E in Ea).
  res_step. destruct (map_frame va flags s s1 phys Hu Ea Hva Hal Hfl Hb) as (F & N & U & M).
  eapply ensures_bind; [exact M|]. intros s2 (X & D & Hr & W). split_and!; assumption.
Qed.

(** The same, for what follows in the code. *)
Lemma map_fresh_then {B} va flags s (rest : Vmm A → Z → Res B) (R : B → Prop) :
  user_ok s → 0 ≤ va < 2 ^ 47 → va `mod` PAGE_SIZE = 0 → Z.land flags PHYS_MASK = 0 → Z.testbit flags 0 = true →
  (∀ s' phys, extends P (get_pml4 s) s s' → data_frame P (get_pml4 s) s' (frame_of phys) → is_frame phys → phys ≠ 0 →
    fa_used (fa s) (frame_of phys) = false → sets_rights va flags (get_pml4 s) s s' →
    (∀ v, 0 ≤ v < 2 ^ 47 → walk (pm s') (get_pml4 s) v =
      if decide (v / PAGE_SIZE = va / PAGE_SIZE) then phys + v `mod` PAGE_SIZE else walk (pm s) (get_pml4 s) v) →
    ensures (rest s' phys) R) →
  ensures ('(s, phys) ← alloc s; s ← Vmm.map va phys flags s; rest s phys) R.
Proof using All.
  intros Hu Hva Hal Hfl Hb Hrest. pose proof (map_fresh va flags s Hu Hva Hal Hfl Hb) as Hm.
  destruct (alloc s) as [[s1 phys]| | |]; try done. simpl in Hm |- *. destruct (Vmm.map va phys flags s1) as [s2| | |]; try done.
  simpl in Hm |- *. destruct Hm as (X & D & F & N & U & Hr & W). by apply Hrest.
Qed.

(** Whatever is written to the new frame of a page is what the page holds. *)
Lemma page_fills va flags f s s1 phys m :
  0 ≤ va < 2 ^ 47 → va `mod` PAGE_SIZE = 0 →
  extends P (get_pml4 s) s s1 → data_frame P (get_pml4 s) s1 (frame_of phys) → is_frame phys → phys ≠ 0 →
  fa_used (fa s) (frame_of phys) = false → sets_rights va flags (get_pml4 s) s s1 →
  (∀ v, 0 ≤ v < 2 ^ 47 → walk (pm s1) (get_pml4 s) v =
    if decide (v / PAGE_SIZE = va / PAGE_SIZE) then phys + v `mod` PAGE_SIZE else walk (pm s) (get_pml4 s) v) →
  (∀ x, frame_of x ≠ frame_of phys → m x = pm s1 x) → (∀ j, 0 ≤ j < PAGE_SIZE → m (phys + j) = f (va + j)) →
  fills (λ v, va ≤ v < va + PAGE_SIZE) flags f s (with_pm m s1).
Proof using All.
  intros Hva Hal X D F N Ufree [Rin Rout] W Hm Him. pose proof (extends_pml4 _ _ _ X) as R1.
  destruct (write_extends P (get_pml4 s) s1 m (frame_of phys) (x_tree _ _ _ _ X) D Hm) as (Ht & Hd & Hw).
  assert (∀ v, 0 ≤ v < 2 ^ 47 → walk m (get_pml4 s) v = walk (pm s1) (get_pml4 s) v) as Hw' by (intros v Hv; by apply (Hw v), HP).
  assert (get_pml4 (with_pm m s1) = get_pml4 s) as R2 by exact R1. split.
  - split; [done|apply X|apply X|intros g Hg; by apply Hd, X|]. intros x Hx. cbn [pm with_pm]. rewrite Hm; [by apply X|].
    intros Heq. rewrite Heq in Hx. destruct Hx. congruence.
  - intros v Hv Hin. unfold holds. rewrite R2. cbn [pm with_pm]. rewrite Hw', W by done.
    rewrite decide_True by (unfold PAGE_SIZE in *; Z.div_mod_to_equations; lia).
    assert (v `mod` PAGE_SIZE = v - va) as -> by (unfold PAGE_SIZE in *; Z.div_mod_to_equations; lia).
    split_and!.
    + destruct F as (g & -> & Hg). unfold PAGE_SIZE in *. lia.
    + rewrite frame_of_offset by (done || lia). by apply Hd.
    + rewrite Him by lia. f_equal. lia.
  - intros v Hv Hn. rewrite R2. cbn [pm with_pm]. rewrite Hw', W by done. rewrite decide_False; [done|].
    intros Heq. apply Hn. unfold PAGE_SIZE in *. Z.div_mod_to_equations. lia.
  - intros v Hv Hin. rewrite R2. cbn [pm with_pm]. rewrite Hw', W by done.
    rewrite decide_True by (unfold PAGE_SIZE in *; Z.div_mod_to_equations; lia).
    rewrite frame_of_offset by (done || (unfold PAGE_SIZE in *; Z.div_mod_to_equations; lia)). split; [|done].
    destruct F as (g & -> & Hg). unfold frame_of. by rewrite Z.div_mul by (unfold PAGE_SIZE; lia).
  - intros v Hv Hin. rewrite R2. apply (rights_write P (get_pml4 s) s1 m (frame_of phys)); [apply X|done|done|by apply HP|].
    apply Rin; [done|]. unfold PAGE_SIZE in *. Z.div_mod_to_equations. lia.
  - intros v fl Hv Hn Hr. rewrite R2. apply (rights_write P (get_pml4 s) s1 m (frame_of phys)); [apply X|done|done|by apply HP|].
    apply Rout; [done| |done]. intros Heq. apply Hn. unfold PAGE_SIZE in *. Z.div_mod_to_equations. lia.
Qed.

Lemma outside_frame phys x : is_frame phys → frame_of x ≠ frame_of phys → x < phys ∨ phys + PAGE_SIZE ≤ x.
Proof using Type.
  intros F Hx. destruct (decide (phys ≤ x < phys + PAGE_SIZE)); [|lia]. destruct Hx.
  replace x with (phys + (x - phys)) by lia. apply frame_of_offset; [done|lia].
Qed.

(** Clearing a frame. *)
Lemma cleared_outside m phys : is_frame phys → ∀ x, frame_of x ≠ frame_of phys → fill m phys PAGE_SIZE 0 x = m x.
Proof using Type.
  intros F x Hx. unfold fill. destruct (outside_frame phys x F Hx); [by rewrite (proj2 (Z.leb_gt _ _)) by lia|].
  rewrite (proj2 (Z.ltb_ge x _)) by lia. by rewrite andb_false_r.
Qed.

Lemma cleared_inside m phys : ∀ j, 0 ≤ j < PAGE_SIZE → fill m phys PAGE_SIZE 0 (phys + j) = 0.
Proof using Type. intros j Hj. unfold fill. by rewrite (proj2 (Z.leb_le _ _)), (proj2 (Z.ltb_lt _ _)) by lia. Qed.

(** The bytes copied into the page at [va]. *)
Lemma page_bytes data size ph va copy_start copy_end :
  seg_ok data size ph → 0 ≤ va →
  copy_start = (if va <? ph_vaddr ph then ph_vaddr ph else va) →
  copy_end = (if ph_vaddr ph + ph_filesz ph <? va + PAGE_SIZE then ph_vaddr ph + ph_filesz ph else va + PAGE_SIZE) →
  (copy_end ≤ copy_start → ∀ x, va ≤ x < va + PAGE_SIZE → image data ph x = 0) ∧
  (copy_start < copy_end → ∃ bytes, slice data (ph_offset ph + (copy_start - ph_vaddr ph)) (copy_end - copy_start) = Some bytes ∧
    0 ≤ copy_start - va ∧ copy_end - va ≤ PAGE_SIZE ∧ zlen bytes = copy_end - copy_start ∧
    ∀ x, va ≤ x < va + PAGE_SIZE → image data ph x = default 0 (zget bytes (x - copy_start))).
Proof.
  intros [(Ha1 & Ha2 & Ha3) (Hf1 & Hf2 & Hf3) _] Hva Hcs Hce.
  assert (copy_start = Z.max va (ph_vaddr ph)) as -> by (destruct (Z.ltb_spec va (ph_vaddr ph)); lia).
  assert (copy_end = Z.min (va + PAGE_SIZE) (ph_vaddr ph + ph_filesz ph)) as -> by (case_match; bool_arith; lia).
  clear Hcs Hce. set (cs := Z.max va (ph_vaddr ph)) in *. set (ce := Z.min _ _) in *. split.
  - intros Hle x Hx. unfold image. rewrite decide_False by lia. done.
  - intros Hlt. destruct (slice_is_Some data (ph_offset ph + (cs - ph_vaddr ph)) (ce - cs)) as [bytes Hb]; [lia..|].
    exists bytes. pose proof (slice_length _ _ _ _ Hb) as Hl. split_and!; [done|lia|lia|done|].
    intros x Hx. unfold slice in Hb. destruct (_ || _); [done|]. injection Hb as <-.
    unfold image, zget. case_decide as Hin.
    + rewrite (proj2 (Z.ltb_ge (x - cs) 0)), (proj2 (Z.ltb_ge (ph_offset ph + (x - ph_vaddr ph)) 0)) by lia.
      rewrite lookup_take_lt, lookup_drop by lia. f_equal. f_equal. lia.
    + destruct (Z.ltb_spec (x - cs) 0); [done|]. rewrite lookup_take_ge by lia. done.
Qed.

Lemma load_page_spec data size ph flags va s :
  user_ok s → seg_ok data size ph → 0 ≤ va < 2 ^ 47 → va `mod` PAGE_SIZE = 0 →
  Z.land flags PHYS_MASK = 0 → Z.testbit flags 0 = true →
  ensures (load_page data ph flags va s) (fills (λ v, va ≤ v < va + PAGE_SIZE) flags (image data ph) s).
Proof using All.
  intros Hu Hseg Hva Hal Hfl Hb. unfold load_page.
  apply (map_fresh_then va flags s); try done. intros s1 phys X D F N Ufree Hr W.
  pose proof (extends_pml4 _ _ _ X) as R1. pose proof Hseg as [(Ha1 & Ha2 & Ha3) (Hf1 & Hf2 & Hf3) Hsz].
  rewrite (u64_small (ph_vaddr ph + ph_filesz ph)), (u64_small (va + PAGE_SIZE)) by (unfold is_u64, PAGE_SIZE in *; lia).
  destruct (page_bytes data size ph va _ _ Hseg ltac:(lia) eq_refl eq_refl) as [Hno Hyes].
  set (cs := if va <? ph_vaddr ph then ph_vaddr ph else va) in *. set (ce := if _ <? va + PAGE_SIZE then _ else _) in *.
  assert (∀ m, (∀ x, frame_of x ≠ frame_of phys → m x = pm s1 x) → (∀ j, 0 ≤ j < PAGE_SIZE → m (phys + j) = image data ph (va + j)) →
    fills (λ v, va ≤ v < va + PAGE_SIZE) flags (image data ph) s (with_pm m s1)) as Hfill by (intros m; by apply page_fills).
  pose proof (cleared_outside (pm s1) phys F) as Hzero. pose proof (cleared_inside (pm s1) phys) as Hz.
  destruct (Z.ltb_spec cs ce) as [Hlt|Hge].
  - destruct (Hyes Hlt) as (bytes & Hb1 & Hb2 & Hb3 & Hb4 & Him).
    rewrite u64_small by (unfold is_u64; destruct (Z.ltb_spec va (ph_vaddr ph)); unfold cs, ce in *; case_match; lia).
    rewrite Hb1. res_step. apply Hfill; cbn [pm with_pm].
    + intros x Hx. rewrite store_bytes_outside; [by apply Hzero|]. destruct (outside_frame phys x F Hx); lia.
    + intros j Hj. unfold store_bytes. rewrite Him by lia. replace (phys + j - (phys + (cs - va))) with (va + j - cs) by lia.
      destruct (zget bytes (va + j - cs)); [done|]. by apply Hz.
  - simpl. apply Hfill; cbn [pm with_pm]; [done|]. intros j Hj. rewrite Hz by done. symmetry. apply Hno; lia.
Qed.

(** ** Frames taken *)

(** A mapped page takes its own frame and at most three for tables. *)
Lemma map_costs va phys flags s : costs fa 3 (Vmm.map va phys flags s) (fa s).
Proof using H0. apply map_into_costs. Qed.

Lemma load_page_costs data ph flags va s : costs fa 4 (load_page data ph flags va s) (fa s).
Proof using H0.
  unfold load_page. apply (costs_bind fst_fa fa 1 3); [apply costs_alloc_frame|]. intros [s1 phys] _.
  apply (costs_bind fa fa 3 0); [apply map_costs|]. intros s2 _. case_match; [|by apply costs_keep].
  apply costs_pure; [by destruct (slice _ _ _)|]. intros bytes _. by apply costs_keep.
Qed.

Lemma load_pages_costs n data ph flags va s : costs fa (4 * n) (load_pages n data ph flags va s) (fa s).
Proof using H0.
  revert va s. induction n as [|n IH]; intros va s; [by apply costs_keep|]. cbn [load_pages].
  replace (4 * S n)%nat with (4 + 4 * n)%nat by lia. apply (costs_bind fa); [apply load_page_costs|]. intros s1 _. apply IH.
Qed.

(** The pages of a segment, counted. *)
Definition seg_pages (ph : Phdr) : nat := Z.to_nat ((seg_hi ph - seg_lo ph) / PAGE_SIZE).

Lemma load_segment_costs data size ph s :
  seg_ok data size ph → costs fst_fa (4 * seg_pages ph) (load_segment data size ph s) (fa s).
Proof using H0.
  intros [(? & ? & ?) _ _]. unfold load_segment.
  case_match; [by apply (costs_weaken _ 0); [lia|apply costs_keep]|].
  case_match; [by apply (costs_weaken _ 0); [lia|apply costs_keep]|].
  rewrite u64_small by (unfold is_u64; lia). rewrite <-(Nat.add_0_r (4 * _)).
  apply (costs_bind fa); [apply load_pages_costs|]. intros s1 _. by apply costs_keep.
Qed.

(** ** A segment *)

Lemma fills_ext (I J : Z → Prop) fl f s s' : (∀ v, I v ↔ J v) → fills I fl f s s' → fills J fl f s s'.
Proof.
  intros Hij [X In Out New Ri Ke]. split; [done|intros v Hv Hj; by apply In; [|apply Hij]|intros v Hv Hj; apply Out; [done|]; by rewrite Hij|..].
  - intros v Hv Hj. by apply New; [|apply Hij].
  - intros v Hv Hj. by apply Ri; [|apply Hij].
  - intros v fl' Hv Hj. apply Ke; [done|]. by rewrite Hij.
Qed.

Lemma fills_none (I : Z → Prop) fl f s : user_ok s → (∀ v, ¬ I v) → fills I fl f s s.
Proof. intros Hu Hn. split; [apply extends_refl, Hu|intros v _ Hv; by destruct (Hn v)|done|intros v _ Hv; by destruct (Hn v)..|done]. Qed.

Lemma load_pages_spec data size ph flags n va s :
  user_ok s → seg_ok data size ph → 0 ≤ va → va + Z.of_nat n * PAGE_SIZE ≤ 2 ^ 47 → va `mod` PAGE_SIZE = 0 →
  Z.land flags PHYS_MASK = 0 → Z.testbit flags 0 = true →
  ensures (load_pages n data ph flags va s) (fills (λ v, va ≤ v < va + Z.of_nat n * PAGE_SIZE) flags (image data ph) s).
Proof using All.
  intros Hu Hseg Hva Hend Hal Hfl Hb. revert va s Hu Hva Hend Hal. induction n as [|n IH]; intros va s Hu Hva Hend Hal; cbn [load_pages].
  { simpl. apply fills_none; [done|]. intros v. lia. }
  eapply ensures_bind; [apply (load_page_spec data size); try done; unfold PAGE_SIZE in *; lia|].
  intros s1 F1. pose proof (extends_user _ _ Hu (fi_ext _ _ _ _ _ F1)) as Hu1.
  eapply ensures_mono; [apply IH; [done|unfold PAGE_SIZE in *; lia..|]|].
  { rewrite Z.add_mod, Hal by (unfold PAGE_SIZE; lia). reflexivity. }
  intros s2 F2. eapply fills_ext; [|eapply fills_trans; [..|exact F1|exact F2]].
  - intros v. cbn beta. unfold PAGE_SIZE. lia.
  - intros v. apply and_dec; apply Z_le_dec || apply Z_lt_dec.
  - intros v. apply and_dec; apply Z_le_dec || apply Z_lt_dec.
  - intros v. cbn beta. lia.
Qed.

Lemma page_up_down x y :
  0 ≤ x ≤ y → y ≤ 2 ^ 47 →
  0 ≤ page_down x ∧ page_up y ≤ 2 ^ 47 ∧ page_down x `mod` PAGE_SIZE = 0 ∧
  page_down x + Z.of_nat (pages_between (page_down x) (page_up y)) * PAGE_SIZE = page_up y.
Proof.
  intros Hx Hy. unfold pages_between, page_up. rewrite page_down_eq.
  change (PAGE_SIZE - 1) with 4095. rewrite !band_not_4095. unfold PAGE_SIZE.
  rewrite u64_small by (unfold is_u64; lia). Z.div_mod_to_equations. lia.
Qed.

Lemma load_segment_spec data size ph s :
  user_ok s → seg_ok data size ph →
  ensures (load_segment data size ph s) (λ '(s', ok), ok = true ∧ fills (in_seg ph) (seg_flags (ph_flags ph)) (image data ph) s s').
Proof using All.
  intros Hu Hseg. pose proof Hseg as [(Ha1 & Ha2 & Ha3) (Hf1 & Hf2 & Hf3) Hsz]. unfold load_segment.
  rewrite (proj2 (Z.ltb_ge (ph_memsz ph) _)), (proj2 (Z.ltb_ge size _)), (proj2 (Z.ltb_ge (size - _) _)) by lia. cbn [orb].
  rewrite u64_small by (unfold is_u64; lia). fold (seg_lo ph) (seg_hi ph).
  destruct (page_up_down (ph_vaddr ph) (ph_vaddr ph + ph_memsz ph)) as (L0 & L1 & L2 & L3); [lia..|].
  fold (seg_lo ph) in *. fold (seg_hi ph) in *. destruct (seg_flags_ok (ph_flags ph)) as [F1 F2].
  eapply ensures_bind; [apply (load_pages_spec data size); done || lia|].
  intros s' Hf. simpl. split; [done|]. eapply fills_ext; [|exact Hf]. intros v. cbn beta. unfold in_seg. lia.
Qed.

(** ** The program *)

Fixpoint disjoint_segs (L : list Phdr) : Prop :=
  match L with
  | [] => True
  | ph :: L => (∀ ph', ph' ∈ L → ∀ va, in_seg ph va → ¬ in_seg ph' va) ∧ disjoint_segs L
  end.

(** The segments of [L] are loaded in [s'], and nothing else changed. *)
Record loaded (data : list Z) (L : list Phdr) (s s' : Vmm A) : Prop := {
  lo_ext : extends P (get_pml4 s) s s';
  lo_in ph va : ph ∈ L → 0 ≤ va < 2 ^ 47 → in_seg ph va → holds s' va (image data ph va);
  lo_out va : 0 ≤ va < 2 ^ 47 → (∀ ph, ph ∈ L → ¬ in_seg ph va) →
    walk (pm s') (get_pml4 s') va = walk (pm s) (get_pml4 s) va;
  lo_new ph va : ph ∈ L → 0 ≤ va < 2 ^ 47 → in_seg ph va → free_frame s (frame_of (walk (pm s') (get_pml4 s') va));
  lo_rights ph va : ph ∈ L → 0 ≤ va < 2 ^ 47 → in_seg ph va → rights (pm s') (get_pml4 s') va (seg_flags (ph_flags ph));
  lo_keep va fl : 0 ≤ va < 2 ^ 47 → (∀ ph, ph ∈ L → ¬ in_seg ph va) →
    rights (pm s) (get_pml4 s) va fl → rights (pm s') (get_pml4 s') va fl;
}.

Definition is_load (ph : Phdr) : Prop := ph_type ph = PT_LOAD.
#[local] Instance is_load_dec ph : Decision (is_load ph).
Proof. unfold is_load. apply _. Defined.

(** Where the program headers themselves are loaded, and the end of the program. *)
Definition header_addr (phoff : Z) (L : list Phdr) (a : Z) : Z :=
  foldl (λ a ph, if decide (ph_offset ph ≤ phoff < ph_offset ph + ph_filesz ph)
                 then ph_vaddr ph + (phoff - ph_offset ph) else a) a L.

Definition top_addr (L : list Phdr) (h : Z) : Z := foldl (λ h ph, Z.max h (seg_hi ph)) h L.

Lemma load_phdrs_spec data size phoff sz phs i pv h s :
  user_ok s → 0 ≤ phoff → Forall (λ ph, is_load ph → seg_ok data size ph) phs → disjoint_segs (filter is_load phs) →
  (∀ j ph, phs !! j = Some ph → read_phdr data (phoff + (i + Z.of_nat j) * sz) = Ok ph) →
  ensures (load_phdrs (length phs) data size phoff sz i pv h s) (λ '(s', r),
    r = Some (header_addr phoff (filter is_load phs) pv, top_addr (filter is_load phs) h) ∧
    loaded data (filter is_load phs) s s').
Proof using All.
  intros Hu Hoff Hsegs Hd Hrd. revert i pv h s Hu Hrd. induction phs as [|ph phs IH]; intros i pv h s Hu Hrd; cbn [load_phdrs length].
  { simpl. split; [done|]. split; [apply extends_refl, Hu|intros ? ? Hin; by apply not_elem_of_nil in Hin|done|intros ? ? Hin; by apply not_elem_of_nil in Hin..|done]. }
  apply Forall_cons in Hsegs as [Hseg Hsegs]. pose proof (Hrd 0%nat ph eq_refl) as H0rd. rewrite Z.add_0_r in H0rd.
  rewrite H0rd. res_step.
  assert (∀ j ph, phs !! j = Some ph → read_phdr data (phoff + (i + 1 + Z.of_nat j) * sz) = Ok ph) as Hrd'.
  { intros j ph' Hj. rewrite <-(Hrd (S j) ph' Hj). f_equal. lia. }
  destruct (Z.eqb_spec (ph_type ph) PT_LOAD) as [Ht|Ht]; cbn [negb].
  - rewrite filter_cons_True in Hd |- * by done. destruct Hd as [Hd1 Hd2]. specialize (Hseg Ht).
    eapply ensures_bind; [by apply (load_segment_spec data size)|]. intros [s1 ok] [-> F1]. cbn [negb].
    pose proof (extends_user _ _ Hu (fi_ext _ _ _ _ _ F1)) as Hu1. pose proof Hseg as [(Ha1 & Ha2 & Ha3) (Hf1 & Hf2 & Hf3) Hsz].
    rewrite (u64_small (ph_vaddr ph + ph_memsz ph)) by (unfold is_u64; lia). fold (seg_hi ph).
    eapply ensures_mono; [by apply IH|]. intros [s' r] [-> [X2 In2 Out2 New2 Ri2 Ke2]]. split.
    + unfold header_addr, top_addr. cbn [foldl]. f_equal. f_equal; f_equal.
      * destruct (Z.leb_spec (ph_offset ph) phoff), (Z.ltb_spec (phoff - ph_offset ph) (ph_filesz ph)); cbn [andb];
          [rewrite decide_True by lia; apply u64_small; unfold is_u64; lia|rewrite decide_False by lia; done..].
      * destruct (Z.ltb_spec h (seg_hi ph)); lia.
    + pose proof (extends_pml4 _ _ _ (fi_ext _ _ _ _ _ F1)) as R1. split.
      * eapply extends_trans; [apply F1|]. by rewrite R1 in X2.
      * intros ph' va [->|Hin]%elem_of_cons Hva Hsv; [|by apply In2].
        eapply holds_extends; [exact X2|by apply (fi_in _ _ _ _ _ F1)|]. apply Out2; [done|]. intros ph' Hin. by apply (Hd1 ph').
      * intros va Hva Hn. rewrite Out2; [|done|intros ph' Hin; apply Hn, list_elem_of_further, Hin].
        apply (fi_out _ _ _ _ _ F1); [done|]. apply Hn, list_elem_of_here.
      * intros ph' va [->|Hin]%elem_of_cons Hva Hsv; [|by eapply extends_free, New2; [apply F1| | |]].
        rewrite Out2; [by apply (fi_new _ _ _ _ _ F1)|done|]. intros ph' Hin. by apply (Hd1 ph').
      * intros ph' va [->|Hin]%elem_of_cons Hva Hsv; [|by apply Ri2].
        apply Ke2; [done| |by apply (fi_rights _ _ _ _ _ F1)]. intros ph' Hin. by apply (Hd1 ph').
      * intros va fl Hva Hn Hr. apply Ke2; [done|intros ph' Hin; apply Hn, list_elem_of_further, Hin|].
        apply (fi_keep _ _ _ _ _ F1); [done| |done]. apply Hn, list_elem_of_here.
  - rewrite filter_cons_False in Hd |- * by done. by apply IH.
Qed.

Lemma load_phdrs_costs data size phoff sz phs i pv h s :
  Forall (λ ph, is_load ph → seg_ok data size ph) phs →
  (∀ j ph, phs !! j = Some ph → read_phdr data (phoff + (i + Z.of_nat j) * sz) = Ok ph) →
  costs fst_fa (4 * sum_list_with seg_pages (filter is_load phs)) (load_phdrs (length phs) data size phoff sz i pv h s) (fa s).
Proof using H0.
  intros Hsegs Hrd. revert i pv h s Hrd. induction phs as [|ph phs IH]; intros i pv h s Hrd; [by apply costs_keep|].
  cbn [load_phdrs length]. apply Forall_cons in Hsegs as [Hseg Hsegs].
  pose proof (Hrd 0%nat ph eq_refl) as H0rd. rewrite Z.add_0_r in H0rd. rewrite H0rd. res_step.
  assert (∀ j ph, phs !! j = Some ph → read_phdr data (phoff + (i + 1 + Z.of_nat j) * sz) = Ok ph) as Hrd'.
  { intros j ph' Hj. rewrite <-(Hrd (S j) ph' Hj). f_equal. lia. }
  destruct (Z.eqb_spec (ph_type ph) PT_LOAD) as [Ht|Ht]; cbn [negb].
  - rewrite filter_cons_True by done. cbn [sum_list_with]. rewrite Nat.mul_add_distr_l.
    apply (costs_bind fst_fa); [by apply load_segment_costs, Hseg|]. intros [s1 ok] _. unfold fst_fa at 2. cbn [fst].
    destruct ok; cbn [negb]; [by apply IH|]. by apply (costs_weaken _ 0); [lia|apply costs_keep].
  - rewrite filter_cons_False by done. by apply IH.
Qed.

(** A well-formed executable: the header's fields and the table of program headers. *)
Record elf_file (data : list Z) (size : Z) (ent phoff sz : Z) (phs : list Phdr) : Prop := {
  ef_size : SIZEOF_EHDR ≤ size ≤ zlen data;
  ef_magic : slice data 0 4 = Some ELFMAG;
  ef_class : zget data EI_CLASS = Some ELFCLASS64 ∧ zget data EI_DATA = Some ELFDATA2LSB;
  ef_type : e_type data = Ok ET_EXEC ∧ e_machine data = Ok EM_X86_64;
  ef_table : e_phoff data = Ok phoff ∧ e_phnum data = Ok (zlen phs) ∧ e_phentsize data = Ok sz ∧ e_entry data = Ok ent;
  ef_bounds : 0 < phoff ∧ phs ≠ [] ∧ SIZEOF_PHDR ≤ sz ∧ phoff + zlen phs * sz ≤ size;
  ef_phdrs j ph : phs !! j = Some ph → read_phdr data (phoff + Z.of_nat j * sz) = Ok ph;
}.

Lemma parse_and_load_spec data size ent phoff sz phs s :
  user_ok s → elf_file data size ent phoff sz phs →
  Forall (λ ph, is_load ph → seg_ok data size ph) phs → disjoint_segs (filter is_load phs) →
  ensures (parse_and_load data size s) (λ '(s', r),
    r = Some (MkLoadResult ent (header_addr phoff (filter is_load phs) 0) (zlen phs) sz (top_addr (filter is_load phs) 0)) ∧
    loaded data (filter is_load phs) s s').
Proof using All.
  intros Hu [Hs Hm [Hc He] [Ht Hmc] (T1 & T2 & T3 & T4) (B1 & B2 & B3 & B4) Hph] Hsegs Hd. unfold parse_and_load.
  rewrite (proj2 (Z.ltb_ge size _)) by lia. rewrite Hm. res_step. rewrite bool_decide_true by done. cbn [negb].
  rewrite Hc, He. res_step. rewrite !Z.eqb_refl. cbn [negb orb]. rewrite Ht, Hmc. res_step. rewrite !Z.eqb_refl. cbn [negb].
  rewrite T1, T2. res_step. assert (0 < zlen phs) by (destruct phs; [done|unfold zlen; simpl; lia]).
  rewrite (proj2 (Z.eqb_neq phoff 0)), (proj2 (Z.eqb_neq (zlen phs) 0)) by lia. cbn [orb]. rewrite T3. res_step.
  rewrite (proj2 (Z.ltb_ge sz _)), (proj2 (Z.ltb_ge size phoff)), (proj2 (Z.ltb_ge (size - phoff) _)) by (unfold SIZEOF_PHDR in *; nia). cbn [orb].
  replace (Z.to_nat (zlen phs)) with (length phs) by (unfold zlen; lia). eapply ensures_bind.
  - apply (load_phdrs_spec data size phoff sz phs 0); [done|lia|done|done|]. intros j ph Hj. rewrite Z.add_0_l. by apply Hph.
  - intros [s' r] [-> HL]. rewrite T4. res_step. simpl. done.
Qed.

Lemma parse_and_load_costs data size ent phoff sz phs s :
  elf_file data size ent phoff sz phs → Forall (λ ph, is_load ph → seg_ok data size ph) phs →
  costs fst_fa (4 * sum_list_with seg_pages (filter is_load phs)) (parse_and_load data size s) (fa s).
Proof using H0.
  intros [Hs Hm [Hc He] [Ht Hmc] (T1 & T2 & T3 & T4) _ Hph] Hsegs. unfold parse_and_load.
  assert (∀ r : option LoadResult, costs fst_fa (4 * sum_list_with seg_pages (filter is_load phs)) (Ok (s, r)) (fa s)) as Hno.
  { intros r. by apply (costs_weaken _ 0); [lia|apply costs_keep]. }
  case_match; [apply Hno|]. rewrite Hm. res_step. case_match; [apply Hno|].
  rewrite Hc, He. res_step. case_match; [apply Hno|]. rewrite Ht. res_step. case_match; [apply Hno|].
  rewrite Hmc. res_step. case_match; [apply Hno|]. rewrite T1, T2, T3. res_step. case_match; [apply Hno|].
  case_match; [apply Hno|]. replace (Z.to_nat (zlen phs)) with (length phs) by (unfold zlen; lia).
  rewrite <-(Nat.add_0_r (4 * _)). apply (costs_bind fst_fa).
  { apply load_phdrs_costs; [done|]. intros j ph Hj. rewrite Z.add_0_l. by apply Hph. }
  intros [s1 r] _. destruct r as [[pv h]|]; [|by apply costs_keep]. rewrite T4. res_step. by apply costs_keep.
Qed.

End spec.

(** ** The property *)


(** An executable with one segment: the headers, three bytes and a bss. *)
Definition tiny_elf : list Z :=
  ELFMAG ++ [2; 1; 1; 0] ++ replicate 8 0 ++ le_bytes 2 2 ++ le_bytes 2 62 ++ le_bytes 4 1 ++ le_bytes 8 0x400078 ++
  le_bytes 8 64 ++ le_bytes 8 0 ++ le_bytes 4 0 ++ le_bytes 2 64 ++ le_bytes 2 56 ++ le_bytes 2 1 ++ replicate 6 0 ++
  le_bytes 4 1 ++ le_bytes 4 5 ++ le_bytes 8 0 ++ le_bytes 8 0x400000 ++ le_bytes 8 0x400000 ++ le_bytes 8 123 ++
  le_bytes 8 300 ++ le_bytes 8 4096 ++ [0x90; 0x0F; 0x05] ++ [0].

Definition tiny_phdr : Phdr := MkPhdr 1 5 0 0x400000 123 300.

(** Blank memory, a zeroed PML4 at 4 KiB and eight free frames. *)
Definition user_blank : Vmm Pmm.Pmm := MkVmm (λ _, 0) (Pmm.MkPmm {[ 32 := 0 ]} 8 0) 0x1000 0.

Lemma user_blank_ok : user_ok (λ _, True) user_blank.
Proof.
  assert (∀ q t, table_at (pm user_blank) 0x1000 q = Some t → q = [] ∧ t = 0x1000) as Ht.
  { intros q t. destruct q as [|i q]; simpl; intros E; by simplify_eq. }
  split; [|vm_compute; reflexivity]. change (get_pml4 user_blank) with 0x1000. split.
  - intros q t _ _ [-> ->]%Ht. split; [exists 1; unfold NUM_FRAMES; split; [reflexivity|lia]|vm_compute; reflexivity].
  - by intros p q t _ _ _ _ [-> _]%Ht [-> _]%Ht.
  - intros p i t _ _ _ Hpr. vm_compute in Hpr. discriminate Hpr.
Qed.

Lemma tiny_elf_file : elf_file tiny_elf 123 0x400078 64 56 [tiny_phdr].
Proof.
  assert (zlen tiny_elf = 124) as Hl by (vm_compute; reflexivity).
  split; try (rewrite Hl; unfold SIZEOF_EHDR; lia); try (vm_compute; reflexivity); try (split; vm_compute; reflexivity).
  - split; [vm_compute; reflexivity|]. split; [vm_compute; reflexivity|]. split; vm_compute; reflexivity.
  - split; [lia|]. split; [discriminate|]. unfold SIZEOF_PHDR, zlen. simpl. lia.
  - intros j ph Hj. destruct j as [|j]; [|discriminate Hj]. injection Hj as <-. vm_compute. reflexivity.
Qed.

