(* ===== verification/User.v ===== *)
(** * Entering user mode ([task/user.cpp])

    Building the initial stack of a Linux program, copying to user pages, and
    [execve].  A user string is the list of the bytes from its pointer on; the
    physmap pointer of a page is its physical address.  Entering ring 3 never
    returns: it is an outcome. *)

From S2P Require Import Prelude CString Mem Frames Vmm Task Fs Vfs Elf.

Definition USER_CODE_VIRT : Z := 0x0000000000400000.
Definition USER_STACK_VIRT : Z := 0x00007FFFFFFFE000.
Definition LINUX_STACK_TOP : Z := USER_STACK_VIRT + 0x1000.
Definition LINUX_STACK_PAGES : Z := 128.
Definition LINUX_STACK_BASE : Z := LINUX_STACK_TOP - LINUX_STACK_PAGES * 0x1000.
Definition LINUX_MMAP_BASE : Z := 0x0000600000000000.

Definition AT_NULL : Z := 0.
Definition AT_PHDR : Z := 3.
Definition AT_PHENT : Z := 4.
Definition AT_PHNUM : Z := 5.
Definition AT_PAGESZ : Z := 6.
Definition AT_BASE : Z := 7.
Definition AT_FLAGS : Z := 8.
Definition AT_ENTRY : Z := 9.
Definition AT_UID : Z := 11.
Definition AT_EUID : Z := 12.
Definition AT_GID : Z := 13.
Definition AT_EGID : Z := 14.
Definition AT_SECURE : Z := 23.
Definition AT_RANDOM : Z := 25.

Definition MAX_ARGC : Z := 64.
Definition MAX_ENVC : Z := 32.

Definition USER_CODE_SELECTOR : Z := Z.lor 0x20 3.
Definition USER_DATA_SELECTOR : Z := Z.lor 0x18 3.

Definition USER_RX : Z := Z.lor PRESENT USER.
Definition USER_RW : Z := Z.lor (Z.lor (Z.lor PRESENT USER) WRITABLE) NO_EXECUTE.

Definition ENOENT : Z := 2.
Definition E2BIG : Z := 7.

(** What IRETQ pops. *)
Record IretFrame := MkIret { i_rip : Z; i_cs : Z; i_rflags : Z; i_rsp : Z; i_ss : Z }.

Definition enter_ring3 (entry_rip user_rsp : Z) : IretFrame :=
  MkIret entry_rip USER_CODE_SELECTOR 0x202 user_rsp USER_DATA_SELECTOR.

(** How a path into user mode ends. *)
Inductive Outcome := Returned (r : Z) | Ring3 (f : IretFrame).

(** ** Random bytes *)

Definition xorshift (x : Z) : Z :=
  let x := Z.lxor x (u64 (Z.shiftl x 13)) in
  let x := Z.lxor x (Z.shiftr x 7) in
  Z.lxor x (u64 (Z.shiftl x 17)).

Fixpoint random_loop (n : nat) (x : Z) : list Z :=
  match n with
  | O => []
  | S n => let x := xorshift x in u8 x :: random_loop n x
  end.

(** The 16 bytes [fill_random] writes; [tsc] is what RDTSC reads. *)
Definition fill_random (tsc : Z) : list Z :=
  random_loop 16 (if tsc =? 0 then 0x2545F4914F6CDD1D else tsc).

(** ** The argument block *)

(** The lengths of the strings, each with its NUL. *)
Fixpoint strings_len (strs : list (list Z)) : Res Z :=
  match strs with
  | [] => Ok 0
  | s :: strs => n ← strlen s; rest ← strings_len strs; Ok (n + 1 + rest)
  end.

(** Copy the strings to [off] and on; the offsets where they went. *)
Fixpoint put_strings (strs : list (list Z)) (scratch : list Z) (off : Z) : Res (list Z * Z * list Z) :=
  match strs with
  | [] => Ok (scratch, off, [])
  | s :: strs =>
      n ← strlen s;
      let len := n + 1 in
      scratch ← memcpy scratch off s 0 len;
      '(scratch, off', offs) ← put_strings strs scratch (off + len);
      Ok (scratch, off', off :: offs)
  end.

(** The words of the array section. *)
Definition stack_words (result : LoadResult) (base random_addr : Z) (argv_off envp_off : list Z) : list Z :=
  zlen argv_off :: ((λ o, u64 (base + o)) <$> argv_off) ++ [0] ++ ((λ o, u64 (base + o)) <$> envp_off) ++ [0] ++
  [AT_PHDR; phdr_vaddr result; AT_PHENT; phentsize result; AT_PHNUM; phnum result;
   AT_PAGESZ; 0x1000; AT_BASE; 0; AT_FLAGS; 0; AT_ENTRY; entry result;
   AT_UID; 0; AT_EUID; 0; AT_GID; 0; AT_EGID; 0; AT_SECURE; 0; AT_RANDOM; random_addr] ++
  [AT_NULL; 0].

Definition words_bytes (ws : list Z) : list Z := concat (le_bytes 8 <$> ws).

Section user.
Context {A : Type} `{FrameAlloc A}.

(** A fresh frame mapped at [virt]; its physical address. *)
Definition map_new_user_page (virt flags : Z) (s : Vmm A) : Res (Vmm A * Z) :=
  '(s, phys) ← alloc s;
  s ← Vmm.map virt phys flags s;
  Ok (s, phys).

(** [for (i = 0; i < LINUX_STACK_PAGES; ++i)]. *)
Fixpoint map_stack (n : nat) (virt : Z) (s : Vmm A) : Res (Vmm A) :=
  match n with
  | O => Ok s
  | S n => '(s, _) ← map_new_user_page virt USER_RW s; map_stack n (virt + 0x1000) s
  end.

Fixpoint copy_loop (fuel : nat) (va : Z) (src : list Z) (s : Vmm A) : Res (Vmm A) :=
  match fuel with
  | O => NoFuel
  | S fuel =>
      let remaining := zlen src in
      if negb (0 <? remaining) then Ok s else
      let page_base := band_not va 0xFFF in
      let page_off := va - page_base in
      let chunk := if 0x1000 - page_off <? remaining then 0x1000 - page_off else remaining in
      let kptr := virt_to_phys page_base s + page_off in
      copy_loop fuel (u64 (va + chunk)) (drop (Z.to_nat chunk) src)
        (with_pm (store_bytes (pm s) kptr (take (Z.to_nat chunk) src)) s)
  end.

(** Every turn but the first and the last copies a whole page. *)
Definition copy_to_user (user_addr : Z) (src : list Z) (s : Vmm A) : Res (Vmm A) :=
  copy_loop (S (S (S (Z.to_nat (zlen src / 0x1000))))) user_addr src s.

Context {K P : Type} `{KernelEnv K}.

(** [stale] is what the scratch block holds.  The initial user RSP, or 0. *)
Definition build_linux_stack (tsc : Z) (stale : Z → list Z) (result : LoadResult) (argv envp : list (list Z))
    (k : K) (s : Vmm A) : Res (K * Vmm A * Z) :=
  if (MAX_ARGC <? zlen argv) || (MAX_ENVC <? zlen envp) then Fault else
  let auxc := 13 in
  let arr_size := (1 + zlen argv + 1 + zlen envp + 1 + auxc * 2 + 2) * 8 in
  let arr_size_aligned := band_not (arr_size + 15) 15 in
  argv_size ← strings_len argv;
  envp_size ← strings_len envp;
  let strings_size := 16 + argv_size + envp_size in
  let total := u64 (arr_size_aligned + strings_size) in
  '(k, scratch) ← kmalloc total k;
  if scratch =? 0 then Ok (k, s, 0) else
  buf ← or_fault (splice (stale total) arr_size_aligned (fill_random tsc));
  '(buf, off, argv_off) ← put_strings argv buf (arr_size_aligned + 16);
  '(buf, _, envp_off) ← put_strings envp buf off;
  let base := u64 (LINUX_STACK_TOP - band_not (u64 (total + 15)) 15) in
  if base <? LINUX_STACK_BASE then k ← kfree scratch k; Ok (k, s, 0) else
  let random_addr := u64 (base + arr_size_aligned) in
  buf ← or_fault (splice buf 0 (words_bytes (stack_words result base random_addr argv_off envp_off)));
  s ← copy_to_user base buf s;
  k ← kfree scratch k;
  Ok (k, s, base).

(** ** Tasks *)

(** The parts of the system these functions touch: the VFS with its heap, the page
    tables and the current task's control block. *)
Record Usr := MkUsr { u_vfs : Vfs K P; u_vm : Vmm A; u_self : Task }.

Definition u_kern (u : Usr) : K := kern (u_vfs u).
Definition with_u_kern (k : K) (u : Usr) : Usr := MkUsr (with_kern k (u_vfs u)) (u_vm u) (u_self u).
Definition with_u_vm (s : Vmm A) (u : Usr) : Usr := MkUsr (u_vfs u) s (u_self u).

(** [self->brk_start = self->brk_cur = top; self->mmap_next = LINUX_MMAP_BASE]. *)
Definition set_memory (top : Z) (t : Task) : Task :=
  set_mmap_next LINUX_MMAP_BASE (set_brk_cur top (set_brk_start top t)).

(** [char path\[128\]; strncpy(path, src, 128); path\[127\] = 0]. *)
Definition take_path (src : list Z) : Res (list Z) :=
  path ← strncpy (replicate 128 0) src 128;
  or_fault (zset path 127 0).

(** The entry of a test task: [payload] is the bytes of [user_test.asm]. *)
Definition user_task_entry (payload : list Z) (s : Vmm A) : Res (Vmm A * Outcome) :=
  '(s, code_kernel) ← map_new_user_page USER_CODE_VIRT USER_RX s;
  if 0x1000 <? zlen payload then Fault else
  let s := with_pm (store_bytes (pm s) code_kernel payload) s in
  '(s, _) ← map_new_user_page USER_STACK_VIRT USER_RW s;
  Ok (s, Ring3 (enter_ring3 USER_CODE_VIRT (USER_STACK_VIRT + 4096))).

(** The entry of a Linux task; [args] points to its copied path, [args_path]. *)
Definition linux_task_entry (dir_fuel : nat) (stale : list Z) (fresh : Z → list Z) (tsc args : Z) (args_path : list Z) (u : Usr)
    : Res (Usr * Outcome) :=
  path ← take_path args_path;
  k ← kfree args (u_kern u);
  let u := with_u_kern k u in
  '(v, s, r) ← Elf.load dir_fuel stale fresh path (u_vfs u) (u_vm u);
  let u := MkUsr v s (u_self u) in
  match r with
  | None => Ok (u, Returned 0)
  | Some result =>
      s ← map_stack (Z.to_nat LINUX_STACK_PAGES) LINUX_STACK_BASE (u_vm u);
      let u := MkUsr (u_vfs u) s (set_memory (highest_addr result) (u_self u)) in
      '(k, s, user_rsp_initial) ← build_linux_stack tsc fresh result [path] [] (u_kern u) (u_vm u);
      let u := with_u_vm s (with_u_kern k u) in
      if user_rsp_initial =? 0 then Ok (u, Returned 0)
      else Ok (u, Ring3 (enter_ring3 (entry result) user_rsp_initial))
  end.

(** ** execve *)

(** Copies of the user's strings, at most [room] of them; the allocation is not
    checked.  The pointers of the copies with their contents. *)
Fixpoint copy_args (room : nat) (user : list (list Z)) (k : K) : Res (K * list (Z * list Z)) :=
  match room, user with
  | O, _ | _, [] => Ok (k, [])
  | S room, str :: user =>
      n ← strlen str;
      let len := n + 1 in
      '(k, copy) ← kmalloc len k;
      if copy =? 0 then Fault else
      bytes ← or_fault (slice str 0 len);
      '(k, rest) ← copy_args room user k;
      Ok (k, (copy, bytes) :: rest)
  end.

Fixpoint free_copies (copies : list (Z * list Z)) (k : K) : Res K :=
  match copies with
  | [] => Ok k
  | (p, _) :: copies => k ← kfree p k; free_copies copies k
  end.

(** [self->cr3 = c; mov cr3, c]. *)
Definition switch_space (c : Z) (u : Usr) : Usr :=
  MkUsr (u_vfs u) (with_cr3 c (u_vm u)) (set_task_cr3 c (u_self u)).

(** [argv_user] and [envp_user]: [None] for a null pointer, else the strings before
    the terminating null. *)
Definition sys_execve (dir_fuel : nat) (stale : list Z) (fresh : Z → list Z) (tsc : Z) (path_user : list Z)
    (argv_user envp_user : option (list (list Z))) (u : Usr) : Res (Usr * Outcome) :=
  path ← take_path path_user;
  '(k, argv_k) ← copy_args (Z.to_nat MAX_ARGC) (default [] argv_user) (u_kern u);
  '(k, envp_k) ← copy_args (Z.to_nat MAX_ENVC) (default [] envp_user) k;
  let u := with_u_kern k u in
  let old_cr3 := task_cr3 (u_self u) in
  '(s, new_cr3) ← create_address_space (u_vm u);
  let u := switch_space new_cr3 (with_u_vm s u) in
  '(v, s, r) ← Elf.load dir_fuel stale fresh path (u_vfs u) (u_vm u);
  let u := MkUsr v s (u_self u) in
  match r with
  | None =>
      let u := switch_space old_cr3 u in
      let u := with_u_vm (destroy_address_space new_cr3 (u_vm u)) u in
      k ← free_copies argv_k (u_kern u);
      k ← free_copies envp_k k;
      Ok (with_u_kern k u, Returned (- ENOENT))
  | Some result =>
      s ← map_stack (Z.to_nat LINUX_STACK_PAGES) LINUX_STACK_BASE (u_vm u);
      let u := MkUsr (u_vfs u) s (set_memory (highest_addr result) (u_self u)) in
      '(k, s, user_rsp) ← build_linux_stack tsc fresh result (argv_k.*2) (envp_k.*2) (u_kern u) (u_vm u);
      let u := with_u_vm s (with_u_kern k u) in
      k ← free_copies argv_k (u_kern u);
      k ← free_copies envp_k k;
      let u := with_u_kern k u in
      if user_rsp =? 0 then
        let u := switch_space old_cr3 u in
        Ok (with_u_vm (destroy_address_space new_cr3 (u_vm u)) u, Returned (- E2BIG))
      else
        let u := if negb (old_cr3 =? 0) then with_u_vm (destroy_address_space old_cr3 (u_vm u)) u else u in
        Ok (u, Ring3 (enter_ring3 (entry result) user_rsp))
  end.

End user.
