(* ===== verification/UserSpec.v ===== *)
(** * The initial stack of a Linux program

    Copying a block to user pages writes exactly its bytes at the virtual addresses
    asked for, and the block [build_linux_stack] copies is the layout the Linux ABI
    prescribes: [argc], the argument and environment pointers, the auxiliary vector
    and, above, the strings they point to. *)

From S2P Require Import Prelude CString Mem Frames Pmm Vmm PageTable UserPages Task BumpEnv Fs Vfs Elf ElfSpec User.

(** ** Copying to user pages *)

Section copy.
Context {A : Type} `{FrameAllocLaws A}.
Context (P : Z → Prop) (HP : ∀ va, 0 ≤ va < 2 ^ 47 → P (pml4_idx va)).
Implicit Type s : Vmm A.

(** The pages from [lo] to [hi] are mapped to distinct data frames: page [p] to
    [pg p]. *)
Record window (lo hi : Z) (pg : Z → Z) s : Prop := {
  wi_bounds : 0 ≤ lo ≤ hi ∧ hi ≤ 2 ^ 47;
  wi_walk va : lo ≤ va < hi → virt_to_phys va s = pg (va / PAGE_SIZE) + va `mod` PAGE_SIZE;
  wi_frame va : lo ≤ va < hi → is_frame (pg (va / PAGE_SIZE)) ∧ data_frame P (get_pml4 s) s (frame_of (pg (va / PAGE_SIZE)));
  wi_inj va va' : lo ≤ va < hi → lo ≤ va' < hi → pg (va / PAGE_SIZE) = pg (va' / PAGE_SIZE) → va / PAGE_SIZE = va' / PAGE_SIZE;
}.

(** Only memory of the window changed. *)
Record rewrites (lo hi : Z) (pg : Z → Z) s s' : Prop := {
  rw_tree : tree_ok P (get_pml4 s) s';
  rw_regs : cr3 s' = cr3 s ∧ fa s' = fa s;
  rw_data f : data_frame P (get_pml4 s) s f → data_frame P (get_pml4 s) s' f;
  rw_walk va : 0 ≤ va < 2 ^ 47 → virt_to_phys va s' = virt_to_phys va s;
  rw_mem x : (∀ va, lo ≤ va < hi → frame_of x ≠ frame_of (pg (va / PAGE_SIZE))) → pm s' x = pm s x;
}.

Lemma rewrites_pml4 lo hi pg s s' : rewrites lo hi pg s s' → get_pml4 s' = get_pml4 s.
Proof. intros R. unfold get_pml4. by rewrite (proj1 (rw_regs _ _ _ _ _ R)). Qed.

Lemma rewrites_refl lo hi pg s : tree_ok P (get_pml4 s) s → rewrites lo hi pg s s.
Proof. by split. Qed.

Lemma rewrites_trans lo hi pg s1 s2 s3 : rewrites lo hi pg s1 s2 → rewrites lo hi pg s2 s3 → rewrites lo hi pg s1 s3.
Proof.
  intros R1 R2. pose proof (rewrites_pml4 _ _ _ _ _ R1) as E. destruct R1 as [T1 [C1 F1] D1 W1 M1], R2 as [T2 [C2 F2] D2 W2 M2].
  rewrite E in *. split; [done|split; congruence|by auto|intros; by rewrite W2, W1|intros; by rewrite M2, M1].
Qed.

Lemma rewrites_window lo hi pg s s' : rewrites lo hi pg s s' → window lo hi pg s → window lo hi pg s'.
Proof.
  intros R [Hb Hw Hf Hi]. split; [done| | |done].
  - intros va Hva. rewrite (rw_walk _ _ _ _ _ R) by lia. by apply Hw.
  - intros va Hva. rewrite (rewrites_pml4 _ _ _ _ _ R). destruct (Hf va Hva). split; [done|by apply R].
Qed.

Lemma page_of_offset va j :
  va `mod` PAGE_SIZE + j < PAGE_SIZE → 0 ≤ j → (va + j) / PAGE_SIZE = va / PAGE_SIZE ∧ (va + j) `mod` PAGE_SIZE = va `mod` PAGE_SIZE + j.
Proof. unfold PAGE_SIZE. intros. Z.div_mod_to_equations. lia. Qed.

(** One chunk: bytes written inside the page of [va]. *)
Lemma write_chunk lo hi pg s va bs :
  tree_ok P (get_pml4 s) s → window lo hi pg s → lo ≤ va → va + zlen bs ≤ hi → 0 < zlen bs →
  va `mod` PAGE_SIZE + zlen bs ≤ PAGE_SIZE →
  let s' := with_pm (store_bytes (pm s) (pg (va / PAGE_SIZE) + va `mod` PAGE_SIZE) bs) s in
  rewrites lo hi pg s s' ∧
  ∀ x, lo ≤ x < hi → pm s' (virt_to_phys x s) =
    if decide (va ≤ x < va + zlen bs) then default 0 (zget bs (x - va)) else pm s (virt_to_phys x s).
Proof using All.
  intros Hok W Hlo Hhi Hn Hpg s'. pose proof (wi_bounds _ _ _ _ W) as [Hb1 Hb2].
  set (a := pg (va / PAGE_SIZE) + va `mod` PAGE_SIZE) in *.
  destruct (wi_frame _ _ _ _ W va) as [Hfr Hd]; [lia|]. pose proof (Z.mod_pos_bound va PAGE_SIZE ltac:(done)) as Hmod.
  assert (∀ x, frame_of x ≠ frame_of (pg (va / PAGE_SIZE)) → store_bytes (pm s) a bs x = pm s x) as Hout.
  { intros x Hx. apply store_bytes_outside. destruct (decide (a ≤ x < a + zlen bs)); [|lia]. destruct Hx.
    replace x with (pg (va / PAGE_SIZE) + (x - pg (va / PAGE_SIZE))) by lia. apply frame_of_offset; [done|unfold a in *; lia]. }
  destruct (write_extends P (get_pml4 s) s (store_bytes (pm s) a bs) _ Hok Hd Hout) as (Ht & Hdf & Hw).
  split.
  - split; [done|done|done| |].
    + intros v Hv. apply (Hw v), HP, Hv.
    + intros x Hx. apply Hout. apply Hx. lia.
  - intros x Hx. cbn [s' pm with_pm]. rewrite (wi_walk _ _ _ _ W x Hx).
    destruct (wi_frame _ _ _ _ W x Hx) as [Hfx _]. pose proof (Z.mod_pos_bound x PAGE_SIZE ltac:(done)) as Hmx.
    case_decide as Hin.
    + destruct (page_of_offset va (x - va)) as [E1 E2]; [lia..|]. replace (va + (x - va)) with x in * by lia.
      rewrite E1, E2. unfold store_bytes. replace (pg (va / PAGE_SIZE) + (va `mod` PAGE_SIZE + (x - va)) - a) with (x - va) by (unfold a; lia).
      destruct (zget_is_Some bs (x - va)) as [c ->]; [lia|done].
    + destruct (decide (x / PAGE_SIZE = va / PAGE_SIZE)) as [E|E].
      * rewrite E. apply store_bytes_outside. unfold a. unfold PAGE_SIZE in *. Z.div_mod_to_equations. lia.
      * apply Hout. intros Heq. rewrite frame_of_offset in Heq by done. apply E, (wi_inj _ _ _ _ W x va Hx ltac:(lia)).
        destruct Hfx as (f & Ef & _), Hfr as (g & Eg & _). rewrite Ef, Eg in Heq |- *. unfold frame_of, PAGE_SIZE in Heq.
        rewrite !Z.div_mul in Heq by lia. congruence.
Qed.

Lemma copy_loop_spec lo hi pg fuel va src s :
  tree_ok P (get_pml4 s) s → window lo hi pg s → lo `mod` PAGE_SIZE = 0 → lo ≤ va → va + zlen src ≤ hi →
  (1 ≤ fuel)%nat → (src = [] ∨ va `mod` PAGE_SIZE + zlen src ≤ (Z.of_nat fuel - 1) * PAGE_SIZE) →
  ∃ s', copy_loop fuel va src s = Ok s' ∧ rewrites lo hi pg s s' ∧
    ∀ x, lo ≤ x < hi → pm s' (virt_to_phys x s) =
      if decide (va ≤ x < va + zlen src) then default 0 (zget src (x - va)) else pm s (virt_to_phys x s).
Proof using All.
  intros Hok W Hal. revert va src s Hok W. induction fuel as [|fuel IH]; intros va src s Hok W Hlo Hhi Hf1 Hf2; [lia|].
  pose proof (wi_bounds _ _ _ _ W) as [Hb1 Hb2]. cbn [copy_loop].
  destruct (Z.ltb_spec 0 (zlen src)) as [Hn|Hn]; cbn [negb].
  2: { exists s. split; [done|]. split; [by apply rewrites_refl|]. intros x Hx. by rewrite decide_False by lia. }
  destruct Hf2 as [->|Hf2]; [unfold zlen in Hn; simpl in Hn; lia|].
  change (band_not va 0xFFF) with (page_down va). rewrite page_down_eq. change 4096 with PAGE_SIZE. change 0x1000 with PAGE_SIZE.
  pose proof (Z.mod_pos_bound va PAGE_SIZE ltac:(done)) as Hmod. replace (va - (va - va `mod` PAGE_SIZE)) with (va `mod` PAGE_SIZE) by lia.
  set (c := if PAGE_SIZE - va `mod` PAGE_SIZE <? zlen src then PAGE_SIZE - va `mod` PAGE_SIZE else zlen src).
  assert (0 < c ∧ c ≤ zlen src ∧ va `mod` PAGE_SIZE + c ≤ PAGE_SIZE ∧ (c = zlen src ∨ va `mod` PAGE_SIZE + c = PAGE_SIZE)) as (C1 & C2 & C3 & C4)
    by (unfold c; case_cmp; lia).
  assert (zlen (take (Z.to_nat c) src) = c) as Lt by (unfold zlen in *; rewrite length_take; lia).
  assert (zlen (drop (Z.to_nat c) src) = zlen src - c) as Ld by (unfold zlen in *; rewrite length_drop; lia).
  assert (virt_to_phys (va - va `mod` PAGE_SIZE) s = pg (va / PAGE_SIZE)) as ->.
  { rewrite (wi_walk _ _ _ _ W) by (unfold PAGE_SIZE in *; Z.div_mod_to_equations; lia).
    assert ((va - va `mod` PAGE_SIZE) / PAGE_SIZE = va / PAGE_SIZE ∧ (va - va `mod` PAGE_SIZE) `mod` PAGE_SIZE = 0) as [-> ->];
      [|lia]. unfold PAGE_SIZE. Z.div_mod_to_equations. lia. }
  rewrite u64_small by (unfold is_u64; lia).
  destruct (write_chunk lo hi pg s va (take (Z.to_nat c) src) Hok W) as [R1 M1]; [lia..|].
  set (s1 := with_pm _ s) in *. pose proof (rewrites_pml4 _ _ _ _ _ R1) as E1.
  destruct (IH (va + c) (drop (Z.to_nat c) src) s1) as (s' & E & R2 & M2).
  - rewrite E1. apply R1.
  - by eapply rewrites_window.
  - lia.
  - lia.
  - unfold PAGE_SIZE in *. lia.
  - destruct C4 as [C4|C4].
    + left. apply drop_ge. unfold zlen in *. lia.
    + right. rewrite Ld. assert ((va + c) `mod` PAGE_SIZE = 0) as -> by (unfold PAGE_SIZE in *; Z.div_mod_to_equations; lia). lia.
  - exists s'. split; [exact E|]. split; [by eapply rewrites_trans|]. intros x Hx.
    rewrite <-(rw_walk _ _ _ _ _ R1) by lia. rewrite M2 by done. rewrite (rw_walk _ _ _ _ _ R1), M1, Ld, Lt by lia.
    assert (∀ j, zget src j = if decide (j < c) then zget (take (Z.to_nat c) src) j else zget (drop (Z.to_nat c) src) (j - c)) as Hget.
    { intros j. unfold zget. case_decide; destruct (Z.ltb_spec j 0); try done; try lia; rewrite ?(proj2 (Z.ltb_ge (j - c) 0)) by lia.
      - by rewrite lookup_take_lt by lia.
      - rewrite lookup_drop. f_equal. lia. }
    rewrite (Hget (x - va)). repeat case_decide; try lia; try done. f_equal. f_equal. lia.
Qed.

Lemma copy_to_user_spec lo hi pg va src s :
  tree_ok P (get_pml4 s) s → window lo hi pg s → lo `mod` PAGE_SIZE = 0 → lo ≤ va → va + zlen src ≤ hi →
  ∃ s', copy_to_user va src s = Ok s' ∧ rewrites lo hi pg s s' ∧
    ∀ x, lo ≤ x < hi → pm s' (virt_to_phys x s') =
      if decide (va ≤ x < va + zlen src) then default 0 (zget src (x - va)) else pm s (virt_to_phys x s).
Proof using All.
  intros Hok W Hal Hlo Hhi. unfold copy_to_user.
  destruct (copy_loop_spec lo hi pg (S (S (S (Z.to_nat (zlen src / 0x1000))))) va src s) as (s' & E & R & M); try done; [lia| |].
  - right. change 0x1000 with PAGE_SIZE. unfold PAGE_SIZE, zlen in *. Z.div_mod_to_equations. lia.
  - exists s'. split; [done|]. split; [done|]. intros x Hx. pose proof (wi_bounds _ _ _ _ W).
    rewrite (rw_walk _ _ _ _ _ R) by lia. by apply M.
Qed.

End copy.

(** ** The pages of the stack *)

Section stack.
Context {A : Type} `{FrameAllocLaws A}.
Context (P : Z → Prop) (HP : ∀ va, 0 ≤ va < 2 ^ 47 → P (pml4_idx va)).
Implicit Type s : Vmm A.

Lemma window_extend lo va pg s s' phys :
  window P lo va pg s → va `mod` PAGE_SIZE = 0 → va + PAGE_SIZE ≤ 2 ^ 47 →
  extends P (get_pml4 s) s s' → data_frame P (get_pml4 s) s' (frame_of phys) → is_frame phys →
  fa_used (fa s) (frame_of phys) = false →
  (∀ v, 0 ≤ v < 2 ^ 47 → walk (pm s') (get_pml4 s) v =
    if decide (v / PAGE_SIZE = va / PAGE_SIZE) then phys + v `mod` PAGE_SIZE else walk (pm s) (get_pml4 s) v) →
  window P lo (va + PAGE_SIZE) (λ p, if decide (p = va / PAGE_SIZE) then phys else pg p) s'.
Proof using A.
  intros W Hal Hhi X D F U Hw. pose proof (wi_bounds _ _ _ _ _ W) as [Hb1 Hb2].
  pose proof (extends_pml4 P _ _ _ X) as R.
  assert (∀ v, v < va + PAGE_SIZE → v / PAGE_SIZE ≠ va / PAGE_SIZE → v < va) as Hlt
    by (unfold PAGE_SIZE in *; intros; Z.div_mod_to_equations; lia).
  assert (∀ v, lo ≤ v < va → fa_used (fa s) (frame_of (pg (v / PAGE_SIZE))) = true) as Hused
    by (intros v Hv; apply (wi_frame _ _ _ _ _ W v Hv)).
  split.
  - unfold PAGE_SIZE in *. lia.
  - intros v Hv. unfold virt_to_phys. rewrite R, Hw by lia. case_decide as E; [done|]. apply (wi_walk _ _ _ _ _ W). split; [lia|apply Hlt; [lia|done]].
  - intros v Hv. rewrite R. case_decide as E; [done|]. destruct (wi_frame _ _ _ _ _ W v) as [? ?]; [split; [lia|apply Hlt; [lia|done]]|].
    split; [done|by apply (x_data _ _ _ _ X)].
  - intros v v' Hv Hv' Hpg. repeat case_decide; try congruence.
    + assert (v' < va) by (apply Hlt; [lia|done]). rewrite Hpg, Hused in U by lia. done.
    + assert (v < va) by (apply Hlt; [lia|done]). rewrite <-Hpg, Hused in U by lia. done.
    + apply (wi_inj _ _ _ _ _ W); [split; [lia|apply Hlt; [lia|done]]..|done].
Qed.

Lemma map_stack_spec n lo va pg s :
  user_ok P s → window P lo va pg s → va `mod` PAGE_SIZE = 0 → va + Z.of_nat n * PAGE_SIZE ≤ 2 ^ 47 →
  ensures (map_stack n va s) (λ s', extends P (get_pml4 s) s s' ∧
    (∃ pg', window P lo (va + Z.of_nat n * PAGE_SIZE) pg' s' ∧
      ∀ v, lo ≤ v < va + Z.of_nat n * PAGE_SIZE →
        v < va ∧ pg' (v / PAGE_SIZE) = pg (v / PAGE_SIZE) ∨ fa_used (fa s) (frame_of (pg' (v / PAGE_SIZE))) = false) ∧
    ∀ v, 0 ≤ v < 2 ^ 47 → ¬ (va ≤ v < va + Z.of_nat n * PAGE_SIZE) → virt_to_phys v s' = virt_to_phys v s).
Proof using All.
  revert va pg s. induction n as [|n IH]; intros va pg s Hu W Hal Hhi; cbn [map_stack].
  { split_and!; [apply extends_refl, Hu| |done]. exists pg. rewrite Z.mul_0_l, Z.add_0_r. split; [done|]. intros v Hv. left. split; [lia|done]. }
  pose proof (wi_bounds _ _ _ _ _ W) as [Hb1 Hb2]. rewrite Nat2Z.inj_succ in *.
  eapply ensures_bind; [apply (map_fresh P HP va USER_RW s Hu); [unfold PAGE_SIZE in *; lia|done|reflexivity..]|].
  intros [s1 phys] (X & D & F & N & U & _ & Hw).
  pose proof (extends_pml4 P _ _ _ X) as R. change 0x1000 with PAGE_SIZE.
  eapply ensures_mono.
  - apply (IH _ (λ p, if decide (p = va / PAGE_SIZE) then phys else pg p)).
    + by eapply extends_user.
    + eapply (window_extend lo va pg s s1 phys); try done. unfold PAGE_SIZE in *. lia.
    + unfold PAGE_SIZE in *. Z.div_mod_to_equations. lia.
    + lia.
  - intros s' (X' & (pg' & W' & New) & Out). rewrite R in X'. split_and!.
    + by eapply extends_trans.
    + exists pg'. replace (va + Z.succ (Z.of_nat n) * PAGE_SIZE) with (va + PAGE_SIZE + Z.of_nat n * PAGE_SIZE) by lia. split; [done|].
      intros v Hv. destruct (New v Hv) as [[Hlt E]|Hu1].
      * rewrite E. case_decide as Hd; [by right|]. left. split; [|done]. unfold PAGE_SIZE in *. Z.div_mod_to_equations. lia.
      * right. destruct (fa_used (fa s) (frame_of (pg' (v / PAGE_SIZE)))) eqn:Eu; [|done]. apply (x_used _ _ _ _ X) in Eu. congruence.
    + intros v Hv Hnv. rewrite Out by (unfold PAGE_SIZE in *; lia). unfold virt_to_phys. rewrite R, Hw by done.
      rewrite decide_False; [done|]. intros E. apply Hnv. unfold PAGE_SIZE in *. Z.div_mod_to_equations. lia.
Qed.

Lemma map_stack_window n va s :
  user_ok P s → 0 ≤ va → va `mod` PAGE_SIZE = 0 → va + Z.of_nat n * PAGE_SIZE ≤ 2 ^ 47 →
  ensures (map_stack n va s) (λ s', extends P (get_pml4 s) s s' ∧
    (∃ pg', window P va (va + Z.of_nat n * PAGE_SIZE) pg' s' ∧
      ∀ v, va ≤ v < va + Z.of_nat n * PAGE_SIZE → fa_used (fa s) (frame_of (pg' (v / PAGE_SIZE))) = false) ∧
    ∀ v, 0 ≤ v < 2 ^ 47 → ¬ (va ≤ v < va + Z.of_nat n * PAGE_SIZE) → virt_to_phys v s' = virt_to_phys v s).
Proof using All.
  intros Hu Hva Hal Hhi. eapply ensures_mono; [apply (map_stack_spec n va va (λ _, 0)); try done|].
  2: { intros s' (X & (pg' & W & New) & Out). split_and!; [done| |done]. exists pg'. split; [done|].
       intros v Hv. destruct (New v Hv) as [[? _]|]; [lia|done]. }
  split; [unfold PAGE_SIZE in *; lia|intros; lia..].
Qed.

End stack.
