(* ===== verification/UserStack.v ===== *)
(** * The initial stack of a Linux program, continued

    What [build_linux_stack] leaves in user memory: [argc], the argument and
    environment pointers, the auxiliary vector and, above, the random bytes and the
    strings the pointers lead to. *)

From S2P Require Import Prelude CString Mem Frames Pmm Vmm PageTable UserPages Task BumpEnv Fs Vfs Elf ElfSpec User UserSpec.

(** ** The scratch block *)

Definition cstr (str : list Z) : list Z := str ++ [0].
Definition packed (strs : list (list Z)) : list Z := concat (cstr <$> strs).

(** Where each string goes when they are packed from [off] on. *)
Fixpoint offsets (off : Z) (strs : list (list Z)) : list Z :=
  match strs with
  | [] => []
  | str :: strs => off :: offsets (off + zlen (cstr str)) strs
  end.

Definition strings_of (raw strs : list (list Z)) : Prop := Forall2 (λ s str, c_string s = Some str) raw strs.

Lemma zlen_cstr str : zlen (cstr str) = zlen str + 1.
Proof. unfold cstr. rewrite zlen_app. done. Qed.

Lemma zlen_nonneg {B} (l : list B) : 0 ≤ zlen l.
Proof. unfold zlen. lia. Qed.

Lemma split_at {B} (l : list B) a b : zlen l = a + b → 0 ≤ a → 0 ≤ b → ∃ l1 l2, l = l1 ++ l2 ∧ zlen l1 = a ∧ zlen l2 = b.
Proof.
  unfold zlen. intros. exists (take (Z.to_nat a) l), (drop (Z.to_nat a) l). rewrite take_drop, length_take, length_drop.
  split_and!; [done|lia..].
Qed.

Lemma take_zlen_app {B} (l1 l2 : list B) : take (Z.to_nat (zlen l1)) (l1 ++ l2) = l1.
Proof. unfold zlen. by rewrite Nat2Z.id, take_app_length. Qed.

Lemma drop_zlen_app {B} (l1 l2 : list B) : drop (Z.to_nat (zlen l1)) (l1 ++ l2) = l2.
Proof. unfold zlen. by rewrite Nat2Z.id, drop_app_length. Qed.

Lemma splice_app {B} (pre mid post src : list B) :
  zlen src = zlen mid → splice (pre ++ mid ++ post) (zlen pre) src = Some (pre ++ src ++ post).
Proof.
  intros E. unfold splice. rewrite !zlen_app. pose proof (zlen_nonneg pre). pose proof (zlen_nonneg post).
  destruct (Z.ltb_spec (zlen pre) 0); [lia|]. destruct (Z.ltb_spec (zlen pre + (zlen mid + zlen post)) (zlen pre + zlen src)); [lia|].
  cbn [orb]. rewrite take_zlen_app. do 3 f_equal.
  assert (Z.to_nat (zlen pre) + length src = Z.to_nat (zlen (pre ++ mid)))%nat as -> by (rewrite zlen_app; unfold zlen in *; lia).
  by rewrite (app_assoc pre), drop_zlen_app.
Qed.

Lemma memcpy_app pre mid post s rest n :
  zlen mid = n → memcpy (pre ++ mid ++ post) (zlen pre) (s ++ rest) 0 n = Ok (pre ++ take (Z.to_nat n) (s ++ rest) ++ post) ∨ zlen s < n.
Proof.
  intros E. destruct (Z.ltb_spec (zlen s) n); [by right|left]. pose proof (zlen_nonneg pre). pose proof (zlen_nonneg post).
  pose proof (zlen_nonneg rest). pose proof (zlen_nonneg mid). rewrite memcpy_ok by (rewrite ?zlen_app; lia). rewrite take_zlen_app. simpl. do 4 f_equal.
  assert (Z.to_nat (zlen pre) + Z.to_nat n = Z.to_nat (zlen (pre ++ mid)))%nat as -> by (rewrite zlen_app; unfold zlen in *; lia).
  by rewrite (app_assoc pre), drop_zlen_app.
Qed.

Lemma strings_len_spec raw strs : strings_of raw strs → strings_len raw = Ok (zlen (packed strs)).
Proof.
  induction 1 as [|s str raw strs Hs _ IH]; [done|]. cbn [strings_len]. rewrite strlen_spec, Hs. cbn.
  rewrite IH. cbn. f_equal. unfold packed. cbn. rewrite zlen_app, zlen_cstr. lia.
Qed.

Lemma put_strings_spec raw strs pre mid post :
  strings_of raw strs → zlen mid = zlen (packed strs) →
  put_strings raw (pre ++ mid ++ post) (zlen pre) = Ok (pre ++ packed strs ++ post, zlen pre + zlen (packed strs), offsets (zlen pre) strs).
Proof.
  intros Hs. revert pre mid. induction Hs as [|s str raw strs Hs _ IH]; intros pre mid Hm.
  { destruct mid; [|done]. unfold packed, zlen. cbn. by rewrite Z.add_0_r. }
  cbn [put_strings]. rewrite strlen_spec, Hs. cbn [fmap option_fmap option_map]. res_step.
  apply c_string_Some in Hs as [_ [rest ->]]. change (packed (str :: strs)) with (cstr str ++ packed strs) in *.
  rewrite zlen_app in Hm. destruct (split_at mid _ _ Hm) as (m1 & m2 & -> & L1 & L2); [apply zlen_nonneg..|].
  replace (str ++ 0 :: rest) with (cstr str ++ rest) by (unfold cstr; by rewrite <-app_assoc).
  rewrite <-(zlen_cstr str), <-(app_assoc m1).
  destruct (memcpy_app pre m1 (m2 ++ post) (cstr str) rest (zlen (cstr str)) L1) as [->|]; [|lia]. res_step.
  rewrite take_zlen_app. rewrite (app_assoc pre), <-zlen_app, (IH _ m2 L2). res_step.
  by rewrite <-!app_assoc, !zlen_app, Z.add_assoc.
Qed.

Lemma zlen_offsets off strs : zlen (offsets off strs) = zlen strs.
Proof. unfold zlen. f_equal. revert off. induction strs as [|str strs IH]; intros off; simpl; [done|by rewrite IH]. Qed.

(** Each offset is where its string lies. *)
Lemma offsets_at strs pre post :
  Forall2 (λ o str, ∃ l1 l2, pre ++ packed strs ++ post = l1 ++ cstr str ++ l2 ∧ o = zlen l1) (offsets (zlen pre) strs) strs.
Proof.
  revert pre. induction strs as [|str strs IH]; intros pre; [constructor|]. cbn [offsets]. constructor.
  - exists pre, (packed strs ++ post). split; [|done]. unfold packed. cbn. by rewrite <-app_assoc.
  - rewrite <-zlen_app. eapply Forall2_impl; [apply IH|]. intros o s (l1 & l2 & E & ->). exists l1, l2. split; [|done].
    rewrite <-E. unfold packed. cbn. by rewrite <-!app_assoc.
Qed.

Lemma zlen_words ws : zlen (words_bytes ws) = 8 * zlen ws.
Proof.
  induction ws as [|w ws IH]; [done|]. unfold words_bytes in *. cbn [fmap list_fmap concat]. rewrite zlen_app, IH. unfold zlen. cbn. lia.
Qed.

(** ** The layout *)

(** The array section: what the entry point of a Linux program finds at its stack
    pointer. *)
Definition abi_words (result : LoadResult) (argv_at envp_at : list Z) (random_at : Z) : list Z :=
  [zlen argv_at] ++ argv_at ++ [0] ++ envp_at ++ [0] ++
  concat [[AT_PHDR; phdr_vaddr result]; [AT_PHENT; phentsize result]; [AT_PHNUM; phnum result]; [AT_PAGESZ; 4096];
          [AT_BASE; 0]; [AT_FLAGS; 0]; [AT_ENTRY; entry result]; [AT_UID; 0]; [AT_EUID; 0]; [AT_GID; 0]; [AT_EGID; 0];
          [AT_SECURE; 0]; [AT_RANDOM; random_at]; [AT_NULL; 0]].

Definition round16 (x : Z) : Z := (x + 15) / 16 * 16.
Definition array_len (argv envp : list (list Z)) : Z := round16 (8 * (zlen argv + zlen envp + 31)).
Definition block_len (argv envp : list (list Z)) : Z := array_len argv envp + 16 + zlen (packed argv) + zlen (packed envp).

(** The block is no longer than the stack. *)
Definition fits (argv envp : list (list Z)) : Prop := round16 (block_len argv envp) ≤ LINUX_STACK_PAGES * PAGE_SIZE.

Lemma round16_eq x : band_not (x + 15) 15 = round16 x.
Proof.
  unfold band_not, round16. change 15 with (Z.ones 4) at 2. rewrite ldiff_ones by done. change (2 ^ 4) with 16. Z.div_mod_to_equations. lia.
Qed.

Lemma round16_bounds x : x ≤ round16 x < x + 16 ∧ round16 x `mod` 16 = 0.
Proof. unfold round16. split; [Z.div_mod_to_equations; lia|]. by rewrite Z.mod_mul. Qed.

Lemma random_length n x : length (random_loop n x) = n.
Proof. revert x. induction n as [|n IH]; intros x; simpl; [done|by rewrite IH]. Qed.

(** [argc]; the strings at [argv_at] and [envp_at]; 16 random bytes; all in the block at
    [base]. *)
Definition in_block (base : Z) (buf : list Z) (result : LoadResult) (tsc : Z) (argv envp : list (list Z)) : Prop :=
  ∃ argv_at envp_at random_at rest,
    buf = words_bytes (abi_words result argv_at envp_at random_at) ++ rest ∧
    Forall2 (λ a str, ∃ l1 l2, buf = l1 ++ cstr str ++ l2 ∧ a = base + zlen l1) argv_at argv ∧
    Forall2 (λ a str, ∃ l1 l2, buf = l1 ++ cstr str ++ l2 ∧ a = base + zlen l1) envp_at envp ∧
    ∃ l1 l2, buf = l1 ++ fill_random tsc ++ l2 ∧ random_at = base + zlen l1.

Lemma stack_words_abi result base r xs ys :
  0 ≤ base → base + r < 2 ^ 64 → 0 ≤ r →
  Forall (λ o, 0 ≤ base + o < 2 ^ 64) xs → Forall (λ o, 0 ≤ base + o < 2 ^ 64) ys →
  stack_words result base (u64 (base + r)) xs ys = abi_words result (Z.add base <$> xs) (Z.add base <$> ys) (base + r).
Proof.
  intros Hb Hr Hr0 Hx Hy.
  assert (∀ l, Forall (λ o, 0 ≤ base + o < 2 ^ 64) l → ((λ o, u64 (base + o)) <$> l) = Z.add base <$> l) as E.
  { induction 1 as [|o l Ho _ IH]; [done|]. cbn. by rewrite u64_small, IH. }
  unfold stack_words, abi_words. rewrite !E, u64_small by (done || unfold is_u64; lia). unfold zlen. by rewrite length_fmap.
Qed.

Lemma zlen_abi result xs ys r : zlen (abi_words result xs ys r) = zlen xs + zlen ys + 31.
Proof. unfold abi_words. rewrite !zlen_app. unfold zlen. simpl length. lia. Qed.

Lemma at_base base buf offs strs :
  Forall2 (λ o str, ∃ l1 l2, buf = l1 ++ cstr str ++ l2 ∧ o = zlen l1) offs strs →
  Forall2 (λ a str, ∃ l1 l2, buf = l1 ++ cstr str ++ l2 ∧ a = base + zlen l1) (Z.add base <$> offs) strs.
Proof. induction 1 as [|o str offs strs (l1 & l2 & E & ->)]; [constructor|]. cbn. constructor; [by exists l1, l2|done]. Qed.

Lemma offs_small (base : Z) (buf : list Z) (offs : list Z) strs :
  0 ≤ base → base + zlen buf < 2 ^ 64 →
  Forall2 (λ o str, ∃ l1 l2, buf = l1 ++ cstr str ++ l2 ∧ o = zlen l1) offs strs → Forall (λ o, 0 ≤ base + o < 2 ^ 64) offs.
Proof.
  intros Hb Hl. induction 1 as [|o str offs strs (l1 & l2 & E & ->) _ IH]; [constructor|]. constructor; [|done].
  rewrite E, !zlen_app in Hl. pose proof (zlen_nonneg l1). pose proof (zlen_nonneg (cstr str)). pose proof (zlen_nonneg l2). lia.
Qed.

(** ** The block is built and copied *)

Section build.
Context {A : Type} `{FrameAllocLaws A} {K : Type} `{KernelEnvLaws K}.
Context (P : Z → Prop) (HP : ∀ va, 0 ≤ va < 2 ^ 47 → P (pml4_idx va)).
Implicit Type s : Vmm A.

(** The bytes of the block, as the code fills them in. *)
Lemma block_bytes tsc (scratch : list Z) result argv envp base :
  zlen scratch = block_len argv envp → 0 ≤ base → base + zlen scratch < 2 ^ 64 →
  let al := array_len argv envp in
  ∃ pre m1 m2,
    splice scratch al (fill_random tsc) = Some (pre ++ m1 ++ m2) ∧ zlen pre = al + 16 ∧
    zlen m1 = zlen (packed argv) ∧ zlen m2 = zlen (packed envp) ∧
    ∃ buf, splice (pre ++ packed argv ++ packed envp) 0
        (words_bytes (stack_words result base (u64 (base + al)) (offsets (zlen pre) argv) (offsets (zlen pre + zlen (packed argv)) envp))) = Some buf ∧
      zlen buf = block_len argv envp ∧ in_block base buf result tsc argv envp.
Proof.
  intros Hs Hb Hl al. rewrite Hs in Hl. pose proof (round16_bounds (8 * (zlen argv + zlen envp + 31))) as [Ha _]. fold (array_len argv envp) in Ha. fold al in Ha.
  pose proof (zlen_nonneg argv). pose proof (zlen_nonneg envp). pose proof (zlen_nonneg (packed argv)). pose proof (zlen_nonneg (packed envp)).
  set (n := 8 * (zlen argv + zlen envp + 31)) in *. unfold block_len in Hs. fold al in Hs.
  destruct (split_at scratch n (al - n + 16 + zlen (packed argv) + zlen (packed envp))) as (w & r1 & -> & Lw & L1); [lia..|].
  destruct (split_at r1 (al - n) (16 + zlen (packed argv) + zlen (packed envp))) as (pad & r2 & -> & Lp & L2); [lia..|].
  destruct (split_at r2 16 (zlen (packed argv) + zlen (packed envp))) as (rnd & r3 & -> & Lr & L3); [lia..|].
  destruct (split_at r3 (zlen (packed argv)) (zlen (packed envp))) as (m1 & m2 & -> & Lm1 & Lm2); [lia..|].
  assert (zlen (fill_random tsc) = 16) as Lf by (unfold zlen, fill_random; by rewrite random_length).
  exists (w ++ pad ++ fill_random tsc), m1, m2. split_and!; [|rewrite !zlen_app; lia|lia|lia|].
  { replace al with (zlen (w ++ pad)) by (rewrite zlen_app; lia). rewrite (app_assoc w).
    rewrite (splice_app (w ++ pad) rnd (m1 ++ m2) (fill_random tsc)) by lia. by rewrite <-!app_assoc. }
  set (pre := w ++ pad ++ fill_random tsc).
  set (xs := offsets (zlen pre) argv). set (ys := offsets (zlen pre + zlen (packed argv)) envp).
  set (W := abi_words result (Z.add base <$> xs) (Z.add base <$> ys) (base + al)).
  assert (zlen (words_bytes W) = zlen w) as LW.
  { unfold W. rewrite zlen_words, zlen_abi. unfold zlen at 1 2. rewrite !length_fmap. fold (zlen xs) (zlen ys).
    unfold xs, ys. rewrite !zlen_offsets. lia. }
  set (pre' := words_bytes W ++ pad ++ fill_random tsc).
  assert (zlen pre = al + 16 ∧ zlen pre' = zlen pre) as [Lpre Lpre'] by (unfold pre, pre'; rewrite !zlen_app; lia).
  set (buf := pre' ++ packed argv ++ packed envp). assert (zlen buf = block_len argv envp) as Lbuf by (unfold buf, block_len; rewrite !zlen_app; lia).
  pose proof (offsets_at argv pre' (packed envp)) as Hx. fold buf in Hx. rewrite Lpre' in Hx. fold xs in Hx.
  pose proof (offsets_at envp (pre' ++ packed argv) []) as Hy. rewrite app_nil_r, <-app_assoc, zlen_app, Lpre' in Hy. fold buf ys in Hy.
  assert (base + zlen buf < 2 ^ 64) as Hbuf by lia.
  exists buf. split_and!; [|done|].
  - rewrite stack_words_abi; [|lia|unfold block_len in Hl; fold al in Hl; lia|lia|by eapply offs_small..]. fold W.
    unfold pre. rewrite <-!(app_assoc w). 
    match goal with |- splice (w ++ ?r) _ _ = _ => change (splice ([] ++ w ++ r) (zlen (@nil Z)) (words_bytes W) = Some buf) end.
    rewrite (splice_app [] w _ (words_bytes W) LW). cbn [app].
    unfold buf, pre'. by rewrite <-!app_assoc.
  - exists (Z.add base <$> xs), (Z.add base <$> ys), (base + al), (pad ++ fill_random tsc ++ packed argv ++ packed envp).
    split_and!; [unfold buf, pre'; by rewrite <-!app_assoc|by apply at_base..|].
    exists (words_bytes W ++ pad), (packed argv ++ packed envp). split; [unfold buf, pre'; by rewrite <-!app_assoc|]. rewrite zlen_app. lia.
Qed.

Lemma build_spec tsc (stale : Z → list Z) result raw_argv raw_envp argv envp (k : K) s pg :
  (∀ n, 0 ≤ n → zlen (stale n) = n) → strings_of raw_argv argv → strings_of raw_envp envp →
  zlen argv ≤ MAX_ARGC → zlen envp ≤ MAX_ENVC → block_len argv envp < 2 ^ 40 →
  tree_ok P (get_pml4 s) s → window P LINUX_STACK_BASE LINUX_STACK_TOP pg s →
  ensures (build_linux_stack tsc stale result raw_argv raw_envp k s) (λ '(k', s', base),
    (∀ q, k_live k' q = k_live k q) ∧ rewrites P LINUX_STACK_BASE LINUX_STACK_TOP pg s s' ∧
    (base = 0 ∧ (can_fail (K := K) ∨ ¬ fits argv envp) ∨
     fits argv envp ∧ base `mod` 16 = 0 ∧ LINUX_STACK_BASE ≤ base ∧
     ∃ buf, in_block base buf result tsc argv envp ∧ base + zlen buf ≤ LINUX_STACK_TOP ∧
       ∀ i b, zget buf i = Some b → pm s' (virt_to_phys (base + i) s') = b)).
Proof using All.
  intros Hst Ha He La Le Hlen Hok W. unfold build_linux_stack.
  assert (zlen raw_argv = zlen argv) as Ra by (unfold zlen; by rewrite (Forall2_length _ _ _ Ha)).
  assert (zlen raw_envp = zlen envp) as Re by (unfold zlen; by rewrite (Forall2_length _ _ _ He)).
  rewrite Ra, Re, (proj2 (Z.ltb_ge _ _) La), (proj2 (Z.ltb_ge _ _) Le). cbn [orb].
  rewrite (strings_len_spec _ _ Ha), (strings_len_spec _ _ He). res_step.
  rewrite round16_eq. replace ((1 + zlen argv + 1 + zlen envp + 1 + 13 * 2 + 2) * 8) with (8 * (zlen argv + zlen envp + 31)) by lia.
  fold (array_len argv envp).
  replace (array_len argv envp + (16 + zlen (packed argv) + zlen (packed envp))) with (block_len argv envp) by (unfold block_len; lia).
  pose proof (round16_bounds (8 * (zlen argv + zlen envp + 31))) as [Har _]. fold (array_len argv envp) in Har.
  pose proof (zlen_nonneg argv). pose proof (zlen_nonneg envp). pose proof (zlen_nonneg (packed argv)). pose proof (zlen_nonneg (packed envp)).
  assert (0 ≤ block_len argv envp) as Hn by (unfold block_len; lia).
  rewrite (u64_small (block_len argv envp)) by (unfold is_u64; lia).
  rewrite (u64_small (block_len argv envp + 15)) by (unfold is_u64; lia). rewrite round16_eq.
  pose proof (round16_bounds (block_len argv envp)) as [HR HR16]. unfold fits. set (R := round16 (block_len argv envp)) in *.
  set (base := LINUX_STACK_TOP - R). unfold LINUX_STACK_BASE, LINUX_STACK_TOP, LINUX_STACK_PAGES, USER_STACK_VIRT, PAGE_SIZE in *.
  rewrite (u64_small base) by (unfold is_u64, base; lia).
  destruct (kmalloc_cases (block_len argv envp) k) as [->|[[k1 E]|(k1 & p & E & Hp & Hlive)]]; [done| |]; [rewrite E..]; res_step.
  { cbn [Z.eqb ensures]. split; [intros q; by eapply kmalloc_null_live|]. split; [by apply rewrites_refl|]. left. split; [done|]. left. eapply null_can_fail, E. unfold block_len. pose proof (round16_bounds (8 * (zlen argv + zlen envp + 31))). unfold array_len, zlen in *. lia. }
  rewrite (proj2 (Z.eqb_neq p 0) Hp).
  destruct (kmalloc_kfree _ _ _ _ E Hp) as (_ & _ & Hfree). destruct (Hfree k1) as (k3 & E3 & L3); [done|].
  destruct (block_bytes tsc (stale (block_len argv envp)) result argv envp base) as (pre & m1 & m2 & -> & Lpre & L1 & L2 & buf & Hbuf & Lbuf & Hin);
    [by apply Hst|unfold base; lia|rewrite Hst by done; unfold base; lia|].
  res_step. rewrite <-Lpre, (put_strings_spec _ _ _ _ _ Ha L1). res_step.
  rewrite <-(app_nil_r m2), (app_assoc pre), <-zlen_app, (put_strings_spec _ _ _ _ _ He L2), app_nil_r. res_step.
  destruct (Z.ltb_spec base (0x7FFFFFFFE000 + 0x1000 - 128 * 0x1000)) as [Hlo|Hlo].
  { rewrite E3. res_step. cbn [ensures]. split; [done|]. split; [by apply rewrites_refl|]. left. split; [done|]. right. unfold base in Hlo. lia. }
  rewrite zlen_app, <-!(app_assoc pre), Hbuf. res_step.
  destruct (copy_to_user_spec P HP _ _ pg base buf s Hok W) as (s' & -> & Rw & Mem); [done|lia|rewrite Lbuf; unfold base; lia|].
  res_step. rewrite E3. res_step. cbn [ensures]. split; [done|]. split; [done|]. right. split; [unfold base in Hlo; lia|].
  split; [|split; [lia|]].
  { unfold base. rewrite Zminus_mod, HR16. reflexivity. }
  exists buf. split; [done|]. split; [rewrite Lbuf; unfold base; lia|].
  intros i b Hi. apply zget_bounds in Hi as Hib. rewrite Mem by lia. rewrite decide_True by lia. by rewrite Z.add_simpl_l, Hi.
Qed.

End build.

(** The bytes [bs] lie at the virtual address [va]. *)
Definition user_holds {A} (s : Vmm A) (va : Z) (bs : list Z) : Prop :=
  ∀ i b, zget bs i = Some b → pm s (virt_to_phys (va + i) s) = b.

(** A string of the stack, with its terminator. *)
Definition on_stack {A} (s : Vmm A) (va : Z) (str : list Z) : Prop :=
  LINUX_STACK_BASE ≤ va ∧ va + zlen (cstr str) ≤ LINUX_STACK_TOP ∧ user_holds s va (cstr str).

Lemma user_holds_part {A} (s : Vmm A) base l1 l2 l3 :
  user_holds s base (l1 ++ l2 ++ l3) → user_holds s (base + zlen l1) l2.
Proof.
  intros Hh i b Hi. apply zget_Some in Hi as [Hi Hb]. rewrite <-Z.add_assoc. apply Hh. apply zget_Some. unfold zlen. split; [lia|].
  rewrite lookup_app_r by lia. rewrite lookup_app_l; [|apply lookup_lt_Some in Hb; lia].
  rewrite <-Hb. f_equal. lia.
Qed.

Lemma strings_on_stack {A} (s : Vmm A) base buf ats strs :
  LINUX_STACK_BASE ≤ base → base + zlen buf ≤ LINUX_STACK_TOP → user_holds s base buf →
  Forall2 (λ a str, ∃ l1 l2, buf = l1 ++ cstr str ++ l2 ∧ a = base + zlen l1) ats strs → Forall2 (on_stack s) ats strs.
Proof.
  intros Hlo Hhi Hh. intros Hf. eapply Forall2_impl; [exact Hf|]. intros a str (l1 & l2 & -> & ->). rewrite !zlen_app in Hhi.
  pose proof (zlen_nonneg l1). pose proof (zlen_nonneg l2). split_and!; [lia|lia|by eapply user_holds_part].
Qed.

(** What the stack of a program is for its address space. *)
Definition stack_there {A} tsc result (argv envp : list (list Z)) (s' : Vmm A) (base : Z) : Prop :=
  base `mod` 16 = 0 ∧ LINUX_STACK_BASE ≤ base ∧ ∃ argv_at envp_at random_at,
    user_holds s' base (words_bytes (abi_words result argv_at envp_at random_at)) ∧
    Forall2 (on_stack s') argv_at argv ∧ Forall2 (on_stack s') envp_at envp ∧ user_holds s' random_at (fill_random tsc).

Lemma program_stack_spec {A} `{FrameAllocLaws A} {K} `{KernelEnvLaws K} (P : Z → Prop)
    tsc (stale : Z → list Z) result raw_argv raw_envp argv envp (k : K) (s : Vmm A) :
  (∀ va, 0 ≤ va < 2 ^ 47 → P (pml4_idx va)) → user_ok P s → (∀ n, 0 ≤ n → zlen (stale n) = n) →
  strings_of raw_argv argv → strings_of raw_envp envp →
  zlen argv ≤ MAX_ARGC → zlen envp ≤ MAX_ENVC → block_len argv envp < 2 ^ 40 →
  ensures (s ← map_stack (Z.to_nat LINUX_STACK_PAGES) LINUX_STACK_BASE s; build_linux_stack tsc stale result raw_argv raw_envp k s)
    (λ '(k', s', base),
      (∀ q, k_live k' q = k_live k q) ∧ extends P (get_pml4 s) s s' ∧
      (∀ va, 0 ≤ va < 2 ^ 47 → ¬ (LINUX_STACK_BASE ≤ va < LINUX_STACK_TOP) → virt_to_phys va s' = virt_to_phys va s) ∧
      (∀ va, LINUX_STACK_BASE ≤ va < LINUX_STACK_TOP → data_frame P (get_pml4 s') s' (frame_of (virt_to_phys va s')) ∧
         free_frame s (frame_of (virt_to_phys va s'))) ∧
      (base = 0 ∧ (can_fail (K := K) ∨ ¬ fits argv envp) ∨ fits argv envp ∧ stack_there tsc result argv envp s' base)).
Proof.
  intros HP Hu Hst Ha He La Le Hlen. eapply ensures_bind.
  { apply (map_stack_window P HP); [done|done|reflexivity|done]. }
  intros s1 (X & (pg & W & New) & Out). change (LINUX_STACK_BASE + _) with LINUX_STACK_TOP in *.
  pose proof (extends_pml4 P _ _ _ X) as R1. eapply ensures_mono.
  { apply (build_spec P HP tsc stale result raw_argv raw_envp argv envp k s1 pg); try done. rewrite R1. apply X. }
  intros [[k' s'] base] (Hl & Rw & Hb). pose proof (rewrites_pml4 _ _ _ _ _ _ Rw) as R2. split; [done|]. split; [|split; [|split]].
  - split; [rewrite <-R1; apply Rw|rewrite (proj1 (rw_regs _ _ _ _ _ _ Rw)); apply X|rewrite (proj2 (rw_regs _ _ _ _ _ _ Rw)); apply X| |].
    + intros f Hf. rewrite <-R1. apply (rw_data _ _ _ _ _ _ Rw). rewrite R1. by apply X.
    + intros x Hx. rewrite (rw_mem _ _ _ _ _ _ Rw); [by apply X|]. intros va Hva E. specialize (New va Hva). rewrite <-E in New.
      destruct Hx. congruence.
  - intros va Hva Hn. rewrite (rw_walk _ _ _ _ _ _ Rw) by done. by apply Out.
  - intros va Hva. assert (0 ≤ va < 2 ^ 47) as Hva47 by (unfold LINUX_STACK_BASE, LINUX_STACK_TOP, LINUX_STACK_PAGES, USER_STACK_VIRT in Hva; lia).
    rewrite (rw_walk _ _ _ _ _ _ Rw), (wi_walk _ _ _ _ _ W va Hva) by done. destruct (wi_frame _ _ _ _ _ W va Hva) as [Hf Hd].
    rewrite frame_of_offset by (done || (unfold PAGE_SIZE; apply Z.mod_pos_bound; lia)). split.
    2: { split; [|by apply New]. destruct Hf as (g & Eg & Hg). rewrite Eg. unfold frame_of. by rewrite Z.div_mul by (unfold PAGE_SIZE; lia). }
    rewrite R2. by apply (rw_data _ _ _ _ _ _ Rw).
  - destruct Hb as [Hb|(Hf & H16 & Hlo & buf & (argv_at & envp_at & random_at & rest & Hw & Hav & Hev & l1 & l2 & Hr & ->) & Htop & Hh)]; [by left|right].
    split; [done|]. split; [done|]. split; [done|]. exists argv_at, envp_at, (base + zlen l1). split_and!.
    + intros i b Hi. apply Hh. rewrite Hw. apply zget_Some in Hi as [? Hi]. apply zget_Some. split; [done|]. by apply lookup_app_l_Some.
    + by eapply strings_on_stack.
    + by eapply strings_on_stack.
    + apply (user_holds_part s' base l1 (fill_random tsc) l2). by rewrite <-Hr.
Qed.

(** C28. Mapping the stack of a Linux program and building its argument block leaves in user
    memory, at a 16-byte aligned address inside the stack, exactly what the ABI
    prescribes: [argc], the pointers to the argument and environment strings with their
    terminators, the auxiliary vector and the random bytes.  No other translation and no
    memory in use changes, and the scratch block is given back.  The result is 0 only when
    the block does not fit the stack or there was no memory for it. *)
Theorem program_stack_built {A} `{FrameAllocLaws A} {K} `{KernelEnvLaws K} (P : Z → Prop)
    tsc (stale : Z → list Z) result raw_argv raw_envp argv envp (k : K) (s : Vmm A) :
  (∀ va, 0 ≤ va < 2 ^ 47 → P (pml4_idx va)) → user_ok P s → (∀ n, 0 ≤ n → zlen (stale n) = n) →
  strings_of raw_argv argv → strings_of raw_envp envp →
  zlen argv ≤ MAX_ARGC → zlen envp ≤ MAX_ENVC → block_len argv envp < 2 ^ 40 →
  ensures (s ← map_stack (Z.to_nat LINUX_STACK_PAGES) LINUX_STACK_BASE s; build_linux_stack tsc stale result raw_argv raw_envp k s)
    (λ '(k', s', base),
      (∀ q, k_live k' q = k_live k q) ∧ user_ok P s' ∧ cr3 s' = cr3 s ∧
      (∀ va, 0 ≤ va < 2 ^ 47 → ¬ (LINUX_STACK_BASE ≤ va < LINUX_STACK_TOP) → virt_to_phys va s' = virt_to_phys va s) ∧
      (∀ x, data_frame P (get_pml4 s) s (frame_of x) → pm s' x = pm s x) ∧
      (base = 0 ∧ (can_fail (K := K) ∨ ¬ fits argv envp) ∨
       fits argv envp ∧ base `mod` 16 = 0 ∧ LINUX_STACK_BASE ≤ base ∧
       ∃ argv_at envp_at random_at,
         user_holds s' base (words_bytes (abi_words result argv_at envp_at random_at)) ∧
         Forall2 (on_stack s') argv_at argv ∧ Forall2 (on_stack s') envp_at envp ∧
         user_holds s' random_at (fill_random tsc))).
Proof.
  intros HP Hu Hst Ha He La Le Hlen. eapply ensures_mono; [by apply (program_stack_spec P tsc stale result raw_argv raw_envp argv envp)|].
  intros [[k' s'] base] (Hl & X & Out & _ & Hb). split; [done|]. split; [by eapply (extends_user P)|]. split; [apply X|]. split; [done|]. split; [apply X|].
  destruct Hb as [Hb|(? & ? & ? & ?)]; [by left|right; by split_and!].
Qed.

(** The same blank machine with 160 free frames. *)
Definition roomy : Vmm Pmm.Pmm := MkVmm (λ _, 0) (Pmm.MkPmm (list_to_map ((λ i, (i, 0)) <$> seqZ 32 20)) 160 0) 0x1000 0.
Definition a_result : LoadResult := MkLoadResult 0x400078 0x400040 1 56 0x401000.
Definition sh_args : list (list Z) := [[47; 115; 104]; [45; 105]].

Lemma roomy_ok : user_ok (λ _, True) roomy.
Proof.
  assert (∀ q t, table_at (pm roomy) 0x1000 q = Some t → q = [] ∧ t = 0x1000) as Ht.
  { intros q t. destruct q as [|i q]; simpl; intros E; by simplify_eq. }
  split; [|vm_compute; reflexivity]. change (get_pml4 roomy) with 0x1000. split.
  - intros q t _ _ [-> ->]%Ht. split; [exists 1; unfold NUM_FRAMES; split; [reflexivity|lia]|vm_compute; reflexivity].
  - by intros p q t _ _ _ _ [-> _]%Ht [-> _]%Ht.
  - intros p i t _ _ _ Hpr. vm_compute in Hpr. discriminate Hpr.
Qed.

(** [sh -i]: the stack starts 304 bytes below the top. *)
Lemma program_stack_built_witness :
  let run := s ← map_stack (Z.to_nat LINUX_STACK_PAGES) LINUX_STACK_BASE roomy;
    build_linux_stack 1 (λ n, replicate (Z.to_nat n) 0xCC) a_result (cstr <$> sh_args) [] (MkBump 4096 []) s in
  (match run with Ok (_, base) => base | _ => 0 end) = LINUX_STACK_TOP - 304 ∧
  ensures run (λ '(k', s', base), base = 0 ∨ ∃ argv_at envp_at random_at,
    user_holds s' base (words_bytes (abi_words a_result argv_at envp_at random_at)) ∧ Forall2 (on_stack s') argv_at sh_args).
Proof.
  intros run. split; [vm_compute; reflexivity|]. eapply ensures_mono.
  - apply (program_stack_built (λ _, True) 1 (λ n, replicate (Z.to_nat n) 0xCC) a_result (cstr <$> sh_args) [] sh_args [] (MkBump 4096 []) roomy).
    + intros. exact I.
    + apply roomy_ok.
    + intros n Hn. unfold zlen. rewrite length_replicate. lia.
    + repeat constructor.
    + constructor.
    + vm_compute. discriminate.
    + vm_compute. discriminate.
    + vm_compute. reflexivity.
  - intros [[k' s'] base] (_ & _ & _ & _ & _ & [[-> _]|(_ & _ & _ & av & ev & r & H1 & H2 & _ & _)]); [by left|right].
    exists av, ev, r. split; [exact H1|exact H2].
Defined.
