(* ===== verification/Acpi.v ===== *)
(** * The firmware tables ([boot/acpi.cpp])

    RSDP, RSDT or XSDT, MADT and HPET, read from the identity-mapped memory where
    the firmware left them: a table is its address, a field a little-endian load.
    The RSDP lies in the boot information, which is a list of bytes as in [Mb2]. *)

From S2P Require Import Prelude Mb2 Mem.

(** ** Layouts *)

Definition SIZEOF_TAG : Z := 8.
(** [RSDPDescriptor::rsdt_address], [RSDPDescriptor20::xsdt_address]. *)
Definition RSDP_RSDT : Z := 16.
Definition RSDP_XSDT : Z := 24.
(** [SDTHeader]: signature 0, length 4. *)
Definition SIZEOF_SDT : Z := 36.
Definition sdt_length (m : mem) (t : Z) : Z := load 4 m (t + 4).
(** [MADT]: local_apic_addr after the header, then flags. *)
Definition SIZEOF_MADT : Z := 44.
Definition MADT_LAPIC : Z := 36.
Definition MADT_TYPE_IOAPIC : Z := 1.
Definition MADT_TYPE_OVERRIDE : Z := 2.
(** [MADTIoApic]: io_apic_addr 4, gsi_base 8.  [MADTIntOverride]: irq_source 3, gsi 4. *)
Definition IOAPIC_ADDR : Z := 4.
Definition IOAPIC_GSI_BASE : Z := 8.
Definition OV_IRQ_SOURCE : Z := 3.
Definition OV_GSI : Z := 4.
(** [HPETTable]: gas_address_space_id, gas_address. *)
Definition HPET_SPACE_ID : Z := 40.
Definition HPET_ADDRESS : Z := 44.

Definition APIC_SIG : list Z := [65; 80; 73; 67].
Definition HPET_SIG : list Z := [72; 80; 69; 84].

Definition MAX_IOAPICS : Z := 4.

(** ** State *)

Record IoApic := MkIoApic { address : Z; gsi_base : Z }.
Record HpetInfo := MkHpetInfo { hpet_present : bool; hpet_address : Z }.

Record Acpi := MkAcpi {
  lapic_addr_ : Z;
  ioapics_ : list IoApic;
  ioapic_count_ : Z;
  irq_to_gsi_ : list Z;
  hpet_ : HpetInfo;
}.

(** Before [init]: static storage is zero. *)
Definition acpi_zero : Acpi :=
  MkAcpi 0 (replicate (Z.to_nat MAX_IOAPICS) (MkIoApic 0 0)) 0 (replicate 16 0) (MkHpetInfo false 0).

Definition with_hpet (h : HpetInfo) (a : Acpi) : Acpi := MkAcpi (lapic_addr_ a) (ioapics_ a) (ioapic_count_ a) (irq_to_gsi_ a) h.
Definition with_lapic (x : Z) (a : Acpi) : Acpi := MkAcpi x (ioapics_ a) (ioapic_count_ a) (irq_to_gsi_ a) (hpet_ a).
Definition with_gsi (g : list Z) (a : Acpi) : Acpi := MkAcpi (lapic_addr_ a) (ioapics_ a) (ioapic_count_ a) g (hpet_ a).
Definition add_ioapic (l : list IoApic) (a : Acpi) : Acpi := MkAcpi (lapic_addr_ a) l (ioapic_count_ a + 1) (irq_to_gsi_ a) (hpet_ a).

Definition irq_to_gsi (a : Acpi) (irq : Z) : Res Z :=
  if irq <? 16 then or_fault (zget (irq_to_gsi_ a) irq) else Ok irq.

(** ** Finding a table *)

Definition signature_is (m : mem) (hdr : Z) (sig : list Z) : Res bool :=
  s0 ← or_fault (zget sig 0); s1 ← or_fault (zget sig 1); s2 ← or_fault (zget sig 2); s3 ← or_fault (zget sig 3);
  Ok ((m hdr =? s0) && (m (hdr + 1) =? s1) && (m (hdr + 2) =? s2) && (m (hdr + 3) =? s3)).

(** [for (u32 i = 0; i < entries; ++i)]: the pointers are [width] bytes wide. *)
Fixpoint find_loop (n : nat) (width : nat) (m : mem) (ptrs i : Z) (sig : list Z) : Res (option Z) :=
  match n with
  | O => Ok None
  | S n =>
      let hdr := load width m (ptrs + Z.of_nat width * i) in
      b ← signature_is m hdr sig;
      if b : bool then Ok (Some hdr) else find_loop n width m ptrs (i + 1) sig
  end.

(** The number of pointers: a [u32] of a division in [size_t]. *)
Definition table_entries (width : nat) (m : mem) (t : Z) : Z := u32 (u64 (sdt_length m t - SIZEOF_SDT) / Z.of_nat width).

Definition find_table_rsdt (m : mem) (rsdt_addr : Z) (sig : list Z) : Res (option Z) :=
  find_loop (Z.to_nat (table_entries 4 m rsdt_addr)) 4 m (rsdt_addr + SIZEOF_SDT) 0 sig.

Definition find_table_xsdt (m : mem) (xsdt_addr : Z) (sig : list Z) : Res (option Z) :=
  find_loop (Z.to_nat (table_entries 8 m xsdt_addr)) 8 m (xsdt_addr + SIZEOF_SDT) 0 sig.

(** ** The interrupt sources of the MADT *)

(** One record at [p]. *)
Definition madt_entry (m : mem) (p : Z) (a : Acpi) : Res Acpi :=
  if (m p =? MADT_TYPE_IOAPIC) && (ioapic_count_ a <? MAX_IOAPICS) then
    l ← or_fault (zset (ioapics_ a) (ioapic_count_ a) (MkIoApic (load 4 m (p + IOAPIC_ADDR)) (load 4 m (p + IOAPIC_GSI_BASE))));
    Ok (add_ioapic l a)
  else if m p =? MADT_TYPE_OVERRIDE then
    if m (p + OV_IRQ_SOURCE) <? 16 then
      g ← or_fault (zset (irq_to_gsi_ a) (m (p + OV_IRQ_SOURCE)) (load 4 m (p + OV_GSI)));
      Ok (with_gsi g a)
    else Ok a
  else Ok a.

Fixpoint madt_loop (fuel : nat) (m : mem) (p end_ : Z) (a : Acpi) : Res Acpi :=
  match fuel with
  | O => NoFuel
  | S fuel =>
      if negb (p <? end_) then Ok a else
      let length := m (p + 1) in
      if length =? 0 then Ok a else
      a ← madt_entry m p a;
      madt_loop fuel m (p + length) end_ a
  end.

(** ** init *)

(** [irq_to_gsi_\[i\] = i]. *)
Definition identity_gsi : list Z := seqZ 0 16.

(** The root table and whether it is an XSDT, from the RSDP tags. *)
Definition root_table (fuel : nat) (info : list Z) : Res (Z * bool) :=
  old_tag ← find_tag fuel info TAG_ACPI_OLD;
  new_tag ← find_tag fuel info TAG_ACPI_NEW;
  '(root_addr, root_is_xsdt) ←
    (match new_tag with
     | Some t => x ← or_fault (field info (t + SIZEOF_TAG + RSDP_XSDT) 8); Ok (if negb (x =? 0) then (x, true) else (0, false))
     | None => Ok (0, false)
     end : Res (Z * bool));
  match old_tag with
  | Some t =>
      if root_addr =? 0 then r ← or_fault (field info (t + SIZEOF_TAG + RSDP_RSDT) 4); Ok (r, root_is_xsdt)
      else Ok (root_addr, root_is_xsdt)
  | None => Ok (root_addr, root_is_xsdt)
  end.

Definition find_table (m : mem) (root : Z * bool) (sig : list Z) : Res (option Z) :=
  if root.2 then find_table_xsdt m root.1 sig else find_table_rsdt m root.1 sig.

Definition madt_fuel (length : Z) : nat := S (Z.to_nat length).

(** [fuel] bounds the walk over the boot information's tags. *)
Definition init (fuel : nat) (info : list Z) (m : mem) (a : Acpi) : Res (Acpi * bool) :=
  let a := with_gsi identity_gsi a in
  root ← root_table fuel info;
  if root.1 =? 0 then Ok (a, false) else
  madt ← find_table m root APIC_SIG;
  match madt with
  | None => Ok (a, false)
  | Some madt =>
      hpet_table ← find_table m root HPET_SIG;
      let a := match hpet_table with
               | Some t => if m (t + HPET_SPACE_ID) =? 0 then with_hpet (MkHpetInfo true (load64 m (t + HPET_ADDRESS))) a else a
               | None => a
               end in
      let a := with_lapic (load 4 m (madt + MADT_LAPIC)) a in
      let p := madt + SIZEOF_MADT in
      let end_ := madt + sdt_length m madt in
      a ← madt_loop (madt_fuel (sdt_length m madt)) m p end_ a;
      Ok (a, 0 <? ioapic_count_ a)
  end.
