(* ===== verification/AcpiSpec.v ===== *)
(** * What reading the firmware tables gives

    The walk over the MADT ends whatever the table holds, and on a table that is a
    sequence of well-formed records it collects exactly the I/O APICs and the
    interrupt overrides they describe. *)

From S2P Require Import Prelude Mb2 Mem Acpi.

(** The arrays of the state have their sizes and the count is in range. *)
Record acpi_ok (a : Acpi) : Prop := {
  ao_ioapics : zlen (ioapics_ a) = MAX_IOAPICS;
  ao_count : 0 ≤ ioapic_count_ a ≤ MAX_IOAPICS;
  ao_gsi : zlen (irq_to_gsi_ a) = 16;
}.

Lemma acpi_zero_ok : acpi_ok acpi_zero.
Proof. by split. Qed.

Lemma with_gsi_ok g a : zlen g = 16 → acpi_ok a → acpi_ok (with_gsi g a).
Proof. by intros Hg [? ? ?]. Qed.

Lemma madt_entry_ok m p a : mem_ok m → acpi_ok a → ∃ a', madt_entry m p a = Ok a' ∧ acpi_ok a'.
Proof.
  intros Hm Ha. pose proof Ha as [H1 H2 H3]. unfold madt_entry. pose proof (Hm (p + OV_IRQ_SOURCE)) as Hb. unfold is_u8 in Hb.
  destruct (_ && _) eqn:E; bool_arith.
  - rewrite zset_is by lia. res_step. eexists. split; [done|]. split; cbn; [by rewrite zlen_insert|lia|done].
  - case_match; [|by exists a]. case_match eqn:E2; [|by exists a]. bool_arith. rewrite zset_is by lia. res_step.
    eexists. split; [done|]. apply with_gsi_ok; [by rewrite zlen_insert|done].
Qed.

Lemma madt_loop_total m end_ fuel p a :
  mem_ok m → acpi_ok a → end_ - p < Z.of_nat fuel → (0 < fuel)%nat →
  ∃ a', madt_loop fuel m p end_ a = Ok a' ∧ acpi_ok a'.
Proof.
  intros Hm. revert p a. induction fuel as [|fuel IH]; intros p a Ha Hf H0; [lia|]. cbn [madt_loop].
  destruct (Z.ltb_spec p end_); cbn [negb]; [|by exists a]. pose proof (Hm (p + 1)) as Hb. unfold is_u8 in Hb.
  destruct (Z.eqb_spec (m (p + 1)) 0); [by exists a|].
  destruct (madt_entry_ok m p a Hm Ha) as (a1 & -> & H1). res_step. apply IH; [done|lia|lia].
Qed.

(** Everything [init] does before the walk over the MADT. *)
Definition before_walk (m : mem) (madt : Z) (hpet_table : option Z) (a : Acpi) : Acpi :=
  let a := with_gsi identity_gsi a in
  let a := match hpet_table with
           | Some t => if m (t + HPET_SPACE_ID) =? 0 then with_hpet (MkHpetInfo true (load64 m (t + HPET_ADDRESS))) a else a
           | None => a
           end in
  with_lapic (load 4 m (madt + MADT_LAPIC)) a.

Lemma before_walk_ok m madt h a : acpi_ok a → acpi_ok (before_walk m madt h a).
Proof. intros [? ? ?]. unfold before_walk. repeat case_match; by split. Qed.

(** ** The tables in memory *)

(** A table: signature, length, the rest of the 36-byte header, and what follows. *)
Definition encode_sdt (sig mid body : list Z) : list Z := sig ++ le_bytes 4 (36 + zlen body) ++ mid ++ body.

Record sdt_at (m : mem) (t : Z) (sig mid body : list Z) : Prop := {
  sd_bytes : bytes_at m t (encode_sdt sig mid body);
  sd_parts : zlen sig = 4 ∧ zlen mid = 28 ∧ 36 + zlen body < 2 ^ 32;
}.

Lemma sdt_at_parts m t sig mid body :
  sdt_at m t sig mid body → sdt_length m t = 36 + zlen body ∧ bytes_at m (t + 36) body.
Proof.
  intros [Hb (Hs & Hm & Hl)]. unfold encode_sdt in Hb. apply bytes_at_app in Hb as [_ Hb].
  apply bytes_at_app in Hb as [H4 Hb]. apply bytes_at_app in Hb as [_ Hb]. rewrite Hs in *. split.
  - unfold sdt_length. apply load_bytes_at; [unfold zlen in *; lia|done].
  - unfold zlen in Hb at 1. rewrite le_bytes_length, Hm in Hb. by replace (t + 4 + Z.of_nat 4 + 28) with (t + 36) in Hb by lia.
Qed.

(** The four bytes at [t], and the first of the tables [ptrs] with a signature. *)
Definition sig_at (m : mem) (t : Z) : list Z := [m t; m (t + 1); m (t + 2); m (t + 3)].
Definition first_signed (m : mem) (sig : list Z) (ptrs : list Z) : option Z := List.find (λ t, bool_decide (sig_at m t = sig)) ptrs.

Lemma signature_is_spec m t sig : zlen sig = 4 → signature_is m t sig = Ok (bool_decide (sig_at m t = sig)).
Proof.
  intros Hs. unfold zlen in Hs. destruct sig as [|a [|b [|c [|d [|]]]]]; simpl in Hs; try lia. unfold signature_is, sig_at.
  change (Ok ((m t =? a) && (m (t + 1) =? b) && (m (t + 2) =? c) && (m (t + 3) =? d)) =
    Ok (bool_decide ([m t; m (t + 1); m (t + 2); m (t + 3)] = [a; b; c; d]))). f_equal. apply eq_true_iff_eq. rewrite !andb_true_iff, !Z.eqb_eq, bool_decide_eq_true.
  split; [intros [[[-> ->] ->] ->]; done|by intros [= -> -> -> ->]].
Qed.

(** The root table lists its pointers, [w] bytes each. *)
Definition root_at (m : mem) (root : Z) (w : nat) (sig mid ptrs : list Z) : Prop :=
  sdt_at m root sig mid (concat (le_bytes w <$> ptrs)) ∧ Forall (λ t, 0 ≤ t < 2 ^ (8 * Z.of_nat w)) ptrs.

Lemma pointers_length w (ptrs : list Z) : zlen (concat (le_bytes w <$> ptrs)) = Z.of_nat w * zlen ptrs.
Proof.
  induction ptrs as [|t ptrs IH]; [unfold zlen; simpl; lia|]. rewrite fmap_cons. cbn [concat]. rewrite zlen_app, IH.
  unfold zlen. rewrite le_bytes_length. simpl length. lia.
Qed.

Lemma find_loop_spec m w sig ptrs p i :
  zlen sig = 4 → Forall (λ t, 0 ≤ t < 2 ^ (8 * Z.of_nat w)) ptrs →
  bytes_at m (p + Z.of_nat w * i) (concat (le_bytes w <$> ptrs)) →
  find_loop (length ptrs) w m p i sig = Ok (first_signed m sig ptrs).
Proof.
  intros Hs Hp. revert i. induction Hp as [|t ptrs Ht Hp IH]; intros i Hb; [done|]. cbn [find_loop length].
  rewrite fmap_cons in Hb. cbn [concat] in Hb. apply bytes_at_app in Hb as [H1 H2].
  rewrite (load_bytes_at w m _ t Ht H1), signature_is_spec by done. res_step. unfold first_signed. cbn [List.find].
  case_match; [done|]. apply IH. unfold zlen in H2. rewrite le_bytes_length in H2.
  by replace (p + Z.of_nat w * (i + 1)) with (p + Z.of_nat w * i + Z.of_nat w) by lia.
Qed.

Lemma find_table_spec m root w rsig rmid ptrs sig :
  w = 4%nat ∨ w = 8%nat → zlen sig = 4 → root_at m root w rsig rmid ptrs →
  find_table m (root, bool_decide (w = 8%nat)) sig = Ok (first_signed m sig ptrs).
Proof.
  intros Hw Hs [Hr Hp]. destruct (sdt_at_parts _ _ _ _ _ Hr) as [Hl Hb]. pose proof (sd_parts _ _ _ _ _ Hr) as (_ & _ & Hmax).
  rewrite pointers_length in *. assert (0 ≤ zlen ptrs) by (unfold zlen; lia).
  assert (Z.to_nat (table_entries w m root) = length ptrs) as Hn.
  { unfold table_entries. rewrite Hl. unfold SIZEOF_SDT. replace (36 + Z.of_nat w * zlen ptrs - 36) with (zlen ptrs * Z.of_nat w) by lia.
    rewrite u64_small by (unfold is_u64; nia). rewrite Z.div_mul by lia. rewrite u32_small by (unfold is_u32; nia). unfold zlen. lia. }
  assert (find_loop (Z.to_nat (table_entries w m root)) w m (root + SIZEOF_SDT) 0 sig = Ok (first_signed m sig ptrs)) as F.
  { rewrite Hn. apply find_loop_spec; [done|done|]. by rewrite Z.mul_0_r, Z.add_0_r. }
  unfold find_table. cbn [fst snd]. destruct Hw as [->| ->]; exact F.
Qed.

(** Where the RSDP the loader copied says the root table is, and the width of its pointers:
    the XSDT of an ACPI 2.0 one when it names one, else the RSDT of an ACPI 1.0 one. *)
Definition rsdp_root (ts : list Tag) : option (Z * nat) :=
  let old := match first_tag 14 ts with
             | Some body => r ← field body 16 4; Some (r, 4%nat)
             | None => None
             end in
  match first_tag 15 ts with
  | Some body => x ← field body 24 8; if decide (x = 0) then old else Some (x, 8%nat)
  | None => old
  end.

Lemma field_bounds l o n v : field l o n = Some v → 0 ≤ o ∧ 0 ≤ n ∧ o + n ≤ zlen l.
Proof. unfold field, slice. destruct (_ || _) eqn:E; [done|]. intros _. bool_arith. lia. Qed.

Lemma root_table_spec fuel hdr ts rest root w :
  zlen hdr = 8 → Forall tag_wf ts → (length ts < fuel)%nat → rsdp_root ts = Some (root, w) →
  root_table fuel (encode_info hdr ts rest) = Ok (root, bool_decide (w = 8%nat)) ∧ (w = 4%nat ∨ w = 8%nat).
Proof.
  intros Hh Hts Hf Hr. unfold root_table, rsdp_root in *.
  destruct (find_tag_encoded fuel hdr ts rest 14 Hh ltac:(done) Hts Hf) as (r14 & E14 & F14).
  destruct (find_tag_encoded fuel hdr ts rest 15 Hh ltac:(done) Hts Hf) as (r15 & E15 & F15).
  change TAG_ACPI_OLD with 14. change TAG_ACPI_NEW with 15. rewrite E14, E15. res_step.
  assert (∀ b, match first_tag 14 ts with Some body => r ← field body 16 4; Some (r, 4%nat) | None => None end = Some (root, w) →
    match r14 with
    | Some t => r ← or_fault (field (encode_info hdr ts rest) (t + SIZEOF_TAG + RSDP_RSDT) 4); Ok (r, b : bool)
    | None => Ok (0, b)
    end = Ok (root, b) ∧ w = 4%nat) as Hold.
  { intros b Ho. destruct (first_tag 14 ts) as [body|]; [|done]. destruct F14 as (off & -> & F).
    destruct (field body 16 4) as [r|] eqn:Er; [|done]. cbn in Ho. simplify_eq.
    unfold SIZEOF_TAG, RSDP_RSDT. rewrite F, Er; [done|lia|lia|]. apply field_bounds in Er. lia. }
  destruct (first_tag 15 ts) as [body|].
  - destruct F15 as (off & -> & F). destruct (field body 24 8) as [x|] eqn:Ex; [|done]. cbn [mbind option_bind] in Hr.
    unfold SIZEOF_TAG at 1, RSDP_XSDT. rewrite F, Ex; [|lia|lia|apply field_bounds in Ex; lia]. res_step. case_decide as Hx.
    + rewrite Hx, Z.eqb_refl. cbn [negb]. res_step. rewrite Z.eqb_refl.
      destruct (Hold false Hr) as [E ->]. split; [|by left]. destruct r14; exact E.
    + rewrite (proj2 (Z.eqb_neq x 0)) by done. cbn [negb]. res_step. simplify_eq.
      split; [|by right]. rewrite (proj2 (Z.eqb_neq root 0)) by done. by destruct r14.
  - rewrite F15. res_step. rewrite Z.eqb_refl. destruct (Hold false Hr) as [E ->]. split; [|by left]. destruct r14; exact E.
Qed.

(** The firmware's tables as they are found: the boot information, and the root table it
    leads to. *)
Record firmware (fuel : nat) (info : list Z) (m : mem) (root : Z) (w : nat) (ptrs : list Z) : Prop := {
  fw_info : ∃ hdr ts rest, info = encode_info hdr ts rest ∧ zlen hdr = 8 ∧ Forall tag_wf ts ∧ (length ts < fuel)%nat ∧
    rsdp_root ts = Some (root, w);
  fw_root : root ≠ 0;
  fw_table : ∃ sig mid, root_at m root w sig mid ptrs;
}.

Lemma firmware_found fuel info m root w ptrs :
  firmware fuel info m root w ptrs →
  ∃ r, root_table fuel info = Ok (root, r) ∧ ∀ sig, zlen sig = 4 → find_table m (root, r) sig = Ok (first_signed m sig ptrs).
Proof.
  intros [(hdr & ts & rest & -> & Hh & Hts & Hf & Hr) _ (sig & mid & Ht)].
  destruct (root_table_spec fuel hdr ts rest root w Hh Hts Hf Hr) as [E Hw]. eexists. split; [exact E|].
  intros sg Hsg. by eapply find_table_spec.
Qed.

(** [init] once the tables are found. *)
Lemma init_found fuel info m root w ptrs a :
  firmware fuel info m root w ptrs →
  init fuel info m a =
    match first_signed m APIC_SIG ptrs with
    | None => Ok (with_gsi identity_gsi a, false)
    | Some madt =>
        a ← madt_loop (madt_fuel (sdt_length m madt)) m (madt + SIZEOF_MADT) (madt + sdt_length m madt)
              (before_walk m madt (first_signed m HPET_SIG ptrs) a);
        Ok (a, 0 <? ioapic_count_ a)
    end.
Proof.
  intros F. destruct (firmware_found _ _ _ _ _ _ F) as (r & E & Hf). unfold init. rewrite E. res_step. cbn [fst].
  rewrite (proj2 (Z.eqb_neq root 0)) by apply F. rewrite (Hf APIC_SIG), (Hf HPET_SIG) by done. res_step. destruct (first_signed m APIC_SIG ptrs) as [madt|]; [|done].
  res_step. done.
Qed.

(** ** What is read *)

(** The bytes of the firmware's memory that [init] may read: the root table, the signatures
    of the tables it lists, the HPET table, and the MADT with the eleven bytes behind it that a
    last record cut short lets it read. *)
Definition firmware_byte (m : mem) (root : Z) (w : nat) (ptrs : list Z) (x : Z) : Prop :=
  root ≤ x < root + 36 + Z.of_nat w * zlen ptrs ∨ (∃ t, t ∈ ptrs ∧ t ≤ x < t + 4) ∨
  (∃ t, first_signed m HPET_SIG ptrs = Some t ∧ t ≤ x < t + 52) ∨
  (∃ t, first_signed m APIC_SIG ptrs = Some t ∧ t ≤ x < t + Z.max 44 (sdt_length m t + 11)).

Lemma madt_entry_ext m m' p a : (∀ x, p ≤ x < p + 12 → m' x = m x) → madt_entry m' p a = madt_entry m p a.
Proof.
  intros He. unfold madt_entry, IOAPIC_ADDR, IOAPIC_GSI_BASE, OV_GSI, OV_IRQ_SOURCE. rewrite !He by lia.
  rewrite !(load_ext 4 m' m) by (intros x Hx; apply He; lia). done.
Qed.

Lemma madt_loop_ext m m' start end_ fuel p a :
  mem_ok m → start ≤ p → (∀ x, start ≤ x < end_ + 11 → m' x = m x) → madt_loop fuel m' p end_ a = madt_loop fuel m p end_ a.
Proof.
  intros Hm Hp He. revert p a Hp. induction fuel as [|fuel IH]; intros p a Hp; [done|]. cbn [madt_loop].
  destruct (Z.ltb_spec p end_); cbn [negb]; [|done]. rewrite He by lia. case_match; [done|].
  rewrite (madt_entry_ext m m') by (intros x Hx; apply He; lia). pose proof (Hm (p + 1)) as Hb. unfold is_u8 in Hb.
  destruct (madt_entry m p a); [|done..]. res_step. apply IH. lia.
Qed.

Lemma first_signed_ext m m' sig ptrs :
  (∀ t x, t ∈ ptrs → t ≤ x < t + 4 → m' x = m x) → first_signed m' sig ptrs = first_signed m sig ptrs.
Proof.
  unfold first_signed. induction ptrs as [|t ptrs IH]; intros He; [done|]. cbn [List.find].
  assert (sig_at m' t = sig_at m t) as ->.
  { unfold sig_at. by rewrite !(He t) by (lia || apply list_elem_of_here). }
  rewrite IH; [done|]. intros q x Hq. apply He. by apply list_elem_of_further.
Qed.

Lemma firmware_ext fuel info m m' root w ptrs :
  firmware fuel info m root w ptrs → (∀ x, root ≤ x < root + 36 + Z.of_nat w * zlen ptrs → m' x = m x) →
  firmware fuel info m' root w ptrs.
Proof.
  intros [Hi Hr (sig & mid & [[Hb Hp] Hw])] He. split; [done|done|]. exists sig, mid. split; [|done]. split; [|done].
  intros i b Hib. rewrite <-(Hb i b Hib). apply He. apply zget_bounds in Hib. unfold encode_sdt in Hib.
  rewrite !zlen_app, pointers_length in Hib. unfold zlen in Hib at 2. rewrite le_bytes_length in Hib. lia.
Qed.

Lemma before_walk_ext m m' madt h a :
  (∀ x, madt ≤ x < madt + 44 → m' x = m x) → (∀ t x, h = Some t → t ≤ x < t + 52 → m' x = m x) →
  before_walk m' madt h a = before_walk m madt h a.
Proof.
  intros Hm Hh. unfold before_walk, MADT_LAPIC, HPET_SPACE_ID, HPET_ADDRESS, load64.
  rewrite (load_ext 4 m' m) by (intros x Hx; apply Hm; lia). destruct h as [t|]; [|done].
  rewrite (Hh t (t + 40) eq_refl) by lia. by rewrite (load_ext 8 m' m) by (intros x Hx; apply (Hh t); [done|lia]).
Qed.

Lemma init_ext fuel info m m' root w ptrs a :
  mem_ok m → firmware fuel info m root w ptrs → (∀ x, firmware_byte m root w ptrs x → m' x = m x) →
  init fuel info m' a = init fuel info m a.
Proof.
  intros Hok F He. assert (∀ sig, first_signed m' sig ptrs = first_signed m sig ptrs) as Hsame.
  { intros sig. apply first_signed_ext. intros t x Ht Hx. apply He. right; left. by exists t. }
  rewrite (init_found fuel info m' root w ptrs), (init_found fuel info m root w ptrs), !Hsame;
    [|done|apply (firmware_ext _ _ m); [done|]; intros x Hx; apply He; by left].
  destruct (first_signed m APIC_SIG ptrs) as [madt|] eqn:Em; [|done].
  assert (∀ x, madt ≤ x < madt + Z.max 44 (sdt_length m madt + 11) → m' x = m x) as Hmadt.
  { intros x Hx. apply He. right; right; right. by exists madt. }
  assert (sdt_length m' madt = sdt_length m madt) as Hlen.
  { unfold sdt_length. apply load_ext. intros x Hx. apply Hmadt. lia. }
  rewrite Hlen, (before_walk_ext m m').
  - f_equal. apply (madt_loop_ext m m' madt); [done|unfold SIZEOF_MADT; lia|]. intros x Hx. apply Hmadt. lia.
  - intros x Hx. apply Hmadt. lia.
  - intros t x Ht Hx. apply He. right; right; left. by exists t.
Qed.


(** ** A MADT as a sequence of records *)

Inductive MadtEntry :=
  | EIoApic (id reserved addr base : Z)
  | EOverride (bus irq gsi flags : Z)
  | EOther (type : Z) (body : list Z).

Definition encode_madt (e : MadtEntry) : list Z :=
  match e with
  | EIoApic id reserved addr base => [1; 12; id; reserved] ++ le_bytes 4 addr ++ le_bytes 4 base
  | EOverride bus irq gsi flags => [2; 10; bus; irq] ++ le_bytes 4 gsi ++ le_bytes 2 flags
  | EOther type body => type :: (2 + zlen body) :: body
  end.

Definition madt_entry_wf (e : MadtEntry) : Prop :=
  match e with
  | EIoApic id reserved addr base => is_u32 addr ∧ is_u32 base
  | EOverride bus irq gsi flags => 0 ≤ irq < 256 ∧ is_u32 gsi
  | EOther type body => type ≠ MADT_TYPE_IOAPIC ∧ type ≠ MADT_TYPE_OVERRIDE
  end.

(** What the records say: the I/O APICs in order, and the last override of each IRQ. *)
Definition madt_ioapics (es : list MadtEntry) : list IoApic :=
  omap (λ e, match e with EIoApic _ _ addr base => Some (MkIoApic addr base) | _ => None end) es.

Definition madt_gsi (es : list MadtEntry) (irq : Z) : Z :=
  foldl (λ g e, match e with EOverride _ i gsi _ => if decide (i = irq) then gsi else g | _ => g end) irq es.

(** The state after the records [es], from the state [a]. *)
Definition recorded (a a' : Acpi) (es : list MadtEntry) : Prop :=
  lapic_addr_ a' = lapic_addr_ a ∧ hpet_ a' = hpet_ a ∧
  take (Z.to_nat (ioapic_count_ a')) (ioapics_ a') =
    take (Z.to_nat MAX_IOAPICS) (take (Z.to_nat (ioapic_count_ a)) (ioapics_ a) ++ madt_ioapics es) ∧
  ∀ irq g, zget (irq_to_gsi_ a) irq = Some g →
    zget (irq_to_gsi_ a') irq = Some (foldl (λ g e, match e with EOverride _ i gsi _ => if decide (i = irq) then gsi else g | _ => g end) g es).

Lemma same_ioapics a es : acpi_ok a → madt_ioapics es = [] →
  take (Z.to_nat (ioapic_count_ a)) (ioapics_ a) =
    take (Z.to_nat MAX_IOAPICS) (take (Z.to_nat (ioapic_count_ a)) (ioapics_ a) ++ madt_ioapics es).
Proof. intros [_ H2 _] ->. rewrite app_nil_r, take_take. f_equal. unfold MAX_IOAPICS in *. lia. Qed.

Lemma madt_entry_spec m p a e :
  acpi_ok a → madt_entry_wf e → bytes_at m p (encode_madt e) →
  m (p + 1) = zlen (encode_madt e) ∧ ∃ a', madt_entry m p a = Ok a' ∧ acpi_ok a' ∧ recorded a a' [e].
Proof.
  intros Ha He Hb. pose proof Ha as [H1 H2 H3]. unfold MAX_IOAPICS in *. unfold madt_entry. destruct e as [id res addr base|bus irq gsi flags|type body]; cbn [encode_madt madt_entry_wf] in *.
  - apply bytes_at_app in Hb as [Hh Hb]. apply bytes_at_app in Hb as [Hb1 Hb2].
    apply bytes_at_cons in Hh as [-> Hh]. apply bytes_at_cons in Hh as [-> _].
    change (p + zlen [1; 12; id; res]) with (p + IOAPIC_ADDR) in *.
    replace (p + IOAPIC_ADDR + zlen (le_bytes 4 addr)) with (p + IOAPIC_GSI_BASE) in Hb2 by (unfold IOAPIC_ADDR, IOAPIC_GSI_BASE, zlen; rewrite le_bytes_length; lia).
    rewrite (load_bytes_at 4 m (p + IOAPIC_ADDR) addr), (load_bytes_at 4 m (p + IOAPIC_GSI_BASE) base) by (done || apply He).
    split; [done|]. unfold MAX_IOAPICS. cbn [Z.eqb MADT_TYPE_IOAPIC]. change (1 =? MADT_TYPE_IOAPIC) with true. cbn [andb].
    destruct (Z.ltb_spec (ioapic_count_ a) 4) as [Hlt|Hge].
    + rewrite zset_is by lia. res_step. eexists. split; [done|]. split; [split; cbn; [by rewrite zlen_insert|unfold MAX_IOAPICS; lia|done]|].
      split; [done|]. split; [done|]. split; [|intros q g Hg; exact Hg]. cbn [ioapics_ ioapic_count_ add_ioapic madt_ioapics omap list_omap].
      unfold zlen in H1. rewrite (take_ge (_ ++ _)) by (rewrite length_app, length_take; unfold MAX_IOAPICS; simpl; lia).
      replace (Z.to_nat (ioapic_count_ a + 1)) with (S (Z.to_nat (ioapic_count_ a))) by lia.
      rewrite (take_S_r _ _ (MkIoApic addr base)) by (rewrite list_lookup_insert_eq; [done|lia]). by rewrite take_insert_ge by lia.
    + change (1 =? MADT_TYPE_OVERRIDE) with false. cbn. exists a. split; [done|]. split; [done|]. split; [done|]. split; [done|].
      split; [|intros q g Hg; exact Hg]. unfold zlen in H1. rewrite !(take_ge (ioapics_ a)) by lia.
      rewrite take_app_le by (unfold MAX_IOAPICS; lia). by rewrite take_ge by (unfold MAX_IOAPICS; lia).
  - apply bytes_at_app in Hb as [Hh Hb]. apply bytes_at_app in Hb as [Hb1 _].
    apply bytes_at_cons in Hh as [-> Hh]. apply bytes_at_cons in Hh as [-> Hh]. apply bytes_at_cons in Hh as [_ Hh]. apply bytes_at_cons in Hh as [Hi _].
    change (p + zlen [2; 10; bus; irq]) with (p + OV_GSI) in Hb1. rewrite (load_bytes_at 4 m (p + OV_GSI) gsi) by (done || apply He).
    replace (p + OV_IRQ_SOURCE) with (p + 1 + 1 + 1) by (unfold OV_IRQ_SOURCE; lia). rewrite Hi. split; [done|].
    change (2 =? MADT_TYPE_IOAPIC) with false. change (2 =? MADT_TYPE_OVERRIDE) with true. cbn [andb].
    destruct (Z.ltb_spec irq 16) as [Hlt|Hge].
    + rewrite zset_is by lia. res_step. eexists. split; [done|]. split; [apply with_gsi_ok; [by rewrite zlen_insert|done]|].
      split; [done|]. split; [done|]. split; [exact (same_ioapics a [EOverride bus irq gsi flags] Ha eq_refl)|]. intros q g Hg. cbn [irq_to_gsi_ with_gsi foldl].
      rewrite zget_insert by lia. case_decide; [by rewrite decide_True by lia|]. by rewrite decide_False by lia.
    + exists a. split; [done|]. split; [done|]. split; [done|]. split; [done|]. split; [by apply same_ioapics|].
      intros q g Hg. cbn [foldl]. apply zget_bounds in Hg as Hq. by rewrite decide_False by lia.
  - destruct He as [He1 He2]. apply bytes_at_cons in Hb as [-> Hb]. apply bytes_at_cons in Hb as [-> _].
    split; [unfold zlen; simpl; lia|]. rewrite (proj2 (Z.eqb_neq _ _) He1), (proj2 (Z.eqb_neq _ _) He2). cbn [andb].
    exists a. split; [done|]. split; [done|]. split; [done|]. split; [done|]. split; [by apply same_ioapics|done].
Qed.

Lemma recorded_trans a1 a2 a3 es1 es2 :
  acpi_ok a1 → recorded a1 a2 es1 → recorded a2 a3 es2 → recorded a1 a3 (es1 ++ es2).
Proof.
  intros Hok (L1 & H1 & I1 & G1) (L2 & H2 & I2 & G2). split; [congruence|]. split; [congruence|]. split.
  - rewrite I2, I1. unfold madt_ioapics. rewrite omap_app, app_assoc. set (l := take _ (ioapics_ a1) ++ _). set (r := omap _ es2).
    destruct (decide (length l ≤ Z.to_nat MAX_IOAPICS)%nat) as [Hl|Hl]; [by rewrite (take_ge l)|].
    rewrite !take_app_le by (rewrite ?length_take; lia). by rewrite take_take, Nat.min_id.
  - intros irq g Hg. rewrite foldl_app. by apply G2, G1.
Qed.

Lemma madt_loop_spec m es p fuel a :
  acpi_ok a → Forall madt_entry_wf es → bytes_at m p (concat (encode_madt <$> es)) →
  zlen (concat (encode_madt <$> es)) < Z.of_nat fuel →
  ∃ a', madt_loop fuel m p (p + zlen (concat (encode_madt <$> es))) a = Ok a' ∧ acpi_ok a' ∧ recorded a a' es.
Proof.
  intros Ha Hwf. revert p fuel a Ha. induction Hwf as [|e es He Hwf IH]; intros p fuel a Ha Hb Hf; (destruct fuel as [|fuel]; [unfold zlen in Hf; lia|]); cbn [madt_loop].
  { change (zlen (concat (encode_madt <$> []))) with 0. rewrite Z.add_0_r, Z.ltb_irrefl. exists a. split; [done|]. split; [done|].
    split; [done|]. split; [done|]. split; [by apply same_ioapics|done]. }
  cbn [fmap list_fmap concat] in *. apply bytes_at_app in Hb as [Hb1 Hb2]. rewrite zlen_app in *.
  destruct (madt_entry_spec m p a e Ha He Hb1) as (El & a1 & E1 & Ha1 & R1). rewrite El.
  assert (2 ≤ zlen (encode_madt e)) as Hle by (unfold zlen; destruct e; simpl; lia).
  assert (0 ≤ zlen (concat (encode_madt <$> es))) by (unfold zlen; lia). unfold fmap in *.
  rewrite (proj2 (Z.ltb_lt _ _)) by lia. cbn [negb]. rewrite (proj2 (Z.eqb_neq _ 0)) by lia. rewrite E1. res_step.
  rewrite Z.add_assoc. destruct (IH (p + zlen (encode_madt e)) fuel a1 Ha1 Hb2) as (a' & E & Ha' & R'); [lia|].
  exists a'. split; [exact E|]. split; [done|]. by apply (recorded_trans a a1 a' [e] es).
Qed.

(** C32. The boot loader hands over an RSDP whose root table lists the firmware's tables, and
    the first MADT among them is a sequence of well-formed records: then [init] reports the
    local APIC's address, the first four I/O APICs in order, for each legacy IRQ the GSI of
    its last override, or the IRQ's own number when it has none, and the address of the first
    HPET listed if that one is in memory space. *)
Theorem acpi_init_records_madt fuel info (m : mem) root w ptrs madt mid lapic flags es :
  firmware fuel info m root w ptrs → first_signed m [65; 80; 73; 67] ptrs = Some madt →
  sdt_at m madt [65; 80; 73; 67] mid (le_bytes 4 lapic ++ le_bytes 4 flags ++ concat (encode_madt <$> es)) →
  is_u32 lapic → Forall madt_entry_wf es →
  ∃ a, init fuel info m acpi_zero = Ok (a, bool_decide (madt_ioapics es ≠ [])) ∧
    lapic_addr_ a = lapic ∧
    take (Z.to_nat (ioapic_count_ a)) (ioapics_ a) = take 4 (madt_ioapics es) ∧
    (∀ irq, 0 ≤ irq < 16 → irq_to_gsi a irq = Ok (madt_gsi es irq)) ∧
    hpet_ a = match first_signed m [72; 80; 69; 84] ptrs with
              | Some t => if decide (m (t + 40) = 0) then MkHpetInfo true (load 8 m (t + 44)) else MkHpetInfo false 0
              | None => MkHpetInfo false 0
              end.
Proof.
  intros Hfw Hf Hmadt Hlap Hwf. rewrite (init_found _ _ _ _ _ _ _ Hfw). change APIC_SIG with [65; 80; 73; 67]. rewrite Hf.
  change HPET_SIG with [72; 80; 69; 84]. set (h := first_signed m [72; 80; 69; 84] ptrs).
  destruct (sdt_at_parts _ _ _ _ _ Hmadt) as [Hlen Hb]. apply bytes_at_app in Hb as [Hb1 Hb]. apply bytes_at_app in Hb as [_ Hb].
  apply load_bytes_at in Hb1; [|exact Hlap]. rewrite !zlen_app in Hlen. unfold zlen in Hlen at 1 2. rewrite !le_bytes_length in Hlen.
  unfold zlen in Hb at 1 2. rewrite !le_bytes_length in Hb. replace (madt + 36 + Z.of_nat 4 + Z.of_nat 4) with (madt + SIZEOF_MADT) in Hb by (unfold SIZEOF_MADT; lia).
  destruct (madt_loop_spec m es (madt + SIZEOF_MADT) (madt_fuel (sdt_length m madt)) (before_walk m madt h acpi_zero))
    as (a & E & Ha & RL & RH & RI & RG); [apply before_walk_ok, acpi_zero_ok|done|done|unfold madt_fuel, SIZEOF_MADT in *; lia|].
  replace (madt + SIZEOF_MADT + zlen (concat (encode_madt <$> es))) with (madt + sdt_length m madt) in E by (unfold SIZEOF_MADT; lia).
  rewrite E. res_step.
  assert (take (Z.to_nat (ioapic_count_ (before_walk m madt h acpi_zero))) (ioapics_ (before_walk m madt h acpi_zero)) = []) as Hnil
    by (unfold before_walk; repeat case_match; done).
  rewrite Hnil in RI. cbn [app] in RI. exists a. split_and!.
  - do 2 f_equal. pose proof Ha as [H1 H2 _]. apply (f_equal length) in RI. rewrite !length_take in RI. unfold zlen, MAX_IOAPICS in *.
    case_bool_decide as Hd.
    + apply Z.ltb_lt. destruct (madt_ioapics es); [done|]. simpl in RI. lia.
    + apply Z.ltb_ge. rewrite Hd in RI. simpl in RI. lia.
  - rewrite RL, <-Hb1. unfold before_walk. by repeat case_match.
  - exact RI.
  - intros irq Hirq. unfold irq_to_gsi. rewrite (proj2 (Z.ltb_lt _ _)) by lia. rewrite (RG irq irq); [done|].
    assert (irq_to_gsi_ (before_walk m madt h acpi_zero) = identity_gsi) as -> by (unfold before_walk; by repeat case_match).
    apply zget_Some. split; [lia|]. unfold identity_gsi. rewrite lookup_seqZ. lia.
  - rewrite RH. unfold before_walk, HPET_SPACE_ID, HPET_ADDRESS. destruct h as [t|]; [|done].
    destruct (Z.eqb_spec (m (t + 40)) 0); [by rewrite decide_True|by rewrite decide_False].
Qed.

(** ** A small machine *)

Lemma mem_ok_store_bytes m p bs : mem_ok m → Forall is_u8 bs → mem_ok (store_bytes m p bs).
Proof.
  intros Hm Hb x. unfold store_bytes. destruct (zget bs (x - p)) as [b|] eqn:E; [|apply Hm].
  apply zget_Some in E as [_ E]. by eapply (proj1 (Forall_lookup _ _) Hb).
Qed.

(** One I/O APIC, the timer's interrupt on GSI 2, and a local APIC record. *)
Definition sample_entries : list MadtEntry :=
  [EOther 0 [0; 0; 1; 0; 0; 0]; EIoApic 0 0 0xFEC00000 0; EOverride 0 0 2 0].

Definition sample_madt : list Z :=
  encode_sdt [65; 80; 73; 67] (replicate 28 0) (le_bytes 4 0xFEE00000 ++ le_bytes 4 1 ++ concat (encode_madt <$> sample_entries)).

Definition sample_mid : list Z := replicate 28 0.

(** The XSDT lists a table of another kind before the MADT. *)
Definition sample_ptrs : list Z := [0x3000; 0x2000].
Definition sample_xsdt : list Z := encode_sdt [88; 83; 68; 84] sample_mid (concat (le_bytes 8 <$> sample_ptrs)).

Definition sample_memory : mem :=
  store_bytes (store_bytes (store_bytes (λ _, 0) 0x1000 sample_xsdt) 0x3000 [70; 65; 67; 80]) 0x2000 sample_madt.

(** A boot information with a memory map and an ACPI 2.0 RSDP. *)
Definition sample_tags : list Tag := [(6, replicate 13 0); (15, replicate 24 0 ++ le_bytes 8 0x1000 ++ replicate 4 0)].
Definition sample_info : list Z := encode_info (le_bytes 8 96) sample_tags (le_bytes 4 8).

Lemma sample_memory_ok : mem_ok sample_memory.
Proof.
  repeat apply mem_ok_store_bytes; [intros x; unfold is_u8; lia|..]; repeat constructor; vm_compute; congruence.
Qed.

Lemma sample_firmware : firmware 8 sample_info sample_memory 0x1000 8 sample_ptrs.
Proof.
  split; [|done|].
  - exists (le_bytes 8 96), sample_tags, (le_bytes 4 8). split; [done|]. split; [reflexivity|]. split.
    + repeat constructor; try (vm_compute; congruence); try (vm_compute; reflexivity).
    + split; [simpl; lia|vm_compute; reflexivity].
  - exists [88; 83; 68; 84], sample_mid. split.
    + split; [|split_and!; vm_compute; reflexivity].
      apply bytes_at_outside; [apply bytes_at_outside; [apply bytes_at_store|]|]; left; vm_compute; congruence.
    + repeat constructor; vm_compute; congruence.
Qed.


Lemma acpi_init_records_madt_witness :
  ∃ a, init 8 sample_info sample_memory acpi_zero = Ok (a, true) ∧ lapic_addr_ a = 0xFEE00000 ∧
    take (Z.to_nat (ioapic_count_ a)) (ioapics_ a) = [MkIoApic 0xFEC00000 0] ∧ irq_to_gsi a 0 = Ok 2 ∧ irq_to_gsi a 1 = Ok 1.
Proof.
  destruct (acpi_init_records_madt 8 sample_info sample_memory 0x1000 8 sample_ptrs 0x2000 sample_mid 0xFEE00000 1 sample_entries)
    as (a & E & L & I & G & _).
  - exact sample_firmware.
  - vm_compute. reflexivity.
  - split; [|split_and!; vm_compute; reflexivity]. apply (bytes_at_store _ 0x2000 sample_madt).
  - split; vm_compute; congruence.
  - repeat constructor; vm_compute; congruence.
  - exists a. split; [exact E|]. split; [exact L|]. split; [exact I|].
    split; [exact (G 0 ltac:(lia))|exact (G 1 ltac:(lia))].
Defined.
