(* ===== verification/Hardware.v ===== *)
(** * The machine the kernel drives

    What the device code reaches outside memory: memory-mapped registers, I/O ports
    and model-specific registers.  The devices themselves are not part of the
    program: [D] is their state, the operations are those of the CPU, and what a
    device is documented to do is a class of laws next to the code that relies on
    it. *)

From S2P Require Import Prelude.

(** A width is a number of bytes.  A read can change the device. *)
Class Hardware (D : Type) := {
  mmio_read : Z → Z → D → D * Z;
  mmio_write : Z → Z → Z → D → D;
  port_in : Z → Z → D → D * Z;
  port_out : Z → Z → Z → D → D;
  read_msr : Z → D → Z;
  write_msr : Z → Z → D → D;
}.

Section port.
Context {D : Type} `{Hardware D}.

(** [port::outb] and the others ([lib/port.hpp]). *)
Definition outb (port val : Z) (d : D) : D := port_out 1 port (u8 val) d.
Definition outl (port val : Z) (d : D) : D := port_out 4 port (u32 val) d.
Definition inl (port : Z) (d : D) : D * Z := port_in 4 port d.
Definition io_wait (d : D) : D := outb 0x80 0 d.

(** [cpu::rdmsr], [cpu::wrmsr]: the CPU moves the two halves. *)
Definition rdmsr (msr : Z) (d : D) : Z := read_msr msr d.
Definition wrmsr (msr value : Z) (d : D) : D := write_msr msr value d.

End port.
