(* ===== verification/Apic.v ===== *)
(** * The interrupt controllers ([cpu/apic.cpp], [cpu/pic.cpp])

    The local APIC and the I/O APIC are reached through memory-mapped registers;
    the registers of the I/O APIC are indirect, an index and a window.  The old PICs
    are masked through their ports. *)

From S2P Require Import Prelude Mem Frames Vmm Hardware Acpi.

Definition IRQ_BASE : Z := 0x20.

Definition IA32_APIC_BASE_MSR : Z := 0x1B.
Definition LAPIC_REG_ID : Z := 0x020.
Definition LAPIC_REG_TPR : Z := 0x080.
Definition LAPIC_REG_EOI : Z := 0x0B0.
Definition LAPIC_REG_SVR : Z := 0x0F0.
Definition LAPIC_REG_TIMER_LVT : Z := 0x320.
Definition LAPIC_REG_TIMER_INIT : Z := 0x380.
Definition LAPIC_REG_TIMER_DIV : Z := 0x3E0.
Definition IOAPIC_REGSEL : Z := 0x00.
Definition IOAPIC_REGWIN : Z := 0x10.
Definition IOAPIC_REG_VER : Z := 0x01.
Definition IOAPIC_REDTBL : Z := 0x10.

(** [vmm::PWT], [vmm::PCD]. *)
Definition PWT : Z := Z.shiftl 1 3.
Definition PCD : Z := Z.shiftl 1 4.
Definition MMIO_FLAGS : Z := Z.lor (Z.lor KERNEL_RW PWT) PCD.

Record Apic := MkApic {
  lapic_virt : Z;
  ioapic_virt : Z;
  ioapic_gsi_base : Z;
  ioapic_max_entry : Z;
}.

(** Static storage before the initialisations. *)
Definition apic_zero : Apic := MkApic 0 0 0 0.

Definition with_lapic_virt (v : Z) (p : Apic) : Apic := MkApic v (ioapic_virt p) (ioapic_gsi_base p) (ioapic_max_entry p).
Definition with_ioapic (v base max : Z) (p : Apic) : Apic := MkApic (lapic_virt p) v base max.

(** The redirection register of a legacy IRQ, or -1. *)
Definition redir_reg_for_irq (a : Acpi) (p : Apic) (irq : Z) : Res Z :=
  gsi ← irq_to_gsi a irq;
  if (gsi <? ioapic_gsi_base p) || (ioapic_max_entry p <? u32 (gsi - ioapic_gsi_base p)) then Ok (-1)
  else Ok (u32 (IOAPIC_REDTBL + u32 (u32 (gsi - ioapic_gsi_base p) * 2))).

Section apic.
Context {A D : Type} `{FrameAlloc A, Hardware D}.

Definition lapic_read (p : Apic) (reg : Z) (d : D) : D * Z := mmio_read 4 (lapic_virt p + reg) d.
Definition lapic_write (p : Apic) (reg value : Z) (d : D) : D := mmio_write 4 (lapic_virt p + reg) value d.

Definition ioapic_read (p : Apic) (reg : Z) (d : D) : D * Z :=
  mmio_read 4 (ioapic_virt p + IOAPIC_REGWIN) (mmio_write 4 (ioapic_virt p + IOAPIC_REGSEL) reg d).
Definition ioapic_write (p : Apic) (reg value : Z) (d : D) : D :=
  mmio_write 4 (ioapic_virt p + IOAPIC_REGWIN) value (mmio_write 4 (ioapic_virt p + IOAPIC_REGSEL) reg d).

Definition map_mmio (addr : Z) (s : Vmm A) : Res (Vmm A) := Vmm.map addr addr MMIO_FLAGS s.

Definition init_lapic (a : Acpi) (p : Apic) (d : D) (s : Vmm A) : Res (Apic * D * Vmm A) :=
  let phys := lapic_addr_ a in
  s ← map_mmio phys s;
  let p := with_lapic_virt phys p in
  let base := rdmsr IA32_APIC_BASE_MSR d in
  let base := band_not base 0xFFF in
  let base := Z.lor base phys in
  let base := Z.lor base (Z.shiftl 1 11) in
  let d := wrmsr IA32_APIC_BASE_MSR base d in
  let d := lapic_write p LAPIC_REG_TPR 0 d in
  let d := lapic_write p LAPIC_REG_SVR (Z.lor 0x2F (Z.shiftl 1 8)) d in
  Ok (p, d, s).

Definition eoi (p : Apic) (d : D) : D := lapic_write p LAPIC_REG_EOI 0 d.

(** [for (u8 irq = 0; irq < 16; ++irq)]. *)
Fixpoint redir_loop (n : nat) (irq : Z) (a : Acpi) (p : Apic) (dest_apic_id : Z) (d : D) : Res D :=
  match n with
  | O => Ok d
  | S n =>
      if irq =? 2 then redir_loop n (irq + 1) a p dest_apic_id d else
      reg ← redir_reg_for_irq a p irq;
      if reg <? 0 then redir_loop n (irq + 1) a p dest_apic_id d else
      let low := Z.lor (IRQ_BASE + irq) (Z.shiftl 1 16) in
      let high := u32 (Z.shiftl dest_apic_id 24) in
      redir_loop n (irq + 1) a p dest_apic_id (ioapic_write p (reg + 1) high (ioapic_write p reg low d))
  end.

Definition init_ioapic (a : Acpi) (p : Apic) (d : D) (s : Vmm A) : Res (Apic * D * Vmm A) :=
  if ioapic_count_ a =? 0 then Ok (p, d, s) else
  io ← or_fault (zget (ioapics_ a) 0);
  s ← map_mmio (address io) s;
  let p := with_ioapic (address io) (gsi_base io) (ioapic_max_entry p) p in
  let '(d, ver) := ioapic_read p IOAPIC_REG_VER d in
  let p := with_ioapic (address io) (gsi_base io) (Z.land (Z.shiftr ver 16) 0xFF) p in
  let '(d, id) := lapic_read p LAPIC_REG_ID d in
  let dest_apic_id := u8 (Z.shiftr id 24) in
  d ← redir_loop 16 0 a p dest_apic_id d;
  Ok (p, d, s).

Definition start_test_timer (p : Apic) (vector count : Z) (d : D) : D :=
  let d := lapic_write p LAPIC_REG_TIMER_DIV 0x3 d in
  let d := lapic_write p LAPIC_REG_TIMER_LVT vector d in
  lapic_write p LAPIC_REG_TIMER_INIT count d.

Definition set_irq_mask (a : Acpi) (p : Apic) (irq : Z) (masked : bool) (d : D) : Res D :=
  if ioapic_virt p =? 0 then Ok d else
  reg ← redir_reg_for_irq a p irq;
  if reg <? 0 then Ok d else
  let '(d, low) := ioapic_read p reg d in
  let low := if masked then Z.lor low (Z.shiftl 1 16) else band_not low (Z.shiftl 1 16) in
  Ok (ioapic_write p reg low d).

(** ** The PICs *)

Definition PIC1_CMD : Z := 0x20.
Definition PIC1_DATA : Z := 0x21.
Definition PIC2_CMD : Z := 0xA0.
Definition PIC2_DATA : Z := 0xA1.

Definition outb_wait (port val : Z) (d : D) : D := io_wait (outb port val d).

(** [pic::disable]. *)
Definition pic_disable (d : D) : D :=
  let d := outb_wait PIC2_CMD 0x11 (outb_wait PIC1_CMD 0x11 d) in
  let d := outb_wait PIC2_DATA 0x28 (outb_wait PIC1_DATA 0x20 d) in
  let d := outb_wait PIC2_DATA 0x02 (outb_wait PIC1_DATA 0x04 d) in
  let d := outb_wait PIC2_DATA 0x01 (outb_wait PIC1_DATA 0x01 d) in
  outb PIC2_DATA 0xFF (outb PIC1_DATA 0xFF d).

End apic.
