(* ===== verification/ApicSpec.v ===== *)
(** * Interrupt lines reach their vectors

    What the I/O APIC is documented to do with its indirect registers, as a class,
    and what the kernel's programming of it gives: every legacy line delivers its
    own vector to the boot processor, masked until it is unmasked. *)

From S2P Require Import Prelude Mem Frames Pmm Vmm PageTable Hardware Acpi AcpiSpec Apic.

(** The bits of a redirection register that software sets: vector, delivery and
    destination mode, polarity, trigger and mask in the low half, the destination in
    the high half.  The others are read-only status or reserved. *)
Definition config_bit (reg i : Z) : Prop :=
  if Z.even reg then 0 ≤ i ≤ 11 ∨ i = 13 ∨ i = 15 ∨ i = 16 else 24 ≤ i < 32.

(** An I/O APIC whose registers are at [base]; [io_last] is its last redirection entry. *)
Class IoApicDev (D : Type) `{Hardware D} (base : Z) := { io_bit : D → Z → Z → bool; io_last : Z }.

Class IoApicLaws (D : Type) (base : Z) `{IoApicDev D base} := {
  law_write d r v q i : IOAPIC_REDTBL ≤ q → config_bit q i →
    io_bit (mmio_write 4 (base + IOAPIC_REGWIN) v (mmio_write 4 (base + IOAPIC_REGSEL) r d)) q i =
      if decide (q = r) then Z.testbit v i else io_bit d q i;
  law_read d r :
    let '(d', v) := mmio_read 4 (base + IOAPIC_REGWIN) (mmio_write 4 (base + IOAPIC_REGSEL) r d) in
    (∀ i, IOAPIC_REDTBL ≤ r → config_bit r i → Z.testbit v i = io_bit d r i) ∧
    ∀ q i, IOAPIC_REDTBL ≤ q → config_bit q i → io_bit d' q i = io_bit d q i;
  (** The version register tells the last entry in bits 16 to 23. *)
  law_version d :
    let '(_, v) := mmio_read 4 (base + IOAPIC_REGWIN) (mmio_write 4 (base + IOAPIC_REGSEL) 1 d) in
    (v / 2 ^ 16) `mod` 2 ^ 8 = io_last;
  (** Registers elsewhere are another device's. *)
  law_other d a q i : a ≠ base + IOAPIC_REGSEL → a ≠ base + IOAPIC_REGWIN → IOAPIC_REDTBL ≤ q → config_bit q i →
    io_bit (mmio_read 4 a d).1 q i = io_bit d q i;
}.

Section spec.
Context {A D : Type} `{FrameAllocLaws A} `{Hardware D} (base : Z) `{!IoApicDev D base} `{!IoApicLaws D base}.

(** The redirection entry at [reg] sends [vector] to the processor [dest], fixed
    delivery, edge-triggered, active high. *)
Definition routes (d : D) (reg vector dest : Z) (masked : bool) : Prop :=
  (∀ i, config_bit reg i → io_bit d reg i = Z.testbit (Z.lor vector (if masked then Z.shiftl 1 16 else 0)) i) ∧
  ∀ i, config_bit (reg + 1) i → io_bit d (reg + 1) i = Z.testbit (Z.shiftl dest 24) i.

(** The line's entry in this I/O APIC's table. *)
Definition line_reg (a : Acpi) (p : Apic) (irq reg : Z) : Prop :=
  redir_reg_for_irq a p irq = Ok reg ∧ 0 ≤ reg.

(** No two lines the kernel programs share an entry. *)
Definition lines_distinct (a : Acpi) (p : Apic) : Prop :=
  ∀ i j reg, 0 ≤ i < 16 → 0 ≤ j < 16 → i ≠ 2 → j ≠ 2 → line_reg a p i reg → line_reg a p j reg → i = j.

Definition apic_ok (p : Apic) : Prop := ioapic_virt p = base ∧ 0 ≤ ioapic_gsi_base p < 2 ^ 32 ∧ 0 ≤ ioapic_max_entry p ≤ 255.

Lemma redir_reg_cases a p irq :
  acpi_ok a → apic_ok p → 0 ≤ irq < 16 →
  ∃ gsi, irq_to_gsi a irq = Ok gsi ∧
    (redir_reg_for_irq a p irq = Ok (-1) ∨
     ∃ n, redir_reg_for_irq a p irq = Ok (IOAPIC_REDTBL + 2 * n) ∧ 0 ≤ n ≤ ioapic_max_entry p).
Proof.
  intros Ha (_ & _ & Hm) Hi. unfold redir_reg_for_irq, irq_to_gsi. rewrite (proj2 (Z.ltb_lt _ _)) by lia.
  destruct (zget_is_Some (irq_to_gsi_ a) irq) as [gsi ->]; [rewrite (ao_gsi _ Ha); lia|]. exists gsi. res_step. split; [done|].
  destruct (_ || _) eqn:E; [by left|right]. bool_arith. exists (u32 (gsi - ioapic_gsi_base p)).
  pose proof (u32_range (gsi - ioapic_gsi_base p)) as Hu. unfold is_u32 in Hu. split; [|lia]. f_equal. unfold IOAPIC_REDTBL.
  rewrite (u32_small (u32 _ * 2)) by (unfold is_u32; lia). rewrite u32_small by (unfold is_u32; lia). lia.
Qed.

(** A line wired to an input in the range of the I/O APIC has its entry there. *)
Lemma line_in_range a p i g :
  apic_ok p → 0 ≤ i < 16 → zget (irq_to_gsi_ a) i = Some g → ioapic_gsi_base p ≤ g ≤ ioapic_gsi_base p + ioapic_max_entry p →
  line_reg a p i (0x10 + 2 * (g - ioapic_gsi_base p)).
Proof using Type.
  intros (_ & Hb & Hm) Hi Hg Hr. split; [|lia]. unfold redir_reg_for_irq, irq_to_gsi. rewrite (proj2 (Z.ltb_lt _ _)) by lia.
  rewrite Hg. res_step. rewrite (u32_small (g - _)) by (unfold is_u32; lia).
  rewrite (proj2 (Z.ltb_ge _ _)), (proj2 (Z.ltb_ge _ _)) by lia. cbn [orb]. f_equal. unfold IOAPIC_REDTBL.
  rewrite (u32_small (_ * 2)) by (unfold is_u32; lia). rewrite u32_small by (unfold is_u32; lia). lia.
Qed.

Lemma line_reg_even a p irq reg : acpi_ok a → apic_ok p → 0 ≤ irq < 16 → line_reg a p irq reg →
  IOAPIC_REDTBL ≤ reg ∧ Z.even reg = true ∧ Z.even (reg + 1) = false.
Proof.
  intros Ha Hp Hi [Hr Hz0]. destruct (redir_reg_cases a p irq Ha Hp Hi) as (gsi & _ & [E|(n & E & Hn)]); rewrite Hr in E; injection E as ->; [lia|].
  unfold IOAPIC_REDTBL. split; [lia|]. rewrite !Z.even_add, !Z.even_mul. done.
Qed.

(** Two writes of one entry. *)
Lemma write_entry a p irq reg d low high :
  acpi_ok a → apic_ok p → 0 ≤ irq < 16 → line_reg a p irq reg →
  let d' := ioapic_write p (reg + 1) high (ioapic_write p reg low d) in
  (∀ i, config_bit reg i → io_bit d' reg i = Z.testbit low i) ∧
  (∀ i, config_bit (reg + 1) i → io_bit d' (reg + 1) i = Z.testbit high i) ∧
  ∀ q i, IOAPIC_REDTBL ≤ q → q ≠ reg → q ≠ reg + 1 → config_bit q i → io_bit d' q i = io_bit d q i.
Proof using IoApicLaws0.
  intros Ha Hp Hi Hl d'. destruct (line_reg_even _ _ _ _ Ha Hp Hi Hl) as (Hr & _ & _). destruct Hp as [Hv _].
  unfold d', ioapic_write. rewrite Hv. split_and!; intros; rewrite !law_write by (done || lia); repeat case_decide; try lia; done.
Qed.

Lemma routes_frame d d' reg vector dest masked :
  (∀ q i, (q = reg ∨ q = reg + 1) → config_bit q i → io_bit d' q i = io_bit d q i) →
  routes d reg vector dest masked → routes d' reg vector dest masked.
Proof. intros Hf [R1 R2]. split; intros i Hi; rewrite Hf by auto; auto. Qed.

(** Entries of different lines do not overlap. *)
Lemma lines_apart a p i j r q : acpi_ok a → apic_ok p → 0 ≤ i < 16 → 0 ≤ j < 16 →
  line_reg a p i r → line_reg a p j q → r ≠ q → r ≠ q + 1 ∧ r + 1 ≠ q ∧ r + 1 ≠ q + 1.
Proof.
  intros Ha Hp Hi Hj Hr Hq Hne. destruct (line_reg_even _ _ _ _ Ha Hp Hi Hr) as (_ & E1 & E2), (line_reg_even _ _ _ _ Ha Hp Hj Hq) as (_ & E3 & E4).
  split_and!; [intros ->; congruence|intros <-; congruence|lia].
Qed.

Lemma redir_loop_spec a p dest n irq d :
  acpi_ok a → apic_ok p → lines_distinct a p → 0 ≤ dest < 256 → 0 ≤ irq → irq + Z.of_nat n = 16 →
  ∃ d', redir_loop n irq a p dest d = Ok d' ∧
    (∀ i reg, irq ≤ i < 16 → i ≠ 2 → line_reg a p i reg → routes d' reg (IRQ_BASE + i) dest true) ∧
    ∀ i reg m, 0 ≤ i < irq → i ≠ 2 → line_reg a p i reg → routes d reg (IRQ_BASE + i) dest m → routes d' reg (IRQ_BASE + i) dest m.
Proof using IoApicLaws0.
  intros Ha Hp Hd Hdest. revert irq d. induction n as [|n IH]; intros irq d Hz0 Hn; cbn [redir_loop].
  { exists d. split; [done|]. split; [intros; lia|done]. }
  assert (irq < 16) as H16 by lia.
  destruct (Z.eqb_spec irq 2) as [->|Hne].
  { destruct (IH 3 d) as (d' & E & R1 & R2); [lia..|]. exists d'. split; [exact E|]. split; [intros; apply R1; try done; lia|intros; apply R2; try done; lia]. }
  destruct (redir_reg_cases a p irq Ha Hp) as (gsi & _ & [E|(k & E & Hk)]); [lia| |]; rewrite E; res_step.
  - destruct (IH (irq + 1) d) as (d' & E' & R1 & R2); [lia..|]. exists d'. split; [exact E'|]. split.
    + intros i reg Hi Hi2 [Hl Hl0]. apply R1; [|done|by split]. destruct (decide (i = irq)) as [->|]; [rewrite E in Hl; simplify_eq; lia|lia].
    + intros. apply R2; try done; lia.
  - set (reg := IOAPIC_REDTBL + 2 * k) in *. assert (line_reg a p irq reg) as Hl by (split; [done|unfold reg, IOAPIC_REDTBL; lia]).
    rewrite (proj2 (Z.ltb_ge _ _)) by apply Hl.
    destruct (write_entry a p irq reg d (Z.lor (IRQ_BASE + irq) (Z.shiftl 1 16)) (u32 (Z.shiftl dest 24)) Ha Hp ltac:(lia) Hl) as (W1 & W2 & W3).
    rewrite (u32_small (Z.shiftl dest 24)) in W1, W2, W3 |- * by (unfold is_u32; rewrite Z.shiftl_mul_pow2; lia).
    match goal with |- context [redir_loop n (irq + 1) a p dest ?x] => set (d1 := x) in * end.
    destruct (IH (irq + 1) d1) as (d' & E' & R1 & R2); [lia..|]. exists d'. split; [exact E'|]. split.
    + intros i r Hi Hi2 Hli. destruct (decide (i = irq)) as [->|]; [|apply R1; try done; lia].
      assert (r = reg) as -> by (destruct Hli as [Hli _]; rewrite E in Hli; by simplify_eq).
      apply R2; [lia|done|done|]. by split.
    + intros i r m Hi Hi2 Hli Hr. apply R2; [lia|done|done|]. eapply routes_frame; [|exact Hr].
      intros q j Hq Hc. assert (r ≠ reg) as Hrr by (intros ->; specialize (Hd i irq reg); lia || (assert (i = irq) by (apply Hd; try done; lia); lia)).
      destruct (lines_apart a p i irq r reg Ha Hp ltac:(lia) ltac:(lia) Hli Hl Hrr) as (? & ? & ?).
      destruct (line_reg_even a p i r Ha Hp ltac:(lia) Hli) as [? _]. apply W3; [lia..|done].
Qed.

Lemma mask_bits low m i :
  i ≠ 16 → 0 ≤ i → Z.testbit (if m : bool then Z.lor low (Z.shiftl 1 16) else band_not low (Z.shiftl 1 16)) i = Z.testbit low i.
Proof.
  intros Hi Hz. assert (Z.testbit (Z.shiftl 1 16) i = false) as Hb.
  { rewrite Z.shiftl_mul_pow2, Z.mul_1_l by lia. rewrite Z.pow2_bits_false; [done|lia]. }
  destruct m; [rewrite Z.lor_spec, Hb; apply orb_false_r|]. unfold band_not. rewrite Z.ldiff_spec, Hb. apply andb_true_r.
Qed.

Lemma mask_bit_16 low m : Z.testbit (if m : bool then Z.lor low (Z.shiftl 1 16) else band_not low (Z.shiftl 1 16)) 16 = m.
Proof. destruct m; [rewrite Z.lor_spec; apply orb_true_r|]. unfold band_not. rewrite Z.ldiff_spec. apply andb_false_r. Qed.

Lemma vector_bits v (m : bool) i : 0 ≤ v < 256 → 0 ≤ i →
  Z.testbit (Z.lor v (if m then Z.shiftl 1 16 else 0)) i = if decide (i = 16) then m else Z.testbit v i.
Proof.
  intros Hv Hi. rewrite Z.lor_spec. case_decide as Hd.
  - subst. rewrite (testbit_high v 8) by lia. by destruct m.
  - destruct m; [|rewrite Z.bits_0; apply orb_false_r]. rewrite Z.shiftl_mul_pow2, Z.mul_1_l, Z.pow2_bits_false by lia. apply orb_false_r.
Qed.

Lemma config_low reg i : Z.even reg = true → config_bit reg i → 0 ≤ i.
Proof. unfold config_bit. intros ->. lia. Qed.

(** Masking or unmasking one line. *)
Lemma set_irq_mask_spec a p irq masked d dest :
  acpi_ok a → apic_ok p → lines_distinct a p → base ≠ 0 → 0 ≤ irq < 16 → irq ≠ 2 →
  ∃ d', set_irq_mask a p irq masked d = Ok d' ∧
    (∀ reg m, line_reg a p irq reg → routes d reg (IRQ_BASE + irq) dest m → routes d' reg (IRQ_BASE + irq) dest masked) ∧
    ∀ i reg m, 0 ≤ i < 16 → i ≠ 2 → i ≠ irq → line_reg a p i reg → routes d reg (IRQ_BASE + i) dest m → routes d' reg (IRQ_BASE + i) dest m.
Proof using IoApicLaws0.
  intros Ha Hp Hd Hb Hi Hi2. unfold set_irq_mask. pose proof (proj1 Hp) as Hv. rewrite Hv, (proj2 (Z.eqb_neq base 0) Hb).
  destruct (redir_reg_cases a p irq Ha Hp Hi) as (gsi & _ & [E|(k & E & Hk)]); rewrite E; res_step.
  { exists d. split; [done|]. split; [|done]. intros reg m [Hl ?]. rewrite E in Hl. injection Hl as <-. lia. }
  set (reg := IOAPIC_REDTBL + 2 * k) in *. assert (line_reg a p irq reg) as Hl by (split; [done|unfold reg, IOAPIC_REDTBL; lia]).
  rewrite (proj2 (Z.ltb_ge _ _)) by apply Hl. unfold ioapic_read, ioapic_write. rewrite Hv.
  pose proof (law_read d reg) as Hrd. destruct (mmio_read 4 _ _) as [d1 low]. destruct Hrd as [Rv Rk].
  destruct (line_reg_even a p irq reg Ha Hp Hi Hl) as (Hreg & Ev & Ev1).
  eexists. split; [done|]. split.
  - intros r m Hlr [R1 R2]. assert (r = reg) as -> by (destruct Hlr as [Hlr _]; rewrite E in Hlr; by simplify_eq).
    split; intros i Hc; rewrite law_write by (done || lia).
    + rewrite decide_True by done. assert (0 ≤ i) as Hi0 by by eapply config_low. rewrite vector_bits by (unfold IRQ_BASE; lia).
      case_decide as H16; [subst; apply mask_bit_16|]. rewrite mask_bits, Rv, R1, vector_bits by (done || unfold IRQ_BASE; lia).
      by rewrite decide_False.
    + rewrite decide_False, Rk by (done || lia). by apply R2.
  - intros i r m Hir Hi2' Hne Hli Hr. eapply routes_frame; [|exact Hr]. intros q j Hq Hc.
    assert (r ≠ reg) as Hrr by (intros ->; apply Hne, (Hd i irq reg); done).
    destruct (lines_apart a p i irq r reg Ha Hp Hir Hi Hli Hl Hrr) as (? & ? & ?).
    destruct (line_reg_even a p i r Ha Hp Hir Hli) as [? _].
    rewrite law_write by (done || lia). rewrite decide_False by lia. apply Rk; [lia|done].
Qed.

(** [set_irq_mask] calls, in order. *)
Fixpoint set_masks (ms : list (Z * bool)) (a : Acpi) (p : Apic) (d : D) : Res D :=
  match ms with
  | [] => Ok d
  | (irq, masked) :: ms => d ← set_irq_mask a p irq masked d; set_masks ms a p d
  end.

(** The mask a line ends up with: that of its last call. *)
Definition last_mask (irq : Z) (ms : list (Z * bool)) : bool :=
  foldl (λ m '(i, masked), if decide (i = irq) then masked else m) true ms.

Lemma set_masks_spec a p dest ms d f :
  acpi_ok a → apic_ok p → lines_distinct a p → base ≠ 0 → Forall (λ '(irq, _), 0 ≤ irq < 16 ∧ irq ≠ 2) ms →
  (∀ i reg, 0 ≤ i < 16 → i ≠ 2 → line_reg a p i reg → routes d reg (IRQ_BASE + i) dest (f i)) →
  ∃ d', set_masks ms a p d = Ok d' ∧
    ∀ i reg, 0 ≤ i < 16 → i ≠ 2 → line_reg a p i reg →
      routes d' reg (IRQ_BASE + i) dest (foldl (λ m '(j, masked), if decide (j = i) then masked else m) (f i) ms).
Proof using IoApicLaws0.
  intros Ha Hp Hd Hb Hms. revert d f. induction Hms as [|[irq masked] ms [Hi Hi2] Hms IH]; intros d f Hf; cbn [set_masks].
  { by exists d. }
  destruct (set_irq_mask_spec a p irq masked d dest Ha Hp Hd Hb Hi Hi2) as (d1 & -> & S1 & S2). res_step.
  destruct (IH d1 (λ i, if decide (irq = i) then masked else f i)) as (d' & E & R).
  - intros i reg Hir Hi2' Hl. cbv beta. case_decide as He; [subst i; eapply S1; [exact Hl|by apply Hf]|]. apply S2; try done; by apply Hf.
  - exists d'. split; [done|]. intros i reg Hir Hi2' Hl. apply (R i reg Hir Hi2' Hl).
Qed.

End spec.
