(* ===== verification/Idt.v ===== *)
(** * Interrupt gates and dispatch ([cpu/idt.cpp], [cpu/irq.cpp], [cpu/tss.cpp])

    The interrupt descriptor table, the task state segment's descriptor, and the
    dispatch of hardware interrupts to their handlers.  The stub addresses come from
    the assembly files and are parameters. *)

From S2P Require Import Prelude.
From S2P Require Import Apic.

(** ** The IDT *)

Record GateDescriptor := MkGate {
  offset_low : Z;
  selector : Z;
  ist : Z;
  type_attr : Z;
  offset_mid : Z;
  offset_high : Z;
  reserved : Z;
}.

Definition IDT_ENTRIES : Z := 256.
Definition INTERRUPT_GATE : Z := 0x8E.
Definition KERNEL_CODE_SELECTOR : Z := 0x08.

Definition zero_gate : GateDescriptor := MkGate 0 0 0 0 0 0 0.
Definition idt_zero : list GateDescriptor := replicate (Z.to_nat IDT_ENTRIES) zero_gate.

Definition make_gate (handler i : Z) : GateDescriptor :=
  MkGate (Z.land handler 0xFFFF) KERNEL_CODE_SELECTOR i INTERRUPT_GATE
    (Z.land (Z.shiftr handler 16) 0xFFFF) (Z.land (Z.shiftr handler 32) 0xFFFFFFFF) 0.

Definition set_gate (vector handler i : Z) (t : list GateDescriptor) : Res (list GateDescriptor) :=
  or_fault (zset t vector (make_gate handler i)).

(** [for (i = 0; i < n; ++i) set_gate(first + i, stubs\[i\])]. *)
Fixpoint gates_loop (n : nat) (i first : Z) (stubs : list Z) (t : list GateDescriptor) : Res (list GateDescriptor) :=
  match n with
  | O => Ok t
  | S n =>
      h ← or_fault (zget stubs i);
      t ← set_gate (first + i) h 0 t;
      gates_loop n (i + 1) first stubs t
  end.

(** [idt::init]. *)
Definition idt_init (isr_stub_table : list Z) (t : list GateDescriptor) : Res (list GateDescriptor) :=
  t ← gates_loop 32 0 0 isr_stub_table t;
  h ← or_fault (zget isr_stub_table 8);
  set_gate 8 h 1 t.

(** [irq::init]. *)
Definition irq_init (irq_stub_table : list Z) (t : list GateDescriptor) : Res (list GateDescriptor) :=
  gates_loop 16 0 IRQ_BASE irq_stub_table t.

(** The packed layout. *)
Definition gate_bytes (g : GateDescriptor) : list Z :=
  le_bytes 2 (offset_low g) ++ le_bytes 2 (selector g) ++ le_bytes 1 (ist g) ++ le_bytes 1 (type_attr g) ++
  le_bytes 2 (offset_mid g) ++ le_bytes 4 (offset_high g) ++ le_bytes 4 (reserved g).

(** ** The TSS descriptor *)

(** The two quadwords [write_tss_descriptor] stores. *)
Definition tss_low (base limit : Z) : Z :=
  let low := Z.land limit 0xFFFF in
  let low := Z.lor low (u64 (Z.shiftl (Z.land base 0xFFFFFF) 16)) in
  let low := Z.lor low (u64 (Z.shiftl 0x89 40)) in
  let low := Z.lor low (u64 (Z.shiftl (Z.land (Z.shiftr limit 16) 0xF) 48)) in
  Z.lor low (u64 (Z.shiftl (Z.land (Z.shiftr base 24) 0xFF) 56)).

Definition tss_high (base : Z) : Z := Z.land (Z.shiftr base 32) 0xFFFFFFFF.

Definition write_tss_descriptor (base limit : Z) : Z * Z := (tss_low base limit, tss_high base).

Definition SIZEOF_TSS : Z := 104.

Record TSS64 := MkTss { tss_rsp : list Z; tss_ist : list Z; iopb : Z }.

Definition tss_zero : TSS64 := MkTss (replicate 3 0) (replicate 7 0) 0.

(** The TSS and the descriptor in the GDT; [tss_addr] and [df_top] are the addresses of
    [tss_] and of the end of [df_stack]. *)
Definition tss_init (tss_addr df_top : Z) (t : TSS64) : Res (TSS64 * (Z * Z)) :=
  ists ← or_fault (zset (tss_ist t) 0 df_top);
  let slot := write_tss_descriptor tss_addr (SIZEOF_TSS - 1) in
  rsps ← or_fault (zset (tss_rsp t) 0 df_top);
  rsps ← or_fault (zset rsps 1 0);
  rsps ← or_fault (zset rsps 2 0);
  Ok (MkTss rsps ists SIZEOF_TSS, slot).

Definition set_kernel_stack (rsp0 : Z) (t : TSS64) : Res TSS64 :=
  rsps ← or_fault (zset (tss_rsp t) 0 rsp0);
  Ok (MkTss rsps (tss_ist t) (iopb t)).

(** ** Dispatch *)

(** The state [S] is the whole kernel's; [eoi] ends the interrupt at the local APIC. *)
Section dispatch.
Context {S : Type} (eoi : S → S).

(** A null handler is [None].  No handler looks at the interrupt frame. *)
Record Irq := MkIrq {
  handlers : list (option (S → Res S));
  post_eoi_hook : option (S → Res S);
}.

Definition irq_zero : Irq := MkIrq (replicate 16 None) None.

Definition register_handler (n : Z) (h : S → Res S) (q : Irq) : Res Irq :=
  if n <? 16 then l ← or_fault (zset (handlers q) n (Some h)); Ok (MkIrq l (post_eoi_hook q)) else Ok q.

Definition set_post_eoi_hook (hook : option (S → Res S)) (q : Irq) : Irq := MkIrq (handlers q) hook.

(** An interrupt with the vector of its frame; an unhandled one is only logged. *)
Definition irq_common_handler (q : Irq) (vector : Z) (s : S) : Res S :=
  let n := u8 (vector - IRQ_BASE) in
  s ← (if n <? 16 then
         h ← or_fault (zget (handlers q) n);
         match h with Some h => h s | None => Ok s end
       else Ok s);
  let s := eoi s in
  match post_eoi_hook q with Some hook => hook s | None => Ok s end.

End dispatch.

Arguments Irq S : clear implicits.
