(* ===== verification/IdtSpec.v ===== *)
(** * What the CPU makes of the interrupt tables

    Gates and the TSS descriptor decoded the way the processor manual lays them out,
    and the path of a hardware interrupt: from its line through the I/O APIC and the
    IDT to the handler registered for it. *)

From S2P Require Import Prelude Mem Frames Pmm Vmm PageTable UserPages ElfSpec UserStack Hardware Acpi AcpiSpec Apic ApicSpec Idt.

(** ** Gates *)

(** A present gate as the CPU reads it: handler, selector, IST index, privilege level
    and type. *)
Definition cpu_gate (bs : list Z) : option (Z * Z * Z * Z * Z) :=
  lo ← field bs 0 2; sel ← field bs 2 2; i ← field bs 4 1; ty ← field bs 5 1; mid ← field bs 6 2; hi ← field bs 8 4;
  if bit ty 7 then Some (lo + 2 ^ 16 * mid + 2 ^ 32 * hi, sel, i `mod` 8, (ty / 32) `mod` 4, ty `mod` 16) else None.

(** Reading a field of consecutive little-endian fields. *)
Lemma field_here n k v rest : k = Z.of_nat n → 0 ≤ v < 2 ^ (8 * k) → field (le_bytes n v ++ rest) 0 k = Some v.
Proof.
  intros -> Hv. unfold field, slice. rewrite zlen_app. unfold zlen at 1. rewrite le_bytes_length.
  destruct (Z.ltb_spec (Z.of_nat n) 0); [lia|]. destruct (Z.ltb_spec (Z.of_nat n + zlen rest) (0 + Z.of_nat n)); [unfold zlen in *; lia|].
  cbn. rewrite Nat2Z.id, drop_0, take_app_length' by by rewrite le_bytes_length. f_equal. rewrite le_val_bytes. by apply Z.mod_small.
Qed.

Lemma field_skip n w v rest off k : w = Z.of_nat n → w ≤ off → field (le_bytes n v ++ rest) off k = field rest (off - w) k.
Proof.
  intros -> Hn. unfold field, slice. rewrite zlen_app. unfold zlen at 1. rewrite le_bytes_length.
  replace (zlen rest <? off - Z.of_nat n + k) with (Z.of_nat n + zlen rest <? off + k) by (destruct (Z.ltb_spec (Z.of_nat n + zlen rest) (off + k)), (Z.ltb_spec (zlen rest) (off - Z.of_nat n + k)); lia).
  rewrite (proj2 (Z.ltb_ge off 0)), (proj2 (Z.ltb_ge (off - Z.of_nat n) 0)) by lia. cbn [orb].
  case_match; [done|]. cbn. do 3 f_equal. rewrite drop_app_ge by (rewrite le_bytes_length; lia). rewrite le_bytes_length. f_equal. lia.
Qed.

(** Read fields at literal offsets off a concatenation of little-endian fields. *)
Ltac read_fields :=
  repeat (first
    [ match goal with |- context [field _ ?o _] => let o' := eval vm_compute in o in progress change o with o' end
    | rewrite (field_here 1 1) by (reflexivity || lia) | rewrite (field_here 2 2) by (reflexivity || lia)
    | rewrite (field_here 4 4) by (reflexivity || lia)
    | rewrite (field_skip 1 1) by (reflexivity || lia) | rewrite (field_skip 2 2) by (reflexivity || lia)
    | rewrite (field_skip 4 4) by (reflexivity || lia) ]; cbn [mbind option_bind]).

Lemma low_bits x k n : 0 ≤ n → 0 ≤ k → 0 ≤ Z.land (Z.shiftr x k) (2 ^ n - 1) < 2 ^ n ∧ Z.land (Z.shiftr x k) (2 ^ n - 1) = (x / 2 ^ k) `mod` 2 ^ n.
Proof.
  intros Hn Hk. rewrite <-Z.sub_1_r, <-Z.ones_equiv || rewrite Z.sub_1_r, <-Z.ones_equiv. rewrite land_ones_mod, Z.shiftr_div_pow2 by lia.
  split; [apply Z.mod_pos_bound; lia|done].
Qed.

Lemma cpu_gate_make h i : is_u64 h → 0 ≤ i < 8 → cpu_gate (gate_bytes (make_gate h i)) = Some (h, KERNEL_CODE_SELECTOR, i, 0, 14).
Proof.
  intros Hh Hi. unfold is_u64 in Hh. unfold cpu_gate, gate_bytes, make_gate. cbn [offset_low selector ist type_attr offset_mid offset_high reserved]. unfold KERNEL_CODE_SELECTOR, INTERRUPT_GATE.
  destruct (low_bits h 0 16) as [B0 E0]; [lia..|]. rewrite Z.shiftr_0_r in B0, E0. change (2 ^ 16 - 1) with 0xFFFF in B0, E0.
  destruct (low_bits h 16 16) as [B1 E1]; [lia..|]. change (2 ^ 16 - 1) with 0xFFFF in B1, E1.
  destruct (low_bits h 32 32) as [B2 E2]; [lia..|]. change (2 ^ 32 - 1) with 0xFFFFFFFF in B2, E2.
  read_fields.
  change (bit 0x8E 7) with true. cbn match. rewrite E0, E1, E2. rewrite Z.pow_0_r, Z.div_1_r.
  change ((0x8E / 32) `mod` 4) with 0. change (0x8E `mod` 16) with 14. rewrite (Z.mod_small i) by lia.
  do 5 f_equal. Z.div_mod_to_equations. lia.
Qed.

Lemma cpu_gate_zero : cpu_gate (gate_bytes zero_gate) = None.
Proof. reflexivity. Qed.

Lemma gates_loop_spec n i first stubs t :
  0 ≤ i → 0 ≤ first → i + Z.of_nat n ≤ zlen stubs → first + i + Z.of_nat n ≤ zlen t →
  ∃ t', gates_loop n i first stubs t = Ok t' ∧ zlen t' = zlen t ∧
    ∀ v, zget t' v = if decide (first + i ≤ v < first + i + Z.of_nat n) then (λ h, make_gate h 0) <$> zget stubs (v - first) else zget t v.
Proof.
  revert i t. induction n as [|n IH]; intros i t Hi Hf Hs Ht; cbn [gates_loop].
  { exists t. split; [done|]. split; [done|]. intros v. by rewrite decide_False by lia. }
  destruct (zget_is_Some stubs i) as [h Hh]; [lia|]. rewrite Hh. res_step. unfold set_gate. rewrite zset_is by lia. res_step.
  destruct (IH (i + 1) (<[Z.to_nat (first + i):=make_gate h 0]> t)) as (t' & -> & Hl & Hv); [lia|lia|lia|rewrite zlen_insert; lia|].
  rewrite zlen_insert in Hl. exists t'. split; [done|]. split; [done|]. intros v. rewrite Hv, zget_insert by lia.
  destruct (decide (v = first + i)) as [->|Hne].
  - rewrite decide_False by lia. rewrite !decide_True by lia. replace (first + i - first) with i by lia. by rewrite Hh.
  - repeat case_decide; try lia; done.
Qed.

(** After [idt::init] and [irq::init] the CPU finds, for each of the 32 exceptions, the
    address of its stub, the double fault on its own stack; for the 16 hardware
    interrupts, the address of theirs; and no present gate elsewhere. *)
Theorem gates_reach_stubs isrs irqs :
  zlen isrs = 32 → zlen irqs = 16 → Forall is_u64 isrs → Forall is_u64 irqs →
  ∃ t, (t ← idt_init isrs idt_zero; irq_init irqs t) = Ok t ∧ zlen t = IDT_ENTRIES ∧
    ∀ v g, zget t v = Some g → cpu_gate (gate_bytes g) =
      if decide (v < 32) then (λ h, (h, KERNEL_CODE_SELECTOR, if decide (v = 8) then 1 else 0, 0, 14)) <$> zget isrs v
      else if decide (v < 48) then (λ h, (h, KERNEL_CODE_SELECTOR, 0, 0, 14)) <$> zget irqs (v - 32)
      else None.
Proof.
  intros L1 L2 W1 W2. unfold idt_init, irq_init, IRQ_BASE. assert (zlen idt_zero = 256) as Lz by done.
  destruct (gates_loop_spec 32 0 0 isrs idt_zero) as (t1 & -> & N1 & G1); [lia..|]. res_step.
  destruct (zget_is_Some isrs 8) as [h8 E8]; [lia|]. rewrite E8. res_step. unfold set_gate. rewrite zset_is by lia. res_step.
  destruct (gates_loop_spec 16 0 0x20 irqs (<[Z.to_nat 8:=make_gate h8 1]> t1)) as (t2 & -> & N2 & G2); [lia|lia|lia|rewrite zlen_insert; lia|].
  rewrite zlen_insert in N2. exists t2. split; [done|]. split; [unfold IDT_ENTRIES; lia|].
  assert (∀ l v h, Forall is_u64 l → zget l v = Some h → is_u64 h) as Hu.
  { intros l v h Hl Hv. apply zget_Some in Hv as [_ Hv]. by eapply (proj1 (Forall_lookup _ _) Hl). }
  intros v g Hg. apply zget_bounds in Hg as Hb. rewrite G2, zget_insert, G1 in Hg by lia.
  destruct (decide (v < 32)) as [Hlt|Hge].
  - rewrite (decide_False (P := 0x20 + 0 ≤ v < _)) in Hg by lia. destruct (decide (v = 8)) as [->|Hne].
    + rewrite E8. injection Hg as <-. cbn. apply cpu_gate_make; [exact (Hu _ _ _ W1 E8)|lia].
    + rewrite decide_True, Z.sub_0_r in Hg by lia. destruct (zget isrs v) as [h|] eqn:Eh; [|done]. injection Hg as <-. cbn.
      apply cpu_gate_make; [exact (Hu _ _ _ W1 Eh)|lia].
  - rewrite (decide_False (P := v = 8)), (decide_False (P := 0 + 0 ≤ v < _)) in Hg by lia. destruct (decide (v < 48)).
    + rewrite decide_True in Hg by lia. change (v - 0x20) with (v - 32) in Hg. destruct (zget irqs (v - 32)) as [h|] eqn:Eh; [|done].
      injection Hg as <-. cbn. apply cpu_gate_make; [exact (Hu _ _ _ W2 Eh)|lia].
    + rewrite decide_False in Hg by lia. assert (g = zero_gate) as ->; [|reflexivity].
      apply zget_Some in Hg as [_ Hg]. unfold idt_zero in Hg. by apply lookup_replicate in Hg as [? _].
Qed.

(** Stub addresses as an assembler lays them out. *)
Definition sample_stubs (base : Z) (n : nat) : list Z := (λ i, base + 16 * i) <$> seqZ 0 (Z.of_nat n).

Lemma gates_reach_stubs_witness :
  ∃ t, (t ← idt_init (sample_stubs 0x100000 32) idt_zero; irq_init (sample_stubs 0x100200 16) t) = Ok t ∧
    (∀ g, zget t 0x21 = Some g → cpu_gate (gate_bytes g) = Some (0x100210, 8, 0, 0, 14)) ∧
    (∀ g, zget t 8 = Some g → cpu_gate (gate_bytes g) = Some (0x100080, 8, 1, 0, 14)).
Proof.
  destruct (gates_reach_stubs (sample_stubs 0x100000 32) (sample_stubs 0x100200 16)) as (t & E & _ & G).
  - reflexivity.
  - reflexivity.
  - repeat (constructor; [split; vm_compute; congruence|]). constructor.
  - repeat (constructor; [split; vm_compute; congruence|]). constructor.
  - exists t. split; [exact E|]. split; intros g Hg; rewrite (G _ g Hg); vm_compute; reflexivity.
Defined.

(** ** The TSS descriptor *)

(** Base, limit, access byte and flags of a 64-bit system descriptor. *)
Definition cpu_system_descriptor (slot : Z * Z) : Z * Z * Z * Z :=
  let '(low, high) := slot in
  ((low / 2 ^ 16) `mod` 2 ^ 24 + 2 ^ 24 * (low / 2 ^ 56) + 2 ^ 32 * (high `mod` 2 ^ 32),
   low `mod` 2 ^ 16 + 2 ^ 16 * ((low / 2 ^ 48) `mod` 2 ^ 4), (low / 2 ^ 40) `mod` 2 ^ 8, (low / 2 ^ 52) `mod` 2 ^ 4).

Lemma lor_above lo x k : 0 ≤ k → 0 ≤ lo < 2 ^ k → Z.lor lo (Z.shiftl x k) = lo + 2 ^ k * x.
Proof.
  intros Hk Hlo. rewrite Z.shiftl_mul_pow2 by lia. rewrite (Z.mul_comm x), lor_add_disjoint; [done|].
  apply Z.bits_inj'. intros i Hi. rewrite Z.land_spec, Z.bits_0. destruct (Z.lt_ge_cases i k).
  - rewrite Z.mul_comm, Z.mul_pow2_bits_low by lia. apply andb_false_r.
  - rewrite (testbit_high lo k) by lia. done.
Qed.

Lemma tss_low_eq base limit : is_u64 base → 0 ≤ limit < 2 ^ 20 →
  tss_low base limit = limit `mod` 2 ^ 16 + 2 ^ 16 * (base `mod` 2 ^ 24) + 2 ^ 40 * 0x89 + 2 ^ 48 * (limit / 2 ^ 16) + 2 ^ 56 * ((base / 2 ^ 24) `mod` 2 ^ 8).
Proof.
  intros Hb Hl. unfold is_u64 in Hb. unfold tss_low.
  destruct (low_bits limit 0 16) as [_ A0], (low_bits base 0 24) as [_ A1], (low_bits limit 16 4) as [_ A2], (low_bits base 24 8) as [_ A3]; try lia.
  rewrite Z.shiftr_0_r, Z.pow_0_r, Z.div_1_r in A0, A1.
  change (2 ^ 16 - 1) with 0xFFFF in A0. change (2 ^ 24 - 1) with 0xFFFFFF in A1. change (2 ^ 4 - 1) with 0xF in A2. change (2 ^ 8 - 1) with 0xFF in A3.
  rewrite A0, A1, A2, A3. rewrite (Z.mod_small (limit / 2 ^ 16)) by (Z.div_mod_to_equations; lia).
  pose proof (Z.mod_pos_bound limit (2 ^ 16)). pose proof (Z.mod_pos_bound base (2 ^ 24)). pose proof (Z.mod_pos_bound (base / 2 ^ 24) (2 ^ 8)).
  assert (0 ≤ limit / 2 ^ 16 < 2 ^ 4) by (Z.div_mod_to_equations; lia).
  set (l := limit `mod` 2 ^ 16) in *. set (b := base `mod` 2 ^ 24) in *. set (h := limit / 2 ^ 16) in *. set (c := (base / 2 ^ 24) `mod` 2 ^ 8) in *.
  rewrite !u64_small by (unfold is_u64; rewrite Z.shiftl_mul_pow2 by lia; lia).
  rewrite (lor_above l) by lia. rewrite (lor_above (l + _)) by lia. rewrite (lor_above (_ + _ + 2 ^ 40 * _)) by lia. rewrite (lor_above (_ + _ + _ + 2 ^ 48 * _)) by lia. lia.
Qed.

(** The CPU reads back from the descriptor [tss::init] writes exactly the address and the
    size of the TSS, an available 64-bit TSS, present, at privilege level 0; and the
    double-fault stack is in its first interrupt stack slot. *)
Theorem tss_descriptor_roundtrip base df_top :
  is_u64 base →
  ∃ t slot, tss_init base df_top tss_zero = Ok (t, slot) ∧
    cpu_system_descriptor slot = (base, SIZEOF_TSS - 1, 0x89, 0) ∧ is_u64 slot.1 ∧ is_u64 slot.2 ∧
    zget (tss_ist t) 0 = Some df_top ∧ zget (tss_rsp t) 0 = Some df_top ∧ iopb t = SIZEOF_TSS ∧
    ∀ rsp0, ∃ t', set_kernel_stack rsp0 t = Ok t' ∧ zget (tss_rsp t') 0 = Some rsp0 ∧ tss_ist t' = tss_ist t.
Proof.
  intros Hb. unfold tss_init. cbn [or_fault zset tss_zero tss_ist tss_rsp]. do 2 eexists. split; [reflexivity|].
  unfold write_tss_descriptor, cpu_system_descriptor. rewrite tss_low_eq by (done || (unfold SIZEOF_TSS; lia)).
  unfold tss_high. destruct (low_bits base 32 32) as [_ A0]; [lia..|]. change (2 ^ 32 - 1) with 0xFFFFFFFF in A0. rewrite A0. unfold SIZEOF_TSS, is_u64 in *. cbn [fst snd].
  split_and!.
  - repeat match goal with |- (_, _) = (_, _) => f_equal end; Z.div_mod_to_equations; lia.
  - Z.div_mod_to_equations. lia.
  - Z.div_mod_to_equations. lia.
  - Z.div_mod_to_equations. lia.
  - Z.div_mod_to_equations. lia.
  - done.
  - done.
  - done.
  - intros rsp0. eexists. split; [reflexivity|]. done.
Qed.

Lemma tss_descriptor_roundtrip_witness :
  ∃ t slot, tss_init 0x10_5040 0x10_8000 tss_zero = Ok (t, slot) ∧ cpu_system_descriptor slot = (0x105040, 103, 0x89, 0).
Proof.
  destruct (tss_descriptor_roundtrip 0x10_5040 0x10_8000) as (t & slot & E & D & _); [split; vm_compute; congruence|].
  exists t, slot. split; [exact E|exact D].
Defined.

(** ** From the line to the handler *)

Section delivery.
Context {A D : Type} `{FrameAllocLaws A} `{Hardware D} (base : Z) `{!IoApicDev D base} `{!IoApicLaws D base}.

(** No two of the lines the kernel programs are wired to one input. *)
Definition gsis_distinct (a : Acpi) : Prop :=
  Forall is_u32 (irq_to_gsi_ a) ∧
  ∀ i j, 0 ≤ i < 16 → 0 ≤ j < 16 → i ≠ 2 → j ≠ 2 → irq_to_gsi a i = irq_to_gsi a j → i = j.

Lemma line_reg_gsi a p i reg :
  acpi_ok a → Forall is_u32 (irq_to_gsi_ a) → apic_ok base p → 0 ≤ i < 16 → line_reg a p i reg →
  irq_to_gsi a i = Ok (ioapic_gsi_base p + (reg - IOAPIC_REDTBL) / 2).
Proof.
  intros Ha Hu Hp Hi [Hr Hr0]. pose proof Hp as (_ & Hg & Hm). unfold redir_reg_for_irq, irq_to_gsi in *. rewrite (proj2 (Z.ltb_lt i 16)) in * by lia.
  destruct (zget_is_Some (irq_to_gsi_ a) i) as [gsi Eg]; [rewrite (ao_gsi _ Ha); lia|]. rewrite Eg in Hr |- *. cbn in Hr. cbn. f_equal.
  assert (is_u32 gsi) as Hgu. { apply zget_Some in Eg as [_ Eg]. by eapply (proj1 (Forall_lookup _ _) Hu). } unfold is_u32 in Hgu.
  destruct (_ || _) eqn:E; injection Hr as <-; [lia|]. bool_arith. unfold IOAPIC_REDTBL. rewrite (u32_small (gsi - _)) in * by (unfold is_u32; lia).
  rewrite (u32_small ((gsi - _) * 2)) by (unfold is_u32; lia). rewrite u32_small by (unfold is_u32; lia). Z.div_mod_to_equations. lia.
Qed.

Lemma lines_distinct_gsis a p : acpi_ok a → gsis_distinct a → apic_ok base p → lines_distinct a p.
Proof.
  intros Ha [Hu Hd] Hp i j reg Hi Hj Hi2 Hj2 L1 L2. apply Hd; try done.
  by rewrite (line_reg_gsi a p i reg Ha Hu Hp Hi L1), (line_reg_gsi a p j reg Ha Hu Hp Hj L2).
Qed.

Context (Q : Z → Prop) (HQ : ∀ va, 0 ≤ va < 2 ^ 47 → Q (pml4_idx va)).

Lemma init_ioapic_spec a p d (s : Vmm A) io :
  acpi_ok a → gsis_distinct a → 0 < ioapic_count_ a → zget (ioapics_ a) 0 = Some io → address io = base → is_u32 (gsi_base io) →
  tree_ok Q (get_pml4 s) s → 0 ≤ base < 2 ^ 47 → base `mod` PAGE_SIZE = 0 →
  ensures_frames 3 (fa s) (init_ioapic a p d s) (λ '(p', d', s'), (∀ o, 0 ≤ o < PAGE_SIZE → virt_to_phys (base + o) s' = base + o) ∧ apic_ok base p' ∧ lapic_virt p' = lapic_virt p ∧
    ioapic_gsi_base p' = gsi_base io ∧ ioapic_max_entry p' = io_last (base := base) ∧
    ∃ e, let dest := u8 (Z.shiftr (mmio_read 4 (lapic_virt p + 0x20) e).2 24) in
      0 ≤ dest < 256 ∧ ∀ i reg, 0 ≤ i < 16 → i ≠ 2 → line_reg a p' i reg → routes base d' reg (IRQ_BASE + i) dest true).
Proof using IoApicLaws0 HQ H0.
  intros Ha Hgd Hc Hio Hb Hg Ht Hb47 Hal. unfold init_ioapic. rewrite (proj2 (Z.eqb_neq (ioapic_count_ a) 0)) by lia. rewrite Hio. res_step.
  unfold map_mmio. rewrite Hb. eapply ensures_frames_bind; [by apply (map_identity Q HQ)|]. intros s1 [_ W].
  unfold ioapic_read. cbn [ioapic_virt with_ioapic]. pose proof (law_version (base := base) d) as Hver. change IOAPIC_REG_VER with 1.
  destruct (mmio_read 4 (base + IOAPIC_REGWIN) _) as [d1 ver].
  destruct (low_bits ver 16 8) as [B Eb]; [lia..|]. change (2 ^ 8 - 1) with 0xFF in B, Eb.
  set (p' := with_ioapic _ _ _ _). assert (apic_ok base p') as Hp' by (split; [done|]; split; [exact Hg|cbn; lia]).
  unfold lapic_read. change (lapic_virt p') with (lapic_virt p). change LAPIC_REG_ID with 0x20.
  destruct (mmio_read 4 (lapic_virt p + 0x20) d1) as [d2 idr] eqn:Eid. pose proof (u8_range (Z.shiftr idr 24)) as Hid.
  pose proof (lines_distinct_gsis a p' Ha Hgd Hp') as Hd.
  destruct (redir_loop_spec base a p' (u8 (Z.shiftr idr 24)) 16 0 d2 Ha Hp' Hd Hid) as (d' & -> & R & _); [lia..|].
  res_step. cbn [ensures_frames]. split.
  { intros o Ho. unfold PAGE_SIZE in *. rewrite W, decide_True; [done| |]; Z.div_mod_to_equations; lia. }
  split_and!; [done..|cbn; by rewrite Eb|]. exists d1. rewrite Eid. split; [exact Hid|].
  intros i reg Hi Hi2 Hl. apply R; try done; lia.
Qed.

(** C29. Setting the I/O APIC up maps the page of its registers to itself, and stops only when
    fewer than three frames are free.  Whatever lines are then masked or unmasked, every legacy
    line but the cascade (2) that is wired to an input in the range of that I/O APIC has its
    redirection entry sending vector 0x20 + line to the boot processor, masked or not as the
    line's last call says, and masked if there was none; two lines never share an entry.  And
    the dispatcher given the vector of a line with a registered handler runs that handler,
    then writes the end-of-interrupt register of the local APIC, then runs the hook. *)
Theorem hardware_interrupts_delivered {X} a p d (s : Vmm A) io (q : Irq (X * D)) irq h ms apic_id :
  acpi_ok a → gsis_distinct a → 0 < ioapic_count_ a → zget (ioapics_ a) 0 = Some io → address io = base → is_u32 (gsi_base io) →
  tree_ok Q (get_pml4 s) s → 0 < base < 2 ^ 47 → base `mod` PAGE_SIZE = 0 →
  (∀ e, (mmio_read 4 (lapic_virt p + 0x20) e).2 / 2 ^ 24 = apic_id) → 0 ≤ apic_id < 256 →
  zlen (handlers q) = 16 → 0 ≤ irq < 16 → irq ≠ 2 → Forall (λ '(i, _), 0 ≤ i < 16 ∧ i ≠ 2) ms →
  ensures_frames 3 (fa s) ('(p', d', s') ← init_ioapic a p d s; q' ← register_handler irq h q; d' ← set_masks ms a p' d'; Ok (p', d', s', q'))
    (λ '(p', d', s', q'), (∀ o, 0 ≤ o < PAGE_SIZE → virt_to_phys (base + o) s' = base + o) ∧
      (∀ i g, 0 ≤ i < 16 → i ≠ 2 → zget (irq_to_gsi_ a) i = Some g → gsi_base io ≤ g ≤ gsi_base io + io_last (base := base) →
         routes base d' (0x10 + 2 * (g - gsi_base io)) (0x20 + i) apic_id (last_mask i ms)) ∧
      ∀ x e, irq_common_handler (λ '(x, e), (x, eoi p' e)) q' (0x20 + irq) (x, e) =
        ('(x, e) ← h (x, e);
         let e := mmio_write 4 (lapic_virt p + 0xB0) 0 e in
         match post_eoi_hook q with Some hook => hook (x, e) | None => Ok (x, e) end)).
Proof using IoApicLaws0 HQ H0.
  intros Ha Hgd Hc Hio Hb Hg Ht Hb47 Hal Hid Hidr Hq Hi Hi2 Hms. eapply ensures_frames_bind; [apply (init_ioapic_spec a p d s io); done || lia|].
  intros [[p' d1] s'] (Hmap & Hp' & Hlv & Hgb & Hlast & e0 & Hdest & R). unfold register_handler. rewrite (proj2 (Z.ltb_lt irq 16)) by lia.
  rewrite zset_is by lia. res_step.
  assert (u8 (Z.shiftr (mmio_read 4 (lapic_virt p + 0x20) e0).2 24) = apic_id) as Edest.
  { rewrite Z.shiftr_div_pow2, Hid by lia. unfold u8. by rewrite Z.mod_small. }
  rewrite Edest in R.
  destruct (set_masks_spec base a p' apic_id ms d1 (λ _, true) Ha Hp' (lines_distinct_gsis a p' Ha Hgd Hp') ltac:(lia) Hms) as (d2 & -> & R2); [done|].
  res_step. cbn [ensures_frames]. split; [exact Hmap|]. split.
  - intros i g Hir Hi2' Hgsi Hrange. rewrite <-Hgb. apply (R2 i); [done..|].
    apply (line_in_range base a p' i g); [done|done|done|]. by rewrite Hgb, Hlast.
  - intros x e. unfold irq_common_handler. replace (u8 (0x20 + irq - IRQ_BASE)) with irq by (unfold IRQ_BASE, u8; rewrite Z.mod_small by lia; lia).
    rewrite (proj2 (Z.ltb_lt irq 16)) by lia. cbn [handlers post_eoi_hook]. rewrite zget_insert by lia. rewrite decide_True by done. res_step.
    destruct (h (x, e)) as [[x1 e1]| | |]; [|done..]. res_step. unfold eoi, lapic_write. by rewrite Hlv.
Qed.

End delivery.

(** A machine with an I/O APIC, its index register and its registers, and a local APIC that
    keeps what is written to it. *)
Record SampleDev := MkSampleDev { sd_sel : Z; sd_regs : Z → Z; sd_lapic : list (Z * Z) }.
Definition sd_base : Z := 0xFEC00000.

#[export] Instance sample_hardware : Hardware SampleDev := {
  mmio_read w a d := (d, if a =? sd_base + IOAPIC_REGWIN then (if sd_sel d =? 1 then 0x170011 else sd_regs d (sd_sel d)) else if a =? 0xFEE00020 then 0x3000000 else 0);
  mmio_write w a v d :=
    if a =? sd_base + IOAPIC_REGSEL then MkSampleDev v (sd_regs d) (sd_lapic d)
    else if a =? sd_base + IOAPIC_REGWIN
    then MkSampleDev (sd_sel d) (λ r, if decide (r = sd_sel d) then v else sd_regs d r) (sd_lapic d)
    else MkSampleDev (sd_sel d) (sd_regs d) ((a, v) :: sd_lapic d);
  port_in w p d := (d, 0);
  port_out w p v d := d;
  read_msr m d := 0;
  write_msr m v d := d;
}.

(** Its version register is 0x170011: 24 entries. *)
#[export] Instance sample_ioapic : IoApicDev SampleDev sd_base := { io_bit d r i := Z.testbit (sd_regs d r) i; io_last := 0x17 }.

#[export] Instance sample_ioapic_laws : IoApicLaws SampleDev sd_base.
Proof.
  split; [| |done|done].
  - intros d r v q i _ _. cbn [mmio_write sample_hardware io_bit sample_ioapic].
    change (sd_base + IOAPIC_REGSEL =? sd_base + IOAPIC_REGSEL) with true. change (sd_base + IOAPIC_REGWIN =? sd_base + IOAPIC_REGSEL) with false.
    change (sd_base + IOAPIC_REGWIN =? sd_base + IOAPIC_REGWIN) with true. cbn. by case_decide.
  - intros d r. cbn [mmio_write mmio_read sample_hardware io_bit sample_ioapic].
    change (sd_base + IOAPIC_REGSEL =? sd_base + IOAPIC_REGSEL) with true. change (sd_base + IOAPIC_REGWIN =? sd_base + IOAPIC_REGWIN) with true.
    cbn [sd_sel sd_regs]. split; [|done]. intros i Hr _. by rewrite (proj2 (Z.eqb_neq r 1)) by (unfold IOAPIC_REDTBL in Hr; lia).
Qed.

Definition sample_dev : SampleDev := MkSampleDev 0 (λ r, 0) [].
Definition sample_acpi : Acpi := MkAcpi 0xFEE00000 (MkIoApic sd_base 0 :: replicate 3 (MkIoApic 0 0)) 1 (<[0%nat := 2]> identity_gsi) (MkHpetInfo false 0).

(** The keyboard's line, with the timer on input 2: its entry is at 0x12, and the handler's
    interrupt is ended before the hook. *)
Lemma hardware_interrupts_delivered_witness :
  ensures ('(p', d', s') ← init_ioapic sample_acpi (MkApic 0xFEE00000 0 0 0) sample_dev roomy;
           q' ← register_handler 1 (λ '(n, e), Ok (n + 5, e)) irq_zero; d' ← set_masks [(0, false); (1, false)] sample_acpi p' d'; Ok (p', d', s', q'))
    (λ '(p', d', s', q'), virt_to_phys 0xFEC00010 s' = 0xFEC00010 ∧ routes sd_base d' 0x12 0x21 3 false ∧
       irq_common_handler (λ '(n, e), (n, eoi p' e)) q' 0x21 (1, sample_dev) = Ok (6, MkSampleDev 0 (λ r, 0) [(0xFEE000B0, 0)])).
Proof.
  pose proof (hardware_interrupts_delivered (X := Z) sd_base (λ _, True) (λ _ _, I) sample_acpi (MkApic 0xFEE00000 0 0 0) sample_dev
      roomy (MkIoApic sd_base 0) irq_zero 1 (λ '(n, e), Ok (n + 5, e)) [(0, false); (1, false)] 3) as T.
  match type of T with _ → _ → _ → _ → _ → _ → _ → _ → _ → _ → _ → _ → _ → _ → _ → ?G => assert G as T' end.
  { apply T; clear T.
    + split; [reflexivity|split; discriminate|reflexivity].
    + split; [repeat constructor; vm_compute; congruence|]. intros i j Hi Hj Hi2 Hj2.
      assert (i ∈ seqZ 0 16) as Hin by (apply elem_of_seqZ; lia). assert (j ∈ seqZ 0 16) as Hjn by (apply elem_of_seqZ; lia).
      vm_compute in Hin, Hjn. repeat (apply elem_of_cons in Hin as [->|Hin]; [|]); try (by apply not_elem_of_nil in Hin); try done;
        repeat (apply elem_of_cons in Hjn as [->|Hjn]; [|]); try (by apply not_elem_of_nil in Hjn); try done; vm_compute; congruence.
    + reflexivity.
    + reflexivity.
    + reflexivity.
    + split; vm_compute; congruence.
    + apply roomy_ok.
    + unfold sd_base. lia.
    + reflexivity.
    + intros e. reflexivity.
    + lia.
    + reflexivity.
    + lia.
    + lia.
    + repeat constructor; lia. }
  clear T. match type of T' with ensures_frames _ _ ?r _ => destruct r as [[[[p' d'] s'] q']| | |] end; [|exact I|exact T'..].
  destruct T' as (Hm & Hr & Hh). split; [exact (Hm 0x10 ltac:(unfold PAGE_SIZE; lia))|]. split.
  - apply (Hr 1 1); [lia|lia|reflexivity|vm_compute; split; discriminate].
  - exact (Hh 1 sample_dev).
Defined.
