(* ===== verification/Timers.v ===== *)
(** * The timers ([io/pit.cpp], [io/hpet.cpp])

    The programmable interval timer, behind two ports, and the high precision event
    timer, behind memory-mapped registers.  Both count the ticks of IRQ 0 and turn
    them into milliseconds.  The tick callback is a function on the kernel's state. *)

From S2P Require Import Prelude Mem Frames Vmm PageTable Hardware Acpi Apic Idt.

(** What both drivers keep: ticks since the start, the frequency they run at and the
    callback. *)
Record Timer (S : Type) := MkTimer { ticks_ : Z; configured_hz : Z; tick_cb : option (S → Res S) }.
Arguments MkTimer {S}.
Arguments ticks_ {S}.
Arguments configured_hz {S}.
Arguments tick_cb {S}.

Section timer.
Context {S : Type}.

Definition timer_zero : Timer S := MkTimer 0 0 None.

Definition ticks (t : Timer S) : Z := ticks_ t.
Definition milliseconds (t : Timer S) : Z :=
  if configured_hz t =? 0 then 0 else u64 (ticks_ t * 1000) / configured_hz t.
Definition set_tick_callback (cb : option (S → Res S)) (t : Timer S) : Timer S := MkTimer (ticks_ t) (configured_hz t) cb.
Definition set_hz (hz : Z) (t : Timer S) : Timer S := MkTimer (ticks_ t) hz (tick_cb t).

(** [pit_irq_handler], [hpet_irq_handler]: [get] and [put] reach the driver's state in
    the kernel's. *)
Definition irq_handler (get : S → Timer S) (put : Timer S → S → S) (s : S) : Res S :=
  let t := get s in
  let s := put (MkTimer (u64 (ticks_ t + 1)) (configured_hz t) (tick_cb t)) s in
  match tick_cb t with Some cb => cb s | None => Ok s end.

End timer.

(** ** PIT *)

Definition BASE_FREQ : Z := 1193192.
Definition PIT_CHANNEL0 : Z := 0x40.
Definition PIT_COMMAND : Z := 0x43.

Definition pit_divisor (frequency_hz : Z) : Z :=
  let frequency_hz := if frequency_hz =? 0 then 1 else frequency_hz in
  let divisor := BASE_FREQ / frequency_hz in
  let divisor := if divisor =? 0 then 1 else divisor in
  if 0xFFFF <? divisor then 0xFFFF else divisor.

Section drivers.
Context {A D : Type} `{FrameAlloc A, Hardware D} {S : Type}.

(** [handler] is the driver's interrupt handler. *)
Definition pit_init (frequency_hz : Z) (handler : S → Res S) (a : Acpi) (p : Apic) (q : Irq S) (t : Timer S) (d : D)
    : Res (D * Irq S * Timer S) :=
  let divisor := pit_divisor frequency_hz in
  let t := set_hz (BASE_FREQ / divisor) t in
  let d := outb PIT_COMMAND 0x36 d in
  let d := outb PIT_CHANNEL0 (Z.land divisor 0xFF) d in
  let d := outb PIT_CHANNEL0 (Z.land (Z.shiftr divisor 8) 0xFF) d in
  q ← register_handler 0 handler q;
  d ← set_irq_mask a p 0 false d;
  Ok (d, q, t).

(** ** HPET *)

Definition REG_CAPS : Z := 0x000.
Definition REG_CONFIG : Z := 0x010.
Definition REG_MAIN_COUNTER : Z := 0x0F0.
Definition REG_T0_CONFIG : Z := 0x100.
Definition REG_T0_COMPARATOR : Z := 0x108.
Definition CAPS_LEG_RT_CAP_BIT : Z := Z.shiftl 1 15.
Definition CONFIG_ENABLE_CNF : Z := Z.shiftl 1 0.
Definition CONFIG_LEG_RT_CNF : Z := Z.shiftl 1 1.
Definition TN_INT_ENABLE : Z := Z.shiftl 1 2.
Definition TN_TYPE_PERIODIC : Z := Z.shiftl 1 3.
Definition TN_VAL_SET : Z := Z.shiftl 1 6.
Definition TN_32BIT_MODE : Z := Z.shiftl 1 8.
Definition FEMTOSECONDS_PER_SECOND : Z := 1000000000000000.

Definition hpet_available (a : Acpi) : bool := hpet_present (hpet_ a).

Definition hpet_read (base_virt reg : Z) (d : D) : D * Z := mmio_read 8 (base_virt + reg) d.
Definition hpet_write (base_virt reg value : Z) (d : D) : D := mmio_write 8 (base_virt + reg) value d.

(** The comparator's period, in counter ticks. *)
Definition hpet_period (frequency_hz period_fs : Z) : Z :=
  let ticks_per_period := FEMTOSECONDS_PER_SECOND / u64 (frequency_hz * period_fs) in
  if ticks_per_period =? 0 then 1 else ticks_per_period.

(** The pointer to the registers, 0 when there are none, and whether it worked.  A product
    that wraps to zero divides by zero. *)
Definition hpet_init (frequency_hz : Z) (handler : S → Res S) (a : Acpi) (p : Apic) (q : Irq S) (t : Timer S) (d : D) (s : Vmm A)
    : Res (D * Vmm A * Irq S * Timer S * Z * bool) :=
  if negb (hpet_available a) then Ok (d, s, q, t, 0, false) else
  let frequency_hz := if frequency_hz =? 0 then 1 else frequency_hz in
  let phys := hpet_address (hpet_ a) in
  s ← Vmm.map phys phys MMIO_FLAGS s;
  let base_virt := phys in
  let '(d, caps) := hpet_read base_virt REG_CAPS d in
  if Z.land caps CAPS_LEG_RT_CAP_BIT =? 0 then Ok (d, s, q, t, 0, false) else
  let period_fs := Z.shiftr caps 32 in
  if period_fs =? 0 then Ok (d, s, q, t, 0, false) else
  let d := hpet_write base_virt REG_CONFIG 0 d in
  let d := hpet_write base_virt REG_MAIN_COUNTER 0 d in
  if u64 (frequency_hz * period_fs) =? 0 then Fault else
  let ticks_per_period := hpet_period frequency_hz period_fs in
  if u64 (ticks_per_period * period_fs) =? 0 then Fault else
  let t := set_hz (u32 (FEMTOSECONDS_PER_SECOND / u64 (ticks_per_period * period_fs))) t in
  let d := hpet_write base_virt REG_T0_CONFIG (Z.lor (Z.lor (Z.lor TN_INT_ENABLE TN_TYPE_PERIODIC) TN_VAL_SET) TN_32BIT_MODE) d in
  let d := hpet_write base_virt REG_T0_COMPARATOR ticks_per_period d in
  q ← register_handler 0 handler q;
  d ← set_irq_mask a p 0 false d;
  let d := hpet_write base_virt REG_CONFIG (Z.lor CONFIG_ENABLE_CNF CONFIG_LEG_RT_CNF) d in
  Ok (d, s, q, t, base_virt, true).

(** The timer part of [kernel_main]: the HPET, or the PIT when there is no usable one, with
    [tick] as its callback.  [hpet_handler] and [pit_handler] are the drivers' handlers. *)
Definition start_timer (frequency_hz : Z) (hpet_handler pit_handler tick : S → Res S) (a : Acpi) (p : Apic) (q : Irq S)
    (hpet pit : Timer S) (d : D) (s : Vmm A) : Res (D * Vmm A * Irq S * Timer S * Timer S * Z) :=
  '(d, s, q, hpet, base_virt, ok) ← hpet_init frequency_hz hpet_handler a p q hpet d s;
  if ok : bool then Ok (d, s, q, set_tick_callback (Some tick) hpet, pit, base_virt) else
  '(d, q, pit) ← pit_init frequency_hz pit_handler a p q pit d;
  Ok (d, s, q, hpet, set_tick_callback (Some tick) pit, base_virt).

End drivers.

(** The milliseconds since boot the rest of the kernel reads: the HPET's when it has
    ticked, else the PIT's ticks ([uptime_ms] of procfs, [sys_clock_gettime]). *)
Definition uptime_ms {S} (hpet pit : Timer S) : Z :=
  if 0 <? ticks hpet then milliseconds hpet else ticks pit.
