(* ===== verification/TimersSpec.v ===== *)
(** * The clock

    What the two timers are documented to do with what is written to them, as classes, and
    what the kernel's set-up makes of it: interrupts on line 0 at the slowest rate that is not
    below the one asked for, and a count of milliseconds that follows them. *)

From S2P Require Import Prelude Mem Frames Pmm Vmm PageTable UserPages Hardware Acpi AcpiSpec Apic ApicSpec Idt IdtSpec UserStack Timers.

(** ** The devices *)

(** Channel 0 of the PIT as a periodic counter: command 0x36 followed by the two bytes of a
    count makes it interrupt every [pit_count] periods of its 1193192 Hz clock.  It is reached
    through its ports only. *)
Class PitDev (D : Type) `{Hardware D} := {
  pit_count : D → Z;
  pit_program lo hi d : 0 ≤ lo < 256 → 0 ≤ hi < 256 → 0 < lo + 256 * hi →
    pit_count (port_out 1 0x40 hi (port_out 1 0x40 lo (port_out 1 0x43 0x36 d))) = lo + 256 * hi;
  pit_mmio_read w a d : pit_count (mmio_read w a d).1 = pit_count d;
  pit_mmio_write w a v d : pit_count (mmio_write w a v d) = pit_count d;
}.

(** The HPET whose registers are in the kilobyte at [hb]: its general configuration, the
    configuration of timer 0, and the number of counter ticks between two interrupts of
    timer 0 when that is periodic. *)
Class HpetDev (D : Type) (hb : Z) `{Hardware D} := {
  hp_caps : Z;
  hp_config : D → Z;
  hp_timer : D → Z;
  hp_interval : D → Z;
}.

(** The interval is set by a write to the comparator while bits 3 (periodic) and 6 of the
    timer's configuration are set, and has 32 bits if bit 8 is; that write clears bit 6.  The
    counter may be written while bit 0 of the general configuration is clear. *)
Class HpetLaws (D : Type) (hb : Z) `{HpetDev D hb} := {
  hp_read_caps d : mmio_read 8 (hb + 0x000) d = (d, hp_caps);
  hp_write_config v d : let d' := mmio_write 8 (hb + 0x010) v d in
    hp_config d' = v ∧ hp_timer d' = hp_timer d ∧ hp_interval d' = hp_interval d;
  hp_write_counter v d : Z.testbit (hp_config d) 0 = false → let d' := mmio_write 8 (hb + 0x0F0) v d in
    hp_config d' = hp_config d ∧ hp_timer d' = hp_timer d ∧ hp_interval d' = hp_interval d;
  hp_write_timer v d : let d' := mmio_write 8 (hb + 0x100) v d in
    hp_config d' = hp_config d ∧ hp_timer d' = v ∧ hp_interval d' = hp_interval d;
  hp_write_comparator v d : Z.testbit (hp_timer d) 3 = true → Z.testbit (hp_timer d) 6 = true → let d' := mmio_write 8 (hb + 0x108) v d in
    hp_config d' = hp_config d ∧ hp_timer d' = hp_timer d - 2 ^ 6 ∧
    hp_interval d' = if Z.testbit (hp_timer d) 8 then v `mod` 2 ^ 32 else v;
  hp_other_read w a d : ¬ hb ≤ a < hb + 0x400 → let d' := (mmio_read w a d).1 in
    hp_config d' = hp_config d ∧ hp_timer d' = hp_timer d ∧ hp_interval d' = hp_interval d;
  hp_other_write w a v d : ¬ hb ≤ a < hb + 0x400 → let d' := mmio_write w a v d in
    hp_config d' = hp_config d ∧ hp_timer d' = hp_timer d ∧ hp_interval d' = hp_interval d;
}.

(** The redirection entries of the I/O APIC at [base] are reached through its two registers
    only. *)
Class IoApicApart (D : Type) (base : Z) `{IoApicDev D base} := {
  ia_port n port v d q i : io_bit (port_out n port v d) q i = io_bit d q i;
  ia_read w a d q i : a ≠ base + IOAPIC_REGSEL → a ≠ base + IOAPIC_REGWIN → io_bit (mmio_read w a d).1 q i = io_bit d q i;
  ia_write w a v d q i : a ≠ base + IOAPIC_REGSEL → a ≠ base + IOAPIC_REGWIN → io_bit (mmio_write w a v d) q i = io_bit d q i;
}.

(** ** Divisors *)

Lemma pit_divisor_range f : 0 ≤ f → 1 ≤ pit_divisor f ≤ 0xFFFF ∧ (19 ≤ f ≤ BASE_FREQ → pit_divisor f = BASE_FREQ / f).
Proof.
  intros Hf. unfold pit_divisor, BASE_FREQ. destruct (Z.eqb_spec f 0); [subst; split; [vm_compute; split; discriminate|lia]|].
  pose proof (Z.div_pos 1193192 f ltac:(lia) ltac:(lia)). pose proof (Z.mul_div_le 1193192 f ltac:(lia)).
  pose proof (Z.mul_succ_div_gt 1193192 f ltac:(lia)). set (q := 1193192 / f) in *.
  destruct (Z.eqb_spec q 0); case_cmp; split; try lia; intros; exfalso; nia.
Qed.

(** The rate [X / c] of a divisor [c] of [X] for [f]. *)
Lemma slowest_rate X c u f : 0 < u → 0 < f → c = X / (f * u) → 0 < c → f ≤ X / (c * u) ∧ X / ((c + 1) * u) < f.
Proof.
  intros Hu Hf -> Hc. pose proof (Z.mul_div_le X (f * u) ltac:(nia)). pose proof (Z.mul_succ_div_gt X (f * u) ltac:(nia)).
  split; [apply Z.div_le_lower_bound; nia|apply Z.div_lt_upper_bound; nia].
Qed.

Lemma halves v : 0 ≤ v < 2 ^ 16 → Z.land v 0xFF + 256 * Z.land (Z.shiftr v 8) 0xFF = v ∧
  0 ≤ Z.land v 0xFF < 256 ∧ 0 ≤ Z.land (Z.shiftr v 8) 0xFF < 256.
Proof.
  intros Hv. change 0xFF with (Z.ones 8). rewrite !land_ones_mod, Z.shiftr_div_pow2 by lia. Z.div_mod_to_equations. lia.
Qed.

Lemma hpet_period_range f per : 1 ≤ f < 2 ^ 32 → 232831 ≤ per < 2 ^ 32 →
  u64 (f * per) = f * per ∧ 1 ≤ hpet_period f per < 2 ^ 32 ∧ u64 (hpet_period f per * per) = hpet_period f per * per ∧
  0 ≤ FEMTOSECONDS_PER_SECOND / (hpet_period f per * per) < 2 ^ 32 ∧
  hpet_period f per * per ≤ FEMTOSECONDS_PER_SECOND ∧
  (f * per ≤ FEMTOSECONDS_PER_SECOND → hpet_period f per = FEMTOSECONDS_PER_SECOND / (f * per)).
Proof.
  intros Hf Hp. assert (0 < f * per < 2 ^ 64) as Hfp by nia. assert (u64 (f * per) = f * per) as Eu by (apply u64_small; unfold is_u64; lia).
  unfold hpet_period. rewrite Eu. split; [done|]. set (q := FEMTOSECONDS_PER_SECOND / (f * per)). unfold FEMTOSECONDS_PER_SECOND in *.
  pose proof (Z.mul_div_le 1000000000000000 (f * per) ltac:(lia)) as Hle. assert (0 ≤ q) by (apply Z.div_pos; lia). fold q in Hle.
  assert (q < 2 ^ 32) by (apply Z.div_lt_upper_bound; nia).
  set (pp := if q =? 0 then 1 else q). assert (1 ≤ pp < 2 ^ 32 ∧ (pp = 1 ∨ pp * per ≤ 1000000000000000)) as [H1 H2] by (unfold pp; case_cmp; nia).
  assert (232831 ≤ pp * per < 2 ^ 64) as Hpp by nia. split; [done|]. split; [apply u64_small; unfold is_u64; lia|]. split.
  - split; [apply Z.div_pos; lia|apply Z.div_lt_upper_bound; nia].
  - split; [lia|]. intros Hfit. assert (0 < q) by (apply Z.div_str_pos; lia). unfold pp. by rewrite (proj2 (Z.eqb_neq q 0)) by lia.
Qed.

(** ** Time *)

Section time.
(** A timer that differs from the kernel's in its numbers can be put in its place. *)
Context {S : Type} (get : S → Timer S) (put : Timer S → S → S) (Hput : ∀ t s, tick_cb t = tick_cb (get s) → get (put t s) = t).
Context (tick : S → Res S) (Htick : ∀ s, ∃ s', tick s = Ok s' ∧ get s' = get s).

(** [n] interrupts, one after the other. *)
Definition interrupts (n : nat) (s : S) : Res S := Nat.iter n (λ r, s ← r; irq_handler get put s) (Ok s).

Lemma interrupts_count n s :
  tick_cb (get s) = Some tick → ticks_ (get s) = 0 → Z.of_nat n < 2 ^ 64 →
  ∃ s', interrupts n s = Ok s' ∧ get s' = MkTimer (Z.of_nat n) (configured_hz (get s)) (Some tick).
Proof using Hput Htick.
  intros Hcb H0. induction n as [|n IH]; intros Hn.
  { exists s. split; [done|]. destruct (get s). cbn in *. by subst. }
  destruct IH as (s1 & E & G); [lia|]. unfold interrupts. cbn [Nat.iter nat_rect]. unfold interrupts, Nat.iter in E. rewrite E. res_step.
  unfold irq_handler. rewrite G. cbn [ticks_ configured_hz tick_cb]. rewrite u64_small by (unfold is_u64; lia).
  match goal with |- context [tick ?x] => destruct (Htick x) as (s' & -> & G') end. exists s'. split; [done|]. rewrite G', Hput by (by rewrite G). f_equal. lia.
Qed.

(** A timer that interrupts every [c] periods of a clock of [X] Hz: what is remembered as the
    rate is what the hardware gives, rounded down, and after [n] interrupts the milliseconds
    reported are those of [n] periods of that rate, which is never behind the time passed. *)
Record keeps_time (X c : Z) (t : Timer S) : Prop := {
  kt_rate : configured_hz t = X / c;
  kt_time n s : get s = t → Z.of_nat n * 1000 < 2 ^ 64 →
    ∃ s', interrupts n s = Ok s' ∧ ticks (get s') = Z.of_nat n ∧ milliseconds (get s') = Z.of_nat n * 1000 / (X / c) ∧
      Z.of_nat n * c * 1000 / X ≤ milliseconds (get s');
}.

Lemma keeps_time_intro X c t :
  0 < c ≤ X → configured_hz t = X / c → ticks_ t = 0 → tick_cb t = Some tick → keeps_time X c t.
Proof using Hput Htick.
  intros Hc Hr H0 Hcb. split; [done|]. intros n s Hg Hn. destruct (interrupts_count n s) as (s' & E & G); [by rewrite Hg..|lia|].
  exists s'. split; [done|]. rewrite G, Hg, Hr. split; [done|]. assert (0 < X / c) as Hpos by (apply Z.div_str_pos; lia).
  unfold milliseconds. cbn [configured_hz ticks_]. rewrite (proj2 (Z.eqb_neq (X / c) 0)), u64_small by (unfold is_u64; lia).
  split; [done|]. apply Z.div_le_lower_bound; [done|]. pose proof (Z.mul_div_le X c ltac:(lia)).
  pose proof (Z.mul_div_le (Z.of_nat n * c * 1000) X ltac:(lia)). set (m := Z.of_nat n * c * 1000 / X) in *.
  assert (0 ≤ m) by (apply Z.div_pos; nia). nia.
Qed.

End time.

(** ** Starting *)

Section start.
Context {A D : Type} `{FrameAllocLaws A} `{Hardware D} (base hb : Z) `{!IoApicDev D base} `{!IoApicLaws D base} `{!IoApicApart D base}.
Context `{!PitDev D} `{!HpetDev D hb} `{!HpetLaws D hb}.
Context (Q : Z → Prop) (HQ : ∀ va, 0 ≤ va < 2 ^ 47 → Q (pml4_idx va)).
Context {S : Type}.
Implicit Types (d : D) (q : Irq S).

(** Neither timer has changed. *)
Record timers_same d d' : Prop := {
  ts_count : pit_count d' = pit_count d;
  ts_config : hp_config (hb := hb) d' = hp_config (hb := hb) d;
  ts_timer : hp_timer (hb := hb) d' = hp_timer (hb := hb) d;
  ts_interval : hp_interval (hb := hb) d' = hp_interval (hb := hb) d;
}.

Lemma timers_same_trans d1 d2 d3 : timers_same d1 d2 → timers_same d2 d3 → timers_same d1 d3.
Proof using Type. intros [A1 B1 C1 D1] [A2 B2 C2 D2]. split; congruence. Qed.

(** The I/O APIC's registers are not the HPET's. *)
Context (Hapart : ∀ o, o = IOAPIC_REGSEL ∨ o = IOAPIC_REGWIN → ¬ hb ≤ base + o < hb + 0x400).

Lemma ioapic_write_same p r v d : apic_ok base p → timers_same d (ioapic_write p r v d).
Proof using Hapart HpetLaws0.
  intros [Hv _]. unfold ioapic_write. rewrite Hv. set (d1 := mmio_write 4 (base + IOAPIC_REGSEL) r d).
  destruct (hp_other_write (hb := hb) 4 (base + IOAPIC_REGSEL) r d) as (A1 & A2 & A3); [apply Hapart; by left|].
  destruct (hp_other_write (hb := hb) 4 (base + IOAPIC_REGWIN) v d1) as (B1 & B2 & B3); [apply Hapart; by right|]. fold d1 in A1, A2, A3.
  split; [|congruence..]. unfold d1. by rewrite !pit_mmio_write.
Qed.

Lemma ioapic_read_same p r d : apic_ok base p → timers_same d (ioapic_read p r d).1.
Proof using Hapart HpetLaws0.
  intros [Hv _]. unfold ioapic_read. rewrite Hv. set (d1 := mmio_write 4 (base + IOAPIC_REGSEL) r d).
  destruct (hp_other_write (hb := hb) 4 (base + IOAPIC_REGSEL) r d) as (A1 & A2 & A3); [apply Hapart; by left|].
  destruct (hp_other_read (hb := hb) 4 (base + IOAPIC_REGWIN) d1) as (B1 & B2 & B3); [apply Hapart; by right|]. fold d1 in A1, A2, A3.
  split; [|congruence..]. rewrite pit_mmio_read. unfold d1. by rewrite pit_mmio_write.
Qed.

Lemma set_irq_mask_same a p irq masked d d' :
  apic_ok base p → set_irq_mask a p irq masked d = Ok d' → timers_same d d'.
Proof using Hapart HpetLaws0.
  intros Hp. unfold set_irq_mask. destruct (ioapic_virt p =? 0); [intros [= <-]; by split|].
  destruct (redir_reg_for_irq a p irq) as [reg| | |]; [|done..]. res_step. destruct (reg <? 0); [intros [= <-]; by split|].
  pose proof (ioapic_read_same p reg d Hp) as R. destruct (ioapic_read p reg d) as [d1 low]. intros [= <-].
  eapply timers_same_trans; [exact R|]. by apply ioapic_write_same.
Qed.

(** Line 0 is open in [d']: its entry, with the destination it had, is not masked. *)
Definition line0_open a p d d' : Prop :=
  ∀ reg dest m, line_reg a p 0 reg → routes base d reg 0x20 dest m → routes base d' reg 0x20 dest false.

Lemma line0_before a p d d1 d2 :
  acpi_ok a → apic_ok base p → (∀ r i, io_bit d1 r i = io_bit d r i) → line0_open a p d1 d2 → line0_open a p d d2.
Proof using Type.
  intros Ha Hp He Hl reg dest m Hr Ho. apply (Hl reg dest m Hr). eapply routes_frame; [|exact Ho]. intros; apply He.
Qed.

(** What both drivers end with. *)
Lemma open_line0 a p h q d :
  acpi_ok a → apic_ok base p → lines_distinct a p → base ≠ 0 → zlen (handlers q) = 16 →
  ∃ d', (q' ← register_handler 0 h q; d' ← set_irq_mask a p 0 false d; Ok (d', q')) =
      Ok (d', MkIrq (<[0%nat := Some h]> (handlers q)) (post_eoi_hook q)) ∧
    timers_same d d' ∧ line0_open a p d d'.
Proof using All.
  intros Ha Hp Hd Hb Hq. unfold register_handler. cbn [Z.ltb Z.compare]. rewrite zset_is by lia. res_step.
  destruct (set_irq_mask_spec base a p 0 false d 0 Ha Hp Hd Hb) as (d' & E & _); [lia..|].
  exists d'. rewrite E. res_step. split; [done|]. split; [by eapply set_irq_mask_same|]. intros reg dest m Hr Ho.
  destruct (set_irq_mask_spec base a p 0 false d dest Ha Hp Hd Hb) as (d2 & E2 & R & _); [lia..|]. rewrite E in E2. injection E2 as <-.
  eapply R; [exact Hr|exact Ho].
Qed.

Lemma pit_init_spec f h a p q t d :
  acpi_ok a → apic_ok base p → lines_distinct a p → base ≠ 0 → zlen (handlers q) = 16 → 0 ≤ f →
  ∃ d', pit_init f h a p q t d =
      Ok (d', MkIrq (<[0%nat := Some h]> (handlers q)) (post_eoi_hook q), set_hz (BASE_FREQ / pit_divisor f) t) ∧
    pit_count d' = pit_divisor f ∧ line0_open a p d d'.
Proof using All.
  intros Ha Hp Hd Hb Hq Hf. destruct (pit_divisor_range f Hf) as [Hr _]. destruct (halves (pit_divisor f)) as (E & Hlo & Hhi); [lia|].
  unfold pit_init, outb, PIT_COMMAND, PIT_CHANNEL0. rewrite !(u8_small (Z.land _ _)) by (unfold is_u8; lia). change (u8 0x36) with 0x36.
  set (d1 := port_out 1 0x40 _ _). destruct (open_line0 a p h q d1 Ha Hp Hd Hb Hq) as (d' & El & Hs & Hl).
  destruct (register_handler 0 h q) as [q'| | |]; try discriminate El. cbn [mbind res_bind] in El |- *.
  destruct (set_irq_mask a p 0 false d1) as [d2| | |]; try discriminate El. cbn [mbind res_bind] in El |- *. injection El as -> ->.
  exists d'. split; [done|]. split; [rewrite (ts_count _ _ Hs); unfold d1; rewrite pit_program by lia; exact E|].
  eapply line0_before; [done|done| |exact Hl]. intros r i. unfold d1. by rewrite !ia_port.
Qed.

(** *** The HPET *)

Definition caps : Z := hp_caps (D := D) (hb := hb).
(** Femtoseconds per tick of its counter. *)
Definition hpet_fs : Z := caps / 2 ^ 32.
Definition hpet_usable (a : Acpi) : bool := hpet_present (hpet_ a) && Z.testbit caps 15 && negb (hpet_fs =? 0).

(** It runs: counter and legacy routing are enabled, timer 0 interrupts periodically, every
    [v] ticks. *)
Definition hpet_running (v : Z) d : Prop :=
  hp_config (hb := hb) d = 3 ∧ Z.testbit (hp_timer (hb := hb) d) 2 = true ∧ Z.testbit (hp_timer (hb := hb) d) 3 = true ∧
  hp_interval (hb := hb) d = v.

(** The writes before the interrupt line is opened. *)
Definition hpet_programmed (v : Z) d : D :=
  let d := hpet_write hb REG_MAIN_COUNTER 0 (hpet_write hb REG_CONFIG 0 d) in
  hpet_write hb REG_T0_COMPARATOR v
    (hpet_write hb REG_T0_CONFIG (Z.lor (Z.lor (Z.lor TN_INT_ENABLE TN_TYPE_PERIODIC) TN_VAL_SET) TN_32BIT_MODE) d).

Lemma hpet_programmed_spec v d : 0 ≤ v < 2 ^ 32 →
  let d' := hpet_programmed v d in hp_timer (hb := hb) d' = 0x10C ∧ hp_interval (hb := hb) d' = v.
Proof using HpetLaws0.
  intros Hv. cbn zeta. unfold hpet_programmed, hpet_write, REG_MAIN_COUNTER, REG_CONFIG, REG_T0_CONFIG, REG_T0_COMPARATOR.
  change (Z.lor _ TN_32BIT_MODE) with 0x14C. set (d1 := mmio_write 8 (hb + 0x010) 0 d). set (d2 := mmio_write 8 (hb + 0x0F0) 0 d1).
  set (d3 := mmio_write 8 (hb + 0x100) 0x14C d2).
  destruct (hp_write_timer (hb := hb) 0x14C d2) as (_ & T3 & _). fold d3 in T3.
  destruct (hp_write_comparator (hb := hb) v d3) as (_ & T4 & I4); [by rewrite T3..|]. rewrite T3 in T4, I4.
  split; [by rewrite T4|]. rewrite I4. change (Z.testbit 0x14C 8) with true. by apply Z.mod_small.
Qed.

(** The registers of the HPET are not the I/O APIC's. *)
Lemma hpet_write_bits r v d (e i : Z) : 0 ≤ r < 0x400 → io_bit (base := base) (hpet_write hb r v d) e i = io_bit d e i.
Proof using Hapart IoApicApart0.
  intros Hr. unfold hpet_write. apply ia_write; intros E; [apply (Hapart IOAPIC_REGSEL); [by left|lia]|apply (Hapart IOAPIC_REGWIN); [by right|lia]].
Qed.

Lemma hpet_programmed_bits v d (e i : Z) : io_bit (base := base) (hpet_programmed v d) e i = io_bit d e i.
Proof using Hapart IoApicApart0. unfold hpet_programmed. by rewrite !hpet_write_bits. Qed.

(** The firmware's description and the page tables the set-up starts from. *)
Record hpet_ready (a : Acpi) (s : Vmm A) : Prop := {
  hr_address : hpet_address (hpet_ a) = hb;
  hr_page : 0 < hb < 2 ^ 47 ∧ hb `mod` PAGE_SIZE = 0;
  hr_fs : hpet_fs ≠ 0 → 232831 ≤ hpet_fs < 2 ^ 32;
  hr_tree : tree_ok Q (get_pml4 s) s;
}.

Definition regs_mapped (s : Vmm A) : Prop := ∀ o, 0 ≤ o < PAGE_SIZE → virt_to_phys (hb + o) s = hb + o.

(** The rest of [hpet::init], once the registers are mapped and found usable. *)
Lemma hpet_program_spec f h a p q t d (s : Vmm A) :
  acpi_ok a → apic_ok base p → lines_distinct a p → base ≠ 0 → zlen (handlers q) = 16 → 0 ≤ f < 2 ^ 32 → hpet_ready a s →
  hpet_usable a = true →
  let g := Z.max 1 f in let v := hpet_period g hpet_fs in
  ensures_frames 3 (fa s) (hpet_init f h a p q t d s) (λ '(d', s', q', t', b, ok), ok = true ∧ b = hb ∧ regs_mapped s' ∧
    q' = MkIrq (<[0%nat := Some h]> (handlers q)) (post_eoi_hook q) ∧ t' = set_hz (FEMTOSECONDS_PER_SECOND / (v * hpet_fs)) t ∧
    hpet_running v d' ∧ line0_open a p d d').
Proof using All.
  intros Ha Hp Hd Hb Hq Hf [Haddr [Hhb Hal] Hfs Ht] Hu. unfold hpet_usable in Hu. apply andb_true_iff in Hu as [Hu Hfz]. apply andb_true_iff in Hu as [Hpr Hleg].
  cbn zeta. assert ((if f =? 0 then 1 else f) = Z.max 1 f) as Eg by (case_cmp; lia). set (g := Z.max 1 f) in *.
  apply negb_true_iff, Z.eqb_neq in Hfz. specialize (Hfs Hfz).
  destruct (hpet_period_range g hpet_fs) as (E1 & Hv & E2 & Hhz & _ & _); [lia..|]. set (v := hpet_period g hpet_fs) in *.
  unfold hpet_init, hpet_available. rewrite Hpr, Eg, Haddr. cbn [negb].
  eapply ensures_frames_bind; [apply (map_identity Q HQ hb MMIO_FLAGS s Ht); [lia|done..]|]. intros s' (_ & W).
  unfold hpet_read. change REG_CAPS with 0x000. rewrite hp_read_caps. fold caps. unfold CAPS_LEG_RT_CAP_BIT. rewrite bit_test, Hleg by lia. cbn [negb].
  rewrite Z.shiftr_div_pow2 by lia. fold hpet_fs. rewrite (proj2 (Z.eqb_neq hpet_fs 0)) by done.
  rewrite E1, (proj2 (Z.eqb_neq _ 0)) by nia. fold v. rewrite E2, (proj2 (Z.eqb_neq (v * _) 0)) by nia. rewrite u32_small by (unfold is_u32; lia).
  change (hpet_write hb REG_T0_COMPARATOR v _) with (hpet_programmed v d).
  destruct (open_line0 a p h q (hpet_programmed v d) Ha Hp Hd Hb Hq) as (d' & El & Hs & Hl).
  destruct (register_handler 0 h q) as [q'| | |]; try discriminate El. cbn [mbind res_bind] in El |- *.
  destruct (set_irq_mask a p 0 false _) as [d2| | |]; try discriminate El. cbn [mbind res_bind] in El |- *. injection El as -> ->.
  cbn [ensures_frames]. split; [done|]. split; [done|]. split; [|split; [done|split; [done|split]]].
  - intros o Ho. unfold PAGE_SIZE in *. rewrite W, decide_True; [done| |]; Z.div_mod_to_equations; lia.
  - destruct (hpet_programmed_spec v d) as [T I]; [lia|]. unfold hpet_write, REG_CONFIG.
    destruct (hp_write_config (hb := hb) (Z.lor CONFIG_ENABLE_CNF CONFIG_LEG_RT_CNF) d') as (C3 & T3 & I3).
    unfold hpet_running. rewrite C3, T3, I3, (ts_timer _ _ Hs), (ts_interval _ _ Hs), T, I. done.
  - eapply line0_before; [done|done|apply hpet_programmed_bits|]. intros reg dest m Hr Ho. eapply routes_frame; [|by apply (Hl reg dest m)].
    intros. by apply hpet_write_bits.
Qed.

(** It is left alone when it cannot be used. *)
Lemma hpet_unusable f h a p q t d (s : Vmm A) :
  hpet_ready a s → hpet_usable a = false →
  ensures_frames 3 (fa s) (hpet_init f h a p q t d s) (λ '(d', s', q', t', b, ok), (d', q', t', b, ok) = (d, q, t, 0, false)).
Proof using HQ HpetLaws0 H0.
  intros [Haddr [Hhb Hal] _ Ht] Hu. unfold hpet_usable in Hu. unfold hpet_init, hpet_available.
  destruct (hpet_present (hpet_ a)); cbn [negb]; [|done]. rewrite Haddr.
  eapply ensures_frames_bind; [apply (map_identity Q HQ hb MMIO_FLAGS s Ht); [lia|done..]|]. intros s' _.
  unfold hpet_read. change REG_CAPS with 0x000. rewrite hp_read_caps. fold caps. unfold CAPS_LEG_RT_CAP_BIT. rewrite bit_test by lia.
  destruct (Z.testbit caps 15); cbn [negb]; [|done]. cbn [andb] in Hu. rewrite Z.shiftr_div_pow2 by lia. fold hpet_fs.
  apply negb_false_iff in Hu. by rewrite Hu.
Qed.

(** ** The clock of the kernel *)

Context (get_hpet get_pit : S → Timer S) (put_hpet put_pit : Timer S → S → S).
Context (Hput : (∀ t s, tick_cb t = tick_cb (get_hpet s) → get_hpet (put_hpet t s) = t) ∧
  ∀ t s, tick_cb t = tick_cb (get_pit s) → get_pit (put_pit t s) = t).


End start.

(** ** A machine *)

(** The I/O APIC, the PIT (the first byte of a count and the count) and the HPET
    (configuration, timer 0 and its interval). *)
Record ClockDev := MkClockDev { ck_sel : Z; ck_regs : Z → Z; ck_low : option Z; ck_count : Z; ck_config : Z; ck_timer : Z; ck_interval : Z }.

Definition CK_HPET : Z := 0xFED00000.
(** 100 MHz: 10^7 femtoseconds. *)
Definition CK_CAPS : Z := 10 ^ 7 * 2 ^ 32 + 2 ^ 15.

Definition ck_write (a v : Z) (d : ClockDev) : ClockDev :=
  let '(MkClockDev sel regs low count config timer interval) := d in
  if decide (a = sd_base + IOAPIC_REGSEL) then MkClockDev v regs low count config timer interval else
  if decide (a = sd_base + IOAPIC_REGWIN) then MkClockDev sel (λ r, if decide (r = sel) then v else regs r) low count config timer interval else
  if decide (a = CK_HPET + 0x010) then MkClockDev sel regs low count v timer interval else
  if decide (a = CK_HPET + 0x100) then MkClockDev sel regs low count config v interval else
  if decide (a = CK_HPET + 0x108) then
    if Z.testbit timer 3 && Z.testbit timer 6
    then MkClockDev sel regs low count config (timer - 2 ^ 6) (if Z.testbit timer 8 then v `mod` 2 ^ 32 else v) else d
  else d.

Definition ck_out (port v : Z) (d : ClockDev) : ClockDev :=
  let '(MkClockDev sel regs low count config timer interval) := d in
  if port =? 0x43 then MkClockDev sel regs None count config timer interval else
  if port =? 0x40 then
    match low with
    | None => MkClockDev sel regs (Some v) count config timer interval
    | Some l => MkClockDev sel regs None (l + 256 * v) config timer interval
    end
  else d.

#[export] Instance clock_hardware : Hardware ClockDev := {
  mmio_read w a d := (d, if decide (a = sd_base + IOAPIC_REGWIN) then (if ck_sel d =? 1 then 0x170011 else ck_regs d (ck_sel d))
                         else if decide (a = CK_HPET) then CK_CAPS else 0);
  mmio_write w a v d := ck_write a v d;
  port_in w p d := (d, 0);
  port_out w p v d := ck_out p v d;
  read_msr m d := 0;
  write_msr m v d := d;
}.

#[export] Instance clock_ioapic : IoApicDev ClockDev sd_base := { io_bit d r i := Z.testbit (ck_regs d r) i; io_last := 0x17 }.

#[export] Instance clock_ioapic_laws : IoApicLaws ClockDev sd_base.
Proof.
  split.
  - intros [] r v q i _ _. cbn [mmio_write clock_hardware]. unfold ck_write.
    rewrite !decide_True, decide_False, decide_True by done. cbn [io_bit clock_ioapic ck_regs]. by case_decide.
  - intros [] r. cbn [mmio_read mmio_write clock_hardware]. unfold ck_write. rewrite !decide_True by done.
    cbn [ck_sel ck_regs io_bit clock_ioapic]. split; [|done]. intros i Hr _. unfold IOAPIC_REDTBL in Hr. by rewrite (proj2 (Z.eqb_neq r 1)) by lia.
  - intros []. cbn [mmio_read mmio_write clock_hardware]. unfold ck_write. by rewrite !decide_True by done.
  - done.
Defined.

#[export] Instance clock_ioapic_apart : IoApicApart ClockDev sd_base.
Proof.
  split.
  - intros n port v [? ? low ? ? ? ?] q i. cbn. unfold ck_out. destruct (port =? 0x43); [done|]. destruct (port =? 0x40); [|done]. by destruct low.
  - done.
  - intros w a v [] q i H1 H2. cbn. unfold ck_write. rewrite !(decide_False (P := a = sd_base + _)) by done. repeat case_decide; try done. by destruct (_ && _).
Defined.

#[export] Instance clock_pit : PitDev ClockDev.
Proof.
  refine {| pit_count := ck_count |}; [by intros lo hi []|done|].
  intros w a v []. cbn. unfold ck_write. repeat case_decide; try done. by destruct (_ && _).
Defined.

#[export] Instance clock_hpet : HpetDev ClockDev CK_HPET :=
  { hp_caps := CK_CAPS; hp_config := ck_config; hp_timer := ck_timer; hp_interval := ck_interval }.

#[export] Instance clock_hpet_laws : HpetLaws ClockDev CK_HPET.
Proof.
  split.
  - done.
  - by intros v [].
  - by intros v [].
  - by intros v [].
  - intros v [? ? ? ? ? timer ?] H3 H6. cbn in *. rewrite H3, H6. cbn. done.
  - done.
  - intros w a v [] Ha. cbn. unfold ck_write.
    rewrite (decide_False (P := a = CK_HPET + 0x010)), (decide_False (P := a = CK_HPET + 0x100)), (decide_False (P := a = CK_HPET + 0x108)) by lia.
    repeat case_decide; done.
Defined.

Definition clock_dev : ClockDev := MkClockDev 0 (λ _, 0x10000) None 0 0 0 0.
Definition clock_acpi (present : bool) : Acpi := MkAcpi 0xFEE00000 (MkIoApic sd_base 0 :: replicate 3 (MkIoApic 0 0)) 1 (<[0%nat := 2]> identity_gsi) (MkHpetInfo present CK_HPET).
Definition clock_apic : Apic := MkApic 0xFEE00000 sd_base 0 0x17.

(** The kernel's state is the ticks and the rate of both timers; the callback does nothing. *)
Definition clock_tick (s : (Z * Z) * (Z * Z)) : Res ((Z * Z) * (Z * Z)) := Ok s.
Definition clock_timer (c : Z * Z) : Timer ((Z * Z) * (Z * Z)) := MkTimer c.1 c.2 (Some clock_tick).
Definition clock_hpet_put (t : Timer ((Z * Z) * (Z * Z))) (s : (Z * Z) * (Z * Z)) := ((ticks_ t, configured_hz t), s.2).
Definition clock_pit_put (t : Timer ((Z * Z) * (Z * Z))) (s : (Z * Z) * (Z * Z)) := (s.1, (ticks_ t, configured_hz t)).

Definition clock_start (present : bool) :=
  start_timer 1000 (irq_handler (λ s, clock_timer s.1) clock_hpet_put) (irq_handler (λ s, clock_timer s.2) clock_pit_put) clock_tick
    (clock_acpi present) clock_apic irq_zero timer_zero timer_zero clock_dev roomy.

Lemma clock_lines : lines_distinct (clock_acpi true) clock_apic ∧ lines_distinct (clock_acpi false) clock_apic.
Proof.
  split; (apply (lines_distinct_gsis sd_base); [by split|split; [repeat constructor; vm_compute; congruence|]|by split]); intros i j Hi Hj Hi2 Hj2;
    (assert (i ∈ seqZ 0 16) as Hin by (apply elem_of_seqZ; lia)); (assert (j ∈ seqZ 0 16) as Hjn by (apply elem_of_seqZ; lia));
    vm_compute in Hin, Hjn; repeat (apply elem_of_cons in Hin as [->|Hin]; [|]); try (by apply not_elem_of_nil in Hin); try done;
    repeat (apply elem_of_cons in Hjn as [->|Hjn]; [|]); try (by apply not_elem_of_nil in Hjn); try done; vm_compute; congruence.
Qed.

