(* ===== verification/Procfs.v ===== *)
(** * The synthetic file system ([fs/procfs.cpp])

    Three files whose text is made when they are looked up, from the timers and the
    frame allocator.  The kernel's heap is [K]; [now] is what the timers and the
    allocator report in a state of it.  A buffer on the stack is what it held
    before, [stale], with the bytes written over. *)

From stdpp Require Import strings.
From S2P Require Import Prelude CString Task Fs Timers.

Definition INO_ROOT : Z := 0.
Definition INO_UPTIME : Z := 1.
Definition INO_MEMINFO : Z := 2.
Definition INO_CPUINFO : Z := 3.

(** ASCII text. *)
Definition text (s : string) : list Z := (λ c, Z.of_N (Ascii.N_of_ascii c)) <$> String.list_ascii_of_string s.

Record Entry := MkEntry { e_ino : Z; e_name : list Z }.
Definition ENTRIES : list Entry :=
  [MkEntry INO_UPTIME (text "uptime"); MkEntry INO_MEMINFO (text "meminfo"); MkEntry INO_CPUINFO (text "cpuinfo")].

(** What the content is made from. *)
Record Reading := MkReading { r_uptime : Z; r_total : Z; r_used : Z }.

(** ** Text *)

(** The digit loop, from the end of [tmp]. *)
Fixpoint dec_loop (fuel : nat) (tmp : list Z) (i value : Z) : Res (list Z * Z) :=
  match fuel with
  | O => NoFuel
  | S fuel =>
      if negb (0 <? value) then Ok (tmp, i) else
      tmp ← or_fault (zset tmp (i - 1) (48 + value `mod` 10));
      dec_loop fuel tmp (i - 1) (value / 10)
  end.

(** [write_dec(buf + off, value)]: the buffer and the number of bytes.  A [u64] has at
    most twenty digits. *)
Definition write_dec (buf : list Z) (off value : Z) : Res (list Z * Z) :=
  if value =? 0 then b ← or_fault (zset buf off 48); Ok (b, 1) else
  '(tmp, i) ← dec_loop 21 (replicate 20 0) 20 value;
  let len := 20 - i in
  b ← memcpy buf off tmp i len;
  Ok (b, len).

(** [buf\[off++\] = c]. *)
Definition put (b : list Z) (off c : Z) : Res (list Z * Z) := b ← or_fault (zset b off c); Ok (b, off + 1).

(** One of the two numbers of [/proc/uptime]. *)
Definition put_seconds (b : list Z) (off secs centi : Z) : Res (list Z * Z) :=
  '(b, n) ← write_dec b off secs;
  '(b, off) ← put b (off + n) 46;
  '(b, off) ← (if centi <? 10 then put b off 48 else Ok (b, off));
  '(b, n) ← write_dec b off centi;
  Ok (b, off + n).

Definition format_uptime (r : Reading) (b : list Z) : Res (list Z * Z) :=
  let ms := r_uptime r in
  let secs := ms / 1000 in
  let centi := (ms `mod` 1000) / 10 in
  '(b, off) ← put_seconds b 0 secs centi;
  '(b, off) ← put b off 32;
  '(b, off) ← put_seconds b off secs centi;
  put b off 10.

(** One line of [/proc/meminfo]. *)
Definition mem_field (b : list Z) (off : Z) (label : list Z) (kb : Z) : Res (list Z * Z) :=
  b ← memcpy b off label 0 (zlen label);
  let off := off + zlen label in
  '(b, n) ← write_dec b off kb;
  let off := off + n in
  let suffix := text " kB" ++ [10] in
  b ← memcpy b off suffix 0 (zlen suffix);
  Ok (b, off + zlen suffix).

Definition format_meminfo (r : Reading) (b : list Z) : Res (list Z * Z) :=
  let total_kb := u64 (r_total r * 4) in
  let free_kb := u64 (u64 (r_total r - r_used r) * 4) in
  '(b, off) ← mem_field b 0 (text "MemTotal:       ") total_kb;
  '(b, off) ← mem_field b off (text "MemFree:        ") free_kb;
  '(b, off) ← mem_field b off (text "MemAvailable:   ") free_kb;
  '(b, off) ← mem_field b off (text "Buffers:        ") 0;
  '(b, off) ← mem_field b off (text "Cached:         ") 0;
  '(b, off) ← mem_field b off (text "SwapTotal:      ") 0;
  mem_field b off (text "SwapFree:       ") 0.

Definition cpuinfo_text : list Z :=
  text "processor" ++ [9] ++ text ": 0" ++ [10] ++
  text "vendor_id" ++ [9] ++ text ": GenuineIntel" ++ [10] ++
  text "model name" ++ [9] ++ text ": QEMU Virtual CPU" ++ [10] ++
  text "cpu MHz" ++ [9; 9] ++ text ": 2000.000" ++ [10] ++
  text "cache size" ++ [9] ++ text ": 0 KB" ++ [10] ++
  text "cpu cores" ++ [9] ++ text ": 1" ++ [10] ++ [10].

Definition format_cpuinfo (b : list Z) : Res (list Z * Z) :=
  b ← memcpy b 0 cpuinfo_text 0 (zlen cpuinfo_text);
  Ok (b, zlen cpuinfo_text).

(** ** Inodes *)

(** The bytes behind [data], [None] for the null pointer, and [size]. *)
Record ProcContent := MkContent { data : option (list Z); c_size : Z }.
Definition SIZEOF_CONTENT : Z := 16.

(** An inode's [private_data]. *)
Definition ProcData : Type := option ProcContent.

Section procfs.
Context {K : Type} `{KernelEnv K} (now : K → Reading) (stale : list Z).

(** Nothing here checks an allocation: the null pointer would be written through. *)
Definition alloc_checked (n : Z) (k : K) : Res K :=
  '(k, p) ← kmalloc n k; if p =? 0 then Fault else Ok k.

(** [char scratch\[512\]], then a copy of the text in a new block. *)
Definition render (ino : Z) (k : K) : Res (K * ProcContent) :=
  f ← (if ino =? INO_UPTIME then r ← format_uptime (now k) stale; Ok (Some r)
       else if ino =? INO_MEMINFO then r ← format_meminfo (now k) stale; Ok (Some r)
       else if ino =? INO_CPUINFO then r ← format_cpuinfo stale; Ok (Some r)
       else Ok None : Res (option (list Z * Z)));
  match f with
  | None => Ok (k, MkContent None 0)
  | Some (scratch, len) =>
      k ← alloc_checked len k;
      bs ← or_fault (slice scratch 0 len);
      Ok (k, MkContent (Some bs) len)
  end.

Definition proc_read (inode : Inode ProcData) (offset count : Z) (k : K) : Res (K * (Z * list Z)) :=
  match private_data inode with
  | Some (MkContent (Some d) size) =>
      if size <=? offset then Ok (k, (0, [])) else
      let count := if size <? u64 (offset + count) then size - offset else count in
      bs ← or_fault (slice d offset count);
      Ok (k, (i64_of count, bs))
  | _ => Ok (k, (-1, []))
  end.

(** [for (u64 i = 0; i < NUM_ENTRIES; ++i)]. *)
Fixpoint readdir_loop (es : list Entry) (offset count : Z) (out : list Z) (stream_pos : Z) : list Z :=
  match es with
  | [] => out
  | e :: es =>
      let needed := 8 + zlen (e_name e) + 1 in
      if offset <=? stream_pos then
        if count <? zlen out + needed then out
        else readdir_loop es offset count (out ++ dirent (e_ino e) (e_name e)) (stream_pos + needed)
      else readdir_loop es offset count out (stream_pos + needed)
  end.

Definition proc_readdir (inode : Inode ProcData) (offset count : Z) (k : K) : Res (K * (Z * list Z)) :=
  if negb (ino inode =? INO_ROOT) then Ok (k, (-1, [])) else
  let out := readdir_loop ENTRIES offset count [] 0 in
  Ok (k, (zlen out, out)).

Definition make_inode (i : Z) (k : K) : Res (K * option (Inode ProcData)) :=
  k ← alloc_checked SIZEOF_INODE k;
  if i =? INO_ROOT then Ok (k, Some (MkInode INO_ROOT 0 true None)) else
  k ← alloc_checked SIZEOF_CONTENT k;
  '(k, content) ← render i k;
  Ok (k, Some (MkInode i (c_size content) false (Some content))).

Definition proc_root_inode (k : K) : Res (K * option (Inode ProcData)) := make_inode INO_ROOT k.

Definition proc_get_inode (i : Z) (k : K) : Res (K * option (Inode ProcData)) :=
  if INO_CPUINFO <? i then Ok (k, None) else make_inode i k.

Definition proc_sb : SuperBlock K ProcData :=
  MkSuperBlock (Some proc_root_inode) (Some proc_get_inode) (MkInodeOps (Some proc_read) (Some proc_readdir)).

Definition mount (k : K) : Res (K * SuperBlock K ProcData) :=
  k ← alloc_checked SIZEOF_SUPERBLOCK k;
  Ok (k, proc_sb).

End procfs.
