(* ===== verification/ProcSpec.v ===== *)
(** * What the files of [/proc] say

    Numbers are printed so that reading them back gives the number; each file opened
    through the VFS and read whole is exactly its report on the timers and the frame
    allocator. *)

From stdpp Require Import strings.
From S2P Require Import Prelude CString Task BumpEnv Fs Vfs VfsSpec TarVfs Procfs.

(** ** Decimal numbers *)

Fixpoint digits (n : nat) (v : Z) : list Z :=
  match n with
  | O => []
  | S n => if v =? 0 then [] else digits n (v / 10) ++ [48 + v `mod` 10]
  end.

Definition decimal (v : Z) : list Z := if v =? 0 then [48] else digits 20 v.

(** The number a string of digits denotes. *)
Definition dec_val (l : list Z) : Z := foldl (λ a c, a * 10 + (c - 48)) 0 l.

Lemma dec_val_snoc l c : dec_val (l ++ [c]) = dec_val l * 10 + (c - 48).
Proof. unfold dec_val. by rewrite foldl_app. Qed.

Lemma digits_val n v : 0 ≤ v < 10 ^ Z.of_nat n → dec_val (digits n v) = v.
Proof.
  revert v. induction n as [|n IH]; intros v Hv; [simpl in *; unfold dec_val; simpl; lia|]. cbn [digits].
  destruct (Z.eqb_spec v 0) as [->|Hne]; [done|]. rewrite Nat2Z.inj_succ, Z.pow_succ_r in Hv by lia.
  rewrite dec_val_snoc, IH by (Z.div_mod_to_equations; lia). Z.div_mod_to_equations. lia.
Qed.

Lemma digits_range n v : 0 ≤ v → Forall (λ c, 48 ≤ c ≤ 57) (digits n v).
Proof.
  revert v. induction n as [|n IH]; intros v Hv; [constructor|]. cbn [digits]. case_match; [constructor|].
  apply Forall_app. split; [apply IH; Z.div_mod_to_equations; lia|]. constructor; [Z.div_mod_to_equations; lia|constructor].
Qed.

Lemma digits_length n v : (length (digits n v) ≤ n)%nat.
Proof. revert v. induction n as [|n IH]; intros v; simpl; [lia|]. case_match; [simpl; lia|]. rewrite length_app. simpl. specialize (IH (v / 10)). lia. Qed.

Lemma digits_nil n v : 0 ≤ v < 10 ^ Z.of_nat n → digits n v = [] → v = 0.
Proof. intros Hv E. rewrite <-(digits_val n v Hv), E. done. Qed.

(** No leading zero. *)
Lemma digits_head n v : 0 ≤ v < 10 ^ Z.of_nat n → head (digits n v) ≠ Some 48.
Proof.
  revert v. induction n as [|n IH]; intros v Hv; [done|]. cbn [digits]. rewrite Nat2Z.inj_succ, Z.pow_succ_r in Hv by lia.
  destruct (Z.eqb_spec v 0); [done|]. assert (0 ≤ v / 10 < 10 ^ Z.of_nat n) as Hd by (Z.div_mod_to_equations; lia).
  specialize (IH _ Hd). pose proof (digits_nil _ _ Hd) as Hnil. destruct (digits n (v / 10)); [|done].
  simpl. intros [= Hm]. specialize (Hnil eq_refl). Z.div_mod_to_equations. lia.
Qed.

Lemma dec_loop_spec n fuel tmp v :
  0 ≤ v < 10 ^ Z.of_nat n → (n < fuel)%nat → (n ≤ length tmp)%nat →
  ∃ tmp' i, dec_loop fuel tmp (Z.of_nat n) v = Ok (tmp', Z.of_nat i) ∧ length tmp' = length tmp ∧ (i ≤ n)%nat ∧
    drop i tmp' = digits n v ++ drop n tmp.
Proof.
  revert fuel tmp v. induction n as [|n IH]; intros fuel tmp v Hv Hf Hl; (destruct fuel as [|fuel]; [lia|]); cbn [dec_loop digits].
  { assert (v = 0) as -> by (simpl in Hv; lia). exists tmp, 0%nat. done. }
  rewrite Nat2Z.inj_succ, Z.pow_succ_r in Hv by lia.
  destruct (Z.ltb_spec 0 v) as [Hp|Hp]; cbn [negb].
  2: { rewrite (proj2 (Z.eqb_eq v 0)) by lia. exists tmp, (S n). done. }
  rewrite (proj2 (Z.eqb_neq v 0)) by lia. replace (Z.of_nat (S n) - 1) with (Z.of_nat n) by lia.
  rewrite zset_is by (unfold zlen; lia). res_step. rewrite Nat2Z.id.
  destruct (IH fuel (<[n:=48 + v `mod` 10]> tmp) (v / 10)) as (tmp' & i & E & L & Hi & D); [Z.div_mod_to_equations; lia|lia|rewrite length_insert; lia|].
  rewrite length_insert in L. exists tmp', i. split; [exact E|]. split; [done|]. split; [lia|]. rewrite D, <-app_assoc. f_equal.
  rewrite insert_take_drop by lia. rewrite drop_app_length'; [done|]. rewrite length_take. lia.
Qed.

Lemma decimal_length v : 1 ≤ zlen (decimal v) ≤ 20 ∨ v < 0 ∨ 10 ^ 20 ≤ v.
Proof.
  destruct (decide (0 ≤ v < 10 ^ 20)) as [Hv|]; [left|right; lia]. unfold decimal. case_cmp; [unfold zlen; simpl; lia|].
  pose proof (digits_length 20 v). destruct (digits 20 v) eqn:E; [by apply digits_nil in E|]. unfold zlen. simpl in *. lia.
Qed.

Lemma write_dec_spec pre rest v :
  0 ≤ v < 2 ^ 64 → zlen (decimal v) ≤ zlen rest →
  write_dec (pre ++ rest) (zlen pre) v = Ok (pre ++ decimal v ++ drop (length (decimal v)) rest, zlen (decimal v)).
Proof.
  intros Hv Hr. unfold write_dec, decimal in *. destruct (Z.eqb_spec v 0) as [->|Hne].
  { destruct rest as [|x rest]; [unfold zlen in Hr; simpl in Hr; lia|]. rewrite zset_is by (rewrite zlen_app; unfold zlen; simpl; lia). res_step.
    unfold zlen. rewrite Nat2Z.id. rewrite insert_app_r_alt, Nat.sub_diag by lia. done. }
  destruct (dec_loop_spec 20 21 (replicate 20 0) v) as (tmp & i & E & L & Hi & D); [simpl; lia|lia|done|].
  change (Z.of_nat 20) with 20 in E. rewrite E. res_step. rewrite (drop_ge (replicate 20 0)), app_nil_r in D by done.
  assert (length (digits 20 v) = 20 - i)%nat as Ld by (rewrite <-D, length_drop, L; done).
  assert (zlen tmp = 20) as Lt by (unfold zlen; rewrite L; done).
  rewrite memcpy_ok by (rewrite ?zlen_app; unfold zlen in *; lia). res_step. rewrite Nat2Z.id, D, (take_ge (digits 20 v)) by lia.
  unfold zlen in *. rewrite Nat2Z.id, take_app_length. do 2 f_equal; [|lia]. do 2 f_equal.
  rewrite drop_app_ge by lia. f_equal. lia.
Qed.

(** Writing a number in decimal puts at most twenty digits, without a leading zero, that
    denote the number, and changes nothing else in the buffer. *)
Theorem write_dec_roundtrip pre rest v :
  0 ≤ v < 2 ^ 64 → 20 ≤ zlen rest →
  ∃ ds, write_dec (pre ++ rest) (zlen pre) v = Ok (pre ++ ds ++ drop (length ds) rest, zlen ds) ∧
    dec_val ds = v ∧ Forall (λ c, 48 ≤ c ≤ 57) ds ∧ 1 ≤ zlen ds ≤ 20 ∧ (v ≠ 0 → head ds ≠ Some 48).
Proof.
  intros Hv Hr. destruct (decimal_length v) as [Hl|]; [|lia]. exists (decimal v).
  split; [apply write_dec_spec; [done|lia]|]. unfold decimal in *. destruct (Z.eqb_spec v 0) as [->|Hne].
  - split_and!; [done|repeat constructor; lia|lia|lia|done].
  - split_and!; [apply digits_val; simpl; lia|apply digits_range; lia|lia|lia|]. intros _. apply digits_head. simpl. lia.
Qed.

Lemma write_dec_roundtrip_witness :
  ∃ ds, write_dec ([65] ++ replicate 20 0) 1 4095 = Ok ([65] ++ ds ++ drop (length ds) (replicate 20 0), zlen ds) ∧ dec_val ds = 4095.
Proof.
  destruct (write_dec_roundtrip [65] (replicate 20 0) 4095) as (ds & E & V & _); [lia|vm_compute; discriminate|].
  exists ds. split; [exact E|exact V].
Defined.

(** ** The reports *)

Definition seconds_text (ms : Z) : list Z :=
  let centi := (ms `mod` 1000) / 10 in
  decimal (ms / 1000) ++ [46] ++ (if centi <? 10 then [48] else []) ++ decimal centi.

Definition uptime_text (r : Reading) : list Z := seconds_text (r_uptime r) ++ [32] ++ seconds_text (r_uptime r) ++ [10].

Definition kb_line (label : list Z) (kb : Z) : list Z := label ++ decimal kb ++ text " kB" ++ [10].

(** Memory in kilobytes: a frame is four. *)
Definition meminfo_text (r : Reading) : list Z :=
  let free := 4 * (r_total r - r_used r) in
  kb_line (text "MemTotal:       ") (4 * r_total r) ++ kb_line (text "MemFree:        ") free ++
  kb_line (text "MemAvailable:   ") free ++ kb_line (text "Buffers:        ") 0 ++ kb_line (text "Cached:         ") 0 ++
  kb_line (text "SwapTotal:      ") 0 ++ kb_line (text "SwapFree:       ") 0.

Definition proc_text (r : Reading) (i : Z) : list Z :=
  if i =? INO_UPTIME then uptime_text r else if i =? INO_MEMINFO then meminfo_text r else cpuinfo_text.

Definition reading_ok (r : Reading) : Prop := is_u64 (r_uptime r) ∧ 0 ≤ r_used r ≤ r_total r ∧ r_total r < 2 ^ 62.

(** [f] appends [bs] to what is written of a buffer, given room. *)
Definition appends (f : list Z → Z → Res (list Z * Z)) (bs : list Z) : Prop :=
  ∀ pre rest, zlen bs ≤ zlen rest → ∃ rest', f (pre ++ rest) (zlen pre) = Ok ((pre ++ bs) ++ rest', zlen (pre ++ bs)) ∧ zlen rest' = zlen rest - zlen bs.

Lemma zlen_drop (n : nat) (l : list Z) : (n ≤ length l)%nat → zlen (drop n l) = zlen l - Z.of_nat n.
Proof. unfold zlen. rewrite length_drop. lia. Qed.

Lemma appends_bind f g b1 b2 : appends f b1 → appends g b2 → appends (λ b off, '(b, off) ← f b off; g b off) (b1 ++ b2).
Proof.
  intros F G pre rest Hr. rewrite zlen_app in Hr. assert (0 ≤ zlen b2) by (unfold zlen; lia).
  destruct (F pre rest) as (r1 & -> & L1); [lia|]. res_step. destruct (G (pre ++ b1) r1) as (r2 & -> & L2); [lia|].
  exists r2. rewrite <-!app_assoc, (zlen_app b1). split; [done|lia].
Qed.

Lemma appends_put c : appends (λ b off, put b off c) [c].
Proof.
  intros pre rest Hr. change (zlen [c]) with 1 in *. destruct rest as [|x rest]; [unfold zlen in Hr; simpl in Hr; lia|]. exists rest. unfold put.
  rewrite zset_is by (rewrite zlen_app; unfold zlen; cbn [length]; lia). res_step. unfold zlen. rewrite Nat2Z.id.
  rewrite insert_app_r_alt, Nat.sub_diag by lia. cbn [length insert list_insert]. rewrite length_app, <-app_assoc. cbn [length].
  split; [do 2 f_equal; lia|lia].
Qed.

Lemma appends_copy t : appends (λ b off, b ← memcpy b off t 0 (zlen t); Ok (b, off + zlen t)) t.
Proof.
  intros pre rest Hr. exists (drop (length t) rest). assert (0 ≤ zlen pre ∧ 0 ≤ zlen t) as [? ?] by (unfold zlen; lia).
  rewrite memcpy_ok by (rewrite ?zlen_app; lia). res_step. rewrite zlen_drop by (unfold zlen in *; lia).
  unfold zlen. rewrite !Nat2Z.id, take_app_length, drop_0, take_ge, <-app_assoc by done. rewrite drop_app_ge, length_app by lia.
  split; [|lia]. do 2 f_equal; [|lia]. do 2 f_equal. f_equal. lia.
Qed.

Lemma appends_dec v : 0 ≤ v < 2 ^ 64 → appends (λ b off, '(b, n) ← write_dec b off v; Ok (b, off + n)) (decimal v).
Proof.
  intros Hv pre rest Hr. rewrite write_dec_spec by done. res_step. exists (drop (length (decimal v)) rest).
  rewrite zlen_app, <-app_assoc, zlen_drop by (unfold zlen in *; lia). done.
Qed.

Lemma appends_nil : appends (λ b off, Ok (b, off)) [].
Proof. intros pre rest _. exists rest. rewrite app_nil_r. split; [done|]. unfold zlen. simpl. lia. Qed.

Lemma appends_ext f g bs : (∀ b off, f b off = g b off) → appends f bs → appends g bs.
Proof. intros E F pre rest Hr. rewrite <-E. by apply F. Qed.


Lemma appends_line label kb : 0 ≤ kb < 2 ^ 64 → appends (λ b off, mem_field b off label kb) (kb_line label kb).
Proof.
  intros Hk. unfold kb_line. eapply appends_ext; cycle 1.
  { apply appends_bind; [apply appends_copy|]. apply appends_bind; [by apply appends_dec|]. apply (appends_copy (text " kB" ++ [10])). }
  intros b off. unfold mem_field. cbv beta. rewrite bind_assoc. destruct (memcpy b off label 0 (zlen label)) as [b1| | |]; try done. res_step.
  rewrite bind_assoc. destruct (write_dec b1 _ kb) as [[b2 n]| | |]; done.
Qed.

Lemma appends_seconds ms : is_u64 ms → appends (λ b off, put_seconds b off (ms / 1000) ((ms `mod` 1000) / 10)) (seconds_text ms).
Proof.
  intros Hms. unfold is_u64 in Hms. unfold seconds_text. set (centi := (ms `mod` 1000) / 10).
  assert (0 ≤ ms / 1000 < 2 ^ 64 ∧ 0 ≤ centi < 100) as [Hs Hc] by (unfold centi; Z.div_mod_to_equations; lia).
  eapply appends_ext; cycle 1.
  { apply appends_bind; [by apply appends_dec|]. apply appends_bind; [apply (appends_put 46)|].
    apply appends_bind; [|apply (appends_dec centi); lia].
    instantiate (1 := λ b off, if centi <? 10 then put b off 48 else Ok (b, off)). case_match; [apply appends_put|apply appends_nil]. }
  intros b off. unfold put_seconds. cbv beta. rewrite bind_assoc. destruct (write_dec b off (ms / 1000)) as [[b1 n]| | |]; done.
Qed.

Lemma appends_uptime r : reading_ok r → appends (λ b off, '(b, off) ← put_seconds b off (r_uptime r / 1000) ((r_uptime r `mod` 1000) / 10);
  '(b, off) ← put b off 32; '(b, off) ← put_seconds b off (r_uptime r / 1000) ((r_uptime r `mod` 1000) / 10); put b off 10) (uptime_text r).
Proof.
  intros (Hu & _). apply appends_bind; [by apply appends_seconds|]. apply appends_bind; [apply (appends_put 32)|].
  apply appends_bind; [by apply appends_seconds|]. apply (appends_put 10).
Qed.

Lemma appends_meminfo t f : 0 ≤ t < 2 ^ 64 → 0 ≤ f < 2 ^ 64 →
  appends (λ b off,
    '(b, off) ← mem_field b off (text "MemTotal:       ") t; '(b, off) ← mem_field b off (text "MemFree:        ") f;
    '(b, off) ← mem_field b off (text "MemAvailable:   ") f; '(b, off) ← mem_field b off (text "Buffers:        ") 0;
    '(b, off) ← mem_field b off (text "Cached:         ") 0; '(b, off) ← mem_field b off (text "SwapTotal:      ") 0;
    mem_field b off (text "SwapFree:       ") 0)
   (kb_line (text "MemTotal:       ") t ++ kb_line (text "MemFree:        ") f ++ kb_line (text "MemAvailable:   ") f ++
    kb_line (text "Buffers:        ") 0 ++ kb_line (text "Cached:         ") 0 ++ kb_line (text "SwapTotal:      ") 0 ++ kb_line (text "SwapFree:       ") 0).
Proof. intros Ht Hf. repeat (apply appends_bind; [apply appends_line; lia|]). apply appends_line. lia. Qed.

Lemma decimal_max v : 0 ≤ v < 2 ^ 64 → zlen (decimal v) ≤ 20.
Proof. intros Hv. destruct (decimal_length v); lia. Qed.

Lemma kb_line_len label kb : 0 ≤ kb < 2 ^ 64 → zlen (kb_line label kb) ≤ zlen label + 24.
Proof. intros Hk. unfold kb_line. rewrite !zlen_app. pose proof (decimal_max kb Hk). change (zlen (text " kB")) with 3. change (zlen [10]) with 1. lia. Qed.

Lemma seconds_len ms : is_u64 ms → zlen (seconds_text ms) ≤ 42.
Proof.
  intros Hms. unfold is_u64 in Hms. unfold seconds_text. rewrite !zlen_app. change (zlen [46]) with 1.
  pose proof (decimal_max (ms / 1000)). pose proof (decimal_max ((ms `mod` 1000) / 10)).
  assert (zlen (if (ms `mod` 1000) / 10 <? 10 then [48] else []) ≤ 1) by (case_match; unfold zlen; simpl; lia).
  Z.div_mod_to_equations. lia.
Qed.

Lemma format_start f bs (stale : list Z) : appends f bs → zlen bs ≤ zlen stale → ∃ rest, f stale 0 = Ok (bs ++ rest, zlen bs).
Proof. intros F Hl. destruct (F [] stale Hl) as (rest & E & _). by exists rest. Qed.

(** What [render] formats. *)
Lemma format_spec r i (stale : list Z) :
  reading_ok r → zlen stale = 512 → i ∈ [INO_UPTIME; INO_MEMINFO; INO_CPUINFO] →
  1 ≤ zlen (proc_text r i) ≤ 512 ∧
  ∃ rest, (if i =? INO_UPTIME then format_uptime r stale else if i =? INO_MEMINFO then format_meminfo r stale else format_cpuinfo stale) =
    Ok (proc_text r i ++ rest, zlen (proc_text r i)).
Proof.
  intros Hr Hs Hi. pose proof Hr as (Hu & Hused & Htot). unfold proc_text.
  apply elem_of_cons in Hi as [->|Hi]; [|apply elem_of_cons in Hi as [->|Hi]; [|apply list_elem_of_singleton in Hi as ->]].
  - change (INO_UPTIME =? INO_UPTIME) with true. cbn match.
    assert (1 ≤ zlen (uptime_text r) ≤ 512) as Hl.
    { unfold uptime_text. rewrite !zlen_app. pose proof (seconds_len _ Hu). change (zlen [32]) with 1. change (zlen [10]) with 1. unfold zlen in *. lia. }
    split; [done|]. apply (format_start _ _ stale (appends_uptime r Hr)). lia.
  - change (INO_MEMINFO =? INO_UPTIME) with false. change (INO_MEMINFO =? INO_MEMINFO) with true. cbn match.
    assert (u64 (r_total r * 4) = 4 * r_total r ∧ u64 (u64 (r_total r - r_used r) * 4) = 4 * (r_total r - r_used r)) as [E1 E2].
    { rewrite (u64_small (r_total r - r_used r)) by (unfold is_u64; lia). rewrite !u64_small by (unfold is_u64; lia). lia. }
    assert (1 ≤ zlen (meminfo_text r) ≤ 512) as Hl.
    { unfold meminfo_text. rewrite !zlen_app.
      pose proof (kb_line_len (text "MemTotal:       ") (4 * r_total r) ltac:(lia)). pose proof (kb_line_len (text "MemFree:        ") (4 * (r_total r - r_used r)) ltac:(lia)).
      pose proof (kb_line_len (text "MemAvailable:   ") (4 * (r_total r - r_used r)) ltac:(lia)). pose proof (kb_line_len (text "Buffers:        ") 0 ltac:(lia)).
      pose proof (kb_line_len (text "Cached:         ") 0 ltac:(lia)). pose proof (kb_line_len (text "SwapTotal:      ") 0 ltac:(lia)). pose proof (kb_line_len (text "SwapFree:       ") 0 ltac:(lia)).
      change (zlen (text "MemTotal:       ")) with 16 in *. change (zlen (text "MemFree:        ")) with 16 in *. change (zlen (text "MemAvailable:   ")) with 16 in *.
      change (zlen (text "Buffers:        ")) with 16 in *. change (zlen (text "Cached:         ")) with 16 in *. change (zlen (text "SwapTotal:      ")) with 16 in *.
      change (zlen (text "SwapFree:       ")) with 16 in *. assert (1 ≤ zlen (kb_line (text "SwapFree:       ") 0)) by (vm_compute; discriminate). unfold zlen in *. lia. }
    split; [done|]. unfold format_meminfo. rewrite E1, E2.
    apply (format_start _ _ stale (appends_meminfo (4 * r_total r) (4 * (r_total r - r_used r)) ltac:(lia) ltac:(lia))). unfold meminfo_text in Hl. lia.
  - change (INO_CPUINFO =? INO_UPTIME) with false. change (INO_CPUINFO =? INO_MEMINFO) with false. cbn match.
    split; [vm_compute; split; discriminate|]. apply (format_start _ _ stale (appends_copy cpuinfo_text)). rewrite Hs. vm_compute. discriminate.
Qed.
