(* ===== verification/ProcVfs.v ===== *)
(** * Reading [/proc] through the VFS

    The synthetic file system keeps the promise of a driver, so the files of [/proc]
    open by path and read back as their reports. *)

From stdpp Require Import strings.
From S2P Require Import Prelude CString Task BumpEnv Fs Vfs VfsSpec TarVfs Procfs ProcSpec.

Section driver.
Context {K : Type} `{KernelEnvLaws K}.
Context (Hstop : ¬ can_fail (K := K)).

Lemma alloc_checked_spec n (k : K) : 0 < n → ensures (alloc_checked n k) (λ _, True).
Proof using All.
  intros Hn. unfold alloc_checked. destruct (kmalloc_cases n k) as [->|[[k' E]|(k' & p & E & Hp & _)]]; [done| |]; [|rewrite E].
  - exfalso. apply Hstop. by eapply null_can_fail, E.
  - res_step. by rewrite (proj2 (Z.eqb_neq p 0) Hp).
Qed.

Context (r : Reading) (Hr : reading_ok r) (stale : list Z) (Hstale : zlen stale = 512).

(** The file system as it is while [r] is what the timers and the allocator say. *)
Notation sb := (proc_sb (K := K) (λ _, r) stale).

Definition proc_entries : list dentry := (λ e, (e_ino e, e_name e)) <$> ENTRIES.

#[local] Instance proc_dirfs : DirFs sb := {
  fs_inode i := if i =? 0 then MkInode 0 0 true None
                else MkInode i (zlen (proc_text r i)) false (Some (MkContent (Some (proc_text r i)) (zlen (proc_text r i))));
  fs_valid i := 0 ≤ i ≤ 3;
  fs_dir i := if i =? 0 then Some proc_entries else None;
  fs_contents i := if i =? 0 then None else Some (proc_text r i);
  fs_root := 0;
}.

Lemma readdir_loop_fill es off count out pos :
  readdir_loop es off count out pos = out ++ encode (fill ((λ e, (e_ino e, e_name e)) <$> es) off count pos (zlen out)).
Proof.
  revert out pos. induction es as [|e es IH]; intros out pos; cbn [readdir_loop fmap list_fmap fill]; [by rewrite app_nil_r|].
  unfold dlen at 1 2 3 4. cbn [snd]. replace (9 + zlen (e_name e)) with (8 + zlen (e_name e) + 1) by lia. repeat case_match; bool_arith.
  - by rewrite app_nil_r.
  - rewrite IH, encode_cons, <-app_assoc. cbn [fst snd]. do 4 f_equal.
    pose proof (dirent_len (e_ino e, e_name e)) as Hd. unfold dlen in Hd. cbn [fst snd] in Hd. rewrite zlen_app, Hd. lia.
  - apply IH.
Qed.

Lemma valid_cases i : 0 ≤ i ≤ 3 → i = 0 ∨ i ≠ 0 ∧ i ∈ [INO_UPTIME; INO_MEMINFO; INO_CPUINFO].
Proof.
  clear. intros Hi. destruct (decide (i = 0)); [by left|right]. split; [done|]. unfold INO_UPTIME, INO_MEMINFO, INO_CPUINFO.
  assert (i = 1 ∨ i = 2 ∨ i = 3) as [->|[->| ->]] by lia; set_solver.
Qed.

Lemma text_len i : 0 ≤ i ≤ 3 → i ≠ 0 → 1 ≤ zlen (proc_text r i) ≤ 512.
Proof using Hr Hstale. intros Hi Hn. destruct (valid_cases i Hi) as [|[_ Hm]]; [done|]. by apply (format_spec r i stale). Qed.

Lemma make_inode_spec i k : 0 ≤ i ≤ 3 → gives_inode (make_inode (λ _, r) stale i k) (fs_inode (sb := sb) i).
Proof using All.
  intros Hi. unfold make_inode, gives_inode. eapply ensures_bind; [by apply alloc_checked_spec|]. intros k1 _.
  destruct (valid_cases i Hi) as [->|[Hn Hm]]; [by left|]. change INO_ROOT with 0. rewrite (proj2 (Z.eqb_neq i 0) Hn).
  eapply ensures_bind; [by apply alloc_checked_spec|]. intros k2 _. unfold render.
  destruct (format_spec r i stale Hr Hstale Hm) as (Hl & rest & E).
  assert ((if i =? INO_UPTIME then r0 ← format_uptime r stale; Ok (Some r0)
       else if i =? INO_MEMINFO then r0 ← format_meminfo r stale; Ok (Some r0)
       else if i =? INO_CPUINFO then r0 ← format_cpuinfo stale; Ok (Some r0) else Ok None) = Ok (Some (proc_text r i ++ rest, zlen (proc_text r i)))) as ->.
  { apply elem_of_cons in Hm as [->|Hm]; [|apply elem_of_cons in Hm as [->|Hm]; [|apply list_elem_of_singleton in Hm as ->]]; cbn [Z.eqb] in E |- *;
      [change (INO_UPTIME =? INO_UPTIME) with true in *|change (INO_MEMINFO =? INO_UPTIME) with false in *; change (INO_MEMINFO =? INO_MEMINFO) with true in *
      |change (INO_CPUINFO =? INO_UPTIME) with false in *; change (INO_CPUINFO =? INO_MEMINFO) with false in *; change (INO_CPUINFO =? INO_CPUINFO) with true in *];
      cbn match in E |- *; rewrite E; done. }
  res_step. rewrite bind_assoc. eapply ensures_bind; [apply alloc_checked_spec; pose proof (text_len i Hi Hn); lia|]. intros k3 _.
  assert (slice (proc_text r i ++ rest) 0 (zlen (proc_text r i)) = Some (proc_text r i)) as ->.
  { unfold slice. rewrite zlen_app. rewrite (proj2 (Z.ltb_ge (zlen (proc_text r i)) 0)), (proj2 (Z.ltb_ge (_ + _) _)) by (unfold zlen; lia).
    cbn. unfold zlen. by rewrite Nat2Z.id, drop_0, take_app_length. }
  res_step. left. cbn [fs_inode proc_dirfs]. by rewrite (proj2 (Z.eqb_neq i 0) Hn).
Qed.

#[local] Instance proc_dirfs_laws : DirFsLaws sb.
Proof using All.
  split.
  - eexists. split; [done|]. intros i off count k Hi Ho Hc. cbn [fs_inode fs_dir proc_dirfs] in *. unfold proc_readdir.
    destruct (Z.eqb_spec i 0) as [->|Hn]; cbn [ino]; change INO_ROOT with 0.
    + cbn [Z.eqb negb]. rewrite readdir_loop_fill. split; done.
    + by rewrite (proj2 (Z.eqb_neq i 0) Hn).
  - intros i es Hi. cbn [fs_dir proc_dirfs fs_valid]. destruct (i =? 0); [|done]. intros [= <-]. split; [vm_compute; done|].
    repeat constructor; vm_compute; congruence.
  - intros i bs Hi. cbn [fs_valid fs_inode fs_contents proc_dirfs] in *. destruct (Z.eqb_spec i 0) as [->|Hn]; [done|]. intros [= <-].
    pose proof (text_len i Hi Hn) as Hl. split; [done|]. split; [lia|]. eexists. split; [done|]. intros off count k Ho Hc.
    unfold proc_read. cbn [private_data]. set (bs := proc_text r i) in *. destruct (Z.leb_spec (zlen bs) off) as [Hoff|Hoff].
    { rewrite drop_ge by (unfold zlen in *; lia). by rewrite take_nil. }
    rewrite u64_small by (unfold is_u64; lia). set (m := if zlen bs <? off + count then zlen bs - off else count).
    assert (0 ≤ m ∧ off + m ≤ zlen bs ∧ (m = count ∨ off + m = zlen bs ∧ m ≤ count)) as (M0 & M1 & M2) by (unfold m; case_cmp; lia).
    assert (slice bs off m = Some (take (Z.to_nat count) (drop (Z.to_nat off) bs))) as Es.
    { unfold slice. rewrite (proj2 (Z.ltb_ge off 0)), (proj2 (Z.ltb_ge m 0)), (proj2 (Z.ltb_ge (zlen bs) _)) by lia. cbn [orb]. f_equal.
      destruct M2 as [->|[E ?]]; [done|]. rewrite !take_ge; [done|rewrite length_drop; unfold zlen in *; lia..]. }
    rewrite Es. res_step. apply slice_length in Es as Em. cbn [ensures]. split; [done|]. rewrite Em. unfold i64_of. rewrite u64_small by (unfold is_u64; lia).
    by rewrite (proj2 (Z.ltb_lt _ _)) by lia.
  - eexists. split; [done|]. intros i k Hi. cbn [fs_valid proc_dirfs] in Hi. unfold proc_get_inode.
    change INO_CPUINFO with 3. rewrite (proj2 (Z.ltb_ge 3 i)) by lia. by apply make_inode_spec.
  - eexists. split; [done|]. intros k. apply (make_inode_spec 0). lia.
  - cbn. lia.
Qed.

Lemma proc_fuel_ok : fuel_ok sb 4.
Proof. split; [lia|]. intros i es Hi. cbn [fs_dir proc_dirfs]. destruct (i =? 0); [|done]. intros [= <-]. simpl. lia. Qed.

(** C34. A file of [/proc] reads back as its report: once the synthetic file system is
    mounted at [/proc], opening one of its names through the VFS and reading it whole gives
    exactly the report on the timers and the frame allocator, followed by a NUL.  The
    kernel's heap is one that stops rather than return null. *)
Theorem proc_file_reads_back e n dir fresh (v : Vfs K ProcData) ms :
  e ∈ ENTRIES → (1 ≤ n)%nat → s_mounts v = (text "/proc" ++ [0], sb) :: ms →
  zlen dir = CHUNK_SIZE → (∀ n, 0 ≤ n → zlen (fresh n) = n) →
  ensures (open 4 dir (text "/proc" ++ replicate n 47 ++ e_name e ++ [0]) v) (λ '(v', f),
    f ≠ 0 ∧ ensures (read_whole_file fresh f v') (λ '(_, res), ∃ p, p ≠ 0 ∧ res = Some (p, proc_text r (e_ino e) ++ [0]))).
Proof using All.
  intros He Hn Hms Hdir Hfr. pose proof proc_dirfs_laws as Hlaws.
  assert (0 ≤ e_ino e ≤ 3 ∧ e_ino e ≠ 0 ∧ comp_ok (e_name e) ∧ find_name (e_name e) proc_entries = Some (e_ino e)) as (Hi & Hi0 & Hc & Hfind).
  { clear -He. repeat (apply elem_of_cons in He as [->|He]; [split_and!; vm_compute; try congruence; repeat constructor; congruence|]). by apply not_elem_of_nil in He. }
  assert (resolve_mount v (text "/proc" ++ replicate n 47 ++ e_name e ++ [0]) = Ok (Some sb, replicate n 47 ++ join [e_name e] ++ [0])) as Hm.
  { unfold resolve_mount. rewrite Hms. destruct n as [|n]; [lia|]. reflexivity. }
  eapply ensures_mono; [apply (open_spec sb v 4 dir _ _ n [e_name e] [] Hm)|]; try done.
  { by apply Forall_singleton. } { apply proc_fuel_ok. }
  intros [v' f] (_ & _ & Hopen). cbn [fs_root proc_dirfs fs_resolve fs_dir] in Hopen. cbn [Z.eqb mbind option_bind] in Hopen.
  rewrite Hfind in Hopen. destruct Hopen as [[Hf0 Hfiles]|(_ & _ & Hfail)]; [|by destruct Hstop]. split; [done|].
  eapply ensures_mono; [apply (read_whole_file_spec sb v' f (e_ino e) (proc_text r (e_ino e)))|]; try done.
  { cbn [fs_contents proc_dirfs]. by rewrite (proj2 (Z.eqb_neq _ 0)). }
  { rewrite Hfiles. apply lookup_insert_eq. }
  intros [v2 res] [[_ ?]|?]; [by destruct Hstop|done].
Qed.

End driver.

(** ** A heap that stops

    The bump heap, which halts as [kmalloc] does where the other returns null. *)

Record Stop := MkStop { s_bump : Bump }.

Definition stop_alloc (n : Z) (s : Stop) : Res (Stop * Z) :=
  '(b, p) ← bump_alloc n (s_bump s);
  if (0 <? n) && (p =? 0) then Halt else Ok (MkStop b, p).

#[export] Instance stop_env : KernelEnv Stop := {
  kmalloc := stop_alloc;
  kfree p s := b ← bump_free p (s_bump s); Ok (MkStop b);
  k_destroy c s := b ← k_destroy c (s_bump s); Ok (MkStop b);
  k_create s := '(b, c) ← k_create (s_bump s); Ok (MkStop b, c);
  k_clone d c s := b ← k_clone d c (s_bump s); Ok (MkStop b);
  k_live s := bump_live (s_bump s);
  k_space s := k_space (s_bump s);
}.

#[export] Instance stop_env_laws : KernelEnvLaws Stop.
Proof.
  split; simpl.
  - intros n [b]. unfold stop_alloc. simpl. destruct (kmalloc_total n b) as [[[b' p] E]|E]; simpl in E; rewrite E; res_step; [|by right].
    case_match; [by right|left; by eexists].
  - intros n [b] [b'] p. unfold stop_alloc. simpl. destruct (bump_alloc n b) as [[b1 p1]| | |] eqn:E; try done. res_step.
    case_match; [done|]. intros [= -> ->]. exact (kmalloc_spec n b b' p E).
  - intros p [b] Hl. destruct (@kfree_spec Bump bump_env bump_env_laws p b Hl) as (b' & E & L). simpl in E |- *. rewrite E. by eexists.
  - intros [b]. done.
  - intros c s. by eexists.
  - intros [b]. destruct (k_create_spec b) as [(b' & c & E & L)|E]; simpl in E |- *; rewrite E; [left; res_step; by eexists _, _|by right].
  - intros d c [b]. destruct (k_clone_spec d c b) as [(b' & E & L)|E]; [left; simpl in E |- *; injection E as <-; by eexists|by simpl in E].
  - done.
  - intros n [b] [b'] p c. unfold stop_alloc. simpl. destruct (bump_alloc n b) as [[b1 p1]| | |] eqn:E; try done. res_step.
    case_match; [done|]. intros [= -> ->]. exact (kmalloc_space n b b' p c E).
  - intros p [b] [b'] c. simpl. destruct (bump_free p b) as [b1| | |] eqn:E; try done. intros [= ->]. exact (kfree_space p b b' c E).
  - intros [b] [b'] c. simpl. destruct (bump_create b) as [[b1 c1]| | |] eqn:E; try done. intros [= -> ->]. exact (k_create_space b b' c E).
  - intros d c [b] [b'] [= <-]. exact (k_clone_space d c b _ eq_refl).
  - intros c [b] [b'] [= <-]. exact (k_destroy_space c b _ eq_refl).
Qed.

Lemma stop_stops : ¬ can_fail (K := Stop).
Proof.
  intros (n & s & s' & Hn & E). simpl in E. unfold stop_alloc in E. destruct (bump_alloc n (s_bump s)) as [[b p]| | |]; try done.
  cbn in E. rewrite (proj2 (Z.ltb_lt 0 n)) in E by done. destruct (Z.eqb_spec p 0); [done|]. cbn in E. congruence.
Qed.

(** "/proc/uptime" after 1234560 ms. *)
Lemma proc_file_reads_back_witness :
  let r := MkReading 1234560 32768 1000 in
  let v := MkVfs (MkStop (MkBump 0x1000 [])) None [(text "/proc" ++ [0], proc_sb (λ _, r) (replicate 512 7))] ∅ in
  text "1234.56 1234.56" ++ [10] = proc_text r INO_UPTIME ∧
  ensures (open 4 (replicate 512 0) (text "/proc" ++ replicate 1 47 ++ text "uptime" ++ [0]) v) (λ '(v', f),
    f ≠ 0 ∧ ensures (read_whole_file (λ n, replicate (Z.to_nat n) 0) f v') (λ '(_, res), ∃ p, p ≠ 0 ∧ res = Some (p, proc_text r INO_UPTIME ++ [0]))).
Proof.
  intros r v. split; [vm_compute; reflexivity|].
  apply (proc_file_reads_back stop_stops r ltac:(unfold reading_ok, is_u64; simpl; lia) (replicate 512 7) ltac:(reflexivity)
    (MkEntry INO_UPTIME (text "uptime")) 1 (replicate 512 0) (λ n, replicate (Z.to_nat n) 0) v []).
  - apply list_elem_of_here.
  - lia.
  - reflexivity.
  - reflexivity.
  - intros n Hn. unfold zlen. rewrite length_replicate. lia.
Defined.
