(* ===== verification/Stdin.v ===== *)
(** * Line input ([sys_read_stdin] of [cpu/syscall.cpp])

    The line being typed is kept by the kernel; a read of file 0 edits it from the
    keyboard until a newline and then hands it out.  Interrupts are off in a system
    call, so the keyboard's queue grows only while the reader has given way to the
    other tasks: what happens then is an argument, one run of the outside world per
    yield. *)

From S2P Require Import Prelude CString Tty TtySpec Keyboard.

Definition STDIN_LINE_CAP : Z := 256.

Record Stdin := MkStdin {
  stdin_line : list Z;
  stdin_line_len : Z;
  stdin_line_pos : Z;
  stdin_line_ready : bool;
}.

Definition stdin_zero : Stdin := MkStdin (replicate (Z.to_nat STDIN_LINE_CAP) 0) 0 0 false.

(** What a read works on. *)
Record Io := MkIo { i_stdin : Stdin; i_kbd : Kbd; i_tty : Tty }.

(** One character of the editing loop. *)
Definition edit_char (c : Z) (st : Stdin) (t : Tty) : Res (Stdin * Tty) :=
  if c =? 8 then
    if 0 <? stdin_line_len st then
      let st := MkStdin (stdin_line st) (stdin_line_len st - 1) (stdin_line_pos st) (stdin_line_ready st) in
      t ← print_char 8 t;
      Ok (st, t)
    else Ok (st, t)
  else
    '(st, t) ←
      (if stdin_line_len st <? STDIN_LINE_CAP - 1 then
         l ← or_fault (zset (stdin_line st) (stdin_line_len st) c);
         t ← print_char c t;
         Ok (MkStdin l (stdin_line_len st + 1) (stdin_line_pos st) (stdin_line_ready st), t)
       else Ok (st, t) : Res (Stdin * Tty));
    Ok (MkStdin (stdin_line st) (stdin_line_len st) (stdin_line_pos st) ((c =? 10) || stdin_line_ready st), t).

(** [while (!stdin_line_ready)] up to a yield: the state, and whether the line is
    ready. *)
Fixpoint edit_loop (fuel : nat) (s : Io) : Res (Io * bool) :=
  match fuel with
  | O => NoFuel
  | S fuel =>
      if stdin_line_ready (i_stdin s) then Ok (s, true) else
      '(k, c) ← getchar (i_kbd s);
      if c =? 0 then Ok (MkIo (i_stdin s) k (i_tty s), false) else
      '(st, t) ← edit_char c (i_stdin s) (i_tty s);
      edit_loop fuel (MkIo st k t)
  end.

(** The ring holds fewer than [BUFFER_SIZE] characters. *)
Definition edit_fuel : nat := S (Z.to_nat BUFFER_SIZE).

(** The same loop over the yields; the world's runs that are left when the line is
    ready are not used.  False when the reader is still waiting after the last. *)
Fixpoint wait_line (world : list (Kbd * Tty → Res (Kbd * Tty))) (s : Io) : Res (Io * bool) :=
  '(s, ready) ← edit_loop edit_fuel s;
  if ready : bool then Ok (s, true) else
  match world with
  | [] => Ok (s, false)
  | w :: world =>
      '(k, t) ← w (i_kbd s, i_tty s);
      wait_line world (MkIo (i_stdin s) k t)
  end.

(** Handing out what is left of the line: the bytes copied to the user. *)
Definition take_line (len : Z) (st : Stdin) : Res (Stdin * list Z) :=
  let avail := u64 (stdin_line_len st - stdin_line_pos st) in
  let n := if len <? avail then len else avail in
  bs ← or_fault (slice (stdin_line st) (stdin_line_pos st) n);
  let pos := stdin_line_pos st + n in
  Ok (if stdin_line_len st <=? pos then MkStdin (stdin_line st) 0 0 false
      else MkStdin (stdin_line st) (stdin_line_len st) pos (stdin_line_ready st), bs).

(** No bytes when the reader is still waiting. *)
Definition sys_read_stdin (world : list (Kbd * Tty → Res (Kbd * Tty))) (len : Z) (s : Io) : Res (Io * option (list Z)) :=
  '(s, ready) ← wait_line world s;
  if ready : bool then
    '(st, bs) ← take_line len (i_stdin s);
    Ok (MkIo st (i_kbd s) (i_tty s), Some bs)
  else Ok (s, None).

(** ** The line editor

    The reference: a line is what is typed up to a newline, a backspace takes the last
    character back, and what does not fit in 255 is dropped. *)

Inductive Edited := Typing (line : list Z) | Complete (line rest : list Z).

Definition type_char (line : list Z) (c : Z) : list Z := if decide (length line < 255)%nat then line ++ [c] else line.

Fixpoint editor (line cs : list Z) : Edited :=
  match cs with
  | [] => Typing line
  | c :: cs =>
      if c =? 8 then editor (removelast line) cs
      else if c =? 10 then Complete (type_char line c) cs
      else editor (type_char line c) cs
  end.

(** What the editor echoes. *)
Fixpoint echo (line cs : list Z) : list Z :=
  match cs with
  | [] => []
  | c :: cs =>
      if c =? 8 then (if line is [] then [] else [8]) ++ echo (removelast line) cs
      else (if decide (length line < 255)%nat then [c] else []) ++
           (if c =? 10 then [] else echo (type_char line c) cs)
  end.

Fixpoint print_all (cs : list Z) (t : Tty) : Res Tty :=
  match cs with
  | [] => Ok t
  | c :: cs => t ← print_char c t; print_all cs t
  end.

(** ** The state of the line *)

Definition typing (st : Stdin) (line : list Z) : Prop :=
  stdin_line_ready st = false ∧ stdin_line_pos st = 0 ∧ stdin_line_len st = zlen line ∧ zlen line ≤ 255 ∧
  zlen (stdin_line st) = STDIN_LINE_CAP ∧ take (length line) (stdin_line st) = line.

Definition holding (st : Stdin) (left : list Z) : Prop :=
  stdin_line_ready st = true ∧ left ≠ [] ∧ 0 ≤ stdin_line_pos st ∧ stdin_line_len st = stdin_line_pos st + zlen left ∧ stdin_line_len st ≤ 255 ∧
  zlen (stdin_line st) = STDIN_LINE_CAP ∧ take (length left) (drop (Z.to_nat (stdin_line_pos st)) (stdin_line st)) = left.

Lemma stdin_zero_typing : typing stdin_zero [].
Proof. by repeat split. Qed.

Lemma typing_holding st line :
  typing st line → line ≠ [] → holding (MkStdin (stdin_line st) (stdin_line_len st) (stdin_line_pos st) true) line.
Proof. intros (_ & Hp & Hl & Hb & Hc & Ht) Hne. unfold holding. cbn. rewrite Hp. cbn. split_and!; (done || lia). Qed.

Lemma type_char_fits line c : zlen line ≤ 255 → zlen (type_char line c) ≤ 255.
Proof. intros H. unfold type_char, zlen in *. case_decide; [rewrite length_app; simpl; lia|lia]. Qed.

Lemma removelast_take {A} (l : list A) : removelast l = take (pred (length l)) l.
Proof. induction l as [|x [|y l] IH]; [done..|]. change (removelast (x :: y :: l)) with (x :: removelast (y :: l)). by rewrite IH. Qed.

(** One character typed, as the reference edits and echoes it. *)
Lemma edit_char_spec c st line :
  typing st line → c ≠ 10 →
  ∃ st', typing st' (if c =? 8 then removelast line else type_char line c) ∧ ∀ t,
    edit_char c st t = t ← print_all (if c =? 8 then if line is [] then [] else [8] else if decide (length line < 255)%nat then [c] else []) t; Ok (st', t).
Proof.
  intros (Hr & Hp & Hl & Hb & Hc & Ht) H10. unfold edit_char. destruct (Z.eqb_spec c 8) as [->|H8].
  - destruct line as [|x line].
    { exists st. rewrite Hl. split; [by repeat split|done]. }
    rewrite Hl, (proj2 (Z.ltb_lt _ _)) by (unfold zlen; simpl; lia). eexists. split; cycle 1.
    { intros t. cbn [print_all]. rewrite bind_assoc. reflexivity. }
    rewrite removelast_take. unfold typing. cbn [stdin_line_ready stdin_line_pos stdin_line_len stdin_line]. unfold zlen in *. rewrite !length_take.
    cbn [length pred] in *. split_and!; try done; [lia|lia|]. rewrite Nat.min_l by lia.
    transitivity (take (length line) (take (S (length line)) (stdin_line st))); [by rewrite take_take, Nat.min_l by lia|by rewrite Ht].
  - rewrite (proj2 (Z.eqb_neq c 10)) by done. cbn [orb]. unfold type_char. rewrite Hl. unfold STDIN_LINE_CAP in *. case_decide as Hd.
    + rewrite (proj2 (Z.ltb_lt _ _)) by (unfold zlen; lia). rewrite zset_is by (unfold zlen in *; lia).
      eexists. split; cycle 1. { intros t. res_step. cbn [print_all]. rewrite !bind_assoc. reflexivity. }
      unfold typing. cbn [stdin_line_ready stdin_line_pos stdin_line_len stdin_line]. unfold zlen in *. rewrite Nat2Z.id, length_insert, length_app.
      cbn [length]. split_and!; try done; [lia|lia|]. rewrite insert_take_drop by lia. rewrite Ht, take_app_ge by lia.
      replace (length line + 1 - length line)%nat with 1%nat by lia. done.
    + rewrite (proj2 (Z.ltb_ge _ _)) by (unfold zlen; lia). exists st. split; [by repeat split|]. destruct st; simpl in *; subst. done.
Qed.

Lemma print_all_app l1 l2 t : print_all (l1 ++ l2) t = t ← print_all l1 t; print_all l2 t.
Proof. revert t. induction l1 as [|c l1 IH]; intros t; [done|]. cbn [app print_all]. rewrite bind_assoc. destruct (print_char c t); [apply IH|done..]. Qed.

Lemma newline_spec st line :
  typing st line →
  ∃ st', holding st' (type_char line 10) ∧ ∀ t,
    edit_char 10 st t = t ← print_all (if decide (length line < 255)%nat then [10] else []) t; Ok (st', t).
Proof.
  intros (Hr & Hp & Hl & Hb & Hc & Ht). unfold edit_char, type_char. change (10 =? 8) with false. change (10 =? 10) with true. cbn [orb].
  rewrite Hl. unfold STDIN_LINE_CAP in *. case_decide as Hd.
  - rewrite (proj2 (Z.ltb_lt _ _)) by (unfold zlen; lia). rewrite zset_is by (unfold zlen in *; lia).
    eexists. split; cycle 1. { intros t. res_step. cbn [print_all]. rewrite !bind_assoc. reflexivity. }
    unfold holding. cbn [stdin_line_ready stdin_line_pos stdin_line_len stdin_line]. rewrite Hp. unfold zlen in *. rewrite Nat2Z.id, length_insert, length_app.
    cbn [length]. split_and!; try done; try lia; [by destruct line|]. rewrite drop_0, insert_take_drop by lia. rewrite Ht, take_app_ge by lia.
    replace (length line + 1 - length line)%nat with 1%nat by lia. done.
  - rewrite (proj2 (Z.ltb_ge _ _)) by (unfold zlen; lia). eexists. split; [|reflexivity].
    unfold holding. cbn [stdin_line_ready stdin_line_pos stdin_line_len stdin_line]. rewrite Hp. split_and!; try done; [by intros ->; simpl in Hd; lia|idtac..].
    all: try lia.
Qed.

Definition not_nul (cs : list Z) : Prop := Forall (λ c, c ≠ 0) cs.
#[export] Instance not_nul_dec cs : Decision (not_nul cs).
Proof. unfold not_nul. apply _. Defined.

(** The loop up to a yield edits, and echoes, like the reference. *)
Lemma edit_loop_spec fuel st k line :
  typing st line → kbd_ok k → not_nul (queue k) → (length (queue k) < fuel)%nat →
  ∃ st' k' b, (∀ t, edit_loop fuel (MkIo st k t) = (t' ← print_all (echo line (queue k)) t; Ok (MkIo st' k' t', b))) ∧ kbd_ok k' ∧
    match editor line (queue k) with
    | Typing line' => b = false ∧ typing st' line' ∧ queue k' = []
    | Complete line' rest => b = true ∧ holding st' line' ∧ queue k' = rest
    end.
Proof.
  remember (queue k) as q eqn:Eq. intros Hty Hk Hn Hf. symmetry in Eq.
  revert st k line fuel Eq Hty Hk Hf. induction Hn as [|c q Hc Hq IH]; intros st k line fuel Eq Hty Hk Hf; (destruct fuel as [|fuel]; [simpl in Hf; lia|]).
  { exists st, k, false. split; [|by split]. intros t. cbn [edit_loop i_stdin i_kbd i_tty]. rewrite (proj1 Hty). unfold getchar, getchar_read.
    by rewrite (queue_nil _ Hk Eq), Z.eqb_refl. }
  destruct (queue_cons k c q Hk Eq) as (Hread & Hk' & Eq').
  assert (∀ t, edit_loop (S fuel) (MkIo st k t) = '(st', t) ← edit_char c st t; edit_loop fuel (MkIo st' (getchar_advance k) t)) as Hstep.
  { intros t. cbn [edit_loop i_stdin i_kbd i_tty]. rewrite (proj1 Hty). unfold getchar. rewrite Hread. res_step. by rewrite (proj2 (Z.eqb_neq c 0)). }
  destruct (Z.eqb_spec c 10) as [->|H10].
  - destruct (newline_spec st line) as (st' & Hh & E); [done|]. exists st', (getchar_advance k), true. split; [|split; [done|by cbn]].
    intros t. rewrite Hstep, E, bind_assoc. cbn [echo Z.eqb]. rewrite app_nil_r. destruct (print_all _ t); [|done..]. res_step.
    destruct fuel as [|fuel]; [simpl in Hf; lia|]. cbn [edit_loop i_stdin]. by rewrite (proj1 Hh).
  - destruct (edit_char_spec c st line Hty H10) as (st' & Hty' & E).
    destruct (IH st' (getchar_advance k) _ fuel Eq' Hty' Hk') as (st2 & k2 & b & E2 & Hk2 & M); [simpl in Hf; lia|].
    exists st2, k2, b. cbn [editor echo]. rewrite (proj2 (Z.eqb_neq c 10)) by done.
    split; [|split; [done|by destruct (c =? 8)]]. intros t. rewrite Hstep, E, bind_assoc.
    destruct (c =? 8); rewrite print_all_app, bind_assoc; destruct (print_all _ t) as [t'| | |]; try done; res_step; apply E2.
Qed.

Lemma take_line_spec len st left :
  holding st left → 0 ≤ len →
  ∃ st', take_line len st = Ok (st', take (Z.to_nat len) left) ∧
    if decide (len < zlen left) then holding st' (drop (Z.to_nat len) left) else typing st' [].
Proof.
  intros (Hr & Hne & Hp & Hl & Hb & Hc & Ht) Hlen. unfold take_line.
  assert (0 < zlen left) by (destruct left; [done|unfold zlen; simpl; lia]). unfold STDIN_LINE_CAP in *.
  rewrite u64_small by (unfold is_u64; lia). replace (stdin_line_len st - stdin_line_pos st) with (zlen left) by lia.
  set (n := if len <? zlen left then len else zlen left). assert (0 ≤ n ≤ zlen left ∧ (n = len ∨ n = zlen left ∧ zlen left ≤ len)) as [Hn Hn'] by (unfold n; case_cmp; lia).
  assert (slice (stdin_line st) (stdin_line_pos st) n = Some (take (Z.to_nat len) left)) as ->.
  { unfold slice. rewrite (proj2 (Z.ltb_ge _ 0)), (proj2 (Z.ltb_ge n 0)), (proj2 (Z.ltb_ge _ (_ + _))) by lia. cbn [orb]. f_equal.
    rewrite <-Ht at 1. rewrite take_take. unfold zlen in *. destruct Hn' as [->|[-> ?]]; f_equal; lia. }
  res_step. eexists. split; [reflexivity|]. rewrite Hl. case_decide.
  - rewrite (proj2 (Z.leb_gt _ _)) by lia. unfold holding. cbn. assert (n = len) as -> by lia. unfold zlen in *. rewrite length_drop.
    split_and!; try done; try lia.
    + intros E. apply (f_equal length) in E. rewrite length_drop in E. simpl in E. lia.
    + transitivity (drop (Z.to_nat len) (take (length left) (drop (Z.to_nat (stdin_line_pos st)) (stdin_line st)))); [|by rewrite Ht].
      rewrite skipn_firstn_comm, drop_drop. f_equal. f_equal. lia.
  - rewrite (proj2 (Z.leb_le _ _)) by lia. by repeat split.
Qed.

(** C40. Reading the terminal is cooked mode.  What is left of a completed line is handed
    out at once, as much as was asked for.  Otherwise the characters waiting are edited
    and echoed like the reference editor does: if they complete the line, the read returns
    its first [len] bytes, keeps the rest of it for the next read and leaves what was typed
    after it in the keyboard; if not, the reader gives way, and goes on from the line so
    far with whatever the outside world has typed by then. *)
Theorem stdin_line_discipline world len st k t :
  kbd_ok k → not_nul (queue k) → 0 ≤ len →
  (∀ left, holding st left → ∃ st',
     sys_read_stdin world len (MkIo st k t) = Ok (MkIo st' k t, Some (take (Z.to_nat len) left)) ∧
     if decide (len < zlen left) then holding st' (drop (Z.to_nat len) left) else typing st' []) ∧
  (∀ line, typing st line → ∃ st' k', kbd_ok k' ∧
     match editor line (queue k) with
     | Complete l rest =>
         sys_read_stdin world len (MkIo st k t) = (t ← print_all (echo line (queue k)) t; Ok (MkIo st' k' t, Some (take (Z.to_nat len) l))) ∧
         queue k' = rest ∧ (if decide (len < zlen l) then holding st' (drop (Z.to_nat len) l) else typing st' [])
     | Typing l =>
         sys_read_stdin world len (MkIo st k t) =
           (t ← print_all (echo line (queue k)) t;
            match world with
            | [] => Ok (MkIo st' k' t, None)
            | w :: world => '(k, t) ← w (k', t); sys_read_stdin world len (MkIo st' k t)
            end) ∧
         typing st' l ∧ queue k' = []
     end).
Proof.
  intros Hk Hn Hlen. split.
  - intros left Hh. destruct (take_line_spec len st left Hh Hlen) as (st' & E & M). exists st'. split; [|done].
    unfold sys_read_stdin. assert (wait_line world (MkIo st k t) = Ok (MkIo st k t, true)) as ->.
    { destruct world; cbn [wait_line edit_fuel edit_loop i_stdin]; by rewrite (proj1 Hh). }
    cbn. by rewrite E.
  - intros line Hty. assert (length (queue k) < edit_fuel)%nat as Hf.
    { rewrite queue_length. pose proof (queue_len_bound k). unfold edit_fuel, BUFFER_SIZE. lia. }
    destruct (edit_loop_spec edit_fuel st k line Hty Hk Hn Hf) as (st1 & k1 & b & E & Hk1 & M).
    destruct (editor line (queue k)) as [l|l rest]; destruct M as (-> & M & Hq).
    + exists st1, k1. split; [done|]. split; [|done]. unfold sys_read_stdin. destruct world as [|w world]; cbn [wait_line]; rewrite E, !bind_assoc.
      * by destruct (print_all _ t).
      * destruct (print_all _ t) as [t1| | |]; try done. res_step. cbn [i_kbd i_tty i_stdin]. rewrite bind_assoc. destruct (w (k1, t1)) as [[k2 t2]| | |]; done.
    + destruct (take_line_spec len st1 l M Hlen) as (st' & E' & M'). exists st', k1. split; [done|]. split; [|done].
      unfold sys_read_stdin. assert (wait_line world (MkIo st k t) = t ← print_all (echo line (queue k)) t; Ok (MkIo st1 k1 t, true)) as ->.
      { destruct world; cbn [wait_line]; rewrite E, bind_assoc; by destruct (print_all _ t). }
      rewrite bind_assoc. destruct (print_all _ t); [|done..]. res_step. cbn [i_stdin i_kbd i_tty]. by rewrite E'.
Qed.

(** "ab", a backspace, "c" and Enter are the line "ac". *)
Definition typed_kbd : Kbd := MkKbd ([97; 98; 8; 99; 10] ++ replicate 59 0) 5 0 false false false false.

Lemma stdin_line_discipline_witness :
  let t := MkTty [] 0 false [] [] in
  queue typed_kbd = [97; 98; 8; 99; 10] ∧ editor [] (queue typed_kbd) = Complete [97; 99; 10] [] ∧
  ∃ st' k', sys_read_stdin [] 2 (MkIo stdin_zero typed_kbd t) = (t ← print_all [97; 98; 8; 99; 10] t; Ok (MkIo st' k' t, Some [97; 99])) ∧ holding st' [10].
Proof.
  intros t. split; [reflexivity|]. split; [reflexivity|].
  destruct (proj2 (stdin_line_discipline [] 2 stdin_zero typed_kbd t ltac:(split; [reflexivity|unfold BUFFER_SIZE; cbn; lia..])
      ltac:(by apply (bool_decide_unpack (not_nul (queue typed_kbd)))) ltac:(lia)) [] stdin_zero_typing)
    as (st' & k' & _ & E & _ & Hh).
  exists st', k'. split; [exact E|exact Hh].
Defined.
