(* ===== verification/UserMem.v ===== *)
(** * The memory of a program, seen from the kernel

    A system call runs on the page tables of its caller, so a load or a store through a
    pointer of the program is translated byte by byte as [virt_to_phys] walks them.  An
    address that is not mapped faults. *)

From S2P Require Import Prelude CString Mem Frames Pmm Vmm PageTable UserPages Elf ElfSpec User UserSpec.

Section mem.
Context {A : Type} `{FrameAlloc A}.
Implicit Type s : Vmm A.

Definition user_byte (va : Z) s : Res Z :=
  let p := virt_to_phys va s in
  if p =? 0 then Fault else Ok (pm s p).

Fixpoint user_load (n : nat) (va : Z) s : Res (list Z) :=
  match n with
  | O => Ok []
  | S n => b ← user_byte va s; bs ← user_load n (u64 (va + 1)) s; Ok (b :: bs)
  end.

(** The bytes of a string up to its NUL; [fuel] bounds its length. *)
Fixpoint user_string (fuel : nat) (va : Z) s : Res (list Z) :=
  match fuel with
  | O => NoFuel
  | S fuel =>
      c ← user_byte va s;
      if c =? 0 then Ok [0] else rest ← user_string fuel (u64 (va + 1)) s; Ok (c :: rest)
  end.

Fixpoint user_store (va : Z) (bs : list Z) s : Res (Vmm A) :=
  match bs with
  | [] => Ok s
  | b :: bs =>
      let p := virt_to_phys va s in
      if p =? 0 then Fault else user_store (u64 (va + 1)) bs (with_pm (store_bytes (pm s) p [b]) s)
  end.

End mem.

(** ** Laws *)

Section laws.
Context {A : Type} `{FrameAllocLaws A}.
Context (P : Z → Prop) (HP : ∀ va, 0 ≤ va < 2 ^ 47 → P (pml4_idx va)).
Implicit Type s : Vmm A.

(** A store inside a window writes its bytes at their virtual addresses and nothing else. *)
Lemma user_store_spec lo hi pg va bs s :
  tree_ok P (get_pml4 s) s → window P lo hi pg s → (∀ x, lo ≤ x < hi → pg (x / PAGE_SIZE) ≠ 0) →
  lo ≤ va → va + zlen bs ≤ hi →
  ∃ s', user_store va bs s = Ok s' ∧ rewrites P lo hi pg s s' ∧
    ∀ x, lo ≤ x < hi → pm s' (virt_to_phys x s) =
      if decide (va ≤ x < va + zlen bs) then default 0 (zget bs (x - va)) else pm s (virt_to_phys x s).
Proof using All.
  intros Hok W Hnz. revert va s Hok W. induction bs as [|b bs IH]; intros va s Hok W Hlo Hhi; cbn [user_store].
  { exists s. split; [done|]. split; [by apply rewrites_refl|]. intros x Hx. change (zlen []) with 0. by rewrite decide_False by lia. }
  pose proof (wi_bounds _ _ _ _ _ W) as [Hb1 Hb2].
  assert (zlen (b :: bs) = 1 + zlen bs ∧ 0 ≤ zlen bs) as [Hl Hl0] by (unfold zlen; simpl; lia). rewrite Hl in *.
  pose proof (wi_walk _ _ _ _ _ W va ltac:(lia)) as Ew. pose proof (Z.mod_pos_bound va PAGE_SIZE ltac:(done)).
  pose proof (Hnz va ltac:(lia)). destruct (wi_frame _ _ _ _ _ W va) as [(f & Ef & Hf) _]; [lia|].
  rewrite Ew, (proj2 (Z.eqb_neq _ 0)) by (unfold PAGE_SIZE in *; lia).
  destruct (write_chunk P HP lo hi pg s va [b] Hok W) as [R1 M1]; [change (zlen [b]) with 1; lia..|].
  set (s1 := with_pm _ s) in *. pose proof (rewrites_pml4 P _ _ _ _ _ R1) as E1. rewrite u64_small by (unfold is_u64; lia).
  destruct (IH (va + 1) s1) as (s' & E & R2 & M2); [by rewrite E1; apply R1|by eapply rewrites_window|lia|lia|].
  exists s'. split; [exact E|]. split; [by eapply rewrites_trans|]. intros x Hx.
  rewrite <-(rw_walk P _ _ _ _ _ R1) by lia. rewrite M2 by done. rewrite (rw_walk P _ _ _ _ _ R1), M1 by lia.
  change (zlen [b]) with 1. repeat case_decide; try lia; try done.
  - f_equal. unfold zget. rewrite (proj2 (Z.ltb_ge (x - (va + 1)) 0)), (proj2 (Z.ltb_ge (x - va) 0)) by lia.
    replace (Z.to_nat (x - va)) with (S (Z.to_nat (x - (va + 1)))) by lia. done.
  - by replace (x - va) with 0 by lia.
Qed.

End laws.
