(* ===== verification/Syscall.v ===== *)
(** * System calls ([cpu/syscall.cpp])

    The state of a call is the file system with the heap, the memory of the caller, the
    tasks, and the terminal.  Pointers of the program are addresses; what they point to
    is read and written through its page tables.  [fork], [execve], [wait4] and [exit]
    are components of their own: the dispatcher hands them over. *)

From stdpp Require Import strings.
From S2P Require Import Prelude CString Mem Frames Vmm Task Fs Vfs Tty Keyboard Elf User UserMem Hardware Timers Procfs Stdin.

Definition EIO : Z := 5.
Definition EBADF : Z := 9.
Definition ENODEV : Z := 19.
Definition EINVAL : Z := 22.
Definition EMFILE : Z := 24.
Definition ENOTTY : Z := 25.
Definition ENOSYS : Z := 38.

Definition BRK_CEILING : Z := 0x1000000.
Definition PROT_WRITE : Z := 0x2.
Definition PROT_EXEC : Z := 0x4.
Definition MAP_ANONYMOUS : Z := 0x20.
Definition STAT_SIZE : Z := 144.
Definition SEEK_SET : Z := 0.
Definition SEEK_CUR : Z := 1.
Definition SEEK_END : Z := 2.
Definition TCGETS : Z := 0x5401.
Definition ARCH_SET_FS : Z := 0x1002.
Definition ARCH_GET_FS : Z := 0x1003.
Definition IA32_FS_BASE : Z := 0xC0000100.

(** [getdents64]: the entries it collects and the length of a name. *)
Definition MAX_ENTRIES : Z := 32.
Definition ENT_NAME : Z := 48.

(** The numbers of the calls. *)
Definition SYS_READ : Z := 0.
Definition SYS_WRITE : Z := 1.
Definition SYS_OPEN : Z := 2.
Definition SYS_CLOSE : Z := 3.
Definition SYS_STAT : Z := 4.
Definition SYS_FSTAT : Z := 5.
Definition SYS_LSEEK : Z := 8.
Definition SYS_MMAP : Z := 9.
Definition SYS_MPROTECT : Z := 10.
Definition SYS_MUNMAP : Z := 11.
Definition SYS_BRK : Z := 12.
Definition SYS_RT_SIGACTION : Z := 13.
Definition SYS_RT_SIGPROCMASK : Z := 14.
Definition SYS_IOCTL : Z := 16.
Definition SYS_WRITEV : Z := 20.
Definition SYS_ACCESS : Z := 21.
Definition SYS_GETPID : Z := 39.
Definition SYS_FORK : Z := 57.
Definition SYS_EXECVE : Z := 59.
Definition SYS_EXIT : Z := 60.
Definition SYS_WAIT4 : Z := 61.
Definition SYS_UNAME : Z := 63.
Definition SYS_GETCWD : Z := 79.
Definition SYS_READLINK : Z := 89.
Definition SYS_GETUID : Z := 102.
Definition SYS_GETGID : Z := 104.
Definition SYS_GETEUID : Z := 107.
Definition SYS_GETEGID : Z := 108.
Definition SYS_GETPPID : Z := 110.
Definition SYS_ARCH_PRCTL : Z := 158.
Definition SYS_GETDENTS64 : Z := 217.
Definition SYS_SET_TID_ADDRESS : Z := 218.
Definition SYS_CLOCK_GETTIME : Z := 228.
Definition SYS_EXIT_GROUP : Z := 231.
Definition SYS_OPENAT : Z := 257.
Definition SYS_SET_ROBUST_LIST : Z := 273.
Definition SYS_GETRANDOM : Z := 318.

(** What the dispatcher reads of the frame the entry stub builds. *)
Record Frame := MkFrame { num : Z; arg0 : Z; arg1 : Z; arg2 : Z; arg3 : Z; arg4 : Z; arg5 : Z }.

(** How a call ends: with a value in [rax], still waiting for a line, or in another
    component ([fork] gets the whole frame). *)
Inductive Outcome :=
  | Return (v : Z)
  | Waiting
  | Fork
  | Execve (path argv envp : Z)
  | Wait4 (pid status : Z)
  | Exit.

(** [x & ~(PAGE_SIZE - 1)] and [(x + PAGE_SIZE - 1) & ~(PAGE_SIZE - 1)]. *)
Definition sys_page_down (x : Z) : Z := band_not x (PAGE_SIZE - 1).
Definition sys_page_up (x : Z) : Z := band_not (u64 (x + PAGE_SIZE - 1)) (PAGE_SIZE - 1).

(** A negative error as the [u64] in [rax]. *)
Definition neg (e : Z) : Z := - e.

(** [serial::print_dec]. *)
Definition serial_dec (value : Z) : Res (list Z) :=
  if value =? 0 then Ok [48] else
  '(buf, i) ← dec_loop 21 (replicate 20 0) 20 value;
  Ok (drop (Z.to_nat i) buf).

(** The page flags of a protection. *)
Definition prot_flags (prot : Z) : Z :=
  let pflags := Z.lor PRESENT USER in
  let pflags := if negb (Z.land prot PROT_WRITE =? 0) then Z.lor pflags WRITABLE else pflags in
  if Z.land prot PROT_EXEC =? 0 then Z.lor pflags NO_EXECUTE else pflags.

(** The number of steps of [for (va = lo; va < hi; va += PAGE_SIZE)]. *)
Definition page_count (lo hi : Z) : nat := Z.to_nat ((hi - lo + PAGE_SIZE - 1) / PAGE_SIZE).

(** ** Pages *)

Section pages.
Context {A : Type} `{FrameAlloc A}.

(** A fresh frame at [va], cleared through the physmap. *)
Definition map_zero_page (flags va : Z) (s : Vmm A) : Res (Vmm A) :=
  '(s, phys) ← alloc s;
  s ← Vmm.map va phys flags s;
  Ok (with_pm (fill (pm s) phys PAGE_SIZE 0) s).

Fixpoint map_zero_pages (n : nat) (flags va : Z) (s : Vmm A) : Res (Vmm A) :=
  match n with
  | O => Ok s
  | S n => s ← map_zero_page flags va s; map_zero_pages n flags (va + PAGE_SIZE) s
  end.

Definition unmap_page (va : Z) (s : Vmm A) : Res (Vmm A) :=
  let phys := virt_to_phys va s in
  s ← unmap va s;
  Ok (if negb (phys =? 0) then free phys s else s).

Fixpoint unmap_pages (n : nat) (va : Z) (s : Vmm A) : Res (Vmm A) :=
  match n with
  | O => Ok s
  | S n => s ← unmap_page va s; unmap_pages n (va + PAGE_SIZE) s
  end.

Fixpoint protect_pages (n : nat) (flags va : Z) (s : Vmm A) : Res (Vmm A) :=
  match n with
  | O => Ok s
  | S n => s ← protect va flags s; protect_pages n flags (va + PAGE_SIZE) s
  end.

(** The result and the memory of [sys_brk]. *)
Definition sys_brk (addr : Z) (self : Task) (s : Vmm A) : Res (Vmm A * Task * Z) :=
  if (addr =? 0) || (addr <? brk_start self) then Ok (s, self, brk_cur self) else
  if BRK_CEILING <? addr then Ok (s, self, brk_cur self) else
  let old_top := sys_page_up (brk_cur self) in
  let new_top := sys_page_up addr in
  s ← (if old_top <? new_top then map_zero_pages (page_count old_top new_top) USER_RW old_top s
       else if new_top <? old_top then unmap_pages (page_count new_top old_top) new_top s
       else Ok s);
  Ok (s, set_brk_cur addr self, addr).

Definition sys_mmap (len prot flags : Z) (self : Task) (s : Vmm A) : Res (Vmm A * Task * Z) :=
  if Z.land flags MAP_ANONYMOUS =? 0 then Ok (s, self, neg ENODEV) else
  if len =? 0 then Ok (s, self, neg EINVAL) else
  let map_len := sys_page_up len in
  let base := mmap_next self in
  let self := set_mmap_next (u64 (base + map_len)) self in
  s ← map_zero_pages (page_count base (u64 (base + map_len))) (prot_flags prot) base s;
  Ok (s, self, base).

Definition sys_munmap (addr len : Z) (s : Vmm A) : Res (Vmm A) :=
  let start := sys_page_down addr in
  let end_ := sys_page_up (u64 (addr + len)) in
  unmap_pages (page_count start end_) start s.

Definition sys_mprotect (addr len prot : Z) (s : Vmm A) : Res (Vmm A) :=
  let start := sys_page_down addr in
  let end_ := sys_page_up (u64 (addr + len)) in
  protect_pages (page_count start end_) (prot_flags prot) start s.

End pages.

(** ** The state of a call *)

Section calls.
Context {K P A : Type} `{KernelEnv K} `{FrameAlloc A}.
(** Bounds of the loops over a path and over the chunks of a directory, and what the
    buffers on the stack hold. *)
Context (path_fuel dir_fuel : nat) (stale : list Z) (stale_name : list Z).

Record Sys := MkSys {
  y_vfs : Vfs K P;
  y_vm : Vmm A;
  y_tasks : gmap Z Task;
  y_current : Z;
  y_io : Io;
  (** The characters sent to the serial port, newest first. *)
  y_serial : list Z;
  y_fs_base : Z;
}.

Implicit Type y : Sys.

Definition with_vfs (v : Vfs K P) y : Sys := MkSys v (y_vm y) (y_tasks y) (y_current y) (y_io y) (y_serial y) (y_fs_base y).
Definition with_vm (s : Vmm A) y : Sys := MkSys (y_vfs y) s (y_tasks y) (y_current y) (y_io y) (y_serial y) (y_fs_base y).
Definition with_self (t : Task) y : Sys :=
  MkSys (y_vfs y) (y_vm y) (<[y_current y := t]> (y_tasks y)) (y_current y) (y_io y) (y_serial y) (y_fs_base y).
Definition with_io (i : Io) y : Sys := MkSys (y_vfs y) (y_vm y) (y_tasks y) (y_current y) i (y_serial y) (y_fs_base y).
Definition with_serial (l : list Z) y : Sys := MkSys (y_vfs y) (y_vm y) (y_tasks y) (y_current y) (y_io y) l (y_fs_base y).
Definition with_msr (x : Z) y : Sys := MkSys (y_vfs y) (y_vm y) (y_tasks y) (y_current y) (y_io y) (y_serial y) x.

(** [sched::current_task()]. *)
Definition current_task y : Res Task := or_fault (y_tasks y !! y_current y).

(** A store through a pointer of the program. *)
Definition put_user (va : Z) (bs : list Z) y : Res Sys := s ← user_store va bs (y_vm y); Ok (with_vm s y).

(** ** Writing *)

Fixpoint write_loop (n : nat) (buf : Z) y : Res Sys :=
  match n with
  | O => Ok y
  | S n =>
      c ← user_byte buf (y_vm y);
      t ← print_char c (i_tty (y_io y));
      let y := with_io (MkIo (i_stdin (y_io y)) (i_kbd (y_io y)) t) y in
      write_loop n (u64 (buf + 1)) (with_serial (c :: y_serial y) y)
  end.

Definition sys_write (fd buf len : Z) y : Res (Sys * Z) :=
  if negb (fd =? 1) && negb (fd =? 2) then Ok (y, -1) else
  y ← write_loop (Z.to_nat len) buf y;
  Ok (y, i64_of len).

(** [iov] points at pairs of an address and a length. *)
Fixpoint writev_loop (n : nat) (fd iov total : Z) y : Res (Sys * Z) :=
  match n with
  | O => Ok (y, total)
  | S n =>
      base ← user_load 8 iov (y_vm y);
      len ← user_load 8 (u64 (iov + 8)) (y_vm y);
      '(y, m) ← sys_write fd (le_val base) (le_val len) y;
      if m <? 0 then Ok (y, if 0 <? total then total else m)
      else writev_loop n fd (u64 (iov + 16)) (total + m) y
  end.

Definition sys_writev (fd iov iovcnt : Z) y : Res (Sys * Z) := writev_loop (Z.to_nat iovcnt) fd iov 0 y.

(** ** Files *)

(** [for (u32 i = 3; i < MAX_FDS; ++i)]: the first free slot from [i] on. *)
Fixpoint fd_loop (n : nat) (i : Z) (fds : list Z) : Res (option Z) :=
  match n with
  | O => Ok None
  | S n => f ← or_fault (zget fds i); if f =? 0 then Ok (Some i) else fd_loop n (i + 1) fds
  end.

Definition alloc_fd (f : Z) (self : Task) : Res (Task * Z) :=
  r ← fd_loop (MAX_FDS - 3) 3 (fds self);
  match r with
  | Some i => l ← or_fault (zset (fds self) i f); Ok (set_fds l self, i)
  | None => Ok (self, neg EMFILE)
  end.

(** 0 is the null pointer. *)
Definition real_file (self : Task) (fd : Z) : Res Z :=
  if (fd <? 3) || (Z.of_nat MAX_FDS <=? fd) then Ok 0 else or_fault (zget (fds self) fd).

(** [heap::kfree(f)] of an open file. *)
Definition free_file (f : Z) y : Res Sys :=
  k ← kfree f (kern (y_vfs y));
  Ok (with_vfs (with_files (delete f (files (y_vfs y))) (with_kern k (y_vfs y))) y).

(** [vfs::open(path)] of a path of the program. *)
Definition open_user (path : Z) y : Res (Sys * Z) :=
  p ← user_string path_fuel path (y_vm y);
  '(v, f) ← open dir_fuel stale p (y_vfs y);
  Ok (with_vfs v y, f).

Definition file_of (f : Z) y : Res (File K P) := or_fault (files (y_vfs y) !! f).

Definition set_offset (f : Z) (fl : File K P) (off : Z) y : Sys :=
  with_vfs (with_files (<[f := MkFile (f_sb fl) (inode fl) off]> (files (y_vfs y))) (y_vfs y)) y.

Definition sys_openat (path : Z) y : Res (Sys * Z) :=
  '(y, f) ← open_user path y;
  if f =? 0 then Ok (y, neg ENOENT) else
  self ← current_task y;
  '(self, fd) ← alloc_fd f self;
  if fd <? 0 then y ← free_file f y; Ok (y, fd) else Ok (with_self self y, fd).

Definition sys_close (fd : Z) y : Res (Sys * Z) :=
  self ← current_task y;
  f ← real_file self fd;
  if f =? 0 then Ok (y, neg EBADF) else
  y ← free_file f y;
  l ← or_fault (zset (fds self) fd 0);
  Ok (with_self (set_fds l self) y, 0).

(** [world] is what happens while the reader of the terminal gives way.  No value when
    it is still waiting. *)
Definition sys_read (world : list (Kbd * Tty → Res (Kbd * Tty))) (fd buf len : Z) y : Res (Sys * option Z) :=
  if fd =? 0 then
    '(i, r) ← sys_read_stdin world len (y_io y);
    match r with
    | None => Ok (with_io i y, None)
    | Some bs => y ← put_user buf bs (with_io i y); Ok (y, Some (zlen bs))
    end
  else if (fd =? 1) || (fd =? 2) then Ok (y, Some (neg EBADF)) else
  self ← current_task y;
  f ← real_file self fd;
  if f =? 0 then Ok (y, Some (neg EBADF)) else
  fl ← file_of f y;
  rd ← or_fault (op_read (inode_ops (f_sb fl)));
  '(k, (n, out)) ← rd (inode fl) (offset fl) len (kern (y_vfs y));
  y ← put_user buf out (with_vfs (with_kern k (y_vfs y)) y);
  if n <? 0 then Ok (y, Some (neg EIO)) else
  Ok (set_offset f fl (u64 (offset fl + n)) y, Some n).

Definition sys_lseek (fd off whence : Z) y : Res (Sys * Z) :=
  self ← current_task y;
  f ← real_file self fd;
  if f =? 0 then Ok (y, neg EBADF) else
  fl ← file_of f y;
  let base := if whence =? SEEK_SET then Some 0
              else if whence =? SEEK_CUR then Some (i64_of (offset fl))
              else if whence =? SEEK_END then Some (i64_of (isize (inode fl))) else None in
  match base with
  | None => Ok (y, neg EINVAL)
  | Some base =>
      let result := base + off in
      if negb ((- 2 ^ 63 <=? result) && (result <? 2 ^ 63)) then Fault else
      if result <? 0 then Ok (y, neg EINVAL) else
      Ok (set_offset f fl result y, result)
  end.

(** ** Directories *)

(** One of the entries collected: the inode and the 48 bytes of the name. *)
Definition Ent : Type := Z * list Z.

(** [while (p < end && num_entries < MAX_ENTRIES)] over the bytes of one chunk. *)
Fixpoint ent_loop (fuel : nat) (vfs_buf : list Z) (p end_ : Z) (entries : list Ent) : Res (list Ent) :=
  match fuel with
  | O => NoFuel
  | S fuel =>
      if negb ((p <? end_) && (zlen entries <? MAX_ENTRIES)) then Ok entries else
      i ← or_fault (field vfs_buf p 8);
      let p := p + 8 in
      let name := drop (Z.to_nat p) vfs_buf in
      name_len ← strlen name;
      nm ← strncpy stale_name name (ENT_NAME - 1);
      nm ← or_fault (zset nm (ENT_NAME - 1) 0);
      ent_loop fuel vfs_buf (p + name_len + 1) end_ (entries ++ [(i, nm)])
  end.

(** [while (num_entries < MAX_ENTRIES)]: the chunks of the directory. *)
Fixpoint collect_loop (fuel : nat) (readdir : Inode P → Z → Z → K → Res (K * (Z * list Z))) (dir : Inode P)
    (vfs_buf : list Z) (vfs_off : Z) (entries : list Ent) (k : K) : Res (K * list Ent) :=
  match fuel with
  | O => NoFuel
  | S fuel =>
      if negb (zlen entries <? MAX_ENTRIES) then Ok (k, entries) else
      '(k, (n, out)) ← readdir dir vfs_off CHUNK_SIZE k;
      vfs_buf ← or_fault (splice vfs_buf 0 out);
      if n <=? 0 then Ok (k, entries) else
      entries ← ent_loop (S (Z.to_nat MAX_ENTRIES)) vfs_buf 0 n entries;
      collect_loop fuel readdir dir vfs_buf (u64 (vfs_off + n)) entries k
  end.

(** Every chunk gives an entry. *)
Definition collect_fuel : nat := S (Z.to_nat MAX_ENTRIES).

(** [(19 + name_len + 1 + 7) & ~7]. *)
Definition rec_len (name_len : Z) : Z := band_not (19 + name_len + 1 + 7) 7.

(** The bytes written of a record; the padding after the name is left as it was. *)
Definition linux_dirent (i reclen : Z) (nm : list Z) : list Z :=
  le_bytes 8 i ++ le_bytes 8 0 ++ le_bytes 2 (u16 reclen) ++ [0] ++ nm.

(** [while (idx < num_entries)]: the index after the last record and the bytes used. *)
Fixpoint dents_loop (entries : list Ent) (idx dirp written count : Z) y : Res (Sys * (Z * Z)) :=
  match entries with
  | [] => Ok (y, (idx, written))
  | (i, nm) :: entries =>
      name_len ← strlen nm;
      let reclen := rec_len name_len in
      if count <? written + reclen then Ok (y, (idx, written)) else
      bs ← or_fault (slice nm 0 (name_len + 1));
      y ← put_user (u64 (dirp + written)) (linux_dirent i reclen bs) y;
      dents_loop entries (idx + 1) dirp (written + reclen) count y
  end.

Definition sys_getdents64 (fd dirp count : Z) y : Res (Sys * Z) :=
  self ← current_task y;
  f ← real_file self fd;
  if f =? 0 then Ok (y, neg EBADF) else
  fl ← file_of f y;
  if negb (i_is_dir (inode fl)) then Ok (y, neg EINVAL) else
  readdir ← or_fault (op_readdir (inode_ops (f_sb fl)));
  '(k, entries) ← collect_loop collect_fuel readdir (inode fl) stale 0 [] (kern (y_vfs y));
  '(y, (idx, written)) ← dents_loop (drop (Z.to_nat (offset fl)) entries) (offset fl) dirp 0 count (with_vfs (with_kern k (y_vfs y)) y);
  Ok (set_offset f fl idx y, written).

(** ** Attributes *)

Definition fill_stat (out size : Z) (is_dir : bool) y : Res Sys :=
  y ← put_user out (replicate (Z.to_nat STAT_SIZE) 0) y;
  y ← put_user (u64 (out + 16)) (le_bytes 8 1) y;
  let mode := Z.lor (if is_dir then 0x4000 else 0x8000) 0x1A4 in
  y ← put_user (u64 (out + 24)) (le_bytes 4 mode) y;
  y ← put_user (u64 (out + 48)) (le_bytes 8 size) y;
  y ← put_user (u64 (out + 56)) (le_bytes 8 512) y;
  put_user (u64 (out + 64)) (le_bytes 8 (u64 (size + 511) / 512)) y.

Definition sys_fstat (fd statbuf : Z) y : Res (Sys * Z) :=
  if (fd =? 0) || (fd =? 1) || (fd =? 2) then
    y ← put_user statbuf (replicate (Z.to_nat STAT_SIZE) 0) y;
    y ← put_user (u64 (statbuf + 16)) (le_bytes 8 1) y;
    y ← put_user (u64 (statbuf + 24)) (le_bytes 4 (Z.lor 0x2000 0x190)) y;
    Ok (y, 0)
  else
    self ← current_task y;
    f ← real_file self fd;
    if f =? 0 then Ok (y, neg EBADF) else
    fl ← file_of f y;
    y ← fill_stat statbuf (isize (inode fl)) (i_is_dir (inode fl)) y;
    Ok (y, 0).

Definition sys_stat (path statbuf : Z) y : Res (Sys * Z) :=
  '(y, f) ← open_user path y;
  if f =? 0 then Ok (y, neg ENOENT) else
  fl ← file_of f y;
  y ← fill_stat statbuf (isize (inode fl)) (i_is_dir (inode fl)) y;
  y ← free_file f y;
  Ok (y, 0).

Definition sys_access (path : Z) y : Res (Sys * Z) :=
  '(y, f) ← open_user path y;
  if f =? 0 then Ok (y, neg ENOENT) else
  y ← free_file f y;
  Ok (y, 0).

Definition sys_readlink (path : Z) y : Res (Sys * Z) :=
  '(y, f) ← open_user path y;
  if f =? 0 then Ok (y, neg ENOENT) else
  y ← free_file f y;
  Ok (y, neg EINVAL).

Definition sys_getcwd (buf size : Z) y : Res (Sys * Z) :=
  if size <? 2 then Ok (y, neg EINVAL) else
  y ← put_user buf [47; 0] y;
  Ok (y, 2).

Definition sys_ioctl (fd request argp : Z) y : Res (Sys * Z) :=
  if ((fd =? 0) || (fd =? 1) || (fd =? 2)) && (request =? TCGETS) then
    y ← put_user argp (replicate 60 0) y;
    Ok (y, 0)
  else Ok (y, neg ENOTTY).

(** ** Identity and the rest *)

Definition sys_getpid y : Res Z := self ← current_task y; Ok (id self).

Definition sys_getppid y : Res Z :=
  self ← current_task y;
  if parent self =? 0 then Ok 0 else p ← or_fault (y_tasks y !! parent self); Ok (id p).

(** A field of [struct utsname]: at most 64 characters and NULs up to 65. *)
Definition utsname_field (value : list Z) : list Z :=
  let v := take 64 value in v ++ replicate (65 - length v) 0.

Definition Linux : list Z := [76; 105; 110; 117; 120].
Definition retux : list Z := [114; 101; 116; 117; 120].
Definition release : list Z := [53; 46; 48; 46; 48].
Definition machine : list Z := [120; 56; 54; 95; 54; 52].

Definition sys_uname (buf : Z) y : Res (Sys * Z) :=
  y ← put_user buf (utsname_field Linux) y;
  y ← put_user (u64 (buf + 65)) (utsname_field retux) y;
  y ← put_user (u64 (buf + 2 * 65)) (utsname_field release) y;
  y ← put_user (u64 (buf + 3 * 65)) (utsname_field retux) y;
  y ← put_user (u64 (buf + 4 * 65)) (utsname_field machine) y;
  y ← put_user (u64 (buf + 5 * 65)) (utsname_field []) y;
  Ok (y, 0).

(** [ms] is [uptime_ms] of the two timers. *)
Definition sys_clock_gettime (ms ts : Z) y : Res (Sys * Z) :=
  y ← put_user ts (le_bytes 8 (ms / 1000)) y;
  y ← put_user (u64 (ts + 8)) (le_bytes 8 ((ms `mod` 1000) * 1000000)) y;
  Ok (y, 0).

Definition sys_getrandom (tsc buf len : Z) y : Res (Sys * Z) :=
  y ← put_user buf (random_loop (Z.to_nat len) (if tsc =? 0 then 0x2545F4914F6CDD1D else tsc)) y;
  Ok (y, i64_of len).

Definition sys_arch_prctl (code addr : Z) y : Res (Sys * Z) :=
  self ← current_task y;
  if code =? ARCH_SET_FS then Ok (with_self (set_fs_base addr self) (with_msr addr y), 0)
  else if code =? ARCH_GET_FS then y ← put_user addr (le_bytes 8 (fs_base self)) y; Ok (y, 0)
  else Ok (y, neg EINVAL).

(** A memory call on the current task. *)
Definition with_memory (f : Task → Vmm A → Res (Vmm A * Task * Z)) y : Res (Sys * Z) :=
  self ← current_task y;
  '(s, self, r) ← f self (y_vm y);
  Ok (with_self self (with_vm s y), r).

Definition with_pages (f : Vmm A → Res (Vmm A)) y : Res (Sys * Z) := s ← f (y_vm y); Ok (with_vm s y, 0).

(** [current_task()->exit_code = code], before [exit_current]. *)
Definition sys_exit (code : Z) y : Res Sys := self ← current_task y; Ok (with_self (set_exit_code code self) y).

(** ** The dispatcher *)

(** What a call takes from the outside: the terminal while it waits, the clock and the
    time-stamp counter. *)
Record Outside := MkOutside { world : list (Kbd * Tty → Res (Kbd * Tty)); uptime : Z; tsc : Z }.

(** A call that returns. *)
Definition returns (r : Res (Sys * Z)) : Res (Sys * Outcome) := '(y, v) ← r; Ok (y, Return (u64 v)).

Definition syscall_dispatch (o : Outside) (f : Frame) y : Res (Sys * Outcome) :=
  let n := num f in
  if n =? SYS_WRITE then returns (sys_write (arg0 f) (arg1 f) (arg2 f) y)
  else if n =? SYS_READ then
    '(y, r) ← sys_read (world o) (arg0 f) (arg1 f) (arg2 f) y;
    Ok (y, match r with Some v => Return (u64 v) | None => Waiting end)
  else if n =? SYS_CLOSE then returns (sys_close (arg0 f) y)
  else if n =? SYS_GETDENTS64 then returns (sys_getdents64 (arg0 f) (arg1 f) (arg2 f) y)
  else if n =? SYS_FSTAT then returns (sys_fstat (arg0 f) (arg1 f) y)
  else if n =? SYS_STAT then returns (sys_stat (arg0 f) (arg1 f) y)
  else if n =? SYS_ACCESS then returns (sys_access (arg0 f) y)
  else if n =? SYS_GETPPID then r ← sys_getppid y; Ok (y, Return (u64 r))
  else if n =? SYS_READLINK then returns (sys_readlink (arg0 f) y)
  else if n =? SYS_GETCWD then returns (sys_getcwd (arg0 f) (arg1 f) y)
  else if n =? SYS_LSEEK then returns (sys_lseek (arg0 f) (i64_of (arg1 f)) (arg2 f) y)
  else if n =? SYS_IOCTL then returns (sys_ioctl (arg0 f) (arg1 f) (arg2 f) y)
  else if n =? SYS_OPENAT then returns (sys_openat (arg1 f) y)
  else if n =? SYS_OPEN then returns (sys_openat (arg0 f) y)
  else if n =? SYS_BRK then returns (with_memory (sys_brk (arg0 f)) y)
  else if n =? SYS_MMAP then returns (with_memory (sys_mmap (arg1 f) (arg2 f) (arg3 f)) y)
  else if n =? SYS_MUNMAP then returns (with_pages (sys_munmap (arg0 f) (arg1 f)) y)
  else if n =? SYS_MPROTECT then returns (with_pages (sys_mprotect (arg0 f) (arg1 f) (arg2 f)) y)
  else if n =? SYS_WRITEV then returns (sys_writev (arg0 f) (arg1 f) (arg2 f) y)
  else if n =? SYS_FORK then Ok (y, Fork)
  else if n =? SYS_EXECVE then Ok (y, Execve (arg0 f) (arg1 f) (arg2 f))
  else if n =? SYS_WAIT4 then Ok (y, Wait4 (i64_of (arg0 f)) (arg1 f))
  else if n =? SYS_GETPID then r ← sys_getpid y; Ok (y, Return (u64 r))
  else if n =? SYS_UNAME then returns (sys_uname (arg0 f) y)
  else if (n =? SYS_GETUID) || (n =? SYS_GETEUID) || (n =? SYS_GETGID) || (n =? SYS_GETEGID) then Ok (y, Return 0)
  else if n =? SYS_CLOCK_GETTIME then returns (sys_clock_gettime (uptime o) (arg1 f) y)
  else if n =? SYS_GETRANDOM then returns (sys_getrandom (tsc o) (arg0 f) (arg1 f) y)
  else if n =? SYS_ARCH_PRCTL then returns (sys_arch_prctl (arg0 f) (arg1 f) y)
  else if n =? SYS_SET_TID_ADDRESS then Ok (y, Return 1)
  else if (n =? SYS_SET_ROBUST_LIST) || (n =? SYS_RT_SIGACTION) || (n =? SYS_RT_SIGPROCMASK) then Ok (y, Return 0)
  else if (n =? SYS_EXIT) || (n =? SYS_EXIT_GROUP) then y ← sys_exit (arg0 f) y; Ok (y, Exit)
  else
    d ← serial_dec n;
    Ok (with_serial (rev_append (text "syscall: unimplemented number " ++ d ++ [10]) (y_serial y)) y, Return (u64 (neg ENOSYS))).

End calls.

Arguments Sys K P A : clear implicits.

(** ** init *)

Definition IA32_EFER : Z := 0xC0000080.
Definition IA32_STAR : Z := 0xC0000081.
Definition IA32_LSTAR : Z := 0xC0000082.
Definition IA32_FMASK : Z := 0xC0000084.
Definition EFER_SCE : Z := Z.shiftl 1 0.
Definition SYSCALL_KERNEL_CS_BASE : Z := 0x08.
Definition SYSRET_USER_SEG_BASE : Z := 0x10.

(** [syscall_entry] is the address of the entry stub. *)
Definition syscall_init {D} `{Hardware D} (syscall_entry : Z) (d : D) : D :=
  let star := Z.lor (Z.shiftl SYSRET_USER_SEG_BASE 48) (Z.shiftl SYSCALL_KERNEL_CS_BASE 32) in
  let d := wrmsr IA32_STAR star d in
  let d := wrmsr IA32_LSTAR syscall_entry d in
  let RFLAGS_IF := Z.shiftl 1 9 in
  let RFLAGS_DF := Z.shiftl 1 10 in
  let d := wrmsr IA32_FMASK (Z.lor RFLAGS_IF RFLAGS_DF) d in
  let efer := rdmsr IA32_EFER d in
  wrmsr IA32_EFER (Z.lor efer EFER_SCE) d.
