(* ===== verification/SysMem.v ===== *)
(** * The memory of a process: [brk], [mmap], [munmap]

    What the memory calls do to the address space of their caller, through the page
    tables: fresh pages are zero, pages given back are unmapped and their frames free,
    and everything else stays as it was. *)

From S2P Require Import Prelude CString Mem Frames Pmm Vmm PageTable UserPages PageRights Task Fs Vfs Elf ElfSpec User UserSpec UserStack Syscall.

Section spec.
Context {A : Type} `{FrameAllocLaws A}.
Context (P : Z → Prop) (HP : ∀ va, 0 ≤ va < 2 ^ 47 → P (pml4_idx va)).
Implicit Type s : Vmm A.

(** ** Fresh pages *)

Lemma map_zero_page_spec flags va s :
  user_ok P s → 0 ≤ va < 2 ^ 47 → va `mod` PAGE_SIZE = 0 → Z.land flags PHYS_MASK = 0 → Z.testbit flags 0 = true →
  ensures (map_zero_page flags va s) (fills P (λ v, va ≤ v < va + PAGE_SIZE) flags (λ _, 0) s).
Proof using All.
  intros Hu Hva Hal Hfl Hb. unfold map_zero_page. apply (map_fresh_then P HP va flags s); try done.
  intros s1 phys X D F N U Hr W. cbn [ensures]. apply (page_fills P HP va flags (λ _, 0) s s1 phys); try done.
  - by apply cleared_outside.
  - by apply cleared_inside.
Qed.

Lemma map_zero_pages_costs n flags va s : costs fa (4 * n) (map_zero_pages n flags va s) (fa s).
Proof using H0.
  revert va s. induction n as [|n IH]; intros va s; [by apply costs_keep|]. cbn [map_zero_pages].
  replace (4 * S n)%nat with (4 + 4 * n)%nat by lia. apply (costs_bind fa); [|intros s1 _; apply IH].
  unfold map_zero_page. apply (costs_bind fst_fa fa 1 3); [apply costs_alloc_frame|]. intros [s1 phys] _.
  apply (costs_bind fa fa 3 0); [apply map_costs|]. intros s2 _. by apply costs_keep.
Qed.

(** ** Rounding *)

Lemma sys_page_up_eq x : 0 ≤ x → x < 2 ^ 63 →
  sys_page_up x = (x + 4095) / 4096 * 4096.
Proof using Type.
  intros Hx Hx'. unfold sys_page_up. change (PAGE_SIZE - 1) with 4095. rewrite band_not_4095.
  replace (x + PAGE_SIZE - 1) with (x + 4095) by (unfold PAGE_SIZE; lia). rewrite u64_small by (unfold is_u64; lia).
  Z.div_mod_to_equations. lia.
Qed.

Lemma page_count_eq lo hi : lo `mod` 4096 = 0 → hi `mod` 4096 = 0 → lo ≤ hi → lo + Z.of_nat (page_count lo hi) * PAGE_SIZE = hi.
Proof using Type. intros Hl Hh Hle. unfold page_count, PAGE_SIZE. Z.div_mod_to_equations. lia. Qed.

Lemma page_count_none lo hi : hi ≤ lo → lo `mod` 4096 = 0 → hi `mod` 4096 = 0 → page_count lo hi = 0%nat.
Proof using Type. intros Hl H1 H2. unfold page_count, PAGE_SIZE. Z.div_mod_to_equations. lia. Qed.

(** ** Pages given back *)

(** The page of [va] is not part of a 2 MiB one. *)
Definition small s (va : Z) : Prop :=
  ∀ t, table_at (pm s) (get_pml4 s) [pml4_idx va; pdpt_idx va] = Some t →
    present (Vmm.entry (pm s) t (pd_idx va)) = true → huge (Vmm.entry (pm s) t (pd_idx va)) = false.

(** The tables above a small page. *)
Lemma upper_tables s va :
  tree_ok P (get_pml4 s) s → P (pml4_idx va) →
  let e4 := Vmm.entry (pm s) (get_pml4 s) (pml4_idx va) in
  let e3 := Vmm.entry (pm s) (entry_phys e4) (pdpt_idx va) in
  present e4 = true → present e3 = true →
  huge e3 = false ∧ table_at (pm s) (get_pml4 s) [pml4_idx va; pdpt_idx va] = Some (entry_phys e3).
Proof using All.
  intros Hok Hpv e4 e3 P4 P3. pose proof (idx_path_ok P va Hpv) as Hpath.
  assert (huge e4 = false) as N4.
  { apply (ok_huge _ _ _ Hok [] _ (get_pml4 s)); [|cbn; lia|done|done]. eapply ok_path_prefix; [|exact Hpath]. apply (prefix_cons _ []), prefix_nil. }
  assert (table_at (pm s) (get_pml4 s) [pml4_idx va] = Some (entry_phys e4)) as T4 by (simpl; fold e4; by rewrite P4, N4).
  assert (huge e3 = false) as N3.
  { apply (ok_huge _ _ _ Hok [pml4_idx va] _ (entry_phys e4)); [|cbn; lia|done|done]. eapply ok_path_prefix; [|exact Hpath]. apply prefix_cons, (prefix_cons _ []), prefix_nil. }
  split; [done|]. change [pml4_idx va; pdpt_idx va] with ([pml4_idx va] ++ [pdpt_idx va]).
  rewrite (table_at_snoc _ _ _ _ _ T4). simpl. fold e3. by rewrite P3, N3.
Qed.

(** Unmapping in a small page allocates nothing: at most an entry of a page table is
    cleared. *)
Lemma unmap_small va s :
  tree_ok P (get_pml4 s) s → P (pml4_idx va) → small s va →
  ∃ s', unmap va s = Ok s' ∧ fa s' = fa s ∧ cr3 s' = cr3 s ∧
    (s' = s ∨ ∃ pt, table_at (pm s) (get_pml4 s) [pml4_idx va; pdpt_idx va; pd_idx va] = Some pt ∧
       pm s' = set_entry (pm s) pt (pt_idx va) 0).
Proof using All.
  intros Hok Hpv Hsm. unfold unmap. destruct (idx_path_page_down_inv va) as (-> & -> & -> & ->).
  set (e4 := Vmm.entry (pm s) (get_pml4 s) (pml4_idx va)) in *.
  destruct (present e4) eqn:P4; cbn [negb]; [|by exists s; eauto].
  set (e3 := Vmm.entry (pm s) (entry_phys e4) (pdpt_idx va)) in *.
  destruct (present e3) eqn:P3; cbn [negb]; [|by exists s; eauto].
  destruct (upper_tables s va Hok Hpv P4 P3) as [_ T3]. fold e4 e3 in T3.
  pose proof (Hsm _ T3) as N2. set (e2 := Vmm.entry (pm s) (entry_phys e3) (pd_idx va)) in *.
  destruct (present e2) eqn:P2; cbn [andb]; [rewrite N2 by done|]; res_step; fold e2; rewrite P2; cbn [negb]; [|by exists s; eauto].
  eexists. split; [reflexivity|]. split_and!; [done|done|]. right. exists (entry_phys e2). split; [|done].
  change [pml4_idx va; pdpt_idx va; pd_idx va] with ([pml4_idx va; pdpt_idx va] ++ [pd_idx va]).
  rewrite (table_at_snoc _ _ _ _ _ T3). simpl. fold e2. by rewrite P2, (N2 eq_refl).
Qed.

(** Frame [f] is none of the tables. *)
Definition no_table s (f : Z) : Prop :=
  ∀ q t, ok_path P q → (length q ≤ 3)%nat → table_at (pm s) (get_pml4 s) q = Some t → frame_of t ≠ f.

(** [s'] comes from [s] by giving back the pages [gone]. *)
Record releases (gone : Z → Prop) s s' : Prop := {
  rl_tree : tree_ok P (get_pml4 s) s';
  rl_cr3 : cr3 s' = cr3 s;
  rl_small va : 0 ≤ va < 2 ^ 47 → small s va → small s' va;
  rl_in va : 0 ≤ va < 2 ^ 47 → gone va → virt_to_phys va s' = 0;
  rl_out va : 0 ≤ va < 2 ^ 47 → ¬ gone va → virt_to_phys va s' = virt_to_phys va s;
  rl_mem x : no_table s (frame_of x) → pm s' x = pm s x;
  rl_used f : 0 ≤ f < NUM_FRAMES →
    fa_used (fa s') f = true ↔
    fa_used (fa s) f = true ∧ ∀ va, 0 ≤ va < 2 ^ 47 → gone va → virt_to_phys va s ≠ 0 → frame_of (virt_to_phys va s) ≠ f;
  rl_rights va fl : 0 ≤ va < 2 ^ 47 → ¬ gone va → rights (pm s) (get_pml4 s) va fl → rights (pm s') (get_pml4 s) va fl;
  rl_table q t : ok_path P q → (length q ≤ 3)%nat → table_at (pm s') (get_pml4 s) q = Some t → table_at (pm s) (get_pml4 s) q = Some t;
}.

(** The page of [va] is a small one, mapped, if at all, to a data frame of the machine. *)
Definition owned s (va : Z) : Prop :=
  small s va ∧ (virt_to_phys va s ≠ 0 → data_frame P (get_pml4 s) s (frame_of (virt_to_phys va s)) ∧ 0 < frame_of (virt_to_phys va s) < NUM_FRAMES).

Lemma releases_pml4 gone s s' : releases gone s s' → get_pml4 s' = get_pml4 s.
Proof using Type. intros R. unfold get_pml4. by rewrite (rl_cr3 _ _ _ R). Qed.

Lemma small_page s v va : small s va → idx_path v = idx_path va → small s v.
Proof using Type. intros Hs [= E1 E2 E3 E4] t. rewrite E1, E2, E3. apply Hs. Qed.

(** What a small page translates to. *)
Lemma page_walk s va :
  tree_ok P (get_pml4 s) s → 0 ≤ va < 2 ^ 47 → small s va →
  ∃ o : option Z, ∀ v, 0 ≤ v < 2 ^ 47 → v / PAGE_SIZE = va / PAGE_SIZE →
    virt_to_phys v s = match o with None => 0 | Some f => f * PAGE_SIZE + v `mod` PAGE_SIZE end ∧ 0 ≤ default 0 o.
Proof using All.
  intros Hok Hva Hsm.
  assert (∀ v, 0 ≤ v < 2 ^ 47 → v / PAGE_SIZE = va / PAGE_SIZE → idx_path v = idx_path va) as Hidx by (intros v Hv E; apply same_page; lia).
  enough (∃ o, ∀ v, 0 ≤ v < 2 ^ 47 → v / PAGE_SIZE = va / PAGE_SIZE →
    virt_to_phys v s = match o with None => 0 | Some e => u64 (entry_phys e + Z.land v 0xFFF) end) as [o Ho].
  { exists (e ← o; Some (entry_phys e / 4096)). intros v Hv E. rewrite (Ho v Hv E). destruct o as [e|]; cbn; [|done].
    destruct (page_4k_bounds e v) as (Hb1 & Hb2 & Hm & _). rewrite page_offset. unfold PAGE_SIZE. pose proof (Z.mod_pos_bound v 4096 ltac:(lia)).
    rewrite u64_small by (unfold is_u64; lia). Z.div_mod_to_equations. lia. }
  unfold virt_to_phys, walk.
  set (e4 := Vmm.entry (pm s) (get_pml4 s) (pml4_idx va)). set (e3 := Vmm.entry (pm s) (entry_phys e4) (pdpt_idx va)).
  set (e2 := Vmm.entry (pm s) (entry_phys e3) (pd_idx va)). set (e1 := Vmm.entry (pm s) (entry_phys e2) (pt_idx va)).
  exists (if negb (present e4) then None else if negb (present e3) then None else if negb (present e2) then None else if negb (present e1) then None else Some e1).
  intros v Hv E. pose proof (Hidx v Hv E) as [= -> -> -> ->]. fold e4. destruct (present e4) eqn:P4; cbn [negb]; [|done].
  fold e3. destruct (present e3) eqn:P3; cbn [negb]; [|done].
  destruct (upper_tables s va Hok (HP va Hva) P4 P3) as [N3 T3]. fold e4 e3 in N3, T3.
  rewrite N3. fold e2. destruct (present e2) eqn:P2; cbn [negb]; [|done].
  pose proof (Hsm _ T3 P2) as N2. fold e2 in N2. rewrite N2. fold e1. by destruct (present e1).
Qed.

(** Clearing the entry of one page leaves that of another one. *)
Lemma cleared_pte va v s s1 :
  tree_ok P (get_pml4 s) s → 0 ≤ va < 2 ^ 47 → 0 ≤ v < 2 ^ 47 → v / PAGE_SIZE ≠ va / PAGE_SIZE →
  (s1 = s ∨ ∃ pt, table_at (pm s) (get_pml4 s) [pml4_idx va; pdpt_idx va; pd_idx va] = Some pt ∧
     pm s1 = set_entry (pm s) pt (pt_idx va) 0) →
  same_pte P (get_pml4 s) s s1 [pml4_idx v; pdpt_idx v; pd_idx v] (pt_idx v).
Proof using HP.
  intros Hok Hva Hv Hne [->|(pt & Hpt & Epm)] t Hq Hl Et; [done|]. rewrite Epm.
  assert (ok_path P ([pml4_idx va; pdpt_idx va; pd_idx va] ++ [pt_idx va])) as Hpa by exact (idx_path_ok P va (HP va Hva)).
  apply (set_pte P (get_pml4 s) s [pml4_idx va; pdpt_idx va; pd_idx va] pt (pt_idx va) 0 [pml4_idx v; pdpt_idx v; pd_idx v] (pt_idx v));
    [done|done|cbn; lia|done| |done..].
  intros [= E4 E3 E2 E1]. apply Hne, same_page; [lia..|]. unfold idx_path. congruence.
Qed.

Definition page_at (va v : Z) : Prop := va ≤ v < va + PAGE_SIZE.

(** One page. *)
Lemma unmap_page_spec va s :
  tree_ok P (get_pml4 s) s → 0 ≤ va < 2 ^ 47 → va `mod` PAGE_SIZE = 0 → (∀ v, page_at va v → owned s v) →
  ∃ s', unmap_page va s = Ok s' ∧ releases (page_at va) s s'.
Proof using All.
  intros Hok Hva Hal Hall. destruct (Hall va) as [Hsm Hown]; [unfold page_at, PAGE_SIZE; lia|]. unfold unmap_page. pose proof (unmap_full P va s Hok (HP va Hva)) as U.
  destruct (unmap_small va s Hok (HP va Hva) Hsm) as (s1 & E & Hfa & Hcr & Hpm). rewrite E in *. destruct U as [G W]. res_step.
  assert (get_pml4 s1 = get_pml4 s) as Er by (unfold get_pml4; by rewrite Hcr).
  destruct (page_walk s va Hok Hva Hsm) as [o Ho]. destruct (Ho va Hva eq_refl) as [Ho1 Ho2].
  assert (∀ v, 0 ≤ v < 2 ^ 47 → virt_to_phys v s1 = if decide (page_at va v) then 0 else virt_to_phys v s) as Hw.
  { intros v Hv. unfold virt_to_phys at 1. rewrite Er, (W v (HP v Hv)).
    assert (idx_path v = idx_path va ↔ page_at va v) as Hiff.
    { rewrite same_page by lia. unfold page_at, PAGE_SIZE in *. Z.div_mod_to_equations. lia. }
    repeat case_decide; done || tauto. }
  assert (∀ q t, ok_path P q → (length q ≤ 3)%nat → table_at (pm s1) (get_pml4 s) q = Some t → table_at (pm s) (get_pml4 s) q = Some t) as Htab.
  { intros q t Hq Hl Et. destruct (g_new _ _ _ _ G q t Hq Hl Et) as [|Hn]; [done|].
    destruct (ok_table _ _ _ (g_tree _ _ _ _ G) q t Hq Hl Et) as [_ Hu]. rewrite Hfa in Hu. congruence. }
  assert (∀ v, 0 ≤ v < 2 ^ 47 → page_at va v → virt_to_phys v s ≠ 0 → frame_of (virt_to_phys v s) = frame_of (virt_to_phys va s) ∧ virt_to_phys va s = default 0 o * PAGE_SIZE ∧ virt_to_phys v s = default 0 o * PAGE_SIZE + v `mod` PAGE_SIZE) as Hfr.
  { intros v Hv Hin Hnz. destruct (Ho v Hv) as [Hv1 _]; [unfold page_at, PAGE_SIZE in *; Z.div_mod_to_equations; lia|].
    rewrite Hal in Ho1. destruct o as [f|]; [|done]. rewrite Hv1, Ho1. cbn [default]. split; [|unfold Datatypes.id; lia].
    unfold frame_of, PAGE_SIZE in *. Z.div_mod_to_equations. lia. }
  set (s' := if negb (virt_to_phys va s =? 0) then free (virt_to_phys va s) s1 else s1).
  assert (pm s' = pm s1 ∧ cr3 s' = cr3 s) as [Ep Ec] by (unfold s'; destruct (negb _); split; done).
  assert (get_pml4 s' = get_pml4 s) as Er' by (unfold get_pml4; by rewrite Ec).
  assert (∀ v, virt_to_phys v s' = virt_to_phys v s1) as Ev by (intros v; unfold virt_to_phys; by rewrite Er', Er, Ep).
  exists s'. split; [done|]. split; [|done|..].
  - unfold s'. destruct (Z.eqb_spec (virt_to_phys va s) 0) as [Hz|Hz]; cbn [negb]; [apply G|]. rewrite <-Er. apply (free_tree P); [rewrite Er; apply G|].
    rewrite Er. destruct (Hown Hz) as [[Hu Hd] _]. split; [by rewrite Hfa|]. intros q t Hq Hl Et. by apply (Hd q), Htab.
  - intros v Hv Hsv t. rewrite Ep, Er'. intros Et Hpr. destruct Hpm as [->|(pt & Hpt & Epm)]; [by apply Hsv|].
    pose proof (idx_path_ok P v (HP v Hv)) as Hpath.
    assert (ok_path P ([pml4_idx v; pdpt_idx v] ++ [pd_idx v])) as Hp3 by (eapply ok_path_prefix; [|exact Hpath]; do 2 apply prefix_cons; apply (prefix_cons _ []), prefix_nil).
    assert (ok_path P ([pml4_idx va; pdpt_idx va; pd_idx va] ++ [pt_idx va])) as Hpa by exact (idx_path_ok P va (HP va Hva)).
    pose proof (Htab [pml4_idx v; pdpt_idx v] t ltac:(by eapply ok_path_snoc_l) ltac:(cbn; lia) Et) as Et0.
    pose proof (set_entry_tree_other P (get_pml4 s) s _ pt _ 0 Hok Hpa Hpt [pml4_idx v; pdpt_idx v] t (pd_idx v) ltac:(cbn; lia) Hp3 ltac:(cbn; lia) Et0 ltac:(done)) as Ee.
    cbn [pm with_pm] in Ee. rewrite <-Epm in Ee. rewrite Ee in *. by apply Hsv.
  - intros v Hv Hin. rewrite Ev, Hw by done. by rewrite decide_True.
  - intros v Hv Hn. rewrite Ev, Hw by done. by rewrite decide_False.
  - intros x Hx. rewrite Ep. destruct Hpm as [->|(pt & Hpt & ->)]; [done|].
    assert (ok_path P ([pml4_idx va; pdpt_idx va; pd_idx va] ++ [pt_idx va])) as Hpa by exact (idx_path_ok P va (HP va Hva)).
    apply (set_mem P (get_pml4 s) s _ pt _ 0 Hok Hpa Hpt); [cbn; lia|]. apply (Hx [pml4_idx va; pdpt_idx va; pd_idx va]); [by eapply ok_path_snoc_l|cbn; lia|done].
  - intros f Hf. unfold s'. destruct (Z.eqb_spec (virt_to_phys va s) 0) as [Hz|Hz]; cbn [negb].
    + rewrite Hfa. split; [|tauto]. intros Hu. split; [done|]. intros v Hv Hin Hnz. destruct (Hfr v Hv Hin Hnz) as (_ & E1 & E2).
      destruct (proj2 (Hall v Hin) Hnz) as [_ [Hpos _]]. rewrite E2, <-E1, Hz in Hpos. unfold frame_of in Hpos.
      rewrite Z.div_small in Hpos; [lia|]. apply (Z.mod_pos_bound v PAGE_SIZE). done.
    + cbn [free with_fa fa]. rewrite fa_free_used, Hfa by done. rewrite andb_true_iff, negb_true_iff, Z.eqb_neq. split.
      * intros [Hne Hu]. split; [done|]. intros v Hv Hin Hnz. by rewrite (proj1 (Hfr v Hv Hin Hnz)).
      * intros [Hu Hne]. split; [|done]. apply (Hne va); [done|unfold page_at, PAGE_SIZE; lia|done].
  - intros v fl Hv Hn Hr. rewrite Ep. apply (rights_grows P (get_pml4 s) s s1); [done|by apply HP| |done].
    apply (cleared_pte va); [done|done|done| |done]. intros Hpage. apply Hn. unfold page_at, PAGE_SIZE in *. Z.div_mod_to_equations. lia.
  - intros q t Hq Hl. rewrite Ep. by apply Htab.
Qed.

Lemma releases_trans g1 g2 s s1 s2 :
  (∀ va, Decision (g1 va)) → (∀ va, g1 va → ¬ g2 va) →
  releases g1 s s1 → releases g2 s1 s2 → releases (λ va, g1 va ∨ g2 va) s s2.
Proof using Type.
  intros Hdec Hdis R1 R2. pose proof (releases_pml4 _ _ _ R1) as Er. destruct R1 as [T1 C1 S1 I1 O1 M1 U1 K1 B1], R2 as [T2 C2 S2 I2 O2 M2 U2 K2 B2].
  rewrite Er in *. split; [done|congruence|by auto|..].
  - intros va Hva Hg. destruct (decide (g1 va)) as [H1|H1].
    + rewrite O2; [by apply I1|done|by apply Hdis].
    + apply I2; [done|]. by destruct Hg.
  - intros va Hva Hn. rewrite O2, O1; done || tauto.
  - intros x Hx. rewrite M2; [by apply M1|]. intros q t Hq Hl E. rewrite Er in E. apply (Hx q t Hq Hl). by apply B1.
  - intros f Hf. rewrite U2, U1 by done. split.
    + intros [[Hu Ha] Hb]. split; [done|]. intros va Hva [Hg|Hg] Hnz; [by apply Ha|].
      assert (¬ g1 va) as Hn by (intros Hc; by apply (Hdis va)). rewrite <-(O1 va Hva Hn) in *. by apply Hb.
    + intros [Hu Ha]. split; [split; [done|]|]; intros va Hva Hg Hnz; [apply Ha; auto|].
      assert (¬ g1 va) as Hn by (intros Hc; by apply (Hdis va)). rewrite (O1 va Hva Hn) in *. apply Ha; auto.
  - intros va fl Hva Hn Hr. apply K2; [done|tauto|]. apply K1; done || tauto.
  - intros q t Hq Hl E. by apply B1, B2.
Qed.

Definition region (lo hi v : Z) : Prop := lo ≤ v < hi.

(** No two pages of the region share a frame. *)
Definition unshared (g : Z → Prop) s : Prop := ∀ v v', g v → g v' → virt_to_phys v s ≠ 0 → virt_to_phys v' s ≠ 0 →
  frame_of (virt_to_phys v s) = frame_of (virt_to_phys v' s) → v / PAGE_SIZE = v' / PAGE_SIZE.

Lemma unmap_pages_spec n va s :
  tree_ok P (get_pml4 s) s → 0 ≤ va → va + Z.of_nat n * PAGE_SIZE ≤ 2 ^ 47 → va `mod` PAGE_SIZE = 0 →
  (∀ v, region va (va + Z.of_nat n * PAGE_SIZE) v → owned s v) → unshared (region va (va + Z.of_nat n * PAGE_SIZE)) s →
  ∃ s', unmap_pages n va s = Ok s' ∧ releases (region va (va + Z.of_nat n * PAGE_SIZE)) s s'.
Proof using All.
  revert va s. induction n as [|n IH]; intros va s Hok Hva Hend Hal Hown Hun; cbn [unmap_pages].
  { exists s. split; [done|]. assert (∀ v, ¬ region va (va + Z.of_nat 0 * PAGE_SIZE) v) as Hno by (intros v; unfold region; lia).
    split; try done; [intros v Hv Hg; by destruct (Hno v)|]. intros f Hf. split; [|tauto]. intros Hu. split; [done|]. intros v Hv Hg. by destruct (Hno v). }
  assert (0 < PAGE_SIZE) as HPS by done.
  destruct (unmap_page_spec va s Hok) as (s1 & -> & R1); [nia|done|intros v Hv; apply Hown; unfold region, page_at in *; nia|].
  res_step. pose proof (releases_pml4 _ _ _ R1) as Er.
  assert (∀ v, region (va + PAGE_SIZE) (va + PAGE_SIZE + Z.of_nat n * PAGE_SIZE) v → 0 ≤ v < 2 ^ 47 ∧ region va (va + Z.of_nat (S n) * PAGE_SIZE) v ∧ ¬ page_at va v ∧ v / PAGE_SIZE ≠ va / PAGE_SIZE) as Hin.
  { intros v Hv. unfold region, page_at in *. split_and!; try nia. unfold PAGE_SIZE in *. Z.div_mod_to_equations. lia. }
  destruct (IH (va + PAGE_SIZE) s1) as (s2 & -> & R2).
  - rewrite Er. apply R1.
  - lia.
  - nia.
  - rewrite Z.add_mod, Hal by done. reflexivity.
  - intros v Hv. destruct (Hin v Hv) as (Hb & Hr & Hn & Hp). destruct (Hown v Hr) as [Hs Hd]. split; [by apply R1|].
    rewrite (rl_out _ _ _ R1) by done. intros Hnz. destruct (Hd Hnz) as [[Hu Ht] Hf]. split; [|done]. rewrite Er. split.
    + apply (rl_used _ _ _ R1); [lia|]. split; [done|]. intros v' Hv' Hp' Hnz' E. apply Hp. symmetry.
      assert (v' / PAGE_SIZE = va / PAGE_SIZE) as <- by (unfold page_at, PAGE_SIZE in *; Z.div_mod_to_equations; lia).
      apply Hun; [unfold region, page_at in *; nia|done..].
    + intros q t Hq Hl E. apply (Ht q t Hq Hl). by apply (rl_table _ _ _ R1).
  - intros v v' Hv Hv'. destruct (Hin v Hv) as (Hb & Hr & Hn & _), (Hin v' Hv') as (Hb' & Hr' & Hn' & _).
    rewrite !(rl_out _ _ _ R1) by done. by apply Hun.
  - exists s2. split; [done|].
    assert (releases (λ v, page_at va v ∨ region (va + PAGE_SIZE) (va + PAGE_SIZE + Z.of_nat n * PAGE_SIZE) v) s s2) as R.
    { eapply releases_trans; [..|exact R1|exact R2]; [intros v; apply and_dec; apply Z_le_dec || apply Z_lt_dec|]. intros v Hv Hv'. by destruct (Hin v Hv') as (_ & _ & Hn & _). }
    assert (∀ v, (page_at va v ∨ region (va + PAGE_SIZE) (va + PAGE_SIZE + Z.of_nat n * PAGE_SIZE) v) ↔ region va (va + Z.of_nat (S n) * PAGE_SIZE) v) as Hiff
      by (intros v; unfold page_at, region; nia).
    destruct R as [T C S I O M U K B]. split; try done.
    + intros v Hv Hg. apply I; [done|]. by apply Hiff.
    + intros v Hv Hg. apply O; [done|]. by rewrite Hiff.
    + intros f Hf. rewrite U by done. by setoid_rewrite Hiff.
    + intros v fl Hv Hg. apply K; [done|]. by rewrite Hiff.
Qed.

(** ** What a growing call hands out *)

(** The page of [va] has a page table. *)
Definition paged s (va : Z) : Prop := is_Some (table_at (pm s) (get_pml4 s) [pml4_idx va; pdpt_idx va; pd_idx va]).

Lemma paged_small s va : paged s va → small s va.
Proof using Type.
  intros [t Ht] t3 E3 Hpr. change [pml4_idx va; pdpt_idx va; pd_idx va] with ([pml4_idx va; pdpt_idx va] ++ [pd_idx va]) in Ht.
  rewrite (table_at_snoc _ _ _ _ _ E3) in Ht. cbv zeta in Ht. rewrite Hpr in Ht. by destruct (huge _).
Qed.

(** The pages [g] of [s'] are new since [s]: cleared, mapped with [flags], in frames of
    their own that were free. *)
Record gives (g : Z → Prop) (flags : Z) s s' : Prop := {
  gv_fills : fills P g flags (λ _, 0) s s';
  gv_paged v : 0 ≤ v < 2 ^ 47 → g v ∨ paged s v → paged s' v;
  gv_frame v : 0 ≤ v < 2 ^ 47 → g v → 0 < frame_of (virt_to_phys v s') < NUM_FRAMES ∧ fa_used (fa s) (frame_of (virt_to_phys v s')) = false;
  gv_unshared : (∀ v, g v → 0 ≤ v < 2 ^ 47) → unshared g s';
}.

Lemma map_zero_page_gives flags va s :
  user_ok P s → 0 ≤ va < 2 ^ 47 → va `mod` PAGE_SIZE = 0 → Z.land flags PHYS_MASK = 0 → Z.testbit flags 0 = true →
  ensures (map_zero_page flags va s) (gives (page_at va) flags s).
Proof using All.
  intros Hu Hva Hal Hfl Hb. pose proof (map_zero_page_spec flags va s Hu Hva Hal Hfl Hb) as Hspec.
  pose proof (map_fresh P HP va flags s Hu Hva Hal Hfl Hb) as Hm. unfold map_zero_page in *.
  destruct (alloc s) as [[s1 phys]| | |] eqn:Ea; try done. simpl in Hm, Hspec |- *. destruct (Vmm.map va phys flags s1) as [s2| | |] eqn:Em; try done.
  simpl in Hm, Hspec |- *. destruct Hm as (X & D & F & N & U & _ & W). pose proof (extends_pml4 P _ _ _ X) as R.
  set (s' := with_pm (fill (pm s2) phys PAGE_SIZE 0) s2) in *.
  destruct (write_tables P (get_pml4 s) s2 (fill (pm s2) phys PAGE_SIZE 0) _ (x_tree _ _ _ _ X) D) as (_ & _ & HT).
  { intros x Hx. by apply cleared_outside. }
  assert (get_pml4 s' = get_pml4 s) as Rs by exact R.
  assert (∀ v, 0 ≤ v < 2 ^ 47 → page_at va v → virt_to_phys v s' = phys + v `mod` PAGE_SIZE) as Hph.
  { intros v Hv Hin. unfold virt_to_phys. rewrite Rs. destruct (write_extends P (get_pml4 s) s2 (pm s') _ (x_tree _ _ _ _ X) D) as (_ & _ & Hw).
    { intros x Hx. by apply cleared_outside. }
    pose proof (Hw v (HP v Hv)) as Hwv. etrans; [exact Hwv|]. rewrite W by done. rewrite decide_True; [done|]. unfold page_at, PAGE_SIZE in *. Z.div_mod_to_equations. lia. }
  split; [exact Hspec|..].
  - intros v Hv Hp. unfold paged in *. rewrite Rs. cbn [s' pm with_pm].
    assert (ok_path P [pml4_idx v; pdpt_idx v; pd_idx v]) as Hpath.
    { eapply ok_path_prefix; [|exact (idx_path_ok P v (HP v Hv))]. do 3 apply prefix_cons. apply prefix_nil. }
    rewrite HT by (done || (cbn; lia)). destruct (alloc_extends P (get_pml4 s) s s1 phys (uo_tree _ _ Hu) Ea) as (X1 & _ & _ & _ & Hpm).
    unfold Vmm.map in Em. rewrite (extends_pml4 P _ _ _ X1) in Em.
    destruct (map_into_full P (get_pml4 s) va phys flags s1 s2 (x_tree _ _ _ _ X1) (HP va Hva) Em) as (G & _ & (t4 & t3 & t2 & _ & _ & T2 & _)).
    destruct Hp as [Hin|[t Ht]].
    + assert (idx_path v = idx_path va) as [= -> -> -> _].
      { apply same_page; [lia..|]. unfold page_at, PAGE_SIZE in *. Z.div_mod_to_equations. lia. }
      by exists t2.
    + exists t. apply (g_keep _ _ _ _ G); [done|cbn; lia|]. by rewrite Hpm.
  - intros v Hv Hin. rewrite Hph by done. rewrite frame_of_offset by (done || apply (Z.mod_pos_bound v PAGE_SIZE); done). split; [|done].
    destruct F as (f & -> & Hf). unfold frame_of, PAGE_SIZE in *. rewrite Z.div_mul by lia. lia.
  - intros _ v v' Hv Hv' _ _ _. unfold page_at, PAGE_SIZE in *. Z.div_mod_to_equations. lia.
Qed.

Lemma gives_trans g1 g2 fl s s1 s2 :
  (∀ va, Decision (g1 va)) → (∀ va, Decision (g2 va)) → (∀ va, g1 va → ¬ g2 va) →
  gives g1 fl s s1 → gives g2 fl s1 s2 → gives (λ va, g1 va ∨ g2 va) fl s s2.
Proof using All.
  intros D1 D2 Hdis [F1 P1 R1 U1] [F2 P2 R2 U2].
  assert (∀ v, 0 ≤ v < 2 ^ 47 → g1 v → virt_to_phys v s2 = virt_to_phys v s1) as Hkeep.
  { intros v Hv Hg. apply (fi_out _ _ _ _ _ _ F2); [done|by apply Hdis]. }
  assert (∀ v, 0 ≤ v < 2 ^ 47 → g1 v → fa_used (fa s1) (frame_of (virt_to_phys v s1)) = true) as Hused.
  { intros v Hv Hg. by destruct (fi_in _ _ _ _ _ _ F1 v Hv Hg) as (_ & [Hu _] & _). }
  split.
  - by eapply fills_trans.
  - intros v Hv [[Hg|Hg]|Hp]; apply P2; auto.
  - intros v Hv [Hg|Hg]; [rewrite Hkeep by done; by apply R1|]. destruct (R2 v Hv Hg) as [Hb Hu]. split; [done|].
    destruct (fa_used (fa s) _) eqn:E; [|done]. apply (x_used _ _ _ _ (fi_ext _ _ _ _ _ _ F1)) in E. congruence.
  - intros Hall v v' Hv Hv' Hnz Hnz' E.
    assert (0 ≤ v < 2 ^ 47 ∧ 0 ≤ v' < 2 ^ 47) as [Hb Hb'] by (split; apply Hall; tauto).
    destruct Hv as [Hg|Hg], Hv' as [Hg'|Hg'].
    + rewrite !Hkeep in * by done. apply (U1 ltac:(intros; apply Hall; by left)); done.
    + exfalso. destruct (R2 v' Hb' Hg') as [_ Hu]. rewrite (Hkeep v) in E by done. rewrite <-E, Hused in Hu; done.
    + exfalso. destruct (R2 v Hb Hg) as [_ Hu]. rewrite (Hkeep v') in E by done. rewrite E, Hused in Hu; done.
    + apply (U2 ltac:(intros; apply Hall; by right)); done.
Qed.

Lemma gives_ext (g h : Z → Prop) fl s s' : (∀ v, g v ↔ h v) → gives g fl s s' → gives h fl s s'.
Proof using All.
  intros Hgh [F Pg R U]. split; [by eapply fills_ext|..].
  - intros v Hv Hp. apply Pg; [done|]. by rewrite Hgh.
  - intros v Hv Hh. apply R; [done|]. by apply Hgh.
  - intros Hall v v' Hv Hv'. apply U; [intros x Hx; apply Hall; by apply Hgh|by apply Hgh|by apply Hgh].
Qed.

Lemma map_zero_pages_gives flags n va s :
  user_ok P s → 0 ≤ va → va + Z.of_nat n * PAGE_SIZE ≤ 2 ^ 47 → va `mod` PAGE_SIZE = 0 →
  Z.land flags PHYS_MASK = 0 → Z.testbit flags 0 = true →
  ensures (map_zero_pages n flags va s) (gives (region va (va + Z.of_nat n * PAGE_SIZE)) flags s).
Proof using All.
  intros Hu Hva Hend Hal Hfl Hb. revert va s Hu Hva Hend Hal. induction n as [|n IH]; intros va s Hu Hva Hend Hal; cbn [map_zero_pages].
  { assert (∀ v, ¬ region va (va + Z.of_nat 0 * PAGE_SIZE) v) as Hno by (intros v; unfold region; lia). cbn [ensures].
    split; [by apply fills_none|by intros v _ [Hg|]; [destruct (Hno v)|]|intros v _ Hg; by destruct (Hno v)|intros _ v v' Hg; by destruct (Hno v)]. }
  assert (0 < PAGE_SIZE) as HPS by done.
  eapply ensures_bind; [apply map_zero_page_gives; done || nia|].
  intros s1 F1. pose proof (extends_user P _ _ Hu (fi_ext _ _ _ _ _ _ (gv_fills _ _ _ _ F1))) as Hu1.
  eapply ensures_mono; [apply IH; [done|nia|nia|]|].
  { rewrite Z.add_mod, Hal by done. reflexivity. }
  intros s2 F2. eapply gives_ext; [|eapply gives_trans; [..|exact F1|exact F2]].
  - intros v. unfold page_at, region. nia.
  - intros v. apply and_dec; apply Z_le_dec || apply Z_lt_dec.
  - intros v. apply and_dec; apply Z_le_dec || apply Z_lt_dec.
  - intros v. unfold page_at, region. lia.
Qed.

(** The same, with the frames it may need. *)
Lemma map_zero_pages_frames flags lo hi s :
  user_ok P s → 0 ≤ lo ≤ hi → hi ≤ 2 ^ 47 → lo `mod` 4096 = 0 → hi `mod` 4096 = 0 →
  Z.land flags PHYS_MASK = 0 → Z.testbit flags 0 = true →
  ensures_frames (4 * Z.to_nat ((hi - lo) / 4096)) (fa s) (map_zero_pages (page_count lo hi) flags lo s) (gives (region lo hi) flags s).
Proof using All.
  intros Hu Hlo Hhi Hl Hh Hfl Hb. pose proof (page_count_eq lo hi Hl Hh ltac:(lia)) as Ec.
  replace (Z.to_nat ((hi - lo) / 4096)) with (page_count lo hi) by (unfold page_count, PAGE_SIZE; f_equal; Z.div_mod_to_equations; lia).
  eapply ensures_costs; [|apply map_zero_pages_costs]. rewrite <-Ec at 2.
  apply map_zero_pages_gives; done || lia.
Qed.

(** What was handed out can be given back. *)
Lemma gives_owned g fl s s' v : get_pml4 s' = get_pml4 s → gives g fl s s' → 0 ≤ v < 2 ^ 47 → g v → owned s' v.
Proof using All.
  intros E G Hv Hg. split; [apply paged_small, (gv_paged _ _ _ _ G); [done|by left]|]. intros _.
  destruct (fi_in _ _ _ _ _ _ (gv_fills _ _ _ _ G) v Hv Hg) as (_ & Hd & _). split; [exact Hd|]. by apply (gv_frame _ _ _ _ G).
Qed.

(** ** The properties *)

Definition page_top (x : Z) : Z := (x + 4095) / 4096 * 4096.

Lemma page_top_bounds x : x ≤ page_top x < x + 4096 ∧ page_top x `mod` 4096 = 0.
Proof using Type. unfold page_top. Z.div_mod_to_equations. lia. Qed.

Lemma USER_RW_flags : Z.land USER_RW PHYS_MASK = 0 ∧ Z.testbit USER_RW 0 = true.
Proof using Type. split; reflexivity. Qed.

Lemma prot_flags_ok prot : Z.land (prot_flags prot) PHYS_MASK = 0 ∧ Z.testbit (prot_flags prot) 0 = true.
Proof using Type. unfold prot_flags. destruct (negb _), (_ =? 0); split; reflexivity. Qed.

(** The bits of the flags of a protection. *)
Lemma prot_flags_rights prot :
  Z.testbit (prot_flags prot) 0 = true ∧ Z.testbit (prot_flags prot) 2 = true ∧
  Z.testbit (prot_flags prot) 1 = Z.testbit prot 1 ∧ Z.testbit (prot_flags prot) 63 = negb (Z.testbit prot 2).
Proof using Type.
  pose proof (land_pow2_testbit prot 1 ltac:(lia)) as E1. pose proof (land_pow2_testbit prot 2 ltac:(lia)) as E2.
  unfold prot_flags. change PROT_WRITE with (2 ^ 1). change PROT_EXEC with (2 ^ 2). rewrite E1, <-E2.
  by destruct (Z.testbit prot 1), (Z.land prot (2 ^ 2) =? 0).
Qed.

(** C37. [brk] moves the break exactly when it is asked to a place from the start of the heap
    up to the ceiling, and else answers the old one and changes nothing.  Growing maps the
    pages between the rounded breaks, cleared, for the program to read and write but not
    execute, and shrinking gives them back: unmapped, their frames free.  Every other page
    translates as before with its rights and no data changes.  It stops only when fewer
    frames are free than four for each page it maps. *)
Theorem brk_moves_break addr self s :
  user_ok P s → 0 ≤ brk_start self → 0 ≤ brk_cur self ≤ BRK_CEILING → 0 ≤ addr →
  (∀ v, region (page_top addr) (page_top (brk_cur self)) v → owned s v) → unshared (region (page_top addr) (page_top (brk_cur self))) s →
  ensures_frames (4 * Z.to_nat ((page_top addr - page_top (brk_cur self)) / 4096)) (fa s) (sys_brk addr self s) (λ '(s', self', r),
    if decide (addr = 0 ∨ addr < brk_start self ∨ BRK_CEILING < addr) then s' = s ∧ self' = self ∧ r = brk_cur self
    else r = addr ∧ self' = set_brk_cur addr self ∧
      if decide (page_top (brk_cur self) ≤ page_top addr)
      then gives (region (page_top (brk_cur self)) (page_top addr)) USER_RW s s' ∧
        ∀ v, region (page_top (brk_cur self)) (page_top addr) v → user_page (pm s') (get_pml4 s') v true false
      else releases (region (page_top addr) (page_top (brk_cur self))) s s').
Proof using All.
  intros Hu Hst Hcur Ha Hown Hun. unfold sys_brk. unfold BRK_CEILING in *.
  destruct (Z.eqb_spec addr 0); cbn [orb]; [simpl; by rewrite decide_True by lia|].
  destruct (Z.ltb_spec addr (brk_start self)); [simpl; by rewrite decide_True by lia|].
  destruct (Z.ltb_spec 0x1000000 addr); [simpl; by rewrite decide_True by lia|].
  rewrite !sys_page_up_eq by lia. fold (page_top (brk_cur self)) (page_top addr).
  pose proof (page_top_bounds addr) as [Ba Ma]. pose proof (page_top_bounds (brk_cur self)) as [Bc Mc].
  set (new := page_top addr) in *. set (old := page_top (brk_cur self)) in *.
  destruct (Z.ltb_spec old new).
  - destruct USER_RW_flags as [Fl Fb].
    eapply ensures_frames_bind; [apply map_zero_pages_frames; done || lia|]. intros s' G. cbn [ensures_frames].
    rewrite decide_False by lia. rewrite decide_True by lia. split_and!; [done..|]. intros v Hv.
    apply (rights_user_page _ _ _ USER_RW); [reflexivity..|]. apply (fi_rights _ _ _ _ _ _ (gv_fills _ _ _ _ G)); [|done].
    unfold region in Hv. lia.
  - destruct (Z.ltb_spec new old).
    + pose proof (page_count_eq new old Ma Mc ltac:(lia)) as Ec.
      destruct (unmap_pages_spec (page_count new old) new s) as (s' & -> & R); [apply Hu|lia|lia|done|by rewrite Ec|by rewrite Ec|].
      rewrite Ec in R. cbn. rewrite decide_False by lia. by rewrite decide_False by lia.
    + cbn. rewrite decide_False by lia. rewrite decide_True by lia. split_and!; try done.
      * assert (∀ v, ¬ region old new v) as Hno by (intros v; unfold region; lia).
        split; [by apply fills_none|by intros v _ [Hg|]; [destruct (Hno v)|]|intros v _ Hg; by destruct (Hno v)|intros _ v v' Hg; by destruct (Hno v)].
      * intros v Hv. unfold region in Hv. lia.
Qed.

Lemma sys_page_down_eq x : sys_page_down x = x / 4096 * 4096.
Proof using Type. unfold sys_page_down. change (PAGE_SIZE - 1) with 4095. rewrite band_not_4095. Z.div_mod_to_equations. lia. Qed.

(** [munmap] after the pages were handed out. *)
Lemma munmap_after_mmap len base flags s s1 :
  let g := region base (base + page_top len) in
  0 ≤ base → base `mod` 4096 = 0 → 0 ≤ len → base + len + 4096 ≤ 2 ^ 47 → user_ok P s → gives g flags s s1 →
  ∃ s2, sys_munmap base len s1 = Ok s2 ∧ releases g s1 s2 ∧
    (∀ v, g v → virt_to_phys v s2 = 0 ∧ fa_used (fa s2) (frame_of (virt_to_phys v s1)) = false) ∧
    (∀ v, 0 ≤ v < 2 ^ 47 → ¬ g v → virt_to_phys v s2 = virt_to_phys v s ∧
      ∀ w x, user_page (pm s) (get_pml4 s) v w x → user_page (pm s2) (get_pml4 s2) v w x) ∧
    ((∀ v, g v → virt_to_phys v s = 0) → ∀ v, 0 ≤ v < 2 ^ 47 → virt_to_phys v s2 = virt_to_phys v s) ∧
    (∀ x, data_frame P (get_pml4 s) s (frame_of x) → pm s2 x = pm s x).
Proof using All.
  intros g Hn Hal Hlen Hend Hu G. pose proof (page_top_bounds len) as [Bl Ml].
  pose proof (gv_fills _ _ _ _ G) as F. pose proof (fi_ext _ _ _ _ _ _ F) as X. pose proof (extends_pml4 P _ _ _ X) as R.
  assert (∀ v, g v → 0 ≤ v < 2 ^ 47) as Hin by (intros v; unfold g, region; lia).
  assert ((base + page_top len) `mod` 4096 = 0) as Mt by (rewrite Z.add_mod, Hal, Ml by lia; reflexivity).
  pose proof (page_count_eq base (base + page_top len) Hal Mt ltac:(lia)) as Ec.
  unfold sys_munmap. rewrite sys_page_down_eq, (u64_small (base + len)) by (unfold is_u64; lia). rewrite sys_page_up_eq by lia.
  assert (base / 4096 * 4096 = base ∧ (base + len + 4095) / 4096 * 4096 = base + page_top len) as [-> ->].
  { unfold page_top. Z.div_mod_to_equations. lia. }
  destruct (unmap_pages_spec (page_count base (base + page_top len)) base s1) as (s2 & -> & Rl).
  { rewrite R. apply X. } { done. } { lia. } { done. }
  { rewrite Ec. intros v Hv. by apply (gives_owned g flags s); [..|apply Hin|]. } { rewrite Ec. by apply (gv_unshared _ _ _ _ G). }
  rewrite Ec in Rl. fold g in Rl. exists s2.
  assert (∀ v, g v → virt_to_phys v s2 = 0) as Hgone by (intros v Hv; apply (rl_in _ _ _ Rl); [by apply Hin|done]).
  assert (∀ v, 0 ≤ v < 2 ^ 47 → ¬ g v → virt_to_phys v s2 = virt_to_phys v s) as Hout.
  { intros v Hv Hg. rewrite (rl_out _ _ _ Rl) by done. by apply (fi_out _ _ _ _ _ _ F). }
  split_and!; [done|done|..].
  - intros v Hv. split; [by apply Hgone|]. destruct (gv_frame _ _ _ _ G v (Hin v Hv) Hv) as [Hb _].
    destruct (fa_used (fa s2) _) eqn:E; [|done]. apply (rl_used _ _ _ Rl) in E as [_ E]; [|lia].
    destruct (fi_in _ _ _ _ _ _ F v (Hin v Hv) Hv) as [Hnz _]. by destruct (E v (Hin v Hv) Hv Hnz).
  - intros v Hv Hg. split; [by apply Hout|]. intros w x Hup. eapply user_page_keep; [exact Hup|]. intros fl Hr.
    rewrite (releases_pml4 _ _ _ Rl). apply (rl_rights _ _ _ Rl); [done|done|]. by apply (fi_keep _ _ _ _ _ _ F).
  - intros Hno v Hv. destruct (decide (base ≤ v < base + page_top len)) as [Hg|Hg]; [|by apply Hout].
    rewrite Hgone by done. by rewrite Hno.
  - intros x Hx. rewrite (rl_mem _ _ _ Rl); [by apply X|]. intros q t Hq Hl Et.
    destruct (x_data _ _ _ _ X _ Hx) as [_ Hd]. rewrite R in Et. by apply (Hd q t).
Qed.


End spec.

(** ** Concrete runs *)

(** A program whose heap starts at 8 MiB and is one page long. *)
Definition heap_task : Task := MkTask 0 0 0 0 1 Running 0 0 0 0x1000 0x800000 0x800800 0x10000000 0 0 0 0 (replicate MAX_FDS 0) 0 [0].

(** Growing it by two pages on a machine with 160 free frames. *)
Lemma brk_moves_break_witness :
  match sys_brk 0x802000 heap_task roomy with
  | Ok (s', self', r) => r = 0x802000 ∧ brk_cur self' = 0x802000 ∧ gives (λ _, True) (region 0x801000 0x802000) USER_RW roomy s'
  | _ => False
  end.
Proof.
  assert (is_ok (sys_brk 0x802000 heap_task roomy) = true) as Hok by (vm_compute; reflexivity).
  assert (∀ v, ¬ region (page_top 0x802000) (page_top (brk_cur heap_task)) v) as Hno.
  { intros v. unfold region. change (page_top 0x802000) with 0x802000. change (page_top (brk_cur heap_task)) with 0x801000. lia. }
  pose proof (brk_moves_break (λ _, True) (λ _ _, I) 0x802000 heap_task roomy roomy_ok ltac:(cbn; lia) ltac:(unfold BRK_CEILING; cbn; lia) ltac:(lia)
    (λ v Hv, False_ind _ (Hno v Hv)) (λ v v' Hv, False_ind _ (Hno v Hv))) as T.
  destruct (sys_brk 0x802000 heap_task roomy) as [[[s' self'] r]| | |]; try discriminate Hok.
  cbn [ensures_frames] in T. rewrite decide_False in T by (vm_compute; intuition congruence). destruct T as (-> & -> & T).
  split; [reflexivity|]. split; [reflexivity|]. rewrite decide_True in T by (vm_compute; congruence). apply T.
Defined.

