(* ===== verification/SysSpec.v ===== *)
(** * Files of a process

    The descriptor table stays sound through every system call: a descriptor names an
    open file that is in the heap, and no two descriptors of the process name the same one,
    so its [close] never frees a block that is not live.  (After a fork another process
    names the same files: that is not part of this state.)  Directories are listed entry by entry, reads follow the offset. *)

From stdpp Require Import strings.
From S2P Require Import Prelude CString Mem Frames Pmm Vmm Task BumpEnv Fs Vfs VfsSpec Tty Keyboard Elf User UserMem Hardware Timers Procfs Stdin UserStack Syscall SysMem.

Section table.
Context {K P A : Type} `{KernelEnvLaws K} `{FrameAlloc A}.
Implicit Types (k : K) (y : Sys K P A) (sb : SuperBlock K P).

Definition live_keeps k k' : Prop := ∀ q, k_live k q = true → k_live k' q = true.

#[local] Instance live_keeps_preorder : PreOrder live_keeps.
Proof using Type. split; [by intros k q|intros k1 k2 k3 H12 H23 q Hq; by apply H23, H12]. Qed.

(** A driver frees nothing but what it allocated itself. *)
Record driver_ok sb : Prop := {
  dr_root ri k k' o : op_root_inode sb = Some ri → ri k = Ok (k', o) → live_keeps k k';
  dr_get gi i k k' o : op_get_inode sb = Some gi → gi i k = Ok (k', o) → live_keeps k k';
  dr_read rd i off n k k' r : op_read (inode_ops sb) = Some rd → rd i off n k = Ok (k', r) → live_keeps k k';
  dr_readdir rd i off n k k' r : op_readdir (inode_ops sb) = Some rd → rd i off n k = Ok (k', r) → live_keeps k k';
}.

Lemma scan_dir_keeps fuel sb rd cur comp off buf k k' o :
  driver_ok sb → op_readdir (inode_ops sb) = Some rd → scan_dir fuel rd cur comp off buf k = Ok (k', o) → live_keeps k k'.
Proof using Type.
  intros Hd Hrd. revert off buf k. induction fuel as [|fuel IH]; intros off buf k; cbn [scan_dir]; [done|]. intros E. res_inv.
  destruct a as [k1 [n out]]. pose proof (dr_readdir _ Hd _ _ _ _ _ _ _ Hrd Ha) as L1. res_inv. case_match; [by simplify_eq|]. res_inv.
  case_match; [by simplify_eq|]. etrans; [exact L1|]. by eapply IH.
Qed.

Lemma walk_path_keeps fuel dir_fuel stale sb cur path k k' o :
  driver_ok sb → walk_path fuel dir_fuel stale sb cur path k = Ok (k', o) → live_keeps k k'.
Proof using Type.
  intros Hd. revert cur path k. induction fuel as [|fuel IH]; intros cur path k; cbn [walk_path]; [done|]. intros E. res_inv.
  case_match; [by simplify_eq|]. res_inv. destruct a0 as [comp rest]. case_match eqn:Er; [|by simplify_eq]. res_inv.
  destruct a0 as [k1 found]. pose proof (scan_dir_keeps _ _ _ _ _ _ _ _ _ _ Hd Er Ha1) as L1. case_match; [|by simplify_eq].
  case_match eqn:Eg; [|by simplify_eq]. res_inv. destruct a0 as [k2 nx]. pose proof (dr_get _ Hd _ _ _ _ _ Eg Ha2) as L2.
  case_match; [|by simplify_eq; etrans]. etrans; [exact L1|]. etrans; [exact L2|]. by eapply IH.
Qed.

Lemma lookup_path_keeps dir_fuel stale sb root path k k' o :
  driver_ok sb → lookup_path dir_fuel stale sb root path k = Ok (k', o) → live_keeps k k'.
Proof using Type. intros Hd E. unfold lookup_path in E. res_inv. case_match; [by simplify_eq|by eapply walk_path_keeps]. Qed.

(** The mounted file systems. *)
Definition mounted (v : Vfs K P) (sb : SuperBlock K P) : Prop := root_sb v = Some sb ∨ ∃ p, (p, sb) ∈ s_mounts v.

Lemma find_mount_in (ms : list (list Z * SuperBlock K P)) path sb rel : find_mount ms path = Ok (Some (sb, rel)) → ∃ p, (p, sb) ∈ ms.
Proof using Type.
  induction ms as [|[p sb'] ms IH]; cbn [find_mount]; [done|]. intros E. res_inv. destruct a1; res_inv.
  - simplify_eq. exists p. apply list_elem_of_here.
  - destruct (IH E) as [p' Hp]. exists p'. by apply list_elem_of_further.
Qed.

(** What [open] does to the heap and the open files. *)
Lemma open_keeps dir_fuel stale path v v' f :
  (∀ sb, mounted v sb → driver_ok sb) → open dir_fuel stale path v = Ok (v', f) →
  root_sb v' = root_sb v ∧ s_mounts v' = s_mounts v ∧ live_keeps (kern v) (kern v') ∧
  (f = 0 ∧ files v' = files v ∨
   f ≠ 0 ∧ k_live (kern v) f = false ∧ k_live (kern v') f = true ∧ ∃ sb i, mounted v sb ∧ files v' = <[f := MkFile sb i 0]> (files v)).
Proof using H0.
  intros Hd E. unfold open in E. res_inv. destruct a as [osb rel]. destruct osb as [sb|]; [|simplify_eq; by split_and!; [..|left]].
  assert (mounted v sb) as Hm.
  { unfold resolve_mount in Ha. res_inv. destruct a as [[sb' rel']|]; res_inv; simplify_eq; [right; by eapply find_mount_in|by left]. }
  case_match eqn:Er; [|simplify_eq; by split_and!; [..|left]]. res_inv. destruct a as [k1 root].
  pose proof (dr_root _ (Hd _ Hm) _ _ _ _ Er Ha0) as L1. destruct root as [root|]; [|simplify_eq; by split_and!; [..|left]].
  res_inv. destruct a as [k2 tgt]. pose proof (lookup_path_keeps _ _ _ _ _ _ _ _ (Hd _ Hm) Ha1) as L2.
  assert (live_keeps (kern v) k2) as L by by etrans.
  destruct tgt as [tgt|]; [|simplify_eq; by split_and!; [..|left]]. res_inv. destruct a as [k3 p].
  assert (live_keeps k2 k3) as L3 by (intros q; by apply (kmalloc_live _ _ _ _ _ Ha2)).
  destruct (Z.eqb_spec p 0) as [->|Hp]; simplify_eq; cbn [with_kern with_files root_sb s_mounts kern files].
  - split_and!; try done; [by etrans|by left].
  - split_and!; try done; [by etrans|]. right. destruct (kmalloc_spec _ _ _ _ Ha2) as [[? _]|(_ & _ & _ & Hf & Hl)]; [done|].
    split_and!; [done| |by rewrite Hl, Z.eqb_refl|by eexists _, _]. destruct (k_live (kern v) f) eqn:El; [|done]. apply L in El. congruence.
Qed.

(** ** The invariant *)

(** Descriptors from 3 on name open files that are in the heap, each a different one. *)
Record fds_ok (v : Vfs K P) (l : list Z) : Prop := {
  fo_len : length l = MAX_FDS;
  fo_open i f : l !! i = Some f → f ≠ 0 → (3 ≤ i)%nat ∧ is_Some (files v !! f) ∧ k_live (kern v) f = true;
  fo_inj i j f : l !! i = Some f → l !! j = Some f → f ≠ 0 → i = j;
}.

Record sys_ok y : Prop := {
  so_self : ∃ self, y_tasks y !! y_current y = Some self ∧ fds_ok (y_vfs y) (fds self);
  so_mounts sb : mounted (y_vfs y) sb → driver_ok sb;
  so_files f fl : files (y_vfs y) !! f = Some fl → driver_ok (f_sb fl) ∧ k_live (kern (y_vfs y)) f = true;
}.

(** Calls that touch neither the file system nor the tasks. *)
Definition same y y' : Prop := y_vfs y' = y_vfs y ∧ y_tasks y' = y_tasks y ∧ y_current y' = y_current y.

#[local] Instance same_preorder : PreOrder same.
Proof using Type. split; [done|intros y1 y2 y3 (? & ? & ?) (? & ? & ?); split_and!; congruence]. Qed.

Lemma same_ok y y' : same y y' → sys_ok y → sys_ok y'.
Proof using Type. intros (E1 & E2 & E3) [S M F]. split; rewrite ?E1, ?E2, ?E3; done. Qed.

Lemma put_user_same va bs y y' : put_user va bs y = Ok y' → same y y'.
Proof using Type. intros E. unfold put_user in E. res_inv. by subst. Qed.

(** The current task, with a descriptor table. *)
Lemma with_self_ok y self self' :
  sys_ok y → y_tasks y !! y_current y = Some self → fds self' = fds self → sys_ok (with_self self' y).
Proof using Type.
  intros [(s & E & Hf) M F] E' Ef. assert (s = self) as -> by congruence. split; [|exact M|exact F].
  exists self'. cbn. rewrite lookup_insert_eq. split; [done|by rewrite Ef].
Qed.

(** ** Opening and closing *)

Context (path_fuel dir_fuel : nat) (stale stale_name : list Z).

Lemma mounted_same (v v' : Vfs K P) sb : root_sb v' = root_sb v → s_mounts v' = s_mounts v → mounted v' sb → mounted v sb.
Proof using Type. unfold mounted. by intros -> ->. Qed.

Lemma open_user_ok path y y' f :
  sys_ok y → open_user path_fuel dir_fuel stale path y = Ok (y', f) →
  sys_ok y' ∧ y_tasks y' = y_tasks y ∧ y_current y' = y_current y ∧
  (f ≠ 0 → is_Some (files (y_vfs y') !! f) ∧ k_live (kern (y_vfs y')) f = true ∧
           ∀ self, y_tasks y !! y_current y = Some self → f ∉ fds self).
Proof using H0.
  intros [(self & Es & Hf) M F] E. unfold open_user in E. res_inv. destruct a0 as [v' f']. simplify_eq.
  destruct (open_keeps _ _ _ _ _ _ M Ha0) as (Er & Em & L & C). cbn.
  destruct C as [[-> Ef]|(Hnz & Hl & Hl' & sb & i & Hm & Ef)].
  - split; [split; cbn|by split_and!].
    + exists self. split; [done|]. destruct Hf as [Hn Ho Hi]. split; [done| |done]. intros j g Hj Hg. rewrite Ef.
      destruct (Ho j g Hj Hg) as (? & ? & ?). split_and!; auto.
    + intros sb Hsb. apply M. by eapply mounted_same.
    + intros g fl. rewrite Ef. intros Hg. destruct (F g fl Hg). auto.
  - assert (f ∉ fds self) as Hnot.
    { intros [j Hj]%list_elem_of_lookup. destruct Hf as [_ Ho _]. destruct (Ho j f Hj Hnz) as (_ & _ & Hg). congruence. }
    split; [split; cbn|split; [done|split; [done|]]].
    + exists self. split; [done|]. destruct Hf as [Hn Ho Hi]. split; [done| |done]. intros j g Hj Hg. rewrite Ef.
      destruct (Ho j g Hj Hg) as (? & ? & ?). split_and!; auto. rewrite lookup_insert_ne; [done|]. intros <-. apply Hnot, list_elem_of_lookup. by exists j.
    + intros sb' Hsb. apply M. by eapply mounted_same.
    + intros g fl. rewrite Ef, lookup_insert_Some. intros [[<- <-]|[_ Hg]]; [split; [by apply M|done]|]. destruct (F g fl Hg). auto.
    + intros _. split_and!; [by rewrite Ef, lookup_insert_eq; eexists|done|].
    intros s E'. assert (s = self) as -> by congruence. done.
Qed.

(** Freeing an open file that the table does not name. *)
Lemma free_file_ok f y y' l :
  fds_ok (y_vfs y) l → f ∉ l → f ≠ 0 → k_live (kern (y_vfs y)) f = true → free_file f y = Ok y' →
  fds_ok (y_vfs y') l ∧ root_sb (y_vfs y') = root_sb (y_vfs y) ∧ s_mounts (y_vfs y') = s_mounts (y_vfs y) ∧
  y_tasks y' = y_tasks y ∧ y_current y' = y_current y ∧ ∀ g fl, files (y_vfs y') !! g = Some fl → files (y_vfs y) !! g = Some fl ∧ (k_live (kern (y_vfs y)) g = true → k_live (kern (y_vfs y')) g = true).
Proof using H0.
  intros [Hn Ho Hi] Hnot Hnz Hl E. unfold free_file in E. res_inv. subst y'. cbn.
  destruct (kfree_spec f _ Hl) as (k' & E' & L). rewrite E' in Ha. injection Ha as <-.
  split; [|split_and!; try done; intros g fl [Hne ?]%lookup_delete_Some; split; [done|]; intros Hg; by rewrite L, Hg, (proj2 (Z.eqb_neq g f)) by congruence].
  split; [done| |done]. intros i g Hg Hgz. destruct (Ho i g Hg Hgz) as (? & ? & Hlg). cbn.
  assert (g ≠ f) as Hne by (intros ->; apply Hnot, list_elem_of_lookup; by exists i).
  split_and!; [done|by rewrite lookup_delete_ne|]. by rewrite L, Hlg, (proj2 (Z.eqb_neq g f) Hne).
Qed.

(** The slot [alloc_fd] takes is the first free one. *)
Lemma fd_loop_spec n i l :
  0 ≤ i → i + Z.of_nat n ≤ zlen l →
  ∃ r, fd_loop n i l = Ok r ∧
    match r with
    | Some j => i ≤ j < i + Z.of_nat n ∧ zget l j = Some 0 ∧ ∀ x, i ≤ x < j → zget l x ≠ Some 0
    | None => ∀ x, i ≤ x < i + Z.of_nat n → zget l x ≠ Some 0
    end.
Proof using Type.
  revert i. induction n as [|n IH]; intros i Hi Hl; cbn [fd_loop]; [exists None; split; [done|lia]|].
  destruct (zget_is_Some l i) as [f Hf]; [lia|]. rewrite Hf. res_step. destruct (Z.eqb_spec f 0) as [->|Hnz].
  - exists (Some i). split; [done|]. split_and!; [lia|lia|done|lia].
  - destruct (IH (i + 1)) as (r & -> & Hr); [lia..|]. exists r. split; [done|]. destruct r as [j|].
    + destruct Hr as (Hj & Hz & Hx). split_and!; [lia|lia|done|]. intros x Hxj. destruct (decide (x = i)) as [->|]; [congruence|apply Hx; lia].
    + intros x Hxj. destruct (decide (x = i)) as [->|]; [congruence|apply Hr; lia].
Qed.

Lemma real_file_slot self fd f : real_file self fd = Ok f → f ≠ 0 → 3 ≤ fd < 16 ∧ fds self !! Z.to_nat fd = Some f.
Proof using Type.
  unfold real_file. change (Z.of_nat MAX_FDS) with 16. destruct (_ || _) eqn:Eb; intros E; res_inv; [done|]. bool_arith.
  apply zget_Some in E as [_ E]. intros _. split; [lia|done].
Qed.

Lemma set_offset_ok y f fl off :
  sys_ok y → files (y_vfs y) !! f = Some fl → sys_ok (set_offset f fl off y).
Proof using Type.
  intros [(self & Es & [Hn Ho Hi]) M F] Hf. split.
  - exists self. split; [done|]. split; [done| |done]. intros i g Hg Hgz. destruct (Ho i g Hg Hgz) as (? & ? & ?). cbn.
    split_and!; [done| |done]. destruct (decide (f = g)) as [->|]; [by rewrite lookup_insert_eq; eexists|by rewrite lookup_insert_ne].
  - exact M.
  - intros g x. cbn. rewrite lookup_insert_Some. intros [[<- <-]|[_ Hg]]; [by apply (F f fl)|by apply (F g x)].
Qed.

(** A driver's own work on the heap. *)
Lemma with_kern_ok y k' : sys_ok y → live_keeps (kern (y_vfs y)) k' → sys_ok (with_vfs (with_kern k' (y_vfs y)) y).
Proof using Type.
  intros [(self & Es & [Hn Ho Hi]) M F] L. split; [|exact M|intros g fl Hg; destruct (F g fl Hg); auto]. exists self. split; [done|]. split; [done| |done].
  intros i g Hg Hgz. destruct (Ho i g Hg Hgz) as (? & ? & ?). split_and!; auto.
Qed.

Lemma free_sys_ok f y y' :
  sys_ok y → (∀ self, y_tasks y !! y_current y = Some self → f ∉ fds self) → f ≠ 0 → k_live (kern (y_vfs y)) f = true →
  free_file f y = Ok y' → sys_ok y'.
Proof using H0.
  intros [(self & Es & Hf) M F] Hnot Hnz Hl E.
  destruct (free_file_ok f y y' _ Hf (Hnot _ Es) Hnz Hl E) as (Hf' & Er & Em & Et & Ec & Hfl). split.
  - exists self. by rewrite Et, Ec.
  - intros sb Hsb. apply M. by eapply mounted_same.
  - intros g fl Hg. destruct (Hfl g fl Hg) as [Hg' Hk]. destruct (F g fl Hg'). auto.
Qed.

(** Calls that open a path only to look at it. *)
Lemma look_ok path y y1 f y2 y3 :
  sys_ok y → open_user path_fuel dir_fuel stale path y = Ok (y1, f) → f ≠ 0 → same y1 y2 → free_file f y2 = Ok y3 → sys_ok y3.
Proof using H0.
  intros Hy E Hnz Hs Ef. destruct (open_user_ok path y y1 f Hy E) as (Hy1 & Et & Ec & Hop). destruct (Hop Hnz) as (_ & Hl & Hnot).
  destruct Hs as (E1 & E2 & E3). apply (free_sys_ok f y2 y3); [by apply (same_ok y1)| |done|by rewrite E1|done].
  rewrite E2, E3, Et, Ec. exact Hnot.
Qed.

Lemma alloc_fd_ok f self self' fd (v : Vfs K P) :
  fds_ok v (fds self) → f ∉ fds self → f ≠ 0 → is_Some (files v !! f) → k_live (kern v) f = true → alloc_fd f self = Ok (self', fd) →
  fd < 0 ∧ self' = self ∨
  3 ≤ fd < 16 ∧ fds self !! Z.to_nat fd = Some 0 ∧ self' = set_fds (<[Z.to_nat fd := f]> (fds self)) self ∧ fds_ok v (fds self') ∧
  ∀ x, 3 ≤ x < fd → zget (fds self) x ≠ Some 0.
Proof using Type.
  intros [Hn Ho Hi] Hnot Hnz Hs Hl. unfold alloc_fd. destruct (fd_loop_spec (MAX_FDS - 3) 3 (fds self)) as (r & -> & Hr);
    [lia|unfold zlen; rewrite Hn; unfold MAX_FDS; lia|]. res_step. destruct r as [j|]; [|intros [= <- <-]; left; by split].
  destruct Hr as (Hj & Hz & Hx). change (3 + Z.of_nat (MAX_FDS - 3)) with 16 in Hj. apply zget_Some in Hz as Hz'.
  rewrite zset_is by (unfold zlen; rewrite Hn; unfold MAX_FDS; lia). res_step. intros [= <- <-]. right.
  split_and!; [lia|lia|by apply Hz'|done| |done]. cbn [fds set_fds].
  assert (∀ i g, <[Z.to_nat j:=f]> (fds self) !! i = Some g → i = Z.to_nat j ∧ g = f ∨ i ≠ Z.to_nat j ∧ fds self !! i = Some g) as Hlk.
  { intros i g [(? & ? & _)|[? ?]]%list_lookup_insert_Some; [by left|right]. done. }
  split; [by rewrite length_insert|..].
  - intros i g [[-> ->]|[Hne Hg]]%Hlk Hgz; [split_and!; [lia|done|done]|by apply Ho].
  - intros i i' g [[-> ->]|[Hne Hg]]%Hlk [[-> E]|[Hne' Hg']]%Hlk Hgz; try done.
    + exfalso. apply Hnot, list_elem_of_lookup. by exists i'.
    + subst g. exfalso. apply Hnot, list_elem_of_lookup. by exists i.
    + by apply (Hi i i' g).
Qed.

Lemma openat_ok path y y' r : sys_ok y → sys_openat path_fuel dir_fuel stale path y = Ok (y', r) → sys_ok y'.
Proof using H0.
  intros Hy E. unfold sys_openat in E. res_inv. destruct a as [y1 f]. destruct (open_user_ok path y y1 f Hy Ha) as (Hy1 & Et & Ec & Hop).
  destruct (Z.eqb_spec f 0) as [->|Hnz]; [by simplify_eq|]. destruct (Hop Hnz) as (Hs & Hl & Hnot). unfold current_task in E. res_inv. rename a into self.
  destruct a0 as [self' fd]. pose proof Ha0 as Ha0'. rewrite Et, Ec in Ha0'.
  destruct Hy1 as [(self1 & Es1 & Hf1) M1 F1]. assert (self1 = self) as -> by congruence.
  destruct (alloc_fd_ok f self self' fd _ Hf1 (Hnot _ Ha0') Hnz Hs Hl Ha1) as [[Hneg ->]|(Hfd & _ & -> & Hf' & _)].
  - rewrite (proj2 (Z.ltb_lt fd 0) Hneg) in E. res_inv. simplify_eq. eapply (free_sys_ok f y1); try done; [split; [by exists self|done..]|].
    intros s E'. assert (s = self) as -> by congruence. by apply Hnot.
  - rewrite (proj2 (Z.ltb_ge fd 0)) in E by lia. simplify_eq. split; [|exact M1|exact F1]. eexists. cbn. rewrite lookup_insert_eq. split; [done|exact Hf'].
Qed.

Lemma close_ok fd y y' r : sys_ok y → sys_close fd y = Ok (y', r) → sys_ok y'.
Proof using H0.
  intros Hy E. unfold sys_close, current_task in E. res_inv. rename a into self, a0 into f. destruct (Z.eqb_spec f 0) as [->|Hnz]; [by simplify_eq|]. res_inv. simplify_eq.
  destruct (real_file_slot _ _ _ Ha0 Hnz) as [Hfd Hsl]. destruct Hy as [(s & Es & Hf) M F]. assert (s = self) as -> by congruence.
  apply zset_Some in Ha2 as (_ & -> & _). destruct Hf as [Hn Ho Hi]. destruct (Ho _ _ Hsl Hnz) as (_ & _ & Hl).
  assert (∀ i g, <[Z.to_nat fd:=0]> (fds self) !! i = Some g → g ≠ 0 → i ≠ Z.to_nat fd ∧ fds self !! i = Some g) as Hlk.
  { intros i g [(? & ? & _)|[? ?]]%list_lookup_insert_Some Hg; [by subst|]. done. }
  assert (fds_ok (y_vfs y) (<[Z.to_nat fd:=0]> (fds self))) as Hf0.
  { split; [by rewrite length_insert|..].
    - intros i g Hg Hgz. destruct (Hlk i g Hg Hgz). by apply Ho.
    - intros i j g Hg Hg' Hgz. destruct (Hlk i g Hg Hgz), (Hlk j g Hg' Hgz). by apply (Hi i j g). }
  destruct (free_file_ok f y a _ Hf0) as (Hf' & Er & Em & Et & Ec & Hfl); [|done|done|done|].
  { intros [i Hg]%list_elem_of_lookup. destruct (Hlk i f Hg Hnz) as [Hne Hg']. by apply Hne, (Hi _ _ f). }
  split.
  - eexists. cbn. rewrite lookup_insert_eq. split; [done|exact Hf'].
  - intros sb Hsb. apply M. by eapply mounted_same.
  - intros g fl Hg. destruct (Hfl g fl Hg) as [Hg' Hk]. destruct (F g fl Hg'). auto.
Qed.

(** [close] always returns. *)
Lemma close_total fd y :
  sys_ok y → ∃ y' r, sys_close fd y = Ok (y', r) ∧
    (r = - EBADF ∧ y' = y ∨
     r = 0 ∧ ∃ self f, y_tasks y !! y_current y = Some self ∧ 3 ≤ fd ∧ zget (fds self) fd = Some f ∧ f ≠ 0 ∧
       k_live (kern (y_vfs y)) f = true ∧ (∀ q, k_live (kern (y_vfs y')) q = if q =? f then false else k_live (kern (y_vfs y)) q) ∧
       files (y_vfs y') = delete f (files (y_vfs y))).
Proof using H0.
  intros [(self & Es & Hf) _ _]. pose proof (fo_len _ _ Hf) as Hlen. unfold MAX_FDS in Hlen. unfold sys_close, current_task. rewrite Es. res_step.
  unfold real_file. change (Z.of_nat MAX_FDS) with 16. destruct (Z.ltb_spec fd 3); [by exists y, (- EBADF); split; [|left]|].
  destruct (Z.leb_spec 16 fd); [by exists y, (- EBADF); split; [|left]|]. cbn [orb].
  destruct (zget_is_Some (fds self) fd) as [f Ef]; [unfold zlen; lia|]. rewrite Ef. res_step.
  destruct (Z.eqb_spec f 0) as [->|Hnz]; [by exists y, (- EBADF); split; [|left]|].
  apply zget_Some in Ef as Ef'. destruct (fo_open _ _ Hf _ _ (proj2 Ef') Hnz) as (_ & _ & Hl). destruct (kfree_spec f _ Hl) as (k' & Ek & Lk).
  unfold free_file. rewrite Ek. res_step. rewrite zset_is by (unfold zlen; lia). res_step. do 2 eexists. split; [done|]. right. split; [done|].
  exists self, f. split_and!; try done. intros q. cbn. rewrite Lk. by destruct (q =? f).
Qed.

(** ** The other calls *)

(** Follow the stores of a call. *)
Ltac same_steps := repeat match goal with H : put_user _ _ _ = Ok _ |- _ => apply put_user_same in H end; simplify_eq; repeat (etrans; [eassumption|]); try done.

Lemma write_loop_same n buf y y' : write_loop n buf y = Ok y' → same y y'.
Proof using Type. revert buf y. induction n as [|n IH]; intros buf y E; cbn [write_loop] in E; res_inv; [by subst|]. by apply IH in E. Qed.

Lemma write_same fd buf len y y' r : sys_write fd buf len y = Ok (y', r) → same y y'.
Proof using Type. unfold sys_write. intros E. case_match; [by simplify_eq|]. res_inv. simplify_eq. by eapply write_loop_same. Qed.

Lemma writev_same n fd iov total y y' r : writev_loop n fd iov total y = Ok (y', r) → same y y'.
Proof using Type.
  revert iov total y. induction n as [|n IH]; intros iov total y E; cbn [writev_loop] in E; res_inv; [by simplify_eq|].
  destruct a1 as [y1 m]. apply write_same in Ha1. etrans; [exact Ha1|]. case_match; [by simplify_eq|]. by apply IH in E.
Qed.

Lemma fill_stat_same out size d y y' : fill_stat out size d y = Ok y' → same y y'.
Proof using Type. unfold fill_stat. intros E. res_inv. same_steps. Qed.

Lemma dents_same l idx dirp w c y y' r : dents_loop l idx dirp w c y = Ok (y', r) → same y y'.
Proof using Type.
  revert idx w y. induction l as [|[i nm] l IH]; intros idx w y E; cbn [dents_loop] in E; [by simplify_eq|]. res_inv. case_match; [by simplify_eq|]. res_inv.
  apply put_user_same in Ha1. etrans; [exact Ha1|]. by apply IH in E.
Qed.

Lemma read_ok world fd buf len y y' r : sys_ok y → sys_read world fd buf len y = Ok (y', r) → sys_ok y'.
Proof using H0.
  intros Hy E. unfold sys_read in E. case_match.
  { res_inv. destruct a as [i bs]. assert (sys_ok (with_io i y)) as Hi by by apply (same_ok y).
    destruct bs as [bs|]; res_inv; simplify_eq; [|done]. apply put_user_same in Ha0. by eapply same_ok. }
  case_match; [by simplify_eq|]. unfold current_task in E. res_inv. rename a into self, a0 into f. destruct (Z.eqb_spec f 0); [by simplify_eq|].
  unfold file_of in E. res_inv. rename a into fl, a0 into rd. destruct a1 as [k [m out]]. res_inv. rename a into y1.
  assert (sys_ok (with_vfs (with_kern k (y_vfs y)) y)) as Hy1.
  { apply with_kern_ok; [done|]. eapply dr_read; [eapply (proj1 (so_files _ Hy _ _ Ha1))|exact Ha2|exact Ha3]. }
  apply put_user_same in Ha4 as Hs. pose proof (same_ok _ _ Hs Hy1) as Hy2. case_match; simplify_eq; [done|].
  apply set_offset_ok; [done|]. destruct Hs as (-> & _). done.
Qed.

Lemma lseek_ok fd off wh y y' r : sys_ok y → sys_lseek fd off wh y = Ok (y', r) → sys_ok y'.
Proof using Type.
  intros Hy E. unfold sys_lseek, current_task, file_of in E. res_inv. case_match; [by simplify_eq|]. res_inv. case_match; [|by simplify_eq].
  case_match; [done|]. case_match; simplify_eq; [done|]. by apply set_offset_ok.
Qed.

Lemma collect_keeps fuel sb rd dir buf off es k k' l :
  driver_ok sb → op_readdir (inode_ops sb) = Some rd → collect_loop (P := P) stale_name fuel rd dir buf off es k = Ok (k', l) → live_keeps k k'.
Proof using Type.
  intros Hd Hrd. revert off buf es k. induction fuel as [|fuel IH]; intros off buf es k; cbn [collect_loop]; [done|]. intros E.
  case_match; [by simplify_eq|]. res_inv. destruct a as [k1 [n out]]. pose proof (dr_readdir _ Hd _ _ _ _ _ _ _ Hrd Ha) as L1. res_inv.
  case_match; [by simplify_eq|]. res_inv. etrans; [exact L1|]. by eapply IH.
Qed.

Lemma getdents_ok fd dirp count y y' r : sys_ok y → sys_getdents64 stale stale_name fd dirp count y = Ok (y', r) → sys_ok y'.
Proof using H0.
  intros Hy E. unfold sys_getdents64, current_task, file_of in E. res_inv. rename a into self, a0 into f. case_match; [by simplify_eq|]. res_inv. rename a into fl.
  case_match; [by simplify_eq|]. res_inv. rename a into rd. destruct a0 as [k es]. res_inv. destruct a as [y1 [idx w]]. simplify_eq.
  assert (sys_ok (with_vfs (with_kern k (y_vfs y)) y)) as Hy1.
  { apply with_kern_ok; [done|]. eapply collect_keeps; [eapply (proj1 (so_files _ Hy _ _ Ha1))|exact Ha2|exact Ha3]. }
  apply dents_same in Ha4 as Hs. apply set_offset_ok; [by eapply same_ok|]. destruct Hs as (-> & _). done.
Qed.

Lemma stat_ok path st y y' r : sys_ok y → sys_stat path_fuel dir_fuel stale path st y = Ok (y', r) → sys_ok y'.
Proof using H0.
  intros Hy E. unfold sys_stat, file_of in E. res_inv. destruct a as [y1 f]. destruct (Z.eqb_spec f 0) as [->|Hnz].
  { simplify_eq. by eapply open_user_ok. }
  res_inv. simplify_eq. apply fill_stat_same in Ha1. by eapply look_ok.
Qed.

Lemma access_ok path y y' r : sys_ok y → sys_access path_fuel dir_fuel stale path y = Ok (y', r) → sys_ok y'.
Proof using H0.
  intros Hy E. unfold sys_access in E. res_inv. destruct a as [y1 f]. destruct (Z.eqb_spec f 0) as [->|Hnz].
  { simplify_eq. by eapply open_user_ok. }
  res_inv. simplify_eq. by eapply (look_ok path y y1 f y1).
Qed.

Lemma readlink_ok path y y' r : sys_ok y → sys_readlink path_fuel dir_fuel stale path y = Ok (y', r) → sys_ok y'.
Proof using H0.
  intros Hy E. unfold sys_readlink in E. res_inv. destruct a as [y1 f]. destruct (Z.eqb_spec f 0) as [->|Hnz].
  { simplify_eq. by eapply open_user_ok. }
  res_inv. simplify_eq. by eapply (look_ok path y y1 f y1).
Qed.

Lemma with_memory_ok f y y' r :
  (∀ self s s' self' v, f self s = Ok (s', self', v) → fds self' = fds self) → sys_ok y → with_memory f y = Ok (y', r) → sys_ok y'.
Proof using Type.
  intros Hf Hy E. unfold with_memory, current_task in E. res_inv. rename a into self. destruct a0 as [[s self'] v]. simplify_eq.
  apply (with_self_ok (with_vm s y) self); [by apply (same_ok y)|done|by eapply Hf].
Qed.

Lemma fstat_ok fd st y y' r : sys_ok y → sys_fstat fd st y = Ok (y', r) → sys_ok y'.
Proof using Type.
  intros Hy E. unfold sys_fstat in E. case_match; res_inv.
  - apply (same_ok y); [same_steps|done].
  - case_match; [by simplify_eq|]. res_inv. simplify_eq. by eapply same_ok; [eapply fill_stat_same|].
Qed.

(** Calls that only store an answer. *)
Lemma getcwd_same buf n y y' r : sys_getcwd buf n y = Ok (y', r) → same y y'.
Proof using Type. unfold sys_getcwd. intros E. case_match; [by simplify_eq|]. res_inv. same_steps. Qed.

Lemma ioctl_same fd n a y y' r : sys_ioctl fd n a y = Ok (y', r) → same y y'.
Proof using Type. unfold sys_ioctl. intros E. case_match; [|by simplify_eq]. res_inv. same_steps. Qed.

Lemma uname_same buf y y' r : sys_uname buf y = Ok (y', r) → same y y'.
Proof using Type. unfold sys_uname. intros E. res_inv. same_steps. Qed.

Lemma clock_same ms ts y y' r : sys_clock_gettime ms ts y = Ok (y', r) → same y y'.
Proof using Type. unfold sys_clock_gettime. intros E. res_inv. same_steps. Qed.

Lemma random_same c buf n y y' r : sys_getrandom c buf n y = Ok (y', r) → same y y'.
Proof using Type. unfold sys_getrandom. intros E. res_inv. same_steps. Qed.

Lemma arch_ok c a y y' r : sys_ok y → sys_arch_prctl c a y = Ok (y', r) → sys_ok y'.
Proof using Type.
  intros Hy E. unfold sys_arch_prctl, current_task in E. res_inv. rename a0 into self. case_match.
  { simplify_eq. apply (with_self_ok (with_msr a y) self); [by apply (same_ok y)|done|by destruct self]. }
  case_match; res_inv; simplify_eq; [|done]. by eapply same_ok; [eapply put_user_same|].
Qed.

Lemma exit_ok c y y' : sys_ok y → sys_exit c y = Ok y' → sys_ok y'.
Proof using Type. intros Hy E. unfold sys_exit, current_task in E. res_inv. subst y'. eapply with_self_ok; [done..|by destruct a]. Qed.

Lemma brk_fds addr self s s' self' v : sys_brk addr self s = Ok (s', self', v) → fds self' = fds self.
Proof using Type. unfold sys_brk. intros E. case_match; [by simplify_eq|]. case_match; [by simplify_eq|]. res_inv. by simplify_eq. Qed.

Lemma mmap_fds len p fl self s s' self' v : sys_mmap len p fl self s = Ok (s', self', v) → fds self' = fds self.
Proof using Type. unfold sys_mmap. intros E. case_match; [by simplify_eq|]. case_match; [by simplify_eq|]. res_inv. by simplify_eq. Qed.

Lemma with_pages_same f y y' r : with_pages f y = Ok (y', r) → same y y'.
Proof using Type. unfold with_pages. intros E. res_inv. by simplify_eq. Qed.

(** Every call keeps the state sound. *)
Ltac call_ok Hy := match goal with
  | |- sys_ok (with_serial _ ?y) => apply (same_ok y); [by split_and!|exact Hy]
  | H : sys_read _ _ _ _ _ = _ |- _ => exact (read_ok _ _ _ _ _ _ _ Hy H)
  | H : sys_close _ _ = _ |- _ => exact (close_ok _ _ _ _ Hy H)
  | H : sys_getdents64 _ _ _ _ _ _ = _ |- _ => exact (getdents_ok _ _ _ _ _ _ Hy H)
  | H : sys_fstat _ _ _ = _ |- _ => exact (fstat_ok _ _ _ _ _ Hy H)
  | H : sys_stat _ _ _ _ _ _ = _ |- _ => exact (stat_ok _ _ _ _ _ Hy H)
  | H : sys_access _ _ _ _ _ = _ |- _ => exact (access_ok _ _ _ _ Hy H)
  | H : sys_readlink _ _ _ _ _ = _ |- _ => exact (readlink_ok _ _ _ _ Hy H)
  | H : sys_lseek _ _ _ _ = _ |- _ => exact (lseek_ok _ _ _ _ _ _ Hy H)
  | H : sys_openat _ _ _ _ _ = _ |- _ => exact (openat_ok _ _ _ _ Hy H)
  | H : sys_arch_prctl _ _ _ = _ |- _ => exact (arch_ok _ _ _ _ _ Hy H)
  | H : sys_exit _ _ = _ |- _ => exact (exit_ok _ _ _ Hy H)
  | H : with_memory (sys_brk ?a) _ = _ |- _ => exact (with_memory_ok _ _ _ _ (brk_fds a) Hy H)
  | H : with_memory (sys_mmap ?l ?p ?f) _ = _ |- _ => exact (with_memory_ok _ _ _ _ (mmap_fds l p f) Hy H)
  | H : with_pages _ _ = _ |- _ => exact (same_ok _ _ (with_pages_same _ _ _ _ H) Hy)
  | H : sys_write _ _ _ _ = _ |- _ => exact (same_ok _ _ (write_same _ _ _ _ _ _ H) Hy)
  | H : sys_writev _ _ _ _ = _ |- _ => exact (same_ok _ _ (writev_same _ _ _ _ _ _ _ H) Hy)
  | H : sys_getcwd _ _ _ = _ |- _ => exact (same_ok _ _ (getcwd_same _ _ _ _ _ H) Hy)
  | H : sys_ioctl _ _ _ _ = _ |- _ => exact (same_ok _ _ (ioctl_same _ _ _ _ _ _ H) Hy)
  | H : sys_uname _ _ = _ |- _ => exact (same_ok _ _ (uname_same _ _ _ _ H) Hy)
  | H : sys_clock_gettime _ _ _ = _ |- _ => exact (same_ok _ _ (clock_same _ _ _ _ _ H) Hy)
  | H : sys_getrandom _ _ _ _ = _ |- _ => exact (same_ok _ _ (random_same _ _ _ _ _ _ H) Hy)
  end.

(** ** The properties *)

(** C35. The descriptor table of a process stays sound: it has sixteen entries, the ones in use
    are from 3 on, each names an open file whose block is in the heap, and no two name the
    same file.  Every system call that returns keeps this; fork, execve, wait4 and exit hand
    over to other components and are not followed.  And as long as it holds [close] always
    returns: -EBADF, changing nothing, or 0 after freeing exactly the one live block
    of the descriptor's file.  The file systems are only assumed to free nothing but what
    they allocated.  The sharing of files with a forked process is outside this state. *)
Theorem fd_table_invariant o fr fd y :
  sys_ok y →
  (∀ y' out, syscall_dispatch path_fuel dir_fuel stale stale_name o fr y = Ok (y', out) → sys_ok y') ∧
  ∃ y' r, sys_close fd y = Ok (y', r) ∧ sys_ok y' ∧
    (r = - EBADF ∧ y' = y ∨
     r = 0 ∧ ∃ self f, y_tasks y !! y_current y = Some self ∧ 3 ≤ fd ∧ zget (fds self) fd = Some f ∧ f ≠ 0 ∧
       k_live (kern (y_vfs y)) f = true ∧ (∀ q, k_live (kern (y_vfs y')) q = if q =? f then false else k_live (kern (y_vfs y)) q) ∧
       files (y_vfs y') = delete f (files (y_vfs y))).
Proof using H0.
  intros Hy. split.
  2: { destruct (close_total fd y Hy) as (y' & r & E & Hr). exists y', r. split; [done|]. split; [by eapply close_ok|done]. }
  intros y' out. unfold syscall_dispatch. cbv zeta.
  repeat match goal with |- (if ?c then _ else _) = _ → _ => destruct c; [shelve|] end.
  Unshelve.
  all: unfold returns; intros E; res_inv; repeat match goal with a : _ * _ |- _ => destruct a end; res_inv; simplify_eq; try exact Hy.
  all: call_ok Hy.
Qed.

Lemma set_fds_same self : set_fds (fds self) self = self.
Proof using Type. by destruct self. Qed.

(** C36. [openat] answers -ENOENT when the path does not open; with every descriptor from 3 to
    15 in use it answers -EMFILE, and the descriptors and the open files are as before; else
    it answers the lowest free one.  Closing that descriptor puts the table and the open
    files back exactly as they were, frees the block of the file and answers 0; closing it
    again is -EBADF and changes nothing.  The inodes the lookup allocates are not part of
    this: the code never frees them. *)
Theorem open_close_roundtrip path y y1 r self :
  sys_ok y → y_tasks y !! y_current y = Some self → sys_openat path_fuel dir_fuel stale path y = Ok (y1, r) →
  (r = - ENOENT ∨ r = - EMFILE ∧ ∀ x, 3 ≤ x < 16 → zget (fds self) x ≠ Some 0) ∧ y_tasks y1 = y_tasks y ∧ files (y_vfs y1) = files (y_vfs y) ∨
  3 ≤ r < 16 ∧ zget (fds self) r = Some 0 ∧ (∀ x, 3 ≤ x < r → zget (fds self) x ≠ Some 0) ∧
  ∃ f y2, zget (default [] (fds <$> y_tasks y1 !! y_current y1)) r = Some f ∧ is_Some (files (y_vfs y1) !! f) ∧
    sys_close r y1 = Ok (y2, 0) ∧ y_tasks y2 = y_tasks y ∧ files (y_vfs y2) = files (y_vfs y) ∧ k_live (kern (y_vfs y2)) f = false ∧
    sys_close r y2 = Ok (y2, - EBADF).
Proof using H0.
  intros Hy Es E. unfold sys_openat in E. res_inv. destruct a as [y0 f]. destruct (open_user_ok path y y0 f Hy Ha) as (Hy0 & Et & Ec & Hop).
  assert (f = 0 ∧ files (y_vfs y0) = files (y_vfs y) ∨ f ≠ 0 ∧ delete f (files (y_vfs y0)) = files (y_vfs y)) as Hfiles.
  { unfold open_user in Ha. res_inv. destruct a0 as [v f']. simplify_eq. destruct (open_keeps _ _ _ _ _ _ (so_mounts _ Hy) Ha1) as (_ & _ & _ & [[-> ?]|(Hnz & Hl & _ & sb & i & _ & Ef)]); [by left|right].
    split; [done|]. cbn. rewrite Ef. apply delete_insert_id. destruct (files (y_vfs y) !! f) as [fl|] eqn:Ex; [|done]. apply (so_files _ Hy) in Ex as [_ ?]. congruence. }
  destruct (Z.eqb_spec f 0) as [->|Hnz].
  { simplify_eq. left. split; [by left|]. split; [done|]. destruct Hfiles as [[_ ?]|[? _]]; done. }
  destruct Hfiles as [[? _]|[_ Hdel]]; [done|]. destruct (Hop Hnz) as (Hs & Hl & Hnot). specialize (Hnot self Es).
  unfold current_task in E. rewrite Et, Ec, Es in E. res_inv. injection Ha0 as <-. destruct a0 as [self' fd].
  destruct (so_self _ Hy0) as (s & Es0 & Hf0). rewrite Et, Ec, Es in Es0. injection Es0 as <-.
  assert (fd < 0 → fd = neg EMFILE ∧ ∀ x, 3 ≤ x < 16 → zget (fds self) x ≠ Some 0) as Hfull.
  { intros Hneg. pose proof Ha1 as Halloc. unfold alloc_fd in Halloc.
    destruct (fd_loop_spec (MAX_FDS - 3) 3 (fds self)) as (o & Eo & Ho); [lia|unfold zlen; rewrite (fo_len _ _ Hf0); unfold MAX_FDS; lia|].
    rewrite Eo in Halloc. destruct o as [j|]; cbn in Halloc; [destruct (zset _ _ _); cbn in Halloc; [|done]; injection Halloc as _ <-; lia|].
    injection Halloc as _ <-. split; [done|exact Ho]. }
  destruct (alloc_fd_ok f self self' fd _ Hf0 Hnot Hnz Hs Hl Ha1) as [[Hneg ->]|(Hfd & Hz & -> & Hf' & Hx)].
  - rewrite (proj2 (Z.ltb_lt fd 0) Hneg) in E. destruct (Hfull Hneg) as [-> Ho]. res_inv. simplify_eq. unfold free_file in Ha0. res_inv. subst y1. left. cbn.
    split; [by right|by split_and!].
  - rewrite (proj2 (Z.ltb_ge fd 0)) in E by lia. simplify_eq. right.
    assert (zget (fds self) r = Some 0) as Hz0 by (apply zget_Some; split; [lia|done]).
    split; [done|]. split; [done|]. split; [done|]. set (l := <[Z.to_nat r := f]> (fds self)) in *.
    assert (Z.to_nat r < length (fds self))%nat as Hlt by (rewrite (fo_len _ _ Hf0); unfold MAX_FDS; lia).
    assert (zget l r = Some f) as Hlr by (apply zget_Some; split; [lia|by apply list_lookup_insert_eq]).
    destruct (kfree_spec f _ Hl) as (k' & Ek & Lk).
    assert (sys_close r (with_self (set_fds l self) y0) =
      Ok (with_self self (with_vfs (with_files (delete f (files (y_vfs y0))) (with_kern k' (y_vfs y0))) (with_self (set_fds l self) y0)), 0)) as Eclose.
    { unfold sys_close, current_task. cbn [with_self y_tasks y_current]. rewrite lookup_insert_eq. res_step. unfold real_file. change (Z.of_nat MAX_FDS) with 16.
      rewrite (proj2 (Z.ltb_ge r 3)), (proj2 (Z.leb_gt 16 r)) by lia. cbn [orb fds set_fds]. rewrite Hlr. res_step. rewrite (proj2 (Z.eqb_neq f 0) Hnz).
      unfold free_file. cbn [with_self y_vfs]. rewrite Ek. res_step. rewrite zset_is by (unfold zlen, l; rewrite length_insert; lia). res_step.
      unfold l. rewrite list_insert_insert_eq, list_insert_id by done.
      replace (set_fds (fds self) (set_fds _ self)) with self by by destruct self. done. }
    exists f. eexists. split; [cbn; rewrite lookup_insert_eq; exact Hlr|]. split; [done|]. split; [exact Eclose|]. split_and!.
    + cbn. rewrite insert_insert_eq. rewrite Et, Ec. by apply insert_id.
    + done.
    + cbn. by rewrite Lk, Z.eqb_refl.
    + unfold sys_close, current_task. cbn [with_self with_vfs y_tasks y_current]. rewrite lookup_insert_eq. res_step. unfold real_file. change (Z.of_nat MAX_FDS) with 16.
      rewrite (proj2 (Z.ltb_ge r 3)), (proj2 (Z.leb_gt 16 r)) by lia. cbn [orb]. by rewrite Hz0.
Qed.

End table.

(** ** Concrete runs *)

(** A machine with one process, whose page at 4 MiB holds the path "/", and a file system
    that is one empty directory. *)
Definition demo_sb : SuperBlock Bump unit :=
  MkSuperBlock (Some (λ k, Ok (k, Some (MkInode 0 0 true tt)))) None (MkInodeOps None None).

Definition demo_vm : Vmm Pmm :=
  match s ← map_zero_page USER_RW 0x400000 roomy; user_store 0x400000 [47; 0] s with Ok s => s | _ => roomy end.

Definition demo : Sys Bump unit Pmm :=
  MkSys (MkVfs (MkBump 0x1000 []) (Some demo_sb) [] ∅) demo_vm {[1 := heap_task]} 1 (MkIo stdin_zero typed_kbd (MkTty [] 0 false [] [])) [] 0.

Lemma demo_ok : sys_ok demo.
Proof.
  split.
  - exists heap_task. split; [reflexivity|]. split; [reflexivity|..].
    + intros i f Hi Hf. apply lookup_replicate in Hi as [-> _]. done.
    + intros i j f Hi _ Hf. apply lookup_replicate in Hi as [-> _]. done.
  - intros sb [[= <-]|[p Hp%not_elem_of_nil]]; [|done]. split; cbn; try done. by intros ri k k' o [= <-] [= -> _] q.
  - intros f fl. cbn. by rewrite lookup_empty.
Qed.

(** [openat] gives descriptor 3; closing it before is -EBADF. *)
Lemma fd_table_invariant_witness :
  match syscall_dispatch 8 1 (replicate 512 0) (replicate 48 0) (MkOutside [] 0 0) (MkFrame SYS_OPENAT 0 0x400000 0 0 0 0) demo with
  | Ok (y', out) => out = Return 3 ∧ sys_ok y'
  | _ => False
  end ∧ ∃ y' r, sys_close 3 demo = Ok (y', r) ∧ sys_ok y'.
Proof.
  pose proof (fd_table_invariant 8 1 (replicate 512 0) (replicate 48 0) (MkOutside [] 0 0) (MkFrame SYS_OPENAT 0 0x400000 0 0 0 0) 3 demo demo_ok) as [T (y' & r & Ec & Hok & _)].
  split; [|by exists y', r]. clear y' r Ec Hok. set (r := syscall_dispatch _ _ _ _ _ _ _) in *. assert (match r with Ok (_, Return v) => v | _ => -1 end = 3) as Hr by (vm_compute; reflexivity).
  destruct r as [[y' out]| | |] eqn:E; try discriminate Hr. split; [destruct out; try discriminate Hr; by rewrite Hr|].
  exact (T y' out eq_refl).
Defined.

Lemma open_close_roundtrip_witness :
  match sys_openat 8 1 (replicate 512 0) 0x400000 demo with
  | Ok (y1, r) => r = 3 ∧ ∃ y2, sys_close 3 y1 = Ok (y2, 0) ∧ y_tasks y2 = y_tasks demo ∧ sys_close 3 y2 = Ok (y2, - EBADF)
  | _ => False
  end.
Proof.
  set (o := sys_openat _ _ _ _ _). assert (match o with Ok (_, v) => v | _ => -1 end = 3) as Hr by (vm_compute; reflexivity).
  destruct o as [[y1 r]| | |] eqn:E; try discriminate Hr. split; [exact Hr|]. rewrite Hr in E.
  destruct (open_close_roundtrip 8 1 (replicate 512 0) 0x400000 demo y1 3 heap_task demo_ok eq_refl E)
    as [([H3|[H3 _]] & _)|(_ & _ & _ & f & y2 & _ & _ & Ec & Et & _ & _ & Eb)]; [discriminate H3|discriminate H3|].
  exists y2. split; [exact Ec|]. split; [exact Et|exact Eb].
Defined.
