(* ===== verification/SysDir.v ===== *)
(** * Listing a directory ([sys_getdents64])

    The call collects the entries the driver gives in its own format and writes them as
    Linux records, from where the last call stopped and as many as fit. *)

From stdpp Require Import strings.
From S2P Require Import Prelude CString Mem Frames Pmm Vmm PageTable UserPages Task BumpEnv Fs Vfs VfsSpec Tty Keyboard Procfs ProcSpec ProcVfs Elf ElfSpec User UserSpec UserStack UserMem Stdin Syscall SysMem SysSpec.

(** The bytes of a collected name. *)
Definition pad_name (n : list Z) : list Z := n ++ replicate (48 - length n) 0.
Definition ent_of (e : dentry) : Ent := (e.1, pad_name e.2).

(** The record of an entry, as a program reads it: the room it takes is that of 19 bytes, the
    name and its NUL, up to a multiple of 8; the inode number is in the bytes 0 to 7, the
    offset (unused, 0) in 8 to 15, the room in 16 and 17, the type (unknown, 0) in 18, and
    the name and its NUL follow.  The padding is left as it was. *)
Definition record_len (e : dentry) : Z := 8 * ((19 + zlen e.2 + 1 + 7) / 8).
Definition record (e : dentry) : list Z :=
  le_bytes 8 e.1 ++ replicate 8 0 ++ le_bytes 2 (record_len e) ++ [0] ++ e.2 ++ [0].
Definition records_len (es : list dentry) : Z := foldr (λ e n, record_len e + n) 0 es.

Definition short_entry (e : dentry) : Prop := is_u64 e.1 ∧ no_nul e.2 ∧ zlen e.2 < 47.

Lemma rec_len_eq n : 0 ≤ n < 256 → 20 + n ≤ rec_len n ∧ rec_len n < 28 + n ∧ rec_len n `mod` 8 = 0.
Proof.
  intros Hn. unfold rec_len. rewrite band_not_7. Z.div_mod_to_equations. lia.
Qed.

(** The code's room and record are those. *)
Lemma rec_len_record e : rec_len (zlen e.2) = record_len e.
Proof. unfold rec_len, record_len. rewrite band_not_7. Z.div_mod_to_equations. lia. Qed.

Lemma linux_dirent_record e : short_entry e → linux_dirent e.1 (rec_len (zlen e.2)) (e.2 ++ [0]) = record e.
Proof.
  intros (_ & _ & Hl). rewrite rec_len_record. unfold linux_dirent, record. change (le_bytes 8 0) with (replicate 8 0).
  assert (is_u16 (record_len e)) as Hr.
  { rewrite <-rec_len_record. pose proof (rec_len_eq (zlen e.2) ltac:(unfold zlen in *; lia)). unfold zlen, is_u16 in *. lia. }
  by rewrite (u16_small _ Hr).
Qed.

Lemma record_length e : short_entry e → zlen (record e) = 20 + zlen e.2.
Proof. intros _. unfold record. rewrite !zlen_app. unfold zlen. rewrite !le_bytes_length, length_replicate. simpl. lia. Qed.

Lemma records_len_nonneg es : Forall short_entry es → 0 ≤ records_len es.
Proof.
  induction 1 as [|e es (_ & _ & Hl) _ IH]; simpl; [lia|]. rewrite <-rec_len_record. pose proof (rec_len_eq (zlen e.2) ltac:(unfold zlen in *; lia)). unfold zlen in *. lia.
Qed.

(** ** Collecting *)

Section collect.
Context {K P : Type} `{KernelEnv K}.
Context (stale_name : list Z) (Hname : zlen stale_name = ENT_NAME).

Lemma ent_loop_spec fuel pre es rest acc :
  Forall short_entry es → (length es < fuel)%nat → zlen acc + zlen es ≤ MAX_ENTRIES →
  ent_loop stale_name fuel (pre ++ encode es ++ rest) (zlen pre) (zlen pre + stream_len es) acc = Ok (acc ++ (ent_of <$> es)).
Proof using Hname.
  intros Hes. revert pre fuel acc. induction Hes as [|[i n] es (Hi & Hn & Hl) Hes IH]; intros pre fuel acc Hf Hacc;
    (destruct fuel as [|fuel]; [simpl in Hf; lia|]); cbn [ent_loop stream_len foldr].
  - rewrite Z.add_0_r, Z.ltb_irrefl. cbn. by rewrite app_nil_r.
  - fold (stream_len es). cbn [fst snd] in *. pose proof (dlen_pos (i, n)). pose proof (stream_len_nonneg es). assert (0 ≤ zlen pre) by (unfold zlen; lia).
    change (zlen ((i, n) :: es)) with (Z.of_nat (S (length es))) in Hacc. pose proof (zlen_nonneg es) as E2. change (Z.of_nat (length es)) with (zlen es) in *. rewrite Nat2Z.inj_succ in Hacc. fold (zlen es) in Hacc.
    rewrite (proj2 (Z.ltb_lt (zlen pre) _)) by lia. rewrite (proj2 (Z.ltb_lt (zlen acc) _)) by lia. cbn [negb andb]. rewrite encode_cons, <-app_assoc. cbn [fst snd].
    rewrite field_dirent by done. res_step. rewrite drop_dirent. rewrite strlen_spec, c_string_app by done. cbn [fmap option_fmap option_map]. res_step.
    unfold ENT_NAME in *. rewrite strncpy_short by (done || lia). res_step.
    change (Z.to_nat (48 - 1)) with 47%nat. set (d := drop 47 stale_name).
    assert (∃ x, d = [x]) as [x Hd].
    { assert (length d = 1)%nat as L by (unfold d; rewrite length_drop; unfold zlen in Hname; lia). destruct d as [|x [|? ?]]; simpl in L; try lia. by exists x. }
    rewrite Hd. rewrite zset_is.
    2: { rewrite !zlen_app. unfold zlen in *. rewrite length_replicate. simpl. lia. }
    res_step. change (Z.to_nat (48 - 1)) with 47%nat.
    assert (<[47%nat := 0]> (n ++ replicate (47 - length n) 0 ++ [x]) = pad_name n) as ->.
    { unfold pad_name. unfold zlen in Hl. rewrite insert_app_r_alt by lia. f_equal. rewrite insert_app_r_alt by (rewrite length_replicate; lia).
      rewrite length_replicate. replace (47 - length n - (47 - length n))%nat with 0%nat by lia. cbn.
      replace (48 - length n)%nat with ((47 - length n) + 1)%nat by lia. by rewrite replicate_add. }
    pose proof (dirent_len (i, n)) as Hdl. cbn [fst snd] in Hdl. unfold dlen in *. cbn [snd] in *.
    specialize (IH (pre ++ dirent i n) fuel (acc ++ [(i, pad_name n)])). rewrite !zlen_app, Hdl, <-!app_assoc in IH. cbn [app] in IH.
    rewrite fmap_cons. change (ent_of (i, n)) with (i, pad_name n). rewrite <-IH; [f_equal; lia|simpl in Hf; lia|change (zlen [(i, pad_name n)]) with 1; lia].
Qed.

Lemma collect_spec (sb : SuperBlock K P) `{!DirFs sb} `{!DirFsLaws sb} rd i es es1 es2 fuel buf k :
  op_readdir (inode_ops sb) = Some rd → fs_valid i → fs_dir i = Some es → Forall short_entry es → zlen es ≤ MAX_ENTRIES →
  es = es1 ++ es2 → (length es2 < fuel)%nat → zlen buf = CHUNK_SIZE →
  ensures (collect_loop stale_name fuel rd (fs_inode i) buf (stream_len es1) (ent_of <$> es1) k) (λ '(_, r), r = ent_of <$> es).
Proof using Hname.
  intros Hrd Hv Hes Hsh Hn. destruct law_readdir as (rd' & E & Hlaw). rewrite Hrd in E. injection E as <-.
  destruct (law_entries i es Hv Hes) as [Hsl _]. clear Hrd.
  revert es1 es2 buf k. induction fuel as [|fuel IH]; intros es1 es2 buf k Hes12 Hf Hb; [lia|]. cbn [collect_loop].
  assert (zlen es = zlen es1 + zlen es2) as Ez by (rewrite Hes12; apply zlen_app). assert (zlen (ent_of <$> es1) = zlen es1) as Em by (unfold zlen; by rewrite length_fmap).
  rewrite Em. destruct (Z.ltb_spec (zlen es1) MAX_ENTRIES) as [Hlt|Hge]; cbn [negb].
  2: { assert (es2 = []) as -> by (destruct es2; [done|unfold zlen in *; simpl in *; lia]). rewrite app_nil_r in Hes12. by rewrite Hes12. }
  pose proof (stream_len_nonneg es1). pose proof (stream_len_nonneg es2).
  eapply ensures_bind; [apply (Hlaw i (stream_len es1) CHUNK_SIZE k); [done|lia|unfold CHUNK_SIZE; lia]|].
  intros [k' [n out]]. rewrite Hes. intros [-> ->]. rewrite Hes12. set (run := fill (es1 ++ es2) (stream_len es1) CHUNK_SIZE 0 0).
  assert (Forall short_entry es2) as Hsh2 by (rewrite Hes12 in Hsh; by apply Forall_app in Hsh as [_ ?]).
  destruct (fill_run es1 es2 CHUNK_SIZE) as ((r & Hr) & Hnil & Hfit).
  { eapply Forall_impl; [exact Hsh2|]. intros e (_ & _ & ?). unfold dlen, CHUNK_SIZE. lia. }
  fold run in Hr, Hnil, Hfit. specialize (Hfit ltac:(unfold CHUNK_SIZE; lia)).
  destruct (splice_front buf (encode run)) as (rest & -> & Hbl); [rewrite encode_len; lia|]. res_step.
  rewrite encode_len. destruct (Z.leb_spec (stream_len run) 0) as [Hz|Hz].
  { assert (run = []) as Hrun.
    { destruct run as [|e run']; [done|]. simpl in Hz. pose proof (dlen_pos e). pose proof (stream_len_nonneg run'). lia. }
    rewrite (Hnil Hrun), app_nil_r. done. }
  assert (Forall short_entry run) as Hshr by (rewrite Hr in Hsh2; by apply Forall_app in Hsh2 as [? _]).
  assert (zlen es2 = zlen run + zlen r) as Ez2 by (rewrite Hr at 1; apply zlen_app). assert (0 ≤ zlen r ∧ 0 ≤ zlen run ∧ 0 ≤ zlen es1) by (unfold zlen; lia).
  pose proof (ent_loop_spec (S (Z.to_nat MAX_ENTRIES)) [] run rest (ent_of <$> es1) Hshr) as El.
  change (zlen (@nil Z)) with 0 in El. cbn [app] in El. rewrite Z.add_0_l in El. rewrite El; [res_step|unfold MAX_ENTRIES, zlen in *; lia|lia].
  rewrite Hes12, stream_len_app in Hsl. assert (stream_len es2 = stream_len run + stream_len r) as Es2 by (rewrite Hr at 1; apply stream_len_app).
  pose proof (stream_len_nonneg r). rewrite u64_small by (unfold is_u64; lia). rewrite <-stream_len_app, <-fmap_app. rewrite <-Hes12. apply (IH _ r).
  - rewrite Hes12, Hr at 1. by rewrite <-app_assoc.
  - assert (0 < length run)%nat by (destruct run; [simpl in Hz; lia|simpl; lia]). unfold zlen in Ez2. lia.
  - by rewrite Hbl.
Qed.

End collect.

(** ** Writing *)

Lemma pad_name_string n : no_nul n → zlen n < 47 → strlen (pad_name n) = Ok (zlen n) ∧ slice (pad_name n) 0 (zlen n + 1) = Some (n ++ [0]).
Proof.
  intros Hn Hl. unfold zlen in *. assert (pad_name n = n ++ 0 :: replicate (47 - length n) 0) as ->.
  { unfold pad_name. by replace (48 - length n)%nat with (S (47 - length n)) by lia. }
  split; [by rewrite strlen_spec, c_string_app|]. unfold slice, zlen. rewrite length_app. cbn [length]. rewrite length_replicate.
  rewrite !(proj2 (Z.ltb_ge _ _)) by lia. cbn [orb]. rewrite drop_0. f_equal.
  replace (Z.to_nat (Z.of_nat (length n) + 1)) with (length n + 1)%nat by lia. by rewrite take_app_add.
Qed.

(** The records of [es] one after the other. *)
Fixpoint records_at {A} (s : Vmm A) (va : Z) (es : list dentry) : Prop :=
  match es with
  | [] => True
  | e :: es => user_holds s va (record e) ∧ records_at s (va + record_len e) es
  end.

Section write.
Context {K P A : Type} `{KernelEnv K} `{FrameAllocLaws A}.
Context (Q : Z → Prop) (HQ : ∀ va, 0 ≤ va < 2 ^ 47 → Q (pml4_idx va)).
Context (lo hi : Z) (pg : Z → Z) (Hpg : ∀ x, lo ≤ x < hi → pg (x / PAGE_SIZE) ≠ 0).
Implicit Types (y : Sys K P A) (s : Vmm A).

(** The memory between [a] and [b] is all that changed. *)
Record writes_within (a b : Z) s s' : Prop := {
  ww_rewrites : rewrites Q lo hi pg s s';
  ww_mem x : lo ≤ x < hi → ¬ a ≤ x < b → pm s' (virt_to_phys x s') = pm s (virt_to_phys x s);
}.

Lemma writes_trans a b c s1 s2 s3 :
  0 ≤ lo → hi ≤ 2 ^ 47 → a ≤ b ≤ c → writes_within a b s1 s2 → writes_within b c s2 s3 → writes_within a c s1 s3.
Proof using Type.
  intros Hlo Hhi Habc [R1 M1] [R2 M2]. split; [by eapply rewrites_trans|]. intros x Hx Ho. rewrite M2, M1 by lia. done.
Qed.

Lemma put_user_within va bs y :
  tree_ok Q (get_pml4 (y_vm y)) (y_vm y) → window Q lo hi pg (y_vm y) → lo ≤ va → va + zlen bs ≤ hi →
  ∃ s', put_user va bs y = Ok (with_vm s' y) ∧ writes_within va (va + zlen bs) (y_vm y) s' ∧ user_holds s' va bs.
Proof using HQ Hpg H0 H1.
  intros Ht W Hlo Hhi. pose proof (wi_bounds _ _ _ _ _ W) as [Hb1 Hb2]. unfold put_user.
  destruct (user_store_spec Q HQ lo hi pg va bs (y_vm y) Ht W Hpg Hlo Hhi) as (s' & -> & R & M). exists s'. split; [done|].
  split; [split; [done|]|].
  - intros x Hx Ho. rewrite (rw_walk _ _ _ _ _ _ R), M by lia. by rewrite decide_False by lia.
  - intros i b Hi. apply zget_bounds in Hi as Hib. rewrite (rw_walk _ _ _ _ _ _ R), M by lia.
    rewrite decide_True by lia. by rewrite Z.add_simpl_l, Hi.
Qed.

Lemma user_holds_within a b va bs s s' :
  writes_within a b s s' → lo ≤ va → va + zlen bs ≤ a → va + zlen bs ≤ hi → user_holds s va bs → user_holds s' va bs.
Proof using Type.
  intros [_ M] Hlo Ha Hhi Hh i c Hi. apply zget_bounds in Hi as Hib. rewrite M by lia. by apply Hh.
Qed.

Lemma dents_loop_spec es idx dirp written count y :
  tree_ok Q (get_pml4 (y_vm y)) (y_vm y) → window Q lo hi pg (y_vm y) → Forall short_entry es →
  lo ≤ dirp → dirp + count ≤ hi → 0 ≤ written ≤ count →
  ∃ run rest s', es = run ++ rest ∧
    dents_loop (ent_of <$> es) idx dirp written count y = Ok (with_vm s' y, (idx + zlen run, written + records_len run)) ∧
    written + records_len run ≤ count ∧
    match rest with [] => True | e :: _ => count < written + records_len run + record_len e end ∧
    writes_within (dirp + written) (dirp + written + records_len run) (y_vm y) s' ∧
    records_at s' (dirp + written) run.
Proof using HQ Hpg H0 H1.
  intros Ht W Hes Hlo Hhi. pose proof (wi_bounds _ _ _ _ _ W) as [Hb1 Hb2].
  revert idx written y Ht W. induction Hes as [|[i n] es He Hes IH]; intros idx written y Ht W Hw; cbn [fmap list_fmap dents_loop].
  { exists [], [], (y_vm y). change (zlen (@nil dentry)) with 0. cbn [records_len foldr]. rewrite !Z.add_0_r. split_and!; try done; [by destruct y|lia]. }
  pose proof He as (Hi & Hn & Hl). cbn [fst snd] in Hi, Hn, Hl. unfold ent_of at 1. cbn [fst snd].
  destruct (pad_name_string n Hn Hl) as [-> Hsl]. res_step. rewrite Hsl. res_step.
  pose proof (rec_len_eq (zlen n) ltac:(unfold zlen in *; lia)) as (B1 & B2 & _). pose proof (zlen_nonneg n).
  destruct (Z.ltb_spec count (written + rec_len (zlen n))) as [Hfull|Hfit].
  { exists [], ((i, n) :: es), (y_vm y). change (zlen (@nil dentry)) with 0. cbn [records_len foldr]. rewrite !Z.add_0_r. split_and!; try done; [by destruct y|lia|by rewrite <-rec_len_record]. }
  pose proof (linux_dirent_record (i, n) He) as Erec. cbn [fst snd] in Erec. rewrite Erec. pose proof (rec_len_record (i, n)) as Erl. cbn [snd] in Erl. pose proof (record_length (i, n) He) as Lr. cbn [snd] in Lr.
  rewrite u64_small by (unfold is_u64; lia).
  destruct (put_user_within (dirp + written) (record (i, n)) y Ht W) as (s1 & -> & W1 & U1); [lia..|]. res_step.
  pose proof (ww_rewrites _ _ _ _ W1) as R1. pose proof (rewrites_pml4 _ _ _ _ _ _ R1) as E1.
  destruct (IH (idx + 1) (written + rec_len (zlen n)) (with_vm s1 y)) as (run & rest & s' & -> & -> & Hc & Hr & W2 & Rs).
  { cbn. rewrite E1. apply R1. } { cbn. by eapply rewrites_window. } { lia. }
  cbn [y_vm with_vm] in W2. exists ((i, n) :: run), rest, s'. cbn [records_len foldr] in *. rewrite <-Erl.
  fold (records_len run) in *.
  assert (0 ≤ records_len run) by (apply records_len_nonneg; by apply Forall_app in Hes as [? _]).
  split_and!; [done|..].
  - destruct y. cbn. do 3 f_equal; unfold zlen; simpl; lia.
  - lia.
  - destruct rest; [done|lia].
  - eapply (writes_trans _ (dirp + written + rec_len (zlen n))); [lia..| |].
    + split; [done|]. intros x Hx Ho. apply (ww_mem _ _ _ _ W1); [done|lia].
    + rewrite !Z.add_assoc in *. exact W2.
  - cbn [records_at]. rewrite <-Erl. split; [|by rewrite <-Z.add_assoc]. rewrite !Z.add_assoc in W2. eapply (user_holds_within _ _ _ _ s1 s' W2); [lia..|done].
Qed.

End write.

(** ** The call *)

Lemma ents_fmap es off : drop (Z.to_nat off) (ent_of <$> es) = ent_of <$> drop (Z.to_nat off) es.
Proof. symmetry. apply list.fmap_drop. Qed.

(** C39. [getdents64] on an open directory of a driver that keeps the interface of
    [VfsSpec], of at most 32 entries (the code drops those past the 32nd) with names below 47
    characters: it writes, from the entry the last call stopped at, for each entry the driver
    lists a Linux record with its inode number, its length and its name, in order, none left
    out and none split, until the next one no longer fits the buffer; it returns the bytes
    they take, moves the offset past them, and writes nowhere else. *)
Theorem getdents64_lists {K P A : Type} `{KernelEnv K} `{FrameAllocLaws A} (sb : SuperBlock K P) `{!DirFs sb} `{!DirFsLaws sb}
    (Q : Z → Prop) lo hi pg stale stale_name fd dirp count i es f off self (y : Sys K P A) :
  (∀ va, 0 ≤ va < 2 ^ 47 → Q (pml4_idx va)) →
  tree_ok Q (get_pml4 (y_vm y)) (y_vm y) → window Q lo hi pg (y_vm y) → (∀ x, lo ≤ x < hi → pg (x / PAGE_SIZE) ≠ 0) →
  lo ≤ dirp → 0 ≤ count → dirp + count ≤ hi → zlen stale = CHUNK_SIZE → zlen stale_name = ENT_NAME →
  y_tasks y !! y_current y = Some self → real_file self fd = Ok f → f ≠ 0 →
  files (y_vfs y) !! f = Some (MkFile sb (fs_inode i) off) → i_is_dir (fs_inode i) = true →
  fs_valid i → fs_dir i = Some es → Forall short_entry es → zlen es ≤ MAX_ENTRIES →
  ensures (sys_getdents64 stale stale_name fd dirp count y) (λ '(y', r), ∃ run rest,
    drop (Z.to_nat off) es = run ++ rest ∧ r = records_len run ∧ r ≤ count ∧
    match rest with [] => True | e :: _ => count < r + record_len e end ∧
    files (y_vfs y') = <[f := MkFile sb (fs_inode i) (off + zlen run)]> (files (y_vfs y)) ∧
    records_at (y_vm y') dirp run ∧ writes_within Q lo hi pg dirp (dirp + r) (y_vm y) (y_vm y') ∧
    y_tasks y' = y_tasks y).
Proof.
  intros HQ Ht W Hpg Hlo Hc Hhi Hst Hsn Hself Hf Hnz Hfile Hd Hv Hes Hsh Hmax.
  unfold sys_getdents64, current_task. rewrite Hself. res_step. rewrite Hf. res_step. rewrite (proj2 (Z.eqb_neq f 0)) by done.
  unfold file_of. rewrite Hfile. res_step. cbn [inode f_sb offset]. rewrite Hd. cbn [negb].
  pose proof law_readdir as (rd & Hrd & _). rewrite Hrd. res_step. eapply ensures_bind.
  { apply (collect_spec stale_name Hsn sb rd i es [] es collect_fuel stale); try done. unfold collect_fuel, MAX_ENTRIES, zlen in *. lia. }
  intros [k' ents] ->. rewrite ents_fmap. set (y1 := with_vfs _ y).
  destruct (dents_loop_spec Q HQ lo hi pg Hpg (drop (Z.to_nat off) es) off dirp 0 count y1) as (run & rest & s' & E & -> & Hle & Hnext & Hww & Hat);
    [done..|by apply Forall_drop|lia|lia|lia|].
  rewrite Z.add_0_r, !Z.add_0_l in *. res_step. cbn [ensures]. exists run, rest. by split_and!.
Qed.

(** ** A concrete run *)

(** A process with [/proc] open as descriptor 3, of which it has read the first entry. *)
Definition lister : Task := set_fds ([0; 0; 0; 0x2000] ++ replicate 12 0) heap_task.
Definition proc_reading : Reading := MkReading 1234560 32768 1000.
Definition lister_sys (s : Vmm Pmm) : Sys Stop ProcData Pmm :=
  MkSys (MkVfs (MkStop (MkBump 0x1000 [])) None []
           {[0x2000 := MkFile (proc_sb (λ _, proc_reading) (replicate 512 7)) (MkInode 0 0 true None) 1]})
    s {[1 := lister]} 1 (MkIo stdin_zero typed_kbd (MkTty [] 0 false [] [])) [] 0.

(** A buffer of 70 bytes takes the two entries left. *)
Lemma getdents64_lists_witness :
  match map_stack 1 0x400000 roomy with
  | Ok s => match sys_getdents64 (replicate 512 0) (replicate 48 0) 3 0x400000 70 (lister_sys s) with
            | Ok (y', r) => r = 64 ∧ ∃ run rest, drop 1 proc_entries = run ++ rest ∧ r = records_len run ∧ records_at (y_vm y') 0x400000 run
            | _ => False
            end
  | _ => False
  end.
Proof.
  pose proof (map_stack_window (λ _, True) (λ _ _, I) 1 0x400000 roomy roomy_ok ltac:(lia) ltac:(reflexivity) ltac:(vm_compute; congruence)) as T.
  assert (match map_stack 1 0x400000 roomy with
          | Ok s => match sys_getdents64 (replicate 512 0) (replicate 48 0) 3 0x400000 70 (lister_sys s) with Ok (_, r) => r | _ => 0 end
          | _ => 0 end = 64) as Hr by (vm_compute; reflexivity).
  destruct (map_stack 1 0x400000 roomy) as [s| | |]; try discriminate Hr. cbn [ensures] in T. destruct T as (X & (pg & W & New) & _).
  pose proof (extends_pml4 _ _ _ _ X) as R.
  pose proof (getdents64_lists (proc_sb (λ _, proc_reading) (replicate 512 7))
    (DirFs0 := proc_dirfs proc_reading (replicate 512 7))
    (DirFsLaws0 := proc_dirfs_laws stop_stops proc_reading ltac:(unfold reading_ok, is_u64, proc_reading; simpl; lia) (replicate 512 7) ltac:(reflexivity))
    (λ _, True) 0x400000 0x401000 pg (replicate 512 0) (replicate 48 0) 3 0x400000 70 0 proc_entries 0x2000 1 lister (lister_sys s)
    (λ _ _, I) ltac:(cbn [lister_sys y_vm]; rewrite R; apply X) W) as T.
  destruct (sys_getdents64 _ _ _ _ _ _) as [[y' r]| | |]; try discriminate Hr. split; [exact Hr|]. cbn [ensures] in T.
  destruct T as (run & rest & E & Er & _ & _ & _ & Hat & _ & _); [..|by exists run, rest].
  all: try reflexivity; try lia.
  - intros x Hx E. specialize (New x Hx). rewrite E in New. discriminate New.
  - cbn. lia.
  - repeat constructor; vm_compute; congruence.
  - vm_compute; congruence.
Defined.
