(* ===== verification/Panic.v ===== *)
(** * Early output and the exception report ([io/serial.cpp], [io/vga.cpp], [cpu/idt.cpp])

    The serial port is polled until it can take a character.  The VGA console used before
    [tty] starts does not scroll: it stays on the last line.  An exception is reported on
    both, and the kernel stops. *)

From stdpp Require Import strings.
From S2P Require Import Prelude CString Hardware Procfs.

(** ** The serial port *)

(** [serial::port]. *)
Definition COM1 : Z := 0x3F8.

Section serial.
Context {D : Type} `{Hardware D}.
Implicit Type d : D.

Definition serial_init d : D :=
  let d := outb (COM1 + 1) 0x00 d in
  let d := outb (COM1 + 3) 0x80 d in
  let d := outb (COM1 + 0) 0x03 d in
  let d := outb (COM1 + 1) 0x00 d in
  let d := outb (COM1 + 3) 0x03 d in
  let d := outb (COM1 + 2) 0xC7 d in
  outb (COM1 + 4) 0x0B d.

Definition transmit_ready d : D * bool := let '(d, v) := port_in 1 (COM1 + 5) d in (d, negb (Z.land v 0x20 =? 0)).

(** [while (!transmit_ready())]: [fuel] bounds the polls. *)
Fixpoint serial_putc (fuel : nat) (c : Z) d : Res D :=
  match fuel with
  | O => NoFuel
  | S fuel =>
      let '(d, ready) := transmit_ready d in
      if ready then Ok (outb COM1 c d) else serial_putc fuel c d
  end.

(** [serial::print] on a string given by its characters before the NUL. *)
Fixpoint serial_print (fuel : nat) (str : list Z) d : Res D :=
  match str with
  | [] => Ok d
  | c :: str => d ← serial_putc fuel c d; serial_print fuel str d
  end.

End serial.

(** ** The VGA console before [tty] *)

Definition WIDTH : Z := 80.
Definition HEIGHT : Z := 25.
Definition VGA_COLOR : Z := 0x0F.

Record Vga := MkVga { vga_buffer : list Z; cursor_row : Z; cursor_col : Z }.

Definition vga_clear (v : Vga) : Res Vga :=
  b ← iter_upM (Z.to_nat (WIDTH * HEIGHT)) 0 1 (λ i b, or_fault (zset b i (Z.lor (Z.shiftl VGA_COLOR 8) 32))) (vga_buffer v);
  Ok (MkVga b 0 0).

(** [if (++cursor_row >= HEIGHT) cursor_row = HEIGHT - 1]. *)
Definition vga_next_row (row : Z) : Z := if HEIGHT <=? row + 1 then HEIGHT - 1 else row + 1.

Definition vga_putc (c : Z) (v : Vga) : Res Vga :=
  if c =? 10 then Ok (MkVga (vga_buffer v) (vga_next_row (cursor_row v)) 0) else
  if (HEIGHT <=? cursor_row v) || (WIDTH <=? cursor_col v) then Ok v else
  let pos := cursor_row v * WIDTH + cursor_col v in
  b ← or_fault (zset (vga_buffer v) pos (Z.lor (Z.shiftl VGA_COLOR 8) (u8 c)));
  Ok (if WIDTH <=? cursor_col v + 1 then MkVga b (vga_next_row (cursor_row v)) 0 else MkVga b (cursor_row v) (cursor_col v + 1)).

Fixpoint vga_print (str : list Z) (v : Vga) : Res Vga :=
  match str with
  | [] => Ok v
  | c :: str => v ← vga_putc c v; vga_print str v
  end.

(** ** The exception report *)

Record InterruptFrame := MkInterruptFrame {
  x_r15 : Z; x_r14 : Z; x_r13 : Z; x_r12 : Z; x_r11 : Z; x_r10 : Z; x_r9 : Z; x_r8 : Z;
  x_rbp : Z; x_rdi : Z; x_rsi : Z; x_rdx : Z; x_rcx : Z; x_rbx : Z; x_rax : Z;
  x_vector : Z;
  x_error_code : Z;
  x_rip : Z; x_cs : Z; x_rflags : Z; x_rsp : Z; x_ss : Z;
}.

Definition exception_names : list (list Z) := text <$> [
  "divide error"; "debug"; "non-maskable interrupt"; "breakpoint";
  "overflow"; "bound range exceeded"; "invalid opcode"; "device not available";
  "double fault"; "coprocessor segment overrun"; "invalid TSS"; "segment not present";
  "stack-segment fault"; "general protection fault"; "page fault"; "reserved";
  "x87 floating-point exception"; "alignment check"; "machine check"; "SIMD floating-point exception";
  "virtualization exception"; "control protection exception"; "reserved"; "reserved";
  "reserved"; "reserved"; "reserved"; "reserved";
  "reserved"; "reserved"; "reserved"; "reserved" ]%string.

Definition PANIC : list Z := text "KERNEL PANIC: unhandled exception (see serial output)".

Section report.
Context {D : Type} `{Hardware D} (fuel : nat) (stale : list Z).
Implicit Type d : D.

(** The vector: [hex::to_string] into a local buffer, which holds [stale] before, and
    [serial::print] of it. *)
Definition print_hex (value : Z) d : Res D :=
  buf ← hex_to_string value stale;
  str ← or_fault (c_string buf);
  serial_print fuel str d.

Definition print_field (label : string) (value : Z) d : Res D :=
  buf ← hex_to_string value stale;
  d ← serial_print fuel (text label) d;
  str ← or_fault (c_string buf);
  d ← serial_print fuel str d;
  serial_print fuel [10] d.

(** The part of the report that goes to the serial port; [cr2] is the register. *)
Definition exception_dump (frame : InterruptFrame) (cr2 : Z) d : Res D :=
  d ← serial_print fuel (10 :: text "--- unhandled exception ---" ++ [10]) d;
  d ← serial_print fuel (text "vector: ") d;
  d ← print_hex (x_vector frame) d;
  d ← serial_print fuel (text "  (") d;
  name ← or_fault (zget exception_names (if x_vector frame <? 32 then x_vector frame else 31));
  d ← serial_print fuel name d;
  d ← serial_print fuel (text ")" ++ [10]) d;
  d ← print_field "error code: " (x_error_code frame) d;
  d ← print_field "rip:        " (x_rip frame) d;
  d ← print_field "cs:         " (x_cs frame) d;
  d ← print_field "rflags:     " (x_rflags frame) d;
  d ← print_field "rsp:        " (x_rsp frame) d;
  d ← print_field "ss:         " (x_ss frame) d;
  d ← print_field "rax:        " (x_rax frame) d;
  d ← print_field "rbx:        " (x_rbx frame) d;
  d ← print_field "rcx:        " (x_rcx frame) d;
  d ← print_field "rdx:        " (x_rdx frame) d;
  d ← print_field "rsi:        " (x_rsi frame) d;
  d ← print_field "rdi:        " (x_rdi frame) d;
  d ← print_field "rbp:        " (x_rbp frame) d;
  if x_vector frame =? 14 then print_field "cr2 (fault addr): " cr2 d else Ok d.

(** What has been printed when the kernel stops, with interrupts off, in
    [while (true) hlt]. *)
Definition isr_common_handler (frame : InterruptFrame) (cr2 : Z) d (v : Vga) : Res (D * Vga) :=
  d ← exception_dump frame cr2 d;
  v ← vga_print (10 :: PANIC ++ [10]) v;
  Ok (d, v).

End report.

(** ** The serial line *)

(** A 16550 as documented: [line] is set up (8 data bits, the divisor latch off); it is busy
    for fewer than [polls] polls; what is written to it while it is ready goes out. *)
Class Uart (D : Type) `{Hardware D} (polls : nat) := {
  line : D → Prop;
  sent : D → list Z;
  ut_init d : line (serial_init d) ∧ sent (serial_init d) = sent d;
  ut_poll d : line d → line (transmit_ready d).1 ∧ sent (transmit_ready d).1 = sent d;
  ut_ready d : line d → ∃ k, (k < polls)%nat ∧ (transmit_ready (Nat.iter k (λ d, (transmit_ready d).1) d)).2 = true;
  ut_send c d : line d → is_u8 c → (transmit_ready d).2 = true →
    let d' := outb COM1 c (transmit_ready d).1 in line d' ∧ sent d' = sent d ++ [c];
}.

Lemma hex_no_nul s v : hex_value s = Some v → no_nul s ∧ Forall is_u8 s.
Proof.
  revert v. induction s as [|c s IH] using rev_ind; intros v; [by split; constructor|]. rewrite hex_value_snoc. intros E.
  destruct (hex_value s) as [a|]; [|done]. destruct (IH a eq_refl) as [IH1 IH2]. cbn in E.
  assert (c ≠ 0 ∧ is_u8 c) as [Hc Hu] by (unfold is_u8; revert E; unfold hex_digit_val; repeat case_cmp; intros E; simpl in E; try discriminate E; lia).
  split; apply Forall_app; (split; [done|by constructor]).
Qed.

Lemma text_u8 s : Forall is_u8 (text s).
Proof.
  apply Forall_fmap, Forall_true. intros c. unfold is_u8. cbn. pose proof (Ascii.N_ascii_bounded c). lia.
Qed.

Section line.
Context {D : Type} `{Hardware D} {polls : nat} `{!Uart D polls} (fuel : nat) (stale : list Z).
Context (Hfuel : (polls ≤ fuel)%nat) (Hstale : zlen stale = 17).
Implicit Type d : D.

(** [str] has gone out. *)
Definition prints (str : list Z) d (r : Res D) : Prop := ∃ d', r = Ok d' ∧ line d' ∧ sent d' = sent d ++ str.

Lemma prints_bind s1 s2 d r (f : D → Res D) :
  prints s1 d r → (∀ d', line d' → prints s2 d' (f d')) → prints (s1 ++ s2) d (r ≫= f).
Proof using Type.
  intros (d1 & -> & L1 & E1) H2. destruct (H2 d1 L1) as (d2 & E & L2 & E2). exists d2. rewrite E2, E1, app_assoc. by split_and!.
Qed.

Lemma serial_putc_spec c d : line d → is_u8 c → prints [c] d (serial_putc fuel c d).
Proof using Hfuel.
  intros Hd Hc. destruct (ut_ready d Hd) as (k & Hk & Hr). assert (k < fuel)%nat as Hkf by lia. clear Hfuel Hk.
  revert d k Hd Hr Hkf. induction fuel as [|n IH]; intros d k Hd Hr Hkf; [lia|]. cbn [serial_putc].
  destruct (ut_poll d Hd) as [L1 E1]. destruct (transmit_ready d) as [d1 ready] eqn:E. cbn [fst] in *. destruct ready.
  - pose proof (ut_send c d Hd Hc) as S. rewrite E in S. destruct (S eq_refl) as [L2 E2]. cbn [fst] in *. by eexists.
  - destruct k as [|k]; [cbn in Hr; rewrite E in Hr; done|]. rewrite Nat.iter_succ_r, E in Hr. cbn [fst] in Hr.
    destruct (IH d1 k L1 Hr ltac:(lia)) as (d2 & -> & L2 & E2). exists d2. by rewrite E2, E1.
Qed.

Lemma serial_print_spec str d : line d → Forall is_u8 str → prints str d (serial_print fuel str d).
Proof using Hfuel.
  intros Hd Hs. revert d Hd. induction Hs as [|c str Hc Hs IH]; intros d Hd; cbn [serial_print].
  - exists d. by rewrite app_nil_r.
  - apply (prints_bind [c] str); [by apply serial_putc_spec|auto].
Qed.

(** Sixteen digits that say what the value is. *)
Definition digits (h : list Z) (value : Z) : Prop := zlen h = 16 ∧ hex_value h = Some value.

Lemma hex_digits value : is_u64 value → ∃ h buf, digits h value ∧ hex_to_string value stale = Ok buf ∧ c_string buf = Some h ∧ Forall is_u8 h.
Proof using Hstale.
  intros Hv. destruct (hex_to_string_roundtrip value stale Hv Hstale) as (s & E & Hl & Hh). destruct (hex_no_nul _ _ Hh) as [Hn Hu].
  exists s, (s ++ [0]). split; [done|]. split; [exact E|]. split; [exact (c_string_app _ [] Hn)|done].
Qed.

Lemma print_hex_spec value : is_u64 value → ∃ h, digits h value ∧ ∀ d, line d → prints h d (print_hex fuel stale value d).
Proof using Hfuel Hstale.
  intros Hv. destruct (hex_digits value Hv) as (h & buf & Hh & E & Es & Hu).
  exists h. split; [done|]. intros d Hd. unfold print_hex. rewrite E. res_step. rewrite Es. res_step. by apply serial_print_spec.
Qed.

Lemma print_field_spec label value :
  is_u64 value → ∃ h, digits h value ∧ ∀ d, line d → prints (text label ++ h ++ [10]) d (print_field fuel stale label value d).
Proof using Hfuel Hstale.
  intros Hv. destruct (hex_digits value Hv) as (h & buf & Hh & E & Es & Hu). exists h. split; [done|]. intros d Hd. unfold print_field. rewrite E. res_step.
  apply prints_bind; [apply serial_print_spec; [done|apply text_u8]|]. intros d1 H1. rewrite Es. res_step.
  apply prints_bind; [by apply serial_print_spec|]. intros d2 H2. apply serial_print_spec; [done|by repeat constructor].
Qed.

(** Several fields, one after the other. *)
Definition field_lines (fs : list (string * Z)) (hs : list (list Z)) : list Z := concat (zip_with (λ f h, text f.1 ++ h ++ [10]) fs hs).

Fixpoint print_fields (fs : list (string * Z)) d : Res D :=
  match fs with
  | [] => Ok d
  | f :: fs => d ← print_field fuel stale f.1 f.2 d; print_fields fs d
  end.

Lemma print_fields_spec fs :
  Forall (λ f, is_u64 f.2) fs → ∃ hs, Forall2 (λ f h, digits h f.2) fs hs ∧ ∀ d, line d → prints (field_lines fs hs) d (print_fields fs d).
Proof using Hfuel Hstale.
  induction 1 as [|[l v] fs Hv _ (hs & Hhs & IH)]; cbn [print_fields fst snd] in *.
  - exists []. split; [done|]. intros d Hd. exists d. by rewrite app_nil_r.
  - destruct (print_field_spec l v Hv) as (h & Hh & Hp). exists (h :: hs). split; [by constructor|]. intros d Hd.
    unfold field_lines. cbn [zip_with concat fst]. apply prints_bind; [by apply Hp|done].
Qed.

End line.

(** ** The screen *)

Definition vga_ok (v : Vga) : Prop := zlen (vga_buffer v) = WIDTH * HEIGHT ∧ 0 ≤ cursor_row v < HEIGHT ∧ 0 ≤ cursor_col v < WIDTH.

Definition cell (c : Z) : Z := Z.lor (Z.shiftl VGA_COLOR 8) (u8 c).

(** The buffer with [cs] from cell [pos] on. *)
Definition written (cs : list Z) (pos : Z) (b b' : list Z) : Prop :=
  zlen b' = zlen b ∧ (∀ i c, zget cs i = Some c → zget b' (pos + i) = Some (cell c)) ∧
  ∀ j, ¬ pos ≤ j < pos + zlen cs → zget b' j = zget b j.

Lemma vga_clear_ok v :
  zlen (vga_buffer v) = WIDTH * HEIGHT →
  ∃ v', vga_clear v = Ok v' ∧ vga_ok v' ∧ ∀ i, 0 ≤ i < WIDTH * HEIGHT → zget (vga_buffer v') i = Some (cell 32).
Proof.
  intros Hl. unfold vga_clear.
  destruct (iter_upM_ind (λ z b, zlen b = WIDTH * HEIGHT ∧ ∀ i, 0 ≤ i < z → zget b i = Some (cell 32)) (Z.to_nat (WIDTH * HEIGHT)) 0 1
    (λ i b, or_fault (zset b i (Z.lor (Z.shiftl VGA_COLOR 8) 32))) (vga_buffer v)) as (b & E & Hb & Hc).
  - split; [done|lia].
  - intros z b Hz [Hb Hc]. rewrite zset_is by lia. eexists. split; [reflexivity|]. split; [by rewrite zlen_insert|].
    intros i Hi. rewrite zget_insert by lia. case_decide; [done|]. apply Hc. lia.
  - rewrite E. res_step. eexists. split; [reflexivity|]. split; [split; [done|cbn; unfold WIDTH, HEIGHT; lia]|].
    intros i Hi. apply Hc. lia.
Qed.

(** Text that fits into the line appears there. *)
Lemma vga_print_line cs v :
  vga_ok v → Forall (λ c, c ≠ 10) cs → cursor_col v + zlen cs < WIDTH →
  ∃ b, vga_print cs v = Ok (MkVga b (cursor_row v) (cursor_col v + zlen cs)) ∧ written cs (cursor_row v * WIDTH + cursor_col v) (vga_buffer v) b.
Proof.
  intros Hok Hc. revert v Hok. induction Hc as [|c cs Hc Hcs IH]; intros [b r k] (Hl & Hr & Hk) Hfit; cbn [vga_print vga_buffer cursor_row cursor_col] in *.
  { exists b. change (zlen []) with 0. rewrite Z.add_0_r. split; [done|]. split; [done|]. split; [intros i c Hi%zget_bounds; change (zlen []) with 0 in Hi; lia|done]. }
  assert (zlen (c :: cs) = 1 + zlen cs ∧ 0 ≤ zlen cs) as [Hz Hz0] by (unfold zlen; simpl; lia). rewrite Hz in *.
  unfold vga_putc. cbn [vga_buffer cursor_row cursor_col]. rewrite (proj2 (Z.eqb_neq c 10)), (proj2 (Z.leb_gt HEIGHT r)), (proj2 (Z.leb_gt WIDTH k)) by (done || lia).
  cbn [orb]. assert (0 ≤ r * WIDTH + k < zlen b) as Hp by (unfold WIDTH, HEIGHT in *; lia). fold (cell c). rewrite zset_is by done. res_step.
  rewrite (proj2 (Z.leb_gt WIDTH (k + 1))) by lia. destruct (IH (MkVga (<[Z.to_nat (r * WIDTH + k) := cell c]> b) r (k + 1))) as (b' & E & W1 & W2 & W3).
  { split; [|cbn; lia]. cbn. by rewrite zlen_insert. }
  { cbn. lia. }
  cbn [vga_buffer cursor_row cursor_col] in *. exists b'. split; [rewrite E; do 2 f_equal; lia|]. rewrite zlen_insert in W1. split; [exact W1|]. split.
  - intros i x Hi. apply zget_bounds in Hi as Hib. destruct (decide (i = 0)) as [->|Hne].
    + injection Hi as <-. rewrite W3 by lia. rewrite zget_insert, decide_True by lia. done.
    + replace (r * WIDTH + k + i) with (r * WIDTH + (k + 1) + (i - 1)) by lia. rewrite Z.add_assoc in W2 |- *. apply W2.
      unfold zget in *. rewrite (proj2 (Z.ltb_ge i 0)) in Hi by lia. rewrite (proj2 (Z.ltb_ge (i - 1) 0)) by lia. replace (Z.to_nat i) with (S (Z.to_nat (i - 1))) in Hi by lia. exact Hi.
  - intros j Hj. rewrite W3 by lia. rewrite zget_insert, decide_False by lia. done.
Qed.

(** The line of the panic message. *)
Lemma vga_panic v :
  vga_ok v → ∃ v', vga_print (10 :: PANIC ++ [10]) v = Ok v' ∧ vga_ok v' ∧
    written PANIC (vga_next_row (cursor_row v) * WIDTH) (vga_buffer v) (vga_buffer v').
Proof.
  intros (Hl & Hr & Hk). assert (∀ r, 0 ≤ r < HEIGHT → 0 ≤ vga_next_row r < HEIGHT) as Hnext by (intros r Hr'; unfold vga_next_row, HEIGHT in *; case_cmp; lia).
  pose proof (Hnext _ Hr) as Hr1. cbn [vga_print]. unfold vga_putc at 1. cbn [Z.eqb Pos.eqb]. res_step.
  set (v1 := MkVga _ _ 0). assert (vga_ok v1) as Hv1 by (split; [done|]; split; [done|cbn; unfold WIDTH; lia]).
  destruct (vga_print_line PANIC v1 Hv1) as (b & E & W).
  { apply (Forall_fmap _ (λ c, c ≠ 10)), (bool_decide_unpack _). vm_compute. exact I. }
  { vm_compute. reflexivity. }
  assert (∀ l1 l2 w, vga_print (l1 ++ l2) w = (w ← vga_print l1 w; vga_print l2 w)) as Happ.
  { intros l1 l2. induction l1 as [|c l1 IH]; intros w; cbn [app vga_print]; [by rewrite bind_ret|]. rewrite bind_assoc.
    destruct (vga_putc c w); [apply IH|done..]. }
  rewrite Happ, E. res_step. cbn [vga_print]. unfold vga_putc. cbn [Z.eqb Pos.eqb vga_buffer cursor_row cursor_col]. res_step.
  eexists. split; [reflexivity|]. cbn [v1 vga_buffer cursor_row cursor_col] in *. destruct W as (W1 & W2 & W3).
  rewrite Z.add_0_r in W2, W3. split; [|done]. split; [cbn; by rewrite W1|]. split; [by apply Hnext|cbn; unfold WIDTH; lia].
Qed.

(** ** The report *)

(** The lines that show a value. *)
Definition fields (frame : InterruptFrame) (cr2 : Z) : list (string * Z) := [
  ("error code: ", x_error_code frame); ("rip:        ", x_rip frame); ("cs:         ", x_cs frame); ("rflags:     ", x_rflags frame);
  ("rsp:        ", x_rsp frame); ("ss:         ", x_ss frame); ("rax:        ", x_rax frame); ("rbx:        ", x_rbx frame);
  ("rcx:        ", x_rcx frame); ("rdx:        ", x_rdx frame); ("rsi:        ", x_rsi frame); ("rdi:        ", x_rdi frame);
  ("rbp:        ", x_rbp frame)]%string ++ (if x_vector frame =? 14 then [("cr2 (fault addr): "%string, cr2)] else []).

(** The name of a vector; the last one stands for those that have none. *)
Definition vector_name (v : Z) : list Z := default [] (exception_names !! Z.to_nat (v `min` 31)).

Definition header (vector : Z) (h : list Z) : list Z :=
  (10 :: text "--- unhandled exception ---" ++ [10]) ++ text "vector: " ++ h ++ text "  (" ++ vector_name vector ++ text ")" ++ [10].

Lemma vector_name_spec v : 0 ≤ v → or_fault (zget exception_names (if v <? 32 then v else 31)) = Ok (vector_name v) ∧ Forall is_u8 (vector_name v).
Proof.
  intros Hv. unfold vector_name. assert ((if v <? 32 then v else 31) = v `min` 31) as -> by (case_cmp; lia).
  unfold zget. rewrite (proj2 (Z.ltb_ge _ _)) by lia. destruct (lookup_lt_is_Some_2 exception_names (Z.to_nat (v `min` 31))) as [n E].
  { change (length exception_names) with 32%nat. lia. }
  rewrite E. split; [done|]. apply list_elem_of_lookup_2, list_elem_of_fmap in E as (s & -> & _). apply text_u8.
Qed.

Section theorem.
Context {D : Type} `{Hardware D} {polls : nat} `{!Uart D polls} (fuel : nat) (stale : list Z).

Lemma exception_dump_spec frame cr2 d :
  (polls ≤ fuel)%nat → zlen stale = 17 → is_u64 (x_vector frame) → Forall (λ f, is_u64 f.2) (fields frame cr2) → line d →
  ∃ h hs, digits h (x_vector frame) ∧ Forall2 (λ f h, digits h f.2) (fields frame cr2) hs ∧
    prints (header (x_vector frame) h ++ field_lines (fields frame cr2) hs) d (exception_dump fuel stale frame cr2 d).
Proof using Type.
  intros Hfuel Hstale Hv Hf Hd. destruct (print_hex_spec fuel stale Hfuel Hstale (x_vector frame) Hv) as (h & Hh & Hp).
  destruct (print_fields_spec fuel stale Hfuel Hstale (fields frame cr2) Hf) as (hs & Hhs & Hps). exists h, hs. split; [done|]. split; [done|].
  unfold header. rewrite <-!app_assoc. unfold exception_dump. destruct (vector_name_spec (x_vector frame)) as [En Hn]; [unfold is_u64 in Hv; lia|].
  assert (∀ s d, line d → Forall is_u8 s → prints s d (serial_print fuel s d)) as Hs by (intros; by apply serial_print_spec).
  apply (prints_bind (10 :: _ ++ [10])); [apply Hs; [done|vm_compute; repeat constructor; done]|]. intros d1 H1.
  apply prints_bind; [apply Hs; [done|apply text_u8]|]. intros d2 H2. apply prints_bind; [by apply Hp|]. intros d3 H3.
  apply prints_bind; [apply Hs; [done|apply text_u8]|]. intros d4 H4. rewrite En. res_step.
  apply prints_bind; [by apply Hs|]. intros d5 H5. rewrite app_assoc. apply prints_bind; [apply Hs; [done|vm_compute; repeat constructor; done]|]. intros d6 H6.
  replace (print_field fuel stale _ _ d6 ≫= _) with (print_fields fuel stale (fields frame cr2) d6); [by apply Hps|].
  unfold fields. destruct (x_vector frame =? 14); cbn [app print_fields fst snd]; repeat (apply bind_ext; intros ?); [|done].
  by destruct (print_field _ _ _ _ _).
Qed.

(** C30. An exception is reported, whatever its vector.  Every port that is ready within
    [polls] polls gets, after what it had been sent, the name of the vector and one line for
    each register of [fields] - all of the frame but r8 to r15, which the code does not
    print - with sixteen digits that say what the register holds, and the fault address when
    it is a page fault.  The panic message stands at the start of the row below the cursor of
    the screen, or of the last row, over what was there, when the cursor is on it (this
    console does not scroll), and no other cell changes. *)
Theorem exception_reported frame cr2 d v :
  (polls ≤ fuel)%nat → zlen stale = 17 → is_u64 (x_vector frame) → Forall (λ f, is_u64 f.2) (fields frame cr2) → line d → vga_ok v →
  ∃ d' v' h hs, isr_common_handler fuel stale frame cr2 d v = Ok (d', v') ∧
    digits h (x_vector frame) ∧ Forall2 (λ f h, digits h f.2) (fields frame cr2) hs ∧
    sent d' = sent d ++ header (x_vector frame) h ++ field_lines (fields frame cr2) hs ∧
    vga_ok v' ∧ written PANIC (vga_next_row (cursor_row v) * WIDTH) (vga_buffer v) (vga_buffer v').
Proof using Type.
  intros Hfuel Hstale Hv Hf Hd Hok. destruct (exception_dump_spec frame cr2 d Hfuel Hstale Hv Hf Hd) as (h & hs & Hh & Hhs & d' & E & _ & Es).
  destruct (vga_panic v Hok) as (v' & Ev & Hok' & W). exists d', v', h, hs. unfold isr_common_handler. rewrite E. res_step. rewrite Ev. res_step. done.
Qed.

End theorem.

(** ** A port that needs one poll after each character *)

Record Com := MkCom { c_lcr : Z; c_busy : bool; c_out : list Z }.

#[export] Instance com_hardware : Hardware Com := {
  mmio_read _ _ d := (d, 0);
  mmio_write _ _ _ d := d;
  port_in _ p d := if p =? COM1 + 5 then (MkCom (c_lcr d) false (c_out d), if c_busy d then 0 else 0x60) else (d, 0);
  port_out _ p v d :=
    if p =? COM1 + 3 then MkCom v (c_busy d) (c_out d) else
    if (p =? COM1) && negb (Z.testbit (c_lcr d) 7) && negb (c_busy d) then MkCom (c_lcr d) true (c_out d ++ [v]) else d;
  read_msr _ _ := 0;
  write_msr _ _ d := d;
}.

#[export] Instance com_uart : Uart Com 2.
Proof.
  refine {| line d := c_lcr d = 3; sent := c_out |}.
  - done.
  - done.
  - intros d Hd. destruct (c_busy d) eqn:E; [exists 1%nat|exists 0%nat]; (split; [lia|]); [done|]. unfold transmit_ready. cbn. by rewrite E.
  - intros c [lcr busy out] Hd Hc Hr. unfold transmit_ready, outb in *. cbn in *. destruct busy; [done|]. subst lcr. by rewrite u8_small.
Defined.

(** A page fault, with the report on the third line of an empty screen. *)
Definition sample_fault : InterruptFrame := MkInterruptFrame 0 0 0 0 0 0 0 0 0x7FF0 1 2 3 4 5 0xFFFFFFFFFFFFFFFF 14 6 0x100123 8 0x10246 0x7F00 16.

Lemma exception_reported_witness :
  ∃ d' v' h hs, isr_common_handler 2 (replicate 17 0) sample_fault 0xDEAD0000 (MkCom 3 true []) (MkVga (replicate 2000 0) 1 7) = Ok (d', v') ∧
    digits h 14 ∧ length hs = 14%nat ∧ c_out d' = header 14 h ++ field_lines (fields sample_fault 0xDEAD0000) hs ∧
    zget (vga_buffer v') 160 = Some 0x0F4B.
Proof.
  destruct (exception_reported 2 (replicate 17 0) sample_fault 0xDEAD0000 (MkCom 3 true []) (MkVga (replicate 2000 0) 1 7))
    as (d' & v' & h & hs & E & Hh & Hhs & Es & _ & _ & W & _).
  - lia.
  - reflexivity.
  - unfold is_u64. cbn. lia.
  - repeat constructor; unfold is_u64; cbn; lia.
  - reflexivity.
  - split; [reflexivity|]. cbn. unfold WIDTH, HEIGHT. lia.
  - exists d', v', h, hs. split; [exact E|]. split; [exact Hh|]. split; [by apply Forall2_length in Hhs|]. split; [exact Es|]. by apply (W 0 75).
Defined.
