(* ===== verification/Pci.v ===== *)
(** * The PCI bus ([dev/pci.cpp])

    The configuration space is read through an address port and a data port.  A scan calls
    back for every function that answers, and stops when the callback says so. *)

From S2P Require Import Prelude Hardware.

Definition CONFIG_ADDR : Z := 0xCF8.
Definition CONFIG_DATA : Z := 0xCFC.

Definition make_addr (bus dev func offset : Z) : Z :=
  Z.lor (Z.lor (Z.lor (Z.lor 0x80000000 (Z.shiftl bus 16)) (Z.shiftl dev 11)) (Z.shiftl func 8)) (Z.land offset 0xFC).

Record Device := MkDevice {
  bus : Z; device : Z; function : Z;
  vendor_id : Z; device_id : Z;
  class_code : Z; subclass : Z; prog_if : Z;
  bar : list Z;
}.

Section pci.
Context {S : Type} `{Hardware S}.

Definition read_config (bus dev func offset : Z) (s : S) : S * Z :=
  inl CONFIG_DATA (outl CONFIG_ADDR (make_addr bus dev func offset) s).

Definition write_config (bus dev func offset value : Z) (s : S) : S :=
  outl CONFIG_DATA value (outl CONFIG_ADDR (make_addr bus dev func offset) s).

Definition get_bar (bus dev func bar_index : Z) (s : S) : S * Z :=
  let '(s, low) := read_config bus dev func (u8 (0x10 + bar_index * 4)) s in
  if Z.land low 0x6 =? 0x4 then
    let '(s, high) := read_config bus dev func (u8 (0x10 + (bar_index + 1) * 4)) s in
    (s, Z.lor (Z.shiftl high 32) (band_not low 0xF))
  else (s, band_not low 0xF).

(** [for (int i = 0; i < 6; ++i)]. *)
Fixpoint bar_loop (n : nat) (bus dev func i : Z) (s : S) : S * list Z :=
  match n with
  | O => (s, [])
  | Datatypes.S n =>
      let '(s, b) := get_bar bus dev func i s in
      let '(s, bs) := bar_loop n bus dev func (i + 1) s in
      (s, u32 b :: bs)
  end.

(** What is read of a function that answers with [id]. *)
Definition read_device (bus dev func id : Z) (s : S) : S * Device :=
  let '(s, class_reg) := read_config bus dev func 0x08 s in
  let '(s, bars) := bar_loop 6 bus dev func 0 s in
  (s, MkDevice bus dev func (Z.land id 0xFFFF) (u16 (Z.shiftr id 16))
        (Z.land (Z.shiftr class_reg 24) 0xFF) (Z.land (Z.shiftr class_reg 16) 0xFF) (Z.land (Z.shiftr class_reg 8) 0xFF) bars).

Context (callback : Device → S → Res (S * bool)).

Fixpoint func_loop (n : nat) (bus dev func : Z) (s : S) : Res (S * bool) :=
  match n with
  | O => Ok (s, false)
  | Datatypes.S n =>
      let '(s, id) := read_config bus dev func 0 s in
      if Z.land id 0xFFFF =? 0xFFFF then
        if func =? 0 then Ok (s, false) else func_loop n bus dev (func + 1) s
      else
        let '(s, d) := read_device bus dev func id s in
        '(s, stop) ← callback d s;
        if stop : bool then Ok (s, true) else func_loop n bus dev (func + 1) s
  end.

Fixpoint dev_loop (n : nat) (bus dev : Z) (s : S) : Res (S * bool) :=
  match n with
  | O => Ok (s, false)
  | Datatypes.S n =>
      '(s, stop) ← func_loop 8 bus dev 0 s;
      if stop : bool then Ok (s, true) else dev_loop n bus (dev + 1) s
  end.

Fixpoint bus_loop (n : nat) (bus : Z) (s : S) : Res (S * bool) :=
  match n with
  | O => Ok (s, false)
  | Datatypes.S n =>
      '(s, stop) ← dev_loop 32 bus 0 s;
      if stop : bool then Ok (s, true) else bus_loop n (bus + 1) s
  end.

Definition enumerate (s : S) : Res (S * bool) := bus_loop 256 0 s.

End pci.

(** ** What a scan visits *)

(** The bus as the PCI specification documents it: the data port reads the register the
    address port names, which no read changes. *)
Class PciBus (S : Type) `{Hardware S} := {
  config : S → Z → Z;
  config_read addr s : 0 ≤ addr < 2 ^ 32 →
    ∃ s', inl CONFIG_DATA (outl CONFIG_ADDR addr s) = (s', config s addr) ∧ config s' = config s;
}.

(** A configuration space: what each register of each function holds. *)
Section space.
Context (cfg : Z → Z).

Definition cfg_reg (bus dev func offset : Z) : Z := cfg (make_addr bus dev func offset).

Definition cfg_bar (bus dev func i : Z) : Z :=
  let low := cfg_reg bus dev func (0x10 + i * 4) in
  if Z.land low 0x6 =? 0x4 then Z.lor (Z.shiftl (cfg_reg bus dev func (0x10 + (i + 1) * 4)) 32) (band_not low 0xF)
  else band_not low 0xF.

Definition answers (bus dev func : Z) : bool := negb (Z.land (cfg_reg bus dev func 0) 0xFFFF =? 0xFFFF).

Definition cfg_device (bus dev func : Z) : Device :=
  let id := cfg_reg bus dev func 0 in
  let class := cfg_reg bus dev func 0x08 in
  MkDevice bus dev func (Z.land id 0xFFFF) (u16 (Z.shiftr id 16))
    (Z.land (Z.shiftr class 24) 0xFF) (Z.land (Z.shiftr class 16) 0xFF) (Z.land (Z.shiftr class 8) 0xFF)
    ((λ i, u32 (cfg_bar bus dev func i)) <$> seqZ 0 6).

(** The functions of a device; there are none when function 0 does not answer. *)
Definition functions_from (bus dev func : Z) (n : nat) : list Device :=
  cfg_device bus dev <$> filter (λ f, answers bus dev f = true) (seqZ func (Z.of_nat n)).

Definition functions (bus dev : Z) : list Device :=
  if answers bus dev 0 then functions_from bus dev 0 8 else [].

Definition pci_devices : list Device :=
  b ← seqZ 0 256; d ← seqZ 0 32; functions b d.

End space.

Lemma make_addr_u32 b d f o : 0 ≤ b < 256 → 0 ≤ d < 32 → 0 ≤ f < 8 → 0 ≤ make_addr b d f o < 2 ^ 32.
Proof.
  intros Hb Hd Hf. unfold make_addr. apply bounded_by_bits; [lia| |].
  - rewrite !Z.lor_nonneg, !Z.shiftl_nonneg, Z.land_nonneg. lia.
  - intros i Hi. autorewrite with bits. rewrite (testbit_high 0x80000000 32), (testbit_high b 8), (testbit_high d 5), (testbit_high f 3), (testbit_high 0xFC 8) by lia.
    by rewrite andb_false_r.
Qed.

Section visit.
Context {S : Type} `{PciBus S}.
Context (cfg : Z → Z) (J : S → Prop) (pred : Device → bool) (Q : Device → S → Prop) (callback : Device → S → Res (S * bool)).
(** What the callback does to the rest of the machine keeps [J]; [Q] holds when it stops
    the scan. *)
(** What stops the machine, if anything does. *)
Context (H' : Prop).
Context (HJ : ∀ s, J s → config s = cfg).
Context (Hread : ∀ s s' addr v, 0 ≤ addr < 2 ^ 32 → J s → inl CONFIG_DATA (outl CONFIG_ADDR addr s) = (s', v) → J s').
Context (Hcb : ∀ b dv f s, 0 ≤ b < 256 → 0 ≤ dv < 32 → 0 ≤ f < 8 → J s →
  let d := cfg_device cfg b dv f in ensures_or H' (callback d s) (λ '(s', stop), stop = pred d ∧ if pred d then Q d s' else J s')).

Lemma read_config_spec b d f o s :
  J s → 0 ≤ b < 256 → 0 ≤ d < 32 → 0 ≤ f < 8 → ∃ s', read_config b d f o s = (s', cfg_reg cfg b d f o) ∧ J s'.
Proof using HJ Hread.
  intros Hs Hb Hd Hf. unfold read_config. destruct (config_read (make_addr b d f o) s) as (s' & E & _); [by apply make_addr_u32|].
  exists s'. split; [rewrite E, (HJ s Hs); done|]. eapply (Hread s s' (make_addr b d f o)); [by apply make_addr_u32|done|done].
Qed.


Lemma get_bar_spec b d f i s :
  J s → 0 ≤ b < 256 → 0 ≤ d < 32 → 0 ≤ f < 8 → 0 ≤ i < 6 → ∃ s', get_bar b d f i s = (s', cfg_bar cfg b d f i) ∧ J s'.
Proof using HJ Hread.
  intros Hs Hb Hd Hf Hi. unfold get_bar, cfg_bar. rewrite !u8_small by (unfold is_u8; lia).
  destruct (read_config_spec b d f (0x10 + i * 4) s) as (s1 & -> & H1); [done..|].
  destruct (Z.land _ 6 =? 4); [|by exists s1]. destruct (read_config_spec b d f (0x10 + (i + 1) * 4) s1) as (s2 & -> & H2); [done..|]. by exists s2.
Qed.

Lemma bar_loop_spec n b d f i s :
  J s → 0 ≤ b < 256 → 0 ≤ d < 32 → 0 ≤ f < 8 → 0 ≤ i → i + Z.of_nat n ≤ 6 →
  ∃ s', bar_loop n b d f i s = (s', (λ i, u32 (cfg_bar cfg b d f i)) <$> seqZ i (Z.of_nat n)) ∧ J s'.
Proof using HJ Hread.
  intros Hs Hb Hd Hf. revert i s Hs. induction n as [|n IH]; intros i s Hs Hi Hn; cbn [bar_loop]; [by exists s|].
  destruct (get_bar_spec b d f i s) as (s1 & -> & H1); [done || lia..|]. destruct (IH (i + 1) s1) as (s2 & -> & H2); [done || lia..|].
  exists s2. split; [|done]. rewrite (seqZ_cons i) by lia. rewrite fmap_cons. do 3 f_equal. f_equal; lia.
Qed.

Lemma read_device_spec b d f s :
  J s → 0 ≤ b < 256 → 0 ≤ d < 32 → 0 ≤ f < 8 →
  ∃ s', read_device b d f (cfg_reg cfg b d f 0) s = (s', cfg_device cfg b d f) ∧ J s'.
Proof using HJ Hread.
  intros Hs Hb Hd Hf. unfold read_device, cfg_device. destruct (read_config_spec b d f 0x08 s) as (s1 & -> & H1); [done..|].
  destruct (bar_loop_spec 6 b d f 0 s1) as (s2 & -> & H2); [done || lia..|]. by exists s2.
Qed.

(** What a scan of [ds] comes to. *)
Definition scanned (ds : list Device) (r : Res (S * bool)) : Prop :=
  ensures_or H' r (λ '(s', stop), match find pred ds with
    | Some d => stop = true ∧ Q d s'
    | None => stop = false ∧ J s'
    end).

Lemma find_app {T} (p : T → bool) (l1 l2 : list T) : find p (l1 ++ l2) = match find p l1 with Some x => Some x | None => find p l2 end.
Proof using Type. clear. induction l1 as [|x l1 IH]; [done|]. simpl. by destruct (p x). Qed.

(** One scan after another. *)
Lemma scanned_app ds1 ds2 r (k : S → Res (S * bool)) :
  scanned ds1 r → (∀ s, J s → scanned ds2 (k s)) → scanned (ds1 ++ ds2) ('(s, stop) ← r; if stop : bool then Ok (s, true) else k s).
Proof using Type.
  intros H1 H2. unfold scanned in *. eapply ensures_or_bind; [exact H1|]. intros [s stop]. rewrite find_app.
  destruct (find pred ds1) as [d|]; intros [-> Hs]; [done|]. by apply H2.
Qed.

Lemma func_loop_spec n b d f s :
  J s → 0 ≤ b < 256 → 0 ≤ d < 32 → 0 ≤ f → f + Z.of_nat n ≤ 8 →
  (f = 0 → n ≠ 0%nat) → scanned (if decide (f = 0) then if answers cfg b d 0 then functions_from cfg b d f n else [] else functions_from cfg b d f n)
    (func_loop callback n b d f s).
Proof using HJ Hread Hcb.
  intros Hs Hb Hd. revert f s Hs. induction n as [|n IH]; intros f s Hs Hf Hn Hn0.
  { destruct (decide (f = 0)); [by destruct Hn0|]. done. }
  cbn [func_loop]. destruct (read_config_spec b d f 0 s) as (s1 & -> & H1); [done || lia..|].
  assert (functions_from cfg b d f (Datatypes.S n) = (if answers cfg b d f then [cfg_device cfg b d f] else []) ++ functions_from cfg b d (f + 1) n) as E.
  { unfold functions_from. rewrite (seqZ_cons f) by lia. replace (Z.pred (Z.of_nat (Datatypes.S n))) with (Z.of_nat n) by lia. replace (Z.succ f) with (f + 1) by lia.
    rewrite filter_cons. by destruct (answers cfg b d f). }
  assert (∀ s, J s → scanned (functions_from cfg b d (f + 1) n) (func_loop callback n b d (f + 1) s)) as Hrest.
  { intros s' Hs'. specialize (IH (f + 1) s' Hs' ltac:(lia) ltac:(lia) ltac:(lia)). by rewrite decide_False in IH by lia. }
  unfold answers in E at 1. destruct (Z.eqb_spec (Z.land (cfg_reg cfg b d f 0) 0xFFFF) 0xFFFF) as [Ea|Ea].
  - cbn [negb app] in E. destruct (Z.eqb_spec f 0) as [->|Hf0].
    + rewrite decide_True by done. unfold answers. by rewrite (proj2 (Z.eqb_eq _ _) Ea).
    + rewrite decide_False by done. rewrite E. by apply Hrest.
  - cbn [negb] in E. assert ((if decide (f = 0) then if answers cfg b d 0 then functions_from cfg b d f (Datatypes.S n) else [] else functions_from cfg b d f (Datatypes.S n)) =
      [cfg_device cfg b d f] ++ functions_from cfg b d (f + 1) n) as ->.
    { rewrite E. case_decide; [|done]. subst f. unfold answers. by rewrite (proj2 (Z.eqb_neq _ _) Ea). }
    destruct (read_device_spec b d f s1) as (s2 & -> & H2); [done || lia..|].
    apply scanned_app; [|done]. unfold scanned. eapply ensures_or_mono; [apply (Hcb b d f); done || lia|done|]. intros [s3 stop] [-> HQ]. cbn [find]. by destruct (pred _).
Qed.

Lemma dev_loop_spec n b d s :
  J s → 0 ≤ b < 256 → 0 ≤ d → d + Z.of_nat n ≤ 32 → scanned (d ← seqZ d (Z.of_nat n); functions cfg b d) (dev_loop callback n b d s).
Proof using HJ Hread Hcb.
  intros Hs Hb. revert d s Hs. induction n as [|n IH]; intros d s Hs Hd Hn; [done|]. cbn [dev_loop].
  rewrite (seqZ_cons d) by lia. rewrite bind_cons. apply scanned_app.
  - apply (func_loop_spec 8 b d 0 s); done || lia.
  - intros s' Hs'. replace (Z.pred (Z.of_nat (Datatypes.S n))) with (Z.of_nat n) by lia. apply (IH (d + 1)); [done|lia..].
Qed.

Lemma bus_loop_spec n b s :
  J s → 0 ≤ b → b + Z.of_nat n ≤ 256 → scanned (b ← seqZ b (Z.of_nat n); d ← seqZ 0 32; functions cfg b d) (bus_loop callback n b s).
Proof using HJ Hread Hcb.
  revert b s. induction n as [|n IH]; intros b s Hs Hb Hn; [done|]. cbn [bus_loop].
  rewrite (seqZ_cons b) by lia. rewrite bind_cons. apply scanned_app.
  - apply (dev_loop_spec 32 b 0 s); done || lia.
  - intros s' Hs'. replace (Z.pred (Z.of_nat (Datatypes.S n))) with (Z.of_nat n) by lia. apply (IH (b + 1)); [done|lia..].
Qed.

(** A scan stops at the first function of the bus, in order, that the callback takes. *)
Lemma enumerate_spec s : J s → scanned (pci_devices cfg) (enumerate callback s).
Proof using HJ Hread Hcb. intros Hs. apply (bus_loop_spec 256 0 s Hs); done || lia. Qed.

End visit.
