(* ===== verification/Ahci.v ===== *)
(** * The disk driver ([dev/ahci.cpp])

    One AHCI port and one command slot.  The kernel and the controller share memory: the
    kernel builds a command in the command page and polls a register, and the controller
    writes the data while it does, so every turn of a waiting loop gives the controller a
    chance to run ([dma]).  Pointers into the command page and the bounce buffer are
    identity addresses, used through whatever page tables are loaded, and so are the
    registers: an access to one that is not mapped faults.  The buffer of [read_sectors] is
    the list of the bytes written to it. *)

From S2P Require Import Prelude Mem Frames Vmm UserMem Hardware Apic Pci.

(** What the devices do to memory between two steps of the kernel. *)
Class Dma (D : Type) := dma : D → mem → D * mem.

(** Registers of the controller and of a port. *)
Definition HBA_GHC : Z := 0x4.
Definition HBA_PI : Z := 0xC.
Definition PORT_CLBL : Z := 0x00.
Definition PORT_CLBH : Z := 0x04.
Definition PORT_FBL : Z := 0x08.
Definition PORT_FBH : Z := 0x0C.
Definition PORT_IS : Z := 0x10.
Definition PORT_CMD : Z := 0x18.
Definition PORT_SIG : Z := 0x24.
Definition PORT_SERR : Z := 0x30.
Definition PORT_CI : Z := 0x38.

Definition GHC_AE : Z := Z.shiftl 1 31.
Definition GHC_HR : Z := Z.shiftl 1 0.
Definition CMD_ST : Z := Z.shiftl 1 0.
Definition CMD_FRE : Z := Z.shiftl 1 4.
Definition CMD_CR : Z := Z.shiftl 1 15.

Definition ATA_IDENTIFY : Z := 0xEC.
Definition ATA_READ_DMA_EX : Z := 0x25.

(** [CmdTable::prdt]. *)
Definition CT_PRDT : Z := 0x80.

Record Ahci := MkAhci {
  hba : Z;
  sata_port : Z;
  identify_data : Z;
  cmd_list_phys : Z;
  fis_phys : Z;
  cmd_table_phys : Z;
  identify_phys : Z;
  cmd_list_virt : Z;
  fis_virt : Z;
  cmd_table_virt : Z;
}.

(** Static storage at boot. *)
Definition ahci_zero : Ahci := MkAhci 0 0 0 0 0 0 0 0 0 0.

(** ~0u, and the complement of a mask on 32 bits. *)
Definition ALL_ONES : Z := 0xFFFFFFFF.

Section ahci.
Context {A D : Type} `{FrameAlloc A, Hardware D, Dma D}.

(** The machine the driver works on. *)
Record Mach := MkMach { m_vm : Vmm A; m_dev : D; m_ahci : Ahci }.

Implicit Type m : Mach.

Definition with_vm (s : Vmm A) m : Mach := MkMach s (m_dev m) (m_ahci m).
Definition with_dev (d : D) m : Mach := MkMach (m_vm m) d (m_ahci m).
Definition with_ahci (a : Ahci) m : Mach := MkMach (m_vm m) (m_dev m) a.

#[export] Instance mach_hardware : Hardware Mach := {
  mmio_read n a m := let '(d, v) := mmio_read n a (m_dev m) in (with_dev d m, v);
  mmio_write n a v m := with_dev (mmio_write n a v (m_dev m)) m;
  port_in n p m := let '(d, v) := port_in n p (m_dev m) in (with_dev d m, v);
  port_out n p v m := with_dev (port_out n p v (m_dev m)) m;
  read_msr a m := read_msr a (m_dev m);
  write_msr a v m := with_dev (write_msr a v (m_dev m)) m;
}.

(** [asm volatile("pause")]. *)
Definition pause m : Mach :=
  let '(d, mem) := dma (m_dev m) (pm (m_vm m)) in with_dev d (with_vm (with_pm mem (m_vm m)) m).

(** A store through a pointer of the kernel. *)
Definition kstore (va : Z) (bs : list Z) m : Res Mach := s ← user_store va bs (m_vm m); Ok (with_vm s m).

(** Registers, by the address the kernel uses. *)
Definition reg_read (a : Z) m : Res (Mach * Z) :=
  let pa := virt_to_phys a (m_vm m) in
  if pa =? 0 then Fault else Ok (mmio_read 4 pa m).
Definition reg_write (a v : Z) m : Res Mach :=
  let pa := virt_to_phys a (m_vm m) in
  if pa =? 0 then Fault else Ok (mmio_write 4 pa v m).

(** [reg |= mask] and [reg &= ~mask]. *)
Definition reg_set (a mask : Z) m : Res Mach := '(m, v) ← reg_read a m; reg_write a (Z.lor v mask) m.
Definition reg_clear (a mask : Z) m : Res Mach := '(m, v) ← reg_read a m; reg_write a (band_not v mask) m.

Definition wait_ms (ms : Z) m : Mach := Nat.iter (Z.to_nat (u32 (ms * 1000))) pause m.

(** At most 100000 turns. *)
Fixpoint wait_clear (n : nat) (p mask : Z) m : Res Mach :=
  match n with
  | O => Ok m
  | S n =>
      '(m, cmd) ← reg_read (p + PORT_CMD) m;
      if Z.land cmd mask =? 0 then Ok m else wait_clear n p mask (pause m)
  end.

Definition port_wait_clear (p mask : Z) m : Res Mach := wait_clear (Z.to_nat 100000) p mask m.

(** ** Commands *)

Definition setup_cmd_header (opts prdtl : Z) m : Res Mach :=
  let a := m_ahci m in
  m ← kstore (cmd_list_virt a) (le_bytes 2 opts) m;
  m ← kstore (cmd_list_virt a + 2) (le_bytes 2 prdtl) m;
  m ← kstore (cmd_list_virt a + 4) (le_bytes 4 0) m;
  m ← kstore (cmd_list_virt a + 8) (le_bytes 4 (Z.land (cmd_table_phys a) 0xFFFFFFFF)) m;
  kstore (cmd_list_virt a + 12) (le_bytes 4 0) m.

(** The bytes [cfis[0]] to [cfis[13]]. *)
Definition cfis_bytes (ata_cmd lba sector_count : Z) : list Z :=
  [0x27; 0x80; ata_cmd; 0;
   Z.land lba 0xFF; Z.land (Z.shiftr lba 8) 0xFF; Z.land (Z.shiftr lba 16) 0xFF; 0x40;
   Z.land (Z.shiftr lba 24) 0xFF; Z.land (Z.shiftr lba 32) 0xFF; Z.land (Z.shiftr lba 40) 0xFF; 0;
   Z.land sector_count 0xFF; Z.land (Z.shiftr sector_count 8) 0xFF].

Definition setup_cfis_and_prdt (ata_cmd lba sector_count buf_phys bytes : Z) m : Res Mach :=
  let cfis := cmd_table_virt (m_ahci m) in
  m ← kstore cfis (replicate 64 0) m;
  m ← kstore cfis (cfis_bytes ata_cmd lba sector_count) m;
  let prdt := cfis + CT_PRDT in
  m ← kstore prdt (le_bytes 4 (Z.land buf_phys 0xFFFFFFFF)) m;
  m ← kstore (prdt + 4) (le_bytes 4 0) m;
  m ← kstore (prdt + 8) (le_bytes 4 0) m;
  kstore (prdt + 12) (le_bytes 4 (u32 (bytes - 1))) m.

(** [while ((sata_port->ci & 1) && timeout--)] with [timeout] at [n], and what is left of
    [timeout]. *)
Fixpoint wait_ci (n : nat) m : Res (Mach * Z) :=
  '(m, ci) ← reg_read (sata_port (m_ahci m) + PORT_CI) m;
  if Z.land ci 1 =? 0 then Ok (m, Z.of_nat n) else
  match n with
  | O => Ok (m, u32 (0 - 1))
  | S n => wait_ci n (pause m)
  end.

Definition TIMEOUT : Z := 5000000.

Definition issue_and_wait m : Res (Mach * bool) :=
  let p := sata_port (m_ahci m) in
  m ← reg_write (p + PORT_IS) ALL_ONES m;
  m ← reg_write (p + PORT_CI) 1 m;
  '(m, timeout) ← wait_ci (Z.to_nat TIMEOUT) m;
  '(m, ok) ← (if 0 <? timeout then '(m, status) ← reg_read (p + PORT_IS) m; Ok (m, Z.land status (Z.shiftl 1 30) =? 0)
              else Ok (m, false));
  m ← reg_write (p + PORT_IS) ALL_ONES m;
  Ok (m, ok).

(** ** Set-up *)

(** The pages of the port: the command list, the received FIS, the command table and the
    identify data, in one frame. *)
Definition port_page (page : Z) (a : Ahci) : Ahci :=
  MkAhci (hba a) (sata_port a) (page + 0x600) page (page + 0x400) (page + 0x500) (page + 0x600) page (page + 0x400) (page + 0x500).

Definition with_port (p : Z) (a : Ahci) : Ahci :=
  MkAhci (hba a) p (identify_data a) (cmd_list_phys a) (fis_phys a) (cmd_table_phys a) (identify_phys a) (cmd_list_virt a) (fis_virt a) (cmd_table_virt a).

Definition with_hba (h : Z) (a : Ahci) : Ahci :=
  MkAhci h (sata_port a) (identify_data a) (cmd_list_phys a) (fis_phys a) (cmd_table_phys a) (identify_phys a) (cmd_list_virt a) (fis_virt a) (cmd_table_virt a).

Definition init_port (port_no : Z) m : Res (Mach * bool) :=
  let p := hba (m_ahci m) + 0x100 + port_no * 0x80 in
  let m := with_ahci (with_port p (m_ahci m)) m in
  m ← reg_clear (p + PORT_CMD) CMD_ST m;
  m ← port_wait_clear p CMD_CR m;
  '(s, page) ← alloc (m_vm m);
  s ← Vmm.map page page KERNEL_RW s;
  let m := with_ahci (port_page page (m_ahci m)) (with_vm s m) in
  m ← kstore page (replicate 4096 0) m;
  m ← reg_write (p + PORT_CLBL) (Z.land (cmd_list_phys (m_ahci m)) 0xFFFFFFFF) m;
  m ← reg_write (p + PORT_CLBH) 0 m;
  m ← reg_write (p + PORT_FBL) (Z.land (fis_phys (m_ahci m)) 0xFFFFFFFF) m;
  m ← reg_write (p + PORT_FBH) 0 m;
  m ← reg_write (p + PORT_IS) ALL_ONES m;
  m ← reg_write (p + PORT_SERR) ALL_ONES m;
  m ← reg_set (p + PORT_CMD) CMD_FRE m;
  let m := wait_ms 1 m in
  m ← reg_set (p + PORT_CMD) CMD_ST m;
  let m := wait_ms 1 m in
  '(m, sig) ← reg_read (p + PORT_SIG) m;
  Ok (m, (Z.shiftr sig 16 =? 0xEB14) || (Z.shiftr sig 16 =? 0x9669)).

Definition send_identify m : Res Mach :=
  m ← setup_cmd_header 5 1 m;
  m ← setup_cfis_and_prdt ATA_IDENTIFY 0 0 (identify_phys (m_ahci m)) 512 m;
  '(m, _) ← issue_and_wait m;
  Ok m.

(** The first implemented port, [for (u8 i = 0; i < 32; ++i)]. *)
Fixpoint first_port (n : nat) (i ports_impl : Z) m : Res Mach :=
  match n with
  | O => Ok m
  | S n =>
      if negb (Z.land ports_impl (Z.shiftl 1 i) =? 0) then
        '(m, ok) ← init_port i m;
        if ok : bool then send_identify m else Ok m
      else first_port n (i + 1) ports_impl m
  end.

(** The callback of [init]. *)
Definition is_ahci (d : Device) : bool := (class_code d =? 0x01) && (subclass d =? 0x06) && (prog_if d =? 0x01).

Definition init_controller (d : Device) m : Res (Mach * bool) :=
  if is_ahci d then
    let '(m, abar) := get_bar (bus d) (device d) (function d) 5 m in
    s ← Vmm.map abar abar MMIO_FLAGS (m_vm m);
    let m := with_ahci (with_hba abar (m_ahci m)) (with_vm s m) in
    m ← reg_set (abar + HBA_GHC) GHC_AE m;
    let m := wait_ms 10 m in
    m ← reg_set (abar + HBA_GHC) GHC_HR m;
    let m := wait_ms 100 m in
    m ← reg_clear (abar + HBA_GHC) GHC_HR m;
    let m := wait_ms 10 m in
    m ← reg_set (abar + HBA_GHC) GHC_AE m;
    '(m, ports_impl) ← reg_read (abar + HBA_PI) m;
    m ← first_port 32 0 ports_impl m;
    Ok (m, true)
  else Ok (m, false).

Definition ahci_init m : Res (Mach * bool) := enumerate init_controller m.

(** ** Reading *)

Definition MAX_SECTORS : Z := 8.

(** [while (count > 0)]: [acc] is what has been written to the buffer.  The answer comes with
    what the buffer holds in the end. *)
Fixpoint read_chunks (fuel : nat) (lba count : Z) (acc : list Z) m : Res (Mach * (bool * list Z)) :=
  match fuel with
  | O => NoFuel
  | S fuel =>
      if negb (0 <? count) then Ok (m, (true, acc)) else
      let n := if MAX_SECTORS <? count then MAX_SECTORS else count in
      let bytes := n * 512 in
      '(s, bounce) ← alloc (m_vm m);
      m ← setup_cmd_header 5 1 (with_vm s m);
      m ← setup_cfis_and_prdt ATA_READ_DMA_EX lba n bounce bytes m;
      '(m, ok) ← issue_and_wait m;
      src ← (if ok then user_load (Z.to_nat bytes) bounce (m_vm m) else Ok []);
      let m := with_vm (free bounce (m_vm m)) m in
      if negb ok then Ok (m, (false, acc)) else
      read_chunks fuel (u64 (lba + n)) (count - n) (acc ++ src) m
  end.

Definition read_sectors (lba count : Z) m : Res (Mach * (bool * list Z)) :=
  let a := m_ahci m in
  if (sata_port a =? 0) || (cmd_table_virt a =? 0) || (count =? 0) then Ok (m, (false, [])) else
  read_chunks (S (Z.to_nat count)) lba count [] m.

End ahci.

Arguments Mach A D : clear implicits.
