(* ===== verification/AhciSpec.v ===== *)
(** * Reading a disk

    What an AHCI port is documented to do with the command it is given, as a class, and
    what the driver makes of it: [read_sectors] delivers exactly the sectors asked for,
    through bounce buffers that it gives back, and disturbs nothing else.  The driver
    reaches its command page, the bounce buffers and the registers through identity
    addresses, so this holds in address spaces that map them so. *)

From S2P Require Import Prelude Mem Frames Pmm Vmm PageTable UserPages ElfSpec UserMem Hardware Pci Ahci.

(** Allocators that take the same frames for free run out together. *)
Lemma fewer_used {A : Type} `{FrameAllocLaws A} n (a a' : A) :
  (∀ f, 0 ≤ f < NUM_FRAMES → fa_used a' f = fa_used a f) → fewer n a' → fewer n a.
Proof. intros Hu (l & Hl & Hf). exists l. split; [done|]. intros f Hr Hff. apply Hf; [done|]. by rewrite Hu. Qed.

(** ** Memory through identity addresses *)

Section ident.
Context {A : Type} `{FrameAllocLaws A}.
Context (Q : Z → Prop) (HQ : ∀ va, 0 ≤ va < 2 ^ 47 → Q (pml4_idx va)).
Implicit Type s : Vmm A.

(** Frame [f] is data that the loaded tables map to itself. *)
Record ident s (f : Z) : Prop := {
  id_frame : 0 < f < NUM_FRAMES;
  id_data : data_frame Q (get_pml4 s) s f;
  id_walk x : frame_of x = f → virt_to_phys x s = x;
}.

(** Only the frames in [fs] changed. *)
Record touched (fs : Z → Prop) s s' : Prop := {
  tc_tree : tree_ok Q (get_pml4 s) s';
  tc_regs : cr3 s' = cr3 s ∧ fa s' = fa s;
  tc_data f : data_frame Q (get_pml4 s) s f → data_frame Q (get_pml4 s) s' f;
  tc_walk va : 0 ≤ va < 2 ^ 47 → virt_to_phys va s' = virt_to_phys va s;
  tc_mem x : ¬ fs (frame_of x) → pm s' x = pm s x;
}.

Lemma touched_pml4 fs s s' : touched fs s s' → get_pml4 s' = get_pml4 s.
Proof using Type. intros T. unfold get_pml4. by rewrite (proj1 (tc_regs _ _ _ T)). Qed.

Lemma touched_refl fs s : tree_ok Q (get_pml4 s) s → touched fs s s.
Proof using Type. by split. Qed.

Lemma touched_trans fs s1 s2 s3 : touched fs s1 s2 → touched fs s2 s3 → touched fs s1 s3.
Proof using Type.
  intros T1 T2. pose proof (touched_pml4 _ _ _ T1) as E. destruct T1 as [Y1 [C1 F1] D1 W1 M1], T2 as [Y2 [C2 F2] D2 W2 M2].
  rewrite E in *. split; [done|split; congruence|by auto|intros; by rewrite W2, W1|intros; by rewrite M2, M1].
Qed.

Lemma touched_mono (fs gs : Z → Prop) s s' : (∀ f, fs f → gs f) → touched fs s s' → touched gs s s'.
Proof using Type. intros Hm [T R D W M]. split; [done..|]. intros x Hx. apply M. auto. Qed.

Lemma touch fs s m f :
  tree_ok Q (get_pml4 s) s → fs f → data_frame Q (get_pml4 s) s f → (∀ x, frame_of x ≠ f → m x = pm s x) → touched fs s (with_pm m s).
Proof using HQ H0.
  intros Ht Hf Hd Hm. destruct (write_extends Q (get_pml4 s) s m f Ht Hd Hm) as (T & D & W). split; [done|done|done| |].
  - intros va Hva. apply (W va), HQ, Hva.
  - intros x Hx. apply Hm. intros E. apply Hx. by rewrite E.
Qed.

Lemma frame_small x : 0 < frame_of x < NUM_FRAMES → 0 < x < 2 ^ 47.
Proof using Type. clear. unfold frame_of, NUM_FRAMES, PAGE_SIZE. intros Hx. Z.div_mod_to_equations. lia. Qed.

Lemma touched_ident fs s s' f : touched fs s s' → ident s f → ident s' f.
Proof using Type.
  intros T [Hf Hd Hw]. split; [done|rewrite (touched_pml4 _ _ _ T); by apply T|]. intros x Hx.
  rewrite (tc_walk _ _ _ T); [by apply Hw|]. pose proof (frame_small x ltac:(rewrite Hx; done)). lia.
Qed.

Lemma in_frame va n f x : f * PAGE_SIZE ≤ va → va + n ≤ f * PAGE_SIZE + PAGE_SIZE → va ≤ x < va + n → frame_of x = f.
Proof using Type. clear. unfold frame_of, PAGE_SIZE. intros. symmetry. apply (Z.div_unique _ _ _ (x - f * 4096)); lia. Qed.

(** A store into such a frame writes the bytes at the address itself. *)
Lemma store_ident va bs s f :
  tree_ok Q (get_pml4 s) s → ident s f → f * PAGE_SIZE ≤ va → va + zlen bs ≤ f * PAGE_SIZE + PAGE_SIZE →
  ∃ s', user_store va bs s = Ok s' ∧ touched (λ g, g = f) s s' ∧ ∀ x, pm s' x = store_bytes (pm s) va bs x.
Proof using HQ H0.
  intros Ht Hi. revert va s Ht Hi. induction bs as [|b bs IH]; intros va s Ht Hi Hlo Hhi; cbn [user_store].
  { exists s. split; [done|]. split; [by apply touched_refl|]. intros x. rewrite store_bytes_outside; [done|]. change (zlen []) with 0. lia. }
  assert (zlen (b :: bs) = 1 + zlen bs ∧ 0 ≤ zlen bs) as [Hl Hl0] by (unfold zlen; simpl; lia). rewrite Hl in Hhi.
  assert (frame_of va = f) as Hva by (apply (in_frame va 1); lia). pose proof (frame_small va) as Hsm. rewrite Hva in Hsm. specialize (Hsm (id_frame _ _ Hi)).
  rewrite (id_walk _ _ Hi va Hva), (proj2 (Z.eqb_neq va 0)) by lia. rewrite u64_small by (unfold is_u64; lia).
  set (s1 := with_pm (store_bytes (pm s) va [b]) s).
  assert (touched (λ g, g = f) s s1) as T1.
  { apply (touch _ s _ f); [done|done|apply Hi|]. intros x Hx. apply store_bytes_outside. change (zlen [b]) with 1. destruct (decide (x = va)) as [->|]; [done|lia]. }
  destruct (IH (va + 1) s1) as (s' & E & T2 & M); [rewrite (touched_pml4 _ _ _ T1); apply T1|by eapply touched_ident|lia|lia|].
  exists s'. split; [exact E|]. split; [by eapply touched_trans|]. intros x. rewrite M. unfold s1. cbn [pm with_pm].
  destruct (decide (x = va)) as [->|Hne].
  - rewrite store_bytes_outside by lia. rewrite <-(Z.add_0_r va) at 2 4. rewrite (store_bytes_inside _ va [b] 0 b) by done. by rewrite (store_bytes_inside _ va (b :: bs) 0 b).
  - unfold store_bytes at 1 3. unfold zget. destruct (Z.ltb_spec (x - va) 0).
    + rewrite (proj2 (Z.ltb_lt _ _)) by lia. rewrite store_bytes_outside; [done|]. lia.
    + rewrite (proj2 (Z.ltb_ge _ _)) by lia. replace (Z.to_nat (x - va)) with (S (Z.to_nat (x - (va + 1)))) by lia. cbn [lookup list_lookup].
      rewrite store_bytes_outside; [done|]. change (zlen [b]) with 1. lia.
Qed.

(** A load gives what lies there. *)
Lemma load_ident va bs s f :
  ident s f → f * PAGE_SIZE ≤ va → va + zlen bs ≤ f * PAGE_SIZE + PAGE_SIZE → bytes_at (pm s) va bs →
  user_load (length bs) va s = Ok bs.
Proof using Type.
  intros Hi. revert va. induction bs as [|b bs IH]; intros va Hlo Hhi Hb; [done|]. cbn [length user_load].
  assert (zlen (b :: bs) = 1 + zlen bs ∧ 0 ≤ zlen bs) as [Hl Hl0] by (unfold zlen; simpl; lia). rewrite Hl in Hhi.
  assert (frame_of va = f) as Hva by (apply (in_frame va 1); lia). pose proof (frame_small va) as Hsm. rewrite Hva in Hsm. specialize (Hsm (id_frame _ _ Hi)).
  unfold user_byte. rewrite (id_walk _ _ Hi va Hva), (proj2 (Z.eqb_neq va 0)) by lia. res_step. rewrite u64_small by (unfold is_u64; lia).
  rewrite IH; [res_step|lia|lia|].
  - do 2 f_equal. specialize (Hb 0 b eq_refl). by rewrite Z.add_0_r in Hb.
  - intros i c Hi'. apply zget_bounds in Hi' as Hib. rewrite <-(Hb (1 + i) c); [f_equal; lia|]. unfold zget in *. rewrite (proj2 (Z.ltb_ge _ _)) by lia.
    rewrite (proj2 (Z.ltb_ge _ _)) in Hi' by lia. replace (Z.to_nat (1 + i)) with (S (Z.to_nat i)) by lia. done.
Qed.

End ident.

(** ** The command in memory *)

(** What the controller fetches from slot 0 of the command list at [clb]: a host-to-device
    FIS of five words with a READ DMA EXT of [n] sectors from [lba] on, and one region of
    memory, at [dba]. *)
Record fetches (m : mem) (clb lba n dba : Z) : Prop := {
  ft_opts : load 2 m clb = 5;
  ft_prdtl : load 2 m (clb + 2) = 1;
  ft_table_high : load 4 m (clb + 12) = 0;
  ft_table_aligned : load 4 m (clb + 8) `mod` 128 = 0;
  ft_fis : let t := load 4 m (clb + 8) in
    m t = 0x27 ∧ m (t + 1) = 0x80 ∧ m (t + 2) = ATA_READ_DMA_EX ∧ Z.testbit (m (t + 7)) 6 = true;
  ft_lba : let t := load 4 m (clb + 8) in
    m (t + 4) + 2 ^ 8 * m (t + 5) + 2 ^ 16 * m (t + 6) + 2 ^ 24 * m (t + 8) + 2 ^ 32 * m (t + 9) + 2 ^ 40 * m (t + 10) = lba;
  ft_count : let t := load 4 m (clb + 8) in m (t + 12) + 2 ^ 8 * m (t + 13) = n;
  ft_region : let t := load 4 m (clb + 8) in
    load 4 m (t + 0x80) = dba ∧ load 4 m (t + 0x84) = 0 ∧ load 4 m (t + 0x8C) = 512 * n - 1;
}.

Lemma digits48 x : 0 ≤ x < 2 ^ 48 →
  Z.land x 0xFF + 2 ^ 8 * Z.land (Z.shiftr x 8) 0xFF + 2 ^ 16 * Z.land (Z.shiftr x 16) 0xFF + 2 ^ 24 * Z.land (Z.shiftr x 24) 0xFF +
  2 ^ 32 * Z.land (Z.shiftr x 32) 0xFF + 2 ^ 40 * Z.land (Z.shiftr x 40) 0xFF = x.
Proof.
  intros Hx. change 0xFF with 255. rewrite !land_255, !Z.shiftr_div_pow2 by lia.
  replace (x / 2 ^ 16) with (x / 2 ^ 8 / 2 ^ 8) by (rewrite Z.div_div by lia; done).
  replace (x / 2 ^ 24) with (x / 2 ^ 8 / 2 ^ 8 / 2 ^ 8) by (rewrite !Z.div_div by lia; done).
  replace (x / 2 ^ 32) with (x / 2 ^ 8 / 2 ^ 8 / 2 ^ 8 / 2 ^ 8) by (rewrite !Z.div_div by lia; done).
  replace (x / 2 ^ 40) with (x / 2 ^ 8 / 2 ^ 8 / 2 ^ 8 / 2 ^ 8 / 2 ^ 8) by (rewrite !Z.div_div by lia; done).
  change (2 ^ 8) with 256. Z.div_mod_to_equations. lia.
Qed.

(** From the bytes the driver writes to what the controller reads. *)
Lemma fetches_intro m page lba n dba :
  0 ≤ page → page + 0x1000 ≤ 2 ^ 32 → page `mod` 4096 = 0 → 0 ≤ lba < 2 ^ 48 → 0 < n ≤ MAX_SECTORS → 0 ≤ dba < 2 ^ 32 →
  bytes_at m page (le_bytes 2 5) → bytes_at m (page + 2) (le_bytes 2 1) →
  bytes_at m (page + 8) (le_bytes 4 (page + 0x500)) → bytes_at m (page + 12) (le_bytes 4 0) →
  bytes_at m (page + 0x500) (cfis_bytes ATA_READ_DMA_EX lba n) →
  bytes_at m (page + 0x500 + 0x80) (le_bytes 4 dba) → bytes_at m (page + 0x500 + 0x80 + 4) (le_bytes 4 0) →
  bytes_at m (page + 0x500 + 0x80 + 12) (le_bytes 4 (n * 512 - 1)) →
  fetches m page lba n dba.
Proof.
  intros Hp Hp2 Hal Hl Hn Hd H1 H2 H3 H4 H5 H6 H7 H8. unfold MAX_SECTORS in Hn.
  assert (load 4 m (page + 8) = page + 0x500) as Et by (apply load_bytes_at; [lia|done]).
  assert (∀ i b, zget (cfis_bytes ATA_READ_DMA_EX lba n) i = Some b → m (page + 0x500 + i) = b) as Hf by exact H5.
  assert (m (page + 0x500) = 0x27) as E0 by (rewrite <-(Z.add_0_r (page + 0x500)); by apply Hf).
  split; rewrite ?Et; cbn zeta.
  - by apply load_bytes_at.
  - by apply load_bytes_at.
  - by apply load_bytes_at.
  - Z.div_mod_to_equations. lia.
  - split_and!; [done|by apply Hf|by apply Hf|]. by rewrite (Hf 7 0x40).
  - rewrite <-(digits48 lba) by done. rewrite (Hf 4 (Z.land lba 0xFF)), (Hf 5 (Z.land (Z.shiftr lba 8) 0xFF)), (Hf 6 (Z.land (Z.shiftr lba 16) 0xFF)),
      (Hf 8 (Z.land (Z.shiftr lba 24) 0xFF)), (Hf 9 (Z.land (Z.shiftr lba 32) 0xFF)), (Hf 10 (Z.land (Z.shiftr lba 40) 0xFF)) by done. by rewrite digits48.
  - rewrite (Hf 12 (Z.land n 0xFF)), (Hf 13 (Z.land (Z.shiftr n 8) 0xFF)) by done. change 0xFF with 255. rewrite !land_255, Z.shiftr_div_pow2 by lia.
    change (2 ^ 8) with 256. Z.div_mod_to_equations. lia.
  - split_and!; [apply load_bytes_at; [lia|done]| |].
    + replace (page + 0x500 + 0x84) with (page + 0x500 + 0x80 + 4) by lia. by apply load_bytes_at.
    + replace (page + 0x500 + 0x8C) with (page + 0x500 + 0x80 + 12) by lia. rewrite (load_bytes_at 4 _ _ (n * 512 - 1)); [lia| |done]. change (2 ^ (8 * Z.of_nat 4)) with (2 ^ 32). lia.
Qed.

(** ** The controller *)

Definition sectors (sector : Z → list Z) (lba n : Z) : list Z := concat (sector <$> seqZ lba n).

(** The devices run for [k] turns of a waiting loop. *)
Definition devices_run {D} `{Dma D} (k : nat) (d : D) (m : mem) : D * mem := Nat.iter k (λ '(d, m), dma d m) (d, m).

(** A started port with its command list at [clb] and its received-FIS area at [fb], and no
    command issued, by its registers. *)
Definition running (r : Z → Z) (clb fb : Z) : Prop :=
  r PORT_CLBL = clb ∧ r PORT_CLBH = 0 ∧ r PORT_FBL = fb ∧ r PORT_FBH = 0 ∧
  Z.testbit (r PORT_CMD) 0 = true ∧ Z.testbit (r PORT_CMD) 4 = true ∧ Z.testbit (r PORT_CI) 0 = false.

(** Where a command makes the controller write. *)
Definition dma_areas (clb fb n dba x : Z) : Prop :=
  dba ≤ x < dba + 512 * n ∨ clb + 4 ≤ x < clb + 8 ∨ fb ≤ x < fb + 256.

(** The port whose registers are at [p] and the disk on it, as the AHCI specification
    documents them: registers keep what is written, writing ones to the interrupt status
    clears it, and a started port that is given a command it can fetch carries it out
    within the time the driver waits, writing the sectors to the region asked for, the
    byte count into the command header, and a response into the received-FIS area; until it
    is done it has written nowhere else. *)
Class AhciPort (D : Type) `{Hardware D, Dma D} (p : Z) (sector : Z → list Z) := {
  preg : D → Z → Z;
  ap_sector lba : zlen (sector lba) = 512;
  ap_read o d : 0 ≤ o < 0x80 → mmio_read 4 (p + o) d = (d, preg d o);
  ap_ack d o : o ≠ PORT_IS → preg (mmio_write 4 (p + PORT_IS) ALL_ONES d) o = preg d o;
  ap_ack_clears d : preg (mmio_write 4 (p + PORT_IS) ALL_ONES d) PORT_IS = 0;
  ap_issue d m clb fb lba n dba :
    running (preg d) clb fb → preg d PORT_IS = 0 → fetches m clb lba n dba → 0 < n →
    ∃ k fis, let run j := devices_run j (mmio_write 4 (p + PORT_CI) 1 d) m in
      Z.of_nat k < TIMEOUT ∧ zlen fis ≤ 256 ∧
      (∀ j, (j < k)%nat → Z.testbit (preg (run j).1 PORT_CI) 0 = true ∧ ∀ x, ¬ dma_areas clb fb n dba x → (run j).2 x = m x) ∧
      running (preg (run k).1) clb fb ∧ Z.testbit (preg (run k).1 PORT_IS) 30 = false ∧
      ∀ x, (run k).2 x = store_bytes (store_bytes (store_bytes m dba (sectors sector lba n)) (clb + 4) (le_bytes 4 (512 * n))) fb fis x;
}.

Lemma sectors_app sector lba n k : 0 ≤ n → 0 ≤ k → sectors sector lba (n + k) = sectors sector lba n ++ sectors sector (lba + n) k.
Proof. intros Hn Hk. unfold sectors. by rewrite seqZ_app, fmap_app, concat_app by done. Qed.

Section driver.
Context {A D : Type} `{FrameAllocLaws A, Hardware D, Dma D}.
Context (Q : Z → Prop) (HQ : ∀ va, 0 ≤ va < 2 ^ 47 → Q (pml4_idx va)).
Implicit Types (s : Vmm A) (m : Mach A D).

(** A step of the driver that writes to frame [f]: the devices and the driver's variables
    stay as they are. *)
Record writes (f : Z) m m' : Prop := {
  wr_mem : touched Q (λ g, g = f) (m_vm m) (m_vm m');
  wr_dev : m_dev m' = m_dev m;
  wr_ahci : m_ahci m' = m_ahci m;
}.

Lemma kstore_spec va bs m f :
  tree_ok Q (get_pml4 (m_vm m)) (m_vm m) → ident Q (m_vm m) f → f * PAGE_SIZE ≤ va → va + zlen bs ≤ f * PAGE_SIZE + PAGE_SIZE →
  ∃ m', kstore va bs m = Ok m' ∧ writes f m m' ∧ bytes_at (pm (m_vm m')) va bs ∧
    ∀ a l, bytes_at (pm (m_vm m)) a l → a + zlen l ≤ va ∨ va + zlen bs ≤ a → bytes_at (pm (m_vm m')) a l.
Proof using HQ H0.
  intros Ht Hi Hlo Hhi. unfold kstore. destruct (store_ident Q HQ va bs (m_vm m) f Ht Hi Hlo Hhi) as (s' & -> & T & M). res_step.
  eexists. split; [done|]. split; [by split|]. cbn [m_vm with_vm]. split.
  - eapply bytes_at_ext; [exact M|]. apply bytes_at_store.
  - intros a l Hb Ho. eapply bytes_at_ext; [exact M|]. by apply bytes_at_outside.
Qed.

Lemma frame_writes_trans f m1 m2 m3 : writes f m1 m2 → writes f m2 m3 → writes f m1 m3.
Proof using Type. intros [T1 E1 F1] [T2 E2 F2]. split; [by eapply touched_trans|congruence..]. Qed.

(** The state in which further stores to [f] are fine. *)
Definition open_frame (f : Z) m : Prop := tree_ok Q (get_pml4 (m_vm m)) (m_vm m) ∧ ident Q (m_vm m) f.

Lemma writes_open f g m m' : writes f m m' → open_frame g m → open_frame g m'.
Proof using Type.
  intros [T _ _] [_ Hi]. split; [rewrite (touched_pml4 _ _ _ _ T); apply T|by eapply touched_ident].
Qed.

(** The driver's pointers into its command page, frame [F]. *)
Record paged (F : Z) (a : Ahci) : Prop := {
  pg_list : cmd_list_virt a = F * PAGE_SIZE ∧ cmd_list_phys a = F * PAGE_SIZE;
  pg_table : cmd_table_virt a = F * PAGE_SIZE + 0x500 ∧ cmd_table_phys a = F * PAGE_SIZE + 0x500;
  pg_fis : fis_phys a = F * PAGE_SIZE + 0x400;
}.

(** ** Several stores into one frame *)

Fixpoint kstores (ws : list (Z * list Z)) m : Res (Mach A D) :=
  match ws with
  | [] => Ok m
  | (va, bs) :: ws => m ← kstore va bs m; kstores ws m
  end.

Definition within (F : Z) (w : Z * list Z) : Prop := F * PAGE_SIZE ≤ w.1 ∧ w.1 + zlen w.2 ≤ F * PAGE_SIZE + PAGE_SIZE.
Definition apart_from (w v : Z * list Z) : Prop := w.1 + zlen w.2 ≤ v.1 ∨ v.1 + zlen v.2 ≤ w.1.

(** Each of the stores is still there if none after it overlaps it. *)
Fixpoint lasting (ws : list (Z * list Z)) (m : mem) : Prop :=
  match ws with
  | [] => True
  | w :: ws => (Forall (apart_from w) ws → bytes_at m w.1 w.2) ∧ lasting ws m
  end.

Lemma kstores_spec F ws m :
  open_frame F m → Forall (within F) ws →
  ∃ m', kstores ws m = Ok m' ∧ writes F m m' ∧ lasting ws (pm (m_vm m')) ∧
    ∀ a l, bytes_at (pm (m_vm m)) a l → Forall (apart_from (a, l)) ws → bytes_at (pm (m_vm m')) a l.
Proof using HQ H0.
  intros Ho Hws. revert m Ho. induction Hws as [|[va bs] ws [Hlo Hhi] Hws IH]; intros m Ho; cbn [kstores].
  { exists m. split_and!; [done|split; [apply touched_refl, Ho|done..]|done|done]. }
  cbn [fst snd] in *. destruct (kstore_spec va bs m F (proj1 Ho) (proj2 Ho) Hlo Hhi) as (m1 & -> & W1 & B1 & K1). res_step.
  destruct (IH m1) as (m' & E & W2 & B2 & K2); [by eapply writes_open|]. exists m'. split; [exact E|]. split; [by eapply frame_writes_trans|]. split.
  - split; [|done]. intros Hap. by apply K2.
  - intros a l Hb [Ha Hr]%Forall_cons. apply K2; [|done]. by apply K1.
Qed.

Lemma le_zlen n v : zlen (le_bytes n v) = Z.of_nat n.
Proof using Type. clear. unfold zlen. by rewrite le_bytes_length. Qed.

(** Sizes and distances of the stores of a command. *)
Ltac layout := unfold within, apart_from, PAGE_SIZE in *; cbn [fst snd] in *; rewrite ?le_zlen; change (zlen (replicate 64 0)) with 64;
  repeat match goal with |- context [zlen (cfis_bytes ?c ?l ?n)] => change (zlen (cfis_bytes c l n)) with 14 end; lia.

Lemma kstores_cons va bs ws m : kstores ((va, bs) :: ws) m = kstore va bs m ≫= kstores ws.
Proof using Type. done. Qed.

Lemma kstores_last va bs m : kstores [(va, bs)] m = kstore va bs m.
Proof using Type. rewrite kstores_cons. by destruct (kstore va bs m). Qed.

(** A sequence of stores, one after the other. *)
Ltac kstores_solve := repeat (first [rewrite kstores_last; reflexivity | rewrite kstores_cons; apply bind_ext; intros ?]).

Definition header_stores (pg ct : Z) : list (Z * list Z) :=
  [(pg, le_bytes 2 5); (pg + 2, le_bytes 2 1); (pg + 4, le_bytes 4 0); (pg + 8, le_bytes 4 ct); (pg + 12, le_bytes 4 0)].

Definition table_stores (ct lba n dba : Z) : list (Z * list Z) :=
  [(ct, replicate 64 0); (ct, cfis_bytes ATA_READ_DMA_EX lba n); (ct + 0x80, le_bytes 4 dba);
   (ct + 0x80 + 4, le_bytes 4 0); (ct + 0x80 + 8, le_bytes 4 0); (ct + 0x80 + 12, le_bytes 4 (n * 512 - 1))].

Lemma low_word x : 0 ≤ x < 2 ^ 32 → Z.land x 0xFFFFFFFF = x.
Proof using Type. clear. intros Hx. change 0xFFFFFFFF with (Z.ones 32). rewrite land_ones_mod by lia. by apply Z.mod_small. Qed.

Lemma header_puts m pg ct :
  cmd_list_virt (m_ahci m) = pg → cmd_table_phys (m_ahci m) = ct → 0 ≤ ct < 2 ^ 32 → setup_cmd_header 5 1 m = kstores (header_stores pg ct) m.
Proof using Type.
  intros <- <- Hc. unfold setup_cmd_header, header_stores. rewrite low_word by done. kstores_solve.
Qed.

Lemma table_puts m ct lba n dba :
  cmd_table_virt (m_ahci m) = ct → 0 ≤ dba < 2 ^ 32 → 0 < n ≤ MAX_SECTORS →
  setup_cfis_and_prdt ATA_READ_DMA_EX lba n dba (n * 512) m = kstores (table_stores ct lba n dba) m.
Proof using Type.
  intros <- Hd Hn. unfold setup_cfis_and_prdt, table_stores, CT_PRDT. rewrite low_word, u32_small by (unfold MAX_SECTORS, is_u32 in *; lia). kstores_solve.
Qed.

Lemma build_command F lba n dba m :
  open_frame F m → paged F (m_ahci m) → 0 ≤ lba < 2 ^ 48 → 0 < n ≤ MAX_SECTORS → 0 ≤ dba < 2 ^ 32 →
  ∃ m', (m ← setup_cmd_header 5 1 m; setup_cfis_and_prdt ATA_READ_DMA_EX lba n dba (n * 512) m) = Ok m' ∧
    writes F m m' ∧ fetches (pm (m_vm m')) (F * PAGE_SIZE) lba n dba.
Proof using HQ H0.
  intros Ho [[L1 L2] [T1 T2] _] Hl Hn Hd. pose proof (id_frame _ _ _ (proj2 Ho)) as HF. unfold NUM_FRAMES in HF.
  assert (0 ≤ F * PAGE_SIZE ∧ F * PAGE_SIZE + 0x1000 ≤ 2 ^ 32 ∧ (F * PAGE_SIZE) `mod` 4096 = 0) as (P0 & P1 & P2).
  { split_and!; [unfold PAGE_SIZE; lia..|]. unfold PAGE_SIZE. apply Z.mod_mul. lia. }
  rewrite (header_puts m (F * PAGE_SIZE) (F * PAGE_SIZE + 0x500)) by (done || lia).
  destruct (kstores_spec F (header_stores (F * PAGE_SIZE) (F * PAGE_SIZE + 0x500)) m Ho) as (m1 & -> & W1 & B1 & _).
  { repeat constructor; layout. }
  res_step. rewrite (table_puts m1 (F * PAGE_SIZE + 0x500)); [|by rewrite (wr_ahci _ _ _ W1)|done..].
  destruct (kstores_spec F (table_stores (F * PAGE_SIZE + 0x500) lba n dba) m1 (writes_open _ _ _ _ W1 Ho)) as (m2 & -> & W2 & B2 & K2).
  { repeat constructor; layout. }
  exists m2. split; [done|]. split; [by eapply frame_writes_trans|].
  set (pg := F * PAGE_SIZE) in *. clearbody pg. unfold header_stores, table_stores in *.
  cbn [lasting fst snd] in B1, B2. destruct B1 as (H1' & H2' & _ & H3' & H4' & _), B2 as (_ & H5' & H6' & H7' & _ & H8' & _).
  apply fetches_intro; [done..| | | | | | | |].
  - apply K2; [apply H1'|]; repeat constructor; layout.
  - apply K2; [apply H2'|]; repeat constructor; layout.
  - apply K2; [apply H3'|]; repeat constructor; layout.
  - apply K2; [apply H4'|]; repeat constructor; layout.
  - apply H5'; repeat constructor; layout.
  - apply H6'; repeat constructor; layout.
  - apply H7'; repeat constructor; layout.
  - apply H8'; repeat constructor; layout.
Qed.

(** ** Issuing it *)

Context (p : Z) (sector : Z → list Z) `{!AhciPort D p sector} (Hp0 : 0 < p) (Hp47 : p + 0x80 ≤ 2 ^ 47).

(** The registers of the port are mapped to themselves. *)
Definition seen s : Prop := ∀ o, 0 ≤ o < 0x80 → virt_to_phys (p + o) s = p + o.

Lemma touched_seen fs s s' : touched Q fs s s' → seen s → seen s'.
Proof using Hp0 Hp47. intros T Hs o Ho. rewrite (tc_walk _ _ _ _ T) by lia. by apply Hs. Qed.

Lemma reg_read_port o m : seen (m_vm m) → 0 ≤ o < 0x80 → reg_read (p + o) m = Ok (m, preg (m_dev m) o).
Proof using Hp0.
  intros Hs Ho. unfold reg_read. cbv zeta. rewrite !Hs, (proj2 (Z.eqb_neq _ 0)) by lia.
  cbn [mmio_read mach_hardware]. rewrite ap_read by done. by destruct m.
Qed.

Lemma reg_write_port o v m : seen (m_vm m) → 0 ≤ o < 0x80 → reg_write (p + o) v m = Ok (with_dev (mmio_write 4 (p + o) v (m_dev m)) m).
Proof using Hp0. intros Hs Ho. unfold reg_write. cbv zeta. by rewrite !Hs, (proj2 (Z.eqb_neq _ 0)) by lia. Qed.

Lemma sectors_length lba n : 0 ≤ n → zlen (sectors sector lba n) = 512 * n.
Proof using AhciPort0.
  intros Hn. unfold sectors. revert lba. pattern n. apply natlike_ind; [done| |done]. clear n Hn. intros n Hn IH lba.
  rewrite seqZ_cons by lia. rewrite fmap_cons. cbn [concat]. rewrite zlen_app, Z.pred_succ, IH, ap_sector. lia.
Qed.

Lemma iter_pause j m :
  Nat.iter j pause m = let r := devices_run j (m_dev m) (pm (m_vm m)) in with_dev r.1 (with_vm (with_pm r.2 (m_vm m)) m).
Proof using Type.
  unfold devices_run. induction j as [|j IH]; [by destruct m as [[] ? ?]|].
  change (Nat.iter (S j) pause m) with (pause (Nat.iter j pause m)). rewrite IH. cbn zeta.
  set (f := λ '(d, m), dma d m). change (Nat.iter (S j) f ?x) with (f (Nat.iter j f x)).
  destruct (Nat.iter j f _) as [d mem]. unfold pause. cbn. by destruct (dma d mem).
Qed.

Lemma iter_comm {X} (f : X → X) k x : Nat.iter k f (f x) = f (Nat.iter k f x).
Proof using Type. clear. induction k as [|k IH]; [done|]. change (f (Nat.iter k f (f x)) = f (f (Nat.iter k f x))). by rewrite IH. Qed.

Lemma bit0_test x : (Z.land x 1 =? 0) = negb (Z.testbit x 0).
Proof using Type.
  clear. change 1 with (Z.ones 1). rewrite land_ones_mod by lia. change (2 ^ 1) with 2. rewrite Z.bit0_odd, Zmod_odd. by destruct (Z.odd x).
Qed.

Lemma wait_ci_spec k n m :
  sata_port (m_ahci m) = p → (k ≤ n)%nat → (∀ j, (j ≤ k)%nat → seen (m_vm (Nat.iter j pause m))) →
  (∀ j, (j < k)%nat → Z.testbit (preg (m_dev (Nat.iter j pause m)) PORT_CI) 0 = true) →
  Z.testbit (preg (m_dev (Nat.iter k pause m)) PORT_CI) 0 = false →
  wait_ci n m = Ok (Nat.iter k pause m, Z.of_nat (n - k)).
Proof using Hp0.
  intros Hp. revert n m Hp. induction k as [|k IH]; intros n m Hp Hn Hseen Hset Hclear.
  - assert (reg_read (sata_port (m_ahci m) + PORT_CI) m = Ok (m, preg (m_dev m) PORT_CI)) as E.
    { rewrite Hp. by apply reg_read_port; [apply (Hseen 0%nat)|]. }
    cbn [Nat.iter nat_rect] in Hclear. destruct n as [|n]; cbn [wait_ci]; rewrite E; res_step; rewrite bit0_test, Hclear; cbn; [done|]. do 2 f_equal.
  - destruct n as [|n]; [lia|]. cbn [wait_ci]. rewrite Hp, reg_read_port by (done || (apply (Hseen 0%nat); lia)). res_step.
    pose proof (Hset 0%nat ltac:(lia)) as H0'. cbn [Nat.iter nat_rect] in H0'. rewrite bit0_test, H0'. cbn [negb].
    rewrite (IH n (pause m)).
    + rewrite iter_comm. done.
    + rewrite <-Hp. pose proof (iter_pause 1 m) as E1. cbn [Nat.iter nat_rect] in E1. by rewrite E1.
    + lia.
    + intros j Hj. rewrite iter_comm. apply (Hseen (S j)). lia.
    + intros j Hj. rewrite iter_comm. apply (Hset (S j)). lia.
    + rewrite iter_comm. exact Hclear.
Qed.

Lemma dma_done clb fb n dba bs c fis (m : mem) x :
  zlen bs = 512 * n → zlen c = 4 → zlen fis ≤ 256 → ¬ dma_areas clb fb n dba x →
  store_bytes (store_bytes (store_bytes m dba bs) (clb + 4) c) fb fis x = m x.
Proof using Type. clear. intros Hb Hc Hf Hx. unfold dma_areas in Hx. rewrite !store_bytes_outside by lia. done. Qed.

(** The first two writes, up to the wait. *)
Lemma issue_spec clb fb lba n dba m :
  sata_port (m_ahci m) = p → running (preg (m_dev m)) clb fb → fetches (pm (m_vm m)) clb lba n dba → 0 < n →
  (∀ mem', (∀ x, ¬ dma_areas clb fb n dba x → mem' x = pm (m_vm m) x) → seen (with_pm mem' (m_vm m))) →
  ∃ d' mem' fis, issue_and_wait m = Ok (with_dev d' (with_vm (with_pm mem' (m_vm m)) m), true) ∧ running (preg d') clb fb ∧ zlen fis ≤ 256 ∧
    ∀ x, mem' x = store_bytes (store_bytes (store_bytes (pm (m_vm m)) dba (sectors sector lba n)) (clb + 4) (le_bytes 4 (512 * n))) fb fis x.
Proof using Hp0.
  intros Hp Hrun Hf Hn Hseen. assert (seen (m_vm m)) as Hs by (specialize (Hseen (pm (m_vm m)) ltac:(done)); by destruct (m_vm m)).
  unfold issue_and_wait. rewrite Hp. set (d1 := mmio_write 4 (p + PORT_IS) ALL_ONES (m_dev m)).
  assert (running (preg d1) clb fb) as Hrun1.
  { destruct Hrun as (R1 & R2 & R3 & R4 & R5 & R6 & R7). unfold running, d1. by rewrite !ap_ack. }
  destruct (ap_issue d1 (pm (m_vm m)) clb fb lba n dba Hrun1 (ap_ack_clears _) Hf Hn) as (k & fis & Hk & Hfis & Hset & Hr & His & Hmem).
  rewrite reg_write_port by done. res_step. rewrite reg_write_port by done. res_step. cbn [m_dev with_dev]. fold d1. set (m1 := with_dev _ _).
  assert (∀ j, Nat.iter j pause m1 = let r := devices_run j (mmio_write 4 (p + PORT_CI) 1 d1) (pm (m_vm m)) in with_dev r.1 (with_vm (with_pm r.2 (m_vm m)) m)) as Hit.
  { intros j. by rewrite iter_pause. }
  assert (∀ j, (j ≤ k)%nat → seen (m_vm (Nat.iter j pause m1))) as Hseen'.
  { intros j Hj. rewrite Hit. cbn [m_vm with_dev with_vm]. apply Hseen. intros x Hx. destruct (decide (j = k)) as [->|]; [|apply Hset; [lia|done]].
    rewrite Hmem. apply (dma_done clb fb n dba); [by apply sectors_length; lia|by rewrite le_zlen|done..]. }
  rewrite (wait_ci_spec k (Z.to_nat TIMEOUT) m1); [|done|lia|done| |].
  - res_step. specialize (Hseen' k ltac:(lia)). rewrite Hit in Hseen' |- *. cbn zeta in *. destruct (devices_run k _ _) as [d' mem']. cbn [fst snd] in *.
    rewrite (proj2 (Z.ltb_lt 0 _)) by lia. rewrite reg_read_port by done. res_step. cbn [m_dev with_dev].
    assert ((Z.land (preg d' PORT_IS) (Z.shiftl 1 30) =? 0) = true) as -> by (by rewrite bit_test, His by lia).
    rewrite reg_write_port by done. res_step. exists (mmio_write 4 (p + PORT_IS) ALL_ONES d'), mem', fis. split; [done|]. split; [|by split].
    destruct Hr as (R1 & R2 & R3 & R4 & R5 & R6 & R7). unfold running. by rewrite !ap_ack.
  - intros j Hj. rewrite Hit. by apply Hset.
  - rewrite Hit. apply Hr.
Qed.

(** ** Reading *)

(** The port is set up with its command page in frame [F], and every frame that is free
    is mapped to itself. *)
Record ready (F : Z) m : Prop := {
  rd_port : sata_port (m_ahci m) = p;
  rd_paged : paged F (m_ahci m);
  rd_open : open_frame F m;
  rd_regs : seen (m_vm m);
  rd_zero : fa_used (fa (m_vm m)) 0 = true;
  rd_run : running (preg (m_dev m)) (F * PAGE_SIZE) (F * PAGE_SIZE + 0x400);
  rd_free x : 0 ≤ frame_of x < NUM_FRAMES → fa_used (fa (m_vm m)) (frame_of x) = false → virt_to_phys x (m_vm m) = x;
}.

(** Apart from the command page, nothing changed that was in use. *)
Record undisturbed (F : Z) m m' : Prop := {
  un_ahci : m_ahci m' = m_ahci m;
  un_cr3 : cr3 (m_vm m') = cr3 (m_vm m);
  un_used f : 0 ≤ f < NUM_FRAMES → fa_used (fa (m_vm m')) f = fa_used (fa (m_vm m)) f;
  un_walk va : 0 ≤ va < 2 ^ 47 → virt_to_phys va (m_vm m') = virt_to_phys va (m_vm m);
  un_mem x : fa_used (fa (m_vm m)) (frame_of x) = true → 0 ≤ frame_of x < NUM_FRAMES → frame_of x ≠ F → pm (m_vm m') x = pm (m_vm m) x;
}.

Lemma undisturbed_refl F m : undisturbed F m m.
Proof using Type. by split. Qed.

Lemma undisturbed_trans F m1 m2 m3 : undisturbed F m1 m2 → undisturbed F m2 m3 → undisturbed F m1 m3.
Proof using Type.
  intros [A1 C1 U1 W1 M1] [A2 C2 U2 W2 M2]. split; [congruence..| | |].
  - intros f Hf. by rewrite U2, U1.
  - intros va Hva. by rewrite W2, W1.
  - intros x Hu Hx HF. rewrite M2, M1; [done..| |done|done]. by rewrite U1.
Qed.

(** A fresh frame, as a bounce buffer. *)
Lemma bounce_spec F m :
  ready F m → ensures_frames 1 (fa (m_vm m)) (alloc (m_vm m)) (λ '(s, b), ∃ B, b = B * PAGE_SIZE ∧ B ≠ F ∧ fa_used (fa (m_vm m)) B = false ∧
    open_frame F (with_vm s m) ∧ ident Q s B ∧ cr3 s = cr3 (m_vm m) ∧ pm s = pm (m_vm m) ∧
    ∀ g, fa_used (fa s) g = (B =? g) || fa_used (fa (m_vm m)) g).
Proof using H0.
  intros R. destruct (rd_open _ _ R) as [Ht Hi]. pose proof (costs_alloc_frame (m_vm m)) as Hc.
  destruct (alloc (m_vm m)) as [[s b]| | |] eqn:E; cbn [ensures_frames]; [|exact Hc|..].
  - destruct (alloc_extends Q _ _ _ _ Ht E) as (X & Dd & _ & Hu & Epm). unfold alloc in E. res_inv. destruct a as [a q]. injection E as <- <-.
    destruct (fa_alloc_fresh _ _ _ Ha) as (B & -> & HB & Hu' & Hused).
    assert (frame_of (B * PAGE_SIZE) = B) as EB by (unfold frame_of, PAGE_SIZE; apply Z.div_mul; lia). rewrite EB in *.
    exists B. split; [done|]. assert (B ≠ 0) by (intros ->; by rewrite (rd_zero _ _ R) in Hu').
    assert (fa_used (fa (m_vm m)) F = true) as HuF by apply Hi. split; [intros ->; congruence|]. split; [done|].
    split; [split; [apply X|]|].
    { destruct Hi as [HF HD HW]. split; [done|by apply X|exact HW]. }
    split_and!; [split|done|done|done]; [lia|exact Dd|]. intros x Hx. rewrite <-Hx in Hu'. apply (rd_free _ _ R) in Hu'; [done|]. by rewrite Hx.
  - unfold alloc in E. destruct (fa_alloc_total (fa (m_vm m))) as [[[a q] Ea]|Ea]; rewrite Ea in E; done.
  - unfold alloc in E. destruct (fa_alloc_total (fa (m_vm m))) as [[[a q] Ea]|Ea]; rewrite Ea in E; done.
Qed.

(** Memory written by the controller, in the command page and the bounce buffer. *)
Lemma dma_touched F B s mem :
  tree_ok Q (get_pml4 s) s → ident Q s F → ident Q s B → (∀ x, frame_of x ≠ F → frame_of x ≠ B → mem x = pm s x) →
  touched Q (λ g, g = F ∨ g = B) s (with_pm mem s).
Proof using HQ H0.
  intros Ht HF HB Hm. set (s1 := with_pm (λ x, if decide (frame_of x = B) then mem x else pm s x) s).
  assert (touched Q (λ g, g = F ∨ g = B) s s1) as T.
  { apply (touch Q HQ _ s _ B); [done|by right|apply HB|]. intros x Hx. by rewrite decide_False. }
  eapply touched_trans; [exact T|]. change (with_pm mem s) with (with_pm mem s1). pose proof (touched_ident _ _ _ _ _ T HF) as HF1.
  apply (touch Q HQ _ s1 mem F); [rewrite (touched_pml4 _ _ _ _ T); apply T|by left|apply HF1|].
  intros x Hx. cbn. case_decide; [done|]. by apply Hm.
Qed.

Lemma dma_frames F B n x :
  0 ≤ n ≤ MAX_SECTORS → dma_areas (F * PAGE_SIZE) (F * PAGE_SIZE + 0x400) n (B * PAGE_SIZE) x → frame_of x = F ∨ frame_of x = B.
Proof using Type.
  clear. unfold MAX_SECTORS. intros Hn [Hx|[Hx|Hx]]; [right; apply (in_frame (B * PAGE_SIZE) (512 * n))|left; apply (in_frame (F * PAGE_SIZE + 4) 4)|left; apply (in_frame (F * PAGE_SIZE + 0x400) 256)];
    unfold PAGE_SIZE in *; lia.
Qed.

(** One turn of [read_sectors] with the bounce buffer in frame [B]. *)
Lemma chunk_spec F B lba n s m :
  ready F m → B ≠ F → fa_used (fa (m_vm m)) B = false → open_frame F (with_vm s m) → ident Q s B → cr3 s = cr3 (m_vm m) → pm s = pm (m_vm m) →
  (∀ g, fa_used (fa s) g = (B =? g) || fa_used (fa (m_vm m)) g) → 0 ≤ lba < 2 ^ 48 → 0 < n ≤ MAX_SECTORS →
  ∃ m2 m3, (m ← setup_cmd_header 5 1 (with_vm s m); setup_cfis_and_prdt ATA_READ_DMA_EX lba n (B * PAGE_SIZE) (n * 512) m) = Ok m2 ∧
    issue_and_wait m2 = Ok (m3, true) ∧ user_load (Z.to_nat (n * 512)) (B * PAGE_SIZE) (m_vm m3) = Ok (sectors sector lba n) ∧
    ready F (with_vm (free (B * PAGE_SIZE) (m_vm m3)) m3) ∧ undisturbed F m (with_vm (free (B * PAGE_SIZE) (m_vm m3)) m3).
Proof using All.
  intros R HBF HuB Ho HiB Ec Em Hused Hlba Hn. pose proof (id_frame _ _ _ HiB) as HB. unfold NUM_FRAMES in HB.
  pose proof (id_frame _ _ _ (proj2 Ho)) as HF. unfold NUM_FRAMES in HF. set (data := sectors sector lba n).
  assert (zlen data = 512 * n) as Hlen by (apply sectors_length; lia).
  destruct (build_command F lba n (B * PAGE_SIZE) (with_vm s m) Ho) as (m2 & E2 & W2 & Hf); [apply (rd_paged _ _ R)|done|done|unfold PAGE_SIZE; lia|].
  exists m2. destruct W2 as [T2 D2 A2]. cbn [with_vm m_vm m_dev m_ahci] in *.
  (* the controller writes to the bounce buffer and the command page *)
  assert (ident Q (m_vm m2) B) as HiB2 by by eapply touched_ident. assert (ident Q (m_vm m2) F) as HiF2 by (eapply touched_ident; [done|apply Ho]).
  assert (∀ mem, (∀ x, ¬ dma_areas (F * PAGE_SIZE) (F * PAGE_SIZE + 0x400) n (B * PAGE_SIZE) x → mem x = pm (m_vm m2) x) →
    touched Q (λ g, g = F ∨ g = B) (m_vm m2) (with_pm mem (m_vm m2))) as Hdma.
  { intros mem Hmem. apply dma_touched; [rewrite (touched_pml4 _ _ _ _ T2); apply T2|done|done|]. intros x HxF HxB. apply Hmem.
    intros Hx. destruct (dma_frames F B n x ltac:(lia) Hx); done. }
  assert (seen s) as Hs by (intros o Hoo; unfold virt_to_phys; rewrite Em; unfold get_pml4; rewrite Ec; by apply (rd_regs _ _ R)).
  destruct (issue_spec (F * PAGE_SIZE) (F * PAGE_SIZE + 0x400) lba n (B * PAGE_SIZE) m2) as (d' & mem & fis & E3 & Hrun & Hfis & Hmem);
    [by rewrite A2, (rd_port _ _ R)|rewrite D2; apply R|done|lia|intros mem Hmem; eapply touched_seen; [by apply Hdma|by eapply touched_seen]|]. fold data in Hmem.
  eexists. split; [done|]. split; [exact E3|]. cbn [with_dev with_vm m_vm m_dev m_ahci]. set (fs := λ g, g = F ∨ g = B).
  assert (touched Q fs (m_vm m2) (with_pm mem (m_vm m2))) as T3.
  { apply Hdma. intros x Hx. rewrite Hmem. by apply (dma_done (F * PAGE_SIZE) (F * PAGE_SIZE + 0x400) n (B * PAGE_SIZE)); [|rewrite le_zlen|..]. }
  assert (touched Q fs s (with_pm mem (m_vm m2))) as T.
  { eapply touched_trans; [|exact T3]. eapply touched_mono; [|exact T2]. by left. }
  assert (ident Q (with_pm mem (m_vm m2)) B) as HiB3 by by eapply touched_ident.
  assert (get_pml4 (with_pm mem (m_vm m2)) = get_pml4 (m_vm m)) as Er by (rewrite (touched_pml4 _ _ _ _ T); unfold get_pml4; by rewrite Ec).
  assert (Z.to_nat (n * 512) = length data) as El by (unfold zlen in Hlen; lia).
  split.
  { rewrite El. apply (load_ident Q (B * PAGE_SIZE) data _ B HiB3); [lia|unfold MAX_SECTORS, PAGE_SIZE in *; lia|]. cbn [pm with_pm].
    eapply bytes_at_ext; [exact Hmem|]. apply bytes_at_outside; [apply bytes_at_outside; [apply bytes_at_store|]|];
      rewrite ?le_zlen; unfold MAX_SECTORS, PAGE_SIZE in *; lia. }
  set (s4 := with_pm mem (m_vm m2)) in *.
  assert (∀ g, 0 ≤ g < NUM_FRAMES → fa_used (fa (free (B * PAGE_SIZE) s4)) g = fa_used (fa (m_vm m)) g) as Hfree.
  { intros g Hg. cbn [free with_fa fa]. rewrite fa_free_used by done. unfold PAGE_SIZE. rewrite Z.div_mul by lia.
    rewrite (proj2 (tc_regs _ _ _ _ T)), Hused. destruct (Z.eqb_spec B g) as [<-|]; cbn; [by rewrite HuB|done]. }
  assert (tree_ok Q (get_pml4 s4) (free (B * PAGE_SIZE) s4)) as Ht4.
  { apply free_tree; [rewrite (touched_pml4 _ _ _ _ T); apply T|]. unfold PAGE_SIZE. rewrite Z.div_mul by lia. apply HiB3. }
  assert (ident Q s4 F) as HiF4 by (eapply touched_ident; [exact T|apply Ho]).
  assert (∀ va, 0 ≤ va < 2 ^ 47 → virt_to_phys va s4 = virt_to_phys va (m_vm m)) as Hw.
  { intros va Hva. rewrite (tc_walk _ _ _ _ T) by done. unfold virt_to_phys. by rewrite Em; unfold get_pml4; rewrite Ec. }
  split.
  - split; cbn [with_vm with_dev m_vm m_dev m_ahci].
    + by rewrite A2, (rd_port _ _ R).
    + rewrite A2. apply R.
    + split; [exact Ht4|]. split; [apply HiF4| |apply HiF4]. destruct (id_data _ _ _ HiF4) as [Hu4 Ht]. split; [|exact Ht].
      rewrite Hfree by (unfold NUM_FRAMES; lia). apply (rd_open _ _ R).
    + intros o Hoo. change (virt_to_phys (p + o) s4 = p + o). rewrite Hw by lia. by apply (rd_regs _ _ R).
    + rewrite Hfree by (unfold NUM_FRAMES; lia). apply R.
    + exact Hrun.
    + intros x Hx Hu. rewrite Hfree in Hu by done. change (virt_to_phys x s4 = x). rewrite Hw; [by apply (rd_free _ _ R)|].
      unfold frame_of, NUM_FRAMES, PAGE_SIZE in Hx. Z.div_mod_to_equations. lia.
  - split; cbn [with_vm with_dev m_vm m_dev m_ahci].
    + by rewrite A2.
    + change (cr3 s4 = cr3 (m_vm m)). by rewrite (proj1 (tc_regs _ _ _ _ T)).
    + done.
    + exact Hw.
    + intros x Hu Hx Hne. change (pm s4 x = pm (m_vm m) x). rewrite (tc_mem _ _ _ _ T), Em; [done|]. intros [?|E]; [done|]. rewrite E in Hu. congruence.
Qed.

(** A port that is set up delivers exactly the sectors asked for, through bounce
    buffers of at most eight sectors that are taken from the frame allocator and given
    back; apart from the command page nothing in use changes, the tables translate as
    before, and the port is ready for the next request.  It stops only when there is no
    frame left. *)
Lemma read_sectors_spec F lba count m :
  ready F m → 0 ≤ lba → 0 < count < 2 ^ 32 → lba + count ≤ 2 ^ 48 →
  ensures_frames 1 (fa (m_vm m)) (read_sectors lba count m) (λ '(m', r), r = (true, sectors sector lba count) ∧ ready F m' ∧ undisturbed F m m').
Proof using All.
  intros R Hlba Hcount Hend. unfold read_sectors. pose proof (id_frame _ _ _ (proj2 (rd_open _ _ R))) as HF.
  rewrite (rd_port _ _ R), (proj1 (pg_table _ _ (rd_paged _ _ R))), (proj2 (Z.eqb_neq p 0)), (proj2 (Z.eqb_neq count 0)), (proj2 (Z.eqb_neq (_ + _) 0)) by (done || unfold PAGE_SIZE; lia).
  cbn [orb]. change (sectors sector lba count) with ([] ++ sectors sector lba count). generalize (@nil Z) as acc.
  assert (0 ≤ count) as Hc0 by lia. assert (Z.to_nat count < S (Z.to_nat count))%nat as Hfuel by lia. revert Hfuel. generalize (S (Z.to_nat count)) as fuel.
  clear Hcount. intros fuel. revert lba count m R Hlba Hend Hc0. induction fuel as [|fuel IH]; intros lba count m R Hlba Hend Hc0 Hfuel acc; [lia|]. cbn [read_chunks].
  destruct (Z.ltb_spec 0 count) as [Hpos|Hz]; cbn [negb].
  2: { assert (count = 0) as -> by lia. cbn [ensures_frames]. split; [by rewrite app_nil_r|]. split; [done|apply undisturbed_refl]. }
  set (n := if MAX_SECTORS <? count then MAX_SECTORS else count).
  assert (0 < n ≤ MAX_SECTORS ∧ n ≤ count) as [Hn Hnc] by (unfold n, MAX_SECTORS; case_cmp; lia).
  eapply ensures_frames_bind; [by apply (bounce_spec F)|]. intros [s b] (B & -> & HBF & HuB & Ho & HiB & Ec & Em & Hused).
  destruct (chunk_spec F B lba n s m R HBF HuB Ho HiB Ec Em Hused ltac:(lia) Hn) as (m2 & m3 & E2 & E3 & E4 & R' & U).
  rewrite <-bind_assoc. setoid_rewrite E2. res_step. rewrite E3. res_step. rewrite E4. res_step. cbn [negb]. rewrite u64_small by (unfold is_u64; lia).
  eapply ensures_or_mono; [apply (IH (lba + n) (count - n) _ R'); lia|apply fewer_used, U|]. intros [m' r] (-> & R2 & U2). split; [|split; [done|by eapply undisturbed_trans]].
  f_equal. rewrite <-app_assoc. f_equal. rewrite <-sectors_app by lia. f_equal. lia.
Qed.

End driver.
