(* ===== verification/AhciInit.v ===== *)
(** * Bringing a disk up

    From the PCI scan to the first sector: [ahci_init] finds the controller, sets up its
    first port with a fresh command page, and leaves it ready for [read_sectors]. *)

From S2P Require Import Prelude Mem Frames Pmm Vmm PageTable UserPages ElfSpec UserMem Hardware Apic Pci Ahci AhciSpec.

(** ** The laws of a port that is being set up *)

Definition BASES : list Z := [PORT_CLBL; PORT_CLBH; PORT_FBL; PORT_FBH].

Lemma in_bases : PORT_CLBL ∈ BASES ∧ PORT_CLBH ∈ BASES ∧ PORT_FBL ∈ BASES ∧ PORT_FBH ∈ BASES.
Proof. unfold BASES. split_and!; set_solver. Qed.

(** What [running] depends on has not changed. *)
Record same_port (r r' : Z → Z) : Prop := {
  sp_base o : o ∈ BASES → r' o = r o;
  sp_st : Z.testbit (r' PORT_CMD) 0 = Z.testbit (r PORT_CMD) 0;
  sp_fre : Z.testbit (r' PORT_CMD) 4 = Z.testbit (r PORT_CMD) 4;
  sp_ci : Z.testbit (r' PORT_CI) 0 = Z.testbit (r PORT_CI) 0;
}.

#[export] Instance same_port_preorder : PreOrder same_port.
Proof.
  split; [by split|]. intros r1 r2 r3 [B1 S1 F1 C1] [B2 S2 F2 C2]. split; [|congruence..]. intros o Ho. by rewrite B2, B1.
Qed.

(** No command issued and no FIS received. *)
Definition port_off (r : Z → Z) : Prop := Z.testbit (r PORT_CMD) 4 = false ∧ Z.testbit (r PORT_CI) 0 = false.

Lemma port_off_same r r' : same_port r r' → port_off r → port_off r'.
Proof. intros [_ _ F C] [? ?]. split; congruence. Qed.

(** The base registers keep aligned addresses, writing the command register starts and
    stops the engines, and an idle port writes nothing but received FISes.  The signature
    is that of a disk, or all ones as long as the disk has not sent it. *)
Class AhciStart (D : Type) (p : Z) (sector : Z → list Z) `{AhciPort D p sector} := {
  as_base o v d : o ∈ BASES → 0 ≤ v < 2 ^ 32 → v `mod` 256 = 0 →
    let r' := preg (mmio_write 4 (p + o) v d) in
    (∀ o', o' ∈ BASES → r' o' = if decide (o' = o) then v else preg d o') ∧
    Z.testbit (r' PORT_CMD) 0 = Z.testbit (preg d PORT_CMD) 0 ∧ Z.testbit (r' PORT_CMD) 4 = Z.testbit (preg d PORT_CMD) 4 ∧
    Z.testbit (r' PORT_CI) 0 = Z.testbit (preg d PORT_CI) 0;
  as_serr d : same_port (preg d) (preg (mmio_write 4 (p + PORT_SERR) ALL_ONES d));
  as_cmd v d : Z.testbit (preg d PORT_CI) 0 = false →
    let r' := preg (mmio_write 4 (p + PORT_CMD) v d) in
    (∀ o, o ∈ BASES → r' o = preg d o) ∧ Z.testbit (r' PORT_CMD) 0 = Z.testbit v 0 ∧ Z.testbit (r' PORT_CMD) 4 = Z.testbit v 4 ∧
    Z.testbit (r' PORT_CI) 0 = false;
  as_idle d m : Z.testbit (preg d PORT_CI) 0 = false →
    same_port (preg d) (preg (dma d m).1) ∧
    if Z.testbit (preg d PORT_CMD) 4 then ∃ fis, zlen fis ≤ 256 ∧ ∀ x, (dma d m).2 x = store_bytes m (preg d PORT_FBL) fis x
    else (dma d m).2 = m;
  as_sig d : preg d PORT_SIG = 0x101 ∨ preg d PORT_SIG = ALL_ONES;
}.

(** The controller around it: its registers at [abar], the ports it implements, and the
    configuration space.  Bit 0 of the global control register resets it: the ports stop,
    and what their registers hold is not known any more. *)
Class AhciController (D : Type) (abar pi p : Z) (sector : Z → list Z) `{AhciPort D p sector} := {
  ac_ghc_read d : ∃ v, mmio_read 4 (abar + HBA_GHC) d = (d, v);
  ac_ghc_write v d : Z.testbit v 0 = false → same_port (preg d) (preg (mmio_write 4 (abar + HBA_GHC) v d));
  ac_ghc_reset v d : Z.testbit v 0 = true → port_off (preg (mmio_write 4 (abar + HBA_GHC) v d));
  ac_pi d : mmio_read 4 (abar + HBA_PI) d = (d, pi);
  ac_pci addr d : same_port (preg d) (preg (inl CONFIG_DATA (outl CONFIG_ADDR addr d)).1);
}.

(** ** Waiting *)

Section init.
Context {A D : Type} `{FrameAllocLaws A, Hardware D, Dma D}.
Context (Q : Z → Prop) (HQ : ∀ va, 0 ≤ va < 2 ^ 47 → Q (pml4_idx va)).
Context (p : Z) (sector : Z → list Z) `{!AhciPort D p sector, !AhciStart D p sector} (Hp0 : 0 < p) (Hp47 : p + 0x80 ≤ 2 ^ 47).
Implicit Types (s : Vmm A) (m : Mach A D).

(** The devices moved, and nothing else did. *)
Record quiet m m' : Prop := {
  qt_vm : m_vm m' = m_vm m;
  qt_ahci : m_ahci m' = m_ahci m;
  qt_port : same_port (preg (m_dev m)) (preg (m_dev m'));
}.

#[local] Instance quiet_preorder : PreOrder quiet.
Proof using Type. split; [by split|]. intros m1 m2 m3 [V1 A1 P1] [V2 A2 P2]. split; [congruence..|by etrans]. Qed.

Lemma quiet_off m m' : quiet m m' → port_off (preg (m_dev m)) → port_off (preg (m_dev m')).
Proof using Type. intros [_ _ P] Ho. by eapply port_off_same. Qed.

(** The devices moved, and the port is off. *)
Record idle m m' : Prop := {
  il_vm : m_vm m' = m_vm m;
  il_ahci : m_ahci m' = m_ahci m;
  il_off : port_off (preg (m_dev m'));
}.

Lemma quiet_idle m m' : port_off (preg (m_dev m)) → quiet m m' → idle m m'.
Proof using Type. intros Ho Hq. pose proof (quiet_off _ _ Hq Ho). destruct Hq. by split. Qed.

Lemma idle_trans m1 m2 m3 : idle m1 m2 → idle m2 m3 → idle m1 m3.
Proof using Type. intros [V1 A1 _] [V2 A2 O2]. split; [congruence..|done]. Qed.

Lemma pause_off m : port_off (preg (m_dev m)) → quiet m (pause m).
Proof using AhciStart0.
  intros [Hf Hc]. destruct (as_idle (m_dev m) (pm (m_vm m)) Hc) as [Hs Hm]. rewrite Hf in Hm. unfold pause.
  destruct (dma _ _) as [d mem]. cbn in *. subst mem. split; [by destruct m as [[] ? ?]|done|exact Hs].
Qed.

Lemma wait_off n m : port_off (preg (m_dev m)) → quiet m (Nat.iter n pause m).
Proof using AhciStart0.
  intros Ho. induction n as [|n IH]; [reflexivity|]. change (Nat.iter (S n) pause m) with (pause (Nat.iter n pause m)).
  etrans; [exact IH|]. apply pause_off. by eapply quiet_off.
Qed.

Lemma wait_clear_off n mask m : seen p (m_vm m) → port_off (preg (m_dev m)) → ∃ m', wait_clear n p mask m = Ok m' ∧ quiet m m'.
Proof using AhciStart0 Hp0.
  revert m. induction n as [|n IH]; intros m Hs Ho; [by eexists|]. cbn [wait_clear]. rewrite (reg_read_port p sector Hp0) by done. res_step.
  destruct (Z.land _ _ =? 0); [by eexists|]. pose proof (pause_off m Ho) as Hq.
  destruct (IH (pause m)) as (m' & E & Hq'); [by rewrite (qt_vm _ _ Hq)|by eapply quiet_off|]. exists m'. split; [exact E|by etrans].
Qed.

(** Received FISes go to the area in frame [F]. *)
Record receiving (F : Z) m : Prop := {
  rc_open : open_frame Q F m;
  rc_fb : preg (m_dev m) PORT_FBL = F * PAGE_SIZE + 0x400;
  rc_ci : Z.testbit (preg (m_dev m) PORT_CI) 0 = false;
}.

(** The devices moved and wrote to frame [F] at most. *)
Record stirs (F : Z) m m' : Prop := {
  st_mem : touched Q (λ g, g = F) (m_vm m) (m_vm m');
  st_ahci : m_ahci m' = m_ahci m;
  st_port : same_port (preg (m_dev m)) (preg (m_dev m'));
}.

Lemma stirs_receiving F m m' : stirs F m m' → receiving F m → receiving F m'.
Proof using Type.
  intros [T _ P] [[Ht Hi] Hb Hc]. split.
  - split; [rewrite (touched_pml4 _ _ _ _ T); apply T|by eapply touched_ident].
  - rewrite (sp_base _ _ P); [done|apply in_bases].
  - by rewrite (sp_ci _ _ P).
Qed.

Lemma stirs_trans F m1 m2 m3 : stirs F m1 m2 → stirs F m2 m3 → stirs F m1 m3.
Proof using Type. intros [T1 A1 P1] [T2 A2 P2]. split; [by eapply touched_trans|congruence|by etrans]. Qed.

Lemma pause_stirs F m : receiving F m → stirs F m (pause m).
Proof using HQ AhciStart0 H0.
  intros [[Ht Hi] Hb Hc]. destruct (as_idle (m_dev m) (pm (m_vm m)) Hc) as [Hs Hm]. unfold pause.
  destruct (dma _ _) as [d mem]. cbn [fst snd] in *. split; [|done|exact Hs]. cbn [with_dev with_vm m_vm].
  apply (touch Q HQ _ _ mem F); [done|done|apply Hi|]. intros x Hx. destruct (Z.testbit _ 4); [|by rewrite Hm].
  destruct Hm as (fis & Hl & Hm). rewrite Hm, Hb. apply store_bytes_outside.
  destruct (decide (F * PAGE_SIZE + 0x400 ≤ x < F * PAGE_SIZE + 0x400 + zlen fis)) as [Hin|]; [|lia]. destruct Hx.
  apply (in_frame (F * PAGE_SIZE + 0x400) (zlen fis)); [lia|unfold PAGE_SIZE; lia|done].
Qed.

Lemma wait_stirs F n m : receiving F m → stirs F m (Nat.iter n pause m).
Proof using HQ AhciStart0 H0.
  intros R. induction n as [|n IH]; [split; [apply touched_refl, R|done|done]|].
  change (Nat.iter (S n) pause m) with (pause (Nat.iter n pause m)). eapply stirs_trans; [exact IH|]. apply pause_stirs. by eapply stirs_receiving.
Qed.

Lemma wait_ms_stirs F ms m : receiving F m → stirs F m (wait_ms ms m).
Proof using HQ AhciStart0 H0. intros R. unfold wait_ms. by apply wait_stirs. Qed.

Lemma wait_ms_off ms m : port_off (preg (m_dev m)) → quiet m (wait_ms ms m).
Proof using AhciStart0. intros R. unfold wait_ms. by apply wait_off. Qed.

(** ** Setting the port up *)

Definition cmd_set (mask : Z) m : Mach A D := with_dev (mmio_write 4 (p + PORT_CMD) (Z.lor (preg (m_dev m) PORT_CMD) mask) (m_dev m)) m.

Lemma reg_set_port mask m : seen p (m_vm m) → reg_set (p + PORT_CMD) mask m = Ok (cmd_set mask m).
Proof using Hp0.
  intros Hs. unfold reg_set. rewrite (reg_read_port p sector Hp0) by done. res_step. by rewrite (reg_write_port p Hp0) by done.
Qed.

(** Stopping the port keeps it off. *)
Lemma stop_off m : seen p (m_vm m) → port_off (preg (m_dev m)) → ∃ m', reg_clear (p + PORT_CMD) CMD_ST m = Ok m' ∧ idle m m'.
Proof using AhciStart0 Hp0.
  intros Hs [Hf Hc]. unfold reg_clear. rewrite (reg_read_port p sector Hp0) by done. res_step. rewrite (reg_write_port p Hp0) by done.
  eexists. split; [done|]. destruct (as_cmd (band_not (preg (m_dev m) PORT_CMD) CMD_ST) (m_dev m) Hc) as (_ & _ & F & C).
  split; [done|done|]. split; [|exact C]. cbn [m_dev with_dev]. rewrite F. unfold band_not. rewrite Z.ldiff_spec, Hf. done.
Qed.

(** The device after the base registers, the interrupt status and the errors are set. *)
Definition based (clb fb : Z) (d : D) : D :=
  let d := mmio_write 4 (p + PORT_CLBL) clb d in
  let d := mmio_write 4 (p + PORT_CLBH) 0 d in
  let d := mmio_write 4 (p + PORT_FBL) fb d in
  let d := mmio_write 4 (p + PORT_FBH) 0 d in
  let d := mmio_write 4 (p + PORT_IS) ALL_ONES d in
  mmio_write 4 (p + PORT_SERR) ALL_ONES d.

Lemma based_spec clb fb d :
  port_off (preg d) → 0 ≤ clb < 2 ^ 32 → 0 ≤ fb < 2 ^ 32 → clb `mod` 256 = 0 → fb `mod` 256 = 0 →
  let r := preg (based clb fb d) in port_off r ∧ r PORT_CLBL = clb ∧ r PORT_CLBH = 0 ∧ r PORT_FBL = fb ∧ r PORT_FBH = 0.
Proof using AhciStart0.
  intros [Hf Hc] Hb1 Hb2 Ha1 Ha2. cbn zeta. unfold based.
  destruct in_bases as (I1 & I2 & I3 & I4).
  set (d1 := mmio_write 4 (p + PORT_CLBL) clb d). destruct (as_base PORT_CLBL clb d I1 Hb1 Ha1) as (B1 & _ & F1 & C1). fold d1 in B1, F1, C1.
  set (d2 := mmio_write 4 (p + PORT_CLBH) 0 d1). destruct (as_base PORT_CLBH 0 d1 I2 ltac:(done) ltac:(done)) as (B2 & _ & F2 & C2). fold d2 in B2, F2, C2.
  set (d3 := mmio_write 4 (p + PORT_FBL) fb d2). destruct (as_base PORT_FBL fb d2 I3 Hb2 Ha2) as (B3 & _ & F3 & C3). fold d3 in B3, F3, C3.
  set (d4 := mmio_write 4 (p + PORT_FBH) 0 d3). destruct (as_base PORT_FBH 0 d3 I4 ltac:(done) ltac:(done)) as (B4 & _ & F4 & C4). fold d4 in B4, F4, C4.
  set (d5 := mmio_write 4 (p + PORT_IS) ALL_ONES d4). set (d6 := mmio_write 4 (p + PORT_SERR) ALL_ONES d5).
  destruct (as_serr d5) as [B6 _ F6 C6]. fold d6 in B6, F6, C6.
  assert (∀ o, o ≠ PORT_IS → preg d5 o = preg d4 o) as E5 by (intros o Ho; by apply ap_ack).
  split; [split; [rewrite F6, E5 by done|rewrite C6, E5 by done]; congruence|].
  rewrite !B6, !E5, !B4, !B3, !B2, !B1 by done. repeat (rewrite decide_False by done || rewrite decide_True by done). done.
Qed.

(** Starting both engines: the port is running. *)
Lemma start_spec F m :
  open_frame Q F m → port_off (preg (m_dev m)) → preg (m_dev m) PORT_CLBL = F * PAGE_SIZE → preg (m_dev m) PORT_CLBH = 0 →
  preg (m_dev m) PORT_FBL = F * PAGE_SIZE + 0x400 → preg (m_dev m) PORT_FBH = 0 →
  let m1 := wait_ms 1 (cmd_set CMD_FRE m) in let m' := wait_ms 1 (cmd_set CMD_ST m1) in
  touched Q (λ g, g = F) (m_vm m) (m_vm m1) ∧ touched Q (λ g, g = F) (m_vm m) (m_vm m') ∧ m_ahci m' = m_ahci m ∧ running (preg (m_dev m')) (F * PAGE_SIZE) (F * PAGE_SIZE + 0x400).
Proof using HQ AhciStart0 H0.
  intros Ho [Hf Hc] R1 R2 R3 R4. cbn zeta.
  destruct in_bases as (I1 & I2 & I3 & I4).
  unfold cmd_set at 1 3 5 7. set (d1 := mmio_write 4 (p + PORT_CMD) (Z.lor (preg (m_dev m) PORT_CMD) CMD_FRE) (m_dev m)).
  destruct (as_cmd (Z.lor (preg (m_dev m) PORT_CMD) CMD_FRE) (m_dev m) Hc) as (B1 & S1 & F1 & C1). fold d1 in B1, S1, F1, C1.
  rewrite Z.lor_spec in F1. change (Z.testbit CMD_FRE 4) with true in F1. rewrite orb_true_r in F1.
  assert (receiving F (with_dev d1 m)) as Rc1 by (split; [exact Ho|cbn; by rewrite B1|exact C1]).
  pose proof (wait_ms_stirs F 1 _ Rc1) as W1. set (m1 := wait_ms 1 (with_dev d1 m)) in *.
  pose proof (stirs_receiving _ _ _ W1 Rc1) as [Ho1 Hb1 Hc1]. destruct W1 as [T1 A1 [P1 P2 P3 P4]]. cbn [m_vm m_dev m_ahci with_dev] in T1, A1, P1, P2, P3, P4.
  unfold cmd_set. set (d2 := mmio_write 4 _ _ _).
  destruct (as_cmd (Z.lor (preg (m_dev m1) PORT_CMD) CMD_ST) (m_dev m1) Hc1) as (B2 & S2 & F2 & C2). fold d2 in B2, S2, F2, C2.
  rewrite Z.lor_spec in S2, F2. change (Z.testbit CMD_ST 0) with true in S2. rewrite orb_true_r in S2. rewrite P3, F1 in F2. cbn [orb] in F2.
  assert (receiving F (with_dev d2 m1)) as Rc2 by (split; [exact Ho1|cbn; by rewrite B2|exact C2]).
  pose proof (wait_ms_stirs F 1 _ Rc2) as W2. set (m2 := wait_ms 1 (with_dev d2 m1)) in *.
  destruct W2 as [T2 A2 [X1 X2 X3 X4]]. cbn [m_vm m_dev m_ahci with_dev] in T2, A2, X1, X2, X3, X4.
  clearbody m2. clearbody m1. split; [exact T1|]. split; [exact (touched_trans _ _ _ _ _ T1 T2)|]. split; [by rewrite A2|]. unfold running. rewrite !X1, X2, X3, X4 by done. rewrite !B2, !P1, !B1 by done. by split_and!.
Qed.

(** What the driver needs of memory: the tables are sound, frame 0 is taken, and free
    frames are mapped to themselves. *)
Record memory_ok s : Prop := {
  mo_user : user_ok Q s;
  mo_free x : 0 ≤ frame_of x < NUM_FRAMES → fa_used (fa s) (frame_of x) = false → virt_to_phys x s = x;
}.

(** Mapping a page to itself keeps it so. *)
Lemma identity_keeps va flags s :
  memory_ok s → 0 ≤ va < 2 ^ 47 → va `mod` PAGE_SIZE = 0 → Z.land flags PHYS_MASK = 0 → Z.testbit flags 0 = true →
  ensures_frames 3 (fa s) (Vmm.map va va flags s) (λ s', memory_ok s' ∧ extends Q (get_pml4 s) s s' ∧
    (∀ v, 0 ≤ v < 2 ^ 47 → virt_to_phys v s' = if decide (v / PAGE_SIZE = va / PAGE_SIZE) then v else virt_to_phys v s) ∧
    ∀ n, fewer n (fa s') → fewer (n + 3) (fa s)).
Proof using HQ H0.
  intros [[Ht Hz] Hf] Hva Hal Hfl Hb. pose proof (map_identity Q HQ va flags s Ht Hva Hal Hfl Hb) as M.
  pose proof (map_into_costs (get_pml4 s) va va flags s) as Hc. unfold Vmm.map in *.
  destruct (map_into (get_pml4 s) va va flags s) as [s'| | |]; [|done..]. cbn [ensures_frames costs] in *. destruct M as [X W].
  split; [|by split]. split; [split; [rewrite (extends_pml4 Q _ _ _ X); apply X|by apply X]|].
  intros x Hx Hu. rewrite W by (unfold frame_of, NUM_FRAMES, PAGE_SIZE in Hx; Z.div_mod_to_equations; lia). case_decide; [done|]. apply Hf; [done|].
  destruct (fa_used (fa s) (frame_of x)) eqn:E; [|done]. apply (x_used _ _ _ _ X) in E. congruence.
Qed.

(** A fresh page for the port, mapped to itself and cleared. *)
Lemma port_page_spec s m :
  memory_ok s →
  ensures_frames 4 (fa s) ('(s, page) ← alloc s; s ← Vmm.map page page KERNEL_RW s;
           kstore page (replicate 4096 0) (with_ahci (port_page page (m_ahci m)) (with_vm s m)))
    (λ m', ∃ F, fa_used (fa s) F = false ∧ open_frame Q F m' ∧ memory_ok (m_vm m') ∧ extends Q (get_pml4 s) s (m_vm m') ∧
      m_dev m' = m_dev m ∧ m_ahci m' = port_page (F * PAGE_SIZE) (m_ahci m) ∧
      (∀ v, 0 ≤ v < 2 ^ 47 → v / PAGE_SIZE ≠ F → virt_to_phys v (m_vm m') = virt_to_phys v s) ∧
      ∀ n, fewer n (fa (m_vm m')) → fewer (n + 4) (fa s)).
Proof using HQ H0.
  intros Hok. pose proof Hok as [[Ht Hz] Hfree]. pose proof (costs_alloc_frame s) as Hc. destruct (alloc s) as [[s1 page]| | |] eqn:Ea;
    [|eapply fewer_weaken; [|exact Hc]; lia|by (unfold alloc in Ea; destruct (fa_alloc_total (fa s)) as [[[? ?] E]|E]; rewrite E in Ea)..].
  res_step. cbn [costs fst_fa fst] in Hc. destruct (alloc_extends Q (get_pml4 s) s s1 page Ht Ea) as (X1 & D1 & (F & -> & HF) & Hu & Epm).
  assert (frame_of (F * PAGE_SIZE) = F) as EF by (unfold frame_of, PAGE_SIZE; apply Z.div_mul; lia). rewrite EF in *.
  assert (F ≠ 0) by (intros ->; by rewrite Hz in Hu). assert ((F * PAGE_SIZE) `mod` PAGE_SIZE = 0) as Hal by (unfold PAGE_SIZE; apply Z.mod_mul; lia).
  assert (0 ≤ F * PAGE_SIZE < 2 ^ 47) as Hb by (unfold PAGE_SIZE, NUM_FRAMES in *; lia).
  assert (∀ v, virt_to_phys v s1 = virt_to_phys v s) as Hw1 by (intros v; unfold virt_to_phys; by rewrite Epm, (extends_pml4 Q _ _ _ X1)).
  pose proof (extends_pml4 Q _ _ _ X1) as R1.
  assert (memory_ok s1) as Hok1.
  { split; [split; [rewrite R1; apply X1|by apply X1]|]. intros x Hx Hux. rewrite Hw1. apply Hfree; [done|].
    destruct (fa_used (fa s) (frame_of x)) eqn:E; [|done]. apply (x_used _ _ _ _ X1) in E. congruence. }
  eapply ensures_or_bind; [eapply ensures_or_mono; [by apply (identity_keeps (F * PAGE_SIZE) KERNEL_RW s1)|exact (Hc 3%nat)|intros s2 HP; exact HP]|].
  intros s2 (Hok2 & X2 & W2 & Hc2). rewrite R1 in X2.
  pose proof (extends_trans _ _ _ _ _ X1 X2) as X. pose proof (extends_pml4 Q _ _ _ X) as R2. set (m2 := with_ahci _ _).
  assert (open_frame Q F m2) as Ho2.
  { split; cbn [m2 with_ahci with_vm m_vm]; [rewrite R2; apply X|]. split; [lia|rewrite R2; by apply X2|].
    intros x Hx. rewrite W2 by (unfold frame_of, NUM_FRAMES, PAGE_SIZE in *; Z.div_mod_to_equations; lia).
    rewrite decide_True; [done|]. rewrite (Z.div_mul F) by done. exact Hx. }
  assert (zlen (replicate 4096 0) = 4096) as Hz4 by (unfold zlen; by rewrite length_replicate).
  destruct (kstore_spec Q HQ (F * PAGE_SIZE) (replicate 4096 0) m2 F (proj1 Ho2) (proj2 Ho2)) as (m3 & -> & Wr & _); [lia|rewrite Hz4; unfold PAGE_SIZE; lia|].
  cbn [ensures_or]. exists F. split; [done|]. pose proof (wr_mem _ _ _ _ Wr) as T. cbn [m2 with_ahci with_vm m_vm] in T.
  assert (get_pml4 (m_vm m3) = get_pml4 s) as R3 by (by rewrite (touched_pml4 _ _ _ _ T), R2).
  split; [by eapply writes_open|]. split; [|split; [|split; [|split; [|split]]]].
  - split; [split; [rewrite R3, <-R2; apply T|]|].
    + rewrite (proj2 (tc_regs _ _ _ _ T)). by apply Hok2.
    + intros x Hx. rewrite (proj2 (tc_regs _ _ _ _ T)). intros Hux. rewrite (tc_walk _ _ _ _ T); [by apply Hok2|].
      unfold frame_of, NUM_FRAMES, PAGE_SIZE in *; Z.div_mod_to_equations; lia.
  - split.
    + rewrite <-R2. apply T.
    + rewrite (proj1 (tc_regs _ _ _ _ T)). apply X.
    + intros f Hf. rewrite (proj2 (tc_regs _ _ _ _ T)). by apply X.
    + intros f Hf. rewrite <-R2. apply T. rewrite R2. by apply X.
    + intros x Hx. rewrite (tc_mem _ _ _ _ T); [by apply X|]. intros E. destruct Hx as [Hx _]. congruence.
  - by rewrite (wr_dev _ _ _ _ Wr).
  - by rewrite (wr_ahci _ _ _ _ Wr).
  - intros v Hv Hne. rewrite (tc_walk _ _ _ _ T), W2, decide_False, Hw1; [done| |done..]. by rewrite (Z.div_mul F) by done.
  - intros n. rewrite (proj2 (tc_regs _ _ _ _ T)). intros Hn. replace (n + 4)%nat with (n + 3 + 1)%nat by lia. by apply Hc, Hc2.
Qed.

(** The same, for what follows in the code. *)
Lemma port_page_then {B} s m (rest : Mach A D → Res B) (R : B → Prop) :
  memory_ok s →
  (∀ F m', fa_used (fa s) F = false → open_frame Q F m' → memory_ok (m_vm m') → extends Q (get_pml4 s) s (m_vm m') →
    m_dev m' = m_dev m → m_ahci m' = port_page (F * PAGE_SIZE) (m_ahci m) →
    (∀ v, 0 ≤ v < 2 ^ 47 → v / PAGE_SIZE ≠ F → virt_to_phys v (m_vm m') = virt_to_phys v s) →
    (∀ n, fewer n (fa (m_vm m')) → fewer (n + 4) (fa s)) → ensures_frames 4 (fa s) (rest m') R) →
  ensures_frames 4 (fa s) ('(s, page) ← alloc s; s ← Vmm.map page page KERNEL_RW s;
           m ← kstore page (replicate 4096 0) (with_ahci (port_page page (m_ahci m)) (with_vm s m)); rest m) R.
Proof using HQ H0.
  intros Hok Hrest. pose proof (port_page_spec s m Hok) as P. generalize dependent (replicate 4096 0). intros z P.
  destruct (alloc s) as [[s1 page]| | |]; try done. cbn [mbind res_bind] in P |- *.
  destruct (Vmm.map page page KERNEL_RW s1) as [s'| | |]; try done. cbn [mbind res_bind] in P |- *.
  destruct (kstore page z _) as [m3| | |]; try done. cbn [mbind res_bind ensures_frames] in P |- *.
  destruct P as (F & HuF & Hopen & Hok3 & X & D3 & A3 & Hout & Hf). by eapply Hrest.
Qed.

(** The command page is not in the way of the registers. *)
Lemma seen_after F m m' :
  seen p (m_vm m) → open_frame Q F m' →
  (∀ v, 0 ≤ v < 2 ^ 47 → v / PAGE_SIZE ≠ F → virt_to_phys v (m_vm m') = virt_to_phys v (m_vm m)) → seen p (m_vm m').
Proof using Hp0 Hp47.
  intros Hs [_ Hi] Hw o Ho. destruct (decide ((p + o) / PAGE_SIZE = F)) as [E|Hne]; [by apply Hi|]. rewrite Hw by (done || lia). by apply Hs.
Qed.

(** The base registers and the cleared status, then both engines: the last part of
    [init_port], which answers that a disk has neither of the two signatures. *)
Definition port_start m : Res (Mach A D * bool) :=
  m ← reg_write (p + PORT_CLBL) (Z.land (cmd_list_phys (m_ahci m)) 0xFFFFFFFF) m;
  m ← reg_write (p + PORT_CLBH) 0 m;
  m ← reg_write (p + PORT_FBL) (Z.land (fis_phys (m_ahci m)) 0xFFFFFFFF) m;
  m ← reg_write (p + PORT_FBH) 0 m;
  m ← reg_write (p + PORT_IS) ALL_ONES m;
  m ← reg_write (p + PORT_SERR) ALL_ONES m;
  m ← reg_set (p + PORT_CMD) CMD_FRE m;
  let m := wait_ms 1 m in
  m ← reg_set (p + PORT_CMD) CMD_ST m;
  let m := wait_ms 1 m in
  '(m, sig) ← reg_read (p + PORT_SIG) m;
  Ok (m, (Z.shiftr sig 16 =? 0xEB14) || (Z.shiftr sig 16 =? 0x9669)).

#[local] Opaque wait_ms.

Lemma port_start_spec F m :
  open_frame Q F m → seen p (m_vm m) → port_off (preg (m_dev m)) → cmd_list_phys (m_ahci m) = F * PAGE_SIZE → fis_phys (m_ahci m) = F * PAGE_SIZE + 0x400 →
  ∃ m', port_start m = Ok (m', false) ∧ touched Q (λ g, g = F) (m_vm m) (m_vm m') ∧ m_ahci m' = m_ahci m ∧
    running (preg (m_dev m')) (F * PAGE_SIZE) (F * PAGE_SIZE + 0x400).
Proof using HQ AhciStart0 H0 Hp0 Hp47.
  intros Hopen Hs Ho Hc Hf. pose proof (id_frame _ _ _ (proj2 Hopen)) as HF. unfold NUM_FRAMES in HF. unfold port_start.
  do 6 (rewrite (reg_write_port p Hp0) by done; res_step; cbn [m_ahci m_dev with_dev]).
  rewrite Hc, Hf, !low_word by (unfold PAGE_SIZE; lia).
  set (d4 := mmio_write 4 (p + PORT_SERR) _ _). change d4 with (based (F * PAGE_SIZE) (F * PAGE_SIZE + 0x400) (m_dev m)). clear d4.
  match goal with |- context [reg_set _ CMD_FRE ?x] => change x with (with_dev (based (F * PAGE_SIZE) (F * PAGE_SIZE + 0x400) (m_dev m)) m); set (m4 := with_dev (based _ _ _) m) end.
  destruct (based_spec (F * PAGE_SIZE) (F * PAGE_SIZE + 0x400) (m_dev m) Ho) as (Ho4 & R1 & R2 & R3 & R4);
    [unfold PAGE_SIZE; lia..|unfold PAGE_SIZE; Z.div_mod_to_equations; lia|unfold PAGE_SIZE; Z.div_mod_to_equations; lia|].
  destruct (start_spec F m4) as (T1 & T & A5 & Hrun); [done..|]. rewrite reg_set_port by done. res_step.
  rewrite reg_set_port by (eapply touched_seen; [done..|exact T1|done]). res_step.
  set (m5 := wait_ms 1 (cmd_set CMD_ST _)) in *. clearbody m5.
  rewrite (reg_read_port p sector Hp0) by ((eapply touched_seen; [done..|exact T|done]) || done). res_step.
  exists m5. split; [|done]. by destruct (as_sig (m_dev m5)) as [->| ->].
Qed.

(** [init_port] leaves the port ready, with its page in a frame that was free.  A disk does
    not have one of the two signatures it looks for, so it answers that there is none. *)
Lemma init_port_ready port_no m :
  memory_ok (m_vm m) → seen p (m_vm m) → port_off (preg (m_dev m)) → hba (m_ahci m) + 0x100 + port_no * 0x80 = p →
  ensures_frames 4 (fa (m_vm m)) (init_port port_no m) (λ '(m', ok), ok = false ∧ ∃ F, fa_used (fa (m_vm m)) F = false ∧ ready Q p sector F m' ∧
    extends Q (get_pml4 (m_vm m)) (m_vm m) (m_vm m') ∧
    (∀ v, 0 ≤ v < 2 ^ 47 → v / PAGE_SIZE ≠ F → virt_to_phys v (m_vm m') = virt_to_phys v (m_vm m)) ∧
    ∀ n, fewer n (fa (m_vm m')) → fewer (n + 4) (fa (m_vm m))).
Proof using All.
  intros Hok Hs Ho Hp. unfold init_port. rewrite Hp. set (m0 := with_ahci (with_port p (m_ahci m)) m).
  destruct (stop_off m0 Hs Ho) as (m1 & -> & [V1 A1 Ho1]). res_step. unfold port_wait_clear.
  destruct (wait_clear_off (Z.to_nat 100000) CMD_CR m1) as (m2 & -> & W2); [by rewrite V1|done|]. res_step.
  pose proof (quiet_off _ _ W2 Ho1) as Ho2. destruct W2 as [V2 A2 _].
  assert (m_vm m2 = m_vm m) as V by (by rewrite V2, V1). assert (m_ahci m2 = with_port p (m_ahci m)) as Ea by (by rewrite A2, A1).
  clear V1 A1 Ho1 V2 A2. rewrite V. apply (port_page_then _ _ port_start); [done|]. intros F m3 HuF Hopen Hok3 X D3 A3 Hout Hfew. rewrite Ea in A3.
  destruct (port_start_spec F m3 Hopen) as (m5 & -> & T & A5 & Hrun); [by eapply seen_after|by rewrite D3|by rewrite A3..|]. rewrite A3 in A5.
  cbn [ensures_frames]. split; [reflexivity|]. exists F. split; [done|].
  pose proof (touched_pml4 _ _ _ _ T) as R5. pose proof (extends_pml4 Q _ _ _ X) as R6.
  assert (∀ v, 0 ≤ v < 2 ^ 47 → virt_to_phys v (m_vm m5) = virt_to_phys v (m_vm m3)) as W5 by apply T.
  pose proof (id_frame _ _ _ (proj2 Hopen)) as HF. unfold NUM_FRAMES in HF. split; [|split; [|split]].
  - split; [by rewrite A5|rewrite A5; by split| | | |exact Hrun|].
    + split; [rewrite R5; apply T|]. eapply touched_ident; [exact T|apply Hopen].
    + eapply touched_seen; [done..|exact T|by eapply seen_after].
    + rewrite (proj2 (tc_regs _ _ _ _ T)). apply Hok3.
    + intros x Hx. rewrite (proj2 (tc_regs _ _ _ _ T)). intros Hux. rewrite W5; [by apply Hok3|].
      unfold frame_of, NUM_FRAMES, PAGE_SIZE in *; Z.div_mod_to_equations; lia.
  - split.
    + rewrite <-R6. apply T.
    + rewrite (proj1 (tc_regs _ _ _ _ T)). apply X.
    + intros f Hf. rewrite (proj2 (tc_regs _ _ _ _ T)). by apply X.
    + intros f Hf. rewrite <-R6. apply T. rewrite R6. by apply X.
    + intros x Hx. rewrite (tc_mem _ _ _ _ T); [by apply X|]. intros E. destruct Hx as [Hx _]. congruence.
  - intros v Hv Hne. rewrite W5 by done. by apply Hout.
  - intros n. rewrite (proj2 (tc_regs _ _ _ _ T)). apply Hfew.
Qed.

(** ** Finding the controller *)

Context (abar pi : Z) `{!AhciController D abar pi p sector, !PciBus D}.

(** The bus, seen from the whole machine. *)
#[local] Instance mach_bus : PciBus (Mach A D).
Proof using PciBus0.
  refine {| config m := config (m_dev m) |}. intros addr m Ha. destruct (config_read addr (m_dev m) Ha) as (d' & E & Ec).
  exists (with_dev d' m). unfold inl, outl in *. cbn in *. rewrite E. split; [done|exact Ec].
Defined.

(** The port that is set up is the first one implemented. *)
Definition first_of (pi k : Z) : Prop := 0 ≤ k < 32 ∧ Z.testbit pi k = true ∧ ∀ j, 0 ≤ j < k → Z.testbit pi j = false.

Lemma first_port_spec k n i m :
  first_of pi k → 0 ≤ i ≤ k → k < i + Z.of_nat n →
  first_port n i pi m = ('(m, ok) ← init_port k m; if ok : bool then send_identify m else Ok m).
Proof using Type.
  intros (Hk & Hset & Hlow). revert i. induction n as [|n IH]; intros i Hi Hn; [lia|]. cbn [first_port]. rewrite bit_test, negb_involutive by lia.
  destruct (decide (i = k)) as [->|Hne]; [by rewrite Hset|]. rewrite Hlow by lia. apply IH; lia.
Qed.

(** The registers of the controller are mapped to themselves. *)
Definition hba_seen s : Prop := ∀ o, 0 ≤ o < PAGE_SIZE → virt_to_phys (abar + o) s = abar + o.

Context (Habar : 0 ≤ abar < 2 ^ 47) (Haligned : abar `mod` PAGE_SIZE = 0).

(** A write to the global control register, whether it resets the controller or not. *)
Lemma ghc_write_idle v m : port_off (preg (m_dev m)) → idle m (with_dev (mmio_write 4 (abar + HBA_GHC) v (m_dev m)) m).
Proof using AhciController0.
  intros Ho. split; [done|done|]. cbn [m_dev with_dev]. destruct (Z.testbit v 0) eqn:E; [by apply ac_ghc_reset|].
  eapply port_off_same; [by apply ac_ghc_write|done].
Qed.

Lemma ghc_set_idle mask m : hba_seen (m_vm m) → port_off (preg (m_dev m)) → ∃ m', reg_set (abar + HBA_GHC) mask m = Ok m' ∧ idle m m'.
Proof using AhciController0 Habar.
  intros Hs Ho. unfold reg_set, reg_read, reg_write. cbv zeta. rewrite !Hs, (proj2 (Z.eqb_neq _ 0)) by (unfold HBA_GHC, PAGE_SIZE; lia).
  cbn [mmio_read mach_hardware]. destruct (ac_ghc_read (m_dev m)) as [v ->]. res_step.
  replace (with_dev (m_dev m) m) with m by (by destruct m).
  rewrite !Hs, (proj2 (Z.eqb_neq _ 0)) by (unfold HBA_GHC, PAGE_SIZE; lia). eexists. split; [done|]. by apply ghc_write_idle.
Qed.

Lemma ghc_clear_idle mask m : hba_seen (m_vm m) → port_off (preg (m_dev m)) → ∃ m', reg_clear (abar + HBA_GHC) mask m = Ok m' ∧ idle m m'.
Proof using AhciController0 Habar.
  intros Hs Ho. unfold reg_clear, reg_read, reg_write. cbv zeta. rewrite !Hs, (proj2 (Z.eqb_neq _ 0)) by (unfold HBA_GHC, PAGE_SIZE; lia).
  cbn [mmio_read mach_hardware]. destruct (ac_ghc_read (m_dev m)) as [v ->]. res_step.
  replace (with_dev (m_dev m) m) with m by (by destruct m).
  rewrite !Hs, (proj2 (Z.eqb_neq _ 0)) by (unfold HBA_GHC, PAGE_SIZE; lia). eexists. split; [done|]. by apply ghc_write_idle.
Qed.

Lemma idle_wait ms m m' : idle m m' → idle m (wait_ms ms m').
Proof using AhciStart0.
  intros I1. pose proof (wait_ms_off ms m' (il_off _ _ I1)) as Hq. exact (idle_trans _ _ _ I1 (quiet_idle _ _ (il_off _ _ I1) Hq)).
Qed.

Lemma idle_seen m m' : idle m m' → hba_seen (m_vm m) → hba_seen (m_vm m').
Proof using Type. intros I1. by rewrite (il_vm _ _ I1). Qed.

(** Enabling, resetting and enabling the controller again. *)
Lemma controller_reset {B} (rest : Mach A D → Res B) H' R m :
  hba_seen (m_vm m) → port_off (preg (m_dev m)) → (∀ m', hba_seen (m_vm m') → idle m m' → ensures_or H' (rest m') R) →
  ensures_or H' (m ← reg_set (abar + HBA_GHC) GHC_AE m;
    let m := wait_ms 10 m in
    m ← reg_set (abar + HBA_GHC) GHC_HR m;
    let m := wait_ms 100 m in
    m ← reg_clear (abar + HBA_GHC) GHC_HR m;
    let m := wait_ms 10 m in
    m ← reg_set (abar + HBA_GHC) GHC_AE m;
    rest m) R.
Proof using AhciController0 AhciStart0 Habar.
  intros Hs Ho Hrest. cbv zeta.
  destruct (ghc_set_idle GHC_AE m Hs Ho) as (x1 & -> & I1%(idle_wait 10)). res_step.
  destruct (ghc_set_idle GHC_HR (wait_ms 10 x1) (idle_seen _ _ I1 Hs) (il_off _ _ I1)) as (x2 & -> & I2%(idle_wait 100)). res_step.
  pose proof (idle_trans _ _ _ I1 I2) as I12.
  destruct (ghc_clear_idle GHC_HR (wait_ms 100 x2) (idle_seen _ _ I12 Hs) (il_off _ _ I12)) as (x3 & -> & I3%(idle_wait 10)). res_step.
  pose proof (idle_trans _ _ _ I12 I3) as I13.
  destruct (ghc_set_idle GHC_AE (wait_ms 10 x3) (idle_seen _ _ I13 Hs) (il_off _ _ I13)) as (x4 & -> & I4). res_step.
  pose proof (idle_trans _ _ _ I13 I4) as I14. by apply Hrest; [eapply idle_seen|].
Qed.

(** ** Bringing it up *)

Context (cfg : Z → Z) (k : Z) (Hfirst : first_of pi k) (Hp : abar + 0x100 + k * 0x80 = p) (Hk : k < 30).
(** The AHCI function of the bus has its registers at [abar]. *)
Context (Hbar : ∀ b d f, 0 ≤ b < 256 → 0 ≤ d < 32 → 0 ≤ f < 8 → is_ahci (cfg_device cfg b d f) = true → cfg_bar cfg b d f 5 = abar).

(** The machine at boot, up to what reading the configuration space does to the devices. *)
Record booted m0 m : Prop := {
  bt_quiet : quiet m0 m;
  bt_cfg : config m = cfg;
}.

(** The disk is ready in [m'], with a command page that was free in [m0]; nothing that
    was in use changed but the mapping of the page of the registers. *)
Record disk_ready m0 m' (F : Z) : Prop := {
  dr_fresh : fa_used (fa (m_vm m0)) F = false;
  dr_ready : ready Q p sector F m';
  dr_used f : fa_used (fa (m_vm m0)) f = true → fa_used (fa (m_vm m')) f = true;
  dr_mem x : data_frame Q (get_pml4 (m_vm m0)) (m_vm m0) (frame_of x) → pm (m_vm m') x = pm (m_vm m0) x;
  dr_frames n : fewer n (fa (m_vm m')) → fewer (n + 7) (fa (m_vm m0));
  dr_walk v : 0 ≤ v < 2 ^ 47 → v / PAGE_SIZE ≠ F → v / PAGE_SIZE ≠ abar / PAGE_SIZE →
    virt_to_phys v (m_vm m') = virt_to_phys v (m_vm m0);
}.

Lemma booted_read m0 m m' addr v : 0 ≤ addr < 2 ^ 32 → booted m0 m → inl CONFIG_DATA (outl CONFIG_ADDR addr m) = (m', v) → booted m0 m'.
Proof using AhciController0.
  intros Ha [Hq Hc] E. split.
  - etrans; [exact Hq|]. pose proof (ac_pci addr (m_dev m)) as P. unfold inl, outl in *. cbn in E.
    destruct (port_in _ _ _) as [d' w] eqn:Ed. injection E as <- <-. by split.
  - destruct (config_read addr m Ha) as (m1 & E1 & Ec). rewrite E in E1. injection E1 as -> _. by rewrite Ec.
Qed.

Lemma init_controller_ready m0 m b dv f :
  memory_ok (m_vm m0) → port_off (preg (m_dev m0)) → booted m0 m → 0 ≤ b < 256 → 0 ≤ dv < 32 → 0 ≤ f < 8 →
  let d := cfg_device cfg b dv f in
  ensures_frames 7 (fa (m_vm m0)) (init_controller d m) (λ '(m', stop), stop = is_ahci d ∧ if is_ahci d then ∃ F, disk_ready m0 m' F else booted m0 m').
Proof using All.
  intros Hok Ho Hb H1' H2' H3'. cbn zeta. unfold init_controller. destruct (is_ahci _) eqn:Ei; [|by split].
  cbn [bus device function cfg_device].
  destruct (get_bar_spec cfg (booted m0) (bt_cfg m0) (booted_read m0) b dv f 5 m Hb H1' H2' H3' ltac:(lia)) as (m1 & -> & [[V1 A1 P1] _]).
  rewrite Hbar by done. rewrite V1.
  eapply ensures_or_bind; [eapply ensures_or_mono; [by apply (identity_keeps abar MMIO_FLAGS (m_vm m0))|by apply fewer_weaken; lia|intros s HP; exact HP]|].
  intros s (Hok' & X & W & Hf). pose proof (port_off_same _ _ P1 Ho) as Ho1. assert (hba_seen s) as Hs.
  { intros o Hoo. rewrite W, decide_True; [done| |]; unfold PAGE_SIZE in *; Z.div_mod_to_equations; lia. }
  apply controller_reset; [done|done|]. intros m3 Hs3 [V3 A3 Ho3]. cbn [with_ahci with_vm m_vm m_ahci] in V3, A3.
  assert (reg_read (abar + HBA_PI) m3 = Ok (m3, pi)) as ->.
  { unfold reg_read. cbv zeta. rewrite !Hs3, (proj2 (Z.eqb_neq _ 0)) by (unfold HBA_PI, PAGE_SIZE; lia). cbn [mmio_read mach_hardware]. rewrite ac_pi. by destruct m3. }
  res_step. rewrite (first_port_spec k) by (done || destruct Hfirst; lia). rewrite !bind_assoc. rewrite <-V3 in X, W, Hok', Hf.
  assert (seen p (m_vm m3)) as Hsp.
  { intros o Hoo. rewrite <-Hp. replace (abar + 256 + k * 128 + o) with (abar + (256 + k * 128 + o)) by lia. apply Hs3. destruct Hfirst. unfold PAGE_SIZE. lia. }
  eapply ensures_or_bind; [eapply ensures_or_mono; [apply (init_port_ready k m3 Hok' Hsp Ho3); by rewrite A3|exact (Hf 4%nat)|intros ? HP; exact HP]|].
  intros [m4 ok] (-> & F & HuF & R & X4 & W4 & Hf4). cbn [mbind res_bind ensures_or]. split; [done|]. exists F.
  pose proof (extends_pml4 Q _ _ _ X) as R3. rewrite R3 in X4. pose proof (extends_trans _ _ _ _ _ X X4) as X5. split.
  - destruct (fa_used (fa (m_vm m0)) F) eqn:E; [|done]. apply (x_used _ _ _ _ X) in E. congruence.
  - exact R.
  - apply X5.
  - apply X5.
  - intros n Hn. replace (n + 7)%nat with (n + 4 + 3)%nat by lia. by apply Hf, Hf4.
  - intros v Hv HF Hn. rewrite W4 by done. rewrite W by done. by rewrite decide_False.
Qed.

(** [ahci_init] finds the controller if there is one, and brings its first port up. *)
Lemma ahci_init_ready m :
  memory_ok (m_vm m) → port_off (preg (m_dev m)) → config (m_dev m) = cfg →
  ensures_frames 7 (fa (m_vm m)) (ahci_init m) (λ '(m', found),
    found = bool_decide (Exists (λ d, is_ahci d = true) (pci_devices cfg)) ∧
    if found then ∃ F, disk_ready m m' F else quiet m m').
Proof using All.
  intros Hok Ho Hc. unfold ahci_init.
  pose proof (enumerate_spec cfg (booted m) is_ahci (λ _ m', ∃ F, disk_ready m m' F) init_controller (fewer 7 (fa (m_vm m))) (bt_cfg m) (booted_read m)
    (λ b dv f x Hb Hd Hf HJ, init_controller_ready m x b dv f Hok Ho HJ Hb Hd Hf) m) as E.
  unfold scanned in E. eapply ensures_or_mono; [apply E; split; [reflexivity|exact Hc]|done|]. clear E. intros [m' found].
  destruct (find is_ahci (pci_devices cfg)) as [d|] eqn:Ef; intros [-> Hm].
  - split; [|done]. symmetry. apply bool_decide_eq_true. apply find_some in Ef as [Hin Hd]. apply Exists_exists. exists d. split; [by apply list_elem_of_In|done].
  - split; [|apply Hm]. symmetry. apply bool_decide_eq_false. intros (d & Hin & Hd)%Exists_exists. apply list_elem_of_In in Hin.
    by rewrite (find_none _ _ Ef d Hin) in Hd.
Qed.

End init.
