(* ===== verification/AhciDisk.v ===== *)
(** * From boot to the sectors of a disk

    The driver as the file systems use it: it is initialised once and then asked for
    sectors.  What it promises is what a disk is: the bytes of the sectors asked for, in
    order.  A concrete controller shows that the laws asked of one can hold. *)

From S2P Require Import Prelude Mem Frames Pmm Vmm PageTable UserPages ElfSpec UserMem Hardware Apic Pci Ahci AhciSpec AhciInit.

Section disk.
Context {A D : Type} `{FrameAllocLaws A, Hardware D, Dma D}.
Implicit Types (m : Mach A D) (reqs : list (Z * Z)).

(** Requests of the file systems, one after the other: a first sector and a count each. *)
Fixpoint read_all reqs m : Res (Mach A D * list (bool * list Z)) :=
  match reqs with
  | [] => Ok (m, [])
  | (lba, count) :: reqs =>
      '(m, r) ← read_sectors lba count m;
      '(m, rs) ← read_all reqs m;
      Ok (m, r :: rs)
  end.

(** A request that the command's 48 bits of address and the counter's 32 can express. *)
Definition in_range (r : Z * Z) : Prop := 0 ≤ r.1 ∧ 0 < r.2 < 2 ^ 32 ∧ r.1 + r.2 ≤ 2 ^ 48.

Context (Q : Z → Prop) (HQ : ∀ va, 0 ≤ va < 2 ^ 47 → Q (pml4_idx va)).
Context (p : Z) (sector : Z → list Z) `{!AhciPort D p sector, !AhciStart D p sector}.

Lemma read_all_spec F reqs m :
  0 < p → p + 0x80 ≤ 2 ^ 47 → ready Q p sector F m → Forall in_range reqs →
  ensures_frames 1 (fa (m_vm m)) (read_all reqs m)
    (λ '(m', rs), rs = (λ r, (true, sectors sector r.1 r.2)) <$> reqs ∧ ready Q p sector F m' ∧ undisturbed F m m').
Proof using HQ H0.
  intros Hp Hp47 R Hr. revert m R. induction Hr as [|[lba n] reqs (H1' & H2' & H3') _ IH]; intros m R; cbn [read_all fst snd] in *.
  { split; [done|]. split; [done|apply undisturbed_refl]. }
  eapply ensures_frames_bind; [by apply (read_sectors_spec Q HQ p sector Hp Hp47 F lba n m R)|]. intros [m1 r] (-> & R1 & U1).
  eapply ensures_or_bind; [eapply ensures_or_mono; [by apply IH|apply fewer_used, U1|intros x HP; exact HP]|].
  intros [m2 rs] (-> & R2 & U2). cbn [ensures_or]. split; [done|]. split; [done|by eapply undisturbed_trans].
Qed.

Context (abar pi k : Z) (cfg : Z → Z) `{!AhciController D abar pi p sector, !PciBus D}.

(** C23. From boot to the bytes of the disk.  On a machine with an AHCI controller on the
    bus and a disk on its first port, which is one of the 30 whose registers are in the page
    the driver maps, [ahci_init] finds it whatever else the bus holds, without touching a
    register that is not mapped, and after that every request of at most 2^32 - 1 sectors
    within 48 bits of address gives exactly the sectors asked for, in order, however many
    commands it takes.  Nothing that was in use before, the tables apart, changes in memory.
    The driver stops only when fewer than 8 frames were free. *)
Theorem disk_reads_sectors reqs m :
  first_of pi k → k < 30 → abar + 0x100 + k * 0x80 = p → 0 ≤ abar < 2 ^ 47 → abar `mod` PAGE_SIZE = 0 →
  (∀ b d f, 0 ≤ b < 256 → 0 ≤ d < 32 → 0 ≤ f < 8 → is_ahci (cfg_device cfg b d f) = true → cfg_bar cfg b d f 5 = abar) →
  Exists (λ d, is_ahci d = true) (pci_devices cfg) →
  memory_ok Q (m_vm m) → port_off (preg (m_dev m)) → config (m_dev m) = cfg → Forall in_range reqs →
  ensures_frames 8 (fa (m_vm m)) ('(m, found) ← ahci_init m; '(m, rs) ← read_all reqs m; Ok (m, found, rs)) (λ '(m', found, rs),
    found = true ∧ rs = (λ r, (true, sectors sector r.1 r.2)) <$> reqs ∧
    ∀ x, 0 ≤ frame_of x < NUM_FRAMES → fa_used (fa (m_vm m)) (frame_of x) = true → data_frame Q (get_pml4 (m_vm m)) (m_vm m) (frame_of x) →
      pm (m_vm m') x = pm (m_vm m) x).
Proof using All.
  intros Hk Hk30 Hp Habar Hal Hbar Hex Hok Hoff Hcfg Hreqs.
  assert (0 < p ∧ p + 0x80 ≤ 2 ^ 47) as [Hp0 Hp47] by (destruct Hk as [? _]; unfold PAGE_SIZE in Hal; Z.div_mod_to_equations; lia).
  eapply ensures_or_bind; [eapply ensures_or_mono; [by apply (ahci_init_ready Q HQ p sector Hp0 Hp47 abar pi Habar Hal cfg k Hk Hp Hk30 Hbar)|by apply fewer_weaken; lia|intros x HP; exact HP]|].
  intros [m1 found] [-> Hm1].
  rewrite bool_decide_eq_true_2 in Hm1 |- * by done. destruct Hm1 as [F [Hfresh R Hused Hmem Hfew _]].
  eapply ensures_or_bind; [eapply ensures_or_mono; [by apply (read_all_spec F reqs m1)|exact (Hfew 1%nat)|intros x HP; exact HP]|].
  intros [m2 rs] (-> & _ & U). cbn [ensures_or]. split; [done|]. split; [done|].
  intros x Hx Hu Hd. rewrite (un_mem _ _ _ U); [by apply Hmem|by apply Hused|done|]. intros E. by rewrite E, Hfresh in Hu.
Qed.

End disk.

(** ** A disk *)

(** The registers of one port, and the address latched for the configuration space. *)
Record Disk := MkDisk { d_reg : Z → Z; d_latch : Z }.

Definition DISK_ABAR : Z := 0xFEBF1000.
Definition DISK_PORT : Z := DISK_ABAR + 0x100.

Definition disk_sector (lba : Z) : list Z := replicate 512 (u8 lba).

(** Function 0 of device 0 on bus 0 is an AHCI controller; nothing else answers. *)
Definition disk_cfg (addr : Z) : Z :=
  if addr =? make_addr 0 0 0 0 then 0x29228086 else
  if addr =? make_addr 0 0 0 0x08 then 0x01060102 else
  if addr =? make_addr 0 0 0 0x24 then DISK_ABAR else 0xFFFFFFFF.

Definition set_reg (o v : Z) (d : Disk) : Disk := MkDisk (λ o', if decide (o' = o) then v else d_reg d o') (d_latch d).

Definition disk_reg (d : Disk) (o : Z) : Z := if decide (o = PORT_SIG) then 0x101 else d_reg d o.

Definition disk_read (a : Z) (d : Disk) : Z :=
  if (DISK_PORT <=? a) && (a <? DISK_PORT + 0x80) then disk_reg d (a - DISK_PORT)
  else if a =? DISK_ABAR + HBA_PI then 1 else 0.

(** Ones clear the interrupt status and set bits of the command issue register; bit 0 of the
    global control register clears all registers of the port. *)
Definition disk_write (a v : Z) (d : Disk) : Disk :=
  let o := a - DISK_PORT in
  if decide (o ∈ PORT_CMD :: BASES) then set_reg o v d else
  if decide (o = PORT_IS) then set_reg o (Z.ldiff (u32 (d_reg d o)) v) d else
  if decide (o = PORT_CI) then set_reg o (Z.lor (d_reg d o) v) d else
  if decide (a = DISK_ABAR + HBA_GHC) then (if Z.testbit v 0 then MkDisk (λ _, 0) (d_latch d) else d) else d.

#[export] Instance disk_hardware : Hardware Disk := {
  mmio_read _ a d := (d, disk_read a d);
  mmio_write _ a v d := disk_write a v d;
  port_in _ p d := (d, if p =? CONFIG_DATA then disk_cfg (d_latch d) else 0);
  port_out _ p v d := if p =? CONFIG_ADDR then MkDisk (d_reg d) v else d;
  read_msr _ _ := 0;
  write_msr _ _ d := d;
}.

(** A device-to-host register FIS. *)
Definition disk_fis : list Z := 0x34 :: replicate 19 0.

(** The command in slot 0 is carried out at once. *)
#[export] Instance disk_dma : Dma Disk := λ d m,
  if Z.testbit (d_reg d PORT_CI) 0 then
    let clb := d_reg d PORT_CLBL in
    let t := load 4 m (clb + 8) in
    let lba := m (t + 4) + 2 ^ 8 * m (t + 5) + 2 ^ 16 * m (t + 6) + 2 ^ 24 * m (t + 8) + 2 ^ 32 * m (t + 9) + 2 ^ 40 * m (t + 10) in
    let n := m (t + 12) + 2 ^ 8 * m (t + 13) in
    (set_reg PORT_CI (Z.ldiff (d_reg d PORT_CI) 1) (set_reg PORT_IS (Z.lor (d_reg d PORT_IS) 1) d),
     store_bytes (store_bytes (store_bytes m (load 4 m (t + 0x80)) (sectors disk_sector lba n)) (clb + 4) (le_bytes 4 (512 * n)))
       (d_reg d PORT_FBL) disk_fis)
  else (d, m).

Lemma set_reg_eq o v d : o ≠ PORT_SIG → disk_reg (set_reg o v d) o = v.
Proof. intros Ho. unfold disk_reg. rewrite decide_False by done. cbn. by rewrite decide_True. Qed.

Lemma set_reg_ne o o' v d : o' ≠ o → disk_reg (set_reg o v d) o' = disk_reg d o'.
Proof. intros Ho. unfold disk_reg. case_decide; [done|]. cbn. by rewrite decide_False. Qed.

Lemma disk_write_base o v d : o ∈ PORT_CMD :: BASES → disk_write (DISK_PORT + o) v d = set_reg o v d.
Proof. intros Ho. unfold disk_write. rewrite Z.add_simpl_l. by rewrite decide_True. Qed.

Lemma disk_write_is v d : disk_write (DISK_PORT + PORT_IS) v d = set_reg PORT_IS (Z.ldiff (u32 (d_reg d PORT_IS)) v) d.
Proof. reflexivity. Qed.

Lemma disk_write_ci v d : disk_write (DISK_PORT + PORT_CI) v d = set_reg PORT_CI (Z.lor (d_reg d PORT_CI) v) d.
Proof. reflexivity. Qed.

Lemma base_cases o : o ∈ BASES → o = PORT_CLBL ∨ o = PORT_CLBH ∨ o = PORT_FBL ∨ o = PORT_FBH.
Proof. unfold BASES. set_solver. Qed.

(** The controller fetches exactly the command that lies there. *)
Lemma disk_dma_run d m clb fb lba n dba :
  running (disk_reg d) clb fb → fetches m clb lba n dba →
  let '(d', m') := dma (disk_write (DISK_PORT + PORT_CI) 1 d) m in
  (∀ o, o ≠ PORT_CI → o ≠ PORT_IS → disk_reg d' o = disk_reg d o) ∧ disk_reg d' PORT_IS = Z.lor (disk_reg d PORT_IS) 1 ∧
  Z.testbit (disk_reg d' PORT_CI) 0 = false ∧
  m' = store_bytes (store_bytes (store_bytes m dba (sectors disk_sector lba n)) (clb + 4) (le_bytes 4 (512 * n))) fb disk_fis.
Proof.
  intros (R1 & R2 & R3 & R4 & R5 & R6 & R7) [F1 F2 F3 F4 F5 F6 F7 (F8 & F9 & F10)]. cbn zeta in *. rewrite disk_write_ci.
  change (disk_reg d PORT_CLBL) with (d_reg d PORT_CLBL) in R1. change (disk_reg d PORT_FBL) with (d_reg d PORT_FBL) in R3.
  unfold dma, disk_dma. change (d_reg (set_reg PORT_CI ?v d) PORT_CI) with v. rewrite Z.lor_spec. change (Z.testbit 1 0) with true. rewrite orb_true_r.
  change (d_reg (set_reg PORT_CI ?v d) PORT_CLBL) with (d_reg d PORT_CLBL). change (d_reg (set_reg PORT_CI ?v d) PORT_FBL) with (d_reg d PORT_FBL).
  rewrite R1, R3, F6, F7, F8. split_and!; [|done| |done].
  - intros o H1 H2. by rewrite !set_reg_ne.
  - rewrite set_reg_eq by done. rewrite Z.ldiff_spec. change (Z.testbit 1 0) with true. by rewrite andb_false_r.
Qed.

#[export] Instance disk_ahci_port : AhciPort Disk DISK_PORT disk_sector.
Proof.
  refine {| preg := disk_reg |}.
  - intros lba. unfold zlen, disk_sector. by rewrite length_replicate.
  - intros o d Ho. cbn [mmio_read disk_hardware]. unfold disk_read.
    rewrite (proj2 (Z.leb_le _ _)), (proj2 (Z.ltb_lt _ _)) by lia. cbn [andb]. by rewrite Z.add_simpl_l.
  - intros d o Ho. cbn [mmio_write disk_hardware]. rewrite disk_write_is. by apply set_reg_ne.
  - intros d. cbn [mmio_write disk_hardware]. rewrite disk_write_is, set_reg_eq by done. unfold ALL_ONES, u32.
    change 0xFFFFFFFF with (Z.ones 32). rewrite Z.ldiff_ones_r by done. rewrite Z.shiftr_div_pow2 by done.
    by rewrite Z.div_small by (apply Z.mod_pos_bound; done).
  - intros d m clb fb lba n dba Hr Hz Hf Hn. exists 1%nat, disk_fis. cbn zeta. cbn [mmio_write disk_hardware].
    pose proof (disk_dma_run d m clb fb lba n dba Hr Hf) as E. unfold devices_run. cbn [Nat.iter nat_rect].
    destruct (dma (disk_write (DISK_PORT + PORT_CI) 1 d) m) as [d' m']. destruct E as (E1 & E2 & E3 & ->).
    split; [done|]. split; [done|]. split; [|split; [|split]].
    + intros j Hj. assert (j = 0%nat) as -> by lia. cbn [Nat.iter nat_rect fst]. rewrite disk_write_ci, set_reg_eq by done.
      split; [|done]. rewrite Z.lor_spec. change (Z.testbit 1 0) with true. apply orb_true_r.
    + destruct Hr as (R1 & R2 & R3 & R4 & R5 & R6 & R7). unfold running. cbn [fst]. rewrite !E1 by done. by split_and!.
    + cbn [fst]. by rewrite E2, Hz.
    + done.
Defined.

#[export] Instance disk_ahci_start : AhciStart Disk DISK_PORT disk_sector.
Proof.
  split.
  - intros o v d Ho _ _. cbn [mmio_write disk_hardware preg disk_ahci_port]. rewrite disk_write_base by set_solver.
    assert (PORT_CMD ≠ o ∧ PORT_CI ≠ o ∧ o ≠ PORT_SIG) as (H1 & H2 & H3) by (by destruct (base_cases o Ho) as [->|[->|[->| ->]]]).
    rewrite !(set_reg_ne o) by done. split_and!; [|done..]. intros o' _.
    case_decide as Hd; [by rewrite Hd, set_reg_eq|by rewrite set_reg_ne].
  - intros d. reflexivity.
  - intros v d Hc. cbn [mmio_write disk_hardware preg disk_ahci_port] in *. rewrite disk_write_base by set_solver.
    rewrite set_reg_eq by done. rewrite (set_reg_ne PORT_CMD PORT_CI) by done. split_and!; [|done..].
    intros o Ho. apply set_reg_ne. by destruct (base_cases o Ho) as [->|[->|[->| ->]]].
  - intros d m Hc. unfold dma, disk_dma. change (d_reg d PORT_CI) with (preg d PORT_CI). rewrite Hc. cbn [fst snd]. split; [reflexivity|].
    destruct (Z.testbit _ 4); [|done]. exists []. split; [done|]. intros x. symmetry. apply store_bytes_outside. change (zlen []) with 0. lia.
  - intros d. by left.
Qed.

#[export] Instance disk_ahci_controller : AhciController Disk DISK_ABAR 1 DISK_PORT disk_sector.
Proof.
  split; [by eexists| | |reflexivity|reflexivity].
  - intros v d Hv. cbn [mmio_write disk_hardware]. unfold disk_write. change (decide (DISK_ABAR + HBA_GHC = DISK_ABAR + HBA_GHC)) with (left (B := DISK_ABAR + HBA_GHC ≠ DISK_ABAR + HBA_GHC) (eq_refl (DISK_ABAR + HBA_GHC))).
    rewrite Hv. reflexivity.
  - intros v d Hv. cbn [mmio_write disk_hardware]. unfold disk_write. rewrite Hv. by split.
Qed.

#[export] Instance disk_pci_bus : PciBus Disk.
Proof.
  refine {| config _ := disk_cfg |}. intros addr d Ha. eexists. split; [|reflexivity]. unfold inl, outl, u32.
  rewrite Z.mod_small by done. reflexivity.
Defined.

(** Its place on the bus. *)
Lemma make_addr_zero b d f o : 0 ≤ b < 256 → 0 ≤ d < 32 → 0 ≤ f < 8 → make_addr b d f o = make_addr 0 0 0 o → b = 0 ∧ d = 0 ∧ f = 0.
Proof.
  intros Hb Hd Hf E. assert (∀ i, Z.testbit (make_addr b d f o) i = Z.testbit (make_addr 0 0 0 o) i) as Ei by (by rewrite E).
  unfold make_addr in Ei. change 0x80000000 with (2 ^ 31) in Ei.
  assert (∀ n i, 8 ≤ n → 0 ≤ i → n + i < 31 → Z.testbit (Z.shiftl b 16) (n + i) || Z.testbit (Z.shiftl d 11) (n + i) || Z.testbit (Z.shiftl f 8) (n + i) = false) as Hbits.
  { intros n i Hn Hi Hlt. specialize (Ei (n + i)). rewrite !Z.lor_spec in Ei. rewrite (Z.land_spec o), (testbit_high 0xFC 8 (n + i)), andb_false_r in Ei by lia.
    rewrite testbit_pow2, (proj2 (Z.eqb_neq (n + i) 31)) in Ei by lia. rewrite !Z.shiftl_0_l, !Z.bits_0 in Ei. cbn [orb] in Ei. by rewrite orb_false_r in Ei. }
  split_and!; apply Z_bits_ext; intros i Hi; rewrite Z.bits_0.
  - destruct (decide (8 ≤ i)); [by apply (testbit_high _ 8)|]. specialize (Hbits 16 i ltac:(lia) Hi ltac:(lia)).
    apply orb_false_iff in Hbits as [[Hx _]%orb_false_iff _]. by rewrite Z.shiftl_spec, Z.add_simpl_l in Hx by lia.
  - destruct (decide (5 ≤ i)); [by apply (testbit_high _ 5)|]. specialize (Hbits 11 i ltac:(lia) Hi ltac:(lia)).
    apply orb_false_iff in Hbits as [[_ Hx]%orb_false_iff _]. by rewrite Z.shiftl_spec, Z.add_simpl_l in Hx by lia.
  - destruct (decide (3 ≤ i)); [by apply (testbit_high _ 3)|]. specialize (Hbits 8 i ltac:(lia) Hi ltac:(lia)).
    apply orb_false_iff in Hbits as [_ Hx]. by rewrite Z.shiftl_spec, Z.add_simpl_l in Hx by lia.
Qed.

Lemma disk_bar b d f :
  0 ≤ b < 256 → 0 ≤ d < 32 → 0 ≤ f < 8 → is_ahci (cfg_device disk_cfg b d f) = true → cfg_bar disk_cfg b d f 5 = DISK_ABAR.
Proof.
  intros Hb Hd Hf Hi. assert (b = 0 ∧ d = 0 ∧ f = 0) as (-> & -> & ->); [|reflexivity].
  destruct (decide (make_addr b d f 8 = make_addr 0 0 0 8)) as [E|Hne]; [by apply (make_addr_zero b d f 8)|].
  unfold is_ahci, cfg_device, cfg_reg in Hi. cbn [class_code subclass prog_if] in Hi. revert Hi. unfold disk_cfg at 1 2 3.
  rewrite (proj2 (Z.eqb_neq _ (make_addr 0 0 0 8))) by done.
  destruct (make_addr b d f 8 =? make_addr 0 0 0 0); [discriminate|]. destruct (make_addr b d f 8 =? make_addr 0 0 0 0x24); discriminate.
Qed.

Lemma disk_found : Exists (λ d, is_ahci d = true) (pci_devices disk_cfg).
Proof.
  apply Exists_exists. exists (cfg_device disk_cfg 0 0 0). split; [|reflexivity].
  unfold pci_devices. apply list_elem_of_bind. exists 0. split; [|apply elem_of_seqZ; lia].
  apply list_elem_of_bind. exists 0. split; [|apply elem_of_seqZ; lia].
  unfold functions. change (answers disk_cfg 0 0 0) with true. unfold functions_from.
  apply list_elem_of_fmap. exists 0. split; [done|]. apply list_elem_of_filter. split; [reflexivity|apply elem_of_seqZ; lia].
Qed.

(** ** The machine at boot *)

(** The tables of [boot.asm], at 0x1000: the low 4 GiB mapped to themselves by 2 MiB pages,
    and once more at the physmap. *)
Definition boot_word (a : Z) : Z :=
  if a =? 0x1000 then 0x2003 else
  if a =? 0x1000 + 8 * PHYSMAP_PML4_IDX then 0x7003 else
  if (0x2000 <=? a) && (a <? 0x2020) then 0x3003 + (a - 0x2000) / 8 * 0x1000 else
  if (0x7000 <=? a) && (a <? 0x7020) then 0x3003 + (a - 0x7000) / 8 * 0x1000 else
  if (0x3000 <=? a) && (a <? 0x7000) then Z.lor (Z.shiftl ((a - 0x3000) / 8) 21) 0x83 else 0.

Definition boot_mem : mem := word_mem boot_word.

(** Frames 256 to 263 are free. *)
Definition boot_machine : Mach Pmm.Pmm Disk :=
  MkMach (MkVmm boot_mem (MkPmm {[ 32 := 0 ]} 8 0) 0x1000 0) (MkDisk (λ _, 0) 0) ahci_zero.

(** The slots of the low half. *)
Definition low_half (i : Z) : Prop := i < 256.

Lemma low_half_idx va : 0 ≤ va < 2 ^ 47 → low_half (pml4_idx va).
Proof.
  intros Hva. unfold low_half, pml4_idx. change 0x1FF with (Z.ones 9). rewrite Z.land_ones, Z.shiftr_div_pow2 by lia.
  change (2 ^ 9) with 512. Z.div_mod_to_equations. lia.
Qed.

Lemma boot_word_u64 a : 0 ≤ boot_word a < 2 ^ 64.
Proof.
  unfold boot_word. repeat case_match; repeat case_cmp; cbn [andb] in *; try discriminate; try lia; try (Z.div_mod_to_equations; lia).
  apply bounded_by_bits; [lia|apply Z.lor_nonneg; rewrite Z.shiftl_nonneg; split; [apply Z.div_pos|]; lia|].
  intros i Hi. autorewrite with bits. rewrite (testbit_high 0x83 8) by lia.
  rewrite (testbit_high _ 11); [done|split; [apply Z.div_pos; lia|apply Z.div_lt_upper_bound; lia]|lia].
Qed.

Lemma boot_entry t i : t `mod` 8 = 0 → entry boot_mem t i = boot_word (t + 8 * i).
Proof. apply entry_word_mem, boot_word_u64. Qed.

(** The tables below the low half. *)
Lemma boot_tables q t : ok_path low_half q → table_at boot_mem 0x1000 q = Some t →
  (q = [] ∧ t = 0x1000) ∨ (q = [0] ∧ t = 0x2000) ∨ ∃ j, 0 ≤ j < 4 ∧ q = [0; j] ∧ t = 0x3000 + j * 0x1000.
Proof.
  intros Hq Ht. destruct q as [|i q]; [left; by injection Ht as <-|right]. destruct Hq as [[Hi Hq]%Forall_cons Hlow]. unfold low_half, idx_ok in *.
  cbn [table_at] in Ht. rewrite boot_entry in Ht by done.
  assert (i = 0) as ->.
  { destruct (decide (i = 0)) as [|Hne]; [done|]. exfalso. revert Ht. unfold boot_word.
    change (0x1000 + 8 * PHYSMAP_PML4_IDX) with 0x1C00. repeat case_cmp; try lia; cbn [andb]; try done. }
  change (boot_word (0x1000 + 8 * 0)) with 0x2003 in Ht. change (entry_phys 0x2003) with 0x2000 in Ht. change (present 0x2003 && negb (huge 0x2003)) with true in Ht.
  destruct q as [|j q]; [left; by injection Ht as <-|right]. apply Forall_cons in Hq as [Hj Hq]. unfold idx_ok in Hj.
  cbn [table_at] in Ht. rewrite boot_entry in Ht by done. exists j.
  destruct (decide (j < 4)) as [Hj4|Hj4].
  2: { exfalso. revert Ht. unfold boot_word. change (0x1000 + 8 * PHYSMAP_PML4_IDX) with 0x1C00. repeat case_cmp; try lia; cbn [andb]; try done. }
  assert (boot_word (0x2000 + 8 * j) = 0x3003 + j * 0x1000 ∧ entry_phys (0x3003 + j * 0x1000) = 0x3000 + j * 0x1000 ∧
    present (0x3003 + j * 0x1000) && negb (huge (0x3003 + j * 0x1000)) = true) as (Ew & Ep & Eh).
  { assert (j = 0 ∨ j = 1 ∨ j = 2 ∨ j = 3) as [->|[->|[->| ->]]] by lia; done. }
  rewrite Ew, Ep, Eh in Ht. destruct q as [|i q]; [split; [lia|by injection Ht as <-]|]. exfalso. apply Forall_cons in Hq as [Hi' _]. unfold idx_ok in Hi'.
  cbn [table_at] in Ht. rewrite boot_entry in Ht by (Z.div_mod_to_equations; lia).
  assert (boot_word (0x3000 + j * 0x1000 + 8 * i) = Z.lor (Z.shiftl (j * 512 + i) 21) 0x83) as E.
  { unfold boot_word. change (0x1000 + 8 * PHYSMAP_PML4_IDX) with 0x1C00. repeat case_cmp; try lia. cbn [andb]. do 2 f_equal. Z.div_mod_to_equations. lia. }
  rewrite E in Ht. revert Ht. autorewrite with bits. change (Z.testbit 0x83 7) with true. by rewrite !orb_true_r, andb_false_r.
Qed.

Lemma boot_tree_ok : tree_ok low_half 0x1000 (m_vm boot_machine).
Proof.
  split.
  - intros q t Hq _ Ht. destruct (boot_tables q t Hq Ht) as [[_ ->]|[[_ ->]|(j & Hj & _ & ->)]].
    + split; [exists 1; unfold NUM_FRAMES; split; [reflexivity|lia]|reflexivity].
    + split; [exists 2; unfold NUM_FRAMES; split; [reflexivity|lia]|reflexivity].
    + split; [exists (3 + j); unfold NUM_FRAMES, PAGE_SIZE; lia|]. assert (j = 0 ∨ j = 1 ∨ j = 2 ∨ j = 3) as [->|[->|[->| ->]]] by lia; reflexivity.
  - intros q q' t Hq Hq' _ _ Ht Ht'.
    destruct (boot_tables q t Hq Ht) as [[-> ->]|[[-> ->]|(j & Hj & -> & ->)]], (boot_tables q' _ Hq' Ht') as [[-> ?]|[[-> ?]|(j' & Hj' & -> & ?)]];
      done || lia || (assert (j' = j) as -> by lia; done).
  - intros q i t Hq Hl Ht Hp. pose proof (ok_path_snoc_l _ _ _ Hq) as Hq1. pose proof (ok_path_last _ _ _ Hq) as Hi.
    destruct (huge (entry (pm (m_vm boot_machine)) t i)) eqn:E; [|done]. exfalso. revert Hp E. change (pm (m_vm boot_machine)) with boot_mem.
    destruct (boot_tables q t Hq1 Ht) as [[-> ->]|[[-> ->]|(j & Hj & -> & ->)]]; [| |simpl in Hl; lia]; rewrite boot_entry by done; unfold idx_ok in Hi.
    + destruct Hq as [_ Hlow]. unfold low_half in Hlow. cbn in Hlow. unfold boot_word. change (0x1000 + 8 * PHYSMAP_PML4_IDX) with 0x1C00. repeat case_cmp; try lia; cbn [andb]; done.
    + destruct (decide (i < 4)) as [Hi4|]; [assert (i = 0 ∨ i = 1 ∨ i = 2 ∨ i = 3) as [->|[->|[->| ->]]] by lia; done|].
      unfold boot_word. change (0x1000 + 8 * PHYSMAP_PML4_IDX) with 0x1C00. repeat case_cmp; try lia; cbn [andb]; done.
Qed.

Lemma boot_free f : fa_used (fa (m_vm boot_machine)) f = false → 256 ≤ f < 264.
Proof.
  change (is_used (MkPmm {[ 32 := 0 ]} 8 0) f = false → 256 ≤ f < 264). unfold is_used, bitmap_byte. cbn [bitmap].
  destruct (decide (f / 8 = 32)) as [E|E]; [intros _; Z.div_mod_to_equations; lia|].
  rewrite lookup_singleton_ne by done. cbn [default]. intros Hf. exfalso. revert Hf.
  assert (0 ≤ f `mod` 8 < 8) as Hb by (apply Z.mod_pos_bound; lia). generalize dependent (f `mod` 8). intros r Hb.
  assert (r = 0 ∨ r = 1 ∨ r = 2 ∨ r = 3 ∨ r = 4 ∨ r = 5 ∨ r = 6 ∨ r = 7) as [->|[->|[->|[->|[->|[->|[->| ->]]]]]]] by lia; done.
Qed.

Lemma boot_memory_ok : memory_ok low_half (m_vm boot_machine).
Proof.
  split; [split; [exact boot_tree_ok|reflexivity]|]. intros x Hx Hf%boot_free.
  assert (0x100000 ≤ x < 0x108000) as Hb by (unfold frame_of, PAGE_SIZE in Hf; Z.div_mod_to_equations; lia).
  unfold virt_to_phys, walk. change (get_pml4 (m_vm boot_machine)) with 0x1000. change (pm (m_vm boot_machine)) with boot_mem.
  assert (∀ k, 21 ≤ k → Z.land (Z.shiftr x k) 0x1FF = 0) as E.
  { intros k Hk. rewrite Z.shiftr_div_pow2 by lia. rewrite Z.div_small; [done|]. split; [lia|].
    apply (Z.lt_le_trans _ (2 ^ 21)); [lia|apply Z.pow_le_mono_r; lia]. }
  unfold pml4_idx, pdpt_idx, pd_idx. rewrite !E by lia. rewrite boot_entry by done. change (boot_word (0x1000 + 8 * 0)) with 0x2003.
  change (present 0x2003) with true. change (entry_phys 0x2003) with 0x2000. rewrite boot_entry by done. change (boot_word (0x2000 + 8 * 0)) with 0x3003.
  change (present 0x3003) with true. change (huge 0x3003) with false. change (entry_phys 0x3003) with 0x3000. rewrite boot_entry by done.
  change (boot_word (0x3000 + 8 * 0)) with 0x83. change (present 0x83) with true. change (huge 0x83) with true. change (entry_phys 0x83) with 0. cbn [negb].
  change (Z.land 0 0x000FFFFFFFE00000) with 0. change 0x1FFFFF with (Z.ones 21). rewrite Z.land_ones, Z.add_0_l, Z.mod_small by lia.
  apply u64_small. unfold is_u64. lia.
Qed.

(** Two reads after boot: the first sector, and twenty sectors from the fifth on, which
    takes three commands. *)
Lemma disk_reads_sectors_witness :
  ensures_frames 8 (fa (m_vm boot_machine)) ('(m, found) ← ahci_init boot_machine; '(m, rs) ← read_all [(0, 1); (5, 20)] m; Ok (m, found, rs)) (λ '(m', found, rs),
    found = true ∧ rs = [(true, sectors disk_sector 0 1); (true, sectors disk_sector 5 20)] ∧ pm (m_vm m') 0x8000 = 0).
Proof.
  eapply ensures_frames_mono.
  - apply (disk_reads_sectors low_half low_half_idx DISK_PORT disk_sector DISK_ABAR 1 0 disk_cfg [(0, 1); (5, 20)] boot_machine).
    + split; [lia|]. split; [reflexivity|]. intros j Hj. lia.
    + lia.
    + reflexivity.
    + unfold DISK_ABAR. lia.
    + reflexivity.
    + apply disk_bar.
    + apply disk_found.
    + apply boot_memory_ok.
    + split; reflexivity.
    + reflexivity.
    + repeat constructor; unfold in_range; cbn [fst snd]; lia.
  - intros [[m' found] rs] (-> & -> & Hm). split; [reflexivity|]. split; [reflexivity|].
    change (pm (m_vm m') 0x8000 = pm (m_vm boot_machine) 0x8000). change 0x8000 with (8 * PAGE_SIZE). apply Hm; [done|reflexivity|]. split; [reflexivity|].
    intros q t Hq _ Ht. destruct (boot_tables q t Hq Ht) as [[_ ->]|[[_ ->]|(j & Hj & _ & ->)]]; [done|done|]. unfold frame_of, PAGE_SIZE. Z.div_mod_to_equations. lia.
Defined.
